(* ===== verification/_CoqProject ===== *)
-Q . S2P
Prelude.v
ListNode.v
Align.v
KState.v
Timer.v
Thread.v
WaitQueue.v
ThreadLife.v
Logic.v
SchedInv.v
TimerInv.v
SchedSpec.v
SchedOps.v
WaitOps.v
LifeOps.v
Mutex.v
Event.v
Semaphore.v
TimerTick.v
TickOps.v
Rely.v
SyncInv.v
SyncOps.v
System.v
SystemSafe.v
Demo.v
SystemRun.v
SchedClaims.v
TimerClaims.v
LifeClaims.v
PortBuf.v
Port.v
PortOps.v
Pmm.v
PmmInv.v
Vmm.v
VmmSpace.v
VmmInv.v
Heap.v
HeapInv.v
HeapOps.v
HeapSys.v
HeapPages.v
HeapClaims.v
Bio.v
BioOps.v
BioDev.v
BioReg.v
BioRegInv.v
BioRegSys.v
BioClaims.v
Cbuf.v
CbufOps.v
Bcache.v
BcacheOps.v
BcacheClaims.v
Cstring.v
CstringMem.v
CstringOps.v
CstringFind.v
Strtol.v
StrtolOps.v
Printf.v
PrintfOps.v
PrintfRun.v
LibcClaims.v
Qsort.v
QsortOps.v
QsortSort.v
Bsearch.v
SortClaims.v
FsPath.v
Fs.v
FsInv.v
FsFiles.v
Memfs.v
MemfsOps.v
MemfsClaims.v
FsClaims.v
Stdio.v
