(* ===== verification/Prelude.v ===== *)
(** * A verification of the nusa kernel

    nusa is a small multiprocessor kernel in C.  This development models the
    kernel proper (threads, wait queues, timers, synchronisation, ports,
    physical and virtual memory), the data structures below it, and libraries
    above it (the heap, block devices, the block cache, circular buffers, the C
    library, the file system layer and its file system in memory), and proves
    what they promise.  Paths are relative to src/.

    ** The program and the files that model it

    - [top/include/nusa/list.h], the intrusive lists everything is built on: file
      ListNode, on a heap of [prev] and [next] pointers.  Later files keep such
      a list as the Rocq list of its elements, which the refinement theorems of
      ListNode justify; unlinking a node that is on no list is a fault there.
    - [top/include/nusa/pow2.h] and the alignment macros of
      [lib/libc/include/stdlib.h]: Align.
    - The scheduler, [kernel/thread.c] with [kernel/include/kernel/thread.h] and
      [kernel/mp.c]: KState has the data (one record [kstate] for all the file
      scope variables, threads, wait queues, timers and objects by address) and
      the kernel monad; Thread has run queues, [thread_resched] and its callers;
      WaitQueue the wait queues; ThreadLife creation, join, exit and boot.
    - [kernel/timer.c]: Timer (queues) and TimerTick (the interrupt).
    - [kernel/mutex.c], [kernel/event.c], [kernel/semaphore.c]: Mutex, Event,
      Semaphore.
    - [kernel/port.c]: PortBuf (packet buffers), Port (ports and groups).
    - [arch/x86/faults.c], the way into and out of an interrupt handler:
      [interrupt] of System.
    - [kernel/vm/pmm.c] and [kernel/vm/bootalloc.c]: Pmm.  [kernel/vm/vmm.c]
      and [kernel/vm/vm.c]: Vmm.
    - [lib/heap/miniheap/miniheap.c], [lib/heap/heap_wrapper.c] and
      [lib/heap/page_alloc.c], malloc and what is behind it: Heap, on the bytes
      of the memory the heap has; HeapPages gets its pages from Pmm.
    - [lib/bio/bio.c], [lib/bio/mem.c] and [lib/bio/subdev.c]: Bio has reads and
      writes, as classes of hooks ([BlockHooks], [BlockBytes], [BlockDevice])
      with memory devices and sub devices as instances; BioReg has the list of
      devices, their reference counts, the publishing of sub devices, and the
      partitions of [lib/partition/partition.c].
    - [lib/bcache/bcache.c]: Bcache, over any device of Bio.
    - [lib/cbuf/cbuf.c]: Cbuf.
    - [lib/libc], the C library, on a byte addressed memory: Cstring has
      that memory, [ctype.c], [rand.c] and the directory string/, Strtol has
      [strtol.c], [strtoll.c] and [atoi.c], Printf the integer part of
      [printf.c.inc] over any output function ([OutputFunc]), Qsort has
      [qsort.c] and [bsearch.c].
    - [lib/fs/fs.c]: FsPath has [fs_normalize_path] and [trim_name], Fs the mounts
      and handles over any table of driver functions ([fs_api]) and the devices of
      BioReg.
    - [lib/fs/memfs/memfs.c], a driver: Memfs.
    - [lib/libc/stdio.c]: Stdio, streams over the files of Fs; the console is an
      argument.

    Functions keep their C names.  Where a C function is split (a loop, a branch
    that several lemmas are about) the parts are definitions of their own, named
    after the function: [get_top_thread_loop], [exit_detached], [check_gap].

    ** How code becomes definitions

    A kernel operation has type [K A := kstate -> outcome A].  An outcome is a
    return value with the new state, a fault (failed assertion, panic, access
    through a bad pointer or index, a spin lock taken twice), or a point where
    the rest of the operation is left for later: [Switch old new s k], the
    context switch of [thread_resched], and [Unlocked s k], the release of the
    lock or the enabling of interrupts, after which others may run before [k]
    goes on.  So an operation is a sequence of atomic stretches, and the
    interleaving of threads is explicit.  Fields that the C code reads before it
    takes the lock are read together with the lock.  [KConfig] is the build
    configuration: the level of the debug assertions and what depends on it.

    Integers are [Z] at their C width, with [wrap] (u8, u32, u64) at each operation
    that can leave the range.  Pmm, Vmm, Heap, Cbuf and the files below them are pure
    functions to [option]: [None] is an assertion or access that fails.  Their C
    code holds a lock from end to end; where a call of the heap or of a circular
    buffer takes the lock more than once, the parts are separate steps.  Block
    devices and the block cache use the monad [io] of Bio: a value or a negative
    error code, with the state of the device.

    The hardware is a trace of events ([EvSetOneshot], [EvIpi], ...).  The clock
    and what [malloc] returns are components of the state.  Callbacks of timers
    other than the kernel's own, and the page table functions of the
    architecture ([ArchMmu]), are parameters.

    ** What is proved

    - Lists: each operation on the pointers implements the list operation, and
      the traversal loop ends (ListNode).
    - Scheduler: SchedInv and TimerInv state the invariant that relates run
      queues, bitmap, wait queues, timer queues, thread states and current
      threads.  SchedInv shows too that [get_top_thread] picks what a linear scan
      of the priorities picks.  SchedSpec, SchedOps, WaitOps and LifeOps show of
      every operation that it faults nowhere and keeps the invariant, and what it
      does; SchedClaims, TimerClaims and LifeClaims state the resulting contracts.
    - Timer interrupt: TickOps; the loop ends, fires what is due, and leaves the
      queue in order with the hardware set to the next deadline.
    - Running system: Rely and SyncInv set up a rely-guarantee argument, in
      SyncOps each operation a thread may call keeps to it, System defines the
      steps of any number of cpus and threads with interrupts, and SystemSafe
      and SystemRun show that no run faults, that mutexes exclude, that
      operations and interrupts always return or wait properly, and a schedule
      in which a mutex is lost by a timeout.
    - Ports: PortBuf shows that the circular buffer is a bounded queue, PortOps
      what writing and reading do, and a sequence of two calls that faults.
    - Memory: PmmInv and VmmInv show that no page is lost or given out twice,
      that searches for contiguous pages and for room in an address space are
      complete, and that failed operations give back what they took; VmmSpace
      has the region lists.
    - Heap: HeapInv has the invariant (the free chunks are sorted, apart and
      coalesced, and with the blocks given out they make up the pages), HeapOps
      and HeapSys what the operations do, HeapPages that the page allocator keeps
      the laws the heap relies on, HeapClaims the resulting contracts.
    - Block devices: BioOps states the laws of a driver and shows that the
      deblocking of partial transfers makes an array of bytes of it; BioDev has
      the public entry points and the devices that keep the laws; BioRegInv and
      BioRegSys that reference counts are what they should be; BioClaims the
      contracts, and two places where the code does less than it says.
    - Block cache: BcacheOps defines what a cache shows of its device and
      that evicting, filling and flushing leave it; BcacheClaims the
      refinement.
    - Circular buffers: CbufOps, that they are queues for any number of readers
      and writers.
    - Memory and strings: CstringMem (copying and filling, in words where the
      addresses allow), CstringOps (building strings), CstringFind (comparing and
      searching) give each function its effect as an equation, and [strtok] what a
      sequence of calls returns.
    - Numbers: StrtolOps, that what [strtol] computes with its cutoff is the value
      of the digits, clamped to the type.
    - Formatted output: PrintfOps defines formats as data and the text each stands
      for, and a small logic of what an output function receives ([OutputLaws]);
      PrintfRun shows that the engine prints that text and that [vsnprintf] stores
      it.  LibcClaims has the contracts, that printing a number and reading it
      gives it back, and inputs for which the code does not do what the C
      standard says.
    - Sorting: QsortOps sees an array in memory as the list of its elements,
      QsortSort follows the partition and the recursion; Bsearch has the search
      and SortClaims the contracts.
    - Paths: FsPath shows that the state machine of [fs_normalize_path] computes
      the normal form of the fields of a path, in place and in bounded time.
    - File system layer: FsInv has the class [FsLaws], what a driver promises, and the
      invariant of mounts and handles; FsFiles what each function does, and any
      sequence of calls by clients.
    - memfs: MemfsOps has the invariant of the driver, describes each operation by
      the list of named byte strings a file system holds, and makes it an instance
      of [FsLaws]; MemfsClaims has the refinement.  FsClaims has the contracts of
      the layer, with memfs below it where they speak of bytes, the tests of
      [lib/fs/test/test.c] for paths, and sequences of calls that fault.
    - Streams: Stdio shows that [fgets] reads lines of any file, and that what is
      written to a stream over memfs is read back.

    Demo is a concrete state that satisfies the invariant.  The examples that
    end each group evaluate the definitions on it or on states built from it.

    ** Bounds and fuel

    Loops that are not structural take fuel and fault, or return [None], without it.
    [get_top_thread] gets 32 rounds: each clears one bit of a 32-bit map.
    [wait_queue_wake_all] gets the length of the queue.  The timer
    tick takes its fuel as an argument, and its theorem says that two rounds more
    than the queue is long are enough, the callbacks of the tick included.
    [find_run] gets the number of pages of the arena and one more, and
    the theorem about it shows that the search never runs out.  The loops of
    [port_read] block once a round, so their fuel bounds the number of times
    the caller is woken without a packet; the theorem holds for any positive
    fuel.  The loops over a buffer or the blocks of a transfer get as much fuel as
    there are bytes or blocks, and each round takes one at least; trimming a
    chunk of the heap jumps back at most twice; dropping the last reference
    of a sub device goes on with its parent, which was set up before it.
    [fs_normalize_path] gets four rounds for each character of its buffer and four more: between
    two characters the machine changes its state at most three times.

    In the system model the tick of one cpu, between taking a timer off the queue
    and calling it back, runs without steps of other cpus.  A timer exactly
    2^31 milliseconds away is excluded there: it fails an assertion of
    [timer_tick].

    ** Not modelled

    Processor specific code (context switch in registers, page tables, fault
    vectors), device drivers, platforms and targets; third-party code under
    external/; applications; console commands and dump routines, which only
    print; [kernel/novm/novm.c], for targets without a memory management unit;
    the start-up sequence in top/; the kernel event log and the trace macros.
    Of the libraries: file systems with a format on disk, networking, graphics and
    consoles, the alternative heaps, floating point conversions and the console
    behind the standard streams.  Calls of lib/fs are not interleaved with each
    other: one call is one step. *)

From stdpp Require Export base gmap sets option numbers list strings.
From Stdlib Require Export ZArith.

#[global] Open Scope Z_scope.
#[global] Set Default Proof Using "Type".

(** ** Machine integers

    A C unsigned integer of width [w] is a [Z] in [[0, 2^w)]; every arithmetic
    result is brought back into range by [wrap].  Signed values are [Z]s in
    [[-2^(w-1), 2^(w-1))]; [to_signed] is the conversion the C casts perform. *)
Declare Scope nusa_scope.
Delimit Scope nusa_scope with nusa.

Definition wrap (w : Z) (x : Z) : Z := x mod 2 ^ w.
Definition to_signed (w : Z) (x : Z) : Z :=
  let y := wrap w x in if y <? 2 ^ (w - 1) then y else y - 2 ^ w.

Abbreviation u8 := (wrap 8).
Abbreviation u16 := (wrap 16).
Abbreviation u32 := (wrap 32).
Abbreviation u64 := (wrap 64).
Abbreviation s32 := (to_signed 32).

Definition UINT32_MAX : Z := 2 ^ 32 - 1.
Definition ULONG_MAX : Z := 2 ^ 64 - 1.

(** [__builtin_clz] of a non-zero 32-bit value. *)
Definition builtin_clz (x : Z) : Z := 31 - Z.log2 x.

(** [1 << n] and the clearing of a mask, [a & ~b], on [w]-bit values. *)
Definition BIT (n : Z) : Z := Z.shiftl 1 n.
Definition has_flag (flags mask : Z) : bool := negb (Z.land flags mask =? 0).
Definition clear_flag (flags mask : Z) : Z := Z.ldiff flags mask.

(** ** Status codes, [nusa/err.h] *)
Definition NO_ERROR : Z := 0.
Definition ERR_GENERIC : Z := -1.
Definition ERR_NOT_FOUND : Z := -2.
Definition ERR_NOT_READY : Z := -3.
Definition ERR_NO_MSG : Z := -4.
Definition ERR_NO_MEMORY : Z := -5.
Definition ERR_NOT_VALID : Z := -7.
Definition ERR_INVALID_ARGS : Z := -8.
Definition ERR_NOT_ENOUGH_BUFFER : Z := -9.
Definition ERR_NOT_SUSPENDED : Z := -10.
Definition ERR_OBJECT_DESTROYED : Z := -11.
Definition ERR_NOT_BLOCKED : Z := -12.
Definition ERR_TIMED_OUT : Z := -13.
Definition ERR_ALREADY_EXISTS : Z := -14.
Definition ERR_NOT_ALLOWED : Z := -17.
Definition ERR_IO : Z := -20.
Definition ERR_NOT_SUPPORTED : Z := -24.
Definition ERR_TOO_BIG : Z := -25.
Definition ERR_CANCELLED : Z := -26.
Definition ERR_BUSY : Z := -33.
Definition ERR_THREAD_DETACHED : Z := -34.
Definition ERR_OUT_OF_RANGE : Z := -37.
Definition ERR_BAD_HANDLE : Z := -42.
Definition ERR_PARTIAL_WRITE : Z := -44.

(** ** Automation *)
Create HintDb nusa discriminated.
Create Rewrite HintDb nusa_bits.
Create Rewrite HintDb nusa_list.

(** Case analysis on the boolean tests the C conditions become. *)
Ltac bool_cases :=
  repeat match goal with
  | H : (_ && _)%bool = true |- _ => apply andb_true_iff in H as [? ?]
  | H : (_ || _)%bool = false |- _ => apply orb_false_iff in H as [? ?]
  | H : negb _ = true |- _ => apply negb_true_iff in H
  | H : negb _ = false |- _ => apply negb_false_iff in H
  | H : (_ <? _) = true |- _ => apply Z.ltb_lt in H
  | H : (_ <? _) = false |- _ => apply Z.ltb_ge in H
  | H : (_ <=? _) = true |- _ => apply Z.leb_le in H
  | H : (_ <=? _) = false |- _ => apply Z.leb_gt in H
  | H : (_ =? _) = true |- _ => apply Z.eqb_eq in H
  | H : (_ =? _) = false |- _ => apply Z.eqb_neq in H
  | H : bool_decide _ = true |- _ => apply bool_decide_eq_true in H
  | H : bool_decide _ = false |- _ => apply bool_decide_eq_false in H
  end.

(** ** Arithmetic lemmas *)
Lemma wrap_range w x : 0 <= w -> 0 <= wrap w x < 2 ^ w.
Proof. intros. apply Z.mod_pos_bound. lia. Qed.

Lemma wrap_small w x : 0 <= x < 2 ^ w -> wrap w x = x.
Proof. apply Z.mod_small. Qed.

Lemma wrap_add_l w x y : 0 <= w -> wrap w (wrap w x + y) = wrap w (x + y).
Proof. intros. apply Zplus_mod_idemp_l. Qed.

Lemma wrap_add_r w x y : 0 <= w -> wrap w (x + wrap w y) = wrap w (x + y).
Proof. intros. apply Zplus_mod_idemp_r. Qed.

Lemma wrap_wrap w x : wrap w (wrap w x) = wrap w x.
Proof. apply Zmod_mod. Qed.

#[export] Hint Rewrite wrap_wrap : nusa_bits.
#[export] Hint Resolve wrap_range wrap_small : nusa.

Lemma to_signed_small w x : 0 < w -> - 2 ^ (w - 1) <= x < 2 ^ (w - 1) -> to_signed w x = x.
Proof.
  intros Hw Hx. unfold to_signed, wrap.
  assert (2 ^ w = 2 * 2 ^ (w - 1)) as E by (rewrite <- Z.pow_succ_r by lia; f_equal; lia).
  destruct (Z.ltb_spec (x mod 2 ^ w) (2 ^ (w - 1))) as [H|H];
    destruct (decide (0 <= x)).
  - apply Z.mod_small. lia.
  - rewrite (Z.mod_eq x (2 ^ w)) in H by lia.
    assert (x / 2 ^ w = -1) as Hq by (symmetry; apply Z.div_unique with (x + 2 ^ w); lia).
    rewrite Hq in H. lia.
  - rewrite Z.mod_small in H by lia. lia.
  - assert (x / 2 ^ w = -1) as Hq by (symmetry; apply Z.div_unique with (x + 2 ^ w); lia).
    rewrite Z.mod_eq by lia. rewrite Hq. lia.
Qed.

(** ** Bit lemmas *)
Lemma BIT_spec n m : 0 <= n -> 0 <= m -> Z.testbit (BIT n) m = bool_decide (n = m).
Proof.
  intros. unfold BIT. rewrite Z.shiftl_1_l. case_bool_decide.
  - subst. by apply Z.pow2_bits_true.
  - by apply Z.pow2_bits_false.
Qed.

Lemma BIT_pos n : 0 <= n -> 0 < BIT n.
Proof. intros. unfold BIT. rewrite Z.shiftl_1_l. lia. Qed.

Lemma testbit_set x n m :
  0 <= n -> 0 <= m ->
  Z.testbit (Z.lor x (BIT n)) m = Z.testbit x m || bool_decide (n = m).
Proof. intros. rewrite Z.lor_spec, BIT_spec by lia. done. Qed.

Lemma testbit_clear x n m :
  0 <= n -> 0 <= m ->
  Z.testbit (clear_flag x (BIT n)) m = Z.testbit x m && negb (bool_decide (n = m)).
Proof. intros. unfold clear_flag. rewrite Z.ldiff_spec, BIT_spec by lia. done. Qed.

#[export] Hint Rewrite testbit_set testbit_clear using lia : nusa_bits.

Lemma bits_range w x :
  0 <= w -> 0 <= x -> (forall m, w <= m -> Z.testbit x m = false) -> x < 2 ^ w.
Proof.
  intros Hw Hx Hb. destruct (decide (x = 0)) as [->|]; [lia|].
  apply Z.log2_lt_pow2; [lia|]. destruct (decide (Z.log2 x < w)); [done|].
  specialize (Hb (Z.log2 x)). rewrite Z.bit_log2 in Hb by lia. discriminate Hb. lia.
Qed.

(** ** Lists *)
Section remove.
Context {A : Type} `{EqDecision A}.

(** [remove_elt x l]: what unlinking [x] leaves of a list it may be on. *)
Definition remove_elt (x : A) (l : list A) : list A := filter (fun y => y <> x) l.

Lemma remove_elt_notin x l : x ∉ l -> remove_elt x l = l.
Proof.
  induction l as [|y l IH]; [done|]. intros Hn. unfold remove_elt.
  rewrite filter_cons_True by set_solver. f_equal. apply IH. set_solver.
Qed.

Lemma elem_of_remove_elt x y l : y ∈ remove_elt x l <-> y ∈ l /\ y <> x.
Proof. unfold remove_elt. rewrite list_elem_of_filter. tauto. Qed.

Lemma remove_elt_app x l1 l2 : remove_elt x (l1 ++ l2) = remove_elt x l1 ++ remove_elt x l2.
Proof. apply filter_app. Qed.

Lemma remove_elt_cons_eq x l : x ∉ l -> remove_elt x (x :: l) = l.
Proof.
  intros. unfold remove_elt. rewrite filter_cons_False by naive_solver.
  by apply remove_elt_notin.
Qed.

Lemma remove_elt_cons_ne x y l : y <> x -> remove_elt x (y :: l) = y :: remove_elt x l.
Proof. intros. unfold remove_elt. by rewrite filter_cons_True. Qed.

Lemma length_remove_elt_le x l : (length (remove_elt x l) <= length l)%nat.
Proof. apply length_filter. Qed.

Lemma remove_elt_mid x l1 l2 :
  NoDup (l1 ++ x :: l2) -> remove_elt x (l1 ++ x :: l2) = l1 ++ l2.
Proof.
  intros (H1 & Hd & H2)%NoDup_app. apply NoDup_cons in H2 as [??].
  rewrite remove_elt_app, remove_elt_cons_eq, remove_elt_notin by set_solver. done.
Qed.

Lemma NoDup_remove_elt x l : NoDup l -> NoDup (remove_elt x l).
Proof. apply NoDup_filter. Qed.

Lemma length_remove_elt x l :
  NoDup l -> x ∈ l -> length (remove_elt x l) = (length l - 1)%nat.
Proof.
  intros Hnd (l1 & l2 & ->)%list_elem_of_split.
  rewrite remove_elt_mid by done. rewrite !length_app. simpl. lia.
Qed.

Lemma remove_elt_perm x l : NoDup l -> x ∈ l -> l ≡ₚ x :: remove_elt x l.
Proof.
  intros Hnd (l1 & l2 & ->)%list_elem_of_split. rewrite remove_elt_mid by done.
  by rewrite Permutation_middle.
Qed.
End remove.

#[export] Hint Resolve NoDup_remove_elt : nusa.
#[export] Hint Rewrite @elem_of_remove_elt : nusa_list.

(** ** Maps *)
Lemma insert_shadow `{Countable K} {A} (m : gmap K A) i j x y z :
  i <> j -> <[i := x]> (<[j := y]> (<[i := z]> m)) = <[i := x]> (<[j := y]> m).
Proof. intros. by rewrite (insert_insert_ne m j i), insert_insert_eq. Qed.
