(* ===== verification/ListNode.v ===== *)
(** * Intrusive doubly linked lists ([top/include/nusa/list.h])

    The lists every kernel component is built on, at the level of the [prev]
    and [next] pointers: a heap of nodes, and each inline function of the
    header as the sequence of loads and stores it performs.  A load or store
    through a pointer that is not a node of the heap (NULL included) is [None].

    [dll h l xs] says that in heap [h] the header node [l] leads a well formed
    circular list with elements [xs].  The refinement theorems show that the
    pointer manipulation implements the mathematical list operations, leaves
    every other node of the heap alone, and never follows a dangling pointer.
    They justify the other files of the development, which represent each
    intrusive list by the list of its elements. *)
From S2P Require Import Prelude.

Abbreviation loc := Z (only parsing).
Definition NULL : loc := 0.

Record list_node := ListNode { prev : loc; next : loc }.

(** ** Loads and stores *)
Section heap.
Implicit Types h : gmap loc list_node.

Definition get_next h (p : loc) : option loc := next <$> h !! p.
Definition get_prev h (p : loc) : option loc := prev <$> h !! p.
Definition set_next h (p v : loc) : option (gmap loc list_node) :=
  n ← h !! p; Some (<[p := ListNode (prev n) v]> h).
Definition set_prev h (p v : loc) : option (gmap loc list_node) :=
  n ← h !! p; Some (<[p := ListNode v (next n)]> h).

(** ** The functions of list.h *)
Definition list_initialize h (lst : loc) : option (gmap loc list_node) :=
  h ← set_next h lst lst; set_prev h lst lst.

Definition list_clear_node h (item : loc) : option (gmap loc list_node) :=
  h ← set_next h item NULL; set_prev h item NULL.

Definition list_in_list h (item : loc) : option bool :=
  p ← get_prev h item; n ← get_next h item;
  Some (if decide (p = NULL /\ n = NULL) then false else true).

Definition list_add_head h (lst item : loc) : option (gmap loc list_node) :=
  n ← get_next h lst; h ← set_next h item n;
  h ← set_prev h item lst;
  n ← get_next h lst; h ← set_prev h n item;
  set_next h lst item.

Definition list_add_after h (entry new_entry : loc) := list_add_head h entry new_entry.

Definition list_add_tail h (lst item : loc) : option (gmap loc list_node) :=
  p ← get_prev h lst; h ← set_prev h item p;
  h ← set_next h item lst;
  p ← get_prev h lst; h ← set_next h p item;
  set_prev h lst item.

Definition list_add_before h (entry new_entry : loc) := list_add_tail h entry new_entry.

Definition list_delete h (item : loc) : option (gmap loc list_node) :=
  n ← get_next h item; p ← get_prev h item; h ← set_prev h n p;
  p ← get_prev h item; n ← get_next h item; h ← set_next h p n;
  h ← set_next h item NULL; set_prev h item NULL.

(** The removal functions return the heap and the item, NULL on an empty list. *)
Definition list_remove_head h (lst : loc) : option (gmap loc list_node * loc) :=
  n ← get_next h lst;
  if decide (n <> lst) then h ← list_delete h n; Some (h, n) else Some (h, NULL).

Definition list_remove_tail h (lst : loc) : option (gmap loc list_node * loc) :=
  p ← get_prev h lst;
  if decide (p <> lst) then h ← list_delete h p; Some (h, p) else Some (h, NULL).

Definition list_peek_head h (lst : loc) : option loc :=
  n ← get_next h lst; Some (if decide (n <> lst) then n else NULL).

Definition list_peek_tail h (lst : loc) : option loc :=
  p ← get_prev h lst; Some (if decide (p <> lst) then p else NULL).

Definition list_prev h (lst item : loc) : option loc :=
  p ← get_prev h item; Some (if decide (p <> lst) then p else NULL).

Definition list_next h (lst item : loc) : option loc :=
  n ← get_next h item; Some (if decide (n <> lst) then n else NULL).

Definition list_prev_wrap h (lst item : loc) : option loc :=
  p ← get_prev h item;
  if decide (p <> lst) then Some p
  else pp ← get_prev h p; Some (if decide (pp <> lst) then pp else NULL).

Definition list_next_wrap h (lst item : loc) : option loc :=
  n ← get_next h item;
  if decide (n <> lst) then Some n
  else nn ← get_next h n; Some (if decide (nn <> lst) then nn else NULL).

Definition list_is_empty h (lst : loc) : option bool :=
  n ← get_next h lst; Some (bool_decide (n = lst)).

(** [list_for_every]: the nodes the loop visits, [None] when the fuel runs
    out before the loop reaches the header again. *)
Fixpoint list_walk (fuel : nat) h (lst node : loc) : option (list loc) :=
  if decide (node = lst) then Some []
  else match fuel with
       | O => None
       | S fuel => n ← get_next h node; ns ← list_walk fuel h lst n; Some (node :: ns)
       end.

Definition list_for_every (fuel : nat) h (lst : loc) : option (list loc) :=
  n ← get_next h lst; list_walk fuel h lst n.

Definition list_length (fuel : nat) h (lst : loc) : option Z :=
  ns ← list_for_every fuel h lst; Some (Z.of_nat (length ns)).
End heap.

(** ** Well formed lists *)
Section wf.
Implicit Types h : gmap loc list_node.

(** [seg h a xs b]: following [next] from [a] visits [xs] and then reaches
    [b], and the [prev] pointers retrace the path. *)
Fixpoint seg h (a : loc) (xs : list loc) (b : loc) : Prop :=
  match xs with
  | [] => get_next h a = Some b /\ get_prev h b = Some a
  | x :: xs => (get_next h a = Some x /\ get_prev h x = Some a) /\ seg h x xs b
  end.

Record dll h (l : loc) (xs : list loc) : Prop := {
  dll_seg : seg h l xs l;
  dll_nodup : NoDup (l :: xs);
  dll_null : NULL ∉ l :: xs;
}.

Lemma seg_app h a xs m ys b :
  seg h a (xs ++ m :: ys) b <-> seg h a xs m /\ seg h m ys b.
Proof.
  revert a. induction xs as [|x xs IH]; intros a; simpl; [tauto|].
  rewrite IH. tauto.
Qed.

Lemma seg_frame h h' a xs b :
  seg h a xs b ->
  (forall p, p ∈ a :: xs -> get_next h' p = get_next h p) ->
  (forall p, p ∈ b :: xs -> get_prev h' p = get_prev h p) ->
  seg h' a xs b.
Proof.
  revert a. induction xs as [|x xs IH]; intros a; simpl.
  - intros [??] Hn Hp. rewrite Hn, Hp by set_solver. done.
  - intros [[??] Hs] Hn Hp. rewrite Hn, Hp by set_solver. split; [done|].
    apply IH; [done|..]; intros p ?; [apply Hn|apply Hp]; set_solver.
Qed.

(** A circular list can be entered at any of its nodes. *)
Lemma dll_rotate h l xs e ys :
  dll h l (xs ++ e :: ys) -> dll h e (ys ++ l :: xs).
Proof.
  intros [Hs Hd Hn]. split.
  - apply seg_app in Hs as [??]. apply seg_app. done.
  - assert (l :: xs ++ e :: ys ≡ₚ e :: ys ++ l :: xs) as <-; [|done].
    apply (Permutation_app_comm (l :: xs) (e :: ys)).
  - set_solver.
Qed.

Lemma seg_next h a xs b : seg h a xs b -> get_next h a = Some (hd b xs).
Proof. destruct xs; simpl; tauto. Qed.

Lemma seg_prev h a xs b : seg h a xs b -> get_prev h b = Some (default a (last xs)).
Proof.
  revert a. induction xs as [|x xs IH]; intros a; simpl; [tauto|].
  intros [_ Hs]. rewrite last_cons, (IH _ Hs). by destruct (last xs).
Qed.

Lemma set_next_spec h p v :
  is_Some (h !! p) ->
  exists h', set_next h p v = Some h' /\
    (forall q, get_next h' q = if decide (q = p) then Some v else get_next h q) /\
    (forall q, get_prev h' q = get_prev h q) /\ dom h' = dom h.
Proof.
  intros [n Hn]. unfold set_next. rewrite Hn. simpl. eexists; split; [done|].
  repeat split; [..|rewrite dom_insert_L; apply subseteq_union_1_L, singleton_subseteq_l,
    elem_of_dom; eauto];
    intros q; unfold get_next, get_prev; case_decide || destruct (decide (q = p));
    subst; simplify_map_eq; done.
Qed.

Lemma set_prev_spec h p v :
  is_Some (h !! p) ->
  exists h', set_prev h p v = Some h' /\
    (forall q, get_prev h' q = if decide (q = p) then Some v else get_prev h q) /\
    (forall q, get_next h' q = get_next h q) /\ dom h' = dom h.
Proof.
  intros [n Hn]. unfold set_prev. rewrite Hn. simpl. eexists; split; [done|].
  repeat split; [..|rewrite dom_insert_L; apply subseteq_union_1_L, singleton_subseteq_l,
    elem_of_dom; eauto];
    intros q; unfold get_next, get_prev; case_decide || destruct (decide (q = p));
    subst; simplify_map_eq; done.
Qed.

Lemma get_next_is_Some h p : is_Some (get_next h p) <-> is_Some (h !! p).
Proof. unfold get_next. apply fmap_is_Some. Qed.
Lemma get_prev_is_Some h p : is_Some (get_prev h p) <-> is_Some (h !! p).
Proof. unfold get_prev. apply fmap_is_Some. Qed.

(** The effect of the three pointer surgeries on the two pointer fields. *)
Lemma list_add_head_spec h l n item :
  get_next h l = Some n -> is_Some (h !! n) -> is_Some (h !! item) -> item <> l -> item <> n ->
  exists h', list_add_head h l item = Some h' /\ dom h' = dom h /\
    (forall q, get_next h' q = if decide (q = l) then Some item
                               else if decide (q = item) then Some n else get_next h q) /\
    (forall q, get_prev h' q = if decide (q = n) then Some item
                               else if decide (q = item) then Some l else get_prev h q).
Proof.
  intros Hl Hn Hi Hne1 Hne2. unfold list_add_head. rewrite Hl. simpl.
  destruct (set_next_spec h item n) as (h1 & -> & Hn1 & Hp1 & Hd1); [done|]. simpl.
  destruct (set_prev_spec h1 item l) as (h2 & -> & Hp2 & Hn2 & Hd2).
  { apply elem_of_dom. rewrite Hd1. by apply elem_of_dom. }
  simpl. rewrite Hn2, Hn1, decide_False, Hl by done. simpl.
  destruct (set_prev_spec h2 n item) as (h3 & -> & Hp3 & Hn3 & Hd3).
  { apply elem_of_dom. rewrite Hd2, Hd1. by apply elem_of_dom. }
  simpl.
  destruct (set_next_spec h3 l item) as (h4 & -> & Hn4 & Hp4 & Hd4).
  { apply elem_of_dom. rewrite Hd3, Hd2, Hd1. apply elem_of_dom, get_next_is_Some. eauto. }
  eexists; split; [done|]. split; [congruence|]. split; intros q.
  - by rewrite Hn4, Hn3, Hn2, Hn1.
  - by rewrite Hp4, Hp3, Hp2, Hp1.
Qed.

Lemma list_add_tail_spec h l n item :
  get_prev h l = Some n -> is_Some (h !! n) -> is_Some (h !! item) -> item <> l -> item <> n ->
  exists h', list_add_tail h l item = Some h' /\ dom h' = dom h /\
    (forall q, get_prev h' q = if decide (q = l) then Some item
                               else if decide (q = item) then Some n else get_prev h q) /\
    (forall q, get_next h' q = if decide (q = n) then Some item
                               else if decide (q = item) then Some l else get_next h q).
Proof.
  intros Hl Hn Hi Hne1 Hne2. unfold list_add_tail. rewrite Hl. simpl.
  destruct (set_prev_spec h item n) as (h1 & -> & Hp1 & Hn1 & Hd1); [done|]. simpl.
  destruct (set_next_spec h1 item l) as (h2 & -> & Hn2 & Hp2 & Hd2).
  { apply elem_of_dom. rewrite Hd1. by apply elem_of_dom. }
  simpl. rewrite Hp2, Hp1, decide_False, Hl by done. simpl.
  destruct (set_next_spec h2 n item) as (h3 & -> & Hn3 & Hp3 & Hd3).
  { apply elem_of_dom. rewrite Hd2, Hd1. by apply elem_of_dom. }
  simpl.
  destruct (set_prev_spec h3 l item) as (h4 & -> & Hp4 & Hn4 & Hd4).
  { apply elem_of_dom. rewrite Hd3, Hd2, Hd1. apply elem_of_dom, get_prev_is_Some. eauto. }
  eexists; split; [done|]. split; [congruence|]. split; intros q.
  - by rewrite Hp4, Hp3, Hp2, Hp1.
  - by rewrite Hn4, Hn3, Hn2, Hn1.
Qed.

Lemma list_delete_spec h n p item :
  get_next h item = Some n -> get_prev h item = Some p ->
  is_Some (h !! n) -> is_Some (h !! p) -> item <> n -> item <> p ->
  exists h', list_delete h item = Some h' /\ dom h' = dom h /\
    (forall q, get_prev h' q = if decide (q = item) then Some NULL
                               else if decide (q = n) then Some p else get_prev h q) /\
    (forall q, get_next h' q = if decide (q = item) then Some NULL
                               else if decide (q = p) then Some n else get_next h q).
Proof.
  intros Hn Hp Hin Hip Hne1 Hne2. unfold list_delete. rewrite Hn, Hp. simpl.
  destruct (set_prev_spec h n p) as (h1 & -> & Hp1 & Hn1 & Hd1); [done|]. simpl.
  rewrite Hp1, Hn1, decide_False, Hp, Hn by done. simpl.
  destruct (set_next_spec h1 p n) as (h2 & -> & Hn2 & Hp2 & Hd2).
  { apply elem_of_dom. rewrite Hd1. by apply elem_of_dom. }
  simpl.
  destruct (set_next_spec h2 item NULL) as (h3 & -> & Hn3 & Hp3 & Hd3).
  { apply elem_of_dom. rewrite Hd2, Hd1. apply elem_of_dom, get_next_is_Some. eauto. }
  simpl.
  destruct (set_prev_spec h3 item NULL) as (h4 & -> & Hp4 & Hn4 & Hd4).
  { apply elem_of_dom. rewrite Hd3, Hd2, Hd1. apply elem_of_dom, get_next_is_Some. eauto. }
  eexists; split; [done|]. split; [congruence|]. split; intros q.
  - by rewrite Hp4, Hp3, Hp2, Hp1.
  - by rewrite Hn4, Hn3, Hn2, Hn1.
Qed.

Lemma node_eq h h' q :
  get_next h' q = get_next h q -> get_prev h' q = get_prev h q -> h' !! q = h !! q.
Proof.
  unfold get_next, get_prev.
  destruct (h' !! q) as [[]|], (h !! q) as [[]|]; naive_solver.
Qed.

Lemma seg_dom h a xs b p : seg h a xs b -> p ∈ a :: xs ++ [b] -> is_Some (h !! p).
Proof.
  revert a. induction xs as [|x xs IH]; intros a; simpl.
  - intros [Hn Hp] [->|[->|[]%not_elem_of_nil]%elem_of_cons]%elem_of_cons;
      [apply get_next_is_Some|apply get_prev_is_Some]; eauto.
  - intros [[Hn Hp] Hs] [->|Hin]%elem_of_cons; [apply get_next_is_Some; eauto|].
    by apply (IH x).
Qed.

Lemma seg_cut h a xs ys b :
  seg h a (xs ++ ys) b <-> seg h a xs (hd b ys) /\ seg h (default a (last xs)) ys b.
Proof.
  revert a. induction xs as [|x xs IH]; intros a; simpl.
  - destruct ys; simpl; tauto.
  - rewrite IH, last_cons. destruct (last xs); simpl; tauto.
Qed.

(** Moving the right end, respectively the left end, of a segment. *)
Lemma seg_retarget h h' a xs b b' :
  seg h a xs b -> NoDup (a :: xs) ->
  (forall p, p ∈ a :: xs -> p <> default a (last xs) -> get_next h' p = get_next h p) ->
  (forall p, p ∈ xs -> get_prev h' p = get_prev h p) ->
  get_next h' (default a (last xs)) = Some b' -> get_prev h' b' = Some (default a (last xs)) ->
  seg h' a xs b'.
Proof.
  revert a. induction xs as [|x xs IH]; intros a; [simpl; tauto|].
  rewrite last_cons. intros [[Ha Hx] Hs] [Hna Hnd]%NoDup_cons Hn Hp Hl Hb'.
  assert (default x (last xs) ∈ x :: xs) as Hin.
  { destruct (last xs) eqn:E; simpl; [|set_solver].
    apply last_Some_elem_of in E. set_solver. }
  assert (forall c, default c (match last xs with Some y => Some y | None => Some x end)
          = default x (last xs)) as Hdef by (by destruct (last xs)).
  rewrite Hdef in Hl, Hb'. split.
  - rewrite Hn, Hp; [done|set_solver|set_solver|]. rewrite Hdef. intros ->. set_solver.
  - apply IH; try done; [|set_solver]. intros p ??. apply Hn; [set_solver|by rewrite Hdef].
Qed.

Lemma seg_restart h h' a a' xs b :
  seg h a xs b -> NoDup (b :: xs) ->
  (forall p, p ∈ xs -> get_next h' p = get_next h p) ->
  (forall p, p ∈ b :: xs -> p <> hd b xs -> get_prev h' p = get_prev h p) ->
  get_next h' a' = Some (hd b xs) -> get_prev h' (hd b xs) = Some a' ->
  seg h' a' xs b.
Proof.
  destruct xs as [|x xs]; simpl; [tauto|]. intros [_ Hs] Hnd Hn Hp ??. split; [done|].
  apply NoDup_cons in Hnd as [? [??]%NoDup_cons].
  apply (seg_frame h); [done|set_solver|]. intros p ?. apply Hp; [set_solver|].
  intros ->. set_solver.
Qed.

Lemma ring_disj_l {l n : loc} {xs ys} :
  l ∉ xs ++ ys -> (forall x, x ∈ xs -> x ∉ ys) -> n ∈ l :: ys -> n ∈ xs -> False.
Proof. set_solver. Qed.
Lemma ring_disj_r {l n : loc} {xs ys} :
  l ∉ xs ++ ys -> (forall x, x ∈ xs -> x ∉ ys) -> n ∈ l :: xs -> n ∈ ys -> False.
Proof. set_solver. Qed.

Section ring.
Context {h : gmap loc list_node} {l : loc} {xs ys : list loc}.
Let e := default l (last xs).
Let n := hd l ys.

Lemma ring_left_in : e ∈ l :: xs.
Proof.
  unfold e. destruct (last xs) eqn:E; simpl; [|set_solver].
  apply last_Some_elem_of in E. set_solver.
Qed.
Lemma ring_right_in : n ∈ l :: ys.
Proof. unfold n. destruct ys; set_solver. Qed.

(** Splicing [item] between two neighbours of a ring, whatever the order of
    the stores that did it. *)
Lemma dll_insert h' item :
  dll h l (xs ++ ys) -> item ∉ l :: xs ++ ys -> item <> NULL ->
  (forall q, get_next h' q = if decide (q = e) then Some item
                             else if decide (q = item) then Some n else get_next h q) ->
  (forall q, get_prev h' q = if decide (q = n) then Some item
                             else if decide (q = item) then Some e else get_prev h q) ->
  dll h' l (xs ++ item :: ys).
Proof.
  intros [Hs Hd H0] Hi Hi0 Hn Hp. apply seg_cut in Hs as [Hs1 Hs2].
  pose proof ring_left_in as He. pose proof ring_right_in as Hr.
  apply NoDup_cons in Hd as [Hl Hd]. pose proof Hd as (Hx & Hdis & Hy)%NoDup_app.
  split; [|rewrite <- Permutation_middle, NoDup_cons, NoDup_cons; set_solver|set_solver].
  apply seg_app. split.
  - eapply (seg_retarget h); [done|constructor; set_solver|..].
    + intros p ??. rewrite Hn, !decide_False; set_solver.
    + intros p H. rewrite Hp. case_decide as C; [exfalso; rewrite C in H; exact (ring_disj_l Hl Hdis Hr H)|].
      case_decide as C2; [exfalso; rewrite C2 in H; set_solver|done].
    + by rewrite Hn, decide_True.
    + rewrite Hp, decide_False by set_solver. by rewrite decide_True.
  - eapply (seg_restart h); [done|constructor; set_solver|..].
    + intros p H. rewrite Hn. case_decide as C; [exfalso; rewrite C in H; exact (ring_disj_r Hl Hdis He H)|].
      case_decide as C2; [exfalso; rewrite C2 in H; set_solver|done].
    + intros p ??. rewrite Hp, !decide_False; set_solver.
    + rewrite Hn, decide_False by set_solver. by rewrite decide_True.
    + by rewrite Hp, decide_True.
Qed.

Lemma dll_remove h' item :
  dll h l (xs ++ item :: ys) ->
  (forall q, get_prev h' q = if decide (q = item) then Some NULL
                             else if decide (q = n) then Some e else get_prev h q) ->
  (forall q, get_next h' q = if decide (q = item) then Some NULL
                             else if decide (q = e) then Some n else get_next h q) ->
  dll h' l (xs ++ ys).
Proof.
  intros [Hs Hd H0] Hp Hn. apply seg_app in Hs as [Hs1 Hs2].
  pose proof ring_left_in as He. pose proof ring_right_in as Hr.
  apply NoDup_cons in Hd as [Hl Hd]. rewrite <- Permutation_middle in Hd.
  apply NoDup_cons in Hd as [Hi Hd]. pose proof Hd as (Hx & Hdis & Hy)%NoDup_app.
  assert (l ∉ xs ++ ys) as Hl' by set_solver.
  split; [|rewrite NoDup_cons; set_solver|set_solver].
  apply seg_cut. fold e n. split.
  - eapply (seg_retarget h); [done|constructor; set_solver|..].
    + intros p ??. rewrite Hn, !decide_False; set_solver.
    + intros p H. rewrite Hp. case_decide as C; [exfalso; rewrite C in H; set_solver|].
      case_decide as C2; [exfalso; rewrite C2 in H; exact (ring_disj_l Hl' Hdis Hr H)|done].
    + rewrite Hn, decide_False by set_solver. by rewrite decide_True.
    + rewrite Hp, decide_False by set_solver. by rewrite decide_True.
  - eapply (seg_restart h); [done|constructor; set_solver|..].
    + intros p H. rewrite Hn. case_decide as C; [exfalso; rewrite C in H; set_solver|].
      case_decide as C2; [exfalso; rewrite C2 in H; exact (ring_disj_r Hl' Hdis He H)|done].
    + intros p ??. rewrite Hp, !decide_False; set_solver.
    + rewrite Hn, decide_False by set_solver. by rewrite decide_True.
    + rewrite Hp, decide_False by set_solver. by rewrite decide_True.
Qed.
End ring.

Lemma seg_ends h l xs ys :
  seg h l (xs ++ ys) l ->
  get_next h (default l (last xs)) = Some (hd l ys) /\
  get_prev h (hd l ys) = Some (default l (last xs)).
Proof. intros [H1 H2]%seg_cut. split; [by apply seg_next in H2|by apply seg_prev in H1]. Qed.

Lemma ends_is_Some h p q :
  get_next h p = Some q -> get_prev h q = Some p -> is_Some (h !! p) /\ is_Some (h !! q).
Proof. intros. split; [apply get_next_is_Some|apply get_prev_is_Some]; eauto. Qed.

Lemma dll_list_walk h l a xs fuel :
  seg h a xs l -> l ∉ xs -> (length xs <= fuel)%nat -> list_walk fuel h l (hd l xs) = Some xs.
Proof.
  revert a fuel. induction xs as [|x xs IH]; intros a fuel Hs Hl Hf.
  - destruct fuel; simpl; by rewrite decide_True.
  - destruct fuel; [simpl in Hf; lia|]. destruct Hs as [_ Hs].
    change (hd l (x :: xs)) with x. cbn [list_walk].
    rewrite decide_False by set_solver. rewrite (seg_next _ _ _ _ Hs). simpl.
    rewrite (IH x) by (set_solver || (simpl in Hf; lia)). done.
Qed.
End wf.

(** ** Refinement *)
Section refinement.
Implicit Types h : gmap loc list_node.

(** C40: inserting at any position.  [list_add_head] and its alias
    [list_add_after], applied to the header or to any element of a well formed
    list, and [list_add_tail] / [list_add_before], applied to the header or to
    any element, insert the new node right after, respectively right before,
    the node they are given; no store or load faults, and all nodes outside
    the list are unchanged. *)
Theorem list_add_refines h l xs ys item :
  dll h l (xs ++ ys) -> is_Some (h !! item) -> item ∉ l :: xs ++ ys -> item <> NULL ->
  (exists h', list_add_after h (default l (last xs)) item = Some h' /\
     dll h' l (xs ++ item :: ys) /\ forall q, q ∉ item :: l :: xs ++ ys -> h' !! q = h !! q) /\
  (exists h', list_add_before h (hd l ys) item = Some h' /\
     dll h' l (xs ++ item :: ys) /\ forall q, q ∉ item :: l :: xs ++ ys -> h' !! q = h !! q).
Proof.
  intros Hd Hi Hni H0. destruct (seg_ends h l xs ys) as [Hn Hp]; [apply Hd|].
  destruct (ends_is_Some _ _ _ Hn Hp) as [Hl Hr].
  pose proof (@ring_left_in l xs) as He. pose proof (@ring_right_in l ys) as Hr'.
  split.
  - destruct (list_add_head_spec h _ _ item Hn) as (h' & E & _ & Hn' & Hp'); [set_solver..|].
    exists h'. split; [done|]. split; [by apply (dll_insert (h := h))|].
    intros q Hq. apply node_eq; rewrite ?Hn', ?Hp', !decide_False; set_solver.
  - destruct (list_add_tail_spec h _ _ item Hp) as (h' & E & _ & Hp' & Hn'); [set_solver..|].
    exists h'. split; [done|]. split; [by apply (dll_insert (h := h))|].
    intros q Hq. apply node_eq; rewrite ?Hn', ?Hp', !decide_False; set_solver.
Qed.

Lemma list_delete_dll h l xs item ys :
  dll h l (xs ++ item :: ys) ->
  exists h', list_delete h item = Some h' /\ dll h' l (xs ++ ys) /\
    list_in_list h' item = Some false /\
    forall q, q ∉ l :: xs ++ item :: ys -> h' !! q = h !! q.
Proof.
  intros Hd. pose proof (dll_nodup _ _ _ Hd) as Hnd.
  destruct (seg_ends h l xs (item :: ys)) as [Hn1 Hp1]; [apply Hd|].
  destruct (seg_ends h l (xs ++ [item]) ys) as [Hn2 Hp2].
  { rewrite <- app_assoc. apply Hd. }
  rewrite last_snoc in *. simpl in Hn1, Hp1, Hn2, Hp2.
  pose proof (@ring_left_in l xs) as He. pose proof (@ring_right_in l ys) as Hr.
  apply NoDup_cons in Hnd as [? (? & ? & [??]%NoDup_cons)%NoDup_app].
  destruct (ends_is_Some _ _ _ Hn1 Hp1) as [Hl1 _], (ends_is_Some _ _ _ Hn2 Hp2) as [_ Hr2].
  destruct (list_delete_spec h _ _ item Hn2 Hp1) as (h' & E & _ & Hp' & Hn');
    [done|done|set_solver|set_solver|].
  exists h'. split; [done|]. split; [by apply (dll_remove (h := h) h' item)|]. split.
  - unfold list_in_list. by rewrite Hp', Hn', !decide_True.
  - intros q Hq. apply node_eq; rewrite ?Hn', ?Hp', !decide_False; set_solver.
Qed.

(** [list_delete] unlinks exactly the given element, wherever it is on its
    list: the other elements keep their order, the element reports that it is
    on no list, and nodes outside the list are unchanged. *)
Theorem list_delete_refines h l xs item ys :
  dll h l (xs ++ item :: ys) ->
  exists h', list_delete h item = Some h' /\ dll h' l (xs ++ ys) /\
    list_in_list h' item = Some false /\
    forall q, q ∉ l :: xs ++ item :: ys -> h' !! q = h !! q.
Proof. apply list_delete_dll. Qed.

(** Popping either end. *)
Lemma list_remove_head_refines h l xs :
  dll h l xs ->
  match xs with
  | [] => list_remove_head h l = Some (h, NULL)
  | x :: xs' => exists h', list_remove_head h l = Some (h', x) /\ dll h' l xs' /\
                           forall q, q ∉ l :: xs -> h' !! q = h !! q
  end.
Proof.
  intros Hd. unfold list_remove_head. rewrite (seg_next _ _ _ _ (dll_seg _ _ _ Hd)).
  destruct xs as [|x xs]; simpl; [by rewrite decide_False by naive_solver|].
  pose proof (dll_nodup _ _ _ Hd) as [? _]%NoDup_cons.
  rewrite decide_True by set_solver.
  destruct (list_delete_dll h l [] x xs Hd) as (h' & -> & ? & _ & ?). eauto.
Qed.

Lemma list_remove_tail_refines h l xs :
  dll h l xs ->
  match last xs with
  | None => list_remove_tail h l = Some (h, NULL)
  | Some x => exists h' xs', xs = xs' ++ [x] /\ list_remove_tail h l = Some (h', x) /\
                dll h' l xs' /\ forall q, q ∉ l :: xs -> h' !! q = h !! q
  end.
Proof.
  intros Hd. unfold list_remove_tail. rewrite (seg_prev _ _ _ _ (dll_seg _ _ _ Hd)). simpl.
  destruct (last xs) as [x|] eqn:E; simpl; [|by rewrite decide_False by naive_solver].
  apply last_Some in E as [xs' ->].
  pose proof (dll_nodup _ _ _ Hd) as [? _]%NoDup_cons.
  rewrite decide_True by set_solver.
  destruct (list_delete_dll h l xs' x [] Hd) as (h' & -> & Hd' & _ & ?).
  rewrite app_nil_r in Hd'. eauto 10.
Qed.

(** Traversal.  On a well formed list the [list_for_every] loop terminates
    after visiting exactly the elements, in order; the peek, next, prev, empty
    and length functions agree with the list of elements. *)
Theorem list_traversal_correct h l xs fuel :
  dll h l xs -> (length xs <= fuel)%nat ->
  list_for_every fuel h l = Some xs /\
  list_length fuel h l = Some (Z.of_nat (length xs)) /\
  list_is_empty h l = Some (bool_decide (xs = [])) /\
  list_peek_head h l = Some (hd NULL xs) /\
  list_peek_tail h l = Some (default NULL (last xs)) /\
  (forall ys x zs, xs = ys ++ x :: zs ->
     list_next h l x = Some (hd NULL zs) /\ list_prev h l x = Some (default NULL (last ys))).
Proof.
  intros Hd Hf. pose proof Hd as [Hs [Hl Hnd]%NoDup_cons _].
  assert (list_for_every fuel h l = Some xs) as Hall.
  { unfold list_for_every. rewrite (seg_next _ _ _ _ Hs). simpl. by apply (dll_list_walk h l l). }
  split; [done|]. split; [unfold list_length; by rewrite Hall|].
  pose proof (seg_next _ _ _ _ Hs) as Hn. pose proof (seg_prev _ _ _ _ Hs) as Hp.
  unfold list_is_empty, list_peek_head, list_peek_tail. rewrite Hn, Hp. simpl.
  repeat apply conj.
  - f_equal. apply bool_decide_ext. destruct xs; set_solver.
  - destruct xs; simpl; case_decide; naive_solver set_solver.
  - destruct (last xs) eqn:E; simpl; [|case_decide; naive_solver].
    apply last_Some_elem_of in E. case_decide; set_solver.
  - intros ys x zs ->. apply seg_app in Hs as [Hs1 Hs2]. unfold list_next, list_prev.
    rewrite (seg_next _ _ _ _ Hs2), (seg_prev _ _ _ _ Hs1). simpl. split.
    + destruct zs; simpl; case_decide; set_solver.
    + destruct (last ys) eqn:E; simpl; [|case_decide; naive_solver].
      apply last_Some_elem_of in E. case_decide; set_solver.
Qed.
End refinement.

(** ** Witnesses: a three element list at addresses 1 (header), 2, 3, 4 *)
Definition demo_heap : gmap loc list_node :=
  {[ 1 := ListNode 4 2; 2 := ListNode 1 3; 3 := ListNode 2 4; 4 := ListNode 3 1;
     9 := ListNode 0 0 ]}.

Lemma demo_dll : dll demo_heap 1 [2; 3; 4].
Proof.
  split; [repeat split; vm_compute; reflexivity|..].
  - repeat constructor; set_solver.
  - unfold NULL. set_solver.
Qed.

Lemma list_add_refines_witness :
  exists h', list_add_after demo_heap 3 9 = Some h' /\ dll h' 1 [2; 3; 9; 4].
Proof.
  destruct (list_add_refines demo_heap 1 [2; 3] [4] 9) as [(h' & H1 & H2 & _) _].
  - exact demo_dll.
  - vm_compute. eauto.
  - set_solver.
  - done.
  - exists h'. split; [exact H1|exact H2].
Defined.

Lemma list_delete_refines_witness :
  exists h', list_delete demo_heap 3 = Some h' /\ dll h' 1 [2; 4].
Proof.
  destruct (list_delete_refines demo_heap 1 [2] 3 [4]) as (h' & H1 & H2 & _).
  - exact demo_dll.
  - exists h'. split; [exact H1|exact H2].
Defined.

Lemma list_traversal_correct_witness :
  list_for_every 3 demo_heap 1 = Some [2; 3; 4] /\ list_length 3 demo_heap 1 = Some 3.
Proof.
  destruct (list_traversal_correct demo_heap 1 [2; 3; 4] 3) as (H1 & H2 & _).
  - exact demo_dll.
  - simpl. lia.
  - split; [exact H1|exact H2].
Defined.
