(* ===== verification/Align.v ===== *)
(** * Powers of two: [top/include/nusa/pow2.h] *)
From S2P Require Import Prelude.

Definition ispow2 (val : Z) : bool := Z.land (u32 (val - 1)) val =? 0.
Definition log2_uint (val : Z) : Z := if val =? 0 then 0 else 32 - 1 - builtin_clz val.
Definition valpow2 (valp2 : Z) : Z := u32 (Z.shiftl 1 valp2).
Definition divpow2 (val divp2 : Z) : Z := Z.shiftr val divp2.
Definition modpow2 (val modp2 : Z) : Z := u32 (Z.land val (u64 (Z.shiftl 1 modp2 - 1))).
Definition round_up_pow2_u32 (v : Z) : Z :=
  let v := u32 (v - 1) in
  let v := Z.lor v (Z.shiftr v 1) in
  let v := Z.lor v (Z.shiftr v 2) in
  let v := Z.lor v (Z.shiftr v 4) in
  let v := Z.lor v (Z.shiftr v 8) in
  let v := Z.lor v (Z.shiftr v 16) in
  u32 (v + 1).

Lemma valpow2_small n : 0 <= n < 32 -> valpow2 n = 2 ^ n.
Proof.
  intros. unfold valpow2. rewrite Z.shiftl_1_l. apply wrap_small.
  split; [lia|]. apply Z.pow_lt_mono_r; lia.
Qed.

Lemma modpow2_mod val n : 0 <= val < 2 ^ 32 -> 0 <= n < 32 -> modpow2 val n = val mod 2 ^ n.
Proof.
  intros Hv Hn. unfold modpow2. rewrite Z.shiftl_1_l.
  assert (0 < 2 ^ n) by lia. assert (2 ^ n < 2 ^ 64) by (apply Z.pow_lt_mono_r; lia).
  rewrite (wrap_small 64) by lia. rewrite <- Z.ones_equiv || rewrite Z.sub_1_r, <- Z.ones_equiv.
  rewrite Z.land_ones by lia. apply wrap_small.
  pose proof (Z.mod_pos_bound val (2 ^ n)). pose proof (Z.mod_le val (2 ^ n)). lia.
Qed.

Lemma log2_uint_log2 v : 0 <= v -> log2_uint v = Z.log2 v.
Proof. intros. unfold log2_uint, builtin_clz. destruct (Z.eqb_spec v 0); [by subst|lia]. Qed.

(** [v] has bits [k] and all below it, down to [k - w + 1]. *)
Definition ones_below (v k w : Z) : Prop := forall i, 0 <= i -> k - w < i <= k -> Z.testbit v i = true.

Lemma smear_step v k w :
  0 <= v -> 0 <= k -> 0 < w -> (forall i, k < i -> Z.testbit v i = false) -> ones_below v k w ->
  let v' := Z.lor v (Z.shiftr v w) in
  0 <= v' /\ (forall i, k < i -> Z.testbit v' i = false) /\ ones_below v' k (2 * w).
Proof.
  intros Hv Hk Hw Hhi Hlo v'. split_and!.
  - apply Z.lor_nonneg. split; [done|]. by apply Z.shiftr_nonneg.
  - intros i Hi. unfold v'. rewrite Z.lor_spec, Z.shiftr_spec by lia.
    rewrite (Hhi i Hi). apply Hhi. lia.
  - intros i Hi0 Hi. unfold v'. rewrite Z.lor_spec, Z.shiftr_spec by lia. apply orb_true_iff.
    destruct (decide (k - w < i)); [left|right]; apply Hlo; lia.
Qed.

(** The smearing of the top bit leaves all ones. *)
Lemma smear_ones v k :
  0 <= v -> 0 <= k < 32 -> (forall i, k < i -> Z.testbit v i = false) -> Z.testbit v k = true ->
  round_up_pow2_u32 (v + 1) = u32 (2 ^ (k + 1)).
Proof.
  intros Hv Hk Hhi Hlo. unfold round_up_pow2_u32.
  assert (v < 2 ^ 32) as Hlt.
  { apply bits_range; [lia|done|]. intros m Hm. apply Hhi. lia. }
  replace (u32 (v + 1 - 1)) with v by (rewrite wrap_small; lia).
  assert (ones_below v k 1) as H0 by (intros i ??; replace i with k by lia; done).
  destruct (smear_step v k 1) as (P1 & T1 & O1); [lia..|done|done|].
  destruct (smear_step _ k 2 P1) as (P2 & T2 & O2); [lia..|done|done|].
  destruct (smear_step _ k 4 P2) as (P3 & T3 & O3); [lia..|done|done|].
  destruct (smear_step _ k 8 P3) as (P4 & T4 & O4); [lia..|done|done|].
  destruct (smear_step _ k 16 P4) as (P5 & T5 & O5); [lia..|done|done|].
  cbv zeta. match type of P5 with 0 <= ?v => assert (v = Z.ones (k + 1)) as -> end.
  - apply Z.bits_inj'. intros i Hi. destruct (decide (i <= k)).
    + rewrite Z.ones_spec_low by lia. apply O5; lia.
    + rewrite Z.ones_spec_high by lia. apply T5. lia.
  - f_equal. rewrite Z.ones_equiv. lia.
Qed.

(** For [1 <= v <= 2^31], [round_up_pow2_u32] returns the least power of two
    that is not below [v]. *)
Theorem round_up_pow2_u32_correct v :
  1 <= v <= 2 ^ 31 ->
  exists k, 0 <= k <= 31 /\ round_up_pow2_u32 v = 2 ^ k /\ v <= 2 ^ k /\
    forall j, 0 <= j -> v <= 2 ^ j -> k <= j.
Proof.
  intros Hv. destruct (decide (v = 1)) as [->|].
  { exists 0. split_and!; [lia..|reflexivity|lia|lia]. }
  set (k := Z.log2 (v - 1)).
  assert (0 <= k) by apply Z.log2_nonneg.
  assert (2 ^ k <= v - 1 < 2 ^ (k + 1)) as Hk by (unfold k; rewrite Z.add_1_r; apply Z.log2_spec; lia).
  assert (k < 31) by (apply (Z.pow_lt_mono_r_iff 2); lia).
  exists (k + 1). split_and!; [lia..| |lia|].
  - replace v with (v - 1 + 1) at 1 by lia. rewrite (smear_ones (v - 1) k); [|lia..| |].
    + apply wrap_small. split; [lia|]. apply Z.pow_lt_mono_r; lia.
    + intros i Hi. apply Z.bits_above_log2; lia.
    + apply Z.bit_log2. lia.
  - intros j Hj Hvj. apply Z.le_succ_l, (Z.pow_lt_mono_r_iff 2); lia.
Qed.

Lemma round_up_pow2_u32_correct_witness :
  (1 <= 37 <= 2 ^ 31) /\ exists k, 0 <= k <= 31 /\ round_up_pow2_u32 37 = 2 ^ k /\ 37 <= 2 ^ k /\
    forall j, 0 <= j -> 37 <= 2 ^ j -> k <= j.
Proof. split; [lia|]. apply (round_up_pow2_u32_correct 37). lia. Defined.

(** [ispow2] holds of zero and of the powers of two, and of no other 32-bit value. *)
Lemma ispow2_correct v :
  0 <= v < 2 ^ 32 -> (ispow2 v = true <-> v = 0 \/ exists k, 0 <= k < 32 /\ v = 2 ^ k).
Proof.
  intros Hv. unfold ispow2. rewrite Z.eqb_eq.
  destruct (decide (v = 0)) as [->|]; [rewrite Z.land_0_r; tauto|].
  rewrite (wrap_small 32) by lia. set (k := Z.log2 v).
  assert (0 <= k) by apply Z.log2_nonneg.
  assert (2 ^ k <= v < 2 ^ (k + 1)) as Hk by (unfold k; rewrite Z.add_1_r; apply Z.log2_spec; lia).
  assert (k < 32) by (apply (Z.pow_lt_mono_r_iff 2); lia).
  split.
  - intros E. right. exists k. split; [lia|]. destruct (decide (v = 2 ^ k)) as [|]; [done|].
    assert (Z.testbit (Z.land (v - 1) v) k = true) as T; [|by rewrite E, Z.testbit_0_l in T].
    rewrite Z.land_spec. apply andb_true_iff. split; [|apply Z.bit_log2; lia].
    assert (Z.log2 (v - 1) = k) as <-; [|apply Z.bit_log2; lia].
    apply Z.log2_unique; [done|]. rewrite <- Z.add_1_r. lia.
  - intros [?|(j & Hj & ->)]; [lia|]. apply Z.bits_inj'. intros i Hi.
    rewrite Z.testbit_0_l, Z.land_spec. destruct (decide (i = j)) as [->|].
    + rewrite Z.sub_1_r, <- Z.ones_equiv, Z.ones_spec_high by lia. done.
    + rewrite (Z.pow2_bits_false j i) by lia. apply andb_false_r.
Qed.

(** * Alignment of 64-bit addresses: the macros of [lib/libc/include/stdlib.h] *)

Definition ROUNDUP (a b : Z) : Z := Z.ldiff (u64 (a + (b - 1))) (b - 1).
Definition ROUNDDOWN (a b : Z) : Z := Z.ldiff a (b - 1).
Definition ALIGN (a b : Z) : Z := ROUNDUP a b.
Definition IS_ALIGNED (a b : Z) : bool := Z.land a (b - 1) =? 0.

Definition PAGE_SIZE_SHIFT : Z := 12.
Definition PAGE_SIZE : Z := 4096.
Definition PAGE_ALIGN (x : Z) : Z := ALIGN x PAGE_SIZE.
Definition IS_PAGE_ALIGNED (x : Z) : bool := IS_ALIGNED x PAGE_SIZE.

Lemma ldiff_ones a k : 0 <= k -> Z.ldiff a (2 ^ k - 1) = a / 2 ^ k * 2 ^ k.
Proof.
  intros. rewrite Z.sub_1_r, <- Z.ones_equiv, Z.ldiff_ones_r by done.
  by rewrite Z.shiftl_mul_pow2, Z.shiftr_div_pow2.
Qed.

Lemma ROUNDDOWN_div a k : 0 <= k -> ROUNDDOWN a (2 ^ k) = a / 2 ^ k * 2 ^ k.
Proof. apply ldiff_ones. Qed.

Lemma IS_ALIGNED_mod a k : 0 <= k -> IS_ALIGNED a (2 ^ k) = (a mod 2 ^ k =? 0).
Proof. intros. unfold IS_ALIGNED. by rewrite Z.sub_1_r, <- Z.ones_equiv, Z.land_ones. Qed.

(** Rounding up, where the sum does not wrap around. *)
Lemma ROUNDUP_spec a k :
  0 <= k -> 0 <= a -> a + 2 ^ k - 1 < 2 ^ 64 ->
  a <= ROUNDUP a (2 ^ k) < a + 2 ^ k /\ ROUNDUP a (2 ^ k) mod 2 ^ k = 0.
Proof.
  intros Hk Ha Hov. assert (0 < 2 ^ k) by lia. unfold ROUNDUP.
  rewrite (wrap_small 64), ldiff_ones by lia.
  pose proof (Z.div_mod (a + (2 ^ k - 1)) (2 ^ k) ltac:(lia)).
  pose proof (Z.mod_pos_bound (a + (2 ^ k - 1)) (2 ^ k) ltac:(lia)).
  split; [lia|]. by apply Z.mod_mul; lia.
Qed.

(** Where it wraps, what is left is 0: below [a] unless [a] is 0. *)
Lemma ROUNDUP_wraps a k :
  0 <= k < 64 -> 0 <= a < 2 ^ 64 -> 2 ^ 64 <= a + 2 ^ k - 1 -> ROUNDUP a (2 ^ k) = 0.
Proof.
  intros Hk Ha Hov. assert (2 ^ k < 2 ^ 64) by (apply Z.pow_lt_mono_r; lia).
  unfold ROUNDUP. rewrite ldiff_ones by lia.
  replace (u64 (a + (2 ^ k - 1))) with (a + (2 ^ k - 1) - 2 ^ 64).
  - rewrite Z.div_small; lia.
  - symmetry. unfold wrap. symmetry. apply Z.mod_unique with 1; lia.
Qed.

(** The least aligned value not below [a]. *)
Lemma ROUNDUP_least a k b :
  0 <= k -> 0 <= a -> a + 2 ^ k - 1 < 2 ^ 64 -> a <= b -> b mod 2 ^ k = 0 -> ROUNDUP a (2 ^ k) <= b.
Proof.
  intros Hk Ha Hov Hab Hb. destruct (ROUNDUP_spec a k Hk Ha Hov) as [Hr Hm].
  destruct (decide (ROUNDUP a (2 ^ k) <= b)); [done|exfalso].
  assert (0 < 2 ^ k) by lia.
  apply Z.mod_divide in Hb as [x ->]; [|lia]. apply Z.mod_divide in Hm as [y Hy]; [|lia].
  rewrite Hy in *. assert (x < y) by nia. nia.
Qed.

Lemma IS_PAGE_ALIGNED_mod a : IS_PAGE_ALIGNED a = (a mod PAGE_SIZE =? 0).
Proof. exact (IS_ALIGNED_mod a 12 ltac:(lia)). Qed.
