(* ===== verification/KState.v ===== *)
(** * Kernel state and the kernel monad

    The data the kernel keeps ([kernel/include/kernel/{thread,wait,timer,mutex,
    event,semaphore,port,mp}.h] and the file scope variables of kernel/*.c) as
    one record, and the monad in which its operations are written.

    Pointers are [Z] addresses with 0 for NULL; objects of each C type live in
    finite maps, so a dangling pointer is a failing lookup.  An intrusive list
    is the list of the addresses of its elements (see ListNode).  Wait queues
    are embedded in other objects; a [wqid] names the object they are part of.

    An operation runs on the cpu [ks_cpu] of the state it is given and produces
    an [outcome]: it returns, faults, releases the thread lock ([Unlocked], where
    interrupts and other cpus may run before it continues) or gives up the cpu
    in [arch_context_switch] ([Switch], where other threads run, with the lock
    handed over, until this one is scheduled again).  The code after such a
    point is the continuation stored in the outcome. *)
From S2P Require Import Prelude.

(** ** Build configuration

    WITH_SMP, WITH_KERNEL_VM and PLATFORM_HAS_DYNAMIC_TIMER are defined, as on
    every in-tree platform; the debug level is a parameter. *)
Class KConfig := { LK_DEBUGLEVEL : Z }.

Abbreviation tid := Z (only parsing).

(** ** thread.h *)
Inductive thread_state :=
  | THREAD_SUSPENDED | THREAD_READY | THREAD_RUNNING
  | THREAD_BLOCKED | THREAD_SLEEPING | THREAD_DEATH.
#[export] Instance thread_state_eq_dec : EqDecision thread_state.
Proof. solve_decision. Defined.

Definition THREAD_FLAG_DETACHED : Z := BIT 0.
Definition THREAD_FLAG_FREE_STACK : Z := BIT 1.
Definition THREAD_FLAG_FREE_STRUCT : Z := BIT 2.
Definition THREAD_FLAG_REAL_TIME : Z := BIT 3.
Definition THREAD_FLAG_IDLE : Z := BIT 4.
Definition THREAD_FLAG_DEBUG_STACK_BOUNDS_CHECK : Z := BIT 5.
Definition THREAD_MAGIC : Z := 0x74687264.
Definition NUM_PRIORITIES : Z := 32.
Definition LOWEST_PRIORITY : Z := 0.
Definition HIGHEST_PRIORITY : Z := NUM_PRIORITIES - 1.
Definition IDLE_PRIORITY : Z := LOWEST_PRIORITY.
Definition DEFAULT_PRIORITY : Z := NUM_PRIORITIES / 2.
Definition THREAD_STACK_PADDING_SIZE : Z := 256.
Definition STACK_DEBUG_WORD : Z := 0x99999999.
Definition TLS_ENTRY_ERRNO : nat := 1.   (* TLS_ENTRY_CONSOLE is entry 0 *)
Definition MAX_TLS_ENTRY : nat := 2.
Definition INFINITE_TIME : Z := UINT32_MAX.

(** ** wait.h: which object a wait queue is embedded in *)
Inductive wqid :=
  | WqRetcode (t : tid) | WqMutex (a : Z) | WqEvent (a : Z) | WqSem (a : Z)
  | WqReadPort (a : Z) | WqPortGroup (a : Z).
#[export] Instance wqid_eq_dec : EqDecision wqid.
Proof. solve_decision. Defined.
#[export] Instance wqid_countable : Countable wqid.
Proof.
  apply (inj_countable'
    (fun w => match w with
              | WqRetcode t => (0%nat, t) | WqMutex a => (1%nat, a) | WqEvent a => (2%nat, a)
              | WqSem a => (3%nat, a) | WqReadPort a => (4%nat, a) | WqPortGroup a => (5%nat, a)
              end)
    (fun p => match p with
              | (0%nat, t) => WqRetcode t | (1%nat, a) => WqMutex a | (2%nat, a) => WqEvent a
              | (3%nat, a) => WqSem a | (4%nat, a) => WqReadPort a | (_, a) => WqPortGroup a
              end)).
  by intros [].
Defined.
Definition WAIT_QUEUE_MAGIC : Z := 0x77616974.

Record wait_queue_t := WaitQueue {
  wq_magic : Z;
  wq_count : Z;
  wq_list : list tid;
}.

Definition set_wq_magic (v : Z) (x : wait_queue_t) : wait_queue_t :=
  WaitQueue v (wq_count x) (wq_list x).
Definition set_wq_count (v : Z) (x : wait_queue_t) : wait_queue_t :=
  WaitQueue (wq_magic x) v (wq_list x).
Definition set_wq_list (v : list tid) (x : wait_queue_t) : wait_queue_t :=
  WaitQueue (wq_magic x) (wq_count x) v.

(** ** timer.h: timer objects are the preemption timers, the one on the stack
    of a thread blocked with a timeout, or any other object. *)
Inductive timer_id := TmPreempt (cpu : Z) | TmStack (t : tid) | TmObj (a : Z).
#[export] Instance timer_id_eq_dec : EqDecision timer_id.
Proof. solve_decision. Defined.
#[export] Instance timer_id_countable : Countable timer_id.
Proof.
  apply (inj_countable'
    (fun w => match w with
              | TmPreempt t => (0%nat, t) | TmStack a => (1%nat, a) | TmObj a => (2%nat, a)
              end)
    (fun p => match p with
              | (0%nat, t) => TmPreempt t | (1%nat, a) => TmStack a | (_, a) => TmObj a
              end)).
  by intros [].
Defined.
Inductive callback_fn :=
  | NullCallback | ThreadTimerTick | ThreadSleepHandler | WaitQueueTimeoutHandler
  | OtherCallback (f : Z).
#[export] Instance callback_fn_eq_dec : EqDecision callback_fn.
Proof. solve_decision. Defined.
Inductive handler_return := INT_NO_RESCHEDULE | INT_RESCHEDULE.
#[export] Instance handler_return_eq_dec : EqDecision handler_return.
Proof. solve_decision. Defined.
Definition TIMER_MAGIC : Z := 0x74696D72.

Record timer_t := Timer {
  tm_magic : Z;
  tm_scheduled_time : Z;
  tm_periodic_time : Z;
  tm_callback : callback_fn;
  tm_arg : Z;
}.

Definition set_tm_magic (v : Z) (x : timer_t) : timer_t :=
  Timer v (tm_scheduled_time x) (tm_periodic_time x) (tm_callback x) (tm_arg x).
Definition set_tm_scheduled_time (v : Z) (x : timer_t) : timer_t :=
  Timer (tm_magic x) v (tm_periodic_time x) (tm_callback x) (tm_arg x).
Definition set_tm_periodic_time (v : Z) (x : timer_t) : timer_t :=
  Timer (tm_magic x) (tm_scheduled_time x) v (tm_callback x) (tm_arg x).
Definition set_tm_callback (v : callback_fn) (x : timer_t) : timer_t :=
  Timer (tm_magic x) (tm_scheduled_time x) (tm_periodic_time x) v (tm_arg x).
Definition set_tm_arg (v : Z) (x : timer_t) : timer_t :=
  Timer (tm_magic x) (tm_scheduled_time x) (tm_periodic_time x) (tm_callback x) v.

(** ** The thread structure *)
Record thread_t := Thread {
  t_magic : Z;
  t_priority : Z;
  t_state : thread_state;
  t_remaining_quantum : Z;
  t_flags : Z;
  t_curr_cpu : Z;
  t_pinned_cpu : Z;  (* only run on pinned_cpu if >= 0 *)
  t_aspace : option Z;  (* the address space, None for NULL *)
  t_blocking_wait_queue : option wqid;  (* the wait queue the thread is blocked on *)
  t_wait_queue_block_ret : Z;
  t_stack : Z;  (* 0 for NULL *)
  t_stack_size : Z;
  t_stack_pad : list Z;  (* the 32-bit words of the padding at the bottom of the stack *)
  t_entry : Z;
  t_arg : Z;
  t_retcode : Z;
  t_tls : list Z;
  t_name : string;
  t_total_run_time : Z;  (* stats, debug builds only *)
  t_last_run_timestamp : Z;
  t_schedules : Z;
}.

Definition set_t_magic (v : Z) (x : thread_t) : thread_t :=
  Thread v (t_priority x) (t_state x) (t_remaining_quantum x) (t_flags x) (t_curr_cpu x) (t_pinned_cpu x) (t_aspace x) (t_blocking_wait_queue x) (t_wait_queue_block_ret x) (t_stack x) (t_stack_size x) (t_stack_pad x) (t_entry x) (t_arg x) (t_retcode x) (t_tls x) (t_name x) (t_total_run_time x) (t_last_run_timestamp x) (t_schedules x).
Definition set_t_priority (v : Z) (x : thread_t) : thread_t :=
  Thread (t_magic x) v (t_state x) (t_remaining_quantum x) (t_flags x) (t_curr_cpu x) (t_pinned_cpu x) (t_aspace x) (t_blocking_wait_queue x) (t_wait_queue_block_ret x) (t_stack x) (t_stack_size x) (t_stack_pad x) (t_entry x) (t_arg x) (t_retcode x) (t_tls x) (t_name x) (t_total_run_time x) (t_last_run_timestamp x) (t_schedules x).
Definition set_t_state (v : thread_state) (x : thread_t) : thread_t :=
  Thread (t_magic x) (t_priority x) v (t_remaining_quantum x) (t_flags x) (t_curr_cpu x) (t_pinned_cpu x) (t_aspace x) (t_blocking_wait_queue x) (t_wait_queue_block_ret x) (t_stack x) (t_stack_size x) (t_stack_pad x) (t_entry x) (t_arg x) (t_retcode x) (t_tls x) (t_name x) (t_total_run_time x) (t_last_run_timestamp x) (t_schedules x).
Definition set_t_remaining_quantum (v : Z) (x : thread_t) : thread_t :=
  Thread (t_magic x) (t_priority x) (t_state x) v (t_flags x) (t_curr_cpu x) (t_pinned_cpu x) (t_aspace x) (t_blocking_wait_queue x) (t_wait_queue_block_ret x) (t_stack x) (t_stack_size x) (t_stack_pad x) (t_entry x) (t_arg x) (t_retcode x) (t_tls x) (t_name x) (t_total_run_time x) (t_last_run_timestamp x) (t_schedules x).
Definition set_t_flags (v : Z) (x : thread_t) : thread_t :=
  Thread (t_magic x) (t_priority x) (t_state x) (t_remaining_quantum x) v (t_curr_cpu x) (t_pinned_cpu x) (t_aspace x) (t_blocking_wait_queue x) (t_wait_queue_block_ret x) (t_stack x) (t_stack_size x) (t_stack_pad x) (t_entry x) (t_arg x) (t_retcode x) (t_tls x) (t_name x) (t_total_run_time x) (t_last_run_timestamp x) (t_schedules x).
Definition set_t_curr_cpu (v : Z) (x : thread_t) : thread_t :=
  Thread (t_magic x) (t_priority x) (t_state x) (t_remaining_quantum x) (t_flags x) v (t_pinned_cpu x) (t_aspace x) (t_blocking_wait_queue x) (t_wait_queue_block_ret x) (t_stack x) (t_stack_size x) (t_stack_pad x) (t_entry x) (t_arg x) (t_retcode x) (t_tls x) (t_name x) (t_total_run_time x) (t_last_run_timestamp x) (t_schedules x).
Definition set_t_pinned_cpu (v : Z) (x : thread_t) : thread_t :=
  Thread (t_magic x) (t_priority x) (t_state x) (t_remaining_quantum x) (t_flags x) (t_curr_cpu x) v (t_aspace x) (t_blocking_wait_queue x) (t_wait_queue_block_ret x) (t_stack x) (t_stack_size x) (t_stack_pad x) (t_entry x) (t_arg x) (t_retcode x) (t_tls x) (t_name x) (t_total_run_time x) (t_last_run_timestamp x) (t_schedules x).
Definition set_t_aspace (v : option Z) (x : thread_t) : thread_t :=
  Thread (t_magic x) (t_priority x) (t_state x) (t_remaining_quantum x) (t_flags x) (t_curr_cpu x) (t_pinned_cpu x) v (t_blocking_wait_queue x) (t_wait_queue_block_ret x) (t_stack x) (t_stack_size x) (t_stack_pad x) (t_entry x) (t_arg x) (t_retcode x) (t_tls x) (t_name x) (t_total_run_time x) (t_last_run_timestamp x) (t_schedules x).
Definition set_t_blocking_wait_queue (v : option wqid) (x : thread_t) : thread_t :=
  Thread (t_magic x) (t_priority x) (t_state x) (t_remaining_quantum x) (t_flags x) (t_curr_cpu x) (t_pinned_cpu x) (t_aspace x) v (t_wait_queue_block_ret x) (t_stack x) (t_stack_size x) (t_stack_pad x) (t_entry x) (t_arg x) (t_retcode x) (t_tls x) (t_name x) (t_total_run_time x) (t_last_run_timestamp x) (t_schedules x).
Definition set_t_wait_queue_block_ret (v : Z) (x : thread_t) : thread_t :=
  Thread (t_magic x) (t_priority x) (t_state x) (t_remaining_quantum x) (t_flags x) (t_curr_cpu x) (t_pinned_cpu x) (t_aspace x) (t_blocking_wait_queue x) v (t_stack x) (t_stack_size x) (t_stack_pad x) (t_entry x) (t_arg x) (t_retcode x) (t_tls x) (t_name x) (t_total_run_time x) (t_last_run_timestamp x) (t_schedules x).
Definition set_t_stack (v : Z) (x : thread_t) : thread_t :=
  Thread (t_magic x) (t_priority x) (t_state x) (t_remaining_quantum x) (t_flags x) (t_curr_cpu x) (t_pinned_cpu x) (t_aspace x) (t_blocking_wait_queue x) (t_wait_queue_block_ret x) v (t_stack_size x) (t_stack_pad x) (t_entry x) (t_arg x) (t_retcode x) (t_tls x) (t_name x) (t_total_run_time x) (t_last_run_timestamp x) (t_schedules x).
Definition set_t_stack_size (v : Z) (x : thread_t) : thread_t :=
  Thread (t_magic x) (t_priority x) (t_state x) (t_remaining_quantum x) (t_flags x) (t_curr_cpu x) (t_pinned_cpu x) (t_aspace x) (t_blocking_wait_queue x) (t_wait_queue_block_ret x) (t_stack x) v (t_stack_pad x) (t_entry x) (t_arg x) (t_retcode x) (t_tls x) (t_name x) (t_total_run_time x) (t_last_run_timestamp x) (t_schedules x).
Definition set_t_stack_pad (v : list Z) (x : thread_t) : thread_t :=
  Thread (t_magic x) (t_priority x) (t_state x) (t_remaining_quantum x) (t_flags x) (t_curr_cpu x) (t_pinned_cpu x) (t_aspace x) (t_blocking_wait_queue x) (t_wait_queue_block_ret x) (t_stack x) (t_stack_size x) v (t_entry x) (t_arg x) (t_retcode x) (t_tls x) (t_name x) (t_total_run_time x) (t_last_run_timestamp x) (t_schedules x).
Definition set_t_entry (v : Z) (x : thread_t) : thread_t :=
  Thread (t_magic x) (t_priority x) (t_state x) (t_remaining_quantum x) (t_flags x) (t_curr_cpu x) (t_pinned_cpu x) (t_aspace x) (t_blocking_wait_queue x) (t_wait_queue_block_ret x) (t_stack x) (t_stack_size x) (t_stack_pad x) v (t_arg x) (t_retcode x) (t_tls x) (t_name x) (t_total_run_time x) (t_last_run_timestamp x) (t_schedules x).
Definition set_t_arg (v : Z) (x : thread_t) : thread_t :=
  Thread (t_magic x) (t_priority x) (t_state x) (t_remaining_quantum x) (t_flags x) (t_curr_cpu x) (t_pinned_cpu x) (t_aspace x) (t_blocking_wait_queue x) (t_wait_queue_block_ret x) (t_stack x) (t_stack_size x) (t_stack_pad x) (t_entry x) v (t_retcode x) (t_tls x) (t_name x) (t_total_run_time x) (t_last_run_timestamp x) (t_schedules x).
Definition set_t_retcode (v : Z) (x : thread_t) : thread_t :=
  Thread (t_magic x) (t_priority x) (t_state x) (t_remaining_quantum x) (t_flags x) (t_curr_cpu x) (t_pinned_cpu x) (t_aspace x) (t_blocking_wait_queue x) (t_wait_queue_block_ret x) (t_stack x) (t_stack_size x) (t_stack_pad x) (t_entry x) (t_arg x) v (t_tls x) (t_name x) (t_total_run_time x) (t_last_run_timestamp x) (t_schedules x).
Definition set_t_tls (v : list Z) (x : thread_t) : thread_t :=
  Thread (t_magic x) (t_priority x) (t_state x) (t_remaining_quantum x) (t_flags x) (t_curr_cpu x) (t_pinned_cpu x) (t_aspace x) (t_blocking_wait_queue x) (t_wait_queue_block_ret x) (t_stack x) (t_stack_size x) (t_stack_pad x) (t_entry x) (t_arg x) (t_retcode x) v (t_name x) (t_total_run_time x) (t_last_run_timestamp x) (t_schedules x).
Definition set_t_name (v : string) (x : thread_t) : thread_t :=
  Thread (t_magic x) (t_priority x) (t_state x) (t_remaining_quantum x) (t_flags x) (t_curr_cpu x) (t_pinned_cpu x) (t_aspace x) (t_blocking_wait_queue x) (t_wait_queue_block_ret x) (t_stack x) (t_stack_size x) (t_stack_pad x) (t_entry x) (t_arg x) (t_retcode x) (t_tls x) v (t_total_run_time x) (t_last_run_timestamp x) (t_schedules x).
Definition set_t_total_run_time (v : Z) (x : thread_t) : thread_t :=
  Thread (t_magic x) (t_priority x) (t_state x) (t_remaining_quantum x) (t_flags x) (t_curr_cpu x) (t_pinned_cpu x) (t_aspace x) (t_blocking_wait_queue x) (t_wait_queue_block_ret x) (t_stack x) (t_stack_size x) (t_stack_pad x) (t_entry x) (t_arg x) (t_retcode x) (t_tls x) (t_name x) v (t_last_run_timestamp x) (t_schedules x).
Definition set_t_last_run_timestamp (v : Z) (x : thread_t) : thread_t :=
  Thread (t_magic x) (t_priority x) (t_state x) (t_remaining_quantum x) (t_flags x) (t_curr_cpu x) (t_pinned_cpu x) (t_aspace x) (t_blocking_wait_queue x) (t_wait_queue_block_ret x) (t_stack x) (t_stack_size x) (t_stack_pad x) (t_entry x) (t_arg x) (t_retcode x) (t_tls x) (t_name x) (t_total_run_time x) v (t_schedules x).
Definition set_t_schedules (v : Z) (x : thread_t) : thread_t :=
  Thread (t_magic x) (t_priority x) (t_state x) (t_remaining_quantum x) (t_flags x) (t_curr_cpu x) (t_pinned_cpu x) (t_aspace x) (t_blocking_wait_queue x) (t_wait_queue_block_ret x) (t_stack x) (t_stack_size x) (t_stack_pad x) (t_entry x) (t_arg x) (t_retcode x) (t_tls x) (t_name x) (t_total_run_time x) (t_last_run_timestamp x) v.

(** ** Per cpu and multiprocessor state *)
Record thread_stats := ThreadStats {
  st_idle_time : Z;
  st_last_idle_timestamp : Z;
  st_reschedules : Z;
  st_context_switches : Z;
  st_preempts : Z;
  st_yields : Z;
  st_interrupts : Z;
  st_timer_ints : Z;
  st_timers : Z;
  st_reschedule_ipis : Z;
}.

Definition set_st_idle_time (v : Z) (x : thread_stats) : thread_stats :=
  ThreadStats v (st_last_idle_timestamp x) (st_reschedules x) (st_context_switches x) (st_preempts x) (st_yields x) (st_interrupts x) (st_timer_ints x) (st_timers x) (st_reschedule_ipis x).
Definition set_st_last_idle_timestamp (v : Z) (x : thread_stats) : thread_stats :=
  ThreadStats (st_idle_time x) v (st_reschedules x) (st_context_switches x) (st_preempts x) (st_yields x) (st_interrupts x) (st_timer_ints x) (st_timers x) (st_reschedule_ipis x).
Definition set_st_reschedules (v : Z) (x : thread_stats) : thread_stats :=
  ThreadStats (st_idle_time x) (st_last_idle_timestamp x) v (st_context_switches x) (st_preempts x) (st_yields x) (st_interrupts x) (st_timer_ints x) (st_timers x) (st_reschedule_ipis x).
Definition set_st_context_switches (v : Z) (x : thread_stats) : thread_stats :=
  ThreadStats (st_idle_time x) (st_last_idle_timestamp x) (st_reschedules x) v (st_preempts x) (st_yields x) (st_interrupts x) (st_timer_ints x) (st_timers x) (st_reschedule_ipis x).
Definition set_st_preempts (v : Z) (x : thread_stats) : thread_stats :=
  ThreadStats (st_idle_time x) (st_last_idle_timestamp x) (st_reschedules x) (st_context_switches x) v (st_yields x) (st_interrupts x) (st_timer_ints x) (st_timers x) (st_reschedule_ipis x).
Definition set_st_yields (v : Z) (x : thread_stats) : thread_stats :=
  ThreadStats (st_idle_time x) (st_last_idle_timestamp x) (st_reschedules x) (st_context_switches x) (st_preempts x) v (st_interrupts x) (st_timer_ints x) (st_timers x) (st_reschedule_ipis x).
Definition set_st_interrupts (v : Z) (x : thread_stats) : thread_stats :=
  ThreadStats (st_idle_time x) (st_last_idle_timestamp x) (st_reschedules x) (st_context_switches x) (st_preempts x) (st_yields x) v (st_timer_ints x) (st_timers x) (st_reschedule_ipis x).
Definition set_st_timer_ints (v : Z) (x : thread_stats) : thread_stats :=
  ThreadStats (st_idle_time x) (st_last_idle_timestamp x) (st_reschedules x) (st_context_switches x) (st_preempts x) (st_yields x) (st_interrupts x) v (st_timers x) (st_reschedule_ipis x).
Definition set_st_timers (v : Z) (x : thread_stats) : thread_stats :=
  ThreadStats (st_idle_time x) (st_last_idle_timestamp x) (st_reschedules x) (st_context_switches x) (st_preempts x) (st_yields x) (st_interrupts x) (st_timer_ints x) v (st_reschedule_ipis x).
Definition set_st_reschedule_ipis (v : Z) (x : thread_stats) : thread_stats :=
  ThreadStats (st_idle_time x) (st_last_idle_timestamp x) (st_reschedules x) (st_context_switches x) (st_preempts x) (st_yields x) (st_interrupts x) (st_timer_ints x) (st_timers x) v.
Record percpu := PerCpu {
  pc_current : tid;  (* what arch_get_current_thread reads *)
  pc_ints_disabled : bool;
  pc_timer_queue : list timer_id;  (* timers[cpu].timer_queue *)
  pc_stats : thread_stats;  (* thread_stats[cpu] *)
}.

Definition set_pc_current (v : tid) (x : percpu) : percpu :=
  PerCpu v (pc_ints_disabled x) (pc_timer_queue x) (pc_stats x).
Definition set_pc_ints_disabled (v : bool) (x : percpu) : percpu :=
  PerCpu (pc_current x) v (pc_timer_queue x) (pc_stats x).
Definition set_pc_timer_queue (v : list timer_id) (x : percpu) : percpu :=
  PerCpu (pc_current x) (pc_ints_disabled x) v (pc_stats x).
Definition set_pc_stats (v : thread_stats) (x : percpu) : percpu :=
  PerCpu (pc_current x) (pc_ints_disabled x) (pc_timer_queue x) v.
Record mp_state := MpState {
  mp_active_cpus : Z;
  mp_idle_cpus : Z;
  mp_realtime_cpus : Z;
}.

Definition set_mp_active_cpus (v : Z) (x : mp_state) : mp_state :=
  MpState v (mp_idle_cpus x) (mp_realtime_cpus x).
Definition set_mp_idle_cpus (v : Z) (x : mp_state) : mp_state :=
  MpState (mp_active_cpus x) v (mp_realtime_cpus x).
Definition set_mp_realtime_cpus (v : Z) (x : mp_state) : mp_state :=
  MpState (mp_active_cpus x) (mp_idle_cpus x) v.

(** ** mutex.h, event.h, semaphore.h *)
Definition MUTEX_MAGIC : Z := 0x6D757478.
Definition EVENT_MAGIC : Z := 0x65766E74.
Definition EVENT_FLAG_AUTOUNSIGNAL : Z := 1.
Definition SEMAPHORE_MAGIC : Z := 0x73656D61.

Record mutex_t := Mutex {
  m_magic : Z;
  m_count : Z;
  m_holder : option tid;
}.

Definition set_m_magic (v : Z) (x : mutex_t) : mutex_t :=
  Mutex v (m_count x) (m_holder x).
Definition set_m_count (v : Z) (x : mutex_t) : mutex_t :=
  Mutex (m_magic x) v (m_holder x).
Definition set_m_holder (v : option tid) (x : mutex_t) : mutex_t :=
  Mutex (m_magic x) (m_count x) v.
Record event_t := Event {
  e_magic : Z;
  e_signaled : bool;
  e_flags : Z;
}.

Definition set_e_magic (v : Z) (x : event_t) : event_t :=
  Event v (e_signaled x) (e_flags x).
Definition set_e_signaled (v : bool) (x : event_t) : event_t :=
  Event (e_magic x) v (e_flags x).
Definition set_e_flags (v : Z) (x : event_t) : event_t :=
  Event (e_magic x) (e_signaled x) v.
Record semaphore_t := Semaphore {
  sem_magic : Z;
  sem_count : Z;
}.

Definition set_sem_magic (v : Z) (x : semaphore_t) : semaphore_t :=
  Semaphore v (sem_count x).
Definition set_sem_count (v : Z) (x : semaphore_t) : semaphore_t :=
  Semaphore (sem_magic x) v.

(** ** port.h, port.c *)
Record port_buf_t := PortBuf {
  pb_log2 : Z; pb_avail : Z; pb_head : Z; pb_tail : Z; pb_packet : list (list Z)
}.
Record write_port_t := WritePort {
  wp_magic : Z; wp_buf : Z; wp_rp_list : list Z; wp_mode : Z; wp_name : string
}.
Record read_port_t := ReadPort {
  rp_magic : Z; rp_buf : Z; rp_ctx : Z; rp_wport : Z; rp_gport : Z
}.
Record port_group_t := PortGroup { pg_magic : Z; pg_rp_list : list Z }.

Inductive kobj :=
  | KMutex (m : mutex_t) | KEvent (e : event_t) | KSem (sem : semaphore_t)
  | KPortBuf (b : port_buf_t) | KWritePort (wp : write_port_t)
  | KReadPort (rp : read_port_t) | KPortGroup (pg : port_group_t).

(** ** Calls out of the modelled code, in the order they are made *)
Inductive kevent :=
  | EvSendIpi (mask : Z)                  (* arch_mp_send_ipi, reschedule *)
  | EvSetOneshotTimer (delay : Z)         (* platform_set_oneshot_timer *)
  | EvStopTimer                           (* platform_stop_timer *)
  | EvDebugLed (on : bool)                (* target_set_debug_led *)
  | EvMmuContextSwitch (aspace : option Z) (* arch_mmu_context_switch *)
  | EvThreadInitialize (t : tid)          (* arch_thread_initialize *)
  | EvFree (p : Z) | EvDelayedFree (p : Z).

Record kstate := KState {
  ks_cpu : Z;  (* the cpu executing *)
  ks_percpu : gmap Z percpu;
  ks_threads : gmap tid thread_t;  (* the live thread_t structures *)
  ks_thread_list : list tid;
  ks_run_queue : list (list tid);
  ks_run_queue_bitmap : Z;
  ks_thread_lock : bool;
  ks_wait_queues : gmap wqid wait_queue_t;
  ks_timers : gmap timer_id timer_t;
  ks_mp : mp_state;
  ks_objs : gmap Z kobj;  (* mutexes, events, semaphores and ports by address *)
  ks_write_port_list : list Z;
  ks_now : Z;  (* current_time *)
  ks_now_hires : Z;  (* current_time_hires *)
  ks_allocs : list (option Z);  (* what the next malloc calls return *)
  ks_trace : list kevent;  (* calls into arch and platform code, latest first *)
}.

Definition set_ks_cpu (v : Z) (x : kstate) : kstate :=
  KState v (ks_percpu x) (ks_threads x) (ks_thread_list x) (ks_run_queue x) (ks_run_queue_bitmap x) (ks_thread_lock x) (ks_wait_queues x) (ks_timers x) (ks_mp x) (ks_objs x) (ks_write_port_list x) (ks_now x) (ks_now_hires x) (ks_allocs x) (ks_trace x).
Definition set_ks_percpu (v : gmap Z percpu) (x : kstate) : kstate :=
  KState (ks_cpu x) v (ks_threads x) (ks_thread_list x) (ks_run_queue x) (ks_run_queue_bitmap x) (ks_thread_lock x) (ks_wait_queues x) (ks_timers x) (ks_mp x) (ks_objs x) (ks_write_port_list x) (ks_now x) (ks_now_hires x) (ks_allocs x) (ks_trace x).
Definition set_ks_threads (v : gmap tid thread_t) (x : kstate) : kstate :=
  KState (ks_cpu x) (ks_percpu x) v (ks_thread_list x) (ks_run_queue x) (ks_run_queue_bitmap x) (ks_thread_lock x) (ks_wait_queues x) (ks_timers x) (ks_mp x) (ks_objs x) (ks_write_port_list x) (ks_now x) (ks_now_hires x) (ks_allocs x) (ks_trace x).
Definition set_ks_thread_list (v : list tid) (x : kstate) : kstate :=
  KState (ks_cpu x) (ks_percpu x) (ks_threads x) v (ks_run_queue x) (ks_run_queue_bitmap x) (ks_thread_lock x) (ks_wait_queues x) (ks_timers x) (ks_mp x) (ks_objs x) (ks_write_port_list x) (ks_now x) (ks_now_hires x) (ks_allocs x) (ks_trace x).
Definition set_ks_run_queue (v : list (list tid)) (x : kstate) : kstate :=
  KState (ks_cpu x) (ks_percpu x) (ks_threads x) (ks_thread_list x) v (ks_run_queue_bitmap x) (ks_thread_lock x) (ks_wait_queues x) (ks_timers x) (ks_mp x) (ks_objs x) (ks_write_port_list x) (ks_now x) (ks_now_hires x) (ks_allocs x) (ks_trace x).
Definition set_ks_run_queue_bitmap (v : Z) (x : kstate) : kstate :=
  KState (ks_cpu x) (ks_percpu x) (ks_threads x) (ks_thread_list x) (ks_run_queue x) v (ks_thread_lock x) (ks_wait_queues x) (ks_timers x) (ks_mp x) (ks_objs x) (ks_write_port_list x) (ks_now x) (ks_now_hires x) (ks_allocs x) (ks_trace x).
Definition set_ks_thread_lock (v : bool) (x : kstate) : kstate :=
  KState (ks_cpu x) (ks_percpu x) (ks_threads x) (ks_thread_list x) (ks_run_queue x) (ks_run_queue_bitmap x) v (ks_wait_queues x) (ks_timers x) (ks_mp x) (ks_objs x) (ks_write_port_list x) (ks_now x) (ks_now_hires x) (ks_allocs x) (ks_trace x).
Definition set_ks_wait_queues (v : gmap wqid wait_queue_t) (x : kstate) : kstate :=
  KState (ks_cpu x) (ks_percpu x) (ks_threads x) (ks_thread_list x) (ks_run_queue x) (ks_run_queue_bitmap x) (ks_thread_lock x) v (ks_timers x) (ks_mp x) (ks_objs x) (ks_write_port_list x) (ks_now x) (ks_now_hires x) (ks_allocs x) (ks_trace x).
Definition set_ks_timers (v : gmap timer_id timer_t) (x : kstate) : kstate :=
  KState (ks_cpu x) (ks_percpu x) (ks_threads x) (ks_thread_list x) (ks_run_queue x) (ks_run_queue_bitmap x) (ks_thread_lock x) (ks_wait_queues x) v (ks_mp x) (ks_objs x) (ks_write_port_list x) (ks_now x) (ks_now_hires x) (ks_allocs x) (ks_trace x).
Definition set_ks_mp (v : mp_state) (x : kstate) : kstate :=
  KState (ks_cpu x) (ks_percpu x) (ks_threads x) (ks_thread_list x) (ks_run_queue x) (ks_run_queue_bitmap x) (ks_thread_lock x) (ks_wait_queues x) (ks_timers x) v (ks_objs x) (ks_write_port_list x) (ks_now x) (ks_now_hires x) (ks_allocs x) (ks_trace x).
Definition set_ks_objs (v : gmap Z kobj) (x : kstate) : kstate :=
  KState (ks_cpu x) (ks_percpu x) (ks_threads x) (ks_thread_list x) (ks_run_queue x) (ks_run_queue_bitmap x) (ks_thread_lock x) (ks_wait_queues x) (ks_timers x) (ks_mp x) v (ks_write_port_list x) (ks_now x) (ks_now_hires x) (ks_allocs x) (ks_trace x).
Definition set_ks_write_port_list (v : list Z) (x : kstate) : kstate :=
  KState (ks_cpu x) (ks_percpu x) (ks_threads x) (ks_thread_list x) (ks_run_queue x) (ks_run_queue_bitmap x) (ks_thread_lock x) (ks_wait_queues x) (ks_timers x) (ks_mp x) (ks_objs x) v (ks_now x) (ks_now_hires x) (ks_allocs x) (ks_trace x).
Definition set_ks_now (v : Z) (x : kstate) : kstate :=
  KState (ks_cpu x) (ks_percpu x) (ks_threads x) (ks_thread_list x) (ks_run_queue x) (ks_run_queue_bitmap x) (ks_thread_lock x) (ks_wait_queues x) (ks_timers x) (ks_mp x) (ks_objs x) (ks_write_port_list x) v (ks_now_hires x) (ks_allocs x) (ks_trace x).
Definition set_ks_now_hires (v : Z) (x : kstate) : kstate :=
  KState (ks_cpu x) (ks_percpu x) (ks_threads x) (ks_thread_list x) (ks_run_queue x) (ks_run_queue_bitmap x) (ks_thread_lock x) (ks_wait_queues x) (ks_timers x) (ks_mp x) (ks_objs x) (ks_write_port_list x) (ks_now x) v (ks_allocs x) (ks_trace x).
Definition set_ks_allocs (v : list (option Z)) (x : kstate) : kstate :=
  KState (ks_cpu x) (ks_percpu x) (ks_threads x) (ks_thread_list x) (ks_run_queue x) (ks_run_queue_bitmap x) (ks_thread_lock x) (ks_wait_queues x) (ks_timers x) (ks_mp x) (ks_objs x) (ks_write_port_list x) (ks_now x) (ks_now_hires x) v (ks_trace x).
Definition set_ks_trace (v : list kevent) (x : kstate) : kstate :=
  KState (ks_cpu x) (ks_percpu x) (ks_threads x) (ks_thread_list x) (ks_run_queue x) (ks_run_queue_bitmap x) (ks_thread_lock x) (ks_wait_queues x) (ks_timers x) (ks_mp x) (ks_objs x) (ks_write_port_list x) (ks_now x) (ks_now_hires x) (ks_allocs x) v.

(** ** Outcomes and the kernel monad *)
Inductive fault := AssertFail | PanicCall | BadDeref | BadIndex | LockHeld | OutOfFuel.
#[export] Instance fault_eq_dec : EqDecision fault.
Proof. solve_decision. Defined.

Inductive outcome (A : Type) :=
  | Ret (a : A) (s : kstate)
  | Switch (old new : tid) (s : kstate) (k : kstate -> outcome A)
  | Unlocked (s : kstate) (k : kstate -> outcome A)
  | Fault (f : fault).
Arguments Ret {A} a s.
Arguments Switch {A} old new s k.
Arguments Unlocked {A} s k.
Arguments Fault {A} f.

Definition K (A : Type) := kstate -> outcome A.

Fixpoint obind {A B} (o : outcome A) (f : A -> K B) : outcome B :=
  match o with
  | Ret a s => f a s
  | Switch old new s k => Switch old new s (fun s' => obind (k s') f)
  | Unlocked s k => Unlocked s (fun s' => obind (k s') f)
  | Fault e => Fault e
  end.

#[export] Instance K_ret : MRet K := fun A a s => Ret a s.
#[export] Instance K_bind : MBind K := fun A B f m s => obind (m s) f.

Definition kget : K kstate := fun s => Ret s s.
Definition kmod (f : kstate -> kstate) : K unit := fun s => Ret tt (f s).
Definition kfault {A} (e : fault) : K A := fun _ => Fault e.
Definition kdone : K unit := fun s => Ret tt s.
Definition kwhen (b : bool) (m : K unit) : K unit := if b then m else kdone.
Definition emit (e : kevent) : K unit := kmod (fun s => set_ks_trace (e :: ks_trace s) s).

(** [DEBUG_ASSERT] is compiled in above debug level 1, [panic] always. *)
Definition DEBUG_ASSERT `{KConfig} (b : bool) : K unit :=
  if (1 <? LK_DEBUGLEVEL) && negb b then kfault AssertFail else kdone.
Definition THREAD_STATS `{KConfig} : bool := 1 <? LK_DEBUGLEVEL.
Definition panic {A} : K A := kfault PanicCall.

(** ** Field access *)
Definition get_thread (t : tid) : K thread_t := fun s =>
  match ks_threads s !! t with Some th => Ret th s | None => Fault BadDeref end.
Definition put_thread (t : tid) (th : thread_t) (s : kstate) : kstate :=
  set_ks_threads (<[t := th]> (ks_threads s)) s.
Definition mod_thread (t : tid) (f : thread_t -> thread_t) : K unit :=
  th ← get_thread t; kmod (put_thread t (f th)).

Definition get_cpu : K percpu := fun s =>
  match ks_percpu s !! ks_cpu s with Some pc => Ret pc s | None => Fault BadIndex end.
Definition put_cpu (pc : percpu) (s : kstate) : kstate :=
  set_ks_percpu (<[ks_cpu s := pc]> (ks_percpu s)) s.
Definition mod_cpu (f : percpu -> percpu) : K unit := pc ← get_cpu; kmod (put_cpu (f pc)).

Definition get_current_thread : K tid := pc ← get_cpu; mret (pc_current pc).
Definition set_current_thread (t : tid) : K unit := mod_cpu (set_pc_current t).
Definition arch_curr_cpu_num : K Z := fun s => Ret (ks_cpu s) s.
Definition arch_ints_disabled : K bool := pc ← get_cpu; mret (pc_ints_disabled pc).
Definition thread_lock_held : K bool := fun s => Ret (ks_thread_lock s) s.

Definition get_wq (w : wqid) : K wait_queue_t := fun s =>
  match ks_wait_queues s !! w with Some q => Ret q s | None => Fault BadDeref end.
Definition put_wq (w : wqid) (q : wait_queue_t) (s : kstate) : kstate :=
  set_ks_wait_queues (<[w := q]> (ks_wait_queues s)) s.
Definition mod_wq (w : wqid) (f : wait_queue_t -> wait_queue_t) : K unit :=
  q ← get_wq w; kmod (put_wq w (f q)).

Definition get_timer (i : timer_id) : K timer_t := fun s =>
  match ks_timers s !! i with Some tm => Ret tm s | None => Fault BadDeref end.
Definition put_timer (i : timer_id) (tm : timer_t) (s : kstate) : kstate :=
  set_ks_timers (<[i := tm]> (ks_timers s)) s.
Definition mod_timer (i : timer_id) (f : timer_t -> timer_t) : K unit :=
  tm ← get_timer i; kmod (put_timer i (f tm)).

Definition get_obj (a : Z) : K kobj := fun s =>
  match ks_objs s !! a with Some o => Ret o s | None => Fault BadDeref end.
Definition put_obj (a : Z) (o : kobj) (s : kstate) : kstate :=
  set_ks_objs (<[a := o]> (ks_objs s)) s.

(** [malloc] returns what the environment supplies next, NULL when it supplies
    nothing. *)
Definition malloc : K Z := fun s =>
  match ks_allocs s with
  | Some p :: rest => Ret p (set_ks_allocs rest s)
  | None :: rest => Ret 0 (set_ks_allocs rest s)
  | [] => Ret 0 s
  end.

(** Statistics counters, [THREAD_STATS_INC]. *)
Definition THREAD_STATS_INC `{KConfig} (upd : thread_stats -> thread_stats) : K unit :=
  kwhen THREAD_STATS (mod_cpu (fun pc => set_pc_stats (upd (pc_stats pc)) pc)).

(** ** The thread lock: [THREAD_LOCK(state)] and [THREAD_UNLOCK(state)] *)
Definition THREAD_LOCK : K bool :=
  saved ← arch_ints_disabled;
  mod_cpu (set_pc_ints_disabled true);;
  s ← kget;
  if ks_thread_lock s then kfault LockHeld
  else kmod (set_ks_thread_lock true);; mret saved.

Definition unlocked_point : K unit := fun s => Unlocked s (fun s' => Ret tt s').

Definition THREAD_UNLOCK (saved : bool) : K unit :=
  kmod (set_ks_thread_lock false);;
  mod_cpu (set_pc_ints_disabled saved);;
  unlocked_point.
