(* ===== verification/Timer.v ===== *)
(** * Kernel timers: queue management ([kernel/timer.c], [kernel/include/kernel/timer.h])

    Timers of each cpu are kept on a queue ordered by expiry time, in 32-bit
    millisecond time that wraps around.  This file holds the operations that
    set and cancel timers; [timer_tick], which calls back into the scheduler,
    is in TimerTick.  [timer_lock] protects the queues and is not held across
    anything that blocks, so each of these functions is one atomic step. *)
From S2P Require Import Prelude KState.

(** ** Wrap-around time, [sys/types.h] *)
Definition TIME_GTE (a b : Z) : bool := 0 <=? s32 (a - b).
Definition TIME_LTE (a b : Z) : bool := s32 (a - b) <=? 0.
Definition TIME_GT (a b : Z) : bool := 0 <? s32 (a - b).
Definition TIME_LT (a b : Z) : bool := s32 (a - b) <? 0.

Section timer.
Context `{KConfig}.

(** [list_in_list(&timer->node)] and [list_delete(&timer->node)] *)
Definition timer_queued (s : kstate) (i : timer_id) : bool :=
  bool_decide (map_Exists (fun _ pc => i ∈ pc_timer_queue pc) (ks_percpu s)).
Definition timer_unlink (i : timer_id) (s : kstate) : kstate :=
  set_ks_percpu ((fun pc => set_pc_timer_queue (remove_elt i (pc_timer_queue pc)) pc)
                   <$> ks_percpu s) s.

Definition timer_initialize (i : timer_id) : K unit :=
  kmod (put_timer i (Timer TIMER_MAGIC 0 0 NullCallback 0)).

(** The [list_for_every_entry] walk of [insert_timer_in_queue]: before the first
    entry that expires later, else at the end. *)
Fixpoint insert_timer_walk (timer : timer_id) (q : list timer_id) : K (list timer_id) :=
  match q with
  | [] => mret [timer]
  | entry :: q' =>
      e ← get_timer entry; t ← get_timer timer;
      if TIME_GT (tm_scheduled_time e) (tm_scheduled_time t)
      then mret (timer :: entry :: q')
      else r ← insert_timer_walk timer q'; mret (entry :: r)
  end.

Definition insert_timer_in_queue (timer : timer_id) : K unit :=
  ints ← arch_ints_disabled; DEBUG_ASSERT ints;;
  pc ← get_cpu;
  q ← insert_timer_walk timer (pc_timer_queue pc);
  mod_cpu (set_pc_timer_queue q).

(** [spin_lock_irqsave(&timer_lock, state)] and its counterpart *)
Definition timer_lock_irqsave : K bool :=
  saved ← arch_ints_disabled; mod_cpu (set_pc_ints_disabled true);; mret saved.
Definition timer_unlock_irqrestore (saved : bool) : K unit :=
  mod_cpu (set_pc_ints_disabled saved).

Definition timer_set (timer : timer_id) (delay period : Z) (callback : callback_fn) (arg : Z)
  : K unit :=
  tm ← get_timer timer;
  DEBUG_ASSERT (tm_magic tm =? TIMER_MAGIC);;
  s ← kget;
  (if timer_queued s timer then panic else kdone);;
  let now := ks_now s in
  mod_timer timer (fun tm => set_tm_arg arg (set_tm_callback callback
    (set_tm_periodic_time period (set_tm_scheduled_time (u32 (now + delay)) tm))));;
  saved ← timer_lock_irqsave;
  insert_timer_in_queue timer;;
  pc ← get_cpu;
  kwhen (bool_decide (head (pc_timer_queue pc) = Some timer))
    (* we just modified the head of the timer queue *)
    (emit (EvSetOneshotTimer delay));;
  timer_unlock_irqrestore saved.

Definition timer_set_oneshot (timer : timer_id) (delay : Z) (callback : callback_fn) (arg : Z)
  : K unit :=
  let delay := if delay =? 0 then 1 else delay in
  timer_set timer delay 0 callback arg.

Definition timer_set_periodic (timer : timer_id) (period : Z) (callback : callback_fn) (arg : Z)
  : K unit :=
  let period := if period =? 0 then 1 else period in
  timer_set timer period period callback arg.

Definition timer_cancel (timer : timer_id) : K unit :=
  tm ← get_timer timer;
  DEBUG_ASSERT (tm_magic tm =? TIMER_MAGIC);;
  saved ← timer_lock_irqsave;
  pc ← get_cpu;
  let oldhead := head (pc_timer_queue pc) in
  s ← kget;
  kwhen (timer_queued s timer) (kmod (timer_unlink timer));;
  (* keep it from being reinserted if called from its own callback *)
  mod_timer timer (fun tm => set_tm_arg 0 (set_tm_callback NullCallback
    (set_tm_periodic_time 0 tm)));;
  pc ← get_cpu;
  (* see if we've just modified the head of the timer queue *)
  match head (pc_timer_queue pc) with
  | None => emit EvStopTimer
  | Some newhead =>
      kwhen (negb (bool_decide (Some newhead = oldhead)))
        (nh ← get_timer newhead; s ← kget;
         let now := ks_now s in
         let delay := if TIME_LT (tm_scheduled_time nh) now then 0
                      else u32 (tm_scheduled_time nh - now) in
         emit (EvSetOneshotTimer delay))
  end;;
  timer_unlock_irqrestore saved.

(** [timer_init] empties the queue of every cpu. *)
Definition timer_init : K unit :=
  kmod (fun s => set_ks_percpu (set_pc_timer_queue [] <$> ks_percpu s) s).
End timer.
