(* ===== verification/Thread.v ===== *)
(** * Threads, scheduler and wait queues: the code of [kernel/thread.c]

    Every function of the file that changes state, as written, with the parts
    of [kernel/mp.c] and [kernel/include/kernel/{thread,mp}.h] it uses.  The
    invariants and theorems about them are in SchedInv, SchedSpec and System. *)
From S2P Require Import Prelude KState Timer.

(** ** kernel/mp.c, kernel/include/kernel/mp.h *)
Section mp.
Context `{KConfig}.

Definition MP_CPU_ALL_BUT_LOCAL : Z := UINT32_MAX.
Definition MP_RESCHEDULE_FLAG_REALTIME : Z := 1.

Definition mp_reschedule (target flags : Z) : K unit :=
  local_cpu ← arch_curr_cpu_num;
  s ← kget;
  (* mask out cpus that are not active and the local cpu *)
  let target := Z.land target (mp_active_cpus (ks_mp s)) in
  (* mask out cpus that are currently running realtime code *)
  let target := if Z.land flags MP_RESCHEDULE_FLAG_REALTIME =? 0
                then clear_flag target (mp_realtime_cpus (ks_mp s)) else target in
  let target := clear_flag target (BIT local_cpu) in
  if target =? 0 then kdone else emit (EvSendIpi target).

Definition mod_mp (f : mp_state -> mp_state) : K unit :=
  kmod (fun s => set_ks_mp (f (ks_mp s)) s).

Definition mp_set_curr_cpu_active (active : bool) : K unit :=
  cpu ← arch_curr_cpu_num;
  mod_mp (fun m => set_mp_active_cpus (Z.lor (mp_active_cpus m) (BIT cpu)) m).
Definition mp_set_cpu_idle (cpu : Z) : K unit :=
  mod_mp (fun m => set_mp_idle_cpus (Z.lor (mp_idle_cpus m) (BIT cpu)) m).
Definition mp_set_cpu_busy (cpu : Z) : K unit :=
  mod_mp (fun m => set_mp_idle_cpus (clear_flag (mp_idle_cpus m) (BIT cpu)) m).
Definition mp_set_cpu_realtime (cpu : Z) : K unit :=
  mod_mp (fun m => set_mp_realtime_cpus (Z.lor (mp_realtime_cpus m) (BIT cpu)) m).
Definition mp_set_cpu_non_realtime (cpu : Z) : K unit :=
  mod_mp (fun m => set_mp_realtime_cpus (clear_flag (mp_realtime_cpus m) (BIT cpu)) m).

Definition mp_mbx_reschedule_irq : K handler_return :=
  cpu ← arch_curr_cpu_num;
  THREAD_STATS_INC (fun st => set_st_reschedule_ipis (u64 (st_reschedule_ipis st + 1)) st);;
  s ← kget;
  mret (if has_flag (mp_active_cpus (ks_mp s)) (BIT cpu) then INT_RESCHEDULE else INT_NO_RESCHEDULE).
End mp.

Section thread.
Context `{KConfig}.

(** The statically allocated idle threads; static objects have negative
    addresses, the heap positive ones. *)
Definition idle_thread (cpu : Z) : tid := -1 - cpu.

(** ** Run queue manipulation *)

(** [list_in_list(&t->queue_node)] and [list_delete(&t->queue_node)]: the node
    links a thread into a run queue or a wait queue. *)
Definition queue_node_in_list (s : kstate) (t : tid) : bool :=
  existsb (fun q => bool_decide (t ∈ q)) (ks_run_queue s)
  || bool_decide (map_Exists (fun _ w => t ∈ wq_list w) (ks_wait_queues s)).
Definition queue_node_delete (t : tid) (s : kstate) : kstate :=
  set_ks_run_queue (remove_elt t <$> ks_run_queue s)
    (set_ks_wait_queues ((fun w => set_wq_list (remove_elt t (wq_list w)) w)
                           <$> ks_wait_queues s) s).

(** [&run_queue[i]], a fault outside the array *)
Definition get_run_queue (i : Z) : K (list tid) := fun s =>
  if (0 <=? i) && (i <? NUM_PRIORITIES)
  then match ks_run_queue s !! Z.to_nat i with Some q => Ret q s | None => Fault BadIndex end
  else Fault BadIndex.
Definition put_run_queue (i : Z) (q : list tid) (s : kstate) : kstate :=
  set_ks_run_queue (<[Z.to_nat i := q]> (ks_run_queue s)) s.

Definition assert_locked : K unit :=
  ints ← arch_ints_disabled; DEBUG_ASSERT ints;;
  held ← thread_lock_held; DEBUG_ASSERT held.

Definition insert_in_run_queue_head (t : tid) : K unit :=
  th ← get_thread t; s ← kget;
  DEBUG_ASSERT (t_magic th =? THREAD_MAGIC);;
  DEBUG_ASSERT (bool_decide (t_state th = THREAD_READY));;
  DEBUG_ASSERT (negb (queue_node_in_list s t));;
  assert_locked;;
  q ← get_run_queue (t_priority th);
  kmod (put_run_queue (t_priority th) (t :: q));;
  kmod (fun s => set_ks_run_queue_bitmap (Z.lor (ks_run_queue_bitmap s) (BIT (t_priority th))) s).

Definition insert_in_run_queue_tail (t : tid) : K unit :=
  th ← get_thread t; s ← kget;
  DEBUG_ASSERT (t_magic th =? THREAD_MAGIC);;
  DEBUG_ASSERT (bool_decide (t_state th = THREAD_READY));;
  DEBUG_ASSERT (negb (queue_node_in_list s t));;
  assert_locked;;
  q ← get_run_queue (t_priority th);
  kmod (put_run_queue (t_priority th) (q ++ [t]));;
  kmod (fun s => set_ks_run_queue_bitmap (Z.lor (ks_run_queue_bitmap s) (BIT (t_priority th))) s).

Definition wakeup_cpu_for_thread (t : tid) : K unit :=
  th ← get_thread t;
  if t_pinned_cpu th <? 0 then mp_reschedule MP_CPU_ALL_BUT_LOCAL 0
  else mp_reschedule (u32 (BIT (t_pinned_cpu th))) 0.

(** ** Thread flags *)
Definition thread_is_realtime (th : thread_t) : bool :=
  has_flag (t_flags th) THREAD_FLAG_REAL_TIME && (DEFAULT_PRIORITY <? t_priority th).
Definition thread_is_idle (th : thread_t) : bool := has_flag (t_flags th) THREAD_FLAG_IDLE.
Definition thread_is_real_time_or_idle (th : thread_t) : bool :=
  has_flag (t_flags th) (Z.lor THREAD_FLAG_REAL_TIME THREAD_FLAG_IDLE).

(** ** Picking the next thread *)

(** The first thread of a queue that may run on [cpu]. *)
Fixpoint find_runnable (cpu : Z) (q : list tid) : K (option tid) :=
  match q with
  | [] => mret None
  | t :: q' =>
      th ← get_thread t;
      if (t_pinned_cpu th <? 0) || (t_pinned_cpu th =? cpu) then mret (Some t)
      else find_runnable cpu q'
  end.

(** The loop over the bitmap clears one bit per round. *)
Fixpoint get_top_thread_loop (fuel : nat) (local_run_queue_bitmap : Z) (cpu : Z) : K tid :=
  if local_run_queue_bitmap =? 0 then mret (idle_thread cpu)   (* no threads to run *)
  else match fuel with
  | O => kfault OutOfFuel
  | S fuel =>
      let next_queue := 32 - 1 - builtin_clz local_run_queue_bitmap in
      q ← get_run_queue next_queue;
      found ← find_runnable cpu q;
      match found with
      | Some newthread =>
          kmod (queue_node_delete newthread);;
          q' ← get_run_queue next_queue;
          kwhen (bool_decide (q' = []))
            (kmod (fun s => set_ks_run_queue_bitmap
                     (clear_flag (ks_run_queue_bitmap s) (BIT next_queue)) s));;
          mret newthread
      | None =>
          get_top_thread_loop fuel (clear_flag local_run_queue_bitmap (BIT next_queue)) cpu
      end
  end.

Definition get_top_thread (cpu : Z) : K tid :=
  s ← kget; get_top_thread_loop 32 (ks_run_queue_bitmap s) cpu.

(** ** thread_resched *)
Definition arch_context_switch (oldthread newthread : tid) : K unit :=
  fun s => Switch oldthread newthread s (fun s' => Ret tt s').

(** mark the cpu state for the incoming thread, WITH_SMP part *)
Definition resched_mp (cpu : Z) (newth : thread_t) : K unit :=
  (if thread_is_idle newth then mp_set_cpu_idle cpu else mp_set_cpu_busy cpu);;
  (if thread_is_realtime newth then mp_set_cpu_realtime cpu else mp_set_cpu_non_realtime cpu).

(** the THREAD_STATS part *)
Definition resched_stats (oldthread newthread : tid) : K unit :=
  kwhen THREAD_STATS (
    THREAD_STATS_INC (fun st => set_st_context_switches (u64 (st_context_switches st + 1)) st);;
    s ← kget; let now := ks_now_hires s in
    oldth ← get_thread oldthread; newth ← get_thread newthread;
    (if thread_is_idle oldth
     then THREAD_STATS_INC (fun st => set_st_idle_time
            (u64 (st_idle_time st + (now - st_last_idle_timestamp st))) st)
     else mod_thread oldthread (fun th => set_t_total_run_time
            (u64 (t_total_run_time th + (now - t_last_run_timestamp th))) th));;
    (if thread_is_idle newth
     then THREAD_STATS_INC (fun st => set_st_last_idle_timestamp now st)
     else mod_thread newthread (fun th => set_t_schedules (u64 (t_schedules th + 1))
            (set_t_last_run_timestamp now th)))).

(** start or stop the preemption timer, PLATFORM_HAS_DYNAMIC_TIMER part *)
Definition resched_preempt_timer (cpu : Z) (oldthread newthread : tid) : K unit :=
  oldth ← get_thread oldthread; newth ← get_thread newthread;
  if thread_is_real_time_or_idle newth
  then kwhen (negb (thread_is_real_time_or_idle oldth)) (timer_cancel (TmPreempt cpu))
  else kwhen (thread_is_real_time_or_idle oldth)
         (timer_set_periodic (TmPreempt cpu) 10 ThreadTimerTick 0).

(** THREAD_STACK_BOUNDS_CHECK: the padding of the old stack must be intact *)
Definition resched_stack_check (oldthread : tid) : K unit :=
  kwhen (1 <? LK_DEBUGLEVEL) (
    oldth ← get_thread oldthread;
    kwhen (has_flag (t_flags oldth) THREAD_FLAG_DEBUG_STACK_BOUNDS_CHECK)
      (if forallb (fun w => w =? STACK_DEBUG_WORD) (t_stack_pad oldth) then kdone else panic)).

(** [vmm_context_switch] swaps the mmu context *)
Definition vmm_context_switch (newaspace : option Z) : K unit :=
  held ← thread_lock_held; DEBUG_ASSERT held;;
  emit (EvMmuContextSwitch newaspace).
Definition resched_aspace (oldthread newthread : tid) : K unit :=
  oldth ← get_thread oldthread; newth ← get_thread newthread;
  kwhen (negb (bool_decide (t_aspace newth = t_aspace oldth)))
    (vmm_context_switch (t_aspace newth)).

Definition thread_resched : K unit :=
  current_thread ← get_current_thread;
  cpu ← arch_curr_cpu_num;
  assert_locked;;
  curth ← get_thread current_thread;
  DEBUG_ASSERT (negb (bool_decide (t_state curth = THREAD_RUNNING)));;
  THREAD_STATS_INC (fun st => set_st_reschedules (u64 (st_reschedules st + 1)) st);;
  newthread ← get_top_thread cpu;
  mod_thread newthread (set_t_state THREAD_RUNNING);;
  let oldthread := current_thread in
  if newthread =? oldthread then kdone
  else
    (* set up quantum for the new thread if it was consumed *)
    newth ← get_thread newthread;
    kwhen (t_remaining_quantum newth <=? 0) (mod_thread newthread (set_t_remaining_quantum 5));;
    (* mark the cpu ownership of the threads *)
    mod_thread oldthread (set_t_curr_cpu (-1));;
    mod_thread newthread (set_t_curr_cpu cpu);;
    newth ← get_thread newthread;
    resched_mp cpu newth;;
    resched_stats oldthread newthread;;
    resched_preempt_timer cpu oldthread newthread;;
    emit (EvDebugLed (negb (thread_is_idle newth)));;
    (* do the switch *)
    set_current_thread newthread;;
    resched_stack_check oldthread;;
    resched_aspace oldthread newthread;;
    arch_context_switch oldthread newthread.

(** ** Giving up the cpu *)
Definition thread_yield : K unit :=
  current_thread ← get_current_thread;
  th ← get_thread current_thread;
  DEBUG_ASSERT (t_magic th =? THREAD_MAGIC);;
  DEBUG_ASSERT (bool_decide (t_state th = THREAD_RUNNING));;
  state ← THREAD_LOCK;
  THREAD_STATS_INC (fun st => set_st_yields (u64 (st_yields st + 1)) st);;
  mod_thread current_thread (fun th => set_t_remaining_quantum 0 (set_t_state THREAD_READY th));;
  (* idle thread doesn't go in the run queue *)
  kwhen (negb (thread_is_idle th)) (insert_in_run_queue_tail current_thread);;
  thread_resched;;
  THREAD_UNLOCK state.

Definition thread_preempt : K unit :=
  current_thread ← get_current_thread;
  th ← get_thread current_thread;
  DEBUG_ASSERT (t_magic th =? THREAD_MAGIC);;
  DEBUG_ASSERT (bool_decide (t_state th = THREAD_RUNNING));;
  kwhen (negb (thread_is_idle th))
    (THREAD_STATS_INC (fun st => set_st_preempts (u64 (st_preempts st + 1)) st));;
  state ← THREAD_LOCK;
  mod_thread current_thread (set_t_state THREAD_READY);;
  kwhen (negb (thread_is_idle th))
    (if 0 <? t_remaining_quantum th then insert_in_run_queue_head current_thread
     else insert_in_run_queue_tail current_thread);;
  thread_resched;;
  THREAD_UNLOCK state.

Definition thread_block : K unit :=
  current_thread ← get_current_thread;
  th ← get_thread current_thread;
  DEBUG_ASSERT (t_magic th =? THREAD_MAGIC);;
  DEBUG_ASSERT (bool_decide (t_state th = THREAD_BLOCKED));;
  held ← thread_lock_held; DEBUG_ASSERT held;;
  DEBUG_ASSERT (negb (thread_is_idle th));;
  thread_resched.

Definition thread_unblock (t : tid) (resched : bool) : K unit :=
  th ← get_thread t;
  DEBUG_ASSERT (t_magic th =? THREAD_MAGIC);;
  DEBUG_ASSERT (bool_decide (t_state th = THREAD_BLOCKED));;
  held ← thread_lock_held; DEBUG_ASSERT held;;
  DEBUG_ASSERT (negb (thread_is_idle th));;
  mod_thread t (set_t_state THREAD_READY);;
  insert_in_run_queue_head t;;
  wakeup_cpu_for_thread t;;
  kwhen resched thread_resched.

Definition thread_timer_tick : K handler_return :=
  current_thread ← get_current_thread;
  th ← get_thread current_thread;
  if thread_is_real_time_or_idle th then mret INT_NO_RESCHEDULE
  else
    let q := t_remaining_quantum th - 1 in
    mod_thread current_thread (set_t_remaining_quantum q);;
    mret (if q <=? 0 then INT_RESCHEDULE else INT_NO_RESCHEDULE).

Definition thread_sleep_handler (t : tid) : K handler_return :=
  th ← get_thread t;
  DEBUG_ASSERT (t_magic th =? THREAD_MAGIC);;
  DEBUG_ASSERT (bool_decide (t_state th = THREAD_SLEEPING));;
  state ← THREAD_LOCK;
  mod_thread t (set_t_state THREAD_READY);;
  insert_in_run_queue_head t;;
  THREAD_UNLOCK state;;
  mret INT_RESCHEDULE.

Definition thread_sleep (delay : Z) : K unit :=
  current_thread ← get_current_thread;
  th ← get_thread current_thread;
  DEBUG_ASSERT (t_magic th =? THREAD_MAGIC);;
  DEBUG_ASSERT (bool_decide (t_state th = THREAD_RUNNING));;
  DEBUG_ASSERT (negb (thread_is_idle th));;
  let timer := TmStack current_thread in
  timer_initialize timer;;
  state ← THREAD_LOCK;
  timer_set_oneshot timer delay ThreadSleepHandler current_thread;;
  mod_thread current_thread (set_t_state THREAD_SLEEPING);;
  thread_resched;;
  THREAD_UNLOCK state.

Definition thread_set_priority (priority : Z) : K unit :=
  current_thread ← get_current_thread;
  state ← THREAD_LOCK;
  let priority := if priority <=? IDLE_PRIORITY then IDLE_PRIORITY + 1 else priority in
  let priority := if HIGHEST_PRIORITY <? priority then HIGHEST_PRIORITY else priority in
  mod_thread current_thread (set_t_priority priority);;
  mod_thread current_thread (set_t_state THREAD_READY);;
  insert_in_run_queue_head current_thread;;
  thread_resched;;
  THREAD_UNLOCK state.

Definition thread_set_real_time (t : tid) : K Z :=
  if t =? 0 then mret ERR_INVALID_ARGS
  else
    th ← get_thread t;
    DEBUG_ASSERT (t_magic th =? THREAD_MAGIC);;
    state ← THREAD_LOCK;
    cur ← get_current_thread;
    cpu ← arch_curr_cpu_num;
    kwhen (t =? cur) (timer_cancel (TmPreempt cpu));;
    mod_thread t (fun th => set_t_flags (Z.lor (t_flags th) THREAD_FLAG_REAL_TIME) th);;
    THREAD_UNLOCK state;;
    mret NO_ERROR.
End thread.
