(* ===== verification/WaitQueue.v ===== *)
(** * Wait queues: the code of the second half of [kernel/thread.c]

    Blocking on a wait queue with an optional timeout, waking one or all of the
    waiters, and pulling one thread off its queue.  All functions but the
    timeout handler run with the thread lock held. *)
From S2P Require Import Prelude KState Timer Thread.

Section wait_queue.
Context `{KConfig}.

Definition WAIT_QUEUE_INITIAL_VALUE : wait_queue_t := WaitQueue WAIT_QUEUE_MAGIC 0 [].
Definition wait_queue_init (wait : wqid) : K unit := kmod (put_wq wait WAIT_QUEUE_INITIAL_VALUE).

(** Wake a specific thread in a wait queue. *)
Definition thread_unblock_from_wait_queue (t : tid) (wait_queue_error : Z) : K Z :=
  th ← get_thread t;
  DEBUG_ASSERT (t_magic th =? THREAD_MAGIC);;
  assert_locked;;
  if negb (bool_decide (t_state th = THREAD_BLOCKED)) then mret ERR_NOT_BLOCKED
  else
    DEBUG_ASSERT (negb (bool_decide (t_blocking_wait_queue th = None)));;
    match t_blocking_wait_queue th with
    | None => kfault BadDeref
    | Some w =>
        wq ← get_wq w;
        DEBUG_ASSERT (wq_magic wq =? WAIT_QUEUE_MAGIC);;
        s ← kget; DEBUG_ASSERT (queue_node_in_list s t);;
        kmod (queue_node_delete t);;
        mod_wq w (fun q => set_wq_count (wq_count q - 1) q);;
        mod_thread t (fun th => set_t_wait_queue_block_ret wait_queue_error
          (set_t_state THREAD_READY (set_t_blocking_wait_queue None th)));;
        insert_in_run_queue_head t;;
        wakeup_cpu_for_thread t;;
        mret NO_ERROR
    end.

(** The timer callback: [spin_lock] and [spin_unlock], interrupts are off. *)
Definition wait_queue_timeout_handler (thread : tid) : K handler_return :=
  th ← get_thread thread;
  DEBUG_ASSERT (t_magic th =? THREAD_MAGIC);;
  s ← kget;
  (if ks_thread_lock s then kfault LockHeld else kmod (set_ks_thread_lock true));;
  r ← thread_unblock_from_wait_queue thread ERR_TIMED_OUT;
  kmod (set_ks_thread_lock false);;
  unlocked_point;;
  mret (if NO_ERROR <=? r then INT_RESCHEDULE else INT_NO_RESCHEDULE).

Definition wait_queue_block (wait : wqid) (timeout : Z) : K Z :=
  current_thread ← get_current_thread;
  let timer := TmStack current_thread in
  q ← get_wq wait; th ← get_thread current_thread;
  DEBUG_ASSERT (wq_magic q =? WAIT_QUEUE_MAGIC);;
  DEBUG_ASSERT (bool_decide (t_state th = THREAD_RUNNING));;
  assert_locked;;
  if timeout =? 0 then mret ERR_TIMED_OUT
  else
    mod_wq wait (fun q => set_wq_count (wq_count q + 1)
                            (set_wq_list (wq_list q ++ [current_thread]) q));;
    mod_thread current_thread (fun th => set_t_wait_queue_block_ret NO_ERROR
      (set_t_blocking_wait_queue (Some wait) (set_t_state THREAD_BLOCKED th)));;
    (* if the timeout is noninfinite, set a callback to yank us out of the queue *)
    kwhen (negb (timeout =? INFINITE_TIME))
      (timer_initialize timer;;
       timer_set_oneshot timer timeout WaitQueueTimeoutHandler current_thread);;
    thread_resched;;
    (* we don't really know if the timer fired or not, so cancel it *)
    kwhen (negb (timeout =? INFINITE_TIME)) (timer_cancel timer);;
    th ← get_thread current_thread;
    mret (t_wait_queue_block_ret th).

(** Put the current thread back in the run queue so that the woken ones run first. *)
Definition requeue_current : K unit :=
  current_thread ← get_current_thread;
  mod_thread current_thread (set_t_state THREAD_READY);;
  insert_in_run_queue_head current_thread.

Definition wait_queue_wake_one (wait : wqid) (reschedule : bool) (wait_queue_error : Z) : K Z :=
  q ← get_wq wait;
  DEBUG_ASSERT (wq_magic q =? WAIT_QUEUE_MAGIC);;
  assert_locked;;
  match wq_list q with
  | [] => mret 0
  | t :: rest =>
      mod_wq wait (fun q => set_wq_count (wq_count q - 1) (set_wq_list rest q));;
      th ← get_thread t;
      DEBUG_ASSERT (bool_decide (t_state th = THREAD_BLOCKED));;
      mod_thread t (fun th => set_t_blocking_wait_queue None
        (set_t_wait_queue_block_ret wait_queue_error (set_t_state THREAD_READY th)));;
      kwhen reschedule requeue_current;;
      insert_in_run_queue_head t;;
      wakeup_cpu_for_thread t;;
      kwhen reschedule thread_resched;;
      mret 1
  end.

(** The loop of [wait_queue_wake_all], popping from the tail. *)
Fixpoint wake_all_loop (fuel : nat) (wait : wqid) (wait_queue_error : Z) (cpu_mask ret : Z)
  : K (Z * Z) :=
  q ← get_wq wait;
  match reverse (wq_list q) with
  | [] => mret (cpu_mask, ret)
  | t :: rest =>
      match fuel with
      | O => kfault OutOfFuel
      | S fuel =>
          mod_wq wait (fun q => set_wq_count (wq_count q - 1) (set_wq_list (reverse rest) q));;
          th ← get_thread t;
          DEBUG_ASSERT (bool_decide (t_state th = THREAD_BLOCKED));;
          mod_thread t (fun th => set_t_blocking_wait_queue None
            (set_t_wait_queue_block_ret wait_queue_error (set_t_state THREAD_READY th)));;
          let cpu_mask := if t_pinned_cpu th <? 0 then MP_CPU_ALL_BUT_LOCAL
                          else Z.lor cpu_mask (u32 (BIT (t_pinned_cpu th))) in
          insert_in_run_queue_head t;;
          wake_all_loop fuel wait wait_queue_error cpu_mask (ret + 1)
      end
  end.

Definition wait_queue_wake_all (wait : wqid) (reschedule : bool) (wait_queue_error : Z) : K Z :=
  q ← get_wq wait;
  DEBUG_ASSERT (wq_magic q =? WAIT_QUEUE_MAGIC);;
  assert_locked;;
  kwhen (reschedule && (0 <? wq_count q)) requeue_current;;
  '(cpu_mask, ret) ← wake_all_loop (length (wq_list q)) wait wait_queue_error 0 0;
  q ← get_wq wait;
  DEBUG_ASSERT (wq_count q =? 0);;
  kwhen (0 <? ret) (
    mp_reschedule cpu_mask 0;;
    kwhen reschedule thread_resched);;
  mret ret.

Definition wait_queue_destroy (wait : wqid) (reschedule : bool) : K unit :=
  q ← get_wq wait;
  DEBUG_ASSERT (wq_magic q =? WAIT_QUEUE_MAGIC);;
  assert_locked;;
  wait_queue_wake_all wait reschedule ERR_OBJECT_DESTROYED;;
  mod_wq wait (set_wq_magic 0).
End wait_queue.
