(* ===== verification/ThreadLife.v ===== *)
(** * Thread life cycle: creation, resume, detach, join, exit and boot ([kernel/thread.c]) *)
From S2P Require Import Prelude KState Timer Thread WaitQueue.

Section life.
Context `{KConfig}.

(** [strlcpy] into the 32 byte name field *)
Definition thread_name (name : string) : string := String.substring 0 31 name.

(** [memset(t, 0, sizeof(thread_t))] *)
Definition zero_thread : thread_t :=
  Thread 0 0 THREAD_SUSPENDED 0 0 0 0 None None 0 0 0 [] 0 0 0 (replicate MAX_TLS_ENTRY 0)
    "" 0 0 0.

Definition init_thread_struct (t : tid) (name : string) : K unit :=
  kmod (put_thread t (set_t_name (thread_name name) (set_t_pinned_cpu (-1)
    (set_t_magic THREAD_MAGIC zero_thread)))).

Definition free_thread (t : tid) : K unit :=
  kmod (fun s => set_ks_threads (delete t (ks_threads s)) s);; emit (EvFree t).

(** Setting up a stack: the stack and its size, the flags to add, or NULL. *)
Definition create_stack (t : tid) (stack stack_size flags : Z) : K (option (Z * Z)) :=
  if stack =? 0 then
    let bounds := 1 <? LK_DEBUGLEVEL in
    let stack_size := if bounds then u64 (stack_size + THREAD_STACK_PADDING_SIZE) else stack_size in
    let flags := if bounds then Z.lor flags THREAD_FLAG_DEBUG_STACK_BOUNDS_CHECK else flags in
    p ← malloc;
    mod_thread t (set_t_stack p);;
    if p =? 0 then
      kwhen (has_flag flags THREAD_FLAG_FREE_STRUCT) (free_thread t);;
      mret None
    else
      kwhen bounds (mod_thread t (set_t_stack_pad
        (replicate (Z.to_nat (THREAD_STACK_PADDING_SIZE / 4)) STACK_DEBUG_WORD)));;
      mret (Some (stack_size, Z.lor flags THREAD_FLAG_FREE_STACK))
  else
    mod_thread t (set_t_stack stack);;
    mret (Some (stack_size, flags)).

Definition thread_create_etc (t : tid) (name : string) (entry arg priority stack stack_size : Z)
  : K tid :=
  '(t, flags) ←
    (if t =? 0 then
       p ← malloc;
       mret (p, THREAD_FLAG_FREE_STRUCT)
     else mret (t, 0));
  if t =? 0 then mret 0
  else
    init_thread_struct t name;;
    mod_thread t (fun th =>
      set_t_wait_queue_block_ret NO_ERROR (set_t_blocking_wait_queue None
        (set_t_state THREAD_SUSPENDED (set_t_priority priority
          (set_t_arg arg (set_t_entry entry th))))));;
    mod_thread t (set_t_curr_cpu (-1));;
    mod_thread t (set_t_retcode 0);;
    wait_queue_init (WqRetcode t);;
    mod_thread t (set_t_aspace None);;
    r ← create_stack t stack stack_size flags;
    match r with
    | None => mret 0
    | Some (stack_size, flags) =>
        mod_thread t (set_t_stack_size stack_size);;
        (* save whether or not we need to free the thread struct and/or stack *)
        mod_thread t (set_t_flags flags);;
        (* inherit thread local storage from the parent, clear errno *)
        current_thread ← get_current_thread;
        curth ← get_thread current_thread;
        mod_thread t (set_t_tls (<[TLS_ENTRY_ERRNO := 0]> (t_tls curth)));;
        emit (EvThreadInitialize t);;
        (* add it to the global thread list *)
        state ← THREAD_LOCK;
        kmod (fun s => set_ks_thread_list (t :: ks_thread_list s) s);;
        THREAD_UNLOCK state;;
        mret t
    end.

Definition thread_create (name : string) (entry arg priority stack_size : Z) : K tid :=
  thread_create_etc 0 name entry arg priority 0 stack_size.

Definition thread_resume (t : tid) : K Z :=
  th ← get_thread t;
  DEBUG_ASSERT (t_magic th =? THREAD_MAGIC);;
  DEBUG_ASSERT (negb (bool_decide (t_state th = THREAD_DEATH)));;
  ints_disabled ← arch_ints_disabled;
  state ← THREAD_LOCK;
  th ← get_thread t;
  resched ←
    (if bool_decide (t_state th = THREAD_SUSPENDED) then
       mod_thread t (set_t_state THREAD_READY);;
       insert_in_run_queue_head t;;
       mret (negb ints_disabled)
     else mret false);
  wakeup_cpu_for_thread t;;
  THREAD_UNLOCK state;;
  kwhen resched thread_yield;;
  mret NO_ERROR.

(** [list_delete(&t->thread_list_node)] *)
Definition thread_list_delete (t : tid) : K unit :=
  kmod (fun s => set_ks_thread_list (remove_elt t (ks_thread_list s)) s).

(** The stack and the structure of a joined thread are freed. *)
Definition join_free (t : tid) (retcode : Z) : K (Z * option Z) :=
  th ← get_thread t;
  kwhen (has_flag (t_flags th) THREAD_FLAG_FREE_STACK && negb (t_stack th =? 0))
    (emit (EvFree (t_stack th)));;
  kwhen (has_flag (t_flags th) THREAD_FLAG_FREE_STRUCT) (free_thread t);;
  mret (NO_ERROR, Some retcode).

(** [thread_join] once the thread is dead. *)
Definition join_reap (t : tid) (state : bool) : K (Z * option Z) :=
  th ← get_thread t; s ← kget;
  DEBUG_ASSERT (t_magic th =? THREAD_MAGIC);;
  DEBUG_ASSERT (bool_decide (t_state th = THREAD_DEATH));;
  DEBUG_ASSERT (bool_decide (t_blocking_wait_queue th = None));;
  DEBUG_ASSERT (negb (queue_node_in_list s t));;
  let retcode := t_retcode th in
  thread_list_delete t;;
  mod_thread t (set_t_magic 0);;
  THREAD_UNLOCK state;;
  join_free t retcode.

(** Returns the status and what is stored through [retcode]. *)
Definition thread_join (t : tid) (timeout : Z) : K (Z * option Z) :=
  th ← get_thread t;
  DEBUG_ASSERT (t_magic th =? THREAD_MAGIC);;
  state ← THREAD_LOCK;
  th ← get_thread t;
  if has_flag (t_flags th) THREAD_FLAG_DETACHED then
    (* the thread is detached, go ahead and exit *)
    THREAD_UNLOCK state;; mret (ERR_THREAD_DETACHED, None)
  else
    (* wait for the thread to die *)
    err ← (if negb (bool_decide (t_state th = THREAD_DEATH))
           then wait_queue_block (WqRetcode t) timeout else mret NO_ERROR);
    if err <? 0 then THREAD_UNLOCK state;; mret (err, None)
    else join_reap t state.

Definition thread_detach (t : tid) : K Z :=
  th ← get_thread t;
  DEBUG_ASSERT (t_magic th =? THREAD_MAGIC);;
  state ← THREAD_LOCK;
  (* if another thread is blocked inside thread_join() on this thread, wake
     them up with a specific return code *)
  wait_queue_wake_all (WqRetcode t) false ERR_THREAD_DETACHED;;
  th ← get_thread t;
  if bool_decide (t_state th = THREAD_DEATH) then
    (* if it's already dead, then just do what join would have and exit *)
    mod_thread t (fun th => set_t_flags (clear_flag (t_flags th) THREAD_FLAG_DETACHED) th);;
    THREAD_UNLOCK state;;
    '(rc, _) ← thread_join t 0;
    mret rc
  else
    mod_thread t (fun th => set_t_flags (Z.lor (t_flags th) THREAD_FLAG_DETACHED) th);;
    THREAD_UNLOCK state;;
    mret NO_ERROR.

Definition thread_detach_and_resume (t : tid) : K Z :=
  err ← thread_detach t;
  if err <? 0 then mret err else thread_resume t.

(** Detached threads clean up behind themselves. *)
Definition exit_detached (t : tid) (th : thread_t) : K unit :=
  thread_list_delete t;;
  mod_thread t (set_t_magic 0);;
  kwhen (has_flag (t_flags th) THREAD_FLAG_FREE_STACK && negb (t_stack th =? 0))
    (emit (EvDelayedFree (t_stack th));;
     mod_thread t (fun th => set_t_flags (clear_flag (t_flags th) THREAD_FLAG_DEBUG_STACK_BOUNDS_CHECK) th));;
  kwhen (has_flag (t_flags th) THREAD_FLAG_FREE_STRUCT) (emit (EvDelayedFree t)).

Definition thread_exit (retcode : Z) : K unit :=
  current_thread ← get_current_thread;
  th ← get_thread current_thread;
  DEBUG_ASSERT (t_magic th =? THREAD_MAGIC);;
  DEBUG_ASSERT (bool_decide (t_state th = THREAD_RUNNING));;
  DEBUG_ASSERT (negb (thread_is_idle th));;
  THREAD_LOCK;;
  (* enter the dead state *)
  mod_thread current_thread (fun th => set_t_retcode retcode (set_t_state THREAD_DEATH th));;
  (if has_flag (t_flags th) THREAD_FLAG_DETACHED then
     (* if we're detached, then do our teardown here *)
     exit_detached current_thread th
   else
     (* signal if anyone is waiting *)
     wait_queue_wake_all (WqRetcode current_thread) false 0;; kdone);;
  thread_resched;;
  panic.

(** ** Boot *)
Definition thread_set_name (name : string) : K unit :=
  current_thread ← get_current_thread;
  mod_thread current_thread (set_t_name (thread_name name)).

Definition thread_init_early : K unit :=
  cpu ← arch_curr_cpu_num; DEBUG_ASSERT (cpu =? 0);;
  kmod (set_ks_run_queue (replicate (Z.to_nat NUM_PRIORITIES) []));;
  kmod (set_ks_thread_list []);;
  (* create a thread to cover the current running state *)
  let t := idle_thread 0 in
  init_thread_struct t "bootstrap";;
  mod_thread t (fun th => set_t_flags THREAD_FLAG_DETACHED (set_t_state THREAD_RUNNING
    (set_t_priority HIGHEST_PRIORITY th)));;
  mod_thread t (set_t_curr_cpu 0);;
  mod_thread t (set_t_pinned_cpu 0);;
  wait_queue_init (WqRetcode t);;
  kmod (fun s => set_ks_thread_list (t :: ks_thread_list s) s);;
  set_current_thread t.

(** [thread_init] initializes the preemption timer of each of [cpus]. *)
Fixpoint thread_init (cpus : list Z) : K unit :=
  match cpus with
  | [] => kdone
  | i :: cpus => timer_initialize (TmPreempt i);; thread_init cpus
  end.

(** [arch_enable_ints] *)
Definition arch_enable_ints : K unit := mod_cpu (set_pc_ints_disabled false).

(** Up to the endless [idle_thread_routine]. *)
Definition thread_become_idle (idle_name : string) : K unit :=
  ints ← arch_ints_disabled; DEBUG_ASSERT ints;;
  t ← get_current_thread;
  thread_set_name idle_name;;
  (* mark ourself as idle *)
  mod_thread t (set_t_priority IDLE_PRIORITY);;
  mod_thread t (fun th => set_t_flags (Z.lor (t_flags th) THREAD_FLAG_IDLE) th);;
  cpu ← arch_curr_cpu_num;
  mod_thread t (set_t_pinned_cpu cpu);;
  mp_set_curr_cpu_active true;;
  mp_set_cpu_idle cpu;;
  (* enable interrupts and start the scheduler *)
  arch_enable_ints;;
  thread_yield.

Definition thread_secondary_cpu_init_early : K unit :=
  ints ← arch_ints_disabled; DEBUG_ASSERT ints;;
  cpu ← arch_curr_cpu_num;
  let t := idle_thread cpu in
  th ← get_thread t;
  DEBUG_ASSERT (bool_decide (t_state th = THREAD_RUNNING) && thread_is_idle th);;
  set_current_thread t.

Definition thread_create_secondary_cpu_idle_thread (cpu : Z) (idle_name : string) : K unit :=
  let t := idle_thread cpu in
  init_thread_struct t idle_name;;
  mod_thread t (fun th => set_t_flags (Z.lor THREAD_FLAG_DETACHED THREAD_FLAG_IDLE)
    (set_t_state THREAD_RUNNING (set_t_priority HIGHEST_PRIORITY th)));;
  mod_thread t (set_t_curr_cpu cpu);;
  mod_thread t (set_t_pinned_cpu cpu);;
  wait_queue_init (WqRetcode t);;
  state ← THREAD_LOCK;
  kmod (fun s => set_ks_thread_list (t :: ks_thread_list s) s);;
  THREAD_UNLOCK state.

Definition thread_secondary_cpu_entry : K unit :=
  cpu ← arch_curr_cpu_num;
  t ← get_current_thread;
  th ← get_thread t;
  DEBUG_ASSERT (bool_decide (t_state th = THREAD_RUNNING) && thread_is_idle th);;
  mod_thread t (set_t_priority IDLE_PRIORITY);;
  mp_set_curr_cpu_active true;;
  mp_set_cpu_idle cpu;;
  arch_enable_ints;;
  thread_yield.

(** [initial_thread_func], where a new thread starts: the lock was handed over
    by the reschedule that switched to it. *)
Definition initial_thread_start : K unit :=
  kmod (set_ks_thread_lock false);;
  arch_enable_ints;;
  unlocked_point.
End life.
