(* ===== verification/Logic.v ===== *)
(** * Reasoning about kernel operations

    [rets m s P] : run from [s], [m] returns without giving up the cpu or the
    lock and without faulting, in a state and with a value satisfying [P].
    [runs m s F] : the outcome of [m] from [s] satisfies [F]. *)
From S2P Require Import Prelude KState Timer Thread.

(** ** Automation *)

(** Reduction of field accesses to updated records, and nothing else. *)
Ltac kcbn := cbn [
  wq_magic wq_count wq_list tm_magic tm_scheduled_time tm_periodic_time tm_callback tm_arg
  t_magic t_priority t_state t_remaining_quantum t_flags t_curr_cpu t_pinned_cpu t_aspace
  t_blocking_wait_queue t_wait_queue_block_ret t_stack t_stack_size t_stack_pad t_entry t_arg
  t_retcode t_tls t_name t_total_run_time t_last_run_timestamp t_schedules st_idle_time
  st_last_idle_timestamp st_reschedules st_context_switches st_preempts st_yields st_interrupts st_timer_ints
  st_timers st_reschedule_ipis pc_current pc_ints_disabled pc_timer_queue pc_stats
  mp_active_cpus mp_idle_cpus mp_realtime_cpus m_magic m_count m_holder e_magic e_signaled
  e_flags sem_magic sem_count pb_log2 pb_avail pb_head pb_tail pb_packet wp_magic wp_buf
  wp_rp_list wp_mode wp_name rp_magic rp_buf rp_ctx rp_wport rp_gport pg_magic pg_rp_list ks_cpu
  ks_percpu ks_threads ks_thread_list ks_run_queue ks_run_queue_bitmap ks_thread_lock
  ks_wait_queues ks_timers ks_mp ks_objs ks_write_port_list ks_now ks_now_hires ks_allocs
  ks_trace set_wq_magic set_wq_count set_wq_list set_tm_magic set_tm_scheduled_time
  set_tm_periodic_time set_tm_callback set_tm_arg set_t_magic set_t_priority set_t_state
  set_t_remaining_quantum set_t_flags set_t_curr_cpu set_t_pinned_cpu set_t_aspace
  set_t_blocking_wait_queue set_t_wait_queue_block_ret set_t_stack set_t_stack_size
  set_t_stack_pad set_t_entry set_t_arg set_t_retcode set_t_tls set_t_name set_t_total_run_time
  set_t_last_run_timestamp set_t_schedules set_st_idle_time set_st_last_idle_timestamp
  set_st_reschedules set_st_context_switches set_st_preempts set_st_yields set_st_interrupts set_st_timer_ints
  set_st_timers set_st_reschedule_ipis set_pc_current set_pc_ints_disabled set_pc_timer_queue
  set_pc_stats set_mp_active_cpus set_mp_idle_cpus set_mp_realtime_cpus set_m_magic set_m_count
  set_m_holder set_e_magic set_e_signaled set_e_flags set_sem_magic set_sem_count set_ks_cpu
  set_ks_percpu set_ks_threads set_ks_thread_list set_ks_run_queue set_ks_run_queue_bitmap
  set_ks_thread_lock set_ks_wait_queues set_ks_timers set_ks_mp set_ks_objs
  set_ks_write_port_list set_ks_now set_ks_now_hires set_ks_allocs set_ks_trace put_thread
  put_cpu set_current_thread put_wq put_timer put_obj put_run_queue queue_node_delete timer_unlink].
Tactic Notation "kcbn" "in" hyp(H) := cbn [
  wq_magic wq_count wq_list tm_magic tm_scheduled_time tm_periodic_time tm_callback tm_arg
  t_magic t_priority t_state t_remaining_quantum t_flags t_curr_cpu t_pinned_cpu t_aspace
  t_blocking_wait_queue t_wait_queue_block_ret t_stack t_stack_size t_stack_pad t_entry t_arg
  t_retcode t_tls t_name t_total_run_time t_last_run_timestamp t_schedules st_idle_time
  st_last_idle_timestamp st_reschedules st_context_switches st_preempts st_yields st_interrupts st_timer_ints
  st_timers st_reschedule_ipis pc_current pc_ints_disabled pc_timer_queue pc_stats
  mp_active_cpus mp_idle_cpus mp_realtime_cpus m_magic m_count m_holder e_magic e_signaled
  e_flags sem_magic sem_count pb_log2 pb_avail pb_head pb_tail pb_packet wp_magic wp_buf
  wp_rp_list wp_mode wp_name rp_magic rp_buf rp_ctx rp_wport rp_gport pg_magic pg_rp_list ks_cpu
  ks_percpu ks_threads ks_thread_list ks_run_queue ks_run_queue_bitmap ks_thread_lock
  ks_wait_queues ks_timers ks_mp ks_objs ks_write_port_list ks_now ks_now_hires ks_allocs
  ks_trace set_wq_magic set_wq_count set_wq_list set_tm_magic set_tm_scheduled_time
  set_tm_periodic_time set_tm_callback set_tm_arg set_t_magic set_t_priority set_t_state
  set_t_remaining_quantum set_t_flags set_t_curr_cpu set_t_pinned_cpu set_t_aspace
  set_t_blocking_wait_queue set_t_wait_queue_block_ret set_t_stack set_t_stack_size
  set_t_stack_pad set_t_entry set_t_arg set_t_retcode set_t_tls set_t_name set_t_total_run_time
  set_t_last_run_timestamp set_t_schedules set_st_idle_time set_st_last_idle_timestamp
  set_st_reschedules set_st_context_switches set_st_preempts set_st_yields set_st_interrupts set_st_timer_ints
  set_st_timers set_st_reschedule_ipis set_pc_current set_pc_ints_disabled set_pc_timer_queue
  set_pc_stats set_mp_active_cpus set_mp_idle_cpus set_mp_realtime_cpus set_m_magic set_m_count
  set_m_holder set_e_magic set_e_signaled set_e_flags set_sem_magic set_sem_count set_ks_cpu
  set_ks_percpu set_ks_threads set_ks_thread_list set_ks_run_queue set_ks_run_queue_bitmap
  set_ks_thread_lock set_ks_wait_queues set_ks_timers set_ks_mp set_ks_objs
  set_ks_write_port_list set_ks_now set_ks_now_hires set_ks_allocs set_ks_trace put_thread
  put_cpu set_current_thread put_wq put_timer put_obj put_run_queue queue_node_delete timer_unlink] in H.

(** Lookups in updated maps. *)
Ltac klookup :=
  kcbn;
  first [ eassumption | rewrite lookup_insert_eq; reflexivity
        | rewrite lookup_insert_ne by (congruence || lia); klookup ].

Create Rewrite HintDb nusa_state.
Lemma set_ks_percpu_twice a b s : set_ks_percpu a (set_ks_percpu b s) = set_ks_percpu a s.
Proof. done. Qed.
Lemma set_ks_threads_twice a b s : set_ks_threads a (set_ks_threads b s) = set_ks_threads a s.
Proof. done. Qed.
Lemma set_ks_trace_twice a b s : set_ks_trace a (set_ks_trace b s) = set_ks_trace a s.
Proof. done. Qed.
Lemma put_wq_twice w a b s : put_wq w a (put_wq w b s) = put_wq w a s.
Proof. unfold put_wq. kcbn. by rewrite insert_insert_eq. Qed.
Lemma put_thread_twice t a b s : put_thread t a (put_thread t b s) = put_thread t a s.
Proof. unfold put_thread. cbn. by rewrite insert_insert_eq. Qed.
Lemma put_cpu_twice a b s : put_cpu a (put_cpu b s) = put_cpu a s.
Proof. unfold put_cpu. kcbn. by rewrite insert_insert_eq. Qed.
Lemma set_pc_stats_twice a b pc : set_pc_stats a (set_pc_stats b pc) = set_pc_stats a pc.
Proof. done. Qed.
#[export] Hint Rewrite set_ks_percpu_twice set_ks_threads_twice set_ks_trace_twice
  set_pc_stats_twice : nusa_state.
(** Two updated states are equal. *)
Ltac kstate_eq :=
  unfold put_cpu, put_thread, put_wq, put_timer; kcbn;
  autorewrite with nusa_state; rewrite ?insert_insert_eq; reflexivity.

(** ** Operations that return *)
Definition rets {A} (m : K A) (s : kstate) (P : A -> kstate -> Prop) : Prop :=
  match m s with Ret a s' => P a s' | _ => False end.

Section rets.
Context {A B : Type}.

Lemma rets_mono (m : K A) s (P Q : A -> kstate -> Prop) :
  rets m s P -> (forall a s', P a s' -> Q a s') -> rets m s Q.
Proof. unfold rets. destruct (m s); naive_solver. Qed.

Lemma rets_bind (m : K A) (f : A -> K B) s P :
  rets m s (fun a s' => rets (f a) s' P) -> rets (m ≫= f) s P.
Proof. unfold rets, mbind, K_bind. destruct (m s); simpl; done. Qed.

Lemma rets_ret (a : A) s (P : A -> kstate -> Prop) : P a s -> rets (mret a) s P.
Proof. done. Qed.

Lemma rets_inv (m : K A) s P : rets m s P -> exists a s', m s = Ret a s' /\ P a s'.
Proof. unfold rets. destruct (m s); naive_solver. Qed.

Lemma rets_eq (m : K A) s a s' (P : A -> kstate -> Prop) :
  m s = Ret a s' -> P a s' -> rets m s P.
Proof. unfold rets. by intros ->. Qed.
End rets.

Lemma rets_kget s (P : kstate -> kstate -> Prop) : P s s -> rets kget s P.
Proof. done. Qed.
Lemma rets_kmod f s (P : unit -> kstate -> Prop) : P tt (f s) -> rets (kmod f) s P.
Proof. done. Qed.
Lemma rets_kdone s (P : unit -> kstate -> Prop) : P tt s -> rets kdone s P.
Proof. done. Qed.
Lemma rets_assert `{KConfig} b s (P : unit -> kstate -> Prop) :
  b = true -> P tt s -> rets (DEBUG_ASSERT b) s P.
Proof. intros -> ?. unfold rets, DEBUG_ASSERT. by rewrite andb_false_r. Qed.
Lemma rets_get_thread t th s P :
  ks_threads s !! t = Some th -> P th s -> rets (get_thread t) s P.
Proof. unfold rets, get_thread. by intros ->. Qed.
Lemma rets_mod_thread t th f s (P : unit -> kstate -> Prop) :
  ks_threads s !! t = Some th -> P tt (put_thread t (f th) s) -> rets (mod_thread t f) s P.
Proof. intros Ht ?. apply rets_bind. eapply rets_get_thread; done. Qed.
Lemma rets_get_cpu pc s P :
  ks_percpu s !! ks_cpu s = Some pc -> P pc s -> rets get_cpu s P.
Proof. unfold rets, get_cpu. by intros ->. Qed.
Lemma rets_mod_cpu pc f s (P : unit -> kstate -> Prop) :
  ks_percpu s !! ks_cpu s = Some pc -> P tt (put_cpu (f pc) s) -> rets (mod_cpu f) s P.
Proof. intros Ht ?. apply rets_bind. eapply rets_get_cpu; done. Qed.
Lemma rets_get_wq w q s P :
  ks_wait_queues s !! w = Some q -> P q s -> rets (get_wq w) s P.
Proof. unfold rets, get_wq. by intros ->. Qed.
Lemma rets_mod_wq w q f s (P : unit -> kstate -> Prop) :
  ks_wait_queues s !! w = Some q -> P tt (put_wq w (f q) s) -> rets (mod_wq w f) s P.
Proof. intros Ht ?. apply rets_bind. eapply rets_get_wq; done. Qed.
Lemma rets_get_timer i tm s P :
  ks_timers s !! i = Some tm -> P tm s -> rets (get_timer i) s P.
Proof. unfold rets, get_timer. by intros ->. Qed.
Lemma rets_mod_timer i tm f s (P : unit -> kstate -> Prop) :
  ks_timers s !! i = Some tm -> P tt (put_timer i (f tm) s) -> rets (mod_timer i f) s P.
Proof. intros Ht ?. apply rets_bind. eapply rets_get_timer; done. Qed.
Lemma rets_get_current pc s P :
  ks_percpu s !! ks_cpu s = Some pc -> P (pc_current pc) s -> rets get_current_thread s P.
Proof. intros. apply rets_bind. eapply rets_get_cpu; done. Qed.
Lemma rets_ints pc s P :
  ks_percpu s !! ks_cpu s = Some pc -> P (pc_ints_disabled pc) s -> rets arch_ints_disabled s P.
Proof. intros. apply rets_bind. eapply rets_get_cpu; done. Qed.
Lemma rets_kwhen b m s P :
  (b = true -> rets m s P) -> (b = false -> P tt s) -> rets (kwhen b m) s P.
Proof. intros. destruct b; simpl; [eauto|]. unfold rets. simpl. eauto. Qed.

#[export] Hint Resolve rets_kget rets_kmod rets_kdone : nusa.

Lemma rets_run {A} (m : K A) s a s1 :
  rets m s (fun a' s' => a' = a /\ s' = s1) -> m s = Ret a s1.
Proof. unfold rets. destruct (m s); naive_solver. Qed.

Lemma rets_current_cpu s P : P (ks_cpu s) s -> rets arch_curr_cpu_num s P.
Proof. done. Qed.
Lemma rets_lock_held s P : P (ks_thread_lock s) s -> rets thread_lock_held s P.
Proof. done. Qed.
Lemma rets_stats_inc `{KConfig} f s pc (P : unit -> kstate -> Prop) :
  ks_percpu s !! ks_cpu s = Some pc ->
  (forall st, P tt (put_cpu (set_pc_stats st pc) s)) -> rets (THREAD_STATS_INC f) s P.
Proof.
  intros Hpc HP. apply rets_kwhen; intros _; [by eapply rets_mod_cpu|].
  specialize (HP (pc_stats pc)). destruct pc, s. unfold put_cpu in HP. cbn in *.
  by rewrite insert_id in HP.
Qed.
Lemma rets_set_current t pc s (P : unit -> kstate -> Prop) :
  ks_percpu s !! ks_cpu s = Some pc -> P tt (put_cpu (set_pc_current t pc) s) ->
  rets (set_current_thread t) s P.
Proof. apply rets_mod_cpu. Qed.

(** [runs m s F]: the outcome of [m] from [s] satisfies [F]. *)
Definition runs {A} (m : K A) (s : kstate) (F : outcome A -> Prop) : Prop := F (m s).

Lemma runs_step {A B} (m : K A) (f : A -> K B) s F :
  rets m s (fun a s' => runs (f a) s' F) -> runs (m ≫= f) s F.
Proof. unfold rets, runs, mbind, K_bind. destruct (m s); simpl; done. Qed.

(** Two parts that return together, then the rest. *)
Lemma rets_then {A B C} (m1 : K A) (m2 : A -> K B) (f : B -> K C) s P :
  rets (m1 ≫= m2) s (fun b s' => rets (f b) s' P) -> rets (m1 ≫= (fun a => m2 a ≫= f)) s P.
Proof.
  unfold rets, mbind, K_bind. destruct (m1 s) as [a s1| | |]; simpl; try done.
  destruct (m2 a s1); simpl; done.
Qed.
Lemma runs_then {A B C} (m1 : K A) (m2 : A -> K B) (f : B -> K C) s F :
  rets (m1 ≫= m2) s (fun b s' => runs (f b) s' F) -> runs (m1 ≫= (fun a => m2 a ≫= f)) s F.
Proof.
  unfold rets, runs, mbind, K_bind. destruct (m1 s) as [a s1| | |]; simpl; try done.
  destruct (m2 a s1); simpl; done.
Qed.

Lemma runs_bind_step {A B C} (m1 : K A) (m2 : A -> K B) (f : B -> K C) s F :
  rets m1 s (fun a s' => runs (m2 a ≫= f) s' F) -> runs ((m1 ≫= m2) ≫= f) s F.
Proof. unfold rets, runs, mbind, K_bind. by destruct (m1 s). Qed.

(** One step of symbolic execution, and as many as possible. *)
Ltac kprim :=
  lazymatch goal with
  | |- rets (_ ≫= _) _ _ => apply rets_bind
  | |- rets (mret _) _ _ => apply rets_ret
  | |- rets kget _ _ => apply rets_kget
  | |- rets (kmod _) _ _ => apply rets_kmod
  | |- rets (emit _) _ _ => apply rets_kmod
  | |- rets kdone _ _ => apply rets_kdone
  | |- rets (kwhen false _) _ _ => apply rets_kdone
  | |- rets (kwhen true _) _ _ => unfold kwhen at 1
  | |- rets (get_thread _) _ _ => eapply rets_get_thread; [klookup|]
  | |- rets (mod_thread _ _) _ _ => eapply rets_mod_thread; [klookup|]
  | |- rets get_cpu _ _ => eapply rets_get_cpu; [klookup|]
  | |- rets (mod_cpu _) _ _ => eapply rets_mod_cpu; [klookup|]
  | |- rets (get_wq _) _ _ => eapply rets_get_wq; [klookup|]
  | |- rets (mod_wq _ _) _ _ => eapply rets_mod_wq; [klookup|]
  | |- rets (get_timer _) _ _ => eapply rets_get_timer; [klookup|]
  | |- rets (mod_timer _ _) _ _ => eapply rets_mod_timer; [klookup|]
  | |- rets get_current_thread _ _ => eapply rets_get_current; [klookup|]
  | |- rets (set_current_thread _) _ _ => eapply rets_set_current; [klookup|]
  | |- rets arch_ints_disabled _ _ => eapply rets_ints; [klookup|]
  | |- rets arch_curr_cpu_num _ _ => apply rets_current_cpu
  | |- rets thread_lock_held _ _ => apply rets_lock_held
  | |- rets (THREAD_STATS_INC _) _ _ => eapply rets_stats_inc; [klookup|intros ?]
  | |- rets (DEBUG_ASSERT _) _ _ =>
      eapply rets_assert; [kcbn; first [reflexivity | eassumption | by apply Z.eqb_eq
                                       | by apply bool_decide_true
                                       | by apply negb_true_iff, bool_decide_false
                                       | by apply negb_true_iff]|]
  end.
Ltac kstep :=
  lazymatch goal with
  | |- runs (_ ≫= _) _ _ => apply runs_step; kprim
  | |- _ => kprim
  end.
Ltac ksteps := repeat (kstep; cbv beta; kcbn).
