(* ===== verification/SchedInv.v ===== *)
(** * The scheduler invariant

    [swf X H s] relates the run queues, the bitmap, the wait queues, the thread
    states and the current thread of each cpu.  [X] is the set of threads in
    transit: taken off one queue and not yet on the next.  [H] is the cpu whose
    current thread is giving it up, if any.  Between operations both are empty.

    The lemmas of this file say how each elementary update moves a thread from
    one place to the next; the operations of thread.c are sequences of them. *)
From S2P Require Import Prelude KState Timer Thread WaitQueue ThreadLife Logic.

Definition currents (s : kstate) : gmap Z tid := pc_current <$> ks_percpu s.

(** The stack guard of a thread checked by [resched_stack_check] is intact. *)
Definition pad_ok (th : thread_t) : Prop :=
  forallb (fun w => w =? STACK_DEBUG_WORD) (t_stack_pad th) = true.

Definition alive_ok (th : thread_t) : Prop :=
  t_state th <> THREAD_DEATH -> t_magic th = THREAD_MAGIC /\ 0 <= t_priority th < NUM_PRIORITIES.

Record sched_wf (X : gset tid) (H : option Z) (ths : gmap tid thread_t)
    (rq : list (list tid)) (bm : Z) (wqs : gmap wqid wait_queue_t) (cur : gmap Z tid) : Prop := {
  sw_rq_len : length rq = 32%nat;
  sw_bm_nonneg : 0 <= bm;
  sw_bm : forall (i : nat) q, rq !! i = Some q -> Z.testbit bm (Z.of_nat i) = bool_decide (q <> []);
  sw_bm_high : forall i, 32 <= i -> Z.testbit bm i = false;
  sw_rq_nodup : forall (i : nat) q, rq !! i = Some q -> NoDup q;
  sw_rq : forall (i : nat) q t, rq !! i = Some q -> t ∈ q ->
    t ∉ X /\ exists th, ths !! t = Some th /\ t_state th = THREAD_READY /\
                        t_priority th = Z.of_nat i /\ thread_is_idle th = false;
  sw_wq_count : forall w q, wqs !! w = Some q ->
    NoDup (wq_list q) /\ wq_count q = Z.of_nat (length (wq_list q)) /\
    (wq_list q <> [] -> wq_magic q = WAIT_QUEUE_MAGIC);
  sw_wq : forall w q t, wqs !! w = Some q -> t ∈ wq_list q ->
    t ∉ X /\ exists th, ths !! t = Some th /\ t_state th = THREAD_BLOCKED /\
                        t_blocking_wait_queue th = Some w /\ thread_is_idle th = false;
  sw_alive : forall t th, ths !! t = Some th -> alive_ok th /\ pad_ok th;
  sw_ready : forall t th, ths !! t = Some th -> t ∉ X -> t_state th = THREAD_READY ->
    thread_is_idle th = false ->
    exists q, rq !! Z.to_nat (t_priority th) = Some q /\ t ∈ q;
  sw_blocked : forall t th, ths !! t = Some th -> t ∉ X -> t_state th = THREAD_BLOCKED ->
    exists w q, t_blocking_wait_queue th = Some w /\ wqs !! w = Some q /\ t ∈ wq_list q;
  sw_running : forall t th, ths !! t = Some th -> t ∉ X -> t_state th = THREAD_RUNNING ->
    cur !! t_curr_cpu th = Some t /\ Some (t_curr_cpu th) <> H;
  sw_cur : forall c t, cur !! c = Some t -> Some c <> H ->
    t ∉ X /\ exists th, ths !! t = Some th /\ t_state th = THREAD_RUNNING /\ t_curr_cpu th = c;
  sw_hole : forall c, H = Some c -> exists t th,
    cur !! c = Some t /\ ths !! t = Some th /\ t_curr_cpu th = c;
  sw_idle : forall c, is_Some (cur !! c) -> exists th,
    ths !! idle_thread c = Some th /\ thread_is_idle th = true /\ t_pinned_cpu th = c /\
    (t_state th = THREAD_READY \/ t_state th = THREAD_RUNNING);
  sw_idle_home : forall c c', cur !! c = Some (idle_thread c') -> is_Some (cur !! c') -> c = c';
  sw_idle_only : forall t th, ths !! t = Some th -> thread_is_idle th = true ->
    exists c, t = idle_thread c /\ is_Some (cur !! c);
  sw_cpus : forall c, is_Some (cur !! c) -> 0 <= c;
}.

Definition swf (X : gset tid) (H : option Z) (s : kstate) : Prop :=
  sched_wf X H (ks_threads s) (ks_run_queue s) (ks_run_queue_bitmap s) (ks_wait_queues s)
    (currents s).

Lemma idle_thread_inj c c' : idle_thread c = idle_thread c' -> c = c'.
Proof. unfold idle_thread. lia. Qed.

Section moves.
Context {X : gset tid} {H : option Z} {ths : gmap tid thread_t} {rq : list (list tid)} {bm : Z}
  {wqs : gmap wqid wait_queue_t} {cur : gmap Z tid}.

Definition off_queues (t : tid) (rq : list (list tid)) (wqs : gmap wqid wait_queue_t) : Prop :=
  (forall (i : nat) q, rq !! i = Some q -> t ∉ q) /\
  (forall w q, wqs !! w = Some q -> t ∉ wq_list q).

Lemma sched_in_transit t : sched_wf X H ths rq bm wqs cur -> t ∈ X -> off_queues t rq wqs.
Proof.
  intros W HX. split.
  - intros i q Hq Ht. by destruct (sw_rq _ _ _ _ _ _ _ W i q t Hq Ht) as [? _].
  - intros w q Hq Ht. by destruct (sw_wq _ _ _ _ _ _ _ W w q t Hq Ht) as [? _].
Qed.

(** What a thread in transit may be turned into. *)
Definition transit_ok (th th' : thread_t) : Prop :=
  alive_ok th' /\ pad_ok th' /\ thread_is_idle th' = thread_is_idle th /\
  t_curr_cpu th' = t_curr_cpu th /\ t_pinned_cpu th' = t_pinned_cpu th /\
  (thread_is_idle th = true -> t_state th' = THREAD_READY \/ t_state th' = THREAD_RUNNING).

Lemma sched_put_transit t th th' :
  sched_wf X H ths rq bm wqs cur -> t ∈ X -> ths !! t = Some th -> transit_ok th th' ->
  sched_wf X H (<[t := th']> ths) rq bm wqs cur.
Proof.
  intros W HX Ht (Ha & Hp & Hi & Hc & Hpin & Hid). destruct W. split; try done.
  - intros i q u Hq Hu. destruct (sw_rq0 i q u Hq Hu) as [? ?]. split; [done|].
    by rewrite lookup_insert_ne by (by intros ->).
  - intros w q u Hq Hu. destruct (sw_wq0 w q u Hq Hu) as [? ?]. split; [done|].
    by rewrite lookup_insert_ne by (by intros ->).
  - intros u thu [[<- <-]|[? ?]]%lookup_insert_Some; eauto.
  - intros u thu [[<- <-]|[? ?]]%lookup_insert_Some Hu; [done|eauto].
  - intros u thu [[<- <-]|[? ?]]%lookup_insert_Some Hu; [done|eauto].
  - intros u thu [[<- <-]|[? ?]]%lookup_insert_Some Hu; [done|eauto].
  - intros c u Hc' HH. destruct (sw_cur0 c u Hc' HH) as [? ?]. split; [done|].
    by rewrite lookup_insert_ne by (by intros ->).
  - intros c ->. destruct (sw_hole0 c eq_refl) as (u & thu & ? & ? & ?).
    destruct (decide (u = t)) as [->|]; [exists t, th'|exists u, thu]; simplify_map_eq; done.
  - intros c Hc'. destruct (sw_idle0 c Hc') as (thc & ? & ? & ? & ?).
    destruct (decide (idle_thread c = t)) as [<-|]; [exists th'|exists thc];
      simplify_map_eq; split_and!; auto; congruence.
  - intros u thu [[<- <-]|[? ?]]%lookup_insert_Some Hidle; [|eauto].
    rewrite Hi in Hidle. eauto.
Qed.

(** A thread leaves the place it is in: it is on no queue and is not the
    current thread of a cpu that goes on running it. *)
Lemma sched_take t :
  sched_wf X H ths rq bm wqs cur -> off_queues t rq wqs ->
  (forall c, cur !! c = Some t -> Some c = H) ->
  sched_wf ({[t]} ∪ X) H ths rq bm wqs cur.
Proof.
  intros W [Hr Hw] Hc. destruct W. split; try done.
  - intros i q u Hq Hu. destruct (sw_rq0 i q u Hq Hu) as [? ?]. split; [|done].
    intros [->%elem_of_singleton|?]%elem_of_union; [by apply (Hr i q)|done].
  - intros w q u Hq Hu. destruct (sw_wq0 w q u Hq Hu) as [? ?]. split; [|done].
    intros [->%elem_of_singleton|?]%elem_of_union; [by apply (Hw w q)|done].
  - intros u thu ? ?. apply sw_ready0; [done|set_solver].
  - intros u thu ? ?. apply sw_blocked0; [done|set_solver].
  - intros u thu ? ?. apply sw_running0; [done|set_solver].
  - intros c u Hc' HH. destruct (sw_cur0 c u Hc' HH) as [? ?]. split; [|done].
    intros [->%elem_of_singleton|?]%elem_of_union; [by apply HH, Hc|done].
Qed.

Lemma sched_running_off t th :
  sched_wf X H ths rq bm wqs cur -> ths !! t = Some th -> t_state th = THREAD_RUNNING ->
  off_queues t rq wqs.
Proof.
  intros W Ht Hs. split.
  - intros i q Hq Hin. destruct (sw_rq _ _ _ _ _ _ _ W i q t Hq Hin) as (_ & th' & ? & ? & _).
    simplify_eq. congruence.
  - intros w q Hq Hin. destruct (sw_wq _ _ _ _ _ _ _ W w q t Hq Hin) as (_ & th' & ? & ? & _).
    simplify_eq. congruence.
Qed.

End moves.

Section moves2.
Context {X : gset tid} {H : option Z} {ths : gmap tid thread_t} {rq : list (list tid)} {bm : Z}
  {wqs : gmap wqid wait_queue_t} {cur : gmap Z tid}.

(** The current thread of a cpu starts giving it up. *)
Lemma sched_give_up c t :
  sched_wf X None ths rq bm wqs cur -> cur !! c = Some t ->
  sched_wf ({[t]} ∪ X) (Some c) ths rq bm wqs cur.
Proof.
  intros W Hc. destruct (sw_cur _ _ _ _ _ _ _ W c t Hc) as (HtX & th & Ht & Hs & Hcc); [done|].
  destruct (sched_running_off t th W Ht Hs) as [Hr Hw].
  pose proof W as W'. destruct W. split; try done.
  - intros i q u Hq Hu. destruct (sw_rq0 i q u Hq Hu) as [? ?]. split; [|done].
    intros [->%elem_of_singleton|?]%elem_of_union; [by apply (Hr i q)|done].
  - intros w q u Hq Hu. destruct (sw_wq0 w q u Hq Hu) as [? ?]. split; [|done].
    intros [->%elem_of_singleton|?]%elem_of_union; [by apply (Hw w q)|done].
  - intros u thu ? ?. apply sw_ready0; [done|set_solver].
  - intros u thu ? ?. apply sw_blocked0; [done|set_solver].
  - intros u thu Hu HuX Hrun. destruct (sw_running0 u thu) as [? _]; [done|set_solver|done|].
    split; [done|]. intros [= E]. rewrite E in *. simplify_eq. set_solver.
  - intros c' u Hc' HH. destruct (sw_cur0 c' u Hc') as (? & thu & ? & ? & ?); [done|].
    split; [|eauto]. intros [->%elem_of_singleton|?]%elem_of_union; [|done].
    simplify_eq.
  - intros c' [= <-]. eauto.
Qed.

(** A thread in transit goes on a run queue. *)
Lemma sched_enqueue t th q q' :
  sched_wf ({[t]} ∪ X) H ths rq bm wqs cur -> t ∉ X ->
  ths !! t = Some th -> t_state th = THREAD_READY -> thread_is_idle th = false ->
  rq !! Z.to_nat (t_priority th) = Some q -> q' ≡ₚ t :: q ->
  sched_wf X H ths (<[Z.to_nat (t_priority th) := q']> rq) (Z.lor bm (BIT (t_priority th))) wqs cur.
Proof.
  intros W HtX Ht Hs Hi Hq Hq'.
  destruct (sw_alive _ _ _ _ _ _ _ W t th Ht) as [Ha _].
  destruct Ha as [_ Hp]; [congruence|]. unfold NUM_PRIORITIES in Hp.
  destruct (sched_in_transit t W) as [Hoff _]; [set_solver|].
  pose proof W as W'. destruct W. split; try done.
  - by rewrite length_insert.
  - apply Z.lor_nonneg. split; [done|]. pose proof (BIT_pos (t_priority th)). lia.
  - intros i q0 Hi0. autorewrite with nusa_bits. destruct (decide (i = Z.to_nat (t_priority th))) as [->|Hne].
    + rewrite list_lookup_insert_eq in Hi0 by (apply lookup_lt_Some in Hq; lia).
      simplify_eq. rewrite (bool_decide_true (t_priority th = _)) by lia.
      rewrite orb_true_r. symmetry. apply bool_decide_true.
      intros ->. by apply Permutation_nil_cons in Hq'.
    + rewrite list_lookup_insert_ne in Hi0 by done. rewrite (sw_bm0 i q0 Hi0).
      rewrite (bool_decide_false (t_priority th = _)) by lia. by rewrite orb_false_r.
  - intros i Hi32. autorewrite with nusa_bits. rewrite sw_bm_high0 by done. simpl.
    apply bool_decide_false. lia.
  - intros i q0 [(<- & <- & _)|[_ ?]]%list_lookup_insert_Some; [|eauto].
    rewrite Hq', NoDup_cons. split; [by apply (Hoff _ _ Hq)|eauto].
  - intros i q0 u [(<- & <- & _)|[_ ?]]%list_lookup_insert_Some Hu.
    + rewrite Hq' in Hu. apply elem_of_cons in Hu as [->|Hu].
      * split; [done|]. exists th. split_and!; try done. lia.
      * destruct (sw_rq0 _ q u Hq Hu) as [? ?]. split; [set_solver|done].
    + destruct (sw_rq0 i q0 u) as [? ?]; [done..|]. split; [set_solver|done].
  - intros w q0 u Hw Hu. destruct (sw_wq0 w q0 u Hw Hu). split; [set_solver|done].
  - intros u thu Hu HuX Hready Hidle. destruct (decide (u = t)) as [->|].
    + simplify_eq. exists q'. rewrite list_lookup_insert_eq by (apply lookup_lt_Some in Hq; lia).
      split; [done|]. rewrite Hq'. set_solver.
    + destruct (sw_ready0 u thu) as (q0 & Hq0 & ?); [done|set_solver|done..|].
      destruct (decide (Z.to_nat (t_priority thu) = Z.to_nat (t_priority th))) as [E|].
      * rewrite E in *. simplify_eq. exists q'.
        rewrite list_lookup_insert_eq by (apply lookup_lt_Some in Hq; lia).
        split; [done|]. rewrite Hq'. set_solver.
      * exists q0. by rewrite list_lookup_insert_ne by done.
  - intros u thu Hu HuX Hb. apply sw_blocked0; [done| |done].
    intros [->%elem_of_singleton|?]%elem_of_union; [simplify_eq; congruence|done].
  - intros u thu Hu HuX Hb. apply sw_running0; [done| |done].
    intros [->%elem_of_singleton|?]%elem_of_union; [simplify_eq; congruence|done].
  - intros c u Hc HH. destruct (sw_cur0 c u Hc HH). split; [set_solver|done].
Qed.

(** A thread in transit comes to rest off all queues. *)
Definition resting (th : thread_t) : Prop :=
  t_state th = THREAD_SUSPENDED \/ t_state th = THREAD_SLEEPING \/ t_state th = THREAD_DEATH \/
  t_state th = THREAD_READY /\ thread_is_idle th = true.

Lemma sched_rest t th :
  sched_wf ({[t]} ∪ X) H ths rq bm wqs cur -> ths !! t = Some th -> resting th ->
  sched_wf X H ths rq bm wqs cur.
Proof.
  intros W Ht Hs. destruct W.
  assert (forall u thu, ths !! u = Some thu -> u ∉ X -> (u ∉ {[t]} ∪ X) \/ thu = th) as Hcase.
  { intros u thu ??. destruct (decide (u = t)); [right; congruence|left; set_solver]. }
  unfold resting in Hs. split; try done.
  - intros i q u Hq Hu. destruct (sw_rq0 i q u Hq Hu). split; [set_solver|done].
  - intros w q u Hq Hu. destruct (sw_wq0 w q u Hq Hu). split; [set_solver|done].
  - intros u thu Hu HuX ??. destruct (Hcase u thu Hu HuX) as [?| ->]; [eauto|].
    naive_solver congruence.
  - intros u thu Hu HuX ?. destruct (Hcase u thu Hu HuX) as [?| ->]; [eauto|].
    naive_solver congruence.
  - intros u thu Hu HuX ?. destruct (Hcase u thu Hu HuX) as [?| ->]; [eauto|].
    naive_solver congruence.
  - intros c u Hc HH. destruct (sw_cur0 c u Hc HH). split; [set_solver|done].
Qed.

Lemma notin_transit_r (u t : tid) : u ∉ {[t]} ∪ X -> u ∉ X.
Proof. set_solver. Qed.
Lemma notin_transit (u t : tid) : u ∉ X -> u <> t -> u ∉ {[t]} ∪ X.
Proof. set_solver. Qed.

(** A thread in transit joins the end of a wait queue. *)
Lemma sched_wq_add t th w q :
  sched_wf ({[t]} ∪ X) H ths rq bm wqs cur -> t ∉ X ->
  ths !! t = Some th -> t_state th = THREAD_BLOCKED -> t_blocking_wait_queue th = Some w ->
  thread_is_idle th = false -> wqs !! w = Some q -> wq_magic q = WAIT_QUEUE_MAGIC ->
  sched_wf X H ths rq bm
    (<[w := set_wq_count (wq_count q + 1) (set_wq_list (wq_list q ++ [t]) q)]> wqs) cur.
Proof.
  intros W HtX Ht Hs Hb Hi Hw Hm.
  destruct (sched_in_transit t W) as [_ Hoff]; [set_solver|].
  assert (forall u thu, ths !! u = Some thu -> u ∉ X -> (u ∉ {[t]} ∪ X) \/ u = t /\ thu = th) as Hcase.
  { intros u thu ??. destruct (decide (u = t)) as [->|]; [right; naive_solver|left; set_solver]. }
  destruct W. split; try done.
  - intros i q0 u Hq Hu. destruct (sw_rq0 i q0 u Hq Hu). eauto using notin_transit_r.
  - intros w0 q0 [[<- <-]|[??]]%lookup_insert_Some; [|eauto]. simpl.
    destruct (sw_wq_count0 w q Hw) as (Hnd & -> & _). split_and!; [|rewrite length_app; simpl; lia|done].
    apply NoDup_app. split_and!; [done| |apply NoDup_singleton].
    intros x Hx ->%list_elem_of_singleton. by apply (Hoff w q).
  - intros w0 q0 u [[<- <-]|[??]]%lookup_insert_Some; simpl.
    + intros [Hu| ->%list_elem_of_singleton]%elem_of_app; [|eauto 10].
      destruct (sw_wq0 w q u Hw Hu). eauto using notin_transit_r.
    + intros Hu. destruct (sw_wq0 w0 q0 u) as [??]; [done..|]. eauto using notin_transit_r.
  - intros u thu Hu HuX ??. destruct (Hcase u thu Hu HuX) as [?|[-> ->]]; [eauto|congruence].
  - intros u thu Hu HuX ?. destruct (Hcase u thu Hu HuX) as [?|[-> ->]].
    + destruct (sw_blocked0 u thu) as (w0 & q0 & ? & Hw0 & ?); [done..|].
      destruct (decide (w0 = w)) as [->|]; [|exists w0, q0; by rewrite lookup_insert_ne].
      simplify_eq. eexists w, _. rewrite lookup_insert_eq. split_and!; [done..|].
      simpl. apply elem_of_app. by left.
    + eexists w, _. rewrite lookup_insert_eq. split_and!; [done..|]. simpl.
      apply elem_of_app. right. by apply list_elem_of_singleton.
  - intros u thu Hu HuX ?. destruct (Hcase u thu Hu HuX) as [?|[-> ->]]; [eauto|congruence].
  - intros c u Hc HH. destruct (sw_cur0 c u Hc HH). eauto using notin_transit_r.
Qed.

(** A waiter is taken off its wait queue. *)
Lemma sched_wq_del t w q q' :
  sched_wf X H ths rq bm wqs cur -> wqs !! w = Some q -> wq_list q ≡ₚ t :: wq_list q' ->
  wq_count q' = wq_count q - 1 -> wq_magic q' = wq_magic q ->
  sched_wf ({[t]} ∪ X) H ths rq bm (<[w := q']> wqs) cur.
Proof.
  intros W Hw Hl Hc Hm.
  destruct (sw_wq_count _ _ _ _ _ _ _ W w q Hw) as (Hnd & Hcnt & Hmag).
  assert (t ∈ wq_list q) as Hin by (rewrite Hl; set_solver).
  destruct (sw_wq _ _ _ _ _ _ _ W w q t Hw Hin) as (HtX & th & Ht & Hs & Hb & Hi).
  rewrite Hl in Hnd. apply NoDup_cons in Hnd as [Hnin Hnd].
  destruct W. split; try done.
  - intros i q0 u Hq Hu. destruct (sw_rq0 i q0 u Hq Hu) as (? & thu & ? & ? & ?).
    split; [|eauto]. apply notin_transit; [done|]. intros ->. simplify_eq. congruence.
  - intros w0 q0 [[<- <-]|[??]]%lookup_insert_Some; [|eauto].
    split_and!; [done|rewrite Hc, Hcnt, Hl; simpl; lia|].
    intros _. rewrite Hm. apply Hmag. intros E. rewrite E in Hin. by apply not_elem_of_nil in Hin.
  - intros w0 q0 u [[<- <-]|[??]]%lookup_insert_Some Hu.
    + destruct (sw_wq0 w q u Hw) as [??]; [rewrite Hl; set_solver|].
      split; [|done]. apply notin_transit; [done|]. by intros ->.
    + destruct (sw_wq0 w0 q0 u) as (? & thu & ? & ? & ? & ?); [done..|]. split; [|eauto 10].
      apply notin_transit; [done|]. intros ->. simplify_eq.
  - intros u thu Hu HuX. eauto using notin_transit_r.
  - intros u thu Hu HuX ?. destruct (sw_blocked0 u thu) as (w0 & q0 & ? & Hw0 & Hin0);
      [eauto using notin_transit_r..|].
    destruct (decide (w0 = w)) as [->|]; [|exists w0, q0; by rewrite lookup_insert_ne].
    simplify_eq. exists w, q'. rewrite lookup_insert_eq. split_and!; [done..|].
    rewrite Hl in Hin0. apply elem_of_cons in Hin0 as [->|]; [set_solver|done].
  - intros u thu Hu HuX ?. eauto using notin_transit_r.
  - intros c u Hcu HH. destruct (sw_cur0 c u Hcu HH) as (? & thu & ? & ? & ?).
    split; [|eauto]. apply notin_transit; [done|]. intros ->. simplify_eq. congruence.
Qed.

(** Updates of a thread that the invariant does not look at. *)
Definition sched_same (th th' : thread_t) : Prop :=
  t_magic th' = t_magic th /\ t_priority th' = t_priority th /\ t_state th' = t_state th /\
  thread_is_idle th' = thread_is_idle th /\ t_curr_cpu th' = t_curr_cpu th /\
  t_pinned_cpu th' = t_pinned_cpu th /\ t_blocking_wait_queue th' = t_blocking_wait_queue th /\
  t_stack_pad th' = t_stack_pad th.

Lemma sched_put_same t th th' :
  sched_wf X H ths rq bm wqs cur -> ths !! t = Some th -> sched_same th th' ->
  sched_wf X H (<[t := th']> ths) rq bm wqs cur.
Proof.
  intros W Ht (Em & Ep & Es & Ei & Ec & En & Eb & Ea).
  assert (forall u thu, <[t := th']> ths !! u = Some thu -> exists thu0, ths !! u = Some thu0 /\
    t_magic thu = t_magic thu0 /\ t_priority thu = t_priority thu0 /\
    t_state thu = t_state thu0 /\ thread_is_idle thu = thread_is_idle thu0 /\
    t_curr_cpu thu = t_curr_cpu thu0 /\ t_pinned_cpu thu = t_pinned_cpu thu0 /\
    t_blocking_wait_queue thu = t_blocking_wait_queue thu0 /\
    t_stack_pad thu = t_stack_pad thu0) as Hback.
  { intros u thu [[<- <-]|[??]]%lookup_insert_Some; eauto 20. }
  assert (forall u thu0, ths !! u = Some thu0 -> exists thu, <[t := th']> ths !! u = Some thu /\
    t_priority thu = t_priority thu0 /\
    t_state thu = t_state thu0 /\ thread_is_idle thu = thread_is_idle thu0 /\
    t_curr_cpu thu = t_curr_cpu thu0 /\ t_pinned_cpu thu = t_pinned_cpu thu0 /\
    t_blocking_wait_queue thu = t_blocking_wait_queue thu0) as Hfwd.
  { intros u thu0 ?. destruct (decide (u = t)) as [->|]; [exists th'|exists thu0];
      simplify_map_eq; auto 10. }
  clear Em Ep Es Ei Ec En Eb Ea Ht. destruct W. split; try done.
  - intros i q u Hq Hu. destruct (sw_rq0 i q u Hq Hu) as (? & thu0 & Hu0 & ? & ? & ?).
    split; [done|]. destruct (Hfwd u thu0 Hu0) as (thu & ? & E1 & E2 & E3 & _).
    exists thu. rewrite E1, E2, E3. done.
  - intros w q u Hq Hu. destruct (sw_wq0 w q u Hq Hu) as (? & thu0 & Hu0 & ? & ? & ?).
    split; [done|]. destruct (Hfwd u thu0 Hu0) as (thu & ? & _ & E1 & E2 & _ & _ & E3).
    exists thu. rewrite E1, E2, E3. done.
  - intros u thu (thu0 & Hu0 & Em & Ep & Es & _ & _ & _ & _ & Ea)%Hback.
    destruct (sw_alive0 u thu0 Hu0) as [Ha Hp]. unfold alive_ok, pad_ok.
    rewrite Em, Ep, Es, Ea. done.
  - intros u thu (thu0 & Hu0 & _ & -> & -> & -> & _)%Hback. eauto.
  - intros u thu (thu0 & Hu0 & _ & _ & -> & _ & _ & _ & -> & _)%Hback. eauto.
  - intros u thu (thu0 & Hu0 & _ & _ & -> & _ & -> & _)%Hback. eauto.
  - intros c u Hc HH. destruct (sw_cur0 c u Hc HH) as (? & thu0 & Hu0 & ? & ?).
    split; [done|]. destruct (Hfwd u thu0 Hu0) as (thu & ? & _ & E1 & _ & E2 & _).
    exists thu. rewrite E1, E2. done.
  - intros c Hc. destruct (sw_hole0 c Hc) as (u & thu0 & ? & Hu0 & ?).
    destruct (Hfwd u thu0 Hu0) as (thu & ? & _ & _ & _ & E & _). exists u, thu.
    rewrite E. done.
  - intros c Hc. destruct (sw_idle0 c Hc) as (thu0 & Hu0 & ? & ? & ?).
    destruct (Hfwd _ thu0 Hu0) as (thu & ? & _ & Es & Ei & _ & En & _). exists thu.
    rewrite Es, Ei, En. done.
  - intros u thu (thu0 & Hu0 & _ & _ & _ & -> & _)%Hback. eauto.
Qed.

(** A thread is picked from a run queue. *)
Lemma sched_rq_del t (i : nat) q q' :
  sched_wf X H ths rq bm wqs cur -> rq !! i = Some q -> q ≡ₚ t :: q' ->
  sched_wf ({[t]} ∪ X) H ths (<[i := q']> rq)
    (if bool_decide (q' = []) then clear_flag bm (BIT (Z.of_nat i)) else bm) wqs cur.
Proof.
  intros W Hq Hl.
  assert (t ∈ q) as Hin by (rewrite Hl; set_solver).
  destruct (sw_rq _ _ _ _ _ _ _ W i q t Hq Hin) as (HtX & th & Ht & Hs & Hp & Hi).
  pose proof (sw_rq_nodup _ _ _ _ _ _ _ W i q Hq) as Hnd.
  rewrite Hl in Hnd. apply NoDup_cons in Hnd as [Hnin Hnd].
  pose proof (lookup_lt_Some _ _ _ Hq) as Hlt.
  destruct W. split; try done.
  - by rewrite length_insert.
  - case_bool_decide; [|done]. unfold clear_flag. by apply Z.ldiff_nonneg; left.
  - intros j q0 Hj. pose proof (sw_bm0 i q Hq) as Hbi. rewrite bool_decide_true in Hbi.
    2: { intros ->. by apply Permutation_nil_cons in Hl. }
    destruct (decide (j = i)) as [->|].
    + rewrite list_lookup_insert_eq in Hj by done. simplify_eq.
      case_bool_decide; autorewrite with nusa_bits.
      * rewrite (bool_decide_true (Z.of_nat i = _)) by done. rewrite andb_false_r.
        symmetry. by apply bool_decide_false; intros ?.
      * rewrite Hbi. symmetry. by apply bool_decide_true.
    + rewrite list_lookup_insert_ne in Hj by done. rewrite <- (sw_bm0 j q0 Hj).
      case_bool_decide; [|done]. autorewrite with nusa_bits.
      rewrite (bool_decide_false (Z.of_nat i = _)) by lia. by rewrite andb_true_r.
  - intros j Hj. case_bool_decide; [|eauto]. autorewrite with nusa_bits. by rewrite sw_bm_high0.
  - intros j q0 [(<- & <- & _)|[_ ?]]%list_lookup_insert_Some; [done|eauto].
  - intros j q0 u [(<- & <- & _)|[? Hj]]%list_lookup_insert_Some Hu.
    + destruct (sw_rq0 i q u Hq) as [??]; [rewrite Hl; set_solver|].
      split; [|done]. apply notin_transit; [done|]. by intros ->.
    + destruct (sw_rq0 j q0 u Hj Hu) as (? & thu & ? & ? & ? & ?). split; [|eauto 10].
      apply notin_transit; [done|]. intros ->. simplify_eq. lia.
  - intros w q0 u Hw Hu. destruct (sw_wq0 w q0 u Hw Hu) as (? & thu & ? & ? & ?).
    split; [|eauto]. apply notin_transit; [done|]. intros ->. simplify_eq. congruence.
  - intros u thu Hu HuX ??. destruct (sw_ready0 u thu) as (q0 & Hq0 & Hin0);
      [eauto using notin_transit_r..|].
    destruct (decide (Z.to_nat (t_priority thu) = i)) as [E|].
    + rewrite E in *. simplify_eq. exists q'. rewrite list_lookup_insert_eq by done.
      split; [done|]. rewrite Hl in Hin0. apply elem_of_cons in Hin0 as [->|]; [set_solver|done].
    + exists q0. by rewrite list_lookup_insert_ne by done.
  - intros u thu Hu HuX ?. eauto using notin_transit_r.
  - intros u thu Hu HuX ?. eauto using notin_transit_r.
  - intros c u Hcu HH. destruct (sw_cur0 c u Hcu HH) as (? & thu & ? & ? & ?).
    split; [|eauto]. apply notin_transit; [done|]. intros ->. simplify_eq. congruence.
Qed.

Lemma remove_elt_rq t (i : nat) q :
  sched_wf X H ths rq bm wqs cur -> rq !! i = Some q -> t ∈ q ->
  remove_elt t <$> rq = <[i := remove_elt t q]> rq /\
  (fun w => set_wq_list (remove_elt t (wq_list w)) w) <$> wqs = wqs.
Proof.
  intros W Hq Hin. destruct (sw_rq _ _ _ _ _ _ _ W i q t Hq Hin) as (_ & th & Ht & Hs & Hp & _).
  split.
  - apply list_eq. intros j. rewrite list_lookup_fmap.
    destruct (decide (j = i)) as [->|].
    + rewrite list_lookup_insert_eq by (by eapply lookup_lt_Some). by rewrite Hq.
    + rewrite list_lookup_insert_ne by done. destruct (rq !! j) as [q0|] eqn:Ej; [|done]. simpl.
      f_equal. apply remove_elt_notin. intros Hin0.
      destruct (sw_rq _ _ _ _ _ _ _ W j q0 t Ej Hin0) as (_ & th' & ? & _ & ? & _).
      simplify_eq. lia.
  - apply map_eq. intros w. rewrite lookup_fmap. destruct (wqs !! w) as [q0|] eqn:Ew; [|done].
    simpl. f_equal. rewrite remove_elt_notin; [by destruct q0|]. intros Hin0.
    destruct (sw_wq _ _ _ _ _ _ _ W w q0 t Ew Hin0) as (_ & th' & ? & ? & _).
    simplify_eq. congruence.
Qed.

Lemma remove_elt_wq t w q :
  sched_wf X H ths rq bm wqs cur -> wqs !! w = Some q -> t ∈ wq_list q ->
  remove_elt t <$> rq = rq /\
  (fun w => set_wq_list (remove_elt t (wq_list w)) w) <$> wqs
    = <[w := set_wq_list (remove_elt t (wq_list q)) q]> wqs.
Proof.
  intros W Hq Hin. destruct (sw_wq _ _ _ _ _ _ _ W w q t Hq Hin) as (_ & th & Ht & Hs & Hb & _).
  split.
  - apply list_eq. intros j. rewrite list_lookup_fmap.
    destruct (rq !! j) as [q0|] eqn:Ej; [|done]. simpl.
    f_equal. apply remove_elt_notin. intros Hin0.
    destruct (sw_rq _ _ _ _ _ _ _ W j q0 t Ej Hin0) as (_ & th' & ? & ? & ? & _).
    simplify_eq. congruence.
  - apply map_eq. intros w'. rewrite lookup_fmap. destruct (decide (w' = w)) as [->|].
    + by rewrite lookup_insert_eq, Hq.
    + rewrite lookup_insert_ne by done. destruct (wqs !! w') as [q0|] eqn:Ew; [|done].
      simpl. f_equal. rewrite remove_elt_notin; [by destruct q0|]. intros Hin0.
      destruct (sw_wq _ _ _ _ _ _ _ W w' q0 t Ew Hin0) as (_ & th' & ? & ? & ? & _).
      simplify_eq.
Qed.

(** The cpu goes on with the thread picked: the same one ... *)
Lemma sched_finish_same c t th th' :
  sched_wf ({[t]} ∪ X) (Some c) ths rq bm wqs cur -> t ∉ X ->
  cur !! c = Some t -> ths !! t = Some th -> transit_ok th th' ->
  t_state th' = THREAD_RUNNING ->
  sched_wf X None (<[t := th']> ths) rq bm wqs cur.
Proof.
  intros W HtX Hc Ht Hok Hs.
  assert (t_curr_cpu th = c) as Hcc.
  { destruct (sw_hole _ _ _ _ _ _ _ W c eq_refl) as (? & ? & ? & ? & ?). simplify_eq. done. }
  assert (t_curr_cpu th' = c) as Hcc' by (destruct Hok as (_ & _ & _ & -> & _); done).
  apply (sched_put_transit t th th') in W; [|set_solver|done..].
  assert (forall u thu, <[t := th']> ths !! u = Some thu -> u ∉ X ->
     (u ∉ {[t]} ∪ X) \/ u = t /\ thu = th') as Hcase.
  { intros u thu Hu ?. destruct (decide (u = t)) as [->|]; [right; simplify_map_eq; done|left; set_solver]. }
  destruct W. split; try done.
  - intros i q u Hq Hu. destruct (sw_rq0 i q u Hq Hu). eauto using notin_transit_r.
  - intros w q u Hq Hu. destruct (sw_wq0 w q u Hq Hu). eauto using notin_transit_r.
  - intros u thu Hu HuX ??. destruct (Hcase u thu Hu HuX) as [?|[-> ->]]; [eauto|congruence].
  - intros u thu Hu HuX ?. destruct (Hcase u thu Hu HuX) as [?|[-> ->]]; [eauto|congruence].
  - intros u thu Hu HuX ?. split; [|done]. destruct (Hcase u thu Hu HuX) as [?|[-> ->]].
    + by apply sw_running0.
    + by rewrite Hcc'.
  - intros c' u Hcu _. destruct (decide (c' = c)) as [->|].
    + simplify_eq. split; [done|]. exists th'. rewrite lookup_insert_eq. done.
    + destruct (sw_cur0 c' u Hcu) as [??]; [congruence|]. eauto using notin_transit_r.
Qed.

(** ... or another one, the old thread having found its place. *)
Lemma sched_finish_other c old new tho thn tho' thn' :
  sched_wf ({[new]} ∪ X) (Some c) ths rq bm wqs cur -> new ∉ X ->
  cur !! c = Some old -> new <> old -> old ∉ X ->
  ths !! old = Some tho -> ths !! new = Some thn ->
  t_state tho <> THREAD_RUNNING ->
  sched_same tho (set_t_curr_cpu (t_curr_cpu tho) tho') ->
  transit_ok thn (set_t_curr_cpu (t_curr_cpu thn) thn') ->
  t_state thn' = THREAD_RUNNING -> t_curr_cpu thn' = c ->
  (forall c', new = idle_thread c' -> is_Some (cur !! c') -> c' = c) ->
  sched_wf X None (<[new := thn']> (<[old := tho']> ths)) rq bm wqs (<[c := new]> cur).
Proof.
  intros W HnX Hc Hne HoX Ho Hn Hso Hsame Hok Hs Hcc Hidle.
  destruct Hsame as (Em & Ep & Es & Ei & _ & En & Eb & Ea); simpl in *.
  destruct Hok as (Ha & Hp & Hi & _ & Hpin & Hid); simpl in *.
  change (thread_is_idle tho' = thread_is_idle tho) in Ei.
  change (thread_is_idle thn' = thread_is_idle thn) in Hi.
  change (alive_ok thn') in Ha. change (pad_ok thn') in Hp.
  assert (forall c', cur !! c' = Some new -> False) as Hnc.
  { intros c' Hc'. destruct (decide (c' = c)) as [->|]; [congruence|].
    destruct (sw_cur _ _ _ _ _ _ _ W c' new Hc') as [HnX' _]; [congruence|].
    apply HnX'. set_solver. }
  assert (forall u thu, <[new := thn']> (<[old := tho']> ths) !! u = Some thu -> u ∉ X ->
     (u = new /\ thu = thn') \/ (u = old /\ thu = tho') \/
     (u ∉ {[new]} ∪ X /\ u <> old /\ ths !! u = Some thu)) as Hcase.
  { intros u thu Hu ?. destruct (decide (u = new)) as [->|]; [left; simplify_map_eq; done|].
    destruct (decide (u = old)) as [->|]; [right; left; simplify_map_eq; done|].
    right; right. simplify_map_eq. set_solver. }
  assert (forall u thu, ths !! u = Some thu -> u <> new -> exists thu',
    <[new := thn']> (<[old := tho']> ths) !! u = Some thu' /\ t_state thu' = t_state thu /\
    t_priority thu' = t_priority thu /\ thread_is_idle thu' = thread_is_idle thu /\
    t_blocking_wait_queue thu' = t_blocking_wait_queue thu /\ t_pinned_cpu thu' = t_pinned_cpu thu /\
    (u <> old -> t_curr_cpu thu' = t_curr_cpu thu)) as Hfwd.
  { intros u thu Hu ?. destruct (decide (u = old)) as [->|]; [exists tho'|exists thu];
      simplify_map_eq; naive_solver. }
  assert (old ∉ {[new]} ∪ X) as HoX' by set_solver.
  destruct W. split; try done.
  - intros i q u Hq Hu. destruct (sw_rq0 i q u Hq Hu) as (? & thu & Hu0 & ? & ? & ?).
    split; [by eapply notin_transit_r|].
    destruct (Hfwd u thu Hu0) as (thu' & ? & E1 & E2 & E3 & _); [set_solver|].
    exists thu'. rewrite E1, E2, E3. done.
  - intros w q u Hq Hu. destruct (sw_wq0 w q u Hq Hu) as (? & thu & Hu0 & ? & ? & ?).
    split; [by eapply notin_transit_r|].
    destruct (Hfwd u thu Hu0) as (thu' & ? & E1 & _ & E3 & E4 & _); [set_solver|].
    exists thu'. rewrite E1, E3, E4. done.
  - intros u thu [[<- <-]|[? [[<- <-]|[??]]%lookup_insert_Some]]%lookup_insert_Some; eauto.
    destruct (sw_alive0 old tho Ho) as [Ha' Hp']. unfold alive_ok, pad_ok in *.
    by rewrite Em, Ep, Es, Ea.
  - intros u thu Hu HuX Hr Hi'. destruct (Hcase u thu Hu HuX) as [[-> ->]|[[-> ->]|(?&?&?)]];
      [congruence| |eauto].
    rewrite Ep. apply (sw_ready0 old tho); [done..|congruence|congruence].
  - intros u thu Hu HuX Hr. destruct (Hcase u thu Hu HuX) as [[-> ->]|[[-> ->]|(?&?&?)]];
      [congruence| |eauto].
    rewrite Eb. apply (sw_blocked0 old tho); [done..|congruence].
  - intros u thu Hu HuX Hr. split; [|done].
    destruct (Hcase u thu Hu HuX) as [[-> ->]|[[-> ->]|(?&?&?)]].
    + rewrite Hcc. apply lookup_insert_eq.
    + congruence.
    + destruct (sw_running0 u thu) as [? HH]; [done..|]. rewrite lookup_insert_ne; [done|congruence].
  - intros c' u [[<- <-]|[? Hcu]]%lookup_insert_Some _.
    + split; [done|]. exists thn'. rewrite lookup_insert_eq. done.
    + destruct (sw_cur0 c' u Hcu) as (? & thu & Hu0 & ? & ?); [congruence|].
      split; [by eapply notin_transit_r|].
      assert (u <> old) by (intros ->; congruence).
      destruct (Hfwd u thu Hu0) as (thu' & ? & E1 & _ & _ & _ & _ & E2); [set_solver|].
      exists thu'. rewrite E1, E2 by done. done.
  - intros c' Hc'. destruct (sw_idle0 c') as (thu & Hu0 & ? & ? & ?).
    { destruct (decide (c' = c)) as [->|]; [eauto|]. by rewrite lookup_insert_ne in Hc'. }
    destruct (decide (idle_thread c' = new)) as [E|].
    + exists thn'. rewrite E in *. rewrite lookup_insert_eq. simplify_eq.
      split_and!; [done|congruence|congruence|auto].
    + destruct (Hfwd _ thu Hu0) as (thu' & ? & E1 & _ & E3 & _ & E4 & _); [done|].
      exists thu'. rewrite E1, E3, E4. done.
  - intros c' c'' Hcu [<-|[? Hs'']]%lookup_insert_is_Some;
      apply lookup_insert_Some in Hcu as [[<- E]|[? Hcu]]; [done|eauto|symmetry; by apply Hidle|eauto].
  - intros u thu Hu Hid'.
    assert (exists thu0, ths !! u = Some thu0 /\ thread_is_idle thu0 = true) as (thu0 & ? & ?).
    { apply lookup_insert_Some in Hu as [[<- <-]|[? [[<- <-]|[??]]%lookup_insert_Some]];
        [exists thn|exists tho|exists thu]; split; congruence. }
    destruct (sw_idle_only0 u thu0) as (c' & ? & ?); [done..|]. exists c'. split; [done|].
    destruct (decide (c' = c)) as [->|]; [by rewrite lookup_insert_eq|by rewrite lookup_insert_ne].
  - intros c' [<-|[_ Hc']]%lookup_insert_is_Some; apply sw_cpus0; eauto.
Qed.
End moves2.

(** * Which thread [get_top_thread] picks

    The loop over the run queue bitmap finds, among the threads that may run on
    the cpu, the first one of the highest priority, and takes it off its queue;
    the idle thread when there is none. *)

Definition runnable_on (cpu : Z) (th : thread_t) : bool :=
  (t_pinned_cpu th <? 0) || (t_pinned_cpu th =? cpu).

(** No thread of [q] may run on [cpu]. *)
Definition none_runnable (s : kstate) (cpu : Z) (q : list tid) : Prop :=
  forall u th, u ∈ q -> ks_threads s !! u = Some th -> runnable_on cpu th = false.

(** [new] is the first runnable thread of run queue [i], and no queue of higher
    priority has one. *)
Definition first_runnable (s : kstate) (cpu : Z) (new : tid) (i : nat) : Prop :=
  (exists q1 q2 th, ks_run_queue s !! i = Some (q1 ++ new :: q2) /\
     ks_threads s !! new = Some th /\ runnable_on cpu th = true /\ none_runnable s cpu q1) /\
  (forall (j : nat) q, (i < j)%nat -> ks_run_queue s !! j = Some q -> none_runnable s cpu q).

Definition no_runnable (s : kstate) (cpu : Z) : Prop :=
  forall (j : nat) q, ks_run_queue s !! j = Some q -> none_runnable s cpu q.

(** The state with [new] taken off run queue [i]. *)
Definition dequeued (new : tid) (i : nat) (q : list tid) (s : kstate) : kstate :=
  set_ks_run_queue (<[i := remove_elt new q]> (ks_run_queue s))
    (set_ks_run_queue_bitmap
       (if bool_decide (remove_elt new q = []) then clear_flag (ks_run_queue_bitmap s) (BIT (Z.of_nat i))
        else ks_run_queue_bitmap s) s).

Lemma find_runnable_run cpu q s :
  (forall u, u ∈ q -> is_Some (ks_threads s !! u)) ->
  rets (find_runnable cpu q) s (fun r s' => s' = s /\
    match r with
    | Some t => exists q1 q2 th, q = q1 ++ t :: q2 /\ ks_threads s !! t = Some th /\
                  runnable_on cpu th = true /\ none_runnable s cpu q1
    | None => none_runnable s cpu q
    end).
Proof.
  induction q as [|t q IH]; intros Hq; cbn [find_runnable].
  { ksteps. split; [done|]. by intros u th ?%not_elem_of_nil. }
  destruct (Hq t) as [th Ht]; [set_solver|]. ksteps.
  fold (runnable_on cpu th). destruct (runnable_on cpu th) eqn:E.
  - ksteps. split; [done|]. exists [], q, th. split_and!; try done.
    by intros u thu ?%not_elem_of_nil.
  - eapply rets_mono; [apply IH; set_solver|].
    assert (forall l, none_runnable s cpu l -> none_runnable s cpu (t :: l)) as Hcons.
    { intros l Hl u thu [->|Hu]%elem_of_cons Hthu; [congruence|by apply (Hl u)]. }
    intros [r|] s' [-> Hr]; (split; [done|]); [|by apply Hcons].
    destruct Hr as (q1 & q2 & th' & -> & ? & ? & ?). exists (t :: q1), q2, th'. auto.
Qed.

Lemma clear_top_bit x : 0 < x -> clear_flag x (BIT (Z.log2 x)) < 2 ^ Z.log2 x.
Proof.
  intros Hx. pose proof (Z.log2_nonneg x).
  apply bits_range; [done|unfold clear_flag; apply Z.ldiff_nonneg; lia|].
  intros m Hm. autorewrite with nusa_bits. case_bool_decide; [by rewrite andb_false_r|].
  rewrite Z.bits_above_log2; [done|lia|lia].
Qed.

Section pick.
Context `{KConfig} {X : gset tid} {Ho : option Z}.

Lemma swf_rq_threads s (i : nat) q u :
  swf X Ho s -> ks_run_queue s !! i = Some q -> u ∈ q -> is_Some (ks_threads s !! u).
Proof. intros W Hq Hu. destruct (sw_rq _ _ _ _ _ _ _ W i q u Hq Hu) as (_ & th & ? & _). eauto. Qed.

Lemma rets_get_run_queue s (i : nat) q P :
  swf X Ho s -> ks_run_queue s !! i = Some q -> P q s -> rets (get_run_queue (Z.of_nat i)) s P.
Proof.
  intros W Hq HP. pose proof (lookup_lt_Some _ _ _ Hq) as Hlt.
  rewrite (sw_rq_len _ _ _ _ _ _ _ W) in Hlt. unfold rets, get_run_queue, NUM_PRIORITIES.
  rewrite Nat2Z.id, Hq. rewrite (proj2 (Z.leb_le _ _)), (proj2 (Z.ltb_lt _ _)) by lia. done.
Qed.

(** Taking the thread found off its queue. *)
Lemma dequeue_run s (i : nat) q new :
  swf X Ho s -> ks_run_queue s !! i = Some q -> new ∈ q ->
  rets (kmod (queue_node_delete new);;
        q' ← get_run_queue (Z.of_nat i);
        kwhen (bool_decide (q' = []))
          (kmod (fun s => set_ks_run_queue_bitmap
                   (clear_flag (ks_run_queue_bitmap s) (BIT (Z.of_nat i))) s));;
        mret new) s (fun r s' => r = new /\ s' = dequeued new i q s).
Proof.
  intros W Hq Hin. pose proof (remove_elt_rq new i q W Hq Hin) as [E1 E2].
  pose proof (lookup_lt_Some _ _ _ Hq) as Hlt. pose proof (sw_rq_len _ _ _ _ _ _ _ W) as Hlen.
  kprim. kprim.
  assert (queue_node_delete new s = set_ks_run_queue (<[i := remove_elt new q]> (ks_run_queue s)) s) as ->.
  { unfold queue_node_delete. rewrite E1, E2. by destruct s. }
  kprim. unfold rets at 1, get_run_queue, NUM_PRIORITIES. kcbn.
  rewrite (proj2 (Z.leb_le _ _)), (proj2 (Z.ltb_lt _ _)) by lia. cbn.
  rewrite Nat2Z.id, list_lookup_insert_eq by lia.
  kprim. unfold dequeued. case_bool_decide; cbn [kwhen]; ksteps; (split; [done|by destruct s]).
Qed.

Definition picked (s : kstate) (cpu : Z) (new : tid) (s' : kstate) : Prop :=
  (exists (i : nat) q, ks_run_queue s !! i = Some q /\ first_runnable s cpu new i /\
     s' = dequeued new i q s) \/
  (new = idle_thread cpu /\ s' = s /\ no_runnable s cpu).

Lemma get_top_thread_loop_run fuel bm cpu s :
  swf X Ho s -> 0 <= bm < 2 ^ Z.of_nat fuel -> (fuel <= 32)%nat ->
  (forall (j : nat) q, ks_run_queue s !! j = Some q -> Z.testbit bm (Z.of_nat j) = false ->
     none_runnable s cpu q) ->
  rets (get_top_thread_loop fuel bm cpu) s (picked s cpu).
Proof.
  intros W. revert bm. induction fuel as [|fuel IH]; intros bm Hbm Hf Hdone; cbn [get_top_thread_loop].
  { assert (bm = 0) as -> by (simpl in Hbm; lia). rewrite Z.eqb_refl. ksteps. right.
    split_and!; [done..|]. intros j q Hq. apply (Hdone j q Hq). by rewrite Z.testbit_0_l. }
  destruct (Z.eqb_spec bm 0) as [->|Hne].
  { ksteps. right. split_and!; [done..|]. intros j q Hq. apply (Hdone j q Hq).
    by rewrite Z.testbit_0_l. }
  pose proof (Z.log2_nonneg bm) as Hl0.
  replace (32 - 1 - builtin_clz bm) with (Z.log2 bm) by (unfold builtin_clz; lia).
  assert (Z.log2 bm < Z.of_nat (S fuel)) as Hl by (apply Z.log2_lt_pow2; lia).
  pose proof (sw_rq_len _ _ _ _ _ _ _ W) as Hlen.
  destruct (lookup_lt_is_Some_2 (ks_run_queue s) (Z.to_nat (Z.log2 bm))) as [q Hq]; [lia|].
  pose proof (clear_top_bit bm ltac:(lia)) as Hclr.
  assert (forall j, Z.log2 bm < j -> Z.testbit bm j = false) as Habove
    by (intros; apply Z.bits_above_log2; lia).
  assert (Z.log2 bm = Z.of_nat (Z.to_nat (Z.log2 bm))) as Ei by lia.
  set (i := Z.to_nat (Z.log2 bm)) in *. rewrite Ei in *.
  kprim. eapply rets_get_run_queue; [done..|].
  kprim. eapply rets_mono.
  { apply find_runnable_run. intros u Hu. by eapply swf_rq_threads. }
  intros [new|] s' [-> Hr].
  - destruct Hr as (q1 & q2 & th & -> & Ht & Hr & Hn).
    eapply rets_mono; [apply dequeue_run; [done..|set_solver]|].
    intros r s' [-> ->]. left. exists i, (q1 ++ new :: q2). split_and!; [done| |done].
    split; [eauto 10|]. intros j q' Hj Hq'. apply (Hdone j q' Hq'), Habove. lia.
  - apply IH; [|lia|].
    + split; [unfold clear_flag; apply Z.ldiff_nonneg; lia|].
      eapply Z.lt_le_trans; [done|]. apply Z.pow_le_mono_r; lia.
    + intros j q' Hq'. autorewrite with nusa_bits. destruct (decide (i = j)) as [->|].
      * by simplify_eq.
      * rewrite bool_decide_false by lia. rewrite andb_true_r. by apply Hdone.
Qed.

Lemma get_top_thread_run cpu s :
  swf X Ho s -> rets (get_top_thread cpu) s (picked s cpu).
Proof.
  intros W. unfold get_top_thread. kprim. kprim. apply get_top_thread_loop_run; [done| |lia|].
  - split; [apply W|]. apply bits_range; [lia|apply W|]. intros m Hm. by apply W.
  - intros j q Hq. rewrite (sw_bm _ _ _ _ _ _ _ W j q Hq). intros E.
    bool_cases. destruct q; [|by destruct E]. by intros u th ?%not_elem_of_nil.
Qed.
End pick.
