(* ===== verification/TimerInv.v ===== *)
(** * The timer invariant, and what setting and cancelling a timer do

    [timers_wf X Y ths tms tqs cur] relates the timer queues to the threads: a
    queued timer is initialised and on one queue only, the preemption timer of
    a cpu is on the queue of that cpu, and the timer on the stack of a thread
    is queued only while the thread sleeps or waits.  [X] are the threads in
    transit, [Y] those that run again and have not yet cancelled their timer. *)
From stdpp Require Import sorting.
From S2P Require Import Prelude KState Timer Thread Logic.

Definition timer_queues (s : kstate) : gmap Z (list timer_id) := pc_timer_queue <$> ks_percpu s.

Definition stack_timer_ok (Y : gset tid) (t : tid) (tm : timer_t) (th : thread_t) : Prop :=
  (tm_callback tm = ThreadSleepHandler /\ t_state th = THREAD_SLEEPING) \/
  (tm_callback tm = WaitQueueTimeoutHandler /\
   (t_state th = THREAD_BLOCKED \/ t_state th = THREAD_READY \/
    t_state th = THREAD_RUNNING /\ t ∈ Y)).

Record timers_wf (X Y : gset tid) (ths : gmap tid thread_t) (tms : gmap timer_id timer_t)
    (tqs : gmap Z (list timer_id)) : Prop := {
  tw_magic : forall i tm, tms !! i = Some tm -> tm_magic tm = TIMER_MAGIC;
  tw_queued : forall c q i, tqs !! c = Some q -> i ∈ q -> is_Some (tms !! i);
  tw_nodup : forall c q, tqs !! c = Some q -> NoDup q;
  tw_disj : forall c c' q q' i, tqs !! c = Some q -> tqs !! c' = Some q' -> i ∈ q -> i ∈ q' -> c = c';
  tw_preempt_init : forall c, is_Some (tqs !! c) -> is_Some (tms !! TmPreempt c);
  tw_preempt : forall c q c', tqs !! c = Some q -> TmPreempt c' ∈ q -> c' = c /\
    exists tm, tms !! TmPreempt c = Some tm /\ tm_callback tm = ThreadTimerTick /\
               tm_periodic_time tm = 10;
  tw_stack : forall c q t, tqs !! c = Some q -> TmStack t ∈ q ->
    exists tm, tms !! TmStack t = Some tm /\ tm_arg tm = t /\ tm_periodic_time tm = 0 /\
      (t ∉ X -> exists th, ths !! t = Some th /\ stack_timer_ok Y t tm th);
  tw_obj : forall c q a, tqs !! c = Some q -> TmObj a ∈ q ->
    exists tm f, tms !! TmObj a = Some tm /\ tm_callback tm = OtherCallback f;
}.

(** The preemption timer of a cpu runs exactly while a thread that can be
    preempted does. *)
Definition preempt_on (ths : gmap tid thread_t) (tqs : gmap Z (list timer_id)) (cur : gmap Z tid)
  : Prop :=
  forall c q t th, tqs !! c = Some q -> cur !! c = Some t -> ths !! t = Some th ->
    (TmPreempt c ∈ q <-> thread_is_real_time_or_idle th = false).

Definition twf (X Y : gset tid) (s : kstate) : Prop :=
  timers_wf X Y (ks_threads s) (ks_timers s) (timer_queues s).

(** ** Times that wrap around *)
Lemma TIME_LT_iff a b : TIME_LT a b = true <-> 2 ^ 31 <= u32 (a - b).
Proof.
  unfold TIME_LT, to_signed. pose proof (wrap_range 32 (a - b) ltac:(lia)).
  change (2 ^ (32 - 1)) with (2 ^ 31). rewrite Z.ltb_lt. destruct (Z.ltb_spec (u32 (a - b)) (2 ^ 31)); lia.
Qed.

Lemma TIME_GT_iff a b : TIME_GT a b = true <-> 0 < u32 (a - b) < 2 ^ 31.
Proof.
  unfold TIME_GT, to_signed. pose proof (wrap_range 32 (a - b) ltac:(lia)).
  change (2 ^ (32 - 1)) with (2 ^ 31). rewrite Z.ltb_lt. destruct (Z.ltb_spec (u32 (a - b)) (2 ^ 31)); lia.
Qed.

(** ** The order of a queue *)
(** Milliseconds until a timer expires, seen from [base]. *)
Definition deadline (base : Z) (tm : timer_t) : Z := u32 (tm_scheduled_time tm - base).
Definition deadline_of (base : Z) (tms : gmap timer_id timer_t) (i : timer_id) : Z :=
  default 0 (deadline base <$> tms !! i).
(** All expire within half the range of the clock after [base], the earliest first. *)
Definition in_order (base : Z) (tms : gmap timer_id timer_t) (q : list timer_id) : Prop :=
  StronglySorted (fun i j => deadline_of base tms i <= deadline_of base tms j) q /\
  Forall (fun i => is_Some (tms !! i) /\ deadline_of base tms i < 2 ^ 31) q.

#[export] Instance in_order_dec base tms q : Decision (in_order base tms q).
Proof. unfold in_order. apply _. Defined.

Lemma TIME_GT_deadline a b base :
  u32 (a - base) < 2 ^ 31 -> u32 (b - base) < 2 ^ 31 -> TIME_GT a b = true <-> u32 (b - base) < u32 (a - base).
Proof.
  intros Ha Hb. pose proof (wrap_range 32 (a - base) ltac:(lia)). pose proof (wrap_range 32 (b - base) ltac:(lia)).
  rewrite TIME_GT_iff. assert (u32 (a - b) = (u32 (a - base) - u32 (b - base)) mod 2 ^ 32) as ->.
  { unfold wrap. rewrite <- Zminus_mod. f_equal. lia. }
  destruct (Z.lt_ge_cases (u32 (a - base)) (u32 (b - base))).
  - rewrite <- (Z.mod_add _ 1), Z.mod_small by lia. lia.
  - rewrite Z.mod_small by lia. lia.
Qed.

(** Where a timer goes: after those that do not expire later. *)
Definition placed (tms : gmap timer_id timer_t) (tm : timer_t) (q1 q2 : list timer_id) : Prop :=
  (forall i e, i ∈ q1 -> tms !! i = Some e -> TIME_GT (tm_scheduled_time e) (tm_scheduled_time tm) = false) /\
  (forall i e, head q2 = Some i -> tms !! i = Some e -> TIME_GT (tm_scheduled_time e) (tm_scheduled_time tm) = true).

Lemma placed_before base tms tm q1 q2 i e :
  placed tms tm q1 q2 -> in_order base tms (q1 ++ q2) -> deadline base tm < 2 ^ 31 -> tms !! i = Some e ->
  (i ∈ q1 -> deadline base e <= deadline base tm) /\ (i ∈ q2 -> deadline base tm < deadline base e).
Proof.
  intros [H1 H2] [Hs Hf] Hd Hi. rewrite Forall_app, !Forall_forall in Hf. destruct Hf as [Hf1 Hf2].
  apply StronglySorted_app in Hs as (_ & _ & Hs).
  assert (forall j x, tms !! j = Some x -> deadline_of base tms j = deadline base x) as Hof.
  { intros j x Hj. unfold deadline_of. by rewrite Hj. }
  split; intros Hin.
  - destruct (Hf1 i Hin) as [_ Hlt]. specialize (H1 i e Hin Hi). rewrite (Hof _ _ Hi) in Hlt. apply not_true_iff_false in H1.
    rewrite (TIME_GT_deadline _ _ base) in H1 by done. unfold deadline. lia.
  - destruct q2 as [|j q2]; [by apply elem_of_nil in Hin|]. destruct (Hf2 j) as [[x Hj] Hlt]; [by left|].
    specialize (H2 j x eq_refl Hj). rewrite (Hof _ _ Hj) in Hlt. rewrite (TIME_GT_deadline _ _ base) in H2 by done.
    apply elem_of_cons in Hin as [->|Hin]; [by simplify_eq|]. apply StronglySorted_inv in Hs as [_ Hs].
    rewrite Forall_forall in Hs. specialize (Hs i Hin). rewrite (Hof _ _ Hi), (Hof _ _ Hj) in Hs. unfold deadline in *. lia.
Qed.

Lemma in_order_ext base tms tms' q : (forall i, i ∈ q -> tms' !! i = tms !! i) -> in_order base tms q -> in_order base tms' q.
Proof.
  intros E [Hs Hf]. assert (forall i, i ∈ q -> deadline_of base tms' i = deadline_of base tms i) as E'.
  { intros i Hi. unfold deadline_of. by rewrite E. }
  split.
  - clear Hf E. induction Hs as [|i q Hs IH Hi]; constructor.
    + apply IH. intros j Hj. apply E'. by right.
    + rewrite Forall_forall in Hi |- *. intros j Hj. rewrite !E' by set_solver. by apply Hi.
  - rewrite Forall_forall in Hf |- *. intros i Hi. rewrite E, E' by done. by apply Hf.
Qed.

Lemma in_order_placed base tms timer tm q1 q2 :
  timer ∉ q1 ++ q2 -> in_order base tms (q1 ++ q2) -> deadline base tm < 2 ^ 31 -> placed (<[timer := tm]> tms) tm q1 q2 ->
  in_order base (<[timer := tm]> tms) (q1 ++ timer :: q2).
Proof.
  intros Hni Ho Hd Hp. set (tms' := <[timer := tm]> tms) in *.
  assert (in_order base tms' (q1 ++ q2)) as Ho'.
  { eapply in_order_ext; [|exact Ho]. intros i Hi. apply lookup_insert_ne. by intros ->. }
  assert (forall i, i ∈ q1 ++ q2 -> (i ∈ q1 -> deadline_of base tms' i <= deadline base tm) /\
    (i ∈ q2 -> deadline base tm < deadline_of base tms' i)) as Hb.
  { intros i Hi. pose proof (proj2 Ho') as Hf. rewrite Forall_forall in Hf. destruct (Hf i Hi) as [[e He] _].
    unfold deadline_of. rewrite He. eapply placed_before; [exact Hp|exact Ho'|done..]. }
  assert (deadline_of base tms' timer = deadline base tm) as Et by (unfold deadline_of, tms'; by rewrite lookup_insert_eq).
  destruct Ho' as [Hs Hf]. apply StronglySorted_app in Hs as (H12 & H1 & H2). apply Forall_app in Hf as [Hf1 Hf2]. split.
  - apply StronglySorted_app. split_and!; [|done|].
    + intros i j Hi. rewrite elem_of_cons. intros [->|Hj]; [|by apply H12]. rewrite Et. apply (Hb i); [|done]. set_solver.
    + constructor; [done|]. rewrite Forall_forall. intros j Hj. rewrite Et.
      enough (deadline base tm < deadline_of base tms' j) by lia. apply (Hb j); [|done]. set_solver.
  - apply Forall_app. split; [done|]. constructor; [|done]. rewrite Et. split; [|done]. unfold tms'. rewrite lookup_insert_eq. by eexists.
Qed.

(** ** Setting a timer *)
Lemma insert_timer_walk_run timer tm q s :
  ks_timers s !! timer = Some tm -> (forall i, i ∈ q -> is_Some (ks_timers s !! i)) ->
  exists q1 q2, q = q1 ++ q2 /\ insert_timer_walk timer q s = Ret (q1 ++ timer :: q2) s /\
    placed (ks_timers s) tm q1 q2.
Proof.
  intros Ht. induction q as [|e q IH]; intros Hq; [exists [], []; split_and!; [done|done|split; set_solver]|].
  destruct (Hq e) as [te He]; [set_solver|].
  destruct IH as (q1 & q2 & -> & IH & Hp); [set_solver|].
  destruct (decide (TIME_GT (tm_scheduled_time te) (tm_scheduled_time tm) = true)) as [E|E].
  - exists [], (e :: q1 ++ q2). split_and!; [done| |].
    + apply rets_run. cbn [insert_timer_walk]. ksteps. rewrite E. done.
    + split; [set_solver|]. intros i x [= <-] Hx. by simplify_eq.
  - apply not_true_is_false in E. exists (e :: q1), q2. split_and!; [done| |].
    + apply rets_run. cbn [insert_timer_walk]. ksteps. rewrite E. ksteps. eapply rets_eq; [done|]. done.
    + destruct Hp as [Hp1 Hp2]. split; [|done]. intros i x [->|Hi]%elem_of_cons Hx; [by simplify_eq|by eapply Hp1].
Qed.

Lemma not_timer_queued s i :
  timer_queued s i = false <-> forall c q, timer_queues s !! c = Some q -> i ∉ q.
Proof.
  unfold timer_queued, timer_queues. rewrite bool_decide_eq_false. split.
  - intros Hn c q Hq Hi. apply lookup_fmap_Some in Hq as (pc & <- & Hc).
    apply Hn. by exists c, pc.
  - intros Hn (c & pc & Hc & Hi). eapply (Hn c); [|done]. by rewrite lookup_fmap, Hc.
Qed.

Definition set_timer_fields (now delay period : Z) (cb : callback_fn) (arg : Z) (tm : timer_t)
  : timer_t :=
  set_tm_arg arg (set_tm_callback cb
    (set_tm_periodic_time period (set_tm_scheduled_time (u32 (now + delay)) tm))).

Section run.
Context `{KConfig}.

Definition arm_oneshot (timer : timer_id) (delay : Z) (q : list timer_id) (tr : list kevent) : list kevent :=
  if bool_decide (head q = Some timer) then EvSetOneshotTimer delay :: tr else tr.

Lemma timer_set_placed timer tm delay period cb arg s pc :
  ks_percpu s !! ks_cpu s = Some pc -> ks_timers s !! timer = Some tm ->
  tm_magic tm = TIMER_MAGIC -> timer_queued s timer = false ->
  (forall i, i ∈ pc_timer_queue pc -> is_Some (ks_timers s !! i)) ->
  let tm' := set_timer_fields (ks_now s) delay period cb arg tm in
  rets (timer_set timer delay period cb arg) s (fun _ s' => exists q1 q2,
    pc_timer_queue pc = q1 ++ q2 /\ placed (<[timer := tm']> (ks_timers s)) tm' q1 q2 /\
    s' = set_ks_trace (arm_oneshot timer delay (q1 ++ timer :: q2) (ks_trace s))
           (put_cpu (set_pc_timer_queue (q1 ++ timer :: q2) pc) (put_timer timer tm' s))).
Proof.
  intros Hpc Ht Hm Hnq Hq tm'. unfold timer_set. fold tm'.
  destruct (insert_timer_walk_run timer tm' (pc_timer_queue pc)
    (put_cpu (set_pc_ints_disabled true pc) (put_timer timer tm' s))) as (q1 & q2 & Hqq & Hw & Hp).
  { cbn. apply lookup_insert_eq. }
  { intros i Hi. cbn. destruct (decide (i = timer)) as [->|]; simplify_map_eq; eauto. }
  ksteps. rewrite Hnq. ksteps. unfold timer_lock_irqsave. ksteps.
  unfold insert_timer_in_queue. ksteps. eapply rets_eq; [apply Hw|]. ksteps. cbv beta.
  unfold arm_oneshot. kcbn.
  apply rets_kwhen; intros E; ksteps; unfold timer_unlock_irqrestore; ksteps; exists q1, q2;
    (split_and!; [done|done|rewrite E]).
  all: unfold put_cpu; kcbn; rewrite !insert_insert_eq; destruct s, pc; reflexivity.
Qed.

Lemma timer_set_run timer tm delay period cb arg s pc :
  ks_percpu s !! ks_cpu s = Some pc -> ks_timers s !! timer = Some tm ->
  tm_magic tm = TIMER_MAGIC -> timer_queued s timer = false ->
  (forall i, i ∈ pc_timer_queue pc -> is_Some (ks_timers s !! i)) ->
  rets (timer_set timer delay period cb arg) s (fun _ s' => exists q1 q2 tr,
    pc_timer_queue pc = q1 ++ q2 /\
    s' = set_ks_trace tr (put_cpu (set_pc_timer_queue (q1 ++ timer :: q2) pc)
        (put_timer timer (set_timer_fields (ks_now s) delay period cb arg tm) s))).
Proof.
  intros. eapply rets_mono; [by apply timer_set_placed|]. intros _ s' (q1 & q2 & ? & _ & ?). by eexists q1, q2, _.
Qed.

Lemma timer_unlink_id s i : timer_queued s i = false -> timer_unlink i s = s.
Proof.
  intros Hn. rewrite not_timer_queued in Hn. unfold timer_unlink.
  transitivity (set_ks_percpu (ks_percpu s) s); [f_equal|by destruct s].
  apply map_eq. intros c'. rewrite lookup_fmap. destruct (ks_percpu s !! c') as [pc|] eqn:E; [|done].
  cbn. f_equal. rewrite remove_elt_notin; [by destruct pc|].
  apply (Hn c'). unfold timer_queues. by rewrite lookup_fmap, E.
Qed.

Definition cancel_timer_fields (tm : timer_t) : timer_t :=
  set_tm_arg 0 (set_tm_callback NullCallback (set_tm_periodic_time 0 tm)).

Lemma timer_cancel_run timer tm s pc :
  ks_percpu s !! ks_cpu s = Some pc -> ks_timers s !! timer = Some tm ->
  tm_magic tm = TIMER_MAGIC -> (forall i, i ∈ pc_timer_queue pc -> is_Some (ks_timers s !! i)) ->
  rets (timer_cancel timer) s (fun _ s' => exists tr,
    s' = set_ks_trace tr (timer_unlink timer (put_timer timer (cancel_timer_fields tm) s))).
Proof.
  intros Hpc Ht Hm Hq. unfold timer_cancel, timer_lock_irqsave. ksteps.
  set (pcs := (fun pc => set_pc_timer_queue (remove_elt timer (pc_timer_queue pc)) pc)
                <$> ks_percpu (put_cpu (set_pc_ints_disabled true pc) s)).
  apply (rets_mono _ _ (fun _ s' => s' = set_ks_percpu pcs s)).
  { apply rets_kwhen; intros E; ksteps; [by destruct s|].
    rewrite <- (timer_unlink_id _ timer E). by destruct s. }
  intros _ s' ->. kprim. kprim. kprim.
  assert (pcs !! ks_cpu s = Some (set_pc_timer_queue (remove_elt timer (pc_timer_queue pc))
    (set_pc_ints_disabled true pc))) as Hpc'.
  { unfold pcs. rewrite lookup_fmap. unfold put_cpu. kcbn. by rewrite lookup_insert_eq. }
  ksteps.
  assert (<[ks_cpu s := set_pc_timer_queue (remove_elt timer (pc_timer_queue pc)) pc]> pcs =
    (fun pc => set_pc_timer_queue (remove_elt timer (pc_timer_queue pc)) pc) <$> ks_percpu s) as Hend.
  { unfold pcs, put_cpu. kcbn. rewrite fmap_insert, insert_insert_eq.
    apply insert_id. by rewrite lookup_fmap, Hpc. }
  apply (rets_mono _ _ (fun _ s' => exists tr, s' =
    set_ks_trace tr (put_timer timer (cancel_timer_fields tm) (set_ks_percpu pcs s)))).
  - destruct (head (remove_elt timer (pc_timer_queue pc))) as [newhead|] eqn:Eh.
    2: { ksteps. by eexists. }
    apply rets_kwhen; intros _; [|eexists (ks_trace s); by destruct s].
    destruct (Hq newhead) as [nh Hnh].
    { apply head_Some_elem_of, elem_of_remove_elt in Eh. tauto. }
    assert (newhead <> timer). { apply head_Some_elem_of, elem_of_remove_elt in Eh. tauto. }
    ksteps. by eexists.
  - intros _ s' [tr ->]. unfold timer_unlock_irqrestore. ksteps. exists tr.
    unfold timer_unlink, put_cpu. kcbn. rewrite <- Hend. by destruct pc.
Qed.
End run.

(** ** How the invariant moves *)
Definition timer_kind_ok (X Y : gset tid) (ths : gmap tid thread_t) (c : Z) (i : timer_id)
    (tm : timer_t) : Prop :=
  match i with
  | TmPreempt c' => c' = c /\ tm_callback tm = ThreadTimerTick /\ tm_periodic_time tm = 10
  | TmStack t => tm_arg tm = t /\ tm_periodic_time tm = 0 /\
      (t ∉ X -> exists th, ths !! t = Some th /\ stack_timer_ok Y t tm th)
  | TmObj _ => exists f, tm_callback tm = OtherCallback f
  end.

Section moves.
Context {X Y : gset tid} {ths : gmap tid thread_t} {tms : gmap timer_id timer_t}
  {tqs : gmap Z (list timer_id)}.

(** The fields about the kinds of timers, in one. *)
Lemma tw_kind c q i :
  timers_wf X Y ths tms tqs -> tqs !! c = Some q -> i ∈ q ->
  exists tm, tms !! i = Some tm /\ tm_magic tm = TIMER_MAGIC /\ timer_kind_ok X Y ths c i tm.
Proof.
  intros [] Hq Hi. destruct i as [c'|t|a].
  - destruct (tw_preempt0 c q c' Hq Hi) as (-> & tm & ? & ? & ?). exists tm. naive_solver.
  - destruct (tw_stack0 c q t Hq Hi) as (tm & ? & ? & ? & ?). exists tm. naive_solver.
  - destruct (tw_obj0 c q a Hq Hi) as (tm & f & ? & ?). exists tm. naive_solver.
Qed.

Lemma timers_wf_intro :
  (forall i tm, tms !! i = Some tm -> tm_magic tm = TIMER_MAGIC) ->
  (forall c q, tqs !! c = Some q -> NoDup q) ->
  (forall c c' q q' i, tqs !! c = Some q -> tqs !! c' = Some q' -> i ∈ q -> i ∈ q' -> c = c') ->
  (forall c, is_Some (tqs !! c) -> is_Some (tms !! TmPreempt c)) ->
  (forall c q i, tqs !! c = Some q -> i ∈ q ->
     exists tm, tms !! i = Some tm /\ timer_kind_ok X Y ths c i tm) ->
  timers_wf X Y ths tms tqs.
Proof.
  intros Hm Hn Hd Hp Hk. split; try done.
  - intros c q i Hq Hi. destruct (Hk c q i Hq Hi) as (tm & ? & _). eauto.
  - intros c q c' Hq Hi. destruct (Hk c q _ Hq Hi) as (tm & ? & -> & ? & ?). eauto 10.
  - intros c q t Hq Hi. destruct (Hk c q _ Hq Hi) as (tm & ? & ? & ? & ?). eauto 10.
  - intros c q a Hq Hi. destruct (Hk c q _ Hq Hi) as (tm & ? & f & ?). eauto 10.
Qed.
End moves.

Section moves2.
Context {X Y : gset tid} {ths : gmap tid thread_t} {tms : gmap timer_id timer_t}
  {tqs : gmap Z (list timer_id)}.

Lemma timers_set c i tm q1 q2 :
  timers_wf X Y ths tms tqs -> tqs !! c = Some (q1 ++ q2) ->
  (forall c' q, tqs !! c' = Some q -> i ∉ q) ->
  tm_magic tm = TIMER_MAGIC -> timer_kind_ok X Y ths c i tm ->
  timers_wf X Y ths (<[i := tm]> tms) (<[c := q1 ++ i :: q2]> tqs).
Proof.
  intros W Hq Hni Hm Hk.
  assert (forall c' q' j, <[c := q1 ++ i :: q2]> tqs !! c' = Some q' -> j ∈ q' ->
    (j = i /\ c' = c) \/ j <> i /\ exists q, tqs !! c' = Some q /\ j ∈ q) as Hcase.
  { intros c' q' j [[<- <-]|[??]]%lookup_insert_Some Hj.
    - rewrite elem_of_app, elem_of_cons in Hj. destruct (decide (j = i)); [auto|right].
      split; [done|]. exists (q1 ++ q2). rewrite elem_of_app. naive_solver.
    - right. split; [|eauto]. intros ->. by eapply Hni. }
  apply timers_wf_intro.
  - intros j tmj [[<- <-]|[??]]%lookup_insert_Some; [done|]. by eapply tw_magic.
  - intros c' q' [[<- <-]|[??]]%lookup_insert_Some; [|by eapply tw_nodup].
    pose proof (tw_nodup _ _ _ _ _ W _ _ Hq). pose proof (Hni _ _ Hq).
    rewrite <- Permutation_middle. by apply NoDup_cons.
  - intros c1 c2 qa qb j Ha Hb Hja Hjb.
    destruct (Hcase _ _ _ Ha Hja) as [[??]|(? & ? & ? & ?)];
      destruct (Hcase _ _ _ Hb Hjb) as [[??]|(? & ? & ? & ?)]; subst; try done.
    by eapply (tw_disj _ _ _ _ _ W).
  - intros c' Hc'. destruct (decide (i = TmPreempt c')) as [->|].
    { rewrite lookup_insert_eq. eauto. }
    rewrite lookup_insert_ne by done. apply (tw_preempt_init _ _ _ _ _ W).
    apply lookup_insert_is_Some in Hc' as [<-|[_ ?]]; eauto.
  - intros c' q' j Hq' Hj. destruct (Hcase _ _ _ Hq' Hj) as [[-> ->]|(? & q & ? & ?)].
    + exists tm. by rewrite lookup_insert_eq.
    + rewrite lookup_insert_ne by done. destruct (tw_kind c' q j W) as (tmj & ? & ? & ?); eauto.
Qed.

Lemma timers_cancel i tm :
  timers_wf X Y ths tms tqs -> tm_magic tm = TIMER_MAGIC ->
  timers_wf X Y ths (<[i := tm]> tms) (remove_elt i <$> tqs).
Proof.
  intros W Hm.
  assert (forall c' q' j, (remove_elt i <$> tqs) !! c' = Some q' -> j ∈ q' ->
    j <> i /\ exists q, tqs !! c' = Some q /\ j ∈ q) as Hcase.
  { intros c' q' j (q & <- & Hq)%lookup_fmap_Some Hj. apply elem_of_remove_elt in Hj as [??].
    split; [done|]. eauto. }
  apply timers_wf_intro.
  - intros j tmj [[<- <-]|[??]]%lookup_insert_Some; [done|]. by eapply tw_magic.
  - intros c' q' (q & <- & Hq)%lookup_fmap_Some. apply NoDup_remove_elt. by eapply tw_nodup.
  - intros c1 c2 qa qb j Ha Hb Hja Hjb.
    destruct (Hcase _ _ _ Ha Hja) as (? & ? & ? & ?).
    destruct (Hcase _ _ _ Hb Hjb) as (? & ? & ? & ?). by eapply (tw_disj _ _ _ _ _ W).
  - intros c' Hc'. rewrite lookup_fmap, fmap_is_Some in Hc'.
    destruct (decide (i = TmPreempt c')) as [->|]; [rewrite lookup_insert_eq; eauto|].
    rewrite lookup_insert_ne by done. by apply (tw_preempt_init _ _ _ _ _ W).
  - intros c' q' j Hq' Hj. destruct (Hcase _ _ _ Hq' Hj) as (? & q & ? & ?).
    rewrite lookup_insert_ne by done. destruct (tw_kind c' q j W) as (tmj & ? & ? & ?); eauto.
Qed.

(** [timer_initialize] of a timer that is not queued *)
Lemma timers_init i tm :
  timers_wf X Y ths tms tqs -> tm_magic tm = TIMER_MAGIC ->
  (forall c' q, tqs !! c' = Some q -> i ∉ q) ->
  timers_wf X Y ths (<[i := tm]> tms) tqs.
Proof.
  intros W Hm Hni. replace tqs with (remove_elt i <$> tqs); [by apply timers_cancel|].
  apply map_eq. intros c. rewrite lookup_fmap. destruct (tqs !! c) eqn:E; [|done]. cbn.
  f_equal. apply remove_elt_notin. by eapply Hni.
Qed.
End moves2.

(** Changes of the threads. *)
Lemma timers_threads X Y X' Y' ths ths' tms tqs :
  timers_wf X Y ths tms tqs ->
  (forall c q t tm, tqs !! c = Some q -> TmStack t ∈ q -> t ∉ X' ->
     (t ∉ X -> exists th, ths !! t = Some th /\ stack_timer_ok Y t tm th) ->
     exists th, ths' !! t = Some th /\ stack_timer_ok Y' t tm th) ->
  timers_wf X' Y' ths' tms tqs.
Proof.
  intros W Ht. destruct W. split; try done.
  intros c q t Hq Hin. destruct (tw_stack0 c q t Hq Hin) as (tm & ? & ? & ? & Hth).
  exists tm. split_and!; [done..|]. intros HtX. by eapply Ht.
Qed.

Lemma timers_put_thread X Y ths tms tqs t th th' :
  timers_wf X Y ths tms tqs -> ths !! t = Some th ->
  (t ∉ X -> forall tm, stack_timer_ok Y t tm th -> stack_timer_ok Y t tm th') ->
  timers_wf X Y (<[t := th']> ths) tms tqs.
Proof.
  intros W Ht Hok. apply (timers_threads X Y X Y ths); [done|].
  intros c q u tm Hq Hin HuX Hu. destruct (Hu HuX) as (thu & Hthu & ?).
  destruct (decide (u = t)) as [->|]; simplify_map_eq; eauto.
Qed.

(** A thread in transit has arrived. *)
Lemma timers_arrive X Y ths tms tqs t th :
  timers_wf ({[t]} ∪ X) Y ths tms tqs -> ths !! t = Some th ->
  (forall c q tm, tqs !! c = Some q -> TmStack t ∈ q -> tms !! TmStack t = Some tm ->
     stack_timer_ok Y t tm th) ->
  timers_wf X Y ths tms tqs.
Proof.
  intros W Ht Hok. destruct W. split; try done.
  intros c q u Hq Hin. destruct (tw_stack0 c q u Hq Hin) as (tm & ? & ? & ? & Hth).
  exists tm. split_and!; [done..|]. intros HuX. destruct (decide (u = t)) as [->|]; [eauto|].
  apply Hth. set_solver.
Qed.

(** ... or set out. *)
Lemma timers_depart X X' Y ths tms tqs :
  timers_wf X Y ths tms tqs -> X ⊆ X' -> timers_wf X' Y ths tms tqs.
Proof. intros W HX. destruct W. split; try done. intros c q t Hq Hin.
  destruct (tw_stack0 c q t Hq Hin) as (tm & ? & ? & ? & Hth). exists tm.
  split_and!; [done..|]. intros. apply Hth. set_solver.
Qed.

Lemma timer_queues_unlink i s : timer_queues (timer_unlink i s) = remove_elt i <$> timer_queues s.
Proof. unfold timer_queues, timer_unlink. kcbn. by rewrite <- !map_fmap_compose. Qed.

Lemma timer_queues_put_cpu q pc s :
  timer_queues (put_cpu (set_pc_timer_queue q pc) s) = <[ks_cpu s := q]> (timer_queues s).
Proof. unfold timer_queues, put_cpu. kcbn. by rewrite fmap_insert. Qed.
