(* ===== verification/SchedSpec.v ===== *)
(** * The invariant of the kernel, and [thread_resched]

    [kinv X H Y s] joins the scheduler and the timer invariants.  The main
    lemma says what [thread_resched] does in a state where the current thread
    has given up the cpu: it either goes on with the same thread or switches to
    another one, with the invariant restored. *)
From S2P Require Import Prelude KState Timer Thread WaitQueue ThreadLife Logic SchedInv TimerInv.

Record kinv (X : gset tid) (H : option Z) (Y : gset tid) (s : kstate) : Prop := {
  ki_sched : swf X H s;
  ki_timers : twf ∅ Y s;
  ki_preempt : preempt_on (ks_threads s) (timer_queues s) (currents s);
  ki_retcode : forall t, is_Some (ks_threads s !! t) ->
    exists q, ks_wait_queues s !! WqRetcode t = Some q /\ wq_magic q = WAIT_QUEUE_MAGIC;
}.

(** The code runs with the thread lock and interrupts off. *)
Definition locked (s : kstate) : Prop :=
  ks_thread_lock s = true /\
  exists pc, ks_percpu s !! ks_cpu s = Some pc /\ pc_ints_disabled pc = true.

(** The part of the state the invariant is about. *)
Definition kview (s : kstate) :=
  (ks_threads s, ks_run_queue s, ks_run_queue_bitmap s, ks_wait_queues s, ks_timers s,
   currents s, timer_queues s).

Lemma kinv_ext X Ho Y s s' : kview s' = kview s -> kinv X Ho Y s -> kinv X Ho Y s'.
Proof.
  intros [= E1 E2 E3 E4 E5 E6 E7] []. split; unfold swf, twf;
    rewrite ?E1, ?E2, ?E3, ?E4, ?E5, ?E6, ?E7; done.
Qed.

Lemma kview_currents s s' : kview s' = kview s -> currents s' = currents s.
Proof. unfold kview. congruence. Qed.

Lemma kview_timer_queues s s' : kview s' = kview s -> timer_queues s' = timer_queues s.
Proof. unfold kview. congruence. Qed.
Lemma kview_threads s s' : kview s' = kview s -> ks_threads s' = ks_threads s.
Proof. unfold kview. congruence. Qed.

Lemma kview_put_cpu s pc pc' :
  ks_percpu s !! ks_cpu s = Some pc -> pc_current pc' = pc_current pc ->
  pc_timer_queue pc' = pc_timer_queue pc -> kview (put_cpu pc' s) = kview s.
Proof.
  intros Hpc E1 E2. unfold kview. kcbn. f_equal; [f_equal|].
  - unfold currents, put_cpu. kcbn. rewrite fmap_insert, E1. apply insert_id.
    by rewrite lookup_fmap, Hpc.
  - unfold timer_queues, put_cpu. kcbn. rewrite fmap_insert, E2. apply insert_id.
    by rewrite lookup_fmap, Hpc.
Qed.

(** Updates of a thread by the scheduler: its state, quantum, cpu and
    statistics; nothing else. *)
Definition thread_core (th : thread_t) :=
  (t_magic th, t_priority th, t_flags th, t_pinned_cpu th, t_aspace th, t_blocking_wait_queue th,
   t_wait_queue_block_ret th, (t_stack th, t_stack_size th, t_stack_pad th, t_entry th, t_arg th,
   t_retcode th, t_tls th, t_name th)).
Definition core_same (th th' : thread_t) : Prop := thread_core th' = thread_core th.
Definition stats_same (th th' : thread_t) : Prop :=
  core_same th th' /\ t_state th' = t_state th /\ t_curr_cpu th' = t_curr_cpu th.

#[export] Instance core_same_equiv : Equivalence core_same.
Proof. split; unfold core_same; congruence. Qed.
Lemma stats_same_refl th : stats_same th th.
Proof. done. Qed.
#[export] Hint Resolve stats_same_refl : nusa.
#[export] Hint Extern 1 (core_same _ _) => reflexivity : nusa.

(** What follows for the fields the invariants look at. *)
Lemma core_same_fields th th' :
  core_same th th' ->
  t_magic th' = t_magic th /\ t_priority th' = t_priority th /\ t_flags th' = t_flags th /\
  t_pinned_cpu th' = t_pinned_cpu th /\ t_blocking_wait_queue th' = t_blocking_wait_queue th /\
  t_wait_queue_block_ret th' = t_wait_queue_block_ret th /\ t_stack_pad th' = t_stack_pad th.
Proof. unfold core_same, thread_core. intros [=]. done. Qed.

Lemma core_same_idle th th' : core_same th th' -> thread_is_idle th' = thread_is_idle th.
Proof. intros (_ & _ & E & _)%core_same_fields. unfold thread_is_idle. by rewrite E. Qed.
Lemma core_same_real_time th th' :
  core_same th th' -> thread_is_real_time_or_idle th' = thread_is_real_time_or_idle th.
Proof. intros (_ & _ & E & _)%core_same_fields. unfold thread_is_real_time_or_idle. by rewrite E. Qed.
Lemma core_same_sched th th' :
  core_same th th' -> t_state th' = t_state th -> t_curr_cpu th' = t_curr_cpu th ->
  sched_same th th'.
Proof.
  intros E Hs Hc. pose proof (core_same_idle _ _ E).
  apply core_same_fields in E as (? & ? & ? & ? & ? & ? & ?). by split_and!.
Qed.

Section resched_parts.
Context `{KConfig}.

Lemma resched_mp_run cpu newth s :
  rets (resched_mp cpu newth) s (fun _ s' => exists mp, s' = set_ks_mp mp s).
Proof.
  unfold resched_mp, mp_set_cpu_idle, mp_set_cpu_busy, mp_set_cpu_realtime,
    mp_set_cpu_non_realtime, mod_mp.
  case_match; case_match; ksteps; eexists; by destruct s.
Qed.

Lemma resched_stats_run old new tho thn pc s :
  old <> new -> ks_percpu s !! ks_cpu s = Some pc ->
  ks_threads s !! old = Some tho -> ks_threads s !! new = Some thn ->
  rets (resched_stats old new) s (fun _ s' => exists st tho' thn',
    stats_same tho tho' /\ stats_same thn thn' /\
    s' = set_ks_threads (<[new := thn']> (<[old := tho']> (ks_threads s)))
           (put_cpu (set_pc_stats st pc) s)).
Proof.
  intros Hne Hpc Ho Hn. unfold resched_stats. apply rets_kwhen; intros _.
  2: { exists (pc_stats pc), tho, thn. split_and!; [auto with nusa..|].
       rewrite (insert_id _ old), (insert_id _ new) by done. unfold put_cpu.
       rewrite insert_id by (by destruct pc). by destruct s. }
  set (tho' := set_t_total_run_time (u64 (t_total_run_time tho +
                 (ks_now_hires s - t_last_run_timestamp tho))) tho).
  set (thn' := set_t_schedules (u64 (t_schedules thn + 1))
                 (set_t_last_run_timestamp (ks_now_hires s) thn)).
  assert (stats_same tho tho' /\ stats_same thn thn') as [Ho' Hn'] by (by destruct tho, thn).
  ksteps. case_match; case_match; ksteps.
  - eexists _, tho, thn. split_and!; [auto with nusa..|].
    rewrite (insert_id _ old), (insert_id _ new) by done. kstate_eq.
  - eexists _, tho, thn'. split_and!; [auto with nusa..|]. rewrite (insert_id _ old) by done. kstate_eq.
  - eexists _, tho', thn. split_and!; [auto with nusa..|].
    rewrite (insert_id _ new) by (by rewrite lookup_insert_ne). kstate_eq.
  - eexists _, tho', thn'. split_and!; [auto with nusa..|]. kstate_eq.
Qed.

Lemma resched_stack_check_run old tho s :
  ks_threads s !! old = Some tho -> pad_ok tho ->
  rets (resched_stack_check old) s (fun _ s' => s' = s).
Proof.
  intros Ho Hp. unfold resched_stack_check. apply rets_kwhen; [|done]. intros _. ksteps.
  apply rets_kwhen; [|done]. intros _. by rewrite Hp.
Qed.

Lemma resched_aspace_run old new tho thn s :
  ks_threads s !! old = Some tho -> ks_threads s !! new = Some thn -> ks_thread_lock s = true ->
  rets (resched_aspace old new) s (fun _ s' => exists tr, s' = set_ks_trace tr s).
Proof.
  intros Ho Hn Hl. unfold resched_aspace, vmm_context_switch. ksteps. apply rets_kwhen; intros _.
  - ksteps. by eexists.
  - exists (ks_trace s). by destruct s.
Qed.

Lemma resched_preempt_timer_run X Y ths cpu old new tho thn pc s :
  ks_cpu s = cpu -> ks_percpu s !! cpu = Some pc ->
  ks_threads s !! old = Some tho -> ks_threads s !! new = Some thn ->
  timers_wf X Y ths (ks_timers s) (timer_queues s) ->
  (TmPreempt cpu ∈ pc_timer_queue pc <-> thread_is_real_time_or_idle tho = false) ->
  rets (resched_preempt_timer cpu old new) s (fun _ s' => exists tms q tr,
    s' = set_ks_trace tr (put_cpu (set_pc_timer_queue q pc) (set_ks_timers tms s)) /\
    timers_wf X Y ths tms (<[cpu := q]> (timer_queues s)) /\
    (forall i, i <> TmPreempt cpu -> tms !! i = ks_timers s !! i) /\
    (TmPreempt cpu ∈ q <-> thread_is_real_time_or_idle thn = false) /\
    (forall i, i <> TmPreempt cpu -> i ∈ q <-> i ∈ pc_timer_queue pc)).
Proof.
  intros <-.
  intros Hpc Ho Hn W Hon.
  assert (timer_queues s !! ks_cpu s = Some (pc_timer_queue pc)) as Hq
    by (unfold timer_queues; by rewrite lookup_fmap, Hpc).
  assert (forall i, i ∈ pc_timer_queue pc -> is_Some (ks_timers s !! i)) as Hex
    by (intros; by eapply (tw_queued _ _ _ _ _ W)).
  destruct (tw_preempt_init _ _ _ _ _ W (ks_cpu s)) as [tm Htm]; [eauto|].
  pose proof (tw_magic _ _ _ _ _ W _ _ Htm) as Hm.
  assert (rets kdone s (fun _ s' => exists tms q tr,
    s' = set_ks_trace tr (put_cpu (set_pc_timer_queue q pc) (set_ks_timers tms s)) /\
    timers_wf X Y ths tms (<[ks_cpu s := q]> (timer_queues s)) /\
    (forall i, i <> TmPreempt (ks_cpu s) -> tms !! i = ks_timers s !! i) /\
    (TmPreempt (ks_cpu s) ∈ q <-> thread_is_real_time_or_idle tho = false) /\
    (forall i, i <> TmPreempt (ks_cpu s) -> i ∈ q <-> i ∈ pc_timer_queue pc))) as Hsame.
  { ksteps. exists (ks_timers s), (pc_timer_queue pc), (ks_trace s). unfold put_cpu.
    rewrite insert_id by (by destruct pc). rewrite insert_id by done. split_and!; [by destruct s|done..]. }
  unfold resched_preempt_timer. ksteps.
  destruct (thread_is_real_time_or_idle thn) eqn:En, (thread_is_real_time_or_idle tho) eqn:Eo;
    cbn [negb kwhen]; try exact Hsame; clear Hsame.
  - eapply rets_mono; [by eapply timer_cancel_run|]. intros _ s' [tr ->].
    eexists _, (remove_elt (TmPreempt (ks_cpu s)) (pc_timer_queue pc)), tr.
    assert (forall c, c <> ks_cpu s -> forall pc', ks_percpu s !! c = Some pc' ->
      remove_elt (TmPreempt (ks_cpu s)) (pc_timer_queue pc') = pc_timer_queue pc') as Hoth.
    { intros c Hc pc' Hpc'. apply remove_elt_notin. intros Hin.
      destruct (tw_preempt _ _ _ _ _ W c (pc_timer_queue pc') (ks_cpu s)) as [? _]; [|done..].
      unfold timer_queues. by rewrite lookup_fmap, Hpc'. }
    split_and!.
    + unfold timer_unlink, put_timer, put_cpu. kcbn. f_equal.
      transitivity (set_ks_percpu (<[ks_cpu s:=set_pc_timer_queue (remove_elt (TmPreempt (ks_cpu s))
         (pc_timer_queue pc)) pc]> (ks_percpu s)) (put_timer (TmPreempt (ks_cpu s)) (cancel_timer_fields tm) s));
        [f_equal|reflexivity].
      apply map_eq. intros c. rewrite lookup_fmap. destruct (decide (c = ks_cpu s)) as [->|Hc].
      * by rewrite lookup_insert_eq, Hpc.
      * rewrite lookup_insert_ne by done. destruct (ks_percpu s !! c) as [pc'|] eqn:E; [|done].
        cbn. rewrite (Hoth c Hc pc' E). by destruct pc'.
    + pose proof (timers_cancel (TmPreempt (ks_cpu s)) (cancel_timer_fields tm) W Hm) as W'.
      replace (<[ks_cpu s:=remove_elt (TmPreempt (ks_cpu s)) (pc_timer_queue pc)]> (timer_queues s))
        with (remove_elt (TmPreempt (ks_cpu s)) <$> timer_queues s); [done|].
      apply map_eq. intros c. rewrite lookup_fmap. destruct (decide (c = ks_cpu s)) as [->|Hc].
      * by rewrite lookup_insert_eq, Hq.
      * rewrite lookup_insert_ne by done. unfold timer_queues. rewrite lookup_fmap.
        destruct (ks_percpu s !! c) as [pc'|] eqn:E; [|done]. cbn. by rewrite (Hoth c Hc pc' E).
    + intros i Hi. by rewrite lookup_insert_ne.
    + rewrite elem_of_remove_elt. naive_solver.
    + intros i Hi. rewrite elem_of_remove_elt. naive_solver.
  - assert (forall c q, timer_queues s !! c = Some q -> TmPreempt (ks_cpu s) ∉ q) as Hnq.
    { intros c q Hcq Hin. destruct (tw_preempt _ _ _ _ _ W c q _ Hcq Hin) as [<- _].
      simplify_eq. naive_solver. }
    eapply rets_mono; [eapply (timer_set_run _ _ 10 10); [done..| |done]; by apply not_timer_queued|].
    intros _ s' (q1 & q2 & tr & Eq & ->). eexists _, (q1 ++ TmPreempt (ks_cpu s) :: q2), tr.
    split_and!; [reflexivity| | | |].
    + apply timers_set; [done|by rewrite <- Eq|done|done|done].
    + intros i Hi. by rewrite lookup_insert_ne.
    + rewrite elem_of_app, elem_of_cons. naive_solver.
    + intros i Hi. rewrite Eq, !elem_of_app, elem_of_cons. naive_solver.
Qed.
End resched_parts.

(** The thread a cpu runs and whether its interrupts are disabled. *)
Definition cpu_view (s : kstate) (c : Z) : option (tid * bool) :=
  (fun pc => (pc_current pc, pc_ints_disabled pc)) <$> ks_percpu s !! c.

(** The thread [get_top_thread] picks in [s]. *)
Definition picks (s : kstate) (cpu : Z) (new : tid) : Prop :=
  (exists i, first_runnable s cpu new i) \/ new = idle_thread cpu /\ no_runnable s cpu.

(** What rescheduling from [t] to [new] changes. *)
Record resched_to (s : kstate) (t new : tid) (s' : kstate) : Prop := {
  rt_cpu : ks_cpu s' = ks_cpu s;
  rt_others : forall c, c <> ks_cpu s -> cpu_view s' c = cpu_view s c;
  rt_thread_list : ks_thread_list s' = ks_thread_list s;
  rt_wait_queues : ks_wait_queues s' = ks_wait_queues s;
  rt_objs : ks_objs s' = ks_objs s;
  rt_write_ports : ks_write_port_list s' = ks_write_port_list s;
  rt_allocs : ks_allocs s' = ks_allocs s;
  rt_now : ks_now s' = ks_now s;
  rt_cur : currents s' = <[ks_cpu s := new]> (currents s);
  rt_threads : forall u, match ks_threads s !! u, ks_threads s' !! u with
    | Some th, Some th' => core_same th th' /\
        t_state th' = if decide (u = new) then THREAD_RUNNING else t_state th
    | None, None => True
    | _, _ => False
    end;
  rt_timer : forall i, i <> TmPreempt (ks_cpu s) -> ks_timers s' !! i = ks_timers s !! i;
  rt_timers : forall c i q, i <> TmPreempt (ks_cpu s) -> timer_queues s !! c = Some q ->
    exists q', timer_queues s' !! c = Some q' /\ (i ∈ q' <-> i ∈ q);
  rt_picked : picks s (ks_cpu s) new;
}.

Section resched.
Context `{KConfig}.

(** The thread picked is in transit. *)
Lemma picked_transit X s c new s' :
  swf X (Some c) s -> is_Some (currents s !! c) -> picked s c new s' ->
  swf ({[new]} ∪ X) (Some c) s' /\
  exists thn, ks_threads s !! new = Some thn /\ (t_state thn = THREAD_READY \/ t_state thn = THREAD_RUNNING) /\
    (forall c', new = idle_thread c' -> is_Some (currents s !! c') -> c' = c).
Proof.
  intros W Hc [(i & q & Hq & [(q1 & q2 & th & Hq' & Ht & _) _] & ->)|(-> & -> & _)].
  - simplify_eq. pose proof (sw_rq_nodup _ _ _ _ _ _ _ W i _ Hq) as Hnd.
    destruct (sw_rq _ _ _ _ _ _ _ W i _ new Hq) as (HX & th' & ? & ? & _ & ?); [set_solver|]. split.
    + unfold dequeued, swf. kcbn. eapply sched_rq_del; [done..|].
      rewrite remove_elt_mid by done. by rewrite Permutation_middle.
    + exists th'. split_and!; [done|by left|]. intros c' -> Hc'.
      destruct (sw_idle _ _ _ _ _ _ _ W c' Hc') as (? & ? & ? & _). simplify_eq. congruence.
  - destruct (sw_idle _ _ _ _ _ _ _ W c Hc) as (th & Ht & Hi & _ & Hs). split.
    + apply sched_take; [done| |].
      * split; intros i q Hq Hin.
        -- destruct (sw_rq _ _ _ _ _ _ _ W i q _ Hq Hin) as (_ & ? & ? & _ & _ & ?). congruence.
        -- destruct (sw_wq _ _ _ _ _ _ _ W i q _ Hq Hin) as (_ & ? & ? & _ & _ & ?). congruence.
      * intros c' Hc'. f_equal. eapply sw_idle_home; [done|done|]. eauto.
    + exists th. split_and!; [done..|]. intros c' ?%idle_thread_inj _. congruence.
Qed.

(** The second half of [thread_resched], when the thread changes. *)
Definition resched_tail (cpu : Z) (oldthread newthread : tid) : K unit :=
  newth ← get_thread newthread;
  kwhen (t_remaining_quantum newth <=? 0) (mod_thread newthread (set_t_remaining_quantum 5));;
  mod_thread oldthread (set_t_curr_cpu (-1));;
  mod_thread newthread (set_t_curr_cpu cpu);;
  newth ← get_thread newthread;
  resched_mp cpu newth;;
  resched_stats oldthread newthread;;
  resched_preempt_timer cpu oldthread newthread;;
  emit (EvDebugLed (negb (thread_is_idle newth)));;
  set_current_thread newthread;;
  resched_stack_check oldthread;;
  resched_aspace oldthread newthread;;
  arch_context_switch oldthread newthread.

Lemma resched_tail_run X Y ths t new tho thn pc s :
  new <> t -> ks_percpu s !! ks_cpu s = Some pc -> ks_thread_lock s = true ->
  ks_threads s !! t = Some tho -> ks_threads s !! new = Some thn -> pad_ok tho ->
  timers_wf X Y ths (ks_timers s) (timer_queues s) ->
  (TmPreempt (ks_cpu s) ∈ pc_timer_queue pc <-> thread_is_real_time_or_idle tho = false) ->
  runs (resched_tail (ks_cpu s) t new) s (fun o => exists tho' thn' tms q mp st tr,
    core_same tho tho' /\ t_state tho' = t_state tho /\ t_curr_cpu tho' = -1 /\
    core_same thn thn' /\ t_state thn' = t_state thn /\ t_curr_cpu thn' = ks_cpu s /\
    timers_wf X Y ths tms (<[ks_cpu s := q]> (timer_queues s)) /\
    (forall i, i <> TmPreempt (ks_cpu s) -> tms !! i = ks_timers s !! i) /\
    (TmPreempt (ks_cpu s) ∈ q <-> thread_is_real_time_or_idle thn = false) /\
    (forall i, i <> TmPreempt (ks_cpu s) -> i ∈ q <-> i ∈ pc_timer_queue pc) /\
    o = Switch t new
      (set_ks_trace tr (set_ks_mp mp (set_ks_timers tms
         (set_ks_percpu (<[ks_cpu s := PerCpu new (pc_ints_disabled pc) q st]> (ks_percpu s))
            (set_ks_threads (<[new := thn']> (<[t := tho']> (ks_threads s))) s)))))
      (fun s' => Ret tt s')).
Proof.
  intros Hne Hpc Hl Ho Hn Hpad W Hon. unfold resched_tail. ksteps.
  apply runs_step. apply (rets_mono _ _ (fun _ s' => exists rq,
    s' = put_thread new (set_t_remaining_quantum rq thn) s)).
  { apply rets_kwhen; intros _; ksteps; [by eexists|].
    exists (t_remaining_quantum thn). unfold put_thread.
    rewrite insert_id by (by destruct thn). by destruct s. }
  intros _ s1 [rq ->]. ksteps.
  apply runs_step. eapply rets_mono; [apply resched_mp_run|]. intros _ s2 [mp ->]. kcbn.
  apply runs_step. eapply rets_mono; [eapply resched_stats_run; [done|klookup..]|]. kcbn.
  intros _ s3 (st & tho' & thn' & Eo & En & ->).
  rewrite (insert_shadow _ t new), !(insert_shadow _ new t) by done.
  match goal with |- runs _ ?s3 _ => assert (s3 = set_ks_mp mp
    (set_ks_percpu (<[ks_cpu s := set_pc_stats st pc]> (ks_percpu s))
       (set_ks_threads (<[new := thn']> (<[t := tho']> (ks_threads s))) s))) as -> by reflexivity end.
  apply runs_step. eapply rets_mono.
  { eapply (resched_preempt_timer_run X Y ths); kcbn;
      [reflexivity|apply lookup_insert_eq|rewrite lookup_insert_ne by done; apply lookup_insert_eq
      |apply lookup_insert_eq| |].
    - unfold timer_queues. kcbn. rewrite fmap_insert. kcbn.
      by rewrite insert_id by (by rewrite lookup_fmap, Hpc).
    - rewrite (core_same_real_time _ _ (proj1 Eo)). exact Hon. }
  cbv beta. kcbn. intros _ s4 (tms & q & tr & -> & W' & Hd & Hq & Hi).
  ksteps.
  apply runs_step. eapply rets_mono; [eapply resched_stack_check_run; [klookup|]|].
  { unfold pad_ok. destruct (core_same_fields _ _ (proj1 Eo)) as (_&_&_&_&_&_& ->). exact Hpad. }
  intros _ s5 ->. apply runs_step.
  eapply rets_mono; [eapply resched_aspace_run; [klookup..|exact Hl]|]. intros _ s6 [tr' ->].
  exists tho', thn', tms, q, mp, st, tr'. split_and!.
  - apply Eo.
  - apply Eo.
  - apply Eo.
  - apply En.
  - apply En.
  - apply En.
  - replace (<[ks_cpu s := q]> (timer_queues s)) with (<[ks_cpu s := q]> (timer_queues
      (set_ks_percpu (<[ks_cpu s := set_pc_stats st pc]> (ks_percpu s)) s))); [done|].
    unfold timer_queues. kcbn. by rewrite fmap_insert, insert_insert_eq.
  - exact Hd.
  - by rewrite Hq, (core_same_real_time _ _ (proj1 En)).
  - done.
  - unfold arch_context_switch, put_cpu. kcbn. by rewrite !insert_insert_eq.
Qed.

Lemma picked_frame s c new s' :
  picked s c new s' -> exists rq bm, s' = set_ks_run_queue rq (set_ks_run_queue_bitmap bm s).
Proof.
  intros [(i & q & _ & _ & ->)|(_ & -> & _)]; [by eexists _, _|].
  exists (ks_run_queue s), (ks_run_queue_bitmap s). by destruct s.
Qed.

Lemma currents_put_cpu pc s : currents (put_cpu pc s) = <[ks_cpu s := pc_current pc]> (currents s).
Proof. unfold currents, put_cpu. kcbn. by rewrite fmap_insert. Qed.

(** Statistics are of no concern to the invariant. *)
Lemma kinv_stats X Ho Y s pc st :
  ks_percpu s !! ks_cpu s = Some pc -> kinv X Ho Y s -> kinv X Ho Y (put_cpu (set_pc_stats st pc) s).
Proof. intros Hpc. apply kinv_ext. by eapply kview_put_cpu. Qed.

Lemma stack_timer_ok_mono (Y Y' : gset tid) t tm th :
  Y ⊆ Y' -> stack_timer_ok Y t tm th -> stack_timer_ok Y' t tm th.
Proof. unfold stack_timer_ok. set_solver. Qed.

(** The thread that runs again is in [Y] until it has cancelled its timer. *)
Lemma timers_run Y ths tms tqs new thn thn' :
  timers_wf ∅ Y ths tms tqs -> ths !! new = Some thn ->
  t_state thn = THREAD_READY \/ t_state thn = THREAD_RUNNING -> t_state thn' = THREAD_RUNNING ->
  timers_wf ∅ ({[new]} ∪ Y) (<[new := thn']> ths) tms tqs.
Proof.
  intros W Hn Hs Hs'. eapply timers_threads; [done|].
  intros c q u tm Hq Hin _ Hu. destruct (Hu ltac:(set_solver)) as (thu & Hthu & Hok).
  destruct (decide (u = new)) as [->|].
  - rewrite lookup_insert_eq. exists thn'. split; [done|]. simplify_eq. right.
    split; [|set_solver]. unfold stack_timer_ok in Hok.
    destruct Hok as [[_ E]|[? _]]; [|done]. destruct Hs; congruence.
  - rewrite lookup_insert_ne by done. exists thu. split; [done|].
    eapply stack_timer_ok_mono; [|done]. set_solver.
Qed.

Lemma transit_ok_run X Ho s new thn thn' :
  swf X Ho s -> ks_threads s !! new = Some thn ->
  t_state thn = THREAD_READY \/ t_state thn = THREAD_RUNNING ->
  core_same thn thn' -> t_state thn' = THREAD_RUNNING ->
  transit_ok thn (set_t_curr_cpu (t_curr_cpu thn) thn').
Proof.
  intros W Hn Hs E Hs'. destruct (sw_alive _ _ _ _ _ _ _ W new thn Hn) as [Ha Hp].
  pose proof (core_same_idle _ _ E) as Ei.
  apply core_same_fields in E as (Em & Ep & Ef & En & Eb & _ & Epad).
  split_and!; [|unfold pad_ok; kcbn; by rewrite Epad|exact Ei|done|exact En|by right].
  unfold alive_ok. kcbn. rewrite Em, Ep. intros _. apply Ha. destruct Hs; congruence.
Qed.

(** The two ways [thread_resched] ends, after the pick. *)
Lemma kinv_same Y s s2 t thn :
  kinv ∅ (Some (ks_cpu s)) Y s -> currents s !! ks_cpu s = Some t -> picked s (ks_cpu s) t s2 ->
  ks_threads s !! t = Some thn ->
  kinv ∅ None ({[t]} ∪ Y) (put_thread t (set_t_state THREAD_RUNNING thn) s2).
Proof.
  intros [W T P R] Hc Hp Hn.
  destruct (picked_transit ∅ s _ t s2 W) as (W2 & thn0 & Hn0 & Hs & _); [by eauto|done|].
  simplify_eq. pose proof (picked_frame _ _ _ _ Hp) as (rq & bm & ->). split.
  - eapply sched_finish_same; [exact W2|set_solver|exact Hc|exact Hn| |done].
    eapply (transit_ok_run _ _ _ _ _ (set_t_state THREAD_RUNNING thn) W); [done..|by destruct thn|done].
  - by eapply timers_run.
  - intros c q u thu Hq Hu Hthu. kcbn in Hthu. rewrite (P c q u (if decide (u = t) then thn else thu)); [|done..|].
    + case_decide; [|done]. simplify_map_eq. done.
    + case_decide; simplify_map_eq; done.
  - intros u Hu. apply R. kcbn in Hu. apply lookup_insert_is_Some' in Hu as [<-|]; [by eexists|done].
Qed.

Lemma kinv_switched Y s s2 s' t new tho thn tho' thn' q :
  kinv ∅ (Some (ks_cpu s)) Y s -> currents s !! ks_cpu s = Some t -> picked s (ks_cpu s) new s2 ->
  new <> t -> ks_threads s !! t = Some tho -> ks_threads s !! new = Some thn ->
  t_state tho <> THREAD_RUNNING ->
  core_same tho tho' -> t_state tho' = t_state tho ->
  core_same thn thn' -> t_state thn' = THREAD_RUNNING -> t_curr_cpu thn' = ks_cpu s ->
  ks_threads s' = <[new := thn']> (<[t := tho']> (ks_threads s)) ->
  ks_run_queue s' = ks_run_queue s2 -> ks_run_queue_bitmap s' = ks_run_queue_bitmap s2 ->
  ks_wait_queues s' = ks_wait_queues s -> currents s' = <[ks_cpu s := new]> (currents s) ->
  timer_queues s' = <[ks_cpu s := q]> (timer_queues s) ->
  timers_wf ∅ ({[new]} ∪ Y) (<[new := set_t_state THREAD_RUNNING thn]> (ks_threads s))
    (ks_timers s') (timer_queues s') ->
  (TmPreempt (ks_cpu s) ∈ q <-> thread_is_real_time_or_idle thn = false) ->
  kinv ∅ None ({[new]} ∪ Y) s'.
Proof.
  intros [W T P R] Hc Hp Hne Ho Hn Hro Eo Hso En Hrn Hcn Eths Erq Ebm Ewq Ecur Etq T' Hq.
  destruct (picked_transit ∅ s _ new s2 W) as (W2 & thn0 & Hn0 & Hs & Hid); [by eauto|done|].
  simplify_eq. pose proof (picked_frame _ _ _ _ Hp) as (rq & bm & ->).
  pose proof (transit_ok_run _ _ _ _ _ _ W Hn Hs En Hrn) as Hok.
  split.
  - unfold swf. rewrite Eths, Erq, Ebm, Ewq, Ecur.
    eapply sched_finish_other; [exact W2|set_solver|exact Hc|done|set_solver|exact Ho|exact Hn|done|
      |done..].
    apply core_same_sched; [|done..]. exact Eo.
  - unfold twf. rewrite Eths. eapply timers_threads; [exact T'|].
    intros c q' u tm Hq' Hin _ Hu. destruct (Hu ltac:(set_solver)) as (thu & Hthu & Hok').
    destruct (decide (u = new)) as [->|]; [|destruct (decide (u = t)) as [->|]]; simplify_map_eq.
    + eexists. split; [done|]. unfold stack_timer_ok in *. by rewrite Hrn.
    + eexists. split; [done|]. unfold stack_timer_ok in *. by rewrite Hso.
    + by eexists.
  - rewrite Eths, Etq, Ecur. intros c q' u thu Hq' Hu Hthu.
    destruct (decide (c = ks_cpu s)) as [->|].
    + simplify_map_eq. by rewrite Hq, (core_same_real_time _ _ En).
    + rewrite lookup_insert_ne in Hq' by done. rewrite lookup_insert_ne in Hu by done.
      apply (P c q' u); [done..|].
      assert (u <> new).
      { intros ->. destruct (sw_cur _ _ _ _ _ _ _ W2 c new Hu) as [HX _]; [congruence|set_solver]. }
      assert (u <> t).
      { intros ->. destruct (sw_cur _ _ _ _ _ _ _ W c t Hu) as (_ & ? & ? & ? & _); congruence. }
      by rewrite !lookup_insert_ne in Hthu by done.
  - rewrite Eths, Ewq. intros u Hu. apply R.
    apply lookup_insert_is_Some' in Hu as [<-|[<-|]%lookup_insert_is_Some']; [by eexists..|done].
Qed.

Lemma resched_to_threads s s' (t new : tid) tho thn tho' thn' :
  ks_threads s !! t = Some tho -> ks_threads s !! new = Some thn ->
  ks_threads s' = <[new := thn']> (<[t := tho']> (ks_threads s)) ->
  core_same tho tho' -> (new <> t -> t_state tho' = t_state tho) ->
  core_same thn thn' -> t_state thn' = THREAD_RUNNING ->
  forall u, match ks_threads s !! u, ks_threads s' !! u with
    | Some th, Some th' => core_same th th' /\
        t_state th' = if decide (u = new) then THREAD_RUNNING else t_state th
    | None, None => True
    | _, _ => False
    end.
Proof.
  intros Ho Hn -> Eo Hso En Hsn u. destruct (decide (u = new)) as [->|].
  - by rewrite Hn, lookup_insert_eq.
  - rewrite lookup_insert_ne by done. destruct (decide (u = t)) as [->|].
    + rewrite Ho, lookup_insert_eq. auto.
    + rewrite lookup_insert_ne by done. destruct (ks_threads s !! u); auto with nusa.
Qed.

Lemma picked_picks s c new s2 : picked s c new s2 -> picks s c new.
Proof. intros [(i & q & _ & ? & _)|(-> & _ & ?)]; [left; eauto|right; done]. Qed.

Definition resched_outcome (t new : tid) (s' : kstate) : outcome unit :=
  if decide (new = t) then Ret tt s' else Switch t new s' (fun s'' => Ret tt s'').

(** [thread_resched] after the pick, going on with the same thread ... *)
Lemma resched_same_case Y s s2 t th pc :
  kinv ∅ (Some (ks_cpu s)) Y s -> ks_percpu s !! ks_cpu s = Some pc -> pc_current pc = t ->
  ks_threads s !! t = Some th -> picked s (ks_cpu s) t s2 ->
  let s' := put_thread t (set_t_state THREAD_RUNNING th) s2 in
  resched_to s t t s' /\ kinv ∅ None ({[t]} ∪ Y) s'.
Proof.
  intros I Hpc Et Ht Hp s'.
  assert (currents s !! ks_cpu s = Some t) as Hc by (apply lookup_fmap_Some; eauto).
  split; [|by eapply kinv_same].
  pose proof (picked_frame _ _ _ _ Hp) as (rq & bm & ->). apply picked_picks in Hp. split; try done.
  - unfold currents. kcbn. by rewrite insert_id.
  - eapply (resched_to_threads s _ t t _ _ th (set_t_state THREAD_RUNNING th));
      [done..| |by destruct th|done|by destruct th|done].
    kcbn. by rewrite insert_insert_eq.
  - intros c i q _ Hq. by exists q.
Qed.

(** ... or with another one. *)
Lemma resched_other_case Y s s2 t new th thn pc :
  kinv ∅ (Some (ks_cpu s)) Y s -> ks_percpu s !! ks_cpu s = Some pc -> pc_current pc = t ->
  ks_thread_lock s = true -> pc_ints_disabled pc = true ->
  ks_threads s !! t = Some th -> t_state th <> THREAD_RUNNING ->
  ks_threads s !! new = Some thn -> picked s (ks_cpu s) new s2 -> new <> t ->
  exists s', resched_to s t new s' /\ kinv ∅ None ({[new]} ∪ Y) s' /\ locked s' /\
    resched_tail (ks_cpu s) t new (put_thread new (set_t_state THREAD_RUNNING thn) s2)
    = Switch t new s' (fun s'' => Ret tt s'').
Proof.
  intros I Hpc Et Hl Hi Ht Hs Hn Hp Hne.
  assert (currents s !! ks_cpu s = Some t) as Hc by (apply lookup_fmap_Some; eauto).
  assert (timer_queues s !! ks_cpu s = Some (pc_timer_queue pc)) as Htq
    by (unfold timer_queues; by rewrite lookup_fmap, Hpc).
  destruct (picked_transit ∅ s _ new s2 (ki_sched _ _ _ _ I)) as (_ & thn0 & Hn0 & Hsn & _);
    [by eauto|done|]. simplify_eq.
  pose proof (timers_run _ _ _ _ new thn (set_t_state THREAD_RUNNING thn)
    (ki_timers _ _ _ _ I) Hn Hsn eq_refl) as T.
  destruct (sw_alive _ _ _ _ _ _ _ (ki_sched _ _ _ _ I) _ th Ht) as [_ Hpad].
  pose proof (picked_frame _ _ _ _ Hp) as (rq & bm & E2).
  destruct (resched_tail_run ∅ ({[new]} ∪ Y)
    (<[new := set_t_state THREAD_RUNNING thn]> (ks_threads s)) (pc_current pc) new th
    (set_t_state THREAD_RUNNING thn) pc (put_thread new (set_t_state THREAD_RUNNING thn) s2) Hne)
    as (tho' & thn' & tms & q & mp & st' & tr & Eo & Hso & _ & En & Hsn' & Hcn & T' & Hd & Hq & Hqi & E);
    [rewrite ?E2; try done..|].
  { kcbn. by rewrite lookup_insert_ne. }
  { apply lookup_insert_eq. }
  { kcbn. by apply (ki_preempt _ _ _ _ I (ks_cpu s) _ (pc_current pc)). }
  rewrite E2 in E, T', Hd, Hcn, Hq, Hqi. kcbn in E. kcbn in T'. kcbn in Hq. kcbn in Hqi. kcbn in Hcn.
  rewrite (insert_shadow _ new) in E by done.
  assert (core_same thn thn') as En' by (etransitivity; [|exact En]; done).
  rewrite E2. eexists. split_and!; [| | |exact E].
  - split; try done.
    + intros c Hc'. unfold cpu_view. kcbn. by rewrite lookup_insert_ne.
    + unfold currents. kcbn. by rewrite fmap_insert.
    + by apply (resched_to_threads s _ (pc_current pc) new th thn tho' thn').
    + intros c i q' Hi' Hq'. unfold timer_queues. kcbn. rewrite fmap_insert. kcbn.
      destruct (decide (c = ks_cpu s)) as [->|].
      * exists q. rewrite lookup_insert_eq. simplify_eq. auto.
      * exists q'. by rewrite lookup_insert_ne.
    + by eapply picked_picks.
  - rewrite E2 in Hp. eapply kinv_switched; [done|done|exact Hp|try done..].
    + unfold currents. kcbn. by rewrite fmap_insert.
    + unfold timer_queues. kcbn. by rewrite fmap_insert.
    + unfold timer_queues in *. kcbn. by rewrite fmap_insert.
  - split; [done|]. eexists. kcbn. by rewrite lookup_insert_eq.
Qed.

Lemma resched_to_stats s t new s' pc st :
  ks_percpu s !! ks_cpu s = Some pc ->
  resched_to (put_cpu (set_pc_stats st pc) s) t new s' -> resched_to s t new s'.
Proof.
  intros Hpc []. split; try done.
  - intros c Hc. rewrite rt_others0 by done. unfold cpu_view, put_cpu. kcbn. by rewrite lookup_insert_ne.
  - rewrite rt_cur0, currents_put_cpu. kcbn. by rewrite insert_insert_eq.
  - intros c i q Hi Hq. apply (rt_timers0 c i q Hi). rewrite <- Hq.
    unfold timer_queues, put_cpu. kcbn. rewrite fmap_insert. rewrite insert_id; [done|].
    by rewrite lookup_fmap, Hpc.
Qed.

Lemma thread_resched_run Y s t th :
  kinv ∅ (Some (ks_cpu s)) Y s -> locked s -> currents s !! ks_cpu s = Some t ->
  ks_threads s !! t = Some th -> t_state th <> THREAD_RUNNING ->
  exists new s', resched_to s t new s' /\ kinv ∅ None ({[new]} ∪ Y) s' /\ locked s' /\
    thread_resched s = resched_outcome t new s'.
Proof.
  intros I [Hl (pc & Hpc & Hi)] Hc Ht Hs.
  assert (pc_current pc = t) as Et.
  { apply lookup_fmap_Some in Hc as (? & ? & ?). congruence. }
  change (runs thread_resched s (fun o => exists new s', resched_to s t new s' /\
    kinv ∅ None ({[new]} ∪ Y) s' /\ locked s' /\ o = resched_outcome t new s')).
  unfold thread_resched, assert_locked. ksteps. rewrite Et. ksteps.
  pose proof (kinv_stats _ _ _ _ pc st Hpc I) as I1.
  apply runs_step. eapply rets_mono; [eapply get_top_thread_run, I1|]. intros new s2 Hp.
  destruct (picked_transit ∅ _ _ new s2 (ki_sched _ _ _ _ I1)) as (_ & thn & Hn & _);
    [rewrite currents_put_cpu; kcbn; rewrite lookup_insert_eq; by eexists|done|].
  assert (ks_threads s2 !! new = Some thn) as Hn2
    by (pose proof (picked_frame _ _ _ _ Hp) as (? & ? & ->); done).
  ksteps. unfold resched_outcome. destruct (Z.eqb_spec new t) as [->|Hne].
  - destruct (resched_same_case Y (put_cpu (set_pc_stats st pc) s) s2 t thn (set_pc_stats st pc) I1) as [Hr I2];
      [apply lookup_insert_eq|done..|].
    exists t. eexists. rewrite decide_True by done. split_and!; [|exact I2| |reflexivity].
    + by eapply resched_to_stats.
    + pose proof (picked_frame _ _ _ _ Hp) as (? & ? & ->).
      split; [done|]. eexists. kcbn. by rewrite lookup_insert_eq.
  - destruct (resched_other_case Y (put_cpu (set_pc_stats st pc) s) s2 t new th thn (set_pc_stats st pc) I1) as (s' & Hr & I2 & Hl' & E);
      [apply lookup_insert_eq|done..|].
    exists new, s'. rewrite decide_False by done. split_and!; [by eapply resched_to_stats|done..|].
    exact E.
Qed.
End resched.
