(* ===== verification/SchedOps.v ===== *)
(** * The operations of the scheduler

    For each operation of thread.c: run in a state that satisfies the
    invariant it faults nowhere, and every point where it gives up the cpu or
    the lock, and its return, satisfies the invariant again. *)
From S2P Require Import Prelude KState Timer Thread WaitQueue ThreadLife Logic SchedInv TimerInv SchedSpec.

(** ** What an operation leaves alone *)
Record frame (s s' : kstate) : Prop := {
  fr_cpu : ks_cpu s' = ks_cpu s;
  fr_others : forall c, c <> ks_cpu s -> cpu_view s' c = cpu_view s c;
  fr_cpus : forall c, is_Some (ks_percpu s !! c) <-> is_Some (ks_percpu s' !! c);
  fr_thread_list : ks_thread_list s' = ks_thread_list s;
  fr_objs : ks_objs s' = ks_objs s;
  fr_write_ports : ks_write_port_list s' = ks_write_port_list s;
  fr_allocs : ks_allocs s' = ks_allocs s;
  fr_now : ks_now s' = ks_now s;
  fr_obj_timers : forall a, ks_timers s' !! TmObj a = ks_timers s !! TmObj a;
  fr_threads : forall u, is_Some (ks_threads s !! u) <-> is_Some (ks_threads s' !! u);
  fr_wait_queues : forall w, is_Some (ks_wait_queues s !! w) <-> is_Some (ks_wait_queues s' !! w);
}.

#[export] Instance frame_preorder : PreOrder frame.
Proof.
  split; [done|]. intros s1 s2 s3 [] []. split; try congruence; try (intros; etransitivity; eauto; fail).
  intros c Hc. rewrite fr_others1 by congruence. auto.
Qed.

(** [frame] between updated states *)
Ltac kframe :=
  split; kcbn; try done; intros;
  repeat match goal with
  | H : _ !! _ = Some _ |- _ => apply mk_is_Some in H
  end;
  unfold cpu_view; kcbn; rewrite ?lookup_fmap, ?lookup_insert_ne by done;
  rewrite ?lookup_insert_is_Some', ?lookup_fmap, ?fmap_is_Some; try done;
  try (match goal with |- context [ks_percpu ?s !! ?c] => by destruct (ks_percpu s !! c) end); naive_solver.

Lemma resched_frame s t new s' :
  is_Some (currents s !! ks_cpu s) -> resched_to s t new s' -> frame s s'.
Proof.
  intros Hc []. split; try done; [|intros a; by apply rt_timer|..].
  - intros c. assert (forall s, is_Some (currents s !! c) <-> is_Some (ks_percpu s !! c)) as E.
    { intros s0. unfold currents. by rewrite lookup_fmap, fmap_is_Some. }
    rewrite <- !E, rt_cur. rewrite lookup_insert_is_Some'. naive_solver.
  - intros u. specialize (rt_threads u). repeat case_match; split; try done; by intros [].
  - intros w. by rewrite rt_wait_queues.
Qed.

(** ** Who runs *)
(** Thread [t] runs and the lock is free. *)
Record at_rest (t : tid) (s : kstate) : Prop := {
  ar_inv : kinv ∅ None ∅ s;
  ar_lock : ks_thread_lock s = false;
  ar_cur : currents s !! ks_cpu s = Some t;
}.

(** Code of the current thread [t] inside the lock. *)
Record in_lock (X : gset tid) (H : option Z) (Y : gset tid) (t : tid) (s : kstate) : Prop := {
  il_inv : kinv X H Y s;
  il_locked : locked s;
  il_cur : currents s !! ks_cpu s = Some t;
}.

Lemma current_thread X s t c :
  swf X None s -> currents s !! c = Some t ->
  exists th, ks_threads s !! t = Some th /\ t_state th = THREAD_RUNNING /\ t_curr_cpu th = c /\
    t_magic th = THREAD_MAGIC /\ t ∉ X.
Proof.
  intros W Hc. destruct (sw_cur _ _ _ _ _ _ _ W c t Hc) as (HX & th & Ht & Hs & Hcc); [done|].
  destruct (sw_alive _ _ _ _ _ _ _ W t th Ht) as [Ha _].
  destruct Ha as [Hm _]; [congruence|]. eauto 10.
Qed.

Lemma current_pc s t : currents s !! ks_cpu s = Some t ->
  exists pc, ks_percpu s !! ks_cpu s = Some pc /\ pc_current pc = t.
Proof. intros (pc & ? & ?)%lookup_fmap_Some. eauto. Qed.

(** ** Lock and unlock *)
Section lock.
Context `{KConfig}.

Lemma in_lock_ext X Ho Y t s s' :
  kview s' = kview s -> ks_cpu s' = ks_cpu s -> locked s' ->
  in_lock X Ho Y t s -> in_lock X Ho Y t s'.
Proof.
  intros E Ec Hl []. split; [by eapply kinv_ext|done|].
  rewrite Ec. by rewrite (kview_currents _ _ E).
Qed.

Lemma in_lock_trace X Ho Y t s tr : in_lock X Ho Y t s -> in_lock X Ho Y t (set_ks_trace tr s).
Proof. intros L. by apply (in_lock_ext X Ho Y t s); [| |apply L|]. Qed.

Lemma THREAD_LOCK_run t s :
  at_rest t s ->
  rets THREAD_LOCK s (fun saved s' => in_lock ∅ None ∅ t s' /\ frame s s' /\ kview s' = kview s /\
    cpu_view s (ks_cpu s) = Some (t, saved)).
Proof.
  intros [I Hl Hc]. destruct (current_pc _ _ Hc) as (pc & Hpc & Et).
  unfold THREAD_LOCK. ksteps. rewrite Hl. ksteps.
  assert (kview (set_ks_thread_lock true (put_cpu (set_pc_ints_disabled true pc) s)) = kview s) as E.
  { rewrite <- (kview_put_cpu s pc (set_pc_ints_disabled true pc)) by done. done. }
  split_and!; [|kframe|done|unfold cpu_view; by rewrite Hpc, <- Et]. split.
  - by eapply kinv_ext.
  - split; [done|]. eexists. kcbn. by rewrite lookup_insert_eq.
  - by rewrite (kview_currents _ _ E).
Qed.

(** Releasing the lock: the point where others may run. *)
Lemma THREAD_UNLOCK_run t s saved :
  in_lock ∅ None ∅ t s ->
  exists s', THREAD_UNLOCK saved s = Unlocked s' (fun s'' => Ret tt s'') /\ at_rest t s' /\
    frame s s' /\ kview s' = kview s /\ cpu_view s' (ks_cpu s') = Some (t, saved).
Proof.
  intros [I Hl Hc]. destruct (current_pc _ _ Hc) as (pc & Hpc & Et).
  exists (put_cpu (set_pc_ints_disabled saved pc) (set_ks_thread_lock false s)).
  assert (kview (put_cpu (set_pc_ints_disabled saved pc) (set_ks_thread_lock false s)) = kview s) as E.
  { by rewrite (kview_put_cpu _ pc) by done. }
  split_and!; [|split|kframe|done|unfold cpu_view; kcbn; rewrite lookup_insert_eq; cbn; by rewrite Et].
  - unfold THREAD_UNLOCK. change (runs (kmod (set_ks_thread_lock false);;
      mod_cpu (set_pc_ints_disabled saved);; unlocked_point) s (fun o => o =
      Unlocked (put_cpu (set_pc_ints_disabled saved pc) (set_ks_thread_lock false s))
        (fun s'' => Ret tt s''))).
    ksteps. done.
  - by eapply kinv_ext.
  - done.
  - by rewrite (kview_currents _ _ E).
Qed.
End lock.

(** ** Moving threads *)
Section queue.
Context `{KConfig}.

Lemma off_queues_not_in_list t s :
  off_queues t (ks_run_queue s) (ks_wait_queues s) -> queue_node_in_list s t = false.
Proof.
  intros [Hr Hw]. unfold queue_node_in_list. apply orb_false_iff. split.
  - apply not_true_is_false. rewrite existsb_exists. intros (q & Hq & Hin).
    bool_cases. apply list_elem_of_In, list_elem_of_lookup in Hq as [i Hq]. by eapply Hr.
  - apply bool_decide_false. intros (w & q & Hq & Hin). by eapply Hw.
Qed.

(** Thread [t], ready and in transit, is put on its run queue. *)
Lemma kinv_enqueue X Ho Y t th q q' s :
  kinv ({[t]} ∪ X) Ho Y s -> t ∉ X -> ks_threads s !! t = Some th -> t_state th = THREAD_READY ->
  thread_is_idle th = false -> ks_run_queue s !! Z.to_nat (t_priority th) = Some q ->
  q' ≡ₚ t :: q ->
  kinv X Ho Y (set_ks_run_queue_bitmap (Z.lor (ks_run_queue_bitmap s) (BIT (t_priority th)))
                 (put_run_queue (t_priority th) q' s)).
Proof.
  intros [W T P R] HX Ht Hs Hi Hq Hq'. split; [|done..]. unfold swf. kcbn.
  by eapply sched_enqueue.
Qed.

Lemma rets_run_queue X Ho s t th P :
  swf X Ho s -> ks_threads s !! t = Some th -> t_state th = THREAD_READY ->
  (forall q, ks_run_queue s !! Z.to_nat (t_priority th) = Some q -> P q s) ->
  rets (get_run_queue (t_priority th)) s P.
Proof.
  intros W Ht Hs HP. destruct (sw_alive _ _ _ _ _ _ _ W t th Ht) as [Ha _].
  destruct Ha as [_ Hp]; [congruence|]. unfold NUM_PRIORITIES in Hp.
  destruct (lookup_lt_is_Some_2 (ks_run_queue s) (Z.to_nat (t_priority th))) as [q Hq].
  { rewrite (sw_rq_len _ _ _ _ _ _ _ W). lia. }
  replace (t_priority th) with (Z.of_nat (Z.to_nat (t_priority th))) by lia.
  eapply rets_get_run_queue; [done..|]. by apply HP.
Qed.

(** What [insert_in_run_queue_head] and [_tail] do. *)
Definition enqueued (at_head : bool) (t : tid) (th : thread_t) (s s' : kstate) : Prop :=
  exists q, ks_run_queue s !! Z.to_nat (t_priority th) = Some q /\
    s' = set_ks_run_queue_bitmap (Z.lor (ks_run_queue_bitmap s) (BIT (t_priority th)))
           (put_run_queue (t_priority th) (if at_head then t :: q else q ++ [t]) s).

Lemma enqueued_in_lock X Ho Y at_head cur t th s s' :
  in_lock ({[t]} ∪ X) Ho Y cur s -> t ∉ X -> ks_threads s !! t = Some th ->
  t_state th = THREAD_READY -> thread_is_idle th = false -> enqueued at_head t th s s' ->
  in_lock X Ho Y cur s' /\ frame s s'.
Proof.
  intros [I Hl Hc] HX Ht Hs Hi (q & Hq & ->). split; [|done]. split; [|done..].
  eapply kinv_enqueue; [done..|]. destruct at_head; [done|].
  by rewrite Permutation_app_comm.
Qed.

Lemma insert_run X Ho Y (at_head : bool) cur t th s :
  in_lock ({[t]} ∪ X) Ho Y cur s -> t ∉ X -> ks_threads s !! t = Some th ->
  t_state th = THREAD_READY -> thread_is_idle th = false ->
  rets (if at_head then insert_in_run_queue_head t else insert_in_run_queue_tail t) s
    (fun _ s' => enqueued at_head t th s s' /\ in_lock X Ho Y cur s' /\ frame s s').
Proof.
  intros L HX Ht Hs Hi. pose proof L as [I [Hl (pc & Hpc & Hpi)] Hc].
  destruct (sw_alive _ _ _ _ _ _ _ (ki_sched _ _ _ _ I) t th Ht) as [Ha _].
  destruct Ha as [Hm _]; [congruence|].
  assert (queue_node_in_list s t = false) as Hq.
  { apply off_queues_not_in_list. eapply sched_in_transit; [apply I|set_solver]. }
  unfold insert_in_run_queue_head, insert_in_run_queue_tail, assert_locked.
  destruct at_head; ksteps; (eapply rets_run_queue; [apply I|done..|]); intros q Hqq; ksteps.
  - assert (enqueued true t th s (set_ks_run_queue_bitmap (Z.lor (ks_run_queue_bitmap s) (BIT (t_priority th)))
           (put_run_queue (t_priority th) (t :: q) s))) as E by (by exists q).
    split; [exact E|]. by eapply enqueued_in_lock.
  - assert (enqueued false t th s (set_ks_run_queue_bitmap (Z.lor (ks_run_queue_bitmap s) (BIT (t_priority th)))
           (put_run_queue (t_priority th) (q ++ [t]) s))) as E by (by exists q).
    split; [exact E|]. by eapply enqueued_in_lock.
Qed.

Lemma mp_reschedule_run target flags s :
  rets (mp_reschedule target flags) s (fun _ s' => exists tr, s' = set_ks_trace tr s).
Proof.
  unfold mp_reschedule. ksteps. case_match; ksteps; [|by eexists].
  exists (ks_trace s). by destruct s.
Qed.

Lemma wakeup_cpu_for_thread_run t th s :
  ks_threads s !! t = Some th ->
  rets (wakeup_cpu_for_thread t) s (fun _ s' => exists tr, s' = set_ks_trace tr s).
Proof. intros Ht. unfold wakeup_cpu_for_thread. ksteps. case_match; apply mp_reschedule_run. Qed.

(** The current thread starts giving up the cpu. *)
Lemma kinv_give_up X Y t s :
  kinv X None Y s -> currents s !! ks_cpu s = Some t -> kinv ({[t]} ∪ X) (Some (ks_cpu s)) Y s.
Proof. intros [W T P R] Hc. split; try done. by apply sched_give_up. Qed.

(** A thread in transit is updated. *)
Lemma kinv_put_transit X Ho Y t th th' s :
  kinv X Ho Y s -> t ∈ X -> ks_threads s !! t = Some th -> transit_ok th th' ->
  (forall tm, stack_timer_ok Y t tm th -> stack_timer_ok Y t tm th') ->
  t_flags th' = t_flags th ->
  kinv X Ho Y (put_thread t th' s).
Proof.
  intros [W T P R] HX Ht Hok Htm Hf. split.
  - by eapply sched_put_transit.
  - eapply timers_put_thread; [done..|auto].
  - intros c q u thu Hq Hu Hthu. kcbn in Hthu. apply lookup_insert_Some in Hthu as [[<- <-]|[??]].
    + rewrite (P c q t th) by done. unfold thread_is_real_time_or_idle. by rewrite Hf.
    + by apply (P c q u).
  - intros u Hu. apply R. kcbn in Hu. apply lookup_insert_is_Some' in Hu as [<-|]; [by eexists|done].
Qed.

Lemma kinv_rest X Ho Y t th s :
  kinv ({[t]} ∪ X) Ho Y s -> ks_threads s !! t = Some th -> resting th -> kinv X Ho Y s.
Proof. intros [W T P R] Ht Hr. split; try done. by eapply sched_rest. Qed.
End queue.

(** ** Operations that leave the wait queues alone *)
Definition stack_queued (s : kstate) (t : tid) : Prop :=
  exists c q, timer_queues s !! c = Some q /\ TmStack t ∈ q.

Record quiet (s s' : kstate) : Prop := {
  qu_frame : frame s s';
  qu_wait_queues : ks_wait_queues s' = ks_wait_queues s;
  qu_block_ret : forall u, t_wait_queue_block_ret <$> ks_threads s' !! u
                         = t_wait_queue_block_ret <$> ks_threads s !! u;
  qu_stack : forall u, stack_queued s' u <-> stack_queued s u;
  qu_timer : forall u, ks_timers s' !! TmStack u = ks_timers s !! TmStack u;
}.

#[export] Instance quiet_preorder : PreOrder quiet.
Proof.
  split; [done|]. intros s1 s2 s3 [] []. split; [by etransitivity|congruence| | |].
  - intros u. by rewrite qu_block_ret1.
  - intros u. by rewrite qu_stack1.
  - intros u. by rewrite qu_timer1.
Qed.

Lemma kview_quiet s s' : frame s s' -> kview s' = kview s -> quiet s s'.
Proof.
  unfold kview. intros F E. injection E as E1 E2 E3 E4 E5 E6 E7.
  split; [done..| | |]; unfold stack_queued; rewrite ?E1, ?E5, ?E7; done.
Qed.

Lemma timer_queues_lookup s c : is_Some (timer_queues s !! c) <-> is_Some (ks_percpu s !! c).
Proof. unfold timer_queues. by rewrite lookup_fmap, fmap_is_Some. Qed.

Lemma resched_quiet s t new s' :
  is_Some (currents s !! ks_cpu s) -> resched_to s t new s' -> quiet s s'.
Proof.
  intros Hc Hr. pose proof (resched_frame _ _ _ _ Hc Hr) as F. destruct Hr. split; [done..| | |].
  - intros u. specialize (rt_threads u).
    destruct (ks_threads s !! u), (ks_threads s' !! u); try done.
    destruct rt_threads as [(_ & _ & _ & _ & _ & E & _)%core_same_fields _]. cbn. by rewrite E.
  - intros u. split; intros (c & q & Hq & Hin).
    + destruct (proj2 (timer_queues_lookup s c)) as [q0 Hq0].
      { apply F, timer_queues_lookup. eauto. }
      destruct (rt_timers c (TmStack u) q0) as (q' & Hq' & Hi); [done..|].
      simplify_eq. exists c, q0. split; [done|]. by apply Hi.
    + destruct (rt_timers c (TmStack u) q) as (q' & Hq' & Hi); [done..|].
      exists c, q'. split; [done|]. by apply Hi.
  - intros u. by apply rt_timer.
Qed.

Section ops.
Context `{KConfig}.

(** [thread_resched], in the form the operations use it. *)
Lemma resched_run Y t th s :
  in_lock ∅ (Some (ks_cpu s)) Y t s -> ks_threads s !! t = Some th -> t_state th <> THREAD_RUNNING ->
  exists new s', resched_to s t new s' /\ in_lock ∅ None ({[new]} ∪ Y) new s' /\ quiet s s' /\
    thread_resched s = resched_outcome t new s'.
Proof.
  intros [I Hl Hc] Ht Hs.
  destruct (thread_resched_run Y s t th) as (new & s' & Hr & I' & Hl' & E); [done..|].
  assert (is_Some (currents s !! ks_cpu s)) as Hsome by eauto.
  exists new, s'. split_and!; [done| |by eapply resched_quiet|done].
  split; [done..|]. destruct Hr. rewrite rt_cpu, rt_cur. apply lookup_insert_eq.
Qed.

(** A thread without a timer need not be in [Y]. *)
Lemma kinv_no_timer X Ho Y t s :
  kinv X Ho ({[t]} ∪ Y) s -> ~ stack_queued s t -> kinv X Ho Y s.
Proof.
  intros [W T P R] Hn. split; try done. eapply timers_threads; [exact T|].
  intros c q u tm Hq Hin Hu Hok. destruct (Hok Hu) as (th & Ht & Hs). exists th. split; [done|].
  unfold stack_timer_ok in *. destruct (decide (u = t)) as [->|]; [|set_solver].
  destruct Hn. by exists c, q.
Qed.

Lemma kinv_running_no_timer X Ho t th s :
  kinv X Ho ∅ s -> ks_threads s !! t = Some th -> t_state th = THREAD_RUNNING -> ~ stack_queued s t.
Proof.
  intros [W T P R] Ht Hs (c & q & Hq & Hin).
  destruct (tw_stack _ _ _ _ _ T c q t Hq Hin) as (tm & _ & _ & _ & Hok).
  destruct Hok as (th' & ? & Hok); [set_solver|]. simplify_eq.
  unfold stack_timer_ok in Hok. rewrite Hs in Hok. destruct Hok as [[_ ?]|[_ [?|[?|[_ ?]]]]]; set_solver.
Qed.

Lemma enqueued_quiet at_head t th s s' : enqueued at_head t th s s' -> quiet s s'.
Proof. by intros (q & _ & ->). Qed.

(** The current thread leaves the running state. *)
Lemma give_up_run X t th th' s :
  in_lock X None ∅ t s -> ks_threads s !! t = Some th -> transit_ok th th' ->
  t_flags th' = t_flags th ->
  in_lock ({[t]} ∪ X) (Some (ks_cpu s)) ∅ t (put_thread t th' s).
Proof.
  intros [I Hl Hc] Ht Hok Hf. split; [|done..].
  destruct (current_thread _ _ _ _ (ki_sched _ _ _ _ I) Hc) as (th0 & ? & Hs & _). simplify_eq.
  eapply kinv_put_transit; [by apply kinv_give_up|set_solver|done..| |done].
  intros tm Hok'. unfold stack_timer_ok in Hok'. rewrite Hs in Hok'.
  destruct Hok' as [[_ ?]|[_ [?|[?|[_ ?]]]]]; set_solver.
Qed.

Lemma put_thread_quiet t th th' s :
  ks_threads s !! t = Some th -> t_wait_queue_block_ret th' = t_wait_queue_block_ret th ->
  quiet s (put_thread t th' s).
Proof.
  intros Ht E. split; [kframe|done| |done|done]. intros u. kcbn.
  destruct (decide (u = t)) as [->|]; [|by rewrite lookup_insert_ne].
  rewrite lookup_insert_eq, Ht. cbn. by rewrite E.
Qed.

Lemma transit_ok_ready X Ho s t th th' :
  swf X Ho s -> ks_threads s !! t = Some th -> t_state th <> THREAD_DEATH ->
  core_same th th' -> t_state th' = THREAD_READY -> t_curr_cpu th' = t_curr_cpu th ->
  transit_ok th th'.
Proof.
  intros W Ht Hs E Hs' Hcc. destruct (sw_alive _ _ _ _ _ _ _ W t th Ht) as [Ha Hp].
  pose proof (core_same_idle _ _ E) as Ei.
  apply core_same_fields in E as (Em & Ep & Ef & En & Eb & _ & Epad).
  split_and!; [|unfold pad_ok; by rewrite Epad|done..|by left].
  unfold alive_ok. rewrite Em, Ep. intros _. by apply Ha.
Qed.

(** The current thread becomes ready and is put on its run queue, unless it is
    the idle thread. *)
Lemma requeue_run X t th th' (at_head : bool) s :
  in_lock X None ∅ t s -> ks_threads s !! t = Some th -> core_same th th' ->
  t_state th' = THREAD_READY -> t_curr_cpu th' = t_curr_cpu th ->
  rets (kwhen (negb (thread_is_idle th))
          (if at_head then insert_in_run_queue_head t else insert_in_run_queue_tail t))
    (put_thread t th' s)
    (fun _ s' => in_lock X (Some (ks_cpu s')) ∅ t s' /\ quiet s s' /\
       ks_threads s' = <[t := th']> (ks_threads s)).
Proof.
  intros L Ht E Hs Hcc. pose proof L as [I Hl Hc].
  destruct (current_thread _ _ _ _ (ki_sched _ _ _ _ I) Hc) as (th0 & ? & Hr & _ & _ & HtX). simplify_eq.
  assert (in_lock ({[t]} ∪ X) (Some (ks_cpu s)) ∅ t (put_thread t th' s)) as L'.
  { eapply give_up_run; [done..| |].
    - eapply transit_ok_ready; [apply I|done..|congruence|done|done|done].
    - by apply core_same_fields in E as (_ & _ & ? & _). }
  assert (quiet s (put_thread t th' s)) as Hq.
  { eapply put_thread_quiet; [done|]. by apply core_same_fields in E as (_ & _ & _ & _ & _ & ? & _). }
  assert (ks_threads (put_thread t th' s) !! t = Some th') as Ht' by apply lookup_insert_eq.
  pose proof (core_same_idle _ _ E) as Ei. apply rets_kwhen; intros Hi; bool_cases.
  - eapply rets_mono; [eapply insert_run; [done|done|done|done|congruence]|].
    intros _ s' (Henq & L2 & F). split_and!; [by rewrite (fr_cpu _ _ F)| |].
    + etransitivity; [done|]. by eapply enqueued_quiet.
    + by destruct Henq as (q & _ & ->).
  - split_and!; [|done..]. destruct L' as [I' ??]. split; [|done..].
    eapply kinv_rest; [done..|]. right; right; right. split; [done|congruence].
Qed.

(** ** thread_yield and thread_preempt *)

(** The form of an operation that gives up the cpu once, then unlocks. *)
Definition yields (t : tid) (s : kstate) (m : K unit) : Prop :=
  runs m s (fun o => exists new s' saved, cpu_view s (ks_cpu s) = Some (t, saved) /\
    in_lock ∅ None {[new]} new s' /\ quiet s s' /\ ~ stack_queued s' t /\
    o = obind (resched_outcome t new s') (fun _ => THREAD_UNLOCK saved)).

Lemma in_lock_threads X Y t s : in_lock X None Y t s ->
  exists th, ks_threads s !! t = Some th /\ t_state th = THREAD_RUNNING /\ t_magic th = THREAD_MAGIC.
Proof.
  intros [I _ Hc]. destruct (current_thread _ _ _ _ (ki_sched _ _ _ _ I) Hc) as (th & ? & ? & _ & ? & _).
  eauto.
Qed.

(** The common end: the current thread has been requeued. *)
Lemma requeued_resched t th s0 s saved :
  in_lock ∅ (Some (ks_cpu s)) ∅ t s -> quiet s0 s -> ~ stack_queued s0 t ->
  ks_threads s !! t = Some th -> t_state th = THREAD_READY -> cpu_view s0 (ks_cpu s0) = Some (t, saved) ->
  runs (thread_resched;; THREAD_UNLOCK saved) s (fun o => exists new s' saved, cpu_view s0 (ks_cpu s0) = Some (t, saved) /\
    in_lock ∅ None {[new]} new s' /\ quiet s0 s' /\ ~ stack_queued s' t /\
    o = obind (resched_outcome t new s') (fun _ => THREAD_UNLOCK saved)).
Proof.
  intros L Q Hn Ht Hs Sv. destruct (resched_run ∅ t th s) as (new & s' & _ & L' & Q' & E);
    [done..|congruence|].
  assert (quiet s0 s') as Q2 by (by etransitivity).
  exists new, s', saved.
  split_and!; [done|by rewrite union_empty_r_L in L'|done|by rewrite (qu_stack _ _ Q2)|].
  unfold mbind, K_bind. by rewrite E.
Qed.

Lemma in_lock_stats X Ho Y t s pc st :
  ks_percpu s !! ks_cpu s = Some pc -> in_lock X Ho Y t s ->
  in_lock X Ho Y t (put_cpu (set_pc_stats st pc) s).
Proof.
  intros Hpc L. pose proof L as [I [Hl (pc' & ? & Hi)] Hc]. simplify_eq.
  eapply in_lock_ext; [by eapply kview_put_cpu|done| |done].
  split; [done|]. eexists. kcbn. by rewrite lookup_insert_eq.
Qed.

Lemma put_cpu_quiet s pc pc' :
  ks_percpu s !! ks_cpu s = Some pc -> pc_current pc' = pc_current pc ->
  pc_timer_queue pc' = pc_timer_queue pc -> quiet s (put_cpu pc' s).
Proof. intros Hpc E1 E2. apply kview_quiet; [kframe|by eapply kview_put_cpu]. Qed.

Lemma thread_yield_run t s : at_rest t s -> yields t s thread_yield.
Proof.
  intros A. pose proof A as [I Hl Hc].
  destruct (current_pc _ _ Hc) as (pc & Hpc & Et).
  destruct (current_thread _ _ _ _ (ki_sched _ _ _ _ I) Hc) as (th & Ht & Hs & Hcc & Hm & _).
  pose proof (kinv_running_no_timer _ _ _ _ _ I Ht Hs) as Hnt.
  unfold yields, thread_yield. ksteps. rewrite Et. ksteps.
  apply runs_step. eapply rets_mono; [by apply THREAD_LOCK_run|]. intros saved s1 (L & F & V & Sv).
  destruct (current_pc _ _ (il_cur _ _ _ _ _ L)) as (pc1 & Hpc1 & _).
  assert (ks_threads s1 !! t = Some th) as Ht1 by (unfold kview in V; congruence).
  ksteps.
  apply runs_step. eapply rets_mono; [eapply (requeue_run ∅ t th _ false); [by apply in_lock_stats|done..]|].
  intros _ s2 (L2 & Q2 & Ht2).
  eapply (requeued_resched t _ s); [done| |done|rewrite Ht2; apply lookup_insert_eq|done|done].
  etransitivity; [by apply kview_quiet|]. etransitivity; [|exact Q2]. by eapply put_cpu_quiet.
Qed.

Lemma thread_preempt_run t s : at_rest t s -> yields t s thread_preempt.
Proof.
  intros A. pose proof A as [I Hl Hc].
  destruct (current_pc _ _ Hc) as (pc & Hpc & Et).
  destruct (current_thread _ _ _ _ (ki_sched _ _ _ _ I) Hc) as (th & Ht & Hs & Hcc & Hm & _).
  pose proof (kinv_running_no_timer _ _ _ _ _ I Ht Hs) as Hnt.
  unfold yields, thread_preempt. ksteps. rewrite Et. ksteps.
  apply runs_step.
  apply (rets_mono _ _ (fun _ s' => at_rest t s' /\ quiet s s' /\ ks_threads s' = ks_threads s /\
    cpu_view s' (ks_cpu s') = cpu_view s (ks_cpu s))).
  { apply rets_kwhen; intros _; [|done]. ksteps.
    split_and!; [|by eapply put_cpu_quiet|done|unfold cpu_view; kcbn; by rewrite lookup_insert_eq, Hpc].
    split; [by apply kinv_stats|done|]. rewrite currents_put_cpu. kcbn.
    by rewrite lookup_insert_eq, Et. }
  intros _ s0 (A0 & Q0 & Eth0 & Ev0).
  apply runs_step. eapply rets_mono; [by apply THREAD_LOCK_run|]. intros saved s1 (L & F & V & Sv).
  assert (ks_threads s1 !! t = Some th) as Ht1 by (unfold kview in V; congruence).
  ksteps.
  set (at_head := 0 <? t_remaining_quantum th).
  apply runs_step. eapply rets_mono; [eapply (requeue_run ∅ t th _ at_head); done|].
  intros _ s2 (L2 & Q2 & Ht2).
  eapply (requeued_resched t _ s); [done| |done|rewrite Ht2; apply lookup_insert_eq|done|congruence].
  etransitivity; [done|]. etransitivity; [by apply kview_quiet|done].
Qed.

Lemma thread_set_priority_run t th prio s :
  at_rest t s -> ks_threads s !! t = Some th -> thread_is_idle th = false ->
  yields t s (thread_set_priority prio).
Proof.
  intros A Ht Hi. pose proof A as [I Hl Hc].
  destruct (current_pc _ _ Hc) as (pc & Hpc & Et).
  destruct (current_thread _ _ _ _ (ki_sched _ _ _ _ I) Hc) as (? & ? & Hs & Hcc & Hm & _). simplify_eq.
  pose proof (kinv_running_no_timer _ _ _ _ _ I Ht Hs) as Hnt.
  unfold yields, thread_set_priority. ksteps.
  apply runs_step. eapply rets_mono; [by apply THREAD_LOCK_run|]. intros saved s1 (L & F & V & Sv).
  assert (ks_threads s1 !! pc_current pc = Some th) as Ht1 by (unfold kview in V; congruence).
  set (p := if HIGHEST_PRIORITY <? (if prio <=? IDLE_PRIORITY then IDLE_PRIORITY + 1 else prio) then _ else _).
  assert (0 <= p < NUM_PRIORITIES) as Hp.
  { subst p. unfold HIGHEST_PRIORITY, IDLE_PRIORITY, LOWEST_PRIORITY, NUM_PRIORITIES.
    repeat case_match; bool_cases; lia. }
  clearbody p. ksteps.
  destruct (sw_alive _ _ _ _ _ _ _ (ki_sched _ _ _ _ I) _ _ Ht) as [Ha Hpad].
  match goal with |- runs _ (put_thread ?t ?th' ?s) _ =>
    replace (put_thread t th' s) with (put_thread t th' s1) end.
  2: { unfold put_thread. kcbn. by rewrite insert_insert_eq. }
  apply runs_step. eapply rets_mono.
  { eapply (insert_run ∅ _ _ true); [eapply give_up_run; [done..| |]|set_solver|apply lookup_insert_eq|done|done].
    - split_and!; try done. by left.
    - done. }
  intros _ s2 (E & L2 & F2).
  eapply (requeued_resched (pc_current pc) _ s); [by rewrite (fr_cpu _ _ F2)| |done| | |done].
  - etransitivity; [by apply kview_quiet|]. etransitivity; [|by eapply enqueued_quiet].
    by eapply put_thread_quiet.
  - destruct E as (q & _ & ->). kcbn. apply lookup_insert_eq.
  - done.
Qed.

(** ** Sleeping *)

(** What a stretch of code of thread [t] leaves alone of the timers of others. *)
Record timers_frame (t : tid) (s s' : kstate) : Prop := {
  tf_timer : forall u, u <> t -> ks_timers s' !! TmStack u = ks_timers s !! TmStack u;
  tf_stack : forall u, u <> t -> stack_queued s' u -> stack_queued s u;
}.

#[export] Instance timers_frame_preorder t : PreOrder (timers_frame t).
Proof. split; [done|]. intros s1 s2 s3 [] []. split; [|by eauto]. intros u Hu. rewrite tf_timer1; auto. Qed.

Lemma quiet_timers_frame t s s' : quiet s s' -> timers_frame t s s'.
Proof. intros [_ _ _ Q T]. split; intros u _; [apply T|apply Q]. Qed.

(** Setting the timer on the stack of the current thread [t], once [t] is in
    the state the callback expects. *)
Definition stack_timer_added (t : tid) (tm : timer_t) (q1 q2 : list timer_id) (tr : list kevent)
    (pc : percpu) (s : kstate) : kstate :=
  set_ks_trace tr (put_cpu (set_pc_timer_queue (q1 ++ TmStack t :: q2) pc)
    (put_timer (TmStack t) tm s)).

Lemma timer_queues_added t tm q1 q2 tr pc s :
  timer_queues (stack_timer_added t tm q1 q2 tr pc s)
  = <[ks_cpu s := q1 ++ TmStack t :: q2]> (timer_queues s).
Proof. unfold timer_queues, stack_timer_added. kcbn. by rewrite fmap_insert. Qed.

Lemma currents_added t tm q1 q2 tr pc s :
  ks_percpu s !! ks_cpu s = Some pc -> currents (stack_timer_added t tm q1 q2 tr pc s) = currents s.
Proof.
  intros Hpc. unfold currents, stack_timer_added. kcbn. rewrite fmap_insert. kcbn.
  apply insert_id. by rewrite lookup_fmap, Hpc.
Qed.

Lemma stack_timer_added_in_lock X Ho t th tm q1 q2 tr pc s :
  in_lock X Ho ∅ t s -> ks_threads s !! t = Some th -> ~ stack_queued s t ->
  ks_percpu s !! ks_cpu s = Some pc -> pc_timer_queue pc = q1 ++ q2 ->
  tm_magic tm = TIMER_MAGIC -> tm_arg tm = t -> tm_periodic_time tm = 0 ->
  stack_timer_ok ∅ t tm th ->
  in_lock X Ho ∅ t (stack_timer_added t tm q1 q2 tr pc s).
Proof.
  intros [I [Hl (pc' & Hpc' & Hpi)] Hc] Ht Hn Hpc Eq Hm Ha Hp Hok. pose proof I as [W T P R].
  assert (pc' = pc) as -> by congruence.
  assert (timer_queues s !! ks_cpu s = Some (q1 ++ q2)) as Hq
    by (unfold timer_queues; by rewrite lookup_fmap, Hpc, <- Eq).
  split; [split|split|].
  - unfold swf. by rewrite currents_added.
  - unfold twf. rewrite timer_queues_added. apply timers_set; try done.
    + intros c q Hcq Hin. apply Hn. by exists c, q.
    + split_and!; [done..|]. intros _. by exists th.
  - rewrite timer_queues_added, currents_added by done. intros c q u thu Hcq Hu Hthu.
    apply lookup_insert_Some in Hcq as [[<- <-]|[??]]; [|by apply (P c q u)].
    rewrite <- (P (ks_cpu s) (q1 ++ q2) u thu) by done. rewrite !elem_of_app, elem_of_cons. naive_solver.
  - done.
  - done.
  - eexists. unfold stack_timer_added. kcbn. by rewrite lookup_insert_eq.
  - by rewrite currents_added.
Qed.

Lemma stack_timer_added_frame t tm q1 q2 tr pc s :
  ks_percpu s !! ks_cpu s = Some pc -> pc_timer_queue pc = q1 ++ q2 ->
  frame s (stack_timer_added t tm q1 q2 tr pc s) /\
  timers_frame t s (stack_timer_added t tm q1 q2 tr pc s).
Proof.
  intros Hpc Eq. split; [unfold stack_timer_added; kframe|]. split.
  - intros u Hu. unfold stack_timer_added. kcbn. by rewrite lookup_insert_ne by congruence.
  - intros u Hu (c & q & Hq & Hin). rewrite timer_queues_added in Hq.
    apply lookup_insert_Some in Hq as [[<- <-]|[??]]; [|by exists c, q].
    exists (ks_cpu s), (q1 ++ q2). split; [unfold timer_queues; by rewrite lookup_fmap, Hpc, <- Eq|].
    rewrite elem_of_app, elem_of_cons in Hin. rewrite elem_of_app. naive_solver.
Qed.

(** Setting it, in any state of the thread. *)
Lemma stack_timer_set_run X Ho Y t tm delay cb pc s :
  kinv X Ho Y s -> ks_percpu s !! ks_cpu s = Some pc -> ~ stack_queued s t ->
  ks_timers s !! TmStack t = Some tm ->
  rets (timer_set_oneshot (TmStack t) delay cb t) s (fun _ s' => exists tm' q1 q2 tr,
    pc_timer_queue pc = q1 ++ q2 /\ s' = stack_timer_added t tm' q1 q2 tr pc s /\
    tm_magic tm' = TIMER_MAGIC /\ tm_arg tm' = t /\ tm_periodic_time tm' = 0 /\ tm_callback tm' = cb).
Proof.
  intros [W T P R] Hpc Hn Htm. pose proof (tw_magic _ _ _ _ _ T _ _ Htm) as Hm.
  unfold timer_set_oneshot. eapply rets_mono; [eapply timer_set_run; [done..| |]|].
  - apply not_timer_queued. intros c q Hcq Hin. apply Hn. by exists c, q.
  - intros i Hi. eapply (tw_queued _ _ _ _ _ T (ks_cpu s) (pc_timer_queue pc)); [|done].
    unfold timer_queues. by rewrite lookup_fmap, Hpc.
  - intros _ s' (q1 & q2 & tr & Eq & ->). by eexists _, q1, q2, tr.
Qed.

(** [timer_initialize] of the timer on the stack. *)
Definition stack_timer_init (t : tid) (s : kstate) : kstate :=
  put_timer (TmStack t) (Timer TIMER_MAGIC 0 0 NullCallback 0) s.

Lemma stack_timer_init_kinv X Ho Y t s :
  kinv X Ho Y s -> ~ stack_queued s t -> kinv X Ho Y (stack_timer_init t s).
Proof.
  intros [W T P R] Hn. split; try done. apply timers_init; [done..|].
  intros c q Hcq Hin. apply Hn. by exists c, q.
Qed.

Lemma stack_timer_init_frame t s :
  frame s (stack_timer_init t s) /\ timers_frame t s (stack_timer_init t s).
Proof.
  split; [unfold stack_timer_init; kframe|]. split; [|done]. intros u Hu. unfold stack_timer_init. kcbn.
  by rewrite lookup_insert_ne by congruence.
Qed.

(** A thread that is neither ready nor idle does not go on. *)
Lemma resched_not_self t new th s s' :
  swf ∅ (Some (ks_cpu s)) s -> resched_to s t new s' -> is_Some (currents s !! ks_cpu s) ->
  ks_threads s !! t = Some th -> t_state th <> THREAD_READY -> thread_is_idle th = false -> new <> t.
Proof.
  intros W Hr Hc Ht Hs Hi ->. destruct Hr.
  destruct rt_picked as [(i & (q1 & q2 & th' & Hq & _) & _)|[-> _]].
  - destruct (sw_rq _ _ _ _ _ _ _ W i _ t Hq) as (_ & ? & ? & ? & _); [set_solver|]. congruence.
  - destruct (sw_idle _ _ _ _ _ _ _ W _ Hc) as (? & ? & ? & _). congruence.
Qed.

(** The outcome of giving up the cpu for good: [t] is in no run queue. *)
Definition blocks {A} (t : tid) (s : kstate) (P : kstate -> Prop) (k : K A) (o : outcome A) : Prop :=
  exists new s', new <> t /\ in_lock ∅ None {[new]} new s' /\ quiet s s' /\ P s' /\
    o = Switch t new s' k.

Lemma resched_blocks {A} t th s (f : unit -> K A) :
  in_lock ∅ (Some (ks_cpu s)) ∅ t s -> ks_threads s !! t = Some th ->
  t_state th <> THREAD_READY -> t_state th <> THREAD_RUNNING -> thread_is_idle th = false ->
  runs (thread_resched ≫= f) s (blocks t s (fun s' => exists th', ks_threads s' !! t = Some th' /\
    core_same th th' /\ t_state th' = t_state th) (fun s' => f tt s')).
Proof.
  intros L Ht Hs Hs' Hi. destruct (resched_run ∅ t th s) as (new & s' & Hr & L' & Q & E); [done..|].
  assert (new <> t) as Hne.
  { eapply resched_not_self; [apply L|done|rewrite (il_cur _ _ _ _ _ L); eauto|done..]. }
  exists new, s'. split_and!; [done|by rewrite union_empty_r_L in L'|done| |].
  - pose proof (rt_threads _ _ _ _ Hr t) as E'. rewrite Ht, decide_False in E' by done.
    destruct (ks_threads s' !! t) as [th'|]; [|done]. exists th'. tauto.
  - unfold mbind, K_bind. rewrite E. unfold resched_outcome. by rewrite decide_False.
Qed.

Lemma in_lock_rest X Ho Y t u th s :
  in_lock ({[u]} ∪ X) Ho Y t s -> ks_threads s !! u = Some th -> resting th -> in_lock X Ho Y t s.
Proof. intros [] ? ?. split; [|done..]. by eapply kinv_rest. Qed.

(** [t] has gone to sleep in [s'], with its timer set. *)
Record sleeping (t : tid) (s s' : kstate) : Prop := {
  sl_frame : frame s s';
  sl_timers : timers_frame t s s';
  sl_wait_queues : ks_wait_queues s' = ks_wait_queues s;
  sl_block_ret : forall u, t_wait_queue_block_ret <$> ks_threads s' !! u
                         = t_wait_queue_block_ret <$> ks_threads s !! u;
  sl_timer : exists tm, ks_timers s' !! TmStack t = Some tm /\ tm_callback tm = ThreadSleepHandler;
}.

Lemma sleep_locked_run {A} t th tm delay s (f : unit -> K A) :
  in_lock ∅ None ∅ t s -> ks_threads s !! t = Some th -> thread_is_idle th = false ->
  ks_timers s !! TmStack t = Some tm ->
  runs (timer_set_oneshot (TmStack t) delay ThreadSleepHandler t;;
        mod_thread t (set_t_state THREAD_SLEEPING);; thread_resched ≫= f) s (fun o => exists s1,
    sleeping t s s1 /\ blocks t s1 (fun _ => True) (fun s' => f tt s') o).
Proof.
  intros L Ht Hi Htm. pose proof L as [I _ Hc].
  destruct (current_pc _ _ Hc) as (pc & Hpc & Et).
  destruct (current_thread _ _ _ _ (ki_sched _ _ _ _ I) Hc) as (? & ? & Hs & _). simplify_eq.
  pose proof (kinv_running_no_timer _ _ _ _ _ I Ht Hs) as Hnt. set (t := pc_current pc) in *.
  apply runs_step. eapply rets_mono; [by eapply stack_timer_set_run|].
  intros _ s' (tm' & q1 & q2 & tr & Eq & -> & Htm' & Harg & Hper & Hcb).
  ksteps. set (th' := set_t_state THREAD_SLEEPING th). set (s2 := put_thread t th' s).
  assert (ks_threads s2 !! t = Some th') as Ht2 by apply lookup_insert_eq.
  destruct (sw_alive _ _ _ _ _ _ _ (ki_sched _ _ _ _ I) _ _ Ht) as [Ha Hpad].
  assert (in_lock ∅ (Some (ks_cpu s)) ∅ t s2) as L2.
  { eapply in_lock_rest; [eapply give_up_run; [exact L|exact Ht| |done]|exact Ht2|by right; left].
    split_and!; try done; [|congruence]. unfold alive_ok. intros _. apply Ha. congruence. }
  destruct (stack_timer_added_frame t tm' q1 q2 tr pc s2 Hpc Eq) as [F2 TF2].
  pose proof (put_thread_quiet t th th' s Ht eq_refl) as Q2.
  exists (stack_timer_added t tm' q1 q2 tr pc s2). split.
  - split; [etransitivity; [apply Q2|exact F2]| |done|exact (qu_block_ret _ _ Q2)|].
    + etransitivity; [by apply quiet_timers_frame|exact TF2].
    + exists tm'. split; [apply lookup_insert_eq|done].
  - edestruct (resched_blocks t th' (stack_timer_added t tm' q1 q2 tr pc s2) f)
      as (new & s3 & ? & ? & ? & _ & ?); [|exact Ht2|done..|by exists new, s3].
    eapply stack_timer_added_in_lock; [exact L2|exact Ht2| |done..|by left].
    exact Hnt.
Qed.

Lemma thread_sleep_run t th delay s :
  at_rest t s -> ks_threads s !! t = Some th -> thread_is_idle th = false ->
  runs (thread_sleep delay) s (fun o => exists s1 saved, cpu_view s (ks_cpu s) = Some (t, saved) /\
    sleeping t s s1 /\ blocks t s1 (fun _ => True) (THREAD_UNLOCK saved) o).
Proof.
  intros A Ht Hi. pose proof A as [I Hl Hc].
  destruct (current_pc _ _ Hc) as (pc & Hpc & Et).
  destruct (current_thread _ _ _ _ (ki_sched _ _ _ _ I) Hc) as (? & ? & Hs & Hcc & Hm & _). simplify_eq.
  pose proof (kinv_running_no_timer _ _ _ _ _ I Ht Hs) as Hnt.
  unfold thread_sleep, timer_initialize. ksteps. set (t := pc_current pc) in *.
  fold (stack_timer_init t s).
  pose proof (stack_timer_init_frame t s) as [F0 TF0].
  apply runs_step. eapply rets_mono; [apply (THREAD_LOCK_run t)|].
  { split; [by apply stack_timer_init_kinv|done..]. }
  intros saved s1 (L & F & V & Sv). pose proof (kview_quiet _ _ F V) as Q.
  assert (ks_threads s1 !! t = Some th) as Ht1 by (by rewrite (kview_threads _ _ V)).
  destruct (sleep_locked_run t th (Timer TIMER_MAGIC 0 0 NullCallback 0) delay s1
    (fun _ => THREAD_UNLOCK saved) L Ht1 Hi) as (s2 & [F2 T2 W2 B2 M2] & Hb).
  { rewrite (qu_timer _ _ Q). apply lookup_insert_eq. }
  exists s2, saved. split; [done|]. split; [|exact Hb]. split; [..|done].
  - do 2 (etransitivity; [done|]). exact F2.
  - etransitivity; [exact TF0|]. etransitivity; [by apply quiet_timers_frame|]. exact T2.
  - rewrite W2. apply (qu_wait_queues _ _ Q).
  - intros u. rewrite B2. apply (qu_block_ret _ _ Q).
Qed.
End ops.
