(* ===== verification/WaitOps.v ===== *)
(** * The operations on wait queues

    Blocking on a wait queue and waking its threads, with the invariant.  The
    queue is first in, first out; each waiter is told why it was woken. *)
From S2P Require Import Prelude KState Timer Thread WaitQueue ThreadLife Logic SchedInv TimerInv SchedSpec SchedOps.

(** The wait queue is there and initialised. *)
Definition has_queue (s : kstate) (w : wqid) : Prop :=
  exists q, ks_wait_queues s !! w = Some q /\ wq_magic q = WAIT_QUEUE_MAGIC.

(** ** Blocking *)
Definition wq_push (t : tid) (q : wait_queue_t) : wait_queue_t :=
  set_wq_count (wq_count q + 1) (set_wq_list (wq_list q ++ [t]) q).

(** [t] waits on [w] in [s']. *)
Record waiting (t : tid) (w : wqid) (timeout : Z) (s s' : kstate) : Prop := {
  wt_frame : frame s s';
  wt_timers : timers_frame t s s';
  wt_wait_queues : exists q, ks_wait_queues s !! w = Some q /\
    ks_wait_queues s' = <[w := wq_push t q]> (ks_wait_queues s);
  wt_block_ret : forall u, u <> t -> t_wait_queue_block_ret <$> ks_threads s' !! u
                                    = t_wait_queue_block_ret <$> ks_threads s !! u;
  wt_thread : exists th, ks_threads s' !! t = Some th /\ t_state th = THREAD_BLOCKED /\
    t_wait_queue_block_ret th = NO_ERROR;
  wt_timer : if timeout =? INFINITE_TIME then ~ stack_queued s' t
             else is_Some (ks_timers s' !! TmStack t);
}.

(** What [wait_queue_block] does when the thread runs again. *)
Definition block_rest `{KConfig} (timeout : Z) (t : tid) : K Z :=
  kwhen (negb (timeout =? INFINITE_TIME)) (timer_cancel (TmStack t));;
  th ← get_thread t;
  mret (t_wait_queue_block_ret th).

Section wait.
Context `{KConfig}.

Lemma in_lock_wq_add X Ho Y t cur th w q s :
  in_lock ({[t]} ∪ X) Ho Y cur s -> t ∉ X -> ks_threads s !! t = Some th ->
  t_state th = THREAD_BLOCKED -> t_blocking_wait_queue th = Some w -> thread_is_idle th = false ->
  ks_wait_queues s !! w = Some q -> wq_magic q = WAIT_QUEUE_MAGIC ->
  in_lock X Ho Y cur (put_wq w (wq_push t q) s).
Proof.
  intros [[W T P R] Hl Hc] HX Ht Hs Hb Hi Hq Hm. split; [|done..]. split; try done.
  - unfold swf. kcbn. by eapply sched_wq_add.
  - intros u Hu. destruct (R u Hu) as (q' & Hq' & Hm'). kcbn.
    destruct (decide (w = WqRetcode u)) as [->|]; simplify_map_eq; eauto.
Qed.

(** The thread has been put on the queue; its timer is set. *)
Lemma block_timer_run t th timeout s :
  in_lock ∅ (Some (ks_cpu s)) ∅ t s -> ks_threads s !! t = Some th -> t_state th = THREAD_BLOCKED ->
  ~ stack_queued s t ->
  rets (kwhen (negb (timeout =? INFINITE_TIME))
         (timer_initialize (TmStack t);;
          timer_set_oneshot (TmStack t) timeout WaitQueueTimeoutHandler t)) s (fun _ s' =>
    in_lock ∅ (Some (ks_cpu s')) ∅ t s' /\ frame s s' /\ timers_frame t s s' /\
    ks_wait_queues s' = ks_wait_queues s /\ ks_threads s' = ks_threads s /\
    if timeout =? INFINITE_TIME then ~ stack_queued s' t else is_Some (ks_timers s' !! TmStack t)).
Proof.
  intros L Ht Hs Hn. pose proof L as [I Hl Hc]. destruct (current_pc _ _ Hc) as (pc & Hpc & Et).
  destruct (timeout =? INFINITE_TIME); cbn [negb kwhen]; [ksteps; done|].
  unfold timer_initialize. ksteps. fold (stack_timer_init t s).
  pose proof (stack_timer_init_frame t s) as [F0 TF0].
  assert (in_lock ∅ (Some (ks_cpu s)) ∅ t (stack_timer_init t s)) as L0
    by (split; [by apply stack_timer_init_kinv|done..]).
  eapply rets_mono; [eapply stack_timer_set_run; [apply L0|done..|apply lookup_insert_eq]|].
  intros _ s' (tm & q1 & q2 & tr & Eq & -> & Htm & Harg & Hper & Hcb).
  destruct (stack_timer_added_frame t tm q1 q2 tr pc (stack_timer_init t s) Hpc Eq) as [F2 TF2].
  split_and!; [|by etransitivity..|done|done|].
  - eapply stack_timer_added_in_lock; [exact L0|exact Ht|done..|]. right. auto.
  - unfold stack_timer_added. kcbn. rewrite lookup_insert_eq. by eexists.
Qed.

Lemma wait_queue_block_zero t w q s :
  in_lock ∅ None ∅ t s -> ks_wait_queues s !! w = Some q -> wq_magic q = WAIT_QUEUE_MAGIC ->
  wait_queue_block w 0 s = Ret ERR_TIMED_OUT s.
Proof.
  intros [I [Hl (pc & Hpc & Hpi)] Hc] Hq Hm.
  assert (pc_current pc = t) as Et by (apply lookup_fmap_Some in Hc as (? & ? & ?); congruence).
  destruct (current_thread _ _ _ _ (ki_sched _ _ _ _ I) Hc) as (th & Ht & Hs & _).
  rewrite <- Et in *. apply rets_run. unfold wait_queue_block, assert_locked. ksteps. done.
Qed.

Lemma waiting_intro t w q timeout th th' th3 s s2 s3 :
  let s1 := put_wq w (wq_push t q) (put_thread t th' s) in
  ks_threads s !! t = Some th -> t_state th' = THREAD_BLOCKED -> t_wait_queue_block_ret th' = NO_ERROR ->
  ks_wait_queues s !! w = Some q -> frame s1 s2 -> timers_frame t s1 s2 ->
  ks_wait_queues s2 = ks_wait_queues s1 -> ks_threads s2 = ks_threads s1 ->
  (if timeout =? INFINITE_TIME then ~ stack_queued s2 t else is_Some (ks_timers s2 !! TmStack t)) ->
  quiet s2 s3 -> ks_threads s3 !! t = Some th3 -> core_same th' th3 -> t_state th3 = t_state th' ->
  waiting t w timeout s s3.
Proof.
  intros s1 Ht Hs Hr Hq F2 T2 Ew Eth Htm Q3 Ht3 E3 Hs3. split.
  - etransitivity; [|apply Q3]. etransitivity; [|exact F2]. unfold s1. kframe.
  - etransitivity; [|by apply quiet_timers_frame]. etransitivity; [|exact T2]. done.
  - exists q. split; [done|]. by rewrite (qu_wait_queues _ _ Q3), Ew.
  - intros u Hu. rewrite (qu_block_ret _ _ Q3), Eth. unfold s1. kcbn.
    by rewrite lookup_insert_ne.
  - exists th3. split_and!; [done|congruence|].
    apply core_same_fields in E3 as (_ & _ & _ & _ & _ & -> & _). done.
  - destruct (timeout =? INFINITE_TIME); [by rewrite (qu_stack _ _ Q3)|].
    by rewrite (qu_timer _ _ Q3).
Qed.

Lemma wait_queue_block_run t th w q timeout s :
  in_lock ∅ None ∅ t s -> ks_threads s !! t = Some th -> thread_is_idle th = false ->
  ks_wait_queues s !! w = Some q -> wq_magic q = WAIT_QUEUE_MAGIC -> timeout <> 0 ->
  exists new s', new <> t /\ in_lock ∅ None {[new]} new s' /\ waiting t w timeout s s' /\
    wait_queue_block w timeout s = Switch t new s' (block_rest timeout t).
Proof.
  intros L Ht Hi Hq Hm Ht0. pose proof L as [I [Hl (pc & Hpc & Hpi)] Hc].
  assert (pc_current pc = t) as Et by (apply lookup_fmap_Some in Hc as (? & ? & ?); congruence).
  destruct (current_thread _ _ _ _ (ki_sched _ _ _ _ I) Hc) as (th0 & ? & Hs & Hcc & Hmt & _).
  simplify_eq. pose proof (kinv_running_no_timer _ _ _ _ _ I Ht Hs) as Hnt.
  set (t := pc_current pc) in *.
  change (runs (wait_queue_block w timeout) s (fun o => exists new s', new <> t /\
    in_lock ∅ None {[new]} new s' /\ waiting t w timeout s s' /\
    o = Switch t new s' (block_rest timeout t))).
  unfold wait_queue_block, assert_locked. ksteps. fold t. ksteps.
  rewrite (proj2 (Z.eqb_neq timeout 0) Ht0). ksteps. fold (wq_push t q).
  set (th' := set_t_wait_queue_block_ret NO_ERROR
    (set_t_blocking_wait_queue (Some w) (set_t_state THREAD_BLOCKED th))).
  change (put_thread t th' (put_wq w (wq_push t q) s)) with (put_wq w (wq_push t q) (put_thread t th' s)).
  set (s1 := put_wq w (wq_push t q) (put_thread t th' s)).
  assert (ks_threads s1 !! t = Some th') as Ht1 by apply lookup_insert_eq.
  destruct (sw_alive _ _ _ _ _ _ _ (ki_sched _ _ _ _ I) _ _ Ht) as [Ha Hpad].
  assert (in_lock ∅ (Some (ks_cpu s1)) ∅ t s1) as L1.
  { eapply (in_lock_wq_add ∅ (Some (ks_cpu s)) ∅ t t th'); [|set_solver|exact Ht1|done..].
    eapply give_up_run; [done..| |done].
    split_and!; try done; [|congruence]. unfold alive_ok. intros _. apply Ha. congruence. }
  apply runs_step. eapply rets_mono; [eapply block_timer_run; [exact L1|exact Ht1|done|exact Hnt]|].
  intros _ s2 (L2 & F2 & TF2 & Ew & Eth & Htm).
  destruct (resched_blocks t th' s2 (fun _ => block_rest timeout t)) as (new & s3 & Hne & L3 & Q3 & (th3 & Ht3 & E3 & Hs3) & E);
    [done|by rewrite Eth|done..|].
  exists new, s3. split_and!; [done|done| |exact E].
  by apply (waiting_intro t w q timeout th th' th3 s s2 s3).
Qed.

Lemma stack_timer_cancel_run X Ho t s :
  in_lock X Ho {[t]} t s -> is_Some (ks_timers s !! TmStack t) ->
  rets (timer_cancel (TmStack t)) s (fun _ s' =>
    in_lock X Ho ∅ t s' /\ frame s s' /\ timers_frame t s s' /\
    ks_wait_queues s' = ks_wait_queues s /\ ks_threads s' = ks_threads s).
Proof.
  intros [I [Hl (pc & Hpc & Hpi)] Hc] [tm Htm]. pose proof I as [W T P R].
  pose proof (tw_magic _ _ _ _ _ T _ _ Htm) as Hm.
  assert (timer_queues s !! ks_cpu s = Some (pc_timer_queue pc)) as Hq
    by (unfold timer_queues; by rewrite lookup_fmap, Hpc).
  eapply rets_mono; [eapply timer_cancel_run; [done..|]|].
  { intros i Hi. by eapply (tw_queued _ _ _ _ _ T). }
  intros _ s' [tr ->].
  set (s1 := set_ks_trace tr (timer_unlink (TmStack t)
    (put_timer (TmStack t) (cancel_timer_fields tm) s))).
  assert (timer_queues s1 = remove_elt (TmStack t) <$> timer_queues s) as Etq
    by exact (timer_queues_unlink (TmStack t) (put_timer (TmStack t) (cancel_timer_fields tm) s)).
  assert (currents s1 = currents s) as Ecur.
  { unfold currents, s1. kcbn. by rewrite <- map_fmap_compose. }
  assert (forall u, stack_queued s1 u -> u <> t /\ stack_queued s u) as Hsq.
  { intros u (c & q & Hcq & Hin). rewrite Etq in Hcq. apply lookup_fmap_Some in Hcq as (q' & <- & Hq').
    apply elem_of_remove_elt in Hin as [??]. split; [congruence|]. by exists c, q'. }
  split_and!; [split; [|split; [done|]|]|unfold s1; kframe|split|done|done].
  - apply (kinv_no_timer _ _ _ t); [|naive_solver]. split; [| | |done].
    + unfold swf. by rewrite Ecur.
    + rewrite union_empty_r_L. unfold twf. rewrite Etq. by apply timers_cancel.
    + rewrite Etq, Ecur. intros c q u th (q' & <- & Hq')%lookup_fmap_Some Hu Hth.
      rewrite elem_of_remove_elt, <- (P c q' u th) by done. naive_solver.
  - eexists. unfold s1. kcbn. rewrite lookup_fmap, Hpc. done.
  - by rewrite Ecur.
  - intros u Hu. unfold s1. kcbn. by rewrite lookup_insert_ne by congruence.
  - naive_solver.
Qed.

(** [t] runs again after [wait_queue_block] gave up the cpu. *)
Lemma block_rest_run t timeout s :
  in_lock ∅ None {[t]} t s ->
  (if timeout =? INFINITE_TIME then ~ stack_queued s t else is_Some (ks_timers s !! TmStack t)) ->
  rets (block_rest timeout t) s (fun r s' =>
    in_lock ∅ None ∅ t s' /\ frame s s' /\ timers_frame t s s' /\
    ks_wait_queues s' = ks_wait_queues s /\ ks_threads s' = ks_threads s /\
    (t_wait_queue_block_ret <$> ks_threads s !! t) = Some r).
Proof.
  intros L Htm. pose proof (in_lock_threads _ _ _ _ L) as (th & Ht & _ & _).
  unfold block_rest. kstep. apply (rets_mono _ _ (fun _ s' =>
    in_lock ∅ None ∅ t s' /\ frame s s' /\ timers_frame t s s' /\
    ks_wait_queues s' = ks_wait_queues s /\ ks_threads s' = ks_threads s)).
  - destruct (timeout =? INFINITE_TIME); cbn [negb kwhen]; [|by apply stack_timer_cancel_run].
    ksteps. split_and!; [|done..]. destruct L as [I ? ?]. split; [|done..].
    apply (kinv_no_timer _ _ _ t); [by rewrite union_empty_r_L|done].
  - intros _ s' (L' & F & TF & Ew & Eth). rewrite <- Eth in Ht. ksteps.
    rewrite <- Eth, Ht. done.
Qed.

(** ** Waking *)
Definition woken_thread (err : Z) (th : thread_t) : thread_t :=
  set_t_blocking_wait_queue None
    (set_t_wait_queue_block_ret err (set_t_state THREAD_READY th)).

(** Taking [u] off wait queue [w], which becomes [q']. *)
Lemma in_lock_wq_del X Ho Y cur u th w q q' err s :
  in_lock X Ho Y cur s -> ks_wait_queues s !! w = Some q -> wq_list q ≡ₚ u :: wq_list q' ->
  wq_count q' = wq_count q - 1 -> wq_magic q' = wq_magic q -> ks_threads s !! u = Some th ->
  in_lock ({[u]} ∪ X) Ho Y cur (put_thread u (woken_thread err th) (put_wq w q' s)).
Proof.
  intros [[W T P R] Hl Hc] Hq Hp Hcnt Hm Hu. split; [|done..].
  destruct (sw_wq _ _ _ _ _ _ _ W w q u Hq) as (HX & th' & ? & Hs & Hb & Hi);
    [rewrite Hp; set_solver|]. simplify_eq.
  destruct (sw_alive _ _ _ _ _ _ _ W u th Hu) as [Ha Hpad].
  apply (kinv_put_transit _ _ _ _ th); [|set_solver|done| | |done].
  - split; try done.
    + unfold swf. kcbn. by eapply sched_wq_del.
    + intros v Hv. destruct (R v Hv) as (qv & Hqv & Hmv). kcbn.
      destruct (decide (w = WqRetcode v)) as [->|]; simplify_map_eq; [|eauto].
      exists q'. split; [done|congruence].
  - split_and!; try done; [|congruence]. intros _. apply Ha. congruence.
  - intros tm Hok. unfold stack_timer_ok in *. rewrite Hs in Hok. cbn.
    destruct Hok as [[_ ?]|[? _]]; [done|]. auto.
Qed.

(** The timers and their queues are untouched. *)
Definition same_timers (s s' : kstate) : Prop :=
  ks_timers s' = ks_timers s /\ timer_queues s' = timer_queues s.

(** What waking the threads [us] amounts to for the rest of the kernel: wait
    queue [w] is now [q'] and each of them is told [err]. *)
Record woken (us : list tid) (w : wqid) (q' : wait_queue_t) (err : Z) (s s' : kstate) : Prop := {
  wk_frame : frame s s';
  wk_wait_queues : ks_wait_queues s' = <[w := q']> (ks_wait_queues s);
  wk_block_ret : forall v, t_wait_queue_block_ret <$> ks_threads s' !! v
    = if decide (v ∈ us) then Some err else t_wait_queue_block_ret <$> ks_threads s !! v;
  wk_stack : forall v, stack_queued s' v <-> stack_queued s v;
  wk_timer : forall v, ks_timers s' !! TmStack v = ks_timers s !! TmStack v;
}.

Lemma woken_base u w q' err th s :
  ks_threads s !! u = Some th -> is_Some (ks_wait_queues s !! w) ->
  woken [u] w q' err s (put_thread u (woken_thread err th) (put_wq w q' s)).
Proof.
  intros Hu Hw. split; [kframe|done| |done|done]. intros v. kcbn.
  case_decide as C; rewrite list_elem_of_singleton in C.
  - subst. by rewrite lookup_insert_eq.
  - by rewrite lookup_insert_ne by done.
Qed.

Lemma woken_trans us vs w q1 q2 err s s1 s2 :
  woken us w q1 err s s1 -> woken vs w q2 err s1 s2 -> woken (vs ++ us) w q2 err s s2.
Proof.
  intros [] []. split; [by etransitivity| | | |].
  - rewrite wk_wait_queues1, wk_wait_queues0. apply insert_insert_eq.
  - intros v. rewrite wk_block_ret1. case_decide as C1; case_decide as C2; try done; [set_solver| |].
    + rewrite wk_block_ret0, decide_True; [done|set_solver].
    + rewrite wk_block_ret0, decide_False; [done|set_solver].
  - intros v. by rewrite wk_stack1.
  - intros v. by rewrite wk_timer1.
Qed.

Lemma woken_quiet us w q' err s s1 s2 : woken us w q' err s s1 -> quiet s1 s2 -> woken us w q' err s s2.
Proof.
  intros [] []. split; [by etransitivity|congruence| | |].
  - intros v. by rewrite qu_block_ret.
  - intros v. by rewrite qu_stack.
  - intros v. by rewrite qu_timer.
Qed.

Lemma quiet_woken us w q' err s s1 s2 : quiet s s1 -> woken us w q' err s1 s2 -> woken us w q' err s s2.
Proof.
  intros [] []. split; [by etransitivity| | | |].
  - by rewrite wk_wait_queues0, qu_wait_queues.
  - intros v. by rewrite wk_block_ret0, qu_block_ret.
  - intros v. by rewrite wk_stack0.
  - intros v. by rewrite wk_timer0.
Qed.

(** The woken thread is put on its run queue and the other cpus are told. *)
Lemma wake_insert_run X Ho Y cur u th s :
  u ∉ X -> ks_threads s !! u = Some th -> t_state th = THREAD_READY -> thread_is_idle th = false ->
  in_lock ({[u]} ∪ X) Ho Y cur s ->
  rets (insert_in_run_queue_head u) s (fun _ s2 =>
    rets (wakeup_cpu_for_thread u) s2 (fun _ s' =>
      in_lock X Ho Y cur s' /\ quiet s s' /\ ks_threads s' = ks_threads s /\ same_timers s s')).
Proof.
  intros HX Hu Hs Hi L.
  eapply rets_mono; [eapply (insert_run X Ho Y true); done|].
  intros _ s2 (E & L2 & F2). pose proof (enqueued_quiet _ _ _ _ _ E) as Q.
  assert (ks_threads s2 = ks_threads s) as E2 by (by destruct E as (? & ? & ->)).
  eapply rets_mono; [eapply wakeup_cpu_for_thread_run; by rewrite E2|]. intros _ s3 [tr ->].
  split_and!; [by apply in_lock_trace|by etransitivity|done|]. by destruct E as (? & ? & ->).
Qed.

Definition wq_pop (rest : list tid) (q : wait_queue_t) : wait_queue_t :=
  set_wq_count (wq_count q - 1) (set_wq_list rest q).

Lemma wake_one_empty t w q resched err s :
  in_lock ∅ None ∅ t s -> ks_wait_queues s !! w = Some q -> wq_magic q = WAIT_QUEUE_MAGIC ->
  wq_list q = [] -> wait_queue_wake_one w resched err s = Ret 0 s.
Proof.
  intros [I [Hl (pc & Hpc & Hpi)] Hc] Hq Hm Hl0. apply rets_run.
  unfold wait_queue_wake_one, assert_locked. ksteps. rewrite Hl0. done.
Qed.

Lemma wake_one_run t w q u rest err s :
  in_lock ∅ None ∅ t s -> ks_wait_queues s !! w = Some q -> wq_magic q = WAIT_QUEUE_MAGIC ->
  wq_list q = u :: rest ->
  rets (wait_queue_wake_one w false err) s (fun r s' => r = 1 /\
    in_lock ∅ None ∅ t s' /\ woken [u] w (wq_pop rest q) err s s').
Proof.
  intros L Hq Hm Hl. pose proof L as [I [Hlk (pc & Hpc & Hpi)] Hc].
  destruct (sw_wq _ _ _ _ _ _ _ (ki_sched _ _ _ _ I) w q u Hq) as (HX & th & Hu & Hs & Hb & Hi);
    [rewrite Hl; set_solver|].
  unfold wait_queue_wake_one, assert_locked. ksteps. rewrite Hl. ksteps.
  fold (wq_pop rest q). fold (woken_thread err th).
  assert (in_lock ({[u]} ∪ ∅) None ∅ t (put_thread u (woken_thread err th) (put_wq w (wq_pop rest q) s)))
    as L1 by (eapply in_lock_wq_del; [done|done|by rewrite Hl|done..]).
  eapply rets_mono; [eapply (wake_insert_run ∅ None ∅ t); [done|apply lookup_insert_eq|done..]|].
  cbv beta. intros _ s2 H2. kstep. eapply rets_mono; [exact H2|].
  intros _ s' (L' & Q & _ & _). ksteps. split_and!; [done..|].
  eapply woken_quiet; [by apply woken_base|done].
Qed.

Lemma requeue_current_run X t th s :
  in_lock X None ∅ t s -> ks_threads s !! t = Some th -> thread_is_idle th = false ->
  rets requeue_current s (fun _ s' => in_lock X (Some (ks_cpu s')) ∅ t s' /\ quiet s s' /\
    ks_threads s' = <[t := set_t_state THREAD_READY th]> (ks_threads s)).
Proof.
  intros L Ht Hi. destruct (current_pc _ _ (il_cur _ _ _ _ _ L)) as (pc & Hpc & <-).
  unfold requeue_current. ksteps.
  pose proof (requeue_run X (pc_current pc) th (set_t_state THREAD_READY th) true s L Ht) as Hr.
  rewrite Hi in Hr. by apply Hr.
Qed.

(** With [reschedule] the caller goes behind the thread it wakes. *)
Lemma wake_one_resched_run t th w q u rest err s :
  in_lock ∅ None ∅ t s -> ks_threads s !! t = Some th -> thread_is_idle th = false ->
  ks_wait_queues s !! w = Some q -> wq_magic q = WAIT_QUEUE_MAGIC -> wq_list q = u :: rest ->
  runs (wait_queue_wake_one w true err) s (fun o => exists new s1 s',
    woken [u] w (wq_pop rest q) err s s1 /\ quiet s1 s' /\ in_lock ∅ None {[new]} new s' /\
    o = obind (resched_outcome t new s') (fun _ => mret 1)).
Proof.
  intros L Ht Hti Hq Hm Hl. pose proof L as [I [Hlk (pc & Hpc & Hpi)] Hc].
  assert (pc_current pc = t) as Et by (apply lookup_fmap_Some in Hc as (? & ? & ?); congruence).
  destruct (sw_wq _ _ _ _ _ _ _ (ki_sched _ _ _ _ I) w q u Hq) as (HX & thu & Hu & Hs & Hb & Hi);
    [rewrite Hl; set_solver|].
  destruct (current_thread _ _ _ _ (ki_sched _ _ _ _ I) Hc) as (? & ? & Hst & _). simplify_eq.
  assert (pc_current pc <> u) as Hne by congruence.
  unfold wait_queue_wake_one, assert_locked. ksteps. rewrite Hl. ksteps.
  fold (wq_pop rest q). fold (woken_thread err thu).
  assert (in_lock ({[u]} ∪ ∅) None ∅ (pc_current pc)
    (put_thread u (woken_thread err thu) (put_wq w (wq_pop rest q) s))) as L1
    by (eapply in_lock_wq_del; [done|done|by rewrite Hl|done..]).
  eapply rets_mono; [eapply (requeue_current_run _ _ th); [done| |done]|].
  { kcbn. by rewrite lookup_insert_ne. }
  intros _ s2 (L2 & Q2 & Eth2).
  apply runs_step. eapply rets_mono; [eapply (wake_insert_run ∅ _ ∅ _ u (woken_thread err thu)); [done| |done|done|exact L2]|].
  { rewrite Eth2, lookup_insert_ne by done. apply lookup_insert_eq. }
  cbv beta. intros _ s3 H3. apply runs_step. eapply rets_mono; [exact H3|].
  intros _ s4 (L4 & Q4 & Eth4 & _).
  destruct (resched_run ∅ (pc_current pc) (set_t_state THREAD_READY th) s4) as (new & s5 & _ & L5 & Q5 & E);
    [by rewrite (fr_cpu _ _ (qu_frame _ _ Q4))|by rewrite Eth4, Eth2, lookup_insert_eq|done|].
  exists new, s4, s5. split_and!; [|done|by rewrite union_empty_r_L in L5|].
  - eapply woken_quiet; [by apply woken_base|]. by etransitivity.
  - unfold kwhen, mbind, K_bind. by rewrite E.
Qed.

Definition wq_emptied (q : wait_queue_t) : wait_queue_t := set_wq_count 0 (set_wq_list [] q).

Lemma woken_nil w q err s :
  ks_wait_queues s !! w = Some q -> wq_list q = [] -> wq_count q = 0 ->
  woken [] w (wq_emptied q) err s s.
Proof.
  intros Hq Hl Hc. split; try done.
  rewrite insert_id; [done|]. rewrite Hq. f_equal. destruct q. cbn in *. by subst.
Qed.

(** The loop of [wait_queue_wake_all] wakes every waiter. *)
Lemma wake_all_loop_run X Ho Y cur fuel w q err mask ret s :
  in_lock X Ho Y cur s -> ks_wait_queues s !! w = Some q -> length (wq_list q) = fuel ->
  rets (wake_all_loop fuel w err mask ret) s (fun p s' =>
    p.2 = ret + Z.of_nat fuel /\ in_lock X Ho Y cur s' /\
    woken (wq_list q) w (wq_emptied q) err s s' /\
    forall v, v ∉ wq_list q -> ks_threads s' !! v = ks_threads s !! v).
Proof.
  revert q mask ret s. induction fuel as [|fuel IH]; intros q mask ret s L Hq Hlen;
    cbn [wake_all_loop]; pose proof (ki_sched _ _ _ _ (il_inv _ _ _ _ _ L)) as W;
    destruct (sw_wq_count _ _ _ _ _ _ _ W w q Hq) as (Hnd & Hcnt & _).
  { apply nil_length_inv in Hlen. rewrite Hlen in Hcnt. ksteps. rewrite Hlen. cbn. ksteps.
    split_and!; [lia|done|by apply woken_nil|done]. }
  destruct (exists_last (l := wq_list q)) as (l & u & El); [by destruct (wq_list q)|].
  destruct (sw_wq _ _ _ _ _ _ _ W w q u Hq) as (HX & th & Hu & Hs & Hb & Hi); [rewrite El; set_solver|].
  ksteps. rewrite El, reverse_snoc. ksteps. rewrite reverse_involutive.
  fold (wq_pop l q). fold (woken_thread err th).
  assert (in_lock ({[u]} ∪ X) Ho Y cur (put_thread u (woken_thread err th) (put_wq w (wq_pop l q) s))) as L1.
  { eapply in_lock_wq_del; [done|done|rewrite El; cbn; by rewrite Permutation_app_comm|done..]. }
  eapply rets_mono; [eapply (insert_run X Ho Y true); [done|done|apply lookup_insert_eq|done..]|].
  intros _ s2 (E2 & L2 & _). pose proof (enqueued_quiet _ _ _ _ _ E2) as Q2.
  assert (ks_threads s2 = <[u := woken_thread err th]> (ks_threads s)) as Eth2
    by (by destruct E2 as (? & ? & ->)).
  assert (woken [u] w (wq_pop l q) err s s2) as K2 by (eapply woken_quiet; [by apply woken_base|done]).
  eapply rets_mono; [apply (IH (wq_pop l q)); [done| |]|].
  - rewrite (wk_wait_queues _ _ _ _ _ _ K2). apply lookup_insert_eq.
  - rewrite El, length_app in Hlen. cbn in *. lia.
  - cbn. intros p s' (Hp & L' & K' & Hoth). split_and!; [lia|done| |].
    + change (wq_emptied q) with (wq_emptied (wq_pop l q)). by eapply woken_trans.
    + intros v Hv. rewrite Hoth by set_solver. rewrite Eth2. apply lookup_insert_ne. set_solver.
Qed.

Lemma in_lock_pc X Ho Y t s : in_lock X Ho Y t s ->
  exists pc, ks_percpu s !! ks_cpu s = Some pc /\ pc_current pc = t /\ pc_ints_disabled pc = true.
Proof.
  intros [_ [_ (pc & Hpc & Hpi)] Hc]. exists pc. split_and!; [done| |done].
  apply lookup_fmap_Some in Hc as (? & ? & ?). congruence.
Qed.

Lemma wq_count_length X Ho Y t w q s :
  in_lock X Ho Y t s -> ks_wait_queues s !! w = Some q -> wq_count q = Z.of_nat (length (wq_list q)).
Proof. intros [I _ _] Hq. by destruct (sw_wq_count _ _ _ _ _ _ _ (ki_sched _ _ _ _ I) w q Hq) as (_ & ? & _). Qed.

Lemma wake_all_run X Ho Y t w q err s :
  in_lock X Ho Y t s -> ks_wait_queues s !! w = Some q -> wq_magic q = WAIT_QUEUE_MAGIC ->
  rets (wait_queue_wake_all w false err) s (fun r s' =>
    r = Z.of_nat (length (wq_list q)) /\ in_lock X Ho Y t s' /\
    woken (wq_list q) w (wq_emptied q) err s s' /\
    forall v, v ∉ wq_list q -> ks_threads s' !! v = ks_threads s !! v).
Proof.
  intros L Hq Hm. destruct (in_lock_pc _ _ _ _ _ L) as (pc & Hpc & Et & Hpi).
  destruct (il_locked _ _ _ _ _ L) as [Hl _].
  unfold wait_queue_wake_all, assert_locked. ksteps. cbn [andb kwhen]. ksteps.
  eapply rets_mono; [by apply wake_all_loop_run|].
  intros [mask ret] s1 (Hret & L1 & K1 & Hoth). cbn in Hret. subst ret.
  assert (ks_wait_queues s1 !! w = Some (wq_emptied q)) as Hq1
    by (rewrite (wk_wait_queues _ _ _ _ _ _ K1); apply lookup_insert_eq).
  cbv beta iota. ksteps.
  apply (rets_mono _ _ (fun _ s' => exists tr, s' = set_ks_trace tr s1)).
  - apply rets_kwhen; intros _; [|exists (ks_trace s1); by destruct s1].
    kstep. eapply rets_mono; [apply mp_reschedule_run|]. intros _ s2 [tr ->]. cbn. by eexists.
  - intros _ s2 [tr ->]. ksteps. split_and!; [lia|by apply in_lock_trace| |done].
    by eapply woken_quiet.
Qed.

Lemma wake_all_resched_run t th w q err s :
  in_lock ∅ None ∅ t s -> ks_threads s !! t = Some th -> thread_is_idle th = false ->
  ks_wait_queues s !! w = Some q -> wq_magic q = WAIT_QUEUE_MAGIC -> wq_list q <> [] ->
  runs (wait_queue_wake_all w true err) s (fun o => exists new s1 s',
    woken (wq_list q) w (wq_emptied q) err s s1 /\ quiet s1 s' /\ in_lock ∅ None {[new]} new s' /\
    o = obind (resched_outcome t new s') (fun _ => mret (Z.of_nat (length (wq_list q))))).
Proof.
  intros L Ht Hti Hq Hm Hne. destruct (in_lock_pc _ _ _ _ _ L) as (pc & Hpc & Et & Hpi).
  destruct (il_locked _ _ _ _ _ L) as [Hl _]. pose proof (wq_count_length _ _ _ _ _ _ _ L Hq) as Hcnt.
  assert (0 < Z.of_nat (length (wq_list q))) as Hpos by (destruct (wq_list q); [done|cbn; lia]).
  unfold wait_queue_wake_all, assert_locked. ksteps.
  rewrite Hcnt, (proj2 (Z.ltb_lt _ _) Hpos). cbn [andb kwhen].
  apply runs_step. eapply rets_mono; [by eapply requeue_current_run|]. intros _ s1 (L1 & Q1 & Eth1).
  assert (ks_wait_queues s1 !! w = Some q) as Hq1 by (by rewrite (qu_wait_queues _ _ Q1)).
  assert (t ∉ wq_list q) as Htq.
  { intros Hin. destruct (sw_wq _ _ _ _ _ _ _ (ki_sched _ _ _ _ (il_inv _ _ _ _ _ L)) w q t Hq Hin)
      as (_ & ? & ? & ? & _). destruct (in_lock_threads _ _ _ _ L) as (? & ? & ? & _). congruence. }
  apply runs_step. eapply rets_mono; [by apply wake_all_loop_run|].
  intros [mask ret] s2 (Hret & L2 & K2 & Hoth). cbn in Hret. subst ret.
  assert (ks_wait_queues s2 !! w = Some (wq_emptied q)) as Hq2
    by (rewrite (wk_wait_queues _ _ _ _ _ _ K2); apply lookup_insert_eq).
  ksteps. rewrite Z.add_0_l, (proj2 (Z.ltb_lt _ _) Hpos). cbn [kwhen].
  apply runs_bind_step. eapply rets_mono; [apply mp_reschedule_run|]. intros _ s3 [tr ->].
  assert (quiet s2 (set_ks_trace tr s2)) as Q3 by done.
  destruct (resched_run ∅ t (set_t_state THREAD_READY th) (set_ks_trace tr s2))
    as (new & s4 & _ & L4 & Q4 & E).
  - apply in_lock_trace. kcbn. by rewrite (fr_cpu _ _ (wk_frame _ _ _ _ _ _ K2)).
  - kcbn. by rewrite Hoth, Eth1, lookup_insert_eq by done.
  - done.
  - exists new, s2, s4. split_and!; [by eapply quiet_woken|by etransitivity|by rewrite union_empty_r_L in L4|].
    unfold mbind, K_bind. by rewrite E.
Qed.

(** Without waiters there is nothing to do. *)
Lemma wake_all_empty t w q resched err s :
  in_lock ∅ None ∅ t s -> ks_wait_queues s !! w = Some q -> wq_magic q = WAIT_QUEUE_MAGIC -> wq_list q = [] ->
  wait_queue_wake_all w resched err s = Ret 0 s.
Proof.
  intros L Hq Hm El. pose proof (wq_count_length _ _ _ _ _ _ _ L Hq) as Hc. rewrite El in Hc. cbn in Hc.
  destruct (in_lock_pc _ _ _ _ _ L) as (pc & Hpc & Et & Hpi). destruct (il_locked _ _ _ _ _ L) as [Hl _].
  apply rets_run. unfold wait_queue_wake_all, assert_locked. ksteps. rewrite Hc, El, andb_false_r. ksteps.
  cbn [wake_all_loop length]. ksteps. rewrite El. cbn [reverse rev_append]. by ksteps.
Qed.

(** ** Pulling one thread off its queue *)
Definition wq_remove (t : tid) (q : wait_queue_t) : wait_queue_t :=
  set_wq_count (wq_count q - 1) (set_wq_list (remove_elt t (wq_list q)) q).

Lemma unblock_not_blocked X Ho Y cur t th err s :
  in_lock X Ho Y cur s -> ks_threads s !! t = Some th -> t_state th <> THREAD_BLOCKED ->
  t_state th <> THREAD_DEATH ->
  thread_unblock_from_wait_queue t err s = Ret ERR_NOT_BLOCKED s.
Proof.
  intros L Ht Hs Hd. destruct (in_lock_pc _ _ _ _ _ L) as (pc & Hpc & Et & Hpi).
  destruct (il_locked _ _ _ _ _ L) as [Hl _].
  destruct (sw_alive _ _ _ _ _ _ _ (ki_sched _ _ _ _ (il_inv _ _ _ _ _ L)) t th Ht) as [Ha _].
  destruct (Ha Hd) as [Hm _].
  apply rets_run. unfold thread_unblock_from_wait_queue, assert_locked. ksteps.
  by rewrite bool_decide_false by done.
Qed.

Lemma unblock_run X Ho Y cur t th err s :
  in_lock X Ho Y cur s -> ks_threads s !! t = Some th -> t ∉ X -> t_state th = THREAD_BLOCKED ->
  exists w q, t_blocking_wait_queue th = Some w /\ ks_wait_queues s !! w = Some q /\ t ∈ wq_list q /\
  rets (thread_unblock_from_wait_queue t err) s (fun r s' => r = NO_ERROR /\
    in_lock X Ho Y cur s' /\ woken [t] w (wq_remove t q) err s s' /\ same_timers s s').
Proof.
  intros L Ht HX Hs. pose proof (ki_sched _ _ _ _ (il_inv _ _ _ _ _ L)) as W.
  destruct (in_lock_pc _ _ _ _ _ L) as (pc & Hpc & Et & Hpi).
  destruct (il_locked _ _ _ _ _ L) as [Hl _].
  destruct (sw_blocked _ _ _ _ _ _ _ W t th Ht HX Hs) as (w & q & Hb & Hq & Hin).
  destruct (sw_alive _ _ _ _ _ _ _ W t th Ht) as [Ha _]. destruct Ha as [Hm _]; [congruence|].
  destruct (sw_wq_count _ _ _ _ _ _ _ W w q Hq) as (Hnd & Hcnt & Hmag).
  destruct (sw_wq _ _ _ _ _ _ _ W w q t Hq Hin) as (_ & ? & ? & _ & _ & Hi). simplify_eq.
  assert (wq_magic q = WAIT_QUEUE_MAGIC) as Hmq by (apply Hmag; intros E; rewrite E in Hin; by apply not_elem_of_nil in Hin).
  assert (queue_node_in_list s t = true) as Hin'.
  { unfold queue_node_in_list. apply orb_true_iff. right. apply bool_decide_true. by exists w, q. }
  pose proof (remove_elt_wq t w q W Hq Hin) as [E1 E2].
  exists w, q. split_and!; [done..|].
  unfold thread_unblock_from_wait_queue, assert_locked. ksteps.
  rewrite bool_decide_true by done. cbn [negb]. rewrite Hb. ksteps.
  assert (queue_node_delete t s = put_wq w (set_wq_list (remove_elt t (wq_list q)) q) s) as Ed.
  { unfold queue_node_delete, put_wq. rewrite E1, E2. by destruct s. }
  rewrite Ed. ksteps. rewrite put_wq_twice.
  match goal with |- rets _ ?s1 _ =>
    change s1 with (put_thread t (woken_thread err th) (put_wq w (wq_remove t q) s)) end.
  eapply rets_mono; [eapply (wake_insert_run X Ho Y _ t (woken_thread err th)); [done|apply lookup_insert_eq|done..|]|].
  { eapply in_lock_wq_del; [done..| |done|done|done]. by apply remove_elt_perm. }
  cbv beta. intros _ s2 H2. kstep. eapply rets_mono; [exact H2|].
  intros _ s' (L' & Q & _ & St). ksteps. split_and!; [done..| |exact St].
  eapply woken_quiet; [by apply woken_base|done].
Qed.
End wait.
