(* ===== verification/LifeOps.v ===== *)
(** * Threads that come and go

    Creating, resuming, ending and joining threads, on top of the invariant:
    how it moves when a thread is added to the kernel or taken out of it, and
    what each operation does. *)
From S2P Require Import Prelude KState Timer Thread WaitQueue ThreadLife Logic SchedInv TimerInv SchedSpec SchedOps WaitOps.

(** ** How the invariant moves *)
Section moves.
Context {X : gset tid} {H : option Z} {ths : gmap tid thread_t} {rq : list (list tid)} {bm : Z}
  {wqs : gmap wqid wait_queue_t} {cur : gmap Z tid}.

Lemma sched_new t th :
  sched_wf X H ths rq bm wqs cur -> ths !! t = None -> alive_ok th -> pad_ok th ->
  t_state th = THREAD_SUSPENDED \/ t_state th = THREAD_DEATH -> thread_is_idle th = false -> sched_wf X H (<[t := th]> ths) rq bm wqs cur.
Proof.
  intros W Hn Ha Hp Hs Hi. assert (forall u thu, ths !! u = Some thu -> u <> t) as Hne by congruence. destruct W. split; try done.
  - intros i q u Hq Hu. destruct (sw_rq i q u Hq Hu) as (? & thu & Hthu & ?). split; [done|]. exists thu.
    by rewrite lookup_insert_ne by (intros ->; congruence).
  - intros w q u Hq Hu. destruct (sw_wq w q u Hq Hu) as (? & thu & Hthu & ?). split; [done|]. exists thu.
    by rewrite lookup_insert_ne by (intros ->; congruence).
  - intros u thu [[<- <-]|[? ?]]%lookup_insert_Some; eauto.
  - intros u thu [[<- <-]|[? ?]]%lookup_insert_Some Hu; [destruct Hs; congruence|eauto].
  - intros u thu [[<- <-]|[? ?]]%lookup_insert_Some Hu; [destruct Hs; congruence|eauto].
  - intros u thu [[<- <-]|[? ?]]%lookup_insert_Some Hu; [destruct Hs; congruence|eauto].
  - intros c u Hc HH. destruct (sw_cur c u Hc HH) as (? & thu & Hthu & ?). split; [done|]. exists thu.
    by rewrite lookup_insert_ne by (intros ->; congruence).
  - intros c ->. destruct (sw_hole c eq_refl) as (u & thu & ? & Hthu & ?). exists u, thu.
    by rewrite lookup_insert_ne by (intros ->; congruence).
  - intros c Hc. destruct (sw_idle c Hc) as (thc & Hthc & ?). exists thc.
    by rewrite lookup_insert_ne by (intros ->; congruence).
  - intros u thu [[<- <-]|[? ?]]%lookup_insert_Some Hidle; [congruence|eauto].
Qed.

(** A wait queue nobody is on may be initialised again. *)
Lemma sched_wq_init w :
  sched_wf X H ths rq bm wqs cur -> (forall q, wqs !! w = Some q -> wq_list q = []) ->
  sched_wf X H ths rq bm (<[w := WAIT_QUEUE_INITIAL_VALUE]> wqs) cur.
Proof.
  intros W He. destruct W. split; try done.
  - intros v q [[<- <-]|[? ?]]%lookup_insert_Some; [|eauto]. split_and!; [constructor|done|done].
  - intros v q u [[<- <-]|[? ?]]%lookup_insert_Some Hu; [by apply elem_of_nil in Hu|eauto].
  - intros u thu Hu HX Hs. destruct (sw_blocked u thu Hu HX Hs) as (v & q & Hv & Hq & Hin). exists v, q. split_and!; try done.
    rewrite lookup_insert_ne; [done|]. intros <-. rewrite (He q Hq) in Hin. by apply elem_of_nil in Hin.
Qed.

(** A dead thread goes. *)
Lemma sched_delete t th :
  sched_wf X None ths rq bm wqs cur -> ths !! t = Some th -> t_state th = THREAD_DEATH ->
  sched_wf X None (delete t ths) rq bm wqs cur.
Proof.
  intros W Ht Hs.
  assert (forall u thu, ths !! u = Some thu -> t_state thu <> THREAD_DEATH -> delete t ths !! u = Some thu) as Hd.
  { intros u thu Hu Hn. rewrite lookup_delete_ne; [done|]. intros <-. congruence. }
  destruct W. split; try done.
  - intros i q u Hq Hu. destruct (sw_rq i q u Hq Hu) as (? & thu & Hthu & Hs' & ?). split; [done|]. exists thu.
    rewrite (Hd u thu); [done|done|congruence].
  - intros w q u Hq Hu. destruct (sw_wq w q u Hq Hu) as (? & thu & Hthu & Hs' & ?). split; [done|]. exists thu.
    rewrite (Hd u thu); [done|done|congruence].
  - intros u thu [? ?]%lookup_delete_Some; eauto.
  - intros u thu [? ?]%lookup_delete_Some; eauto.
  - intros u thu [? ?]%lookup_delete_Some; eauto.
  - intros u thu [? ?]%lookup_delete_Some; eauto.
  - intros c u Hc HH. destruct (sw_cur c u Hc HH) as (? & thu & Hthu & Hs' & ?). split; [done|]. exists thu.
    rewrite (Hd u thu); [done|done|congruence].
  - intros c Hc. destruct (sw_idle c Hc) as (thc & Hthc & ? & ? & Hs'). exists thc.
    rewrite (Hd _ thc); [done|done|]. destruct Hs'; congruence.
  - intros u thu [? ?]%lookup_delete_Some; eauto.
Qed.
End moves.

Section kinv_moves.
Context `{KConfig}.

(** The kernel with a new thread, suspended, and the wait queue of its joiners. *)
Definition added (t : tid) (th : thread_t) (s : kstate) : kstate :=
  put_wq (WqRetcode t) WAIT_QUEUE_INITIAL_VALUE (put_thread t th s).

Record addable (t : tid) (s : kstate) : Prop := {
  ad_fresh : ks_threads s !! t = None;
  ad_waiters : forall q, ks_wait_queues s !! WqRetcode t = Some q -> wq_list q = [];
}.

Lemma kinv_added X Ho Y t th s :
  kinv X Ho Y s -> addable t s -> alive_ok th -> pad_ok th ->
  t_state th = THREAD_SUSPENDED \/ t_state th = THREAD_DEATH -> thread_is_idle th = false ->
  kinv X Ho Y (added t th s).
Proof.
  intros [W T P R] [Hn Hw] Ha Hp Hs Hi. unfold added. split.
  - by apply sched_wq_init; [apply sched_new|].
  - apply (timers_threads ∅ Y ∅ Y (ks_threads s)); [done|]. intros c q u tm Hq Hu _ Hok.
    destruct Hok as (thu & Hthu & ?); [set_solver|]. exists thu. split; [|done]. kcbn. rewrite lookup_insert_ne; [done|congruence].
  - intros c q u thu Hq Hc Hthu. kcbn in Hthu. apply lookup_insert_Some in Hthu as [[<- <-]|[? Hthu]]; [|by apply (P c q u)].
    exfalso. change (currents s !! c = Some t) in Hc. destruct (decide (Some c = Ho)) as [<-|Hne].
    + destruct (sw_hole _ _ _ _ _ _ _ W c eq_refl) as (v & thv & Hv & Hthv & _). congruence.
    + destruct (sw_cur _ _ _ _ _ _ _ W c t Hc Hne) as (_ & thv & Hthv & _). congruence.
  - intros u Hu. kcbn in Hu. kcbn. apply lookup_insert_is_Some' in Hu as [<-|Hu]; [rewrite lookup_insert_eq; by eexists|].
    destruct (decide (u = t)) as [->|Hne]; [rewrite lookup_insert_eq; by eexists|]. rewrite lookup_insert_ne by congruence. by apply R.
Qed.

(** ... without a thread that is dead. *)
Lemma kinv_deleted X Y t th s :
  kinv X None Y s -> ks_threads s !! t = Some th -> t_state th = THREAD_DEATH ->
  kinv X None Y (set_ks_threads (delete t (ks_threads s)) s).
Proof.
  intros [W T P R] Ht Hs. split.
  - by eapply sched_delete.
  - apply (timers_threads ∅ Y ∅ Y (ks_threads s)); [done|]. intros c q u tm Hq Hu _ Hok.
    destruct Hok as (thu & Hthu & Hst); [set_solver|]. exists thu. split; [|done]. kcbn. rewrite lookup_delete_ne; [done|].
    intros <-. assert (thu = th) as -> by congruence. unfold stack_timer_ok in Hst. rewrite Hs in Hst. naive_solver.
  - intros c q u thu Hq Hc Hthu. kcbn in Hthu. apply lookup_delete_Some in Hthu as [_ Hthu]. by apply (P c q u).
  - intros u [thu Hu]. kcbn in Hu. apply lookup_delete_Some in Hu as [_ Hu]. apply R. by eexists.
Qed.
End kinv_moves.

Section create.
Context `{KConfig}.

Lemma rets_malloc p rest s (P : Z -> kstate -> Prop) :
  ks_allocs s = Some p :: rest -> P p (set_ks_allocs rest s) -> rets malloc s P.
Proof. intros E HP. unfold rets, malloc. by rewrite E. Qed.

Lemma rets_malloc_fails s (P : Z -> kstate -> Prop) :
  (ks_allocs s = [] \/ exists rest, ks_allocs s = None :: rest) -> (forall rest, P 0 (set_ks_allocs rest s)) -> rets malloc s P.
Proof.
  intros [E|[rest E]] HP; unfold rets, malloc; rewrite E; [|done]. specialize (HP []). rewrite <- E in HP. by destruct s.
Qed.

(** What [thread_create] makes of the memory it gets. *)
Definition created (name : string) (entry arg priority stk stack_size : Z) (tls : list Z) : thread_t :=
  Thread THREAD_MAGIC priority THREAD_SUSPENDED 0
    (Z.lor (if 1 <? LK_DEBUGLEVEL then Z.lor THREAD_FLAG_FREE_STRUCT THREAD_FLAG_DEBUG_STACK_BOUNDS_CHECK else THREAD_FLAG_FREE_STRUCT)
       THREAD_FLAG_FREE_STACK)
    (-1) (-1) None None NO_ERROR stk (if 1 <? LK_DEBUGLEVEL then u64 (stack_size + THREAD_STACK_PADDING_SIZE) else stack_size)
    (if 1 <? LK_DEBUGLEVEL then replicate (Z.to_nat (THREAD_STACK_PADDING_SIZE / 4)) STACK_DEBUG_WORD else [])
    entry arg 0 (<[TLS_ENTRY_ERRNO := 0]> tls) (thread_name name) 0 0 0.

(** The kernel with the new thread in its list. *)
Record created_in (t : tid) (th : thread_t) (rest : list (option Z)) (s s' : kstate) : Prop := {
  cr_view : kview s' = kview (added t th s);
  cr_cpu : ks_cpu s' = ks_cpu s;
  cr_ints : cpu_view s' (ks_cpu s) = cpu_view s (ks_cpu s);
  cr_list : ks_thread_list s' = t :: ks_thread_list s;
  cr_objs : ks_objs s' = ks_objs s;
  cr_allocs : ks_allocs s' = rest;
}.

Lemma created_ok name entry arg priority stk stack_size tls :
  0 <= priority < NUM_PRIORITIES ->
  let th := created name entry arg priority stk stack_size tls in
  alive_ok th /\ pad_ok th /\ t_state th = THREAD_SUSPENDED /\ thread_is_idle th = false.
Proof.
  intros Hp th. unfold th, created, alive_ok, pad_ok, thread_is_idle. kcbn. destruct (1 <? LK_DEBUGLEVEL); split_and!; try done.
Qed.

(** The list of threads is updated under the lock. *)
Lemma thread_list_add_run t0 t s :
  at_rest t0 s -> exists s',
  (state ← THREAD_LOCK; kmod (fun s => set_ks_thread_list (t :: ks_thread_list s) s);; THREAD_UNLOCK state;; mret t) s =
    Unlocked s' (fun s'' => Ret t s'') /\ at_rest t0 s' /\ kview s' = kview s /\ ks_cpu s' = ks_cpu s /\
    cpu_view s' (ks_cpu s) = cpu_view s (ks_cpu s) /\ ks_thread_list s' = t :: ks_thread_list s /\
    ks_objs s' = ks_objs s /\ ks_allocs s' = ks_allocs s.
Proof.
  intros A. destruct (rets_inv _ _ _ (THREAD_LOCK_run t0 s A)) as (saved & s1 & E & L & F & V & Hv).
  set (s2 := set_ks_thread_list (t :: ks_thread_list s1) s1).
  assert (in_lock ∅ None ∅ t0 s2) as L2 by (apply (in_lock_ext _ _ _ _ s1); [done|done|apply L|done]).
  destruct (THREAD_UNLOCK_run t0 s2 saved L2) as (s3 & E3 & A3 & F3 & V3 & Hv3). exists s3.
  unfold mbind at 1, K_bind at 1. rewrite E. cbn [obind].
  change ((kmod _ ≫= _) s1) with (obind (THREAD_UNLOCK saved s2) (fun _ => mret t)). rewrite E3. cbn [obind].
  rewrite (fr_cpu _ _ F3) in Hv3 |- *. rewrite (fr_thread_list _ _ F3), (fr_objs _ _ F3), (fr_allocs _ _ F3). cbn.
  change (ks_cpu s2) with (ks_cpu s1) in Hv3.
  rewrite (fr_thread_list _ _ F), (fr_objs _ _ F), (fr_allocs _ _ F), (fr_cpu _ _ F) in *.
  split_and!; try done; [by rewrite V3|congruence].
Qed.

Lemma thread_create_run t0 th0 name entry arg priority stack_size p stk rest s :
  at_rest t0 s -> ks_threads s !! t0 = Some th0 -> ks_allocs s = Some p :: Some stk :: rest -> p <> 0 -> stk <> 0 ->
  addable p s -> 0 <= priority < NUM_PRIORITIES ->
  exists s', thread_create name entry arg priority stack_size s = Unlocked s' (fun s'' => Ret p s'') /\ at_rest t0 s' /\
    created_in p (created name entry arg priority stk stack_size (t_tls th0)) rest s s'.
Proof.
  intros A Ht0 Hal Hp Hstk Hadd Hprio.
  assert (p <> t0) as Hne by (intros ->; pose proof (ad_fresh _ _ Hadd); congruence).
  destruct (current_pc _ _ (ar_cur _ _ A)) as (pc & Hpc & Et).
  set (th := created name entry arg priority stk stack_size (t_tls th0)).
  assert (forall s1, kview s1 = kview (added p th s) -> ks_thread_lock s1 = false -> ks_cpu s1 = ks_cpu s -> at_rest t0 s1) as Hrest.
  { intros s1 V Hl Ec. destruct (created_ok name entry arg priority stk stack_size (t_tls th0) Hprio) as (? & ? & ? & ?).
    split; [eapply kinv_ext; [exact V|]; apply kinv_added; try done; [apply A|by left]|done|].
    rewrite Ec, (kview_currents _ _ V). apply A. }
  unfold created in th.
  match goal with |- exists s', ?m = _ /\ @?P s' => change (runs (thread_create name entry arg priority stack_size) s
    (fun o => exists s', o = Unlocked s' (fun s'' => Ret p s'') /\ P s')) end.
  unfold thread_create, thread_create_etc. change (0 =? 0) with true. cbv iota.
  apply runs_step. apply rets_bind. eapply rets_malloc; [done|]. apply rets_ret. cbv beta iota.
  rewrite (proj2 (Z.eqb_neq _ _) Hp). unfold init_thread_struct, wait_queue_init.
  ksteps. unfold create_stack. change (0 =? 0) with true. cbv iota.
  apply runs_step. apply rets_bind. eapply rets_malloc; [done|]. ksteps.
  rewrite (proj2 (Z.eqb_neq _ _) Hstk).
  destruct (1 <? LK_DEBUGLEVEL) eqn:Ed; ksteps; rewrite Et; ksteps.
  all: unfold runs; match goal with |- exists s', _ ?S = _ /\ _ => destruct (thread_list_add_run t0 p S) as (s' & E & A' & V & Ec & Hv & El & Eo & Ea) end.
  all: try (apply Hrest; [|apply A|done]; unfold kview, added; kcbn; rewrite !insert_insert_eq; done).
  all: exists s'; split; [exact E|]; split; [exact A'|]; split; try done.
  all: rewrite V; unfold kview, added; kcbn; rewrite !insert_insert_eq; done.
Qed.
(** Out of memory: nothing is left behind. *)
Definition out_of_memory (allocs : list (option Z)) : Prop := allocs = [] \/ exists rest, allocs = None :: rest.

Lemma kinv_wq_init X Ho Y t s :
  kinv X Ho Y s -> addable t s -> kinv X Ho Y (put_wq (WqRetcode t) WAIT_QUEUE_INITIAL_VALUE s).
Proof.
  intros [W T P R] [Hn Hw]. split; [by apply sched_wq_init|done|done|]. intros u Hu. kcbn.
  rewrite lookup_insert_ne; [by apply R|]. intros [= ->]. kcbn in Hu. rewrite Hn in Hu. by destruct Hu.
Qed.

Lemma thread_create_no_struct t0 name entry arg priority stack_size s :
  at_rest t0 s -> out_of_memory (ks_allocs s) ->
  rets (thread_create name entry arg priority stack_size) s (fun r s' => r = 0 /\ at_rest t0 s' /\
    ks_threads s' = ks_threads s /\ ks_trace s' = ks_trace s).
Proof.
  intros A Ho. unfold thread_create, thread_create_etc. change (0 =? 0) with true. cbv iota.
  apply rets_bind, rets_bind. apply rets_malloc_fails; [done|]. intros rest. apply rets_ret. cbv beta iota.
  change (0 =? 0) with true. cbv iota. ksteps. split_and!; try done. destruct A. split; try done. by apply (kinv_ext _ _ _ s).
Qed.

Lemma thread_create_no_stack t0 name entry arg priority stack_size p rest s :
  at_rest t0 s -> ks_allocs s = Some p :: rest -> p <> 0 -> addable p s -> out_of_memory rest ->
  rets (thread_create name entry arg priority stack_size) s (fun r s' => r = 0 /\ at_rest t0 s' /\
    ks_threads s' = ks_threads s /\ ks_trace s' = EvFree p :: ks_trace s).
Proof.
  intros A Hal Hp Hadd Ho. unfold thread_create, thread_create_etc. change (0 =? 0) with true. cbv iota.
  apply rets_bind, rets_bind. eapply rets_malloc; [done|]. apply rets_ret. cbv beta iota.
  rewrite (proj2 (Z.eqb_neq _ _) Hp). unfold init_thread_struct, wait_queue_init.
  ksteps. unfold create_stack. change (0 =? 0) with true. cbv iota.
  ksteps. apply rets_malloc_fails; [done|]. intros rest'. ksteps. change (0 =? 0) with true. cbv iota.
  assert (has_flag (if 1 <? LK_DEBUGLEVEL then Z.lor THREAD_FLAG_FREE_STRUCT THREAD_FLAG_DEBUG_STACK_BOUNDS_CHECK
    else THREAD_FLAG_FREE_STRUCT) THREAD_FLAG_FREE_STRUCT = true) as -> by (by destruct (1 <? LK_DEBUGLEVEL)).
  unfold free_thread. ksteps.
  match goal with |- _ /\ at_rest t0 ?S /\ _ => set (s1 := S) end.
  assert (ks_threads s1 = ks_threads s) as Eth.
  { unfold s1. kcbn. rewrite !insert_insert_eq, delete_insert_eq, delete_id; [done|]. apply Hadd. }
  split_and!; [done| |exact Eth|done]. destruct A as [I Hl Hc]. split; [|done|done].
  apply (kinv_ext _ _ _ (put_wq (WqRetcode p) WAIT_QUEUE_INITIAL_VALUE s)); [|by apply kinv_wq_init].
  unfold kview. rewrite Eth. done.
Qed.
End create.

Section resume.
Context `{KConfig}.

(** A suspended thread is on no queue and may be woken. *)
Lemma suspended_transit X Ho Y t0 t th s :
  in_lock X Ho Y t0 s -> t ∉ X -> ks_threads s !! t = Some th -> t_state th = THREAD_SUSPENDED ->
  (forall c, Ho = Some c -> currents s !! c <> Some t) ->
  in_lock ({[t]} ∪ X) Ho Y t0 (put_thread t (set_t_state THREAD_READY th) s).
Proof.
  intros [I Hl Hc] HX Ht Hs Hne. pose proof I as [W T P R]. split; [|done|done].
  eapply (kinv_put_transit _ _ _ _ th); [|set_solver|done| | |done].
  - split; try done. apply sched_take; [done| |].
    + split.
      * intros i q Hq Hin. destruct (sw_rq _ _ _ _ _ _ _ W i q t Hq Hin) as (_ & ? & ? & ? & _). congruence.
      * intros w q Hq Hin. destruct (sw_wq _ _ _ _ _ _ _ W w q t Hq Hin) as (_ & ? & ? & ? & _). congruence.
    + intros c Hcur. destruct (decide (Some c = Ho)) as [|Hn]; [done|].
      destruct (sw_cur _ _ _ _ _ _ _ W c t Hcur Hn) as (_ & ? & ? & ? & _). congruence.
  - eapply transit_ok_ready; [exact W|done|congruence|by destruct th|done..].
  - intros tm Hok. unfold stack_timer_ok in Hok. rewrite Hs in Hok. naive_solver.
Qed.

(** The thread is ready, at the head of its run queue; the caller yields unless
    it had interrupts off. *)
Definition resumed (t0 t : tid) (th : thread_t) (s : kstate) (o : outcome Z) : Prop :=
  exists s' saved q, cpu_view s (ks_cpu s) = Some (t0, saved) /\
    o = Unlocked s' (fun s'' => (kwhen (negb saved) thread_yield;; mret NO_ERROR) s'') /\
    at_rest t0 s' /\ cpu_view s' (ks_cpu s') = Some (t0, saved) /\
    ks_threads s' = <[t := set_t_state THREAD_READY th]> (ks_threads s) /\
    ks_run_queue s !! Z.to_nat (t_priority th) = Some q /\
    ks_run_queue s' = <[Z.to_nat (t_priority th) := t :: q]> (ks_run_queue s) /\
    ks_wait_queues s' = ks_wait_queues s /\ frame s s'.

Lemma suspended_not_idle X Ho s t th :
  swf X Ho s -> ks_threads s !! t = Some th -> t_state th = THREAD_SUSPENDED -> thread_is_idle th = false.
Proof.
  intros W Ht Hs. apply not_true_is_false. intros Hi. destruct (sw_idle_only _ _ _ _ _ _ _ W t th Ht Hi) as (c & -> & Hcc).
  destruct (sw_idle _ _ _ _ _ _ _ W c Hcc) as (th' & ? & _ & _ & [?|?]); congruence.
Qed.

Lemma thread_resume_run t0 t th s :
  at_rest t0 s -> ks_threads s !! t = Some th -> t_state th = THREAD_SUSPENDED -> resumed t0 t th s (thread_resume t s).
Proof.
  intros A Ht Hs. destruct (current_pc _ _ (ar_cur _ _ A)) as (pc & Hpc & Et).
  pose proof (ki_sched _ _ _ _ (ar_inv _ _ A)) as W. assert (t_state th <> THREAD_DEATH) as Hnd by congruence.
  destruct (sw_alive _ _ _ _ _ _ _ W t th Ht) as [Ha _]. destruct (Ha Hnd) as [Hm Hprio].
  change (runs (thread_resume t) s (resumed t0 t th s)). unfold thread_resume. do 4 kstep.
  apply runs_step. eapply rets_mono; [by apply THREAD_LOCK_run|]. intros saved s1 (L1 & F1 & V1 & Hv).
  assert (pc_ints_disabled pc = saved) as -> by (unfold cpu_view in Hv; rewrite Hpc in Hv; cbn in Hv; congruence).
  assert (ks_threads s1 !! t = Some th) as Ht1 by (by rewrite (kview_threads _ _ V1)).
  kstep. rewrite bool_decide_true by done. cbv beta iota. set (th' := set_t_state THREAD_READY th).
  pose proof (suspended_transit ∅ None ∅ t0 t th s1 L1 ltac:(set_solver) Ht1 Hs ltac:(done)) as L2. fold th' in L2.
  pose proof (suspended_not_idle _ _ _ _ _ W Ht Hs) as Hi.
  apply runs_bind_step. kprim. apply runs_bind_step.
  eapply rets_mono; [apply (insert_run ∅ None ∅ true t0 t th'); [done|set_solver|apply lookup_insert_eq|done..]|].
  intros _ s2 (E2 & L3 & F2). destruct E2 as (q & Hq & E2).
  assert (ks_threads s2 = <[t := th']> (ks_threads s1)) as Eth by (by rewrite E2).
  kstep. apply runs_step. eapply rets_mono; [apply (wakeup_cpu_for_thread_run t th'); by rewrite Eth, lookup_insert_eq|].
  intros _ s3 [tr ->]. set (s3 := set_ks_trace tr s2).
  destruct (THREAD_UNLOCK_run t0 s3 saved) as (s4 & E4 & A4 & F4 & V4 & Hv4); [by apply in_lock_trace|].
  unfold runs, mbind at 1, K_bind at 1. rewrite E4. cbn [obind]. exists s4, saved, q.
  pose proof (put_thread_quiet t th th' s1 Ht1 eq_refl) as Q1.
  assert (frame s s4) as F by (etransitivity; [exact F1|]; etransitivity; [apply Q1|]; etransitivity; [exact F2|]; transitivity s3; [by split|exact F4]).
  subst s2. unfold kview in V1, V4. injection V1 as Et1 Er1 _ Ew1 _ _ _. injection V4 as Et4 Er4 _ Ew4 _ _ _.
  split_and!; try done; [by rewrite Et4, <- Et1| |by rewrite Er4, <- Er1|by rewrite Ew4, <- Ew1]. by rewrite <- Er1.
Qed.
End resume.

Section dead.
Context `{KConfig}.

(** A dead thread's fields are its own. *)
Definition dead_same (th th' : thread_t) : Prop :=
  t_state th' = THREAD_DEATH /\ t_curr_cpu th' = t_curr_cpu th /\ t_pinned_cpu th' = t_pinned_cpu th /\
  t_stack_pad th' = t_stack_pad th /\ thread_is_idle th' = thread_is_idle th /\
  thread_is_real_time_or_idle th' = thread_is_real_time_or_idle th.

Lemma kinv_put_dead X Ho Y t th th' s :
  kinv X Ho Y s -> t ∉ X -> ks_threads s !! t = Some th -> t_state th = THREAD_DEATH -> dead_same th th' ->
  kinv X Ho Y (put_thread t th' s).
Proof.
  intros [W T P R] HX Ht Hs (Hs' & Ec & En & Ep & Ei & Er). destruct (sw_alive _ _ _ _ _ _ _ W t th Ht) as [_ Hpad].
  assert (thread_is_idle th = true -> False) as Hni.
  { intros Hi. destruct (sw_idle_only _ _ _ _ _ _ _ W t th Ht Hi) as (c & -> & Hc).
    destruct (sw_idle _ _ _ _ _ _ _ W c Hc) as (th2 & ? & _ & _ & [?|?]); congruence. }
  split.
  - unfold swf. kcbn. apply (sched_rest t th'); [|apply lookup_insert_eq|by right; right; left].
    apply (sched_put_transit t th); [|set_solver|done|].
    + apply sched_take; [done| |].
      * split.
        -- intros i q Hq Hin. destruct (sw_rq _ _ _ _ _ _ _ W i q t Hq Hin) as (_ & ? & ? & ? & _). congruence.
        -- intros w q Hq Hin. destruct (sw_wq _ _ _ _ _ _ _ W w q t Hq Hin) as (_ & ? & ? & ? & _). congruence.
      * intros c Hcur. destruct (decide (Some c = Ho)) as [|Hn]; [done|].
        destruct (sw_cur _ _ _ _ _ _ _ W c t Hcur Hn) as (_ & ? & ? & ? & _). congruence.
    + split_and!; try done; first [unfold pad_ok; by rewrite Ep|by intros ?%Hni].
  - eapply timers_put_thread; [done..|]. intros _ tm Hok. unfold stack_timer_ok in Hok. rewrite Hs in Hok. naive_solver.
  - intros c q u thu Hq Hu Hthu. kcbn in Hthu. apply lookup_insert_Some in Hthu as [[<- <-]|[??]]; [|by apply (P c q u)].
    rewrite Er. by apply (P c q t).
  - intros u Hu. apply R. kcbn in Hu. apply lookup_insert_is_Some' in Hu as [<-|]; [by eexists|done].
Qed.

Lemma in_lock_put_dead X Ho Y t0 t th th' s :
  in_lock X Ho Y t0 s -> t ∉ X -> ks_threads s !! t = Some th -> t_state th = THREAD_DEATH -> dead_same th th' ->
  in_lock X Ho Y t0 (put_thread t th' s).
Proof. intros [I Hl Hc] HX Ht Hs Hd. split; [|done|done]. eapply kinv_put_dead; eauto. Qed.

(** What [thread_exit] leaves for the scheduler, [s] being where it started. *)
Record exited (t : tid) (th : thread_t) (retcode : Z) (s s1 : kstate) (th1 : thread_t) : Prop := {
  ex_thread : ks_threads s1 !! t = Some th1;
  ex_dead : t_state th1 = THREAD_DEATH;
  ex_retcode : t_retcode th1 = retcode;
  ex_objs : ks_objs s1 = ks_objs s;
  ex_rest : if has_flag (t_flags th) THREAD_FLAG_DETACHED then
      t_magic th1 = 0 /\ ks_thread_list s1 = remove_elt t (ks_thread_list s) /\ ks_wait_queues s1 = ks_wait_queues s /\
      ks_trace s1 = (if has_flag (t_flags th) THREAD_FLAG_FREE_STRUCT then [EvDelayedFree t] else []) ++
        (if has_flag (t_flags th) THREAD_FLAG_FREE_STACK && negb (t_stack th =? 0) then [EvDelayedFree (t_stack th)] else []) ++
        ks_trace s
    else
      t_magic th1 = THREAD_MAGIC /\ ks_thread_list s1 = ks_thread_list s /\
      exists q, ks_wait_queues s !! WqRetcode t = Some q /\
        ks_wait_queues s1 = <[WqRetcode t := wq_emptied q]> (ks_wait_queues s) /\
        forall u, u ∈ wq_list q -> t_wait_queue_block_ret <$> ks_threads s1 !! u = Some NO_ERROR;
}.

Definition dying (retcode : Z) (th : thread_t) : thread_t := set_t_retcode retcode (set_t_state THREAD_DEATH th).

Lemma dying_run t th retcode s :
  in_lock ∅ None ∅ t s -> ks_threads s !! t = Some th -> thread_is_idle th = false ->
  in_lock ∅ (Some (ks_cpu s)) ∅ t (put_thread t (dying retcode th) s).
Proof.
  intros L Ht Hi. eapply in_lock_rest; [eapply give_up_run; [exact L|exact Ht| |done]|apply lookup_insert_eq|by right; right; left].
  destruct (sw_alive _ _ _ _ _ _ _ (ki_sched _ _ _ _ (il_inv _ _ _ _ _ L)) _ _ Ht) as [_ Hpad].
  split_and!; try done. congruence.
Qed.

Lemma clear_bounds_flags th :
  let th' := set_t_flags (clear_flag (t_flags th) THREAD_FLAG_DEBUG_STACK_BOUNDS_CHECK) th in
  thread_is_idle th' = thread_is_idle th /\ thread_is_real_time_or_idle th' = thread_is_real_time_or_idle th.
Proof.
  unfold thread_is_idle, thread_is_real_time_or_idle, has_flag, clear_flag. cbn [t_flags set_t_flags].
  assert (forall m, Z.land m THREAD_FLAG_DEBUG_STACK_BOUNDS_CHECK = 0 ->
    Z.land (Z.ldiff (t_flags th) THREAD_FLAG_DEBUG_STACK_BOUNDS_CHECK) m = Z.land (t_flags th) m) as Hm.
  { intros m Hm. apply Z.bits_inj'. intros n Hn. rewrite !Z.land_spec, Z.ldiff_spec.
    assert (Z.testbit (Z.land m THREAD_FLAG_DEBUG_STACK_BOUNDS_CHECK) n = false) as Hb by (rewrite Hm; apply Z.bits_0).
    rewrite Z.land_spec in Hb. destruct (Z.testbit m n); [|by rewrite !andb_false_r]. cbn in Hb. rewrite Hb. cbn.
    by rewrite !andb_true_r. }
  rewrite !Hm by done. done.
Qed.

Lemma exit_detached_run t0 Ho t th s :
  in_lock ∅ Ho ∅ t0 s -> ks_threads s !! t = Some th -> t_state th = THREAD_DEATH ->
  rets (exit_detached t th) s (fun _ s' => in_lock ∅ Ho ∅ t0 s' /\ exists th', ks_threads s' !! t = Some th' /\
    dead_same th th' /\ t_retcode th' = t_retcode th /\ t_magic th' = 0 /\ ks_cpu s' = ks_cpu s /\ ks_objs s' = ks_objs s /\
    ks_thread_list s' = remove_elt t (ks_thread_list s) /\ ks_wait_queues s' = ks_wait_queues s /\
    ks_trace s' = (if has_flag (t_flags th) THREAD_FLAG_FREE_STRUCT then [EvDelayedFree t] else []) ++
        (if has_flag (t_flags th) THREAD_FLAG_FREE_STACK && negb (t_stack th =? 0) then [EvDelayedFree (t_stack th)] else []) ++
        ks_trace s).
Proof.
  intros L Ht Hs. unfold exit_detached, thread_list_delete. ksteps.
  set (s1 := set_ks_thread_list (remove_elt t (ks_thread_list s)) s).
  assert (in_lock ∅ Ho ∅ t0 s1) as L1 by (apply (in_lock_ext _ _ _ _ s); [done|done|apply L|done]).
  assert (forall th' s', dead_same th th' -> kview s' = kview (put_thread t th' s1) -> ks_cpu s' = ks_cpu s1 -> locked s' ->
    in_lock ∅ Ho ∅ t0 s') as Hin.
  { intros th' s' Hd V Ec Hl. apply (in_lock_ext _ _ _ _ (put_thread t th' s1)); [done..|].
    eapply in_lock_put_dead; [exact L1|set_solver|exact Ht|done|done]. }
  destruct (clear_bounds_flags (set_t_magic 0 th)) as [Hi Hr].
  destruct (has_flag (t_flags th) THREAD_FLAG_FREE_STACK && negb (t_stack th =? 0)); ksteps;
    destruct (has_flag (t_flags th) THREAD_FLAG_FREE_STRUCT); ksteps.
  all: split; [eapply Hin; [|unfold kview; kcbn; rewrite ?insert_insert_eq; reflexivity|done|apply L1]
              |eexists; split; [rewrite ?insert_insert_eq; apply lookup_insert_eq|]]; split_and!; done.
Qed.

Definition exits (t : tid) (th : thread_t) (retcode : Z) (s : kstate) (o : outcome unit) : Prop :=
  exists s1 th1, exited t th retcode s s1 th1 /\
    blocks t s1 (fun s' => exists th', ks_threads s' !! t = Some th' /\ core_same th1 th' /\ t_state th' = THREAD_DEATH)
      (fun s' => panic s') o.

Lemma THREAD_LOCK_trace s saved s' : THREAD_LOCK s = Ret saved s' -> ks_trace s' = ks_trace s.
Proof.
  unfold THREAD_LOCK, mbind, K_bind, arch_ints_disabled, mod_cpu, get_cpu, mbind, K_bind. cbn.
  destruct (ks_percpu s !! ks_cpu s) eqn:E; cbn; [|done]. rewrite E. cbn. destruct (ks_thread_lock s); cbn; [done|].
  by intros [= _ <-].
Qed.

(** [thread_exit] ends the thread: it is dead, and gives up the cpu to another
    thread, with the invariant; it is on no queue any more. *)
Lemma thread_exit_run t th retcode s :
  at_rest t s -> ks_threads s !! t = Some th -> thread_is_idle th = false ->
  exits t th retcode s (thread_exit retcode s).
Proof.
  intros A Ht Hi. destruct (current_pc _ _ (ar_cur _ _ A)) as (pc & Hpc & Et).
  destruct (current_thread _ _ _ _ (ki_sched _ _ _ _ (ar_inv _ _ A)) (ar_cur _ _ A)) as (th0 & Ht0 & Hs & Hcc & Hm & _).
  assert (th0 = th) as -> by congruence.
  change (runs (thread_exit retcode) s (exits t th retcode s)).
  destruct (rets_inv _ _ _ (THREAD_LOCK_run t s A)) as (saved & s1 & El & L1 & F1 & V1 & Hv).
  pose proof (THREAD_LOCK_trace _ _ _ El) as Etr.
  unfold thread_exit. kstep. rewrite Et. do 4 kstep. apply runs_step. eapply rets_eq; [exact El|].
  assert (ks_threads s1 !! t = Some th) as Ht1 by (by rewrite (kview_threads _ _ V1)).
  kstep. fold (dying retcode th). pose proof (dying_run t th retcode s1 L1 Ht1 Hi) as L2.
  set (s2 := put_thread t (dying retcode th) s1) in *.
  assert (ks_threads s2 !! t = Some (dying retcode th)) as Ht2 by apply lookup_insert_eq.
  assert (ks_wait_queues s2 = ks_wait_queues s) as Ew.
  { change (ks_wait_queues s1 = ks_wait_queues s). unfold kview in V1. congruence. }
  assert (forall s3 th3, in_lock ∅ (Some (ks_cpu s1)) ∅ t s3 -> ks_cpu s3 = ks_cpu s1 -> ks_threads s3 !! t = Some th3 ->
    t_state th3 = THREAD_DEATH -> thread_is_idle th3 = false -> exited t th retcode s s3 th3 ->
    runs (thread_resched;; panic) s3 (exits t th retcode s)) as Hend.
  { intros s3 th3 L3 Ec Ht3 Hs3 Hi3 Hex. exists s3, th3. split; [done|]. rewrite <- Ec in L3. rewrite <- Hs3.
    apply (resched_blocks t th3 s3 (fun _ => panic)); try done; congruence. }
  destruct (has_flag (t_flags th) THREAD_FLAG_DETACHED) eqn:Hdet.
  - apply runs_step. change (exit_detached t th) with (exit_detached t (dying retcode th)).
    eapply rets_mono; [by eapply (exit_detached_run t (Some (ks_cpu s1)) t (dying retcode th) s2)|].
    intros _ s3 (L3 & th3 & Ht3 & (Hs3 & _ & _ & _ & Hi3 & _) & Hrc & Hm3 & Ec3 & Eo3 & El3 & Ew3 & Etr3).
    eapply Hend; [done|done|done|done|by rewrite Hi3|]. split; try done; [by rewrite Eo3; apply F1|].
    rewrite Hdet. split_and!; [done| |congruence|by rewrite Etr3, <- Etr]. by rewrite El3, <- (fr_thread_list _ _ F1).
  - destruct (ki_retcode _ _ _ _ (ar_inv _ _ A) t) as (q & Hq & Hqm); [by eexists|].
    apply runs_step. apply rets_bind. eapply rets_mono.
    { apply (wake_all_run ∅ (Some (ks_cpu s1)) ∅ t (WqRetcode t) q 0 s2); [done|by rewrite Ew|done]. }
    intros r s3 (_ & L3 & K3 & Hoth). apply rets_kdone.
    assert (t ∉ wq_list q) as Htq.
    { intros Hin. destruct (sw_wq _ _ _ _ _ _ _ (ki_sched _ _ _ _ (ar_inv _ _ A)) _ _ t Hq Hin) as (_ & ? & ? & ? & _). congruence. }
    pose proof (wk_frame _ _ _ _ _ _ K3) as F3.
    eapply (Hend s3 (dying retcode th)); [done|by rewrite (fr_cpu _ _ F3)|by rewrite Hoth|done|done|].
    split; [by rewrite Hoth|done|done|by rewrite (fr_objs _ _ F3); apply F1|]. rewrite Hdet.
    split_and!; [done|by rewrite (fr_thread_list _ _ F3); apply F1|]. exists q. split_and!; [done|by rewrite (wk_wait_queues _ _ _ _ _ _ K3), Ew|].
    intros u Hu. by rewrite (wk_block_ret _ _ _ _ _ _ K3), decide_True.
Qed.
End dead.

Section join.
Context `{KConfig}.

(** The dead thread leaves the list, its structure is invalidated, and with the
    lock released its memory is freed. *)
Definition reaped (t0 t : tid) (th : thread_t) (s : kstate) (o : outcome (Z * option Z)) : Prop :=
  exists s', o = Unlocked s' (join_free t (t_retcode th)) /\ at_rest t0 s' /\
    ks_thread_list s' = remove_elt t (ks_thread_list s) /\
    ks_threads s' = <[t := set_t_magic 0 th]> (ks_threads s) /\
    forall s2, at_rest t0 s2 -> ks_threads s2 !! t = Some (set_t_magic 0 th) ->
      exists s3, join_free t (t_retcode th) s2 = Ret (NO_ERROR, Some (t_retcode th)) s3 /\ at_rest t0 s3 /\
        ks_threads s3 = if has_flag (t_flags th) THREAD_FLAG_FREE_STRUCT then delete t (ks_threads s2) else ks_threads s2.

Lemma dead_off_queues X Ho t th s :
  swf X Ho s -> ks_threads s !! t = Some th -> t_state th = THREAD_DEATH -> queue_node_in_list s t = false.
Proof.
  intros W Ht Hs. apply off_queues_not_in_list. split.
  - intros i q Hq Hin. destruct (sw_rq _ _ _ _ _ _ _ W i q t Hq Hin) as (_ & ? & ? & ? & _). congruence.
  - intros w q Hq Hin. destruct (sw_wq _ _ _ _ _ _ _ W w q t Hq Hin) as (_ & ? & ? & ? & _). congruence.
Qed.

Lemma join_free_run t0 t th s :
  at_rest t0 s -> ks_threads s !! t = Some th -> t_state th = THREAD_DEATH ->
  rets (join_free t (t_retcode th)) s (fun r s' => r = (NO_ERROR, Some (t_retcode th)) /\ at_rest t0 s' /\
    ks_threads s' = if has_flag (t_flags th) THREAD_FLAG_FREE_STRUCT then delete t (ks_threads s) else ks_threads s).
Proof.
  intros [I Hl Hc] Ht Hs. unfold join_free, free_thread. ksteps.
  assert (forall s', kview s' = kview s -> ks_thread_lock s' = ks_thread_lock s -> ks_cpu s' = ks_cpu s -> at_rest t0 s') as Hsame.
  { intros s' V El Ec. split; [by eapply kinv_ext|congruence|]. by rewrite (kview_currents _ _ V), Ec. }
  assert (forall s', kview s' = kview (set_ks_threads (delete t (ks_threads s)) s) -> ks_thread_lock s' = ks_thread_lock s ->
    ks_cpu s' = ks_cpu s -> at_rest t0 s') as Hdel.
  { intros s' V El Ec. split; [eapply kinv_ext; [exact V|by eapply kinv_deleted]|congruence|]. by rewrite (kview_currents _ _ V), Ec. }
  destruct (has_flag (t_flags th) THREAD_FLAG_FREE_STACK && negb (t_stack th =? 0)); ksteps;
    destruct (has_flag (t_flags th) THREAD_FLAG_FREE_STRUCT); ksteps; (split_and!; [done| |done]);
    first [by apply Hsame|by apply Hdel].
Qed.

Lemma join_reap_run t0 t th saved s :
  in_lock ∅ None ∅ t0 s -> ks_threads s !! t = Some th -> t_state th = THREAD_DEATH -> t_magic th = THREAD_MAGIC ->
  t_blocking_wait_queue th = None -> reaped t0 t th s (join_reap t saved s).
Proof.
  intros L Ht Hs Hm Hb. pose proof (dead_off_queues _ _ _ _ _ (ki_sched _ _ _ _ (il_inv _ _ _ _ _ L)) Ht Hs) as Hq.
  change (runs (join_reap t saved) s (reaped t0 t th s)). unfold join_reap, thread_list_delete. ksteps.
  set (th' := set_t_magic 0 th). set (s1 := set_ks_thread_list (remove_elt t (ks_thread_list s)) s).
  assert (in_lock ∅ None ∅ t0 (put_thread t th' s1)) as L1.
  { eapply in_lock_put_dead; [|set_solver|exact Ht|done|by split_and!].
    apply (in_lock_ext _ _ _ _ s); [done|done|apply L|done]. }
  destruct (THREAD_UNLOCK_run t0 _ saved L1) as (s2 & E2 & A2 & F2 & V2 & _).
  unfold runs, mbind, K_bind. rewrite E2. cbn [obind]. exists s2. split; [done|]. split; [done|].
  split; [by rewrite (fr_thread_list _ _ F2)|]. split; [by rewrite (kview_threads _ _ V2)|].
  intros s3 A3 Ht3. destruct (rets_inv _ _ _ (join_free_run t0 t th' s3 A3 Ht3 Hs)) as (r & s4 & E4 & -> & A4 & Eth).
  exists s4. done.
Qed.

Lemma unlock_ret_run {A} t0 saved (a : A) s :
  in_lock ∅ None ∅ t0 s -> exists s', (THREAD_UNLOCK saved;; mret a) s = Unlocked s' (fun s'' => Ret a s'') /\
    at_rest t0 s' /\ kview s' = kview s /\ frame s s'.
Proof.
  intros L. destruct (THREAD_UNLOCK_run t0 s saved L) as (s' & E & A' & F & V & _). exists s'.
  split; [|done]. unfold mbind, K_bind. by rewrite E.
Qed.

(** [thread_join] once it has the lock. *)
Definition join_locked (t : tid) (timeout : Z) (th : thread_t) (saved : bool) : K (Z * option Z) :=
  if has_flag (t_flags th) THREAD_FLAG_DETACHED then THREAD_UNLOCK saved;; mret (ERR_THREAD_DETACHED, None)
  else
    err ← (if negb (bool_decide (t_state th = THREAD_DEATH))
           then wait_queue_block (WqRetcode t) timeout else mret NO_ERROR);
    if err <? 0 then THREAD_UNLOCK saved;; mret (err, None) else join_reap t saved.

Lemma thread_join_locked t0 t th timeout s :
  at_rest t0 s -> ks_threads s !! t = Some th -> t_magic th = THREAD_MAGIC ->
  exists saved s1, in_lock ∅ None ∅ t0 s1 /\ frame s s1 /\ kview s1 = kview s /\
    thread_join t timeout s = join_locked t timeout th saved s1.
Proof.
  intros A Ht Hm. destruct (rets_inv _ _ _ (THREAD_LOCK_run t0 s A)) as (saved & s1 & El & L1 & F1 & V1 & _).
  exists saved, s1. split_and!; [done..|]. assert (ks_threads s1 !! t = Some th) as Ht1 by (by rewrite (kview_threads _ _ V1)).
  change (runs (thread_join t timeout) s (fun o => o = join_locked t timeout th saved s1)). unfold thread_join.
  kstep. kstep. apply runs_step. eapply rets_eq; [exact El|]. kstep. done.
Qed.

(** ... and when it has waited. *)
Lemma join_woken_run t0 t th timeout saved r s :
  in_lock ∅ None {[t0]} t0 s ->
  (if timeout =? INFINITE_TIME then ~ stack_queued s t0 else is_Some (ks_timers s !! TmStack t0)) ->
  t_wait_queue_block_ret <$> ks_threads s !! t0 = Some r -> ks_threads s !! t = Some th ->
  exists s3, in_lock ∅ None ∅ t0 s3 /\ frame s s3 /\ ks_threads s3 = ks_threads s /\
    let o := obind (block_rest timeout t0 s)
      (fun err => if err <? 0 then THREAD_UNLOCK saved;; mret (err, None) else join_reap t saved) in
    if r <? 0 then exists s4, o = Unlocked s4 (fun s'' => Ret (r, None) s'') /\ at_rest t0 s4 /\ kview s4 = kview s3
    else t_state th = THREAD_DEATH -> t_magic th = THREAD_MAGIC -> t_blocking_wait_queue th = None -> reaped t0 t th s3 o.
Proof.
  intros L Htm Hr Ht. destruct (rets_inv _ _ _ (block_rest_run t0 timeout s L Htm)) as (r' & s3 & E & L3 & F3 & _ & _ & Eth & Hr').
  assert (r' = r) as -> by congruence. exists s3. split_and!; [done..|]. cbv zeta. rewrite E. cbn [obind].
  destruct (r <? 0).
  - destruct (unlock_ret_run t0 saved (r, @None Z) s3 L3) as (s4 & ? & ? & ? & _). eauto.
  - intros. apply join_reap_run; [done|by rewrite Eth|done..].
Qed.
End join.
