(* ===== verification/Mutex.v ===== *)
(** * Mutexes: the code of [kernel/mutex.c]

    [count] is the number of threads that hold the mutex or are on their way
    to it; the wait queue of the mutex at address [m] is [WqMutex m]. *)
From S2P Require Import Prelude KState Timer Thread WaitQueue.

(** Field access through a [mutex_t] pointer. *)
Definition get_mutex (m : Z) : K mutex_t :=
  o ← get_obj m;
  match o with KMutex mx => mret mx | _ => kfault BadDeref end.
Definition mod_mutex (m : Z) (f : mutex_t -> mutex_t) : K unit :=
  mx ← get_mutex m; kmod (put_obj m (KMutex (f mx))).

Section mutex.
Context `{KConfig}.
(** set by an init hook once threads run; only an assertion reads it *)
Context (mutex_threading_ready : bool).

Definition MUTEX_INITIAL_VALUE : mutex_t := Mutex MUTEX_MAGIC 0 None.

Definition mutex_init (m : Z) : K unit :=
  kmod (put_obj m (KMutex MUTEX_INITIAL_VALUE));;
  kmod (put_wq (WqMutex m) WAIT_QUEUE_INITIAL_VALUE).

Definition mutex_destroy (m : Z) : K unit :=
  mx ← get_mutex m;
  DEBUG_ASSERT (m_magic mx =? MUTEX_MAGIC);;
  cur ← get_current_thread;
  kwhen (0 <? LK_DEBUGLEVEL)
    (if negb (bool_decide (m_holder mx = None)) && negb (bool_decide (m_holder mx = Some cur))
     then panic else kdone);;
  state ← THREAD_LOCK;
  mod_mutex m (fun mx => set_m_count 0 (set_m_magic 0 mx));;
  wait_queue_destroy (WqMutex m) true;;
  THREAD_UNLOCK state.

Definition mutex_acquire_timeout (m timeout : Z) : K Z :=
  mx ← get_mutex m;
  DEBUG_ASSERT (m_magic mx =? MUTEX_MAGIC);;
  cur ← get_current_thread;
  kwhen (0 <? LK_DEBUGLEVEL) (if bool_decide (m_holder mx = Some cur) then panic else kdone);;
  ints ← arch_ints_disabled;
  DEBUG_ASSERT (negb mutex_threading_ready || (timeout =? 0) || negb ints);;
  state ← THREAD_LOCK;
  mod_mutex m (fun mx => set_m_count (m_count mx + 1) mx);;
  mx ← get_mutex m;
  ret ← (if 1 <? m_count mx then wait_queue_block (WqMutex m) timeout else mret NO_ERROR);
  (if ret <? NO_ERROR then
     (* if the acquisition timed out, back out the acquire and exit *)
     kwhen (ret =? ERR_TIMED_OUT) (mod_mutex m (fun mx => set_m_count (m_count mx - 1) mx))
   else mod_mutex m (set_m_holder (Some cur)));;
  THREAD_UNLOCK state;;
  mret ret.

Definition mutex_acquire (m : Z) : K Z := mutex_acquire_timeout m INFINITE_TIME.

Definition mutex_release (m : Z) : K Z :=
  mx ← get_mutex m;
  DEBUG_ASSERT (m_magic mx =? MUTEX_MAGIC);;
  cur ← get_current_thread;
  kwhen (0 <? LK_DEBUGLEVEL)
    (if negb (bool_decide (m_holder mx = Some cur)) then panic else kdone);;
  state ← THREAD_LOCK;
  mod_mutex m (set_m_holder None);;
  mod_mutex m (fun mx => set_m_count (m_count mx - 1) mx);;
  mx ← get_mutex m;
  kwhen (1 <=? m_count mx)
    (* release a thread *)
    (wait_queue_wake_one (WqMutex m) true NO_ERROR;; kdone);;
  THREAD_UNLOCK state;;
  mret NO_ERROR.

Definition is_mutex_held (m : Z) : K bool :=
  mx ← get_mutex m; cur ← get_current_thread; mret (bool_decide (m_holder mx = Some cur)).
End mutex.
