(* ===== verification/Event.v ===== *)
(** * Events: the code of [kernel/event.c] *)
From S2P Require Import Prelude KState Timer Thread WaitQueue.

Definition get_event (e : Z) : K event_t :=
  o ← get_obj e;
  match o with KEvent ev => mret ev | _ => kfault BadDeref end.
Definition mod_event (e : Z) (f : event_t -> event_t) : K unit :=
  ev ← get_event e; kmod (put_obj e (KEvent (f ev))).

Section event.
Context `{KConfig}.

Definition EVENT_INITIAL_VALUE (initial : bool) (flags : Z) : event_t :=
  Event EVENT_MAGIC initial flags.

Definition event_init (e : Z) (initial : bool) (flags : Z) : K unit :=
  kmod (put_obj e (KEvent (EVENT_INITIAL_VALUE initial flags)));;
  kmod (put_wq (WqEvent e) WAIT_QUEUE_INITIAL_VALUE).

Definition event_destroy (e : Z) : K unit :=
  ev ← get_event e;
  DEBUG_ASSERT (e_magic ev =? EVENT_MAGIC);;
  state ← THREAD_LOCK;
  mod_event e (fun ev => set_e_flags 0 (set_e_signaled false (set_e_magic 0 ev)));;
  wait_queue_destroy (WqEvent e) true;;
  THREAD_UNLOCK state.

Definition event_wait_timeout (e timeout : Z) : K Z :=
  ev ← get_event e;
  DEBUG_ASSERT (e_magic ev =? EVENT_MAGIC);;
  state ← THREAD_LOCK;
  ev ← get_event e;
  ret ← (if e_signaled ev then
           (* signaled, we're going to fall through; the autounsignal flag lets
              one thread fall through before unsignaling *)
           kwhen (has_flag (e_flags ev) EVENT_FLAG_AUTOUNSIGNAL)
             (mod_event e (set_e_signaled false));;
           mret NO_ERROR
         else
           (* unsignaled, block here *)
           wait_queue_block (WqEvent e) timeout);
  THREAD_UNLOCK state;;
  mret ret.

Definition event_wait (e : Z) : K Z := event_wait_timeout e INFINITE_TIME.

Definition event_signal (e : Z) (reschedule : bool) : K Z :=
  ev ← get_event e;
  DEBUG_ASSERT (e_magic ev =? EVENT_MAGIC);;
  state ← THREAD_LOCK;
  ev ← get_event e;
  ret ← (if negb (e_signaled ev) then
           if has_flag (e_flags ev) EVENT_FLAG_AUTOUNSIGNAL then
             (* try to release one thread and leave unsignaled if successful *)
             ret ← wait_queue_wake_one (WqEvent e) reschedule NO_ERROR;
             kwhen (ret <=? 0) (mod_event e (set_e_signaled true));;
             mret ret
           else
             (* release all threads and remain signaled *)
             mod_event e (set_e_signaled true);;
             wait_queue_wake_all (WqEvent e) reschedule NO_ERROR
         else mret 0);
  THREAD_UNLOCK state;;
  mret ret.

Definition event_unsignal (e : Z) : K Z :=
  ev ← get_event e;
  DEBUG_ASSERT (e_magic ev =? EVENT_MAGIC);;
  mod_event e (set_e_signaled false);;
  mret NO_ERROR.
End event.
