(* ===== verification/Semaphore.v ===== *)
(** * Counting semaphores: the code of [kernel/semaphore.c]

    A negative [count] is the number of threads waiting. *)
From S2P Require Import Prelude KState Timer Thread WaitQueue.

Definition get_sem (a : Z) : K semaphore_t :=
  o ← get_obj a;
  match o with KSem sem => mret sem | _ => kfault BadDeref end.
Definition mod_sem (a : Z) (f : semaphore_t -> semaphore_t) : K unit :=
  sem ← get_sem a; kmod (put_obj a (KSem (f sem))).

Section semaphore.
Context `{KConfig}.

Definition SEMAPHORE_INITIAL_VALUE (initial_count : Z) : semaphore_t :=
  Semaphore SEMAPHORE_MAGIC initial_count.

Definition sem_init (sem initial_count : Z) : K unit :=
  kmod (put_obj sem (KSem (SEMAPHORE_INITIAL_VALUE initial_count)));;
  kmod (put_wq (WqSem sem) WAIT_QUEUE_INITIAL_VALUE).

Definition sem_destroy (sem : Z) : K unit :=
  state ← THREAD_LOCK;
  mod_sem sem (set_sem_count 0);;
  wait_queue_destroy (WqSem sem) true;;
  THREAD_UNLOCK state.

Definition sem_post (sem : Z) (resched : bool) : K Z :=
  state ← THREAD_LOCK;
  (* If the count is or was negative then a thread is waiting for a resource *)
  mod_sem sem (fun s => set_sem_count (sem_count s + 1) s);;
  s ← get_sem sem;
  ret ← (if sem_count s <=? 0 then wait_queue_wake_one (WqSem sem) resched NO_ERROR
         else mret 0);
  THREAD_UNLOCK state;;
  mret ret.

Definition sem_wait (sem : Z) : K Z :=
  state ← THREAD_LOCK;
  mod_sem sem (fun s => set_sem_count (sem_count s - 1) s);;
  s ← get_sem sem;
  ret ← (if sem_count s <? 0 then wait_queue_block (WqSem sem) INFINITE_TIME else mret NO_ERROR);
  THREAD_UNLOCK state;;
  mret ret.

Definition sem_trywait (sem : Z) : K Z :=
  state ← THREAD_LOCK;
  s ← get_sem sem;
  ret ← (if sem_count s <=? 0 then mret ERR_NOT_READY
         else mod_sem sem (fun s => set_sem_count (sem_count s - 1) s);; mret NO_ERROR);
  THREAD_UNLOCK state;;
  mret ret.

Definition sem_timedwait (sem timeout : Z) : K Z :=
  state ← THREAD_LOCK;
  mod_sem sem (fun s => set_sem_count (sem_count s - 1) s);;
  s ← get_sem sem;
  ret ← (if sem_count s <? 0 then
           ret ← wait_queue_block (WqSem sem) timeout;
           kwhen (ret <? NO_ERROR)
             (kwhen (ret =? ERR_TIMED_OUT) (mod_sem sem (fun s => set_sem_count (sem_count s + 1) s)));;
           mret ret
         else mret NO_ERROR);
  THREAD_UNLOCK state;;
  mret ret.
End semaphore.
