(* ===== verification/TimerTick.v ===== *)
(** * Timer interrupts: [timer_tick] of [kernel/timer.c]

    The interrupt handler pops the timers that have expired off the queue of
    its cpu, calls them back and puts periodic ones back.  Callbacks other than
    those of the kernel are the parameter [other_callback]. *)
From S2P Require Import Prelude KState Timer Thread WaitQueue.

Section tick.
Context `{KConfig} (other_callback : Z -> Z -> K handler_return).

(** [timer->callback(timer, now, timer->arg)] *)
Definition call_timer_callback (callback : callback_fn) (arg : Z) : K handler_return :=
  match callback with
  | NullCallback => kfault BadDeref
  | ThreadTimerTick => thread_timer_tick
  | ThreadSleepHandler => thread_sleep_handler arg
  | WaitQueueTimeoutHandler => wait_queue_timeout_handler arg
  | OtherCallback f => other_callback f arg
  end.

(** Putting a periodic timer back that has not been requeued or cancelled. *)
Definition requeue_periodic (timer : timer_id) (now : Z) : K unit :=
  tm ← get_timer timer; s ← kget;
  kwhen (negb (timer_queued s timer) && (0 <? tm_periodic_time tm)) (
    let scheduled_time := u32 (tm_scheduled_time tm + tm_periodic_time tm) in
    let scheduled_time := if TIME_LT scheduled_time now then u32 (now + tm_periodic_time tm)
                          else scheduled_time in
    mod_timer timer (set_tm_scheduled_time scheduled_time);;
    insert_timer_in_queue timer).

(** The body of the loop, for a timer that has expired. *)
Definition process_timer (timer : timer_id) (now : Z) : K handler_return :=
  tm ← get_timer timer;
  DEBUG_ASSERT (tm_magic tm =? TIMER_MAGIC);;
  kmod (timer_unlink timer);;
  (* we pulled it off the list, release the list lock to handle it *)
  unlocked_point;;
  THREAD_STATS_INC (fun st => set_st_timers (u64 (st_timers st + 1)) st);;
  tm ← get_timer timer;
  let periodic := 0 <? tm_periodic_time tm in
  r ← call_timer_callback (tm_callback tm) (tm_arg tm);
  kwhen periodic (requeue_periodic timer now);;
  mret r.

Fixpoint timer_tick_loop (fuel : nat) (now : Z) (ret : handler_return) : K handler_return :=
  (* see if there's an event to process *)
  pc ← get_cpu;
  match head (pc_timer_queue pc) with
  | None => mret ret
  | Some timer =>
      tm ← get_timer timer;
      if TIME_LT now (tm_scheduled_time tm) then mret ret
      else match fuel with
      | O => kfault OutOfFuel
      | S fuel =>
          r ← process_timer timer now;
          timer_tick_loop fuel now (if bool_decide (r = INT_RESCHEDULE) then INT_RESCHEDULE else ret)
      end
  end.

(** reset the timer to the next event, PLATFORM_HAS_DYNAMIC_TIMER part *)
Definition reset_oneshot (now : Z) : K unit :=
  pc ← get_cpu;
  match head (pc_timer_queue pc) with
  | None => kdone
  | Some timer =>
      tm ← get_timer timer;
      (* has to be the case or it would have fired already *)
      DEBUG_ASSERT (TIME_GT (tm_scheduled_time tm) now);;
      emit (EvSetOneshotTimer (u32 (tm_scheduled_time tm - now)))
  end.

Definition timer_tick (fuel : nat) (now : Z) : K handler_return :=
  ints ← arch_ints_disabled; DEBUG_ASSERT ints;;
  THREAD_STATS_INC (fun st => set_st_timer_ints (u64 (st_timer_ints st + 1)) st);;
  ret ← timer_tick_loop fuel now INT_NO_RESCHEDULE;
  reset_oneshot now;;
  mret ret.
End tick.
