(* ===== verification/TickOps.v ===== *)
(** * The timer interrupt

    Run on a cpu with interrupts disabled, in a state that satisfies the
    invariant, [timer_tick] faults nowhere, ends, and leaves the invariant.
    [atomically] runs an operation through the points where it releases a lock:
    with interrupts off nothing else runs there on this cpu. *)
From stdpp Require Import sorting.
From S2P Require Import Prelude KState Timer Thread WaitQueue Logic SchedInv TimerInv SchedSpec SchedOps WaitOps TimerTick.

Fixpoint collapse {A} (o : outcome A) : outcome A :=
  match o with
  | Unlocked s k => collapse (k s)
  | _ => o
  end.
Definition atomically {A} (m : K A) : K A := fun s => collapse (m s).

Lemma collapse_bind {A B} (o : outcome A) (f : A -> K B) a s :
  collapse o = Ret a s -> collapse (obind o f) = collapse (f a s).
Proof. induction o; simpl; try done; [naive_solver|]. auto. Qed.

Lemma arets_bind {A B} (m : K A) (f : A -> K B) s P :
  rets (atomically m) s (fun a s' => rets (atomically (f a)) s' P) -> rets (atomically (m ≫= f)) s P.
Proof.
  unfold rets, atomically, mbind, K_bind. intros Hm. destruct (collapse (m s)) as [a s1| | |] eqn:E; try done.
  by rewrite (collapse_bind _ _ _ _ E).
Qed.

Lemma arets_rets {A} (m : K A) s P : rets m s P -> rets (atomically m) s P.
Proof. unfold rets, atomically. by destruct (m s). Qed.

Lemma arets_point s (P : unit -> kstate -> Prop) : P tt s -> rets (atomically unlocked_point) s P.
Proof. done. Qed.

(** The common step: a part that returns, then the rest. *)
Lemma arets_step {A B} (m : K A) (f : A -> K B) s P :
  rets m s (fun a s' => rets (atomically (f a)) s' P) -> rets (atomically (m ≫= f)) s P.
Proof. intros. by apply arets_bind, arets_rets. Qed.

Ltac astep := apply arets_step; kprim; cbv beta; kcbn.
Ltac asteps := repeat astep.

Definition block_ret (s : kstate) (u : tid) : option Z := t_wait_queue_block_ret <$> ks_threads s !! u.

(** The effect of a stretch of code that runs no thread's own code and puts no
    thread on a wait queue: queues only shrink, a thread that leaves the queue
    of a mutex has timed out, and only threads that leave one get a status. *)
Record settles (s s' : kstate) : Prop := {
  se_frame : frame s s';
  se_timer : forall u, ks_timers s' !! TmStack u = ks_timers s !! TmStack u;
  se_stack : forall u, stack_queued s' u -> stack_queued s u;
  se_wq : forall w q, ks_wait_queues s !! w = Some q -> exists q', ks_wait_queues s' !! w = Some q' /\
    wq_magic q' = wq_magic q /\ forall u, u ∈ wq_list q' -> u ∈ wq_list q;
  se_ret : forall u, (forall w q, ks_wait_queues s !! w = Some q -> u ∉ wq_list q) ->
    block_ret s' u = block_ret s u;
  se_leave : forall m q q' u, ks_wait_queues s !! WqMutex m = Some q -> u ∈ wq_list q ->
    ks_wait_queues s' !! WqMutex m = Some q' -> u ∉ wq_list q' -> block_ret s' u = Some ERR_TIMED_OUT;
  se_stay : forall m q' u, ks_wait_queues s' !! WqMutex m = Some q' -> u ∈ wq_list q' ->
    block_ret s' u = block_ret s u;
}.

Lemma one_queue X Ho s w w' q q' u :
  swf X Ho s -> ks_wait_queues s !! w = Some q -> ks_wait_queues s !! w' = Some q' ->
  u ∈ wq_list q -> u ∈ wq_list q' -> w = w'.
Proof.
  intros W Hq Hq' Hu Hu'. destruct (sw_wq _ _ _ _ _ _ _ W w q u Hq Hu) as (_ & th & ? & _ & ? & _).
  destruct (sw_wq _ _ _ _ _ _ _ W w' q' u Hq' Hu') as (_ & ? & ? & _ & ? & _). congruence.
Qed.

Lemma quiet_settles s s' : quiet s s' -> settles s s'.
Proof.
  intros [F Ew Eb Es Et]. split; try done; try (intros; apply Eb).
  - intros u. apply Es.
  - intros w q Hq. exists q. by rewrite Ew.
  - intros m q q' u Hq Hu Hq'. rewrite Ew in Hq'. by simplify_eq.
Qed.

Lemma settles_trans X Ho s1 s2 s3 : swf X Ho s1 -> settles s1 s2 -> settles s2 s3 -> settles s1 s3.
Proof.
  intros W S1 S2.
  assert (forall w q2 u, ks_wait_queues s2 !! w = Some q2 -> u ∈ wq_list q2 ->
    exists q1, ks_wait_queues s1 !! w = Some q1 /\ u ∈ wq_list q1) as Hback.
  { intros w q2 u Hq2 Hu. destruct (fr_wait_queues _ _ (se_frame _ _ S1) w) as [_ [q1 Hq1]]; [by eexists|].
    destruct (se_wq _ _ S1 w q1 Hq1) as (? & ? & _ & Hsub). simplify_eq. eauto. }
  split.
  - etransitivity; [apply S1|apply S2].
  - intros u. by rewrite (se_timer _ _ S2), (se_timer _ _ S1).
  - intros u Hu. by apply (se_stack _ _ S1), (se_stack _ _ S2).
  - intros w q1 Hq1. destruct (se_wq _ _ S1 w q1 Hq1) as (q2 & Hq2 & E2 & Hs2).
    destruct (se_wq _ _ S2 w q2 Hq2) as (q3 & Hq3 & E3 & Hs3). exists q3. rewrite E3, E2. auto.
  - intros u Hu. rewrite (se_ret _ _ S2); [by apply (se_ret _ _ S1)|].
    intros w q2 Hq2 Hin. destruct (Hback w q2 u Hq2 Hin) as (q1 & ? & ?). by eapply Hu.
  - intros m q1 q3 u Hq1 Hu Hq3 Hn. destruct (se_wq _ _ S1 _ q1 Hq1) as (q2 & Hq2 & _ & _).
    destruct (decide (u ∈ wq_list q2)) as [|Hn2]; [by eapply (se_leave _ _ S2)|].
    rewrite (se_ret _ _ S2); [by eapply (se_leave _ _ S1)|].
    intros w q2' Hq2' Hin. destruct (Hback w q2' u Hq2' Hin) as (q1' & Hq1' & Hin1).
    pose proof (one_queue _ _ _ _ _ _ _ u W Hq1 Hq1' Hu Hin1) as <-. by simplify_eq.
  - intros m q3 u Hq3 Hu. rewrite (se_stay _ _ S2 m q3 u Hq3 Hu).
    destruct (fr_wait_queues _ _ (se_frame _ _ S2) (WqMutex m)) as [_ [q2 Hq2]]; [by eexists|].
    destruct (se_wq _ _ S2 _ q2 Hq2) as (? & ? & _ & Hsub). simplify_eq. eapply (se_stay _ _ S1); eauto.
Qed.

Lemma woken_settles X Ho us w q q' err s s' :
  swf X Ho s -> woken us w q' err s s' -> ks_wait_queues s !! w = Some q -> wq_magic q' = wq_magic q ->
  (forall u, u ∈ wq_list q <-> u ∈ us \/ u ∈ wq_list q') -> (forall u, u ∈ us -> u ∉ wq_list q') ->
  (forall m, w = WqMutex m -> err = ERR_TIMED_OUT) -> settles s s'.
Proof.
  intros W [F Ew Eb Es Et] Hq Hm Hl Hd He.
  assert (forall u, u ∉ us -> block_ret s' u = block_ret s u) as Hb.
  { intros u Hu. unfold block_ret. rewrite Eb. by rewrite decide_False. }
  split; try done.
  - intros u. apply Es.
  - intros w' q1 Hq1. rewrite Ew. destruct (decide (w' = w)) as [->|].
    + exists q'. rewrite lookup_insert_eq. simplify_eq. split_and!; [done..|]. intros u Hu. apply Hl. by right.
    + exists q1. by rewrite lookup_insert_ne.
  - intros u Hu. apply Hb. intros Hin. apply (Hu w q Hq). apply Hl. by left.
  - intros m q1 q2 u Hq1 Hu Hq2 Hn. rewrite Ew in Hq2. apply lookup_insert_Some in Hq2 as [[-> ->]|[? ?]]; [|by simplify_eq].
    rewrite <- (He m eq_refl). unfold block_ret. rewrite Eb. simplify_eq. rewrite decide_True; [done|].
    apply Hl in Hu as [?|?]; done.
  - intros m q2 u Hq2 Hu. apply Hb. intros Hin. rewrite Ew in Hq2.
    apply lookup_insert_Some in Hq2 as [[-> ->]|[Hne Hq2]]; [by eapply Hd|].
    apply Hne. eapply one_queue; [done..| |done]. apply Hl. by left.
Qed.

(** ** Inside the interrupt handler *)
(** The interrupt handler of the cpu that runs [t]. *)
Definition at_irq (t : tid) (s : kstate) : Prop := at_rest t s /\ cpu_view s (ks_cpu s) = Some (t, true).

Lemma at_irq_pc t s : at_irq t s ->
  exists pc, ks_percpu s !! ks_cpu s = Some pc /\ pc_current pc = t /\ pc_ints_disabled pc = true.
Proof. intros [_ Hv]. unfold cpu_view in Hv. apply fmap_Some in Hv as (pc & ? & [= -> ->]). eauto. Qed.

(** Updates of the cpu the handler runs on. *)
Lemma put_cpu_rest t pc pc' s :
  ks_percpu s !! ks_cpu s = Some pc -> pc_current pc' = pc_current pc -> pc_timer_queue pc' = pc_timer_queue pc ->
  at_rest t s -> at_rest t (put_cpu pc' s) /\ cpu_view (put_cpu pc' s) (ks_cpu s) = Some (t, pc_ints_disabled pc').
Proof.
  intros Hpc Ec Eq [I Hl Hc]. pose proof (kview_put_cpu s pc pc' Hpc Ec Eq) as V.
  destruct (current_pc _ _ Hc) as (pc0 & Hpc0 & Et). split.
  - split; [by eapply kinv_ext|done|]. by rewrite (kview_currents _ _ V).
  - unfold cpu_view. kcbn. rewrite lookup_insert_eq. cbn. f_equal. f_equal. congruence.
Qed.

Lemma at_irq_stats t pc st s :
  ks_percpu s !! ks_cpu s = Some pc -> at_irq t s -> at_irq t (put_cpu (set_pc_stats st pc) s).
Proof.
  intros Hpc A. destruct (at_irq_pc _ _ A) as (pc' & Hpc' & Et & Hpi). assert (pc' = pc) as -> by congruence.
  destruct (put_cpu_rest t pc (set_pc_stats st pc) s) as [A' Ev]; [done..|apply A|].
  split; [done|]. rewrite <- Hpi. exact Ev.
Qed.

Section callbacks.
Context `{KConfig}.

(** [thread_timer_tick] takes one tick off the quantum of the current thread. *)
Lemma thread_timer_tick_run s pc th :
  ks_percpu s !! ks_cpu s = Some pc -> ks_threads s !! pc_current pc = Some th ->
  rets thread_timer_tick s (fun r s' => exists q, s' = put_thread (pc_current pc) (set_t_remaining_quantum q th) s).
Proof.
  intros Hpc Ht. unfold thread_timer_tick. ksteps. destruct (thread_is_real_time_or_idle th).
  - exists (t_remaining_quantum th). unfold put_thread.
    replace (set_t_remaining_quantum _ th) with th by by destruct th.
    rewrite insert_id by done. by destruct s.
  - ksteps. by eexists.
Qed.

(** A sleeping thread whose timer has gone off is made ready. *)
Lemma kinv_take_sleeper u th s :
  kinv ∅ None ∅ s -> ks_threads s !! u = Some th -> t_state th = THREAD_SLEEPING -> ~ stack_queued s u ->
  kinv ({[u]} ∪ ∅) None ∅ (put_thread u (set_t_state THREAD_READY th) s) /\ thread_is_idle th = false.
Proof.
  intros [W T P R] Ht Hs Hn.
  assert (thread_is_idle th = false) as Hi.
  { apply not_true_is_false. intros Hi. destruct (sw_idle_only _ _ _ _ _ _ _ W u th Ht Hi) as (c & -> & Hc).
    destruct (sw_idle _ _ _ _ _ _ _ W c Hc) as (? & ? & _ & _ & [?|?]); simplify_eq; congruence. }
  split; [|done]. split.
  - eapply sched_put_transit; [|set_solver|exact Ht|].
    + apply sched_take; [exact W| |].
      * split.
        -- intros i q Hq Hin. destruct (sw_rq _ _ _ _ _ _ _ W i q u Hq Hin) as (_ & ? & ? & ? & _). congruence.
        -- intros w q Hq Hin. destruct (sw_wq _ _ _ _ _ _ _ W w q u Hq Hin) as (_ & ? & ? & ? & _). congruence.
      * intros c Hc. destruct (sw_cur _ _ _ _ _ _ _ W c u Hc) as (_ & ? & ? & ? & _); [done|congruence].
    + destruct (sw_alive _ _ _ _ _ _ _ W u th Ht) as [Ha Hp]. split_and!; try done; [|by left].
      intros _. apply Ha. congruence.
  - apply (timers_threads ∅ ∅ ∅ ∅ (ks_threads s)); [exact T|]. intros c q v tm Hq Hin _ Hv.
    destruct (decide (v = u)) as [->|Hne]; [destruct Hn; by exists c, q|].
    kcbn. rewrite lookup_insert_ne by done. apply Hv. set_solver.
  - intros c q v thv Hq Hv Hthv. kcbn in Hthv. apply lookup_insert_Some in Hthv as [[<- <-]|[??]].
    + rewrite (P c q u th) by done. done.
    + by apply (P c q v).
  - intros v Hv. apply R. kcbn in Hv. apply lookup_insert_is_Some' in Hv as [<-|]; [by eexists|done].
Qed.

Lemma arets_unlock t s saved (P : unit -> kstate -> Prop) :
  in_lock ∅ None ∅ t s ->
  (forall s', at_rest t s' -> frame s s' -> kview s' = kview s -> cpu_view s' (ks_cpu s') = Some (t, saved) -> P tt s') ->
  rets (atomically (THREAD_UNLOCK saved)) s P.
Proof.
  intros L HP. destruct (THREAD_UNLOCK_run t s saved L) as (s' & E & ? & ? & ? & ?).
  unfold rets, atomically. rewrite E. cbn. auto.
Qed.

Lemma thread_sleep_handler_run t u th s :
  at_irq t s -> ks_threads s !! u = Some th -> t_state th = THREAD_SLEEPING -> ~ stack_queued s u ->
  rets (atomically (thread_sleep_handler u)) s (fun _ s' => at_irq t s' /\ quiet s s' /\
    ks_timers s' = ks_timers s /\ timer_queues s' = timer_queues s).
Proof.
  intros [A Sv] Ht Hs Hn. pose proof (ar_inv _ _ A) as I.
  destruct (sw_alive _ _ _ _ _ _ _ (ki_sched _ _ _ _ I) u th Ht) as [Ha _]. destruct Ha as [Hm _]; [congruence|].
  unfold thread_sleep_handler. asteps.
  apply arets_step. eapply rets_mono; [by apply THREAD_LOCK_run|]. intros saved s1 (L & F & V & Sv').
  rewrite Sv in Sv'. injection Sv' as <-. pose proof (kview_quiet _ _ F V) as Q.
  assert (ks_threads s1 !! u = Some th) as Ht1 by (unfold kview in V; congruence).
  astep. destruct L as [I1 Hl Hc].
  destruct (kinv_take_sleeper u th s1 I1 Ht1 Hs) as [I2 Hi]; [by rewrite (qu_stack _ _ Q)|].
  apply arets_step. eapply rets_mono.
  { apply (insert_run ∅ None ∅ true t u (set_t_state THREAD_READY th)); [split; [exact I2|done|done]|set_solver|apply lookup_insert_eq|done|done]. }
  intros _ s2 (E & L2 & F2).
  apply arets_bind. apply (arets_unlock t); [done|]. intros s3 A3 F3 V3 Sv3.
  apply arets_rets, rets_ret. split_and!; [done| | |].
  - etransitivity; [exact Q|]. etransitivity; [by apply (put_thread_quiet u th (set_t_state THREAD_READY th))|].
    etransitivity; [by eapply enqueued_quiet|]. by apply kview_quiet.
  - destruct E as (q & _ & ->). unfold kview in *. kcbn in V3. congruence.
  - destruct E as (q & _ & ->). rewrite (kview_timer_queues _ _ V3). exact (kview_timer_queues _ _ V).
Qed.

(** The timeout of a waiting thread takes it off its queue. *)
Lemma wait_queue_timeout_handler_run t u th s :
  at_irq t s -> ks_threads s !! u = Some th -> t_state th <> THREAD_DEATH ->
  rets (atomically (wait_queue_timeout_handler u)) s (fun _ s' => at_irq t s' /\ settles s s' /\
    ks_timers s' = ks_timers s /\ timer_queues s' = timer_queues s).
Proof.
  intros B Ht Hd. pose proof B as [A Sv]. pose proof (ar_inv _ _ A) as I.
  destruct (at_irq_pc _ _ B) as (pc & Hpc & Et & Hpi).
  destruct (sw_alive _ _ _ _ _ _ _ (ki_sched _ _ _ _ I) u th Ht) as [Ha _]. destruct (Ha Hd) as [Hm _].
  unfold wait_queue_timeout_handler. asteps. rewrite (ar_lock _ _ A). asteps.
  assert (in_lock ∅ None ∅ t (set_ks_thread_lock true s)) as L.
  { split; [by eapply kinv_ext; [|exact I]|split; [done|by exists pc]|apply A]. }
  assert (forall s1, in_lock ∅ None ∅ t s1 -> cpu_view s1 (ks_cpu s1) = Some (t, true) -> at_irq t (set_ks_thread_lock false s1)) as Hun.
  { intros s1 [I1 _ Hc1] Hv1. split; [split; [by eapply kinv_ext; [|exact I1]|done|done]|done]. }
  destruct (decide (t_state th = THREAD_BLOCKED)) as [Hb|Hb].
  - destruct (unblock_run ∅ None ∅ t u th ERR_TIMED_OUT _ L Ht) as (w & q & Hw & Hq & Hin & Hr); [set_solver|done|].
    apply arets_step. eapply rets_mono; [exact Hr|]. intros r s1 (-> & L1 & K & St). asteps.
    apply arets_bind, arets_point. apply arets_rets, rets_ret.
    pose proof (in_lock_pc _ _ _ _ _ L1) as (pc1 & Hpc1 & Et1 & Hpi1).
    split_and!; [apply Hun; [done|unfold cpu_view; rewrite Hpc1; cbn; by rewrite Et1, Hpi1]| |apply St|apply St].
    assert (settles s s1) as S1.
    { eapply (woken_settles ∅ None [u] w q (wq_remove u q)); [apply I| |exact Hq|done| | |done].
      - eapply (quiet_woken _ _ _ _ s (set_ks_thread_lock true s)); [by apply kview_quiet|exact K].
      - intros v. cbn. rewrite elem_of_remove_elt, list_elem_of_singleton. destruct (decide (v = u)); naive_solver.
      - intros v ->%list_elem_of_singleton. cbn. rewrite elem_of_remove_elt. naive_solver. }
    eapply settles_trans; [apply I|exact S1|]. by apply quiet_settles.
  - apply arets_step. eapply rets_eq; [by eapply unblock_not_blocked|]. asteps.
    apply arets_bind, arets_point. apply arets_rets, rets_ret.
    assert (set_ks_thread_lock false (set_ks_thread_lock true s) = s) as ->.
    { pose proof (ar_lock _ _ A). destruct s. cbn in *. by subst. }
    split_and!; try done. by apply quiet_settles.
Qed.
End callbacks.

(** ** One round of the loop *)
(** When a periodic timer runs next. *)
Definition next_time (now : Z) (tm : timer_t) : Z :=
  let t := u32 (tm_scheduled_time tm + tm_periodic_time tm) in
  if TIME_LT t now then u32 (now + tm_periodic_time tm) else t.

(** How many more rounds the preemption timer can take: a period after an
    expired time is at most one tick ahead, or starts over at [now]. *)
Definition rounds (now : Z) (tm : timer_t) : nat :=
  if TIME_LT now (tm_scheduled_time tm) then 0%nat
  else if u32 (tm_scheduled_time tm - now) =? 0 then 1%nat else 2%nat.

(** Neither before nor after in the wrap-around order. *)
Definition antipode (now : Z) (tm : timer_t) : Prop := u32 (tm_scheduled_time tm - now) = 2 ^ 31.

(** The distance the other way round. *)
Lemma u32_opp a b : u32 (b - a) = if u32 (a - b) =? 0 then 0 else 2 ^ 32 - u32 (a - b).
Proof.
  replace (b - a) with (- (a - b)) by lia. unfold wrap. destruct (Z.eqb_spec ((a - b) mod 2 ^ 32) 0) as [E|E].
  - by apply Z_mod_zero_opp_full.
  - by apply Z_mod_nz_opp_full.
Qed.

Lemma u32_shift a b n k : u32 (a - b) = k -> 0 <= k + n < 2 ^ 32 -> u32 (u32 (a + n) - b) = k + n.
Proof.
  intros <- Hr. unfold wrap. rewrite Zminus_mod_idemp_l. replace (a + n - b) with (a - b + n) by lia.
  rewrite <- Zplus_mod_idemp_l. by apply Z.mod_small.
Qed.

Lemma next_time_rounds now tm :
  tm_periodic_time tm = 10 -> TIME_LT now (tm_scheduled_time tm) = false ->
  (rounds now (set_tm_scheduled_time (next_time now tm) tm) < rounds now tm)%nat /\
  ~ antipode now (set_tm_scheduled_time (next_time now tm) tm).
Proof.
  intros Hp He. unfold rounds, next_time, antipode. rewrite He, Hp. cbn [tm_scheduled_time set_tm_scheduled_time].
  set (d := tm_scheduled_time tm) in *. apply not_true_iff_false in He. rewrite TIME_LT_iff, u32_opp in He.
  pose proof (wrap_range 32 (d - now) ltac:(lia)) as Hr. remember (u32 (d - now)) as k eqn:Ek. symmetry in Ek.
  assert (u32 (u32 (now + 10) - now) = 10) as E10 by (apply (u32_shift now now 10 0); [by rewrite Z.sub_diag|lia]).
  assert (k = 0 \/ 2 ^ 31 < k) as Hk by (revert He; destruct (Z.eqb_spec k 0); lia).
  assert (u32 (u32 (d + 10) - now) = if k <? 2 ^ 32 - 10 then k + 10 else k + 10 - 2 ^ 32) as E1.
  { destruct (Z.ltb_spec k (2 ^ 32 - 10)); [apply u32_shift; [done|lia]|].
    replace (u32 (d + 10)) with (u32 (d + (10 - 2 ^ 32))).
    - replace (k + 10 - 2 ^ 32) with (k + (10 - 2 ^ 32)) by lia. apply u32_shift; [done|lia].
    - unfold wrap. replace (d + (10 - 2 ^ 32)) with (d + 10 + (-1) * 2 ^ 32) by lia. apply Z_mod_plus_full. }
  assert (forall x, TIME_LT now x = (if u32 (x - now) =? 0 then false else u32 (x - now) <=? 2 ^ 31)) as Hlt.
  { intros x. apply eq_true_iff_eq. rewrite TIME_LT_iff, u32_opp. pose proof (wrap_range 32 (x - now) ltac:(lia)).
    destruct (Z.eqb_spec (u32 (x - now)) 0); [lia|]. rewrite Z.leb_le. lia. }
  assert (TIME_LT (u32 (d + 10)) now = (2 ^ 31 <=? u32 (u32 (d + 10) - now))) as ->.
  { apply eq_true_iff_eq. by rewrite TIME_LT_iff, Z.leb_le. }
  rewrite E1. destruct (Z.ltb_spec k (2 ^ 32 - 10)).
  - destruct (Z.leb_spec (2 ^ 31) (k + 10)).
    + rewrite Hlt, E10. change (10 =? 0) with false. change (10 <=? 2 ^ 31) with true. cbv iota.
      destruct (Z.eqb_spec k 0); split; lia.
    + rewrite Hlt, E1.
      destruct (Z.eqb_spec (k + 10) 0), (Z.leb_spec (k + 10) (2 ^ 31)), (Z.eqb_spec k 0); split; lia.
  - destruct (Z.leb_spec (2 ^ 31) (k + 10 - 2 ^ 32)); [lia|].
    rewrite Hlt, E1.
    destruct (Z.eqb_spec (k + 10 - 2 ^ 32) 0), (Z.leb_spec (k + 10 - 2 ^ 32) (2 ^ 31)), (Z.eqb_spec k 0); split; lia.
Qed.

Lemma unlink_views i s : currents (timer_unlink i s) = currents s /\
  forall c, cpu_view (timer_unlink i s) c = cpu_view s c.
Proof.
  unfold currents, cpu_view, timer_unlink. kcbn. split; [by rewrite <- map_fmap_compose|].
  intros c. rewrite lookup_fmap. by destruct (ks_percpu s !! c).
Qed.

Lemma unlink_stack i s u : stack_queued (timer_unlink i s) u <-> stack_queued s u /\ i <> TmStack u.
Proof.
  unfold stack_queued. rewrite timer_queues_unlink. split.
  - intros (c & q & (q' & <- & Hq)%lookup_fmap_Some & [??]%elem_of_remove_elt). split; [eauto|congruence].
  - intros [(c & q & Hq & Hin) Hne]. exists c, (remove_elt i q). rewrite lookup_fmap, Hq.
    split; [done|]. apply elem_of_remove_elt. split; [congruence|done].
Qed.

Lemma unlink_frame i s : frame s (timer_unlink i s).
Proof. unfold timer_unlink. kframe. Qed.

(** Taking a timer off its queue leaves all of the invariant but the preemption
    timers. *)
Lemma unlink_wf i s :
  kinv ∅ None ∅ s -> swf ∅ None (timer_unlink i s) /\ twf ∅ ∅ (timer_unlink i s).
Proof.
  intros [W T P R]. destruct (unlink_views i s) as [Ec _]. split; [unfold swf; by rewrite Ec|].
  unfold twf. rewrite timer_queues_unlink. change (ks_timers (timer_unlink i s)) with (ks_timers s).
  destruct (ks_timers s !! i) as [tm|] eqn:Ei.
  - rewrite <- (insert_id (ks_timers s) i tm Ei) at 1. apply timers_cancel; [exact T|]. by eapply (tw_magic _ _ _ _ _ T).
  - replace (remove_elt i <$> timer_queues s) with (timer_queues s); [exact T|].
    apply map_eq. intros c. rewrite lookup_fmap. destruct (timer_queues s !! c) as [q|] eqn:Eq; [|done]. cbn. f_equal.
    symmetry. apply remove_elt_notin. intros Hin. destruct (tw_queued _ _ _ _ _ T c q i Eq Hin). congruence.
Qed.

(** A stack timer that went off. *)
Lemma unlink_stack_irq t u s :
  at_irq t s -> at_irq t (timer_unlink (TmStack u) s) /\ settles s (timer_unlink (TmStack u) s).
Proof.
  intros [[I Hl Hc] Sv]. destruct (unlink_wf (TmStack u) s I) as [W T]. destruct (unlink_views (TmStack u) s) as [Ec Ev].
  pose proof I as [_ _ P R]. split.
  - split; [split; [split; [done|done| |done]|done|by rewrite Ec]|by rewrite Ev].
    rewrite timer_queues_unlink, Ec. intros c q v th (q' & <- & Hq)%lookup_fmap_Some Hv Hth.
    rewrite elem_of_remove_elt. rewrite <- (P c q' v th) by done. naive_solver.
  - split; try done.
    + apply unlink_frame.
    + intros v. rewrite unlink_stack. naive_solver.
    + intros w q Hq. by exists q.
    + intros m q q' v Hq Hv Hq'. kcbn in Hq'. by simplify_eq.
Qed.

(** An expired timer is put back at most one period ahead. *)
Lemma next_time_ahead now tm :
  tm_periodic_time tm = 10 -> TIME_LT now (tm_scheduled_time tm) = false -> u32 (next_time now tm - now) <= 10.
Proof.
  intros Hp He. unfold next_time. rewrite Hp. set (d := tm_scheduled_time tm) in *.
  apply not_true_iff_false in He. rewrite TIME_LT_iff, u32_opp in He.
  pose proof (wrap_range 32 (d - now) ltac:(lia)) as Hr. remember (u32 (d - now)) as k eqn:Ek. symmetry in Ek.
  assert (k = 0 \/ 2 ^ 31 < k) as Hk by (revert He; destruct (Z.eqb_spec k 0); lia).
  destruct (TIME_LT (u32 (d + 10)) now) eqn:E.
  - rewrite (u32_shift now now 10 0); [lia|by rewrite Z.sub_diag|lia].
  - apply not_true_iff_false in E. rewrite TIME_LT_iff in E.
    destruct (Z.lt_ge_cases k (2 ^ 32 - 10)); [rewrite (u32_shift _ _ _ k) in E |- *; lia|].
    replace (u32 (d + 10)) with (u32 (d + (10 - 2 ^ 32))).
    + rewrite (u32_shift _ _ _ k); lia.
    + unfold wrap. replace (d + (10 - 2 ^ 32)) with (d + 10 + (-1) * 2 ^ 32) by lia. apply Z_mod_plus_full.
Qed.

Lemma next_time_deadline now tm :
  tm_periodic_time tm = 10 -> TIME_LT now (tm_scheduled_time tm) = false ->
  deadline (now - 2 ^ 30) (set_tm_scheduled_time (next_time now tm) tm) < 2 ^ 31.
Proof.
  intros Hp He. pose proof (next_time_ahead now tm Hp He). pose proof (wrap_range 32 (next_time now tm - now) ltac:(lia)).
  unfold deadline. cbn [tm_scheduled_time set_tm_scheduled_time].
  replace (next_time now tm - (now - 2 ^ 30)) with (next_time now tm - now + 2 ^ 30) by lia.
  unfold wrap in *. rewrite <- Zplus_mod_idemp_l, Z.mod_small; lia.
Qed.

Section tick.
Context `{KConfig}.

Lemma requeue_periodic_run timer tm now s pc :
  ks_percpu s !! ks_cpu s = Some pc -> pc_ints_disabled pc = true -> ks_timers s !! timer = Some tm ->
  timer_queued s timer = false -> 0 < tm_periodic_time tm ->
  (forall i, i ∈ pc_timer_queue pc -> is_Some (ks_timers s !! i)) ->
  rets (requeue_periodic timer now) s (fun _ s' => exists q1 q2, pc_timer_queue pc = q1 ++ q2 /\
    s' = put_cpu (set_pc_timer_queue (q1 ++ timer :: q2) pc)
           (put_timer timer (set_tm_scheduled_time (next_time now tm) tm) s) /\
    placed (<[timer := set_tm_scheduled_time (next_time now tm) tm]> (ks_timers s)) (set_tm_scheduled_time (next_time now tm) tm) q1 q2).
Proof.
  intros Hpc Hpi Ht Hnq Hp Hq. unfold requeue_periodic. ksteps. rewrite Hnq. rewrite (proj2 (Z.ltb_lt _ _) Hp). cbn [negb andb kwhen].
  fold (next_time now tm). ksteps.
  destruct (insert_timer_walk_run timer (set_tm_scheduled_time (next_time now tm) tm) (pc_timer_queue pc)
    (put_timer timer (set_tm_scheduled_time (next_time now tm) tm) s)) as (q1 & q2 & Hqq & Hw & Hp').
  { cbn. apply lookup_insert_eq. }
  { intros i Hi. cbn. destruct (decide (i = timer)) as [->|]; simplify_map_eq; eauto. }
  unfold insert_timer_in_queue. ksteps. eapply rets_eq; [apply Hw|]. ksteps. by exists q1, q2.
Qed.

(** The state in which the preemption timer is put back: off the queue, the
    statistics counted, a tick taken off the quantum of the current thread. *)
Definition preempt_fired (t : tid) (th : thread_t) (quantum : Z) (st : thread_stats) (pc : percpu) (s : kstate) : kstate :=
  let s1 := timer_unlink (TmPreempt (ks_cpu s)) s in
  put_thread t (set_t_remaining_quantum quantum th)
    (put_cpu (set_pc_stats st (set_pc_timer_queue (remove_elt (TmPreempt (ks_cpu s)) (pc_timer_queue pc)) pc)) s1).

Lemma preempt_requeued_irq t th quantum st pc tm now q1 q2 s :
  at_irq t s -> ks_percpu s !! ks_cpu s = Some pc -> ks_threads s !! t = Some th ->
  TmPreempt (ks_cpu s) ∈ pc_timer_queue pc -> ks_timers s !! TmPreempt (ks_cpu s) = Some tm ->
  remove_elt (TmPreempt (ks_cpu s)) (pc_timer_queue pc) = q1 ++ q2 ->
  let pc' := set_pc_timer_queue (q1 ++ TmPreempt (ks_cpu s) :: q2) (set_pc_stats st pc) in
  let s' := put_cpu pc' (put_timer (TmPreempt (ks_cpu s)) (set_tm_scheduled_time (next_time now tm) tm)
              (preempt_fired t th quantum st pc s)) in
  at_irq t s' /\ settles s s' /\ timer_queues s' = <[ks_cpu s := q1 ++ TmPreempt (ks_cpu s) :: q2]> (timer_queues s).
Proof.
  intros [[I Hl Hc] Sv] Hpc Ht Hin Htm Hq pc' s'. pose proof I as [W T P R]. set (c := ks_cpu s) in *.
  destruct (unlink_wf (TmPreempt c) s I) as [W1 T1]. unfold twf in T1. rewrite timer_queues_unlink in T1.
  assert (timer_queues s !! c = Some (pc_timer_queue pc)) as Hcq by (unfold timer_queues; by rewrite lookup_fmap, Hpc).
  assert (forall c' q, timer_queues s !! c' = Some q -> c' <> c -> TmPreempt c ∉ q) as Hoth.
  { intros c' q Hq' Hne Hin'. by destruct (tw_preempt _ _ _ _ _ T c' q c Hq' Hin'). }
  assert (timer_queues s' = <[c := q1 ++ TmPreempt c :: q2]> (remove_elt (TmPreempt c) <$> timer_queues s)) as Etq.
  { unfold s', preempt_fired, timer_queues. kcbn. rewrite fmap_insert, fmap_insert. cbn. fold c. rewrite insert_insert_eq.
    rewrite <- !map_fmap_compose. done. }
  assert (remove_elt (TmPreempt c) <$> timer_queues s = <[c := q1 ++ q2]> (timer_queues s)) as Erm.
  { apply map_eq. intros c'. rewrite lookup_fmap. destruct (decide (c' = c)) as [->|Hne].
    - rewrite Hcq, lookup_insert_eq. cbn. by rewrite Hq.
    - rewrite lookup_insert_ne by done. destruct (timer_queues s !! c') eqn:E; [|done]. cbn.
      f_equal. apply remove_elt_notin. by eapply Hoth. }
  rewrite Erm, insert_insert_eq in Etq.
  assert (currents s' = currents s) as Ecur.
  { unfold s', preempt_fired, pc', currents. kcbn. rewrite !fmap_insert. cbn. fold c. rewrite insert_insert_eq, <- map_fmap_compose.
    apply insert_id. by rewrite lookup_fmap, Hpc. }
  assert (ks_threads s' = <[t := set_t_remaining_quantum quantum th]> (ks_threads s)) as Eth by done.
  assert (forall u, block_ret s' u = block_ret s u) as Hb.
  { intros u. unfold block_ret. rewrite Eth. destruct (decide (u = t)) as [->|]; [by rewrite lookup_insert_eq, Ht|by rewrite lookup_insert_ne]. }
  split_and!; [split; [split; [split| |]|]| |done].
  - unfold swf. rewrite Ecur. apply (sched_put_same t th); [exact W|done|by destruct th].
  - unfold twf. rewrite Etq, <- (insert_insert_eq (timer_queues s) c (q1 ++ TmPreempt c :: q2) (q1 ++ q2)).
    apply timers_set; [|apply lookup_insert_eq| | |].
    + rewrite <- Erm. by apply (timers_put_thread _ _ (ks_threads s) _ _ t th).
    + intros c' q. rewrite <- Erm, lookup_fmap_Some. intros (q' & <- & _). rewrite elem_of_remove_elt. naive_solver.
    + exact (tw_magic _ _ _ _ _ T (TmPreempt c) tm Htm).
    + destruct (tw_preempt _ _ _ _ _ T c _ c Hcq Hin) as (_ & tm' & ? & ? & ?). by simplify_eq.
  - rewrite Etq, Ecur, Eth. intros c' q u thu Hq' Hu Hthu.
    assert (exists thu', ks_threads s !! u = Some thu' /\ t_flags thu' = t_flags thu) as (thu' & Hu' & Ef).
    { apply lookup_insert_Some in Hthu as [[<- <-]|[??]]; [by exists th|by exists thu]. }
    assert (thread_is_real_time_or_idle thu = thread_is_real_time_or_idle thu') as ->.
    { unfold thread_is_real_time_or_idle. by rewrite Ef. }
    apply lookup_insert_Some in Hq' as [[<- <-]|[??]]; [|by apply (P c' q u)].
    rewrite <- (P c _ u thu' Hcq Hu Hu'). rewrite elem_of_app, elem_of_cons. naive_solver.
  - intros u Hu. apply R. rewrite Eth in Hu. apply lookup_insert_is_Some' in Hu as [<-|]; [by eexists|done].
  - done.
  - by rewrite Ecur.
  - unfold cpu_view in *. unfold s'. kcbn. fold c. fold c in Sv. rewrite lookup_insert_eq. rewrite Hpc in Sv. done.
  - split; try done.
    + unfold s', preempt_fired, c. kframe.
    + intros u. unfold s'. kcbn. by rewrite lookup_insert_ne.
    + intros u (c' & q & Hq' & Hu). rewrite Etq in Hq'. apply lookup_insert_Some in Hq' as [[<- <-]|[??]]; [|by exists c', q].
      exists c, (pc_timer_queue pc). split; [done|]. apply elem_of_app in Hu. rewrite elem_of_cons in Hu.
      assert (TmStack u ∈ q1 ++ q2) as Hu2 by (rewrite elem_of_app; naive_solver). rewrite <- Hq in Hu2.
      by apply elem_of_remove_elt in Hu2 as [? _].
    + intros w q Hw. by exists q.
    + intros m q q' u Hq1 Hu Hq'. change (ks_wait_queues s') with (ks_wait_queues s) in Hq'. by simplify_eq.
Qed.

(** ** The loop *)
Definition no_driver_timers (s : kstate) : Prop := forall a, ks_timers s !! TmObj a = None.
Definition own_queue (s : kstate) : list timer_id := default [] (timer_queues s !! ks_cpu s).
Definition no_antipode (now : Z) (s : kstate) : Prop :=
  forall i tm, i ∈ own_queue s -> ks_timers s !! i = Some tm -> ~ antipode now tm.
Definition head_ahead (now : Z) (s : kstate) : Prop :=
  forall i tm, head (own_queue s) = Some i -> ks_timers s !! i = Some tm -> TIME_LT now (tm_scheduled_time tm) = true.

(** Rounds left: one per stack timer, those of the preemption timer. *)
Definition tick_measure (now : Z) (s : kstate) : nat :=
  length (remove_elt (TmPreempt (ks_cpu s)) (own_queue s)) +
  match ks_timers s !! TmPreempt (ks_cpu s) with
  | Some tm => if decide (TmPreempt (ks_cpu s) ∈ own_queue s) then rounds now tm else 0
  | None => 0
  end.

Lemma tick_measure_bound now s : (tick_measure now s <= length (own_queue s) + 2)%nat.
Proof.
  unfold tick_measure. pose proof (length_remove_elt_le (TmPreempt (ks_cpu s)) (own_queue s)).
  assert (forall tm, (rounds now tm <= 2)%nat) as Hr by (intros tm; unfold rounds; repeat case_match; lia).
  destruct (ks_timers s !! _) as [tm|]; [specialize (Hr tm)|]; repeat case_match; lia.
Qed.

(** The hardware is set for the timer that expires first. *)
Definition oneshot_armed (now : Z) (s : kstate) : Prop :=
  forall i tm, head (own_queue s) = Some i -> ks_timers s !! i = Some tm ->
    head (ks_trace s) = Some (EvSetOneshotTimer (u32 (tm_scheduled_time tm - now))).

(** The queue seen from a quarter of the range of the clock ago. *)
Definition queue_in_order (now : Z) (s : kstate) : Prop := in_order (now - 2 ^ 30) (ks_timers s) (own_queue s).

Lemma own_queue_pc s pc : ks_percpu s !! ks_cpu s = Some pc -> own_queue s = pc_timer_queue pc.
Proof. intros Hpc. unfold own_queue, timer_queues. by rewrite lookup_fmap, Hpc. Qed.

(** A round for a stack timer: what is left is a callback that keeps the timers. *)
Lemma stack_round now u rest s s' :
  own_queue s = TmStack u :: rest -> NoDup (own_queue s) -> ks_cpu s' = ks_cpu s ->
  same_timers (timer_unlink (TmStack u) s) s' ->
  (tick_measure now s' < tick_measure now s)%nat /\ (no_antipode now s -> no_antipode now s') /\
  (queue_in_order now s -> queue_in_order now s').
Proof.
  intros Hq Hnd Ec [Et Etq]. rewrite Hq in Hnd. apply NoDup_cons in Hnd as [Hni Hnd].
  assert (own_queue s' = rest) as Hq'.
  { unfold own_queue in *. rewrite Ec, Etq, timer_queues_unlink, lookup_fmap.
    destruct (timer_queues s !! ks_cpu s); cbn in *; [subst|done]. by rewrite remove_elt_cons_eq. }
  assert (ks_timers s' = ks_timers s) as Et' by done. split_and!.
  - unfold tick_measure. rewrite Hq, Hq', Ec, Et', remove_elt_cons_ne by done. cbn [length].
    destruct (ks_timers s !! _) as [tm|]; [|lia].
    assert (TmPreempt (ks_cpu s) ∈ TmStack u :: rest <-> TmPreempt (ks_cpu s) ∈ rest) as E
      by (rewrite elem_of_cons; naive_solver).
    rewrite (decide_ext _ _ _ _ E). lia.
  - intros Ha i tm Hi Htm. apply (Ha i); [rewrite Hq; rewrite Hq' in Hi; by right|congruence].
  - unfold queue_in_order. rewrite Et', Hq, Hq'. intros [Hs Hf]. apply StronglySorted_inv in Hs as [Hs _].
    by apply Forall_cons in Hf as [_ Hf].
Qed.

(** A round for the preemption timer. *)
Lemma preempt_round now tm rest q1 q2 s s' :
  own_queue s = TmPreempt (ks_cpu s) :: rest -> NoDup (own_queue s) -> rest = q1 ++ q2 -> ks_cpu s' = ks_cpu s ->
  ks_timers s !! TmPreempt (ks_cpu s) = Some tm ->
  (rounds now (set_tm_scheduled_time (next_time now tm) tm) < rounds now tm)%nat ->
  ~ antipode now (set_tm_scheduled_time (next_time now tm) tm) ->
  ks_timers s' = <[TmPreempt (ks_cpu s) := set_tm_scheduled_time (next_time now tm) tm]> (ks_timers s) ->
  timer_queues s' = <[ks_cpu s := q1 ++ TmPreempt (ks_cpu s) :: q2]> (timer_queues s) ->
  placed (ks_timers s') (set_tm_scheduled_time (next_time now tm) tm) q1 q2 ->
  deadline (now - 2 ^ 30) (set_tm_scheduled_time (next_time now tm) tm) < 2 ^ 31 ->
  (tick_measure now s' < tick_measure now s)%nat /\ (no_antipode now s -> no_antipode now s') /\
  (queue_in_order now s -> queue_in_order now s').
Proof.
  intros Hq Hnd -> Ec Htm Hr Ha Et Etq Hpl Hd. rewrite Hq in Hnd. apply NoDup_cons in Hnd as [Hni Hnd].
  assert (own_queue s' = q1 ++ TmPreempt (ks_cpu s) :: q2) as Hq' by (unfold own_queue; by rewrite Ec, Etq, lookup_insert_eq).
  split_and!.
  - unfold tick_measure. rewrite Hq, Hq', Ec, Et, lookup_insert_eq, Htm, !decide_True by set_solver.
    rewrite remove_elt_cons_eq, remove_elt_mid; [lia| |done].
    apply NoDup_app in Hnd as (? & ? & ?). apply NoDup_app. split_and!; [done| |].
    + intros x Hx. apply not_elem_of_cons. split; [|auto]. intros ->. apply Hni, elem_of_app. auto.
    + apply NoDup_cons. split; [|done]. intros ?. apply Hni, elem_of_app. auto.
  - intros Hn i tmi Hi Htmi. rewrite Et in Htmi. apply lookup_insert_Some in Htmi as [[<- <-]|[Hne Htmi]]; [done|].
    apply (Hn i); [|done]. rewrite Hq. rewrite Hq' in Hi. set_solver.
  - unfold queue_in_order. rewrite Hq, Hq', Et. rewrite Et in Hpl. intros [Hs Hf]. apply StronglySorted_inv in Hs as [Hs _].
    apply Forall_cons in Hf as [_ Hf]. by apply in_order_placed.
Qed.

(** An expired timer counts. *)
Lemma expired_measure t now i rest tm s :
  at_irq t s -> no_driver_timers s -> own_queue s = i :: rest -> ks_timers s !! i = Some tm ->
  TIME_LT now (tm_scheduled_time tm) = false -> (0 < tick_measure now s)%nat.
Proof.
  intros A Hobj Hq Htm He. unfold tick_measure. rewrite Hq.
  destruct (decide (i = TmPreempt (ks_cpu s))) as [->|Hne].
  - rewrite Htm, decide_True by set_solver. unfold rounds. rewrite He. case_match; lia.
  - rewrite remove_elt_cons_ne by done. cbn. lia.
Qed.

Lemma own_queue_kind t i rest s :
  at_irq t s -> no_driver_timers s -> own_queue s = i :: rest ->
  NoDup (own_queue s) /\ exists tm, ks_timers s !! i = Some tm /\ tm_magic tm = TIMER_MAGIC /\
    timer_kind_ok ∅ ∅ (ks_threads s) (ks_cpu s) i tm.
Proof.
  intros A Hobj Hq. destruct (at_irq_pc _ _ A) as (pc & Hpc & _). destruct A as [[[_ T _ _] _ _] _].
  assert (timer_queues s !! ks_cpu s = Some (own_queue s)) as Hl.
  { unfold own_queue, timer_queues. by rewrite lookup_fmap, Hpc. }
  split; [by eapply (tw_nodup _ _ _ _ _ T)|]. apply (tw_kind _ _ _ T Hl). rewrite Hq. by left.
Qed.

Lemma process_stack_timer other_callback t now u rest tm s :
  at_irq t s -> no_driver_timers s -> own_queue s = TmStack u :: rest -> ks_timers s !! TmStack u = Some tm ->
  rets (atomically (process_timer other_callback (TmStack u) now)) s (fun _ s' =>
    at_irq t s' /\ settles s s' /\ same_timers (timer_unlink (TmStack u) s) s').
Proof.
  intros A Hobj Hq Htm. destruct (own_queue_kind t _ _ s A Hobj Hq) as (Hnd & tm' & Htm' & Hm & Ha & Hp & Hok).
  assert (tm' = tm) as -> by congruence. destruct Hok as (th & Hu & Hok); [set_solver|].
  destruct (unlink_stack_irq t u s A) as [A1 S1].
  set (s1 := timer_unlink (TmStack u) s) in *. unfold process_timer. asteps. fold s1.
  apply arets_bind, arets_point. destruct (at_irq_pc _ _ A1) as (pc1 & Hpc1 & Et1 & Hpi1).
  astep. set (s2 := put_cpu (set_pc_stats st pc1) s1).
  assert (at_irq t s2) as A2 by (by apply at_irq_stats).
  assert (quiet s1 s2) as Q2 by (by eapply put_cpu_quiet).
  assert (same_timers s1 s2) as St2.
  { split; [done|]. unfold s2, timer_queues. kcbn. rewrite fmap_insert. apply insert_id. by rewrite lookup_fmap, Hpc1. }
  assert (~ stack_queued s2 u) as Hn2 by (rewrite (qu_stack _ _ Q2); unfold s1; rewrite unlink_stack; naive_solver).
  assert (settles s s2) as S2.
  { eapply settles_trans; [apply A|exact S1|]. by apply quiet_settles. }
  astep. rewrite Hp. cbn [Z.ltb Z.compare kwhen].
  apply arets_bind. apply (rets_mono _ _ (fun _ s' => at_irq t s' /\ settles s2 s' /\ same_timers s2 s')).
  - rewrite Ha. destruct Hok as [[-> Hs]|[-> Hs]]; cbn [call_timer_callback].
    + eapply rets_mono; [by eapply (thread_sleep_handler_run t u th)|]. intros _ s' (? & ? & ? & ?).
      split_and!; [done|by apply quiet_settles|done].
    + eapply rets_mono; [eapply (wait_queue_timeout_handler_run t u th); [done|done|]|done].
      destruct Hs as [->|[->|[-> _]]]; done.
  - intros r s' (A3 & S3 & St3). asteps. apply arets_rets, rets_ret. split_and!; [done| |].
    + eapply settles_trans; [apply A|exact S2|exact S3].
    + destruct St2, St3. split; congruence.
Qed.

Lemma process_preempt_timer other_callback t now rest tm s :
  at_irq t s -> no_driver_timers s -> own_queue s = TmPreempt (ks_cpu s) :: rest ->
  ks_timers s !! TmPreempt (ks_cpu s) = Some tm ->
  rets (atomically (process_timer other_callback (TmPreempt (ks_cpu s)) now)) s (fun _ s' =>
    at_irq t s' /\ settles s s' /\ exists q1 q2, rest = q1 ++ q2 /\
    ks_timers s' = <[TmPreempt (ks_cpu s) := set_tm_scheduled_time (next_time now tm) tm]> (ks_timers s) /\
    timer_queues s' = <[ks_cpu s := q1 ++ TmPreempt (ks_cpu s) :: q2]> (timer_queues s) /\
    placed (ks_timers s') (set_tm_scheduled_time (next_time now tm) tm) q1 q2).
Proof.
  intros A Hobj Hq Htm. destruct (own_queue_kind t _ _ s A Hobj Hq) as (Hnd & tm' & Htm' & Hm & _ & Hcb & Hp).
  assert (tm' = tm) as -> by congruence. destruct (at_irq_pc _ _ A) as (pc & Hpc & Et & Hpi).
  pose proof A as [[I _ Hc] _]. destruct (current_thread _ _ _ _ (ki_sched _ _ _ _ I) Hc) as (th & Ht & _).
  pose proof (own_queue_pc s pc Hpc) as Eq. rewrite Hq in Eq. rewrite Hq in Hnd. apply NoDup_cons in Hnd as [Hni Hnd].
  assert (remove_elt (TmPreempt (ks_cpu s)) (pc_timer_queue pc) = rest) as Erm by (rewrite <- Eq; by apply remove_elt_cons_eq).
  set (c := ks_cpu s) in *. set (s1 := timer_unlink (TmPreempt c) s).
  set (pc1 := set_pc_timer_queue (remove_elt (TmPreempt c) (pc_timer_queue pc)) pc).
  assert (ks_percpu s1 !! c = Some pc1) as Hpc1 by (unfold s1; kcbn; by rewrite lookup_fmap, Hpc).
  unfold process_timer. asteps. fold s1. apply arets_bind, arets_point.
  apply arets_step. eapply (rets_stats_inc _ _ pc1); [done|]. intros st.
  asteps. rewrite Hp, Hcb. cbn [Z.ltb Z.compare kwhen call_timer_callback].
  apply arets_step. eapply rets_mono.
  { apply (thread_timer_tick_run _ (set_pc_stats st pc1) th); [unfold s1; apply lookup_insert_eq|]. cbn. by rewrite Et. }
  intros r s3 [quantum E3]. cbn [pc_current set_pc_stats pc1 set_pc_timer_queue] in E3. rewrite Et in E3.
  change s3 with s3 in *. fold s1 in E3.
  assert (s3 = preempt_fired t th quantum st pc s) as -> by exact E3.
  assert (forall c' q, timer_queues (preempt_fired t th quantum st pc s) !! c' = Some q -> TmPreempt c ∉ q /\ forall i, i ∈ q -> is_Some (ks_timers s !! i)) as Hpq.
  { intros c' q Hq'. assert (timer_queues (preempt_fired t th quantum st pc s) = remove_elt (TmPreempt c) <$> timer_queues s) as E.
    { unfold preempt_fired. unfold timer_queues. kcbn. fold c. rewrite fmap_insert. cbn. rewrite <- !map_fmap_compose.
      apply insert_id. by rewrite lookup_fmap, Hpc. }
    rewrite E in Hq'. apply lookup_fmap_Some in Hq' as (q' & <- & Hq'). split; [rewrite elem_of_remove_elt; naive_solver|].
    intros i Hi. apply elem_of_remove_elt in Hi as [Hi _]. by eapply (tw_queued _ _ _ _ _ (ki_timers _ _ _ _ I)). }
  assert (ks_percpu (preempt_fired t th quantum st pc s) !! c = Some (set_pc_stats st pc1)) as Hpc3 by (apply lookup_insert_eq).
  apply arets_step. eapply rets_mono.
  { apply (requeue_periodic_run (TmPreempt c) tm now _ (set_pc_stats st pc1)); [done|done|done| |lia|].
    - apply not_timer_queued. intros c' q Hq'. by apply (Hpq c').
    - apply (Hpq c). unfold timer_queues. by rewrite lookup_fmap, Hpc3. }
  intros _ s' (q1 & q2 & Eq12 & -> & Hpl). cbn [pc_timer_queue set_pc_stats pc1 set_pc_timer_queue] in Eq12. rewrite Erm in Eq12.
  apply arets_rets, rets_ret.
  destruct (preempt_requeued_irq t th quantum st pc tm now q1 q2 s A Hpc Ht) as (A' & S' & Etq); [rewrite <- Eq; by left|done|fold c; by rewrite Erm|].
  split_and!; [exact A'|exact S'|]. exists q1, q2. split_and!; [done|done|exact Etq|exact Hpl].
Qed.

Lemma timer_tick_loop_run other_callback fuel t now ret s :
  at_irq t s -> no_driver_timers s -> no_antipode now s -> (tick_measure now s <= fuel)%nat ->
  rets (atomically (timer_tick_loop other_callback fuel now ret)) s (fun _ s' =>
    at_irq t s' /\ settles s s' /\ no_antipode now s' /\ head_ahead now s' /\ (queue_in_order now s -> queue_in_order now s')).
Proof.
  revert ret s. induction fuel as [|fuel IH]; intros ret s A Hobj Hna Hf.
  all: destruct (at_irq_pc _ _ A) as (pc & Hpc & Et & Hpi); cbn [timer_tick_loop]; astep.
  all: pose proof (own_queue_pc s pc Hpc) as Eq; rewrite <- Eq.
  all: assert (head_ahead now s -> forall r : handler_return, rets (atomically (mret r)) s (fun _ s' => at_irq t s' /\ settles s s' /\
    no_antipode now s' /\ head_ahead now s' /\ (queue_in_order now s -> queue_in_order now s'))) as Hend by (intros Hh r; split_and!; try done; by apply quiet_settles).
  all: destruct (own_queue s) as [|i rest] eqn:Hq; cbn [head]; [refine (Hend _ ret); unfold head_ahead; by rewrite Hq|].
  all: destruct (own_queue_kind t i rest s A Hobj Hq) as (Hnd & tm & Htm & Hm & Hk).
  all: astep; destruct (TIME_LT now (tm_scheduled_time tm)) eqn:He;
    [refine (Hend _ ret); unfold head_ahead; rewrite Hq; cbn; congruence|].
  all: pose proof (expired_measure t now i rest tm s A Hobj Hq Htm He) as Hpos.
  { lia. }
  apply arets_bind.
  assert (forall s', at_irq t s' -> settles s s' -> (tick_measure now s' < tick_measure now s)%nat /\ (no_antipode now s -> no_antipode now s') /\
      (queue_in_order now s -> queue_in_order now s') ->
    forall r, rets (atomically (timer_tick_loop other_callback fuel now r)) s' (fun _ s'' =>
      at_irq t s'' /\ settles s s'' /\ no_antipode now s'' /\ head_ahead now s'' /\ (queue_in_order now s -> queue_in_order now s''))) as Hgo.
  { intros s' A' S' (Hlt & Hna' & Hord) r. eapply rets_mono; [apply IH; [done| |auto|lia]|].
    - intros a. by rewrite (fr_obj_timers _ _ (se_frame _ _ S')).
    - intros _ s'' (? & S'' & ? & ? & ?). split_and!; try done; [|by auto]. eapply settles_trans; [apply A|exact S'|exact S'']. }
  destruct i as [c|u|a].
  - destruct Hk as (-> & Hcb & Hp). destruct (next_time_rounds now tm Hp He) as [Hr Ha].
    eapply rets_mono; [by eapply (process_preempt_timer other_callback t now rest)|].
    intros r s' (A' & S' & q1 & q2 & Er & Et' & Etq' & Hpl). apply Hgo; [done..|].
    eapply (preempt_round now tm rest q1 q2); try done; [|by apply next_time_deadline]. apply (fr_cpu _ _ (se_frame _ _ S')).
  - eapply rets_mono; [by eapply (process_stack_timer other_callback t now u rest)|].
    intros r s' (A' & S' & St). apply Hgo; [done..|].
    eapply (stack_round now u rest); try done. apply (fr_cpu _ _ (se_frame _ _ S')).
  - by rewrite Hobj in Htm.
Qed.

(** The timer interrupt, with no driver timers and none of them exactly half the
    range of the clock away. *)
Lemma timer_tick_run other_callback fuel t now s :
  at_irq t s -> no_driver_timers s -> no_antipode now s -> (length (own_queue s) + 2 <= fuel)%nat ->
  rets (atomically (timer_tick other_callback fuel now)) s (fun _ s' => at_irq t s' /\ settles s s' /\
    head_ahead now s' /\ oneshot_armed now s' /\ (queue_in_order now s -> queue_in_order now s')).
Proof.
  intros A Hobj Hna Hf. pose proof (tick_measure_bound now s) as Hb.
  destruct (at_irq_pc _ _ A) as (pc & Hpc & Et & Hpi). unfold timer_tick. asteps.
  set (s1 := put_cpu (set_pc_stats st pc) s).
  assert (quiet s s1) as Q1 by (by eapply put_cpu_quiet).
  assert (at_irq t s1) as A1 by (by apply at_irq_stats).
  assert (own_queue s1 = own_queue s) as Eq1.
  { rewrite (own_queue_pc s pc Hpc). by apply (own_queue_pc s1 (set_pc_stats st pc)), lookup_insert_eq. }
  apply arets_bind. eapply rets_mono.
  { apply (timer_tick_loop_run other_callback fuel t now INT_NO_RESCHEDULE s1 A1 Hobj).
    - intros i tm. rewrite Eq1. apply Hna.
    - pose proof (tick_measure_bound now s1). rewrite Eq1 in *. lia. }
  intros r s2 (A2 & S2 & Hna2 & Hh & Hord). destruct (at_irq_pc _ _ A2) as (pc2 & Hpc2 & _ & _).
  assert (settles s s2) as S by (eapply settles_trans; [apply A|by apply quiet_settles|exact S2]).
  assert (queue_in_order now s -> queue_in_order now s2) as Hord2.
  { intros Ho. apply Hord. unfold queue_in_order in *. by rewrite Eq1. }
  apply arets_rets, rets_bind. unfold reset_oneshot. ksteps. pose proof (own_queue_pc s2 pc2 Hpc2) as Eq2.
  rewrite <- Eq2. destruct (own_queue s2) as [|i rest] eqn:Hq; cbn [head]; [ksteps; split_and!; try done; unfold oneshot_armed; by rewrite Hq|].
  assert (no_driver_timers s2) as Hobj2 by (intros a; by rewrite (fr_obj_timers _ _ (se_frame _ _ S))).
  destruct (own_queue_kind t i rest s2 A2 Hobj2 Hq) as (_ & tm & Htm & Hm & Hk).
  assert (TIME_GT (tm_scheduled_time tm) now = true) as Hgt.
  { apply TIME_GT_iff. pose proof (Hh i tm) as Hlt. rewrite Hq in Hlt. specialize (Hlt eq_refl Htm).
    pose proof (Hna2 i tm) as Ha. rewrite Hq in Ha. specialize (Ha ltac:(by left) Htm). unfold antipode in Ha.
    rewrite TIME_LT_iff, u32_opp in Hlt. pose proof (wrap_range 32 (tm_scheduled_time tm - now) ltac:(lia)).
    revert Hlt. destruct (Z.eqb_spec (u32 (tm_scheduled_time tm - now)) 0); lia. }
  ksteps. split_and!; [|eapply settles_trans; [apply A|exact S|by apply quiet_settles]|exact Hh| |exact Hord2].
  - destruct A2 as [[I2 Hl2 Hc2] Sv2]. split; [split|]; try done. by eapply kinv_ext; [|exact I2].
  - intros j tmj. change (own_queue (set_ks_trace _ s2)) with (own_queue s2). rewrite Hq. intros [= <-].
    change (ks_timers (set_ks_trace _ s2)) with (ks_timers s2). rewrite Htm. by intros [= <-].
Qed.
End tick.
