(* ===== verification/Rely.v ===== *)
(** * Rely and guarantee

    What every thread may assume of the others while it does not run or does
    not hold the lock, and must guarantee to them: the invariant of the mutexes
    and the other synchronisation objects, what stays the same for a thread
    while others run ([rely]), and [owp], which says that the outcome of an
    operation respects both at each point where it gives up the cpu or the lock,
    and never faults. *)
From S2P Require Import Prelude KState Timer Thread WaitQueue Logic SchedInv TimerInv SchedSpec SchedOps WaitOps TimerTick TickOps.

(** ** Mutexes and other objects *)

(** For each mutex, the threads that have counted themselves in and wait for it,
    or have been woken or timed out and did not run yet. *)
Definition waits := Z -> gset tid.
Definition set_waits (m : Z) (X : gset tid) (ω : waits) : waits := fun m' => if decide (m' = m) then X else ω m'.

Definition holds (s : kstate) (m : Z) (t : tid) : Prop :=
  exists mx, ks_objs s !! m = Some (KMutex mx) /\ m_holder mx = Some t.

(** A thread that was woken up owns the mutex: there is one at most, and none
    while another thread holds it. *)
Definition granted (ret : tid -> option Z) (ω : waits) (m : Z) (q : wait_queue_t) (u : tid) : Prop :=
  u ∈ ω m /\ u ∉ wq_list q /\ ret u = Some NO_ERROR.

Record mutex_ok (ω : waits) (ret : tid -> option Z) (m : Z) (mx : mutex_t) (q : wait_queue_t) : Prop := {
  mo_magic : m_magic mx = MUTEX_MAGIC;
  mo_count : m_count mx = Z.of_nat (size (ω m)) + (if m_holder mx then 1 else 0);
  mo_wq_magic : wq_magic q = WAIT_QUEUE_MAGIC;
  mo_waiting : forall u, u ∈ wq_list q -> u ∈ ω m;
  mo_left : forall u, u ∈ ω m -> u ∉ wq_list q ->
    ret u = Some ERR_TIMED_OUT \/ ret u = Some NO_ERROR /\ m_holder mx = None;
  mo_granted : forall u v, granted ret ω m q u -> granted ret ω m q v -> u = v;
}.

Record objs_ok (ω : waits) (s : kstate) : Prop := {
  ob_mutex : forall m mx, ks_objs s !! m = Some (KMutex mx) ->
    exists q, ks_wait_queues s !! WqMutex m = Some q /\ mutex_ok ω (block_ret s) m mx q;
  ob_only : forall m u, u ∈ ω m -> exists mx, ks_objs s !! m = Some (KMutex mx);
  ob_one : forall m m' u, u ∈ ω m -> u ∈ ω m' -> m = m';
  ob_queue : forall m u w q, u ∈ ω m -> ks_wait_queues s !! w = Some q -> u ∈ wq_list q -> w = WqMutex m;
  ob_event : forall e ev, ks_objs s !! e = Some (KEvent ev) -> e_magic ev = EVENT_MAGIC /\ has_queue s (WqEvent e);
  ob_sem : forall a sem, ks_objs s !! a = Some (KSem sem) -> has_queue s (WqSem a);
  ob_timers : no_driver_timers s;
}.

Definition not_waiting (t : tid) (ω : waits) : Prop := forall m, t ∉ ω m.

(** ** Rely *)
Definition obj_kind (o : kobj) : nat :=
  match o with
  | KMutex _ => 0 | KEvent _ => 1 | KSem _ => 2 | KPortBuf _ => 3 | KWritePort _ => 4 | KReadPort _ => 5
  | KPortGroup _ => 6
  end.
Definition kind_at (s : kstate) (a : Z) : option nat := obj_kind <$> ks_objs s !! a.

Record rely (t : tid) (s : kstate) (ω : waits) (s' : kstate) (ω' : waits) : Prop := {
  rl_waits : forall m, t ∈ ω' m <-> t ∈ ω m;
  rl_holds : forall m, holds s' m t <-> holds s m t;
  rl_timer : ks_timers s' !! TmStack t = ks_timers s !! TmStack t;
  rl_stack : stack_queued s' t -> stack_queued s t;
  rl_kind : forall a, kind_at s' a = kind_at s a;
}.

Lemma rely_refl t s ω : rely t s ω s ω.
Proof. by split. Qed.
Lemma rely_trans t s1 ω1 s2 ω2 s3 ω3 : rely t s1 ω1 s2 ω2 -> rely t s2 ω2 s3 ω3 -> rely t s1 ω1 s3 ω3.
Proof.
  intros [a1 b1 c1 d1 e1] [a2 b2 c2 d2 e2]. split.
  - intros m. by rewrite a2.
  - intros m. by rewrite b2.
  - congruence.
  - auto.
  - intros a. by rewrite e2.
Qed.

(** What the stretch of code of [t] from [s0] to [s] guarantees: [self] tells
    whether it may change what [t] itself relies on. *)
Record guar (self : bool) (t : tid) (s0 : kstate) (ω0 : waits) (s : kstate) (ω : waits) : Prop := {
  gu_rely : forall u, u <> t \/ self = false -> rely u s0 ω0 s ω;
  gu_cpu : ks_cpu s = ks_cpu s0;
  gu_others : forall c, c <> ks_cpu s0 -> cpu_view s c = cpu_view s0 c;
  gu_threads : forall u, is_Some (ks_threads s0 !! u) <-> is_Some (ks_threads s !! u);
}.

Lemma guar_refl self t s ω : guar self t s ω s ω.
Proof. by split. Qed.
Lemma guar_trans self t s1 ω1 s2 ω2 s3 ω3 :
  guar self t s1 ω1 s2 ω2 -> guar self t s2 ω2 s3 ω3 -> guar self t s1 ω1 s3 ω3.
Proof.
  intros [a1 b1 c1 d1] [a2 b2 c2 d2]. split.
  - intros u Hu. eapply rely_trans; eauto.
  - congruence.
  - intros c Hc. rewrite c2, c1; congruence.
  - intros u. by rewrite d1.
Qed.
Lemma guar_self t s0 ω0 s ω : guar false t s0 ω0 s ω -> guar true t s0 ω0 s ω.
Proof. intros []. split; auto. Qed.

(** ** Outcomes that keep to it *)
(** [H] are the mutexes the thread keeps throughout. *)
Definition keeps (H : gset Z) (t : tid) (s : kstate) : Prop := forall m, m ∈ H -> holds s m t.

Section owp.
Context (self : bool) (t : tid) (H : gset Z).

Fixpoint owp {A} (s0 : kstate) (ω0 : waits) (o : outcome A) (Q : kstate -> waits -> A -> kstate -> Prop) : Prop :=
  match o with
  | Ret a s => Q s0 ω0 a s
  | Fault _ => False
  | Unlocked s k => exists ω, guar self t s0 ω0 s ω /\ at_rest t s /\ objs_ok ω s /\ not_waiting t ω /\ keeps H t s /\
      forall s' ω', rely t s ω s' ω' -> at_rest t s' -> objs_ok ω' s' ->
        cpu_view s' (ks_cpu s') = cpu_view s (ks_cpu s) -> owp s' ω' (k s') Q
  | Switch old new s k => exists ω, guar self t s0 ω0 s ω /\ old = t /\ new <> t /\ in_lock ∅ None {[new]} new s /\
      objs_ok ω s /\ keeps H t s /\
      forall s' ω', rely t s ω s' ω' -> in_lock ∅ None {[t]} t s' -> objs_ok ω' s' -> owp s' ω' (k s') Q
  end.

Lemma owp_mono {A} s0 ω0 (o : outcome A) (P Q : kstate -> waits -> A -> kstate -> Prop) :
  owp s0 ω0 o P -> (forall s1 ω1 a s, P s1 ω1 a s -> Q s1 ω1 a s) -> owp s0 ω0 o Q.
Proof.
  intros Ho HPQ. revert s0 ω0 Ho. induction o; intros s0 ω0; simpl; try naive_solver.
Qed.

Lemma owp_bind {A B} s0 ω0 (o : outcome A) (f : A -> K B) Q :
  owp s0 ω0 o (fun s1 ω1 a s => owp s1 ω1 (f a s) Q) -> owp s0 ω0 (obind o f) Q.
Proof. revert s0 ω0. induction o; intros s0 ω0; simpl; try naive_solver. Qed.

Lemma owp_seq {A B} s0 ω0 (m : K A) (f : A -> K B) s Q :
  owp s0 ω0 (m s) (fun s1 ω1 a s => owp s1 ω1 (f a s) Q) -> owp s0 ω0 ((m ≫= f) s) Q.
Proof. apply owp_bind. Qed.

Lemma owp_ret {A} s0 ω0 (a : A) s (Q : kstate -> waits -> A -> kstate -> Prop) :
  Q s0 ω0 a s -> owp s0 ω0 ((mret a : K A) s) Q.
Proof. done. Qed.

(** The common step: a part that returns, then the rest. *)
Lemma owp_step {A B} s0 ω0 (m : K A) (f : A -> K B) s Q :
  rets m s (fun a s' => owp s0 ω0 (f a s') Q) -> owp s0 ω0 ((m ≫= f) s) Q.
Proof. unfold rets, mbind, K_bind. destruct (m s); simpl; naive_solver. Qed.
End owp.

(** ** Stretches that only wake threads *)
Lemma timed_out_ne : ERR_TIMED_OUT <> NO_ERROR.
Proof. done. Qed.

Lemma settles_has_queue s s' w : settles s s' -> has_queue s w -> has_queue s' w.
Proof. intros S (q & Hq & Hm). destruct (se_wq _ _ S w q Hq) as (q' & ? & ? & _). exists q'. split; congruence. Qed.

Lemma settles_back s s' w q' : settles s s' -> ks_wait_queues s' !! w = Some q' ->
  exists q, ks_wait_queues s !! w = Some q /\ forall u, u ∈ wq_list q' -> u ∈ wq_list q.
Proof.
  intros S Hq'. destruct (fr_wait_queues _ _ (se_frame _ _ S) w) as [_ [q Hq]]; [by eexists|].
  destruct (se_wq _ _ S w q Hq) as (? & ? & _ & ?). simplify_eq. eauto.
Qed.

(** A thread that left the queue of a mutex keeps its status. *)
Lemma settles_left ω s s' m u q q' :
  objs_ok ω s -> settles s s' -> u ∈ ω m -> ks_wait_queues s !! WqMutex m = Some q ->
  ks_wait_queues s' !! WqMutex m = Some q' -> u ∉ wq_list q' ->
  u ∈ wq_list q /\ block_ret s' u = Some ERR_TIMED_OUT \/ u ∉ wq_list q /\ block_ret s' u = block_ret s u.
Proof.
  intros O S Hu Hq Hq' Hn. destruct (decide (u ∈ wq_list q)) as [|Hn0]; [left; split; [done|]; by eapply (se_leave _ _ S)|].
  right. split; [done|]. apply (se_ret _ _ S). intros w q1 Hq1 Hin.
  pose proof (ob_queue _ _ O m u w q1 Hu Hq1 Hin) as ->. by simplify_eq.
Qed.

Lemma objs_settles ω s s' : settles s s' -> objs_ok ω s -> objs_ok ω s'.
Proof.
  intros S O. pose proof (se_frame _ _ S) as F. split.
  - intros m mx Hm. rewrite (fr_objs _ _ F) in Hm. destruct (ob_mutex _ _ O m mx Hm) as (q & Hq & M).
    destruct (se_wq _ _ S _ q Hq) as (q' & Hq' & Em & Hsub). exists q'. split; [done|].
    pose proof (fun u Hu Hn => settles_left ω s s' m u q q' O S Hu Hq Hq' Hn) as Hl. destruct M.
    assert (forall u, granted (block_ret s') ω m q' u -> granted (block_ret s) ω m q u) as Hg.
    { pose proof timed_out_ne. intros u (Hu & Hn & Hb). destruct (Hl u Hu Hn) as [[_ ?]|[? ?]]; [congruence|]. split_and!; [done..|congruence]. }
    split; try done.
    + congruence.
    + intros u Hu. auto.
    + intros u Hu Hn. destruct (Hl u Hu Hn) as [[_ ->]|[? ->]]; [by left|auto].
    + intros u v Hu Hv. auto.
  - intros m u Hu. rewrite (fr_objs _ _ F). by eapply (ob_only _ _ O).
  - apply (ob_one _ _ O).
  - intros m u w q' Hu Hq' Hin. destruct (settles_back _ _ _ _ S Hq') as (q & Hq & Hsub). eapply (ob_queue _ _ O); eauto.
  - intros e ev He. rewrite (fr_objs _ _ F) in He. destruct (ob_event _ _ O e ev He) as [? ?].
    split; [done|]. by eapply settles_has_queue.
  - intros a sem Ha. rewrite (fr_objs _ _ F) in Ha. eapply settles_has_queue; [done|]. by eapply (ob_sem _ _ O).
  - intros a. rewrite (fr_obj_timers _ _ F). apply (ob_timers _ _ O).
Qed.

Lemma objs_same_holds s s' m t : ks_objs s' = ks_objs s -> holds s' m t <-> holds s m t.
Proof. unfold holds. by intros ->. Qed.

Lemma settles_guar t ω s s' : settles s s' -> guar false t s ω s' ω.
Proof.
  intros S. pose proof (se_frame _ _ S) as F. split.
  - intros u _. split; try done.
    + intros m. apply objs_same_holds, F.
    + apply (se_timer _ _ S).
    + apply (se_stack _ _ S).
    + intros a. unfold kind_at. by rewrite (fr_objs _ _ F).
  - apply F.
  - apply F.
  - apply F.
Qed.

(** Frames with the timer of the running thread changed, as a thread goes to sleep. *)
Lemma frame_guar t ω s s' : frame s s' -> timers_frame t s s' -> guar true t s ω s' ω.
Proof.
  intros F T. split; [|apply F..]. intros u [Hu|?]; [|done]. split; try done.
  - intros m. apply objs_same_holds, F.
  - by apply (tf_timer _ _ _ T).
  - by apply (tf_stack _ _ _ T).
  - intros a. unfold kind_at. by rewrite (fr_objs _ _ F).
Qed.
