(* ===== verification/SyncInv.v ===== *)
(** * How the synchronisation objects change

    The updates mutex.c, event.c and semaphore.c make to their objects, and what
    blocking and waking do to the invariant of Rely. *)
From S2P Require Import Prelude KState Timer Thread WaitQueue Logic SchedInv TimerInv SchedSpec SchedOps WaitOps TimerTick TickOps Rely.

(** ** Objects *)
Section update.
Context (s : kstate) (a : Z).

Lemma holds_put o m t : holds (put_obj a o s) m t <->
  (if decide (m = a) then match o with KMutex mx => m_holder mx = Some t | _ => False end else holds s m t).
Proof.
  unfold holds. kcbn. destruct (decide (m = a)) as [->|].
  - rewrite lookup_insert_eq. split; [|destruct o; try done; eauto].
    by intros (mx & [= ->] & ?).
  - by rewrite lookup_insert_ne.
Qed.

Lemma holds_at o m t : ks_objs s !! a = Some o ->
  holds s m t <-> (if decide (m = a) then match o with KMutex mx => m_holder mx = Some t | _ => False end else holds s m t).
Proof.
  intros Ha. destruct (decide (m = a)) as [->|]; [|done]. unfold holds. rewrite Ha. split.
  - by intros (mx & [= ->] & ?).
  - destruct o; try done; eauto.
Qed.

(** An update by [t] that gives the object to nobody else. *)
Lemma put_obj_guar self t ω o o' :
  ks_objs s !! a = Some o -> obj_kind o' = obj_kind o ->
  (forall u, u <> t \/ self = false -> match o with KMutex mx => m_holder mx = Some u | _ => False end <->
     match o' with KMutex mx => m_holder mx = Some u | _ => False end) ->
  guar self t s ω (put_obj a o' s) ω.
Proof.
  intros Ha Ek Hh. split; try done. intros u Hu. split; try done.
  - intros m. rewrite holds_put, (holds_at o m u Ha). destruct (decide (m = a)); [|done]. symmetry. auto.
  - intros b. unfold kind_at. kcbn. destruct (decide (b = a)) as [->|]; [rewrite lookup_insert_eq, Ha; cbn; congruence|by rewrite lookup_insert_ne].
Qed.

Lemma put_event_ok ω ev ev' :
  objs_ok ω s -> ks_objs s !! a = Some (KEvent ev) -> e_magic ev' = e_magic ev -> objs_ok ω (put_obj a (KEvent ev') s).
Proof.
  intros [] Ha Em. split; try done.
  - intros m mx Hm. kcbn in Hm. apply lookup_insert_Some in Hm as [[_ ?]|[_ Hm]]; [done|]. by apply ob_mutex.
  - intros m u Hu. destruct (ob_only m u Hu) as [mx Hm]. exists mx. kcbn. rewrite lookup_insert_ne by congruence. done.
  - intros e ev0 He. kcbn in He. apply lookup_insert_Some in He as [[<- [= <-]]|[_ He]]; [|by apply ob_event].
    rewrite Em. by apply ob_event.
  - intros b sem Hb. kcbn in Hb. apply lookup_insert_Some in Hb as [[_ ?]|[_ Hb]]; [done|]. by eapply ob_sem.
Qed.

Lemma put_sem_ok ω sem sem' :
  objs_ok ω s -> ks_objs s !! a = Some (KSem sem) -> objs_ok ω (put_obj a (KSem sem') s).
Proof.
  intros [] Ha. split; try done.
  - intros m mx Hm. kcbn in Hm. apply lookup_insert_Some in Hm as [[_ ?]|[_ Hm]]; [done|]. by apply ob_mutex.
  - intros m u Hu. destruct (ob_only m u Hu) as [mx Hm]. exists mx. kcbn. rewrite lookup_insert_ne by congruence. done.
  - intros e ev0 He. kcbn in He. apply lookup_insert_Some in He as [[_ ?]|[_ He]]; [done|]. by apply ob_event.
  - intros b sem0 Hb. kcbn in Hb. apply lookup_insert_Some in Hb as [[<- _]|[_ Hb]]; by eapply ob_sem.
Qed.

(** A mutex and its waiters are updated together. *)
Lemma put_mutex_ok ω X mx mx' q :
  objs_ok ω s -> ks_objs s !! a = Some (KMutex mx) -> ks_wait_queues s !! WqMutex a = Some q ->
  (forall u, u ∈ X -> u ∈ ω a) ->
  mutex_ok (set_waits a X ω) (block_ret s) a mx' q -> objs_ok (set_waits a X ω) (put_obj a (KMutex mx') s).
Proof.
  intros [] Ha Hq HX M.
  assert (forall m u, u ∈ set_waits a X ω m -> u ∈ ω m) as Hsub.
  { intros m u. unfold set_waits. destruct (decide (m = a)) as [->|]; auto. }
  split; try done.
  - intros m mx0 Hm. kcbn in Hm. apply lookup_insert_Some in Hm as [[<- [= <-]]|[Hne Hm]].
    + exists q. split; [done|]. exact M.
    + destruct (ob_mutex m mx0 Hm) as (q0 & Hq0 & M0). exists q0. split; [done|]. destruct M0.
      assert (set_waits a X ω m = ω m) as E by (unfold set_waits; by rewrite decide_False).
      split; unfold granted in *; rewrite ?E; done.
  - intros m u Hu%Hsub. destruct (ob_only m u Hu) as [mx0 Hm]. kcbn. destruct (decide (m = a)) as [->|].
    + rewrite lookup_insert_eq. eauto.
    + rewrite lookup_insert_ne by done. eauto.
  - intros m m' u Hu%Hsub Hu'%Hsub. eauto.
  - intros m u w q0 Hu%Hsub. eauto.
  - intros e ev0 He. kcbn in He. apply lookup_insert_Some in He as [[_ ?]|[_ He]]; [done|]. by apply ob_event.
  - intros b sem0 Hb. kcbn in Hb. apply lookup_insert_Some in Hb as [[_ ?]|[_ Hb]]; [done|]. by eapply ob_sem.
Qed.
End update.

(** ** Blocking *)
(** [t] blocks on the queue of an object that is not a mutex ... *)
Lemma waiting_objs t w timeout ω s s' :
  objs_ok ω s -> waiting t w timeout s s' -> not_waiting t ω -> (forall m, w <> WqMutex m) -> objs_ok ω s'.
Proof.
  intros O [F T (q & Hq & Ew) Hb _ _] Hn Hw.
  assert (forall w', has_queue s w' -> has_queue s' w') as Hhq.
  { intros w' (q0 & Hq0 & Hm). unfold has_queue. rewrite Ew. destruct (decide (w' = w)) as [->|].
    - rewrite lookup_insert_eq. eexists. split; [done|]. by simplify_eq.
    - rewrite lookup_insert_ne by done. eauto. }
  assert (forall m u, u ∈ ω m -> block_ret s' u = block_ret s u) as Hbr.
  { intros m u Hu. apply Hb. intros ->. by eapply Hn. }
  destruct O. split; rewrite ?(fr_objs _ _ F); try done.
  - intros m mx Hm. destruct (ob_mutex m mx Hm) as (q0 & Hq0 & M). exists q0. rewrite Ew, lookup_insert_ne by auto.
    split; [done|]. destruct M. split; try done.
    + intros u Hu ?. rewrite (Hbr m u Hu). auto.
    + intros u v (? & ? & E) (? & ? & E'). rewrite (Hbr m) in E, E' by done. apply mo_granted; done.
  - intros m u w' q' Hu Hq' Hin. rewrite Ew in Hq'. apply lookup_insert_Some in Hq' as [[<- <-]|[_ Hq']]; [|by eapply ob_queue].
    cbn in Hin. apply elem_of_app in Hin as [Hin| ->%list_elem_of_singleton]; [by eapply ob_queue|]. by destruct (Hn m).
  - intros e ev He. destruct (ob_event e ev He). auto.
  - eauto.
  - intros a. rewrite (fr_obj_timers _ _ F). apply ob_timers.
Qed.

(** ... or of a mutex, having counted itself in. *)
Lemma waiting_mutex t m timeout ω mx s s' :
  objs_ok ω s -> not_waiting t ω -> (forall w q, ks_wait_queues s !! w = Some q -> t ∉ wq_list q) ->
  ks_objs s !! m = Some (KMutex mx) ->
  waiting t (WqMutex m) timeout (put_obj m (KMutex (set_m_count (m_count mx + 1) mx)) s) s' ->
  objs_ok (set_waits m ({[t]} ∪ ω m) ω) s'.
Proof.
  intros O Hn Hoff Hm [F T (q & Hq & Ew) Hb _ _]. kcbn in Hq. kcbn in Ew.
  pose proof (fr_objs _ _ F) as Eo. kcbn in Eo.
  assert (forall u, u <> t -> block_ret s' u = block_ret s u) as Hbr by exact Hb.
  assert (forall m' u, u ∈ set_waits m ({[t]} ∪ ω m) ω m' -> u = t /\ m' = m \/ u <> t /\ u ∈ ω m') as Hin.
  { intros m' u. unfold set_waits. destruct (decide (m' = m)) as [->|].
    - destruct (decide (u = t)); set_solver.
    - intros Hu. right. split; [|done]. intros ->. by eapply Hn. }
  assert (forall w', has_queue s w' -> has_queue s' w') as Hhq.
  { intros w' (q0 & Hq0 & Hmq). unfold has_queue. rewrite Ew. destruct (decide (w' = WqMutex m)) as [->|].
    - rewrite lookup_insert_eq. eexists. split; [done|]. by simplify_eq.
    - rewrite lookup_insert_ne by done. eauto. }
  destruct O. split.
  - intros m' mx' Hm'. rewrite Eo in Hm'. apply lookup_insert_Some in Hm' as [[<- [= <-]]|[Hne Hm']].
    + destruct (ob_mutex m mx Hm) as (q0 & Hq0 & M). assert (q0 = q) as -> by congruence.
      exists (wq_push t q). rewrite Ew, lookup_insert_eq. split; [done|]. destruct M.
      assert (forall u, u ∈ set_waits m ({[t]} ∪ ω m) ω m -> u ∉ wq_list (wq_push t q) -> u <> t /\ u ∈ ω m /\ u ∉ wq_list q) as Hl.
      { intros u Hu Hu'. cbn in Hu'. destruct (Hin m u Hu) as [[-> _]|[? ?]]; [set_solver|]. split_and!; [done..|set_solver]. }
      split; try done.
      * cbn. rewrite mo_count. unfold set_waits. rewrite decide_True by done.
        rewrite size_union, size_singleton by (specialize (Hn m); set_solver). lia.
      * intros u Hu. cbn in Hu. unfold set_waits. rewrite decide_True by done.
        apply elem_of_app in Hu as [Hu%mo_waiting| ->%list_elem_of_singleton]; set_solver.
      * intros u Hu Hu'. destruct (Hl u Hu Hu') as (? & ? & ?). rewrite Hbr by done. by apply mo_left.
      * intros u v (Hu & Hu' & Eu) (Hv & Hv' & Ev). destruct (Hl u Hu Hu') as (? & ? & ?). destruct (Hl v Hv Hv') as (? & ? & ?).
        rewrite Hbr in Eu, Ev by done. by apply mo_granted.
    + destruct (ob_mutex m' mx' Hm') as (q0 & Hq0 & M). exists q0. rewrite Ew, lookup_insert_ne by congruence.
      split; [done|]. assert (set_waits m ({[t]} ∪ ω m) ω m' = ω m') as E by (unfold set_waits; by rewrite decide_False).
      assert (forall u, u ∈ ω m' -> u <> t) as Hnt by (intros u Hu ->; by eapply Hn).
      destruct M. split; unfold granted in *; rewrite ?E; try done.
      * intros u Hu ?. rewrite Hbr by auto. auto.
      * intros u v (? & ? & Eu) (? & ? & Ev). rewrite Hbr in Eu, Ev by auto. auto.
  - intros m' u Hu. rewrite Eo. destruct (decide (m' = m)) as [->|]; [rewrite lookup_insert_eq; eauto|].
    rewrite lookup_insert_ne by done. destruct (Hin m' u Hu) as [[_ ->]|[_ ?]]; [done|eauto].
  - intros m1 m2 u H1 H2. destruct (Hin m1 u H1) as [[? ?]|[? ?]], (Hin m2 u H2) as [[? ?]|[? ?]]; try congruence. eauto.
  - intros m' u w q0 Hu Hq0 Hin0. rewrite Ew in Hq0. apply lookup_insert_Some in Hq0 as [[<- <-]|[Hne Hq0]].
    + cbn in Hin0. destruct (Hin m' u Hu) as [[-> ->]|[? ?]]; [done|]. eapply ob_queue; [done..|set_solver].
    + destruct (Hin m' u Hu) as [[-> ->]|[? ?]]; [by destruct (Hoff w q0)|]. by eapply ob_queue.
  - intros e ev He. rewrite Eo in He. apply lookup_insert_Some in He as [[_ ?]|[_ He]]; [done|].
    destruct (ob_event e ev He). auto.
  - intros a sem Ha. rewrite Eo in Ha. apply lookup_insert_Some in Ha as [[_ ?]|[_ Ha]]; [done|]. eauto.
  - intros a. rewrite (fr_obj_timers _ _ F). apply ob_timers.
Qed.

(** ** Releasing and acquiring *)
Lemma objs_ext ω ω' s : (forall m, ω m = ω' m) -> objs_ok ω s -> objs_ok ω' s.
Proof.
  intros E []. split; try done; try (intros *; rewrite <- ?E; eauto; fail).
  intros m mx Hm. destruct (ob_mutex m mx Hm) as (q & Hq & M). exists q. split; [done|].
  destruct M. split; unfold granted in *; rewrite <- ?E; done.
Qed.

Lemma set_waits_same m ω m' : set_waits m (ω m) ω m' = ω m'.
Proof. unfold set_waits. by destruct (decide (m' = m)) as [->|]. Qed.

Definition released (mx : mutex_t) : mutex_t := set_m_count (m_count mx - 1) (set_m_holder None mx).

Lemma release_objs t m ω mx q s :
  objs_ok ω s -> ks_objs s !! m = Some (KMutex mx) -> m_holder mx = Some t -> ks_wait_queues s !! WqMutex m = Some q ->
  objs_ok ω (put_obj m (KMutex (released mx)) s) /\ forall u, ~ granted (block_ret s) ω m q u.
Proof.
  intros O Hm Hh Hq. destruct (ob_mutex _ _ O m mx Hm) as (q0 & Hq0 & M). assert (q0 = q) as -> by congruence.
  pose proof timed_out_ne as Hne. destruct M.
  assert (forall u, ~ granted (block_ret s) ω m q u) as Hg.
  { intros u (Hu & Hn & E). destruct (mo_left u Hu Hn) as [?|[_ ?]]; congruence. }
  split; [|done]. apply (objs_ext (set_waits m (ω m) ω)); [apply set_waits_same|].
  eapply put_mutex_ok; [done..|]. split; unfold granted in *; rewrite ?set_waits_same; try done.
  - cbn. rewrite mo_count, Hh. lia.
  - intros u Hu Hn. left. destruct (mo_left u Hu Hn) as [?|[_ ?]]; [done|congruence].
Qed.

(** The head of the queue is handed the mutex nobody holds. *)
Lemma wake_mutex_objs X Ho m ω mx q u rest s s' :
  objs_ok ω s -> swf X Ho s -> ks_objs s !! m = Some (KMutex mx) -> m_holder mx = None ->
  ks_wait_queues s !! WqMutex m = Some q -> wq_list q = u :: rest -> (forall v, ~ granted (block_ret s) ω m q v) ->
  woken [u] (WqMutex m) (wq_pop rest q) NO_ERROR s s' -> objs_ok ω s'.
Proof.
  intros O W Hm Hh Hq El Hg [F Ew Eb _ _]. pose proof timed_out_ne as Hne.
  destruct (sw_wq_count _ _ _ _ _ _ _ W _ q Hq) as (Hnd & _ & _). rewrite El in Hnd. apply NoDup_cons in Hnd as [Hnu Hnd].
  assert (forall v, v <> u -> block_ret s' v = block_ret s v) as Hbr.
  { intros v Hv. unfold block_ret. rewrite Eb, decide_False; [done|]. set_solver. }
  assert (block_ret s' u = Some NO_ERROR) as Hbu by (unfold block_ret; rewrite Eb, decide_True by set_solver; done).
  assert (u ∈ ω m) as Huω.
  { destruct (ob_mutex _ _ O m mx Hm) as (q0 & Hq0 & M). simplify_eq. apply (mo_waiting _ _ _ _ _ M). rewrite El. by left. }
  assert (forall w', has_queue s w' -> has_queue s' w') as Hhq.
  { intros w' (q0 & Hq0 & Hmq). unfold has_queue. rewrite Ew. destruct (decide (w' = WqMutex m)) as [->|].
    - rewrite lookup_insert_eq. eexists. split; [done|]. by simplify_eq.
    - rewrite lookup_insert_ne by done. eauto. }
  destruct O. split; rewrite ?(fr_objs _ _ F); try done.
  - intros m' mx' Hm'. destruct (ob_mutex m' mx' Hm') as (q0 & Hq0 & M). rewrite Ew. destruct (decide (m' = m)) as [->|Hnm].
    + simplify_eq. eexists. rewrite lookup_insert_eq. split; [done|]. destruct M.
      assert (forall v, v <> u -> v ∉ wq_list (wq_pop rest q) -> v ∉ wq_list q) as Hq'.
      { cbn. intros v Hv Hv'. rewrite El. set_solver. }
      split; try done.
      * intros v Hv. apply mo_waiting. rewrite El. by right.
      * intros v Hv Hv'. destruct (decide (v = u)) as [->|Hvu]; [by right|]. rewrite Hbr by done. auto.
      * assert (forall v, granted (block_ret s') ω m (wq_pop rest q) v -> v = u) as Hu.
        { intros v (Hv & Hv' & E). destruct (decide (v = u)) as [|Hvu]; [done|]. rewrite Hbr in E by done.
          destruct (Hg v). split_and!; auto. }
        intros v v' Hv%Hu Hv'%Hu. congruence.
    + exists q0. rewrite lookup_insert_ne by congruence. split; [done|].
      assert (forall v, v ∈ ω m' -> v <> u) as Hnu' by (intros v Hv ->; by apply Hnm, (ob_one m' m u)).
      destruct M. split; try done.
      * intros v Hv ?. rewrite Hbr by auto. auto.
      * intros v v' (? & ? & E) (? & ? & E'). rewrite Hbr in E, E' by auto. by apply mo_granted.
  - intros m' v w q0 Hv Hq0 Hin. rewrite Ew in Hq0. apply lookup_insert_Some in Hq0 as [[<- <-]|[_ Hq0]]; [|by eapply ob_queue].
    cbn in Hin. eapply ob_queue; [done..|]. rewrite El. by right.
  - intros e ev He. destruct (ob_event e ev He). auto.
  - eauto.
  - intros a. rewrite (fr_obj_timers _ _ F). apply ob_timers.
Qed.

(** A mutex nobody uses is taken. *)
Lemma acquire_objs t m ω mx s :
  objs_ok ω s -> ks_objs s !! m = Some (KMutex mx) -> m_count mx <= 0 ->
  m_holder mx = None /\ objs_ok ω (put_obj m (KMutex (set_m_holder (Some t) (set_m_count (m_count mx + 1) mx))) s).
Proof.
  intros O Hm Hc. destruct (ob_mutex _ _ O m mx Hm) as (q & Hq & M). destruct M.
  assert (m_holder mx = None /\ size (ω m) = 0%nat) as [Hh Hs] by (destruct (m_holder mx); split; (done || lia)).
  split; [done|]. apply size_empty_inv in Hs.
  apply (objs_ext (set_waits m (ω m) ω)); [apply set_waits_same|]. eapply put_mutex_ok; [done..|].
  split; unfold granted in *; rewrite ?set_waits_same; try done.
  - cbn. rewrite mo_count, Hh. lia.
  - intros u Hu. set_solver.
Qed.

(** A thread that runs again after waiting takes the mutex it was handed, or
    counts itself out. *)
Lemma resume_objs t m ω s r :
  objs_ok ω s -> t ∈ ω m -> (forall w q, ks_wait_queues s !! w = Some q -> t ∉ wq_list q) -> block_ret s t = Some r ->
  exists mx, ks_objs s !! m = Some (KMutex mx) /\
    let ω' := set_waits m (ω m ∖ {[t]}) ω in
    (r = ERR_TIMED_OUT /\ objs_ok ω' (put_obj m (KMutex (set_m_count (m_count mx - 1) mx)) s) \/
     r = NO_ERROR /\ m_holder mx = None /\ objs_ok ω' (put_obj m (KMutex (set_m_holder (Some t) mx)) s)).
Proof.
  intros O Ht Hoff Hr. destruct (ob_only _ _ O m t Ht) as [mx Hm]. exists mx. split; [done|].
  destruct (ob_mutex _ _ O m mx Hm) as (q & Hq & M). pose proof (Hoff _ _ Hq) as Hnq. destruct M.
  assert (size (ω m) = S (size (ω m ∖ {[t]}))) as Hs.
  { rewrite (union_difference_singleton_L t (ω m) Ht) at 1. rewrite size_union, size_singleton by set_solver. done. }
  set (ω' := set_waits m (ω m ∖ {[t]}) ω).
  assert (ω' m = ω m ∖ {[t]}) as Em by (unfold ω', set_waits; by rewrite decide_True).
  assert (forall u, u ∈ ω' m -> u ∈ ω m /\ u <> t) as Hin by (intros u; rewrite Em; set_solver).
  assert (forall u, u ∈ wq_list q -> u ∈ ω' m) as Hwait.
  { intros u Hu. rewrite Em. apply elem_of_difference. split; [auto|]. apply not_elem_of_singleton. by intros ->. }
  assert (forall u v, granted (block_ret s) ω' m q u -> granted (block_ret s) ω' m q v -> u = v) as Hg.
  { intros u v ([? ?]%Hin & ? & ?) ([? ?]%Hin & ? & ?). by apply mo_granted. }
  destruct (mo_left t Ht Hnq) as [E|[E Hh]]; [left|right].
  - split; [congruence|]. eapply put_mutex_ok; [done..|set_solver|]. fold ω'. split; try done.
    + cbn. rewrite mo_count, Em, Hs. lia.
    + intros u [? _]%Hin. auto.
  - split_and!; [congruence|done|]. eapply put_mutex_ok; [done..|set_solver|]. fold ω'. split; try done.
    + cbn. rewrite mo_count, Em, Hs, Hh. lia.
    + intros u [Hu Hne]%Hin Hnu. left. destruct (mo_left u Hu Hnu) as [?|[? _]]; [done|].
      destruct Hne. by apply mo_granted.
Qed.
