(* ===== verification/SyncOps.v ===== *)
(** * The operations threads call

    Each operation of thread.c, mutex.c, event.c and semaphore.c that a thread
    calls keeps to the guarantee of Rely, returns to its caller with interrupts
    enabled and holding exactly the mutexes it should, and never faults. *)
From S2P Require Import Prelude KState Timer Thread WaitQueue Logic SchedInv TimerInv SchedSpec SchedOps WaitOps Mutex Event Semaphore TimerTick TickOps Rely SyncInv.

(** A thread in its own code, holding the mutexes [h]. *)
Record user (t : tid) (h : gset Z) (ω : waits) (s : kstate) : Prop := {
  us_rest : at_rest t s;
  us_objs : objs_ok ω s;
  us_waits : not_waiting t ω;
  us_ints : cpu_view s (ks_cpu s) = Some (t, false);
  us_holds : forall m, holds s m t <-> m ∈ h;
}.

(** Called holding [h], the operation keeps [hk] throughout and returns [r]
    holding [hr r]. *)
Definition op_safe (t : tid) (h hk : gset Z) (hr : Z -> gset Z) (m : K Z) : Prop :=
  forall ω s, user t h ω s -> owp true t hk s ω (m s) (fun s0 ω0 r s' =>
    exists ω', guar true t s0 ω0 s' ω' /\ user t (hr r) ω' s').

Lemma rely_not_waiting t s ω s' ω' : rely t s ω s' ω' -> not_waiting t ω -> not_waiting t ω'.
Proof. intros R Hn m. rewrite (rl_waits _ _ _ _ _ R). apply Hn. Qed.

Lemma rely_keeps t H s ω s' ω' : rely t s ω s' ω' -> keeps H t s -> keeps H t s'.
Proof. intros R Hk m Hm. apply (rl_holds _ _ _ _ _ R). auto. Qed.

Lemma settles_rely t ω s s' : settles s s' -> rely t s ω s' ω.
Proof. intros S. apply (gu_rely _ _ _ _ _ _ (settles_guar t ω s s' S)). by right. Qed.

Lemma settles_keeps t H s s' : settles s s' -> keeps H t s -> keeps H t s'.
Proof. intros S. exact (rely_keeps t H s (fun _ => ∅) s' _ (settles_rely t _ s s' S)). Qed.

Lemma settles_guar_any self t ω s s' : settles s s' -> guar self t s ω s' ω.
Proof. intros S. destruct self; [apply guar_self|]; by apply settles_guar. Qed.

Section rules.
Context `{KConfig} (self : bool) (t : tid) (hk : gset Z).

Lemma owp_lock {A} s0 ω0 (f : bool -> K A) s Q :
  at_rest t s ->
  (forall saved s1, in_lock ∅ None ∅ t s1 -> quiet s s1 -> ks_threads s1 = ks_threads s ->
     cpu_view s (ks_cpu s) = Some (t, saved) -> owp self t hk s0 ω0 (f saved s1) Q) ->
  owp self t hk s0 ω0 ((THREAD_LOCK ≫= f) s) Q.
Proof.
  intros R Hf. apply owp_step. eapply rets_mono; [by apply THREAD_LOCK_run|].
  intros saved s1 (L & F & V & Sv). apply Hf; [done|by apply kview_quiet|by apply kview_threads|done].
Qed.

Lemma owp_unlock0 s0 ω0 s ω saved Q :
  in_lock ∅ None ∅ t s -> guar self t s0 ω0 s ω -> objs_ok ω s -> not_waiting t ω -> keeps hk t s ->
  (forall s' ω', rely t s ω s' ω' -> at_rest t s' -> objs_ok ω' s' -> cpu_view s' (ks_cpu s') = Some (t, saved) ->
     Q s' ω' tt s') ->
  owp self t hk s0 ω0 (THREAD_UNLOCK saved s) Q.
Proof.
  intros L G O Hn Hk HQ. destruct (THREAD_UNLOCK_run t s saved L) as (s1 & E & R & F & V & Sv).
  pose proof (quiet_settles _ _ (kview_quiet _ _ F V)) as S. rewrite E. cbn.
  exists ω. split_and!; [|done|by eapply objs_settles|done|by eapply settles_keeps|].
  - eapply guar_trans; [exact G|]. by apply settles_guar_any.
  - intros s' ω' Hr R' O' Ev. apply HQ; [|done|done|congruence].
    eapply rely_trans; [by apply settles_rely|done].
Qed.

Lemma owp_unlock {A} s0 ω0 s ω saved (r : A) Q :
  in_lock ∅ None ∅ t s -> guar self t s0 ω0 s ω -> objs_ok ω s -> not_waiting t ω -> keeps hk t s ->
  (forall s' ω', rely t s ω s' ω' -> at_rest t s' -> objs_ok ω' s' -> cpu_view s' (ks_cpu s') = Some (t, saved) ->
     Q s' ω' r s') ->
  owp self t hk s0 ω0 ((THREAD_UNLOCK saved;; mret r) s) Q.
Proof. intros L G O Hn Hk HQ. apply owp_seq. by eapply owp_unlock0. Qed.

(** After a reschedule, at once or when the thread is picked again. *)
Lemma owp_resched {A} s0 ω0 s ω new (f : unit -> K A) Q :
  in_lock ∅ None {[new]} new s -> ~ stack_queued s t -> guar self t s0 ω0 s ω -> objs_ok ω s -> keeps hk t s ->
  (forall s1 ω1 s2 ω2, guar self t s1 ω1 s2 ω2 -> rely t s ω s2 ω2 -> in_lock ∅ None ∅ t s2 -> objs_ok ω2 s2 ->
     owp self t hk s1 ω1 (f tt s2) Q) ->
  owp self t hk s0 ω0 (obind (resched_outcome t new s) f) Q.
Proof.
  intros L Hn G O Hk Hf.
  assert (forall s2, in_lock ∅ None {[t]} t s2 -> ~ stack_queued s2 t -> in_lock ∅ None ∅ t s2) as Hin.
  { intros s2 [I2 ? ?] Hn2. split; [|done|done]. apply (kinv_no_timer _ _ _ t); [by rewrite union_empty_r_L|done]. }
  unfold resched_outcome. destruct (decide (new = t)) as [->|Hne]; cbn.
  - eapply Hf; [done|apply rely_refl|by apply Hin|done].
  - exists ω. split_and!; try done. intros s' ω' R L' O'. eapply Hf; [apply guar_refl|done| |done].
    apply Hin; [done|]. intros Hq. by apply Hn, (rl_stack _ _ _ _ _ R).
Qed.
End rules.

(** ** Facts about a running thread *)
Lemma in_lock_running X Y t s : in_lock X None Y t s ->
  exists th, ks_threads s !! t = Some th /\ t_state th = THREAD_RUNNING.
Proof. intros L. destruct (in_lock_threads _ _ _ _ L) as (th & ? & ? & _). eauto. Qed.

Lemma running_off_queues X Y t s : in_lock X None Y t s -> forall w q, ks_wait_queues s !! w = Some q -> t ∉ wq_list q.
Proof.
  intros L w q Hq. destruct (in_lock_running _ _ _ _ L) as (th & Ht & Hs).
  destruct (sched_running_off t th (ki_sched _ _ _ _ (il_inv _ _ _ _ _ L)) Ht Hs) as [_ Hw]. by eapply Hw.
Qed.

Lemma not_idle X Ho Y t th s : kinv X Ho Y s -> 0 <= t -> ks_threads s !! t = Some th ->
  thread_is_idle th = false.
Proof.
  intros [W _ _ _] Hni Ht. apply not_true_is_false. intros Hi.
  destruct (sw_idle_only _ _ _ _ _ _ _ W t th Ht Hi) as (c & -> & Hc).
  pose proof (sw_cpus _ _ _ _ _ _ _ W c Hc). unfold idle_thread in Hni. lia.
Qed.

(** A running thread whose stack timer is that of a sleep has none queued. *)
Lemma slept_no_timer Y t tm s :
  in_lock ∅ None Y t s -> ks_timers s !! TmStack t = Some tm -> tm_callback tm = ThreadSleepHandler -> ~ stack_queued s t.
Proof.
  intros L Htm Hcb (c & q & Hq & Hin). destruct (in_lock_running _ _ _ _ L) as (th & Ht & Hs).
  destruct (tw_stack _ _ _ _ _ (ki_timers _ _ _ _ (il_inv _ _ _ _ _ L)) c q t Hq Hin) as (tm' & ? & _ & _ & Hok).
  destruct Hok as (th' & ? & [[? ?]|[? _]]); [set_solver|congruence|congruence].
Qed.

Lemma objs_same ω s s' : frame s s' -> ks_wait_queues s' = ks_wait_queues s ->
  (forall u, block_ret s' u = block_ret s u) -> objs_ok ω s -> objs_ok ω s'.
Proof.
  intros F Ew Eb []. split; unfold has_queue in *; rewrite ?(fr_objs _ _ F), ?Ew; try done.
  - intros m mx Hm. destruct (ob_mutex m mx Hm) as (q & Hq & M). exists q. split; [done|]. destruct M.
    split; unfold granted in *; try done; intros u; rewrite ?Eb; auto. intros v. rewrite Eb. auto.
  - intros a. rewrite (fr_obj_timers _ _ F). apply ob_timers.
Qed.

Lemma user_after t h s ω s' ω' :
  rely t s ω s' ω' -> at_rest t s' -> objs_ok ω' s' -> cpu_view s' (ks_cpu s') = Some (t, false) ->
  not_waiting t ω -> (forall m, holds s m t <-> m ∈ h) ->
  exists ω'', guar true t s' ω' s' ω'' /\ user t h ω'' s'.
Proof.
  intros R A O Ev Hn Hh. exists ω'. split; [apply guar_refl|]. split; [done|done|by eapply rely_not_waiting|done|].
  intros m. rewrite (rl_holds _ _ _ _ _ R). apply Hh.
Qed.

(** ** Field accesses *)
Lemma rets_get_event e ev s P : ks_objs s !! e = Some (KEvent ev) -> P ev s -> rets (get_event e) s P.
Proof. intros He HP. unfold rets, get_event, get_obj, mbind, K_bind. by rewrite He. Qed.
Lemma rets_mod_event e ev f s (P : unit -> kstate -> Prop) :
  ks_objs s !! e = Some (KEvent ev) -> P tt (put_obj e (KEvent (f ev)) s) -> rets (mod_event e f) s P.
Proof. intros. apply rets_bind. by eapply rets_get_event. Qed.
Lemma rets_get_sem a sem s P : ks_objs s !! a = Some (KSem sem) -> P sem s -> rets (get_sem a) s P.
Proof. intros He HP. unfold rets, get_sem, get_obj, mbind, K_bind. by rewrite He. Qed.
Lemma rets_mod_sem a sem f s (P : unit -> kstate -> Prop) :
  ks_objs s !! a = Some (KSem sem) -> P tt (put_obj a (KSem (f sem)) s) -> rets (mod_sem a f) s P.
Proof. intros. apply rets_bind. by eapply rets_get_sem. Qed.
Lemma rets_get_mutex m mx s P : ks_objs s !! m = Some (KMutex mx) -> P mx s -> rets (get_mutex m) s P.
Proof. intros He HP. unfold rets, get_mutex, get_obj, mbind, K_bind. by rewrite He. Qed.
Lemma rets_mod_mutex m mx f s (P : unit -> kstate -> Prop) :
  ks_objs s !! m = Some (KMutex mx) -> P tt (put_obj m (KMutex (f mx)) s) -> rets (mod_mutex m f) s P.
Proof. intros. apply rets_bind. by eapply rets_get_mutex. Qed.

(** One step under [owp]. *)
Ltac oprim :=
  lazymatch goal with
  | |- rets (get_event _) _ _ => eapply rets_get_event; [klookup|]
  | |- rets (mod_event _ _) _ _ => eapply rets_mod_event; [klookup|]
  | |- rets (get_sem _) _ _ => eapply rets_get_sem; [klookup|]
  | |- rets (mod_sem _ _) _ _ => eapply rets_mod_sem; [klookup|]
  | |- rets (get_mutex _) _ _ => eapply rets_get_mutex; [klookup|]
  | |- rets (mod_mutex _ _) _ _ => eapply rets_mod_mutex; [klookup|]
  | |- _ => kprim
  end.
Ltac ostep :=
  lazymatch goal with
  | |- owp _ _ _ _ _ ((_ ≫= _) _) _ => apply owp_step; oprim
  | |- owp _ _ _ _ _ (mret _ _) _ => apply owp_ret
  end; cbv beta; kcbn.

(** An object of a kind. *)
Lemma kind_event s e : kind_at s e = Some 1%nat -> exists ev, ks_objs s !! e = Some (KEvent ev).
Proof. unfold kind_at. destruct (ks_objs s !! e) as [[]|]; naive_solver. Qed.
Lemma kind_sem s a : kind_at s a = Some 2%nat -> exists sem, ks_objs s !! a = Some (KSem sem).
Proof. unfold kind_at. destruct (ks_objs s !! a) as [[]|]; naive_solver. Qed.
Lemma kind_mutex s m : kind_at s m = Some 0%nat -> exists mx, ks_objs s !! m = Some (KMutex mx).
Proof. unfold kind_at. destruct (ks_objs s !! m) as [[]|]; naive_solver. Qed.

Section ops.
Context `{KConfig} (t : tid) (Hni : 0 <= t).

Lemma user_thread h ω s : user t h ω s ->
  exists th pc, ks_threads s !! t = Some th /\ thread_is_idle th = false /\ t_magic th = THREAD_MAGIC /\
    ks_percpu s !! ks_cpu s = Some pc /\ pc_current pc = t /\ pc_ints_disabled pc = false.
Proof using Hni.
  intros [[I _ Hc] _ _ Ev _]. destruct (current_thread _ _ _ _ (ki_sched _ _ _ _ I) Hc) as (th & Ht & _ & _ & Hm & _).
  unfold cpu_view in Ev. apply fmap_Some in Ev as (pc & Hpc & [= Ec Ei]).
  exists th, pc. split_and!; try done. by eapply not_idle.
Qed.

(** ** thread.c *)
(** Operations that put the caller back on a run queue. *)
Lemma yields_safe h (m : K unit) :
  (forall s th, at_rest t s -> ks_threads s !! t = Some th -> thread_is_idle th = false -> yields t s m) ->
  op_safe t h h (fun _ => h) (m;; mret NO_ERROR).
Proof using Hni.
  intros Hm ω s U. destruct (user_thread _ _ _ U) as (th & _ & Ht & Hi & _). destruct U as [R O Hn Ev Hh].
  destruct (Hm s th R Ht Hi) as (new & s' & saved & Sv & L & Q & Hq & E). assert (saved = false) as -> by congruence.
  pose proof (quiet_settles _ _ Q) as S. apply owp_seq. rewrite E.
  eapply (owp_resched true t h s ω s' ω); [done|done|by apply settles_guar_any|by eapply objs_settles| |].
  { eapply settles_keeps; [done|]. intros m' Hm'. by apply Hh. }
  intros s1 ω1 s2 ω2 G R2 L2 O2.
  assert (forall m', holds s2 m' t <-> m' ∈ h) as Hh2.
  { intros m'. rewrite (rl_holds _ _ _ _ _ R2), (rl_holds _ _ _ _ _ (settles_rely t ω _ _ S)). apply Hh. }
  eapply owp_unlock0; [done|exact G|done|by eapply rely_not_waiting|intros m' ?; by apply Hh2|].
  intros s3 ω3 R3 A3 O3 Ev3. cbn. eapply user_after; [done..|by eapply rely_not_waiting|done].
Qed.

Lemma thread_yield_safe h : op_safe t h h (fun _ => h) (thread_yield;; mret NO_ERROR).
Proof using Hni. apply yields_safe. intros s th R _ _. by apply thread_yield_run. Qed.

Lemma thread_set_priority_safe h prio : op_safe t h h (fun _ => h) (thread_set_priority prio;; mret NO_ERROR).
Proof using Hni. apply yields_safe. intros s th R Ht Hi. by eapply thread_set_priority_run. Qed.

Lemma thread_sleep_safe h delay : op_safe t h h (fun _ => h) (thread_sleep delay;; mret NO_ERROR).
Proof using Hni.
  intros ω s U. destruct (user_thread _ _ _ U) as (th & _ & Ht & Hi & _). destruct U as [R O Hn Ev Hh].
  destruct (thread_sleep_run t th delay s R Ht Hi) as (s1 & saved & Sv & [F1 T1 W1 B1 (tm & Htm & Hcb)] & (new & s' & Hne & L & Q & _ & E)).
  assert (saved = false) as -> by congruence. pose proof (quiet_settles _ _ Q) as S.
  assert (ks_objs s' = ks_objs s) as Eo by (by rewrite (fr_objs _ _ (qu_frame _ _ Q)), (fr_objs _ _ F1)).
  assert (forall m, holds s' m t <-> m ∈ h) as Hh1 by (intros m; rewrite (objs_same_holds _ _ _ _ Eo); apply Hh).
  apply owp_seq. rewrite E. cbn. exists ω. split_and!; [|done|done|done| |intros m ?; by apply Hh1|].
  - eapply guar_trans; [by apply (frame_guar t ω s s1)|by apply settles_guar_any].
  - eapply objs_settles; [done|]. by eapply (objs_same ω s).
  - intros s2 ω2 R2 L2 O2. assert (~ stack_queued s2 t) as Hq2.
    { eapply slept_no_timer; [done| |done]. rewrite (rl_timer _ _ _ _ _ R2), (qu_timer _ _ Q). done. }
    assert (in_lock ∅ None ∅ t s2) as L2'.
    { destruct L2 as [I2 ? ?]. split; [|done|done]. apply (kinv_no_timer _ _ _ t); [by rewrite union_empty_r_L|done]. }
    assert (forall m', holds s2 m' t <-> m' ∈ h) as Hh2 by (intros m'; rewrite (rl_holds _ _ _ _ _ R2); apply Hh1).
    eapply owp_unlock0; [done|apply guar_refl|done|by eapply rely_not_waiting|intros m' ?; by apply Hh2|].
    intros s3 ω3 R3 A3 O3 Ev3. cbn. eapply user_after; [done..|by eapply rely_not_waiting|done].
Qed.

(** ** Blocking *)
(** [t] back in [s3] from a wait it began in [s]. *)
Record back (s : kstate) (ω : waits) (s3 : kstate) (ω3 : waits) (r : Z) : Prop := {
  ba_lock : in_lock ∅ None ∅ t s3;
  ba_objs : objs_ok ω3 s3;
  ba_waits : forall m, t ∈ ω3 m <-> t ∈ ω m;
  ba_holds : forall m, holds s3 m t <-> holds s m t;
  ba_kind : forall a, kind_at s3 a = kind_at s a;
  ba_ret : block_ret s3 t = Some r;
}.

Lemma owp_block hk s0 ω0 w q timeout s (Q : kstate -> waits -> Z -> kstate -> Prop) :
  in_lock ∅ None ∅ t s -> ks_wait_queues s !! w = Some q -> wq_magic q = WAIT_QUEUE_MAGIC ->
  Q s0 ω0 ERR_TIMED_OUT s ->
  (forall s', waiting t w timeout s s' -> exists ω', guar true t s0 ω0 s' ω' /\ objs_ok ω' s' /\ keeps hk t s' /\
     forall s2 ω2 s3 r, guar true t s2 ω2 s3 ω2 -> back s' ω' s3 ω2 r -> Q s2 ω2 r s3) ->
  owp true t hk s0 ω0 (wait_queue_block w timeout s) Q.
Proof using Hni.
  intros L Hq Hm H0 Hb. destruct (in_lock_running _ _ _ _ L) as (th & Ht & _).
  pose proof (not_idle _ _ _ _ _ _ (il_inv _ _ _ _ _ L) Hni Ht) as Hi.
  destruct (decide (timeout = 0)) as [->|Hne].
  { by rewrite (wait_queue_block_zero t w q s L Hq Hm). }
  destruct (wait_queue_block_run t th w q timeout s L Ht Hi Hq Hm Hne) as (new & s' & Hnew & L' & Wt & E).
  rewrite E. destruct (Hb s' Wt) as (ω' & G & O & Hk & Hf). cbn.
  exists ω'. split_and!; try done. intros s2 ω2 R2 L2 O2.
  assert (if timeout =? INFINITE_TIME then ~ stack_queued s2 t else is_Some (ks_timers s2 !! TmStack t)) as Htm.
  { pose proof (wt_timer _ _ _ _ _ Wt) as Htm. destruct (timeout =? INFINITE_TIME).
    - intros ?. by apply Htm, (rl_stack _ _ _ _ _ R2).
    - by rewrite (rl_timer _ _ _ _ _ R2). }
  destruct (rets_inv _ _ _ (block_rest_run t timeout s2 L2 Htm)) as (r & s3 & E3 & L3 & F3 & T3 & W3 & Eth & Hr).
  rewrite E3. cbn. apply Hf; [by apply frame_guar|]. split.
  - done.
  - eapply objs_same; [done|done| |done]. intros u. unfold block_ret. by rewrite Eth.
  - apply (rl_waits _ _ _ _ _ R2).
  - intros m. rewrite (objs_same_holds _ _ _ _ (fr_objs _ _ F3)). apply (rl_holds _ _ _ _ _ R2).
  - intros a. unfold kind_at. rewrite (fr_objs _ _ F3). apply (rl_kind _ _ _ _ _ R2).
  - unfold block_ret. by rewrite Eth.
Qed.

(** ** Inside the lock *)
(** The stretch of code of [t] that began in [s0] has come to [s], inside the
    lock and holding the mutexes [h]. *)
Record inside (h : gset Z) (s0 : kstate) (ω0 : waits) (s : kstate) (ω : waits) : Prop := {
  in_lk : in_lock ∅ None ∅ t s;
  in_gu : guar true t s0 ω0 s ω;
  in_ob : objs_ok ω s;
  in_nw : not_waiting t ω;
  in_ho : forall m, holds s m t <-> m ∈ h;
}.

Definition final (hr : Z -> gset Z) (s0 : kstate) (ω0 : waits) (r : Z) (s' : kstate) : Prop :=
  exists ω', guar true t s0 ω0 s' ω' /\ user t (hr r) ω' s'.

Lemma owp_enter {A} h hk ω s (f : bool -> K A) Q :
  user t h ω s ->
  (forall s1, inside h s ω s1 ω -> ks_objs s1 = ks_objs s -> owp true t hk s ω (f false s1) Q) ->
  owp true t hk s ω ((THREAD_LOCK ≫= f) s) Q.
Proof.
  intros [R O Hn Ev Hh] Hf. apply owp_lock; [done|]. intros saved s1 L Q1 _ Sv. assert (saved = false) as -> by congruence.
  pose proof (quiet_settles _ _ Q1) as S. pose proof (fr_objs _ _ (qu_frame _ _ Q1)) as Eo. apply Hf; [|done]. split; try done.
  - by apply settles_guar_any.
  - by eapply objs_settles.
  - intros m. rewrite (objs_same_holds _ _ _ _ Eo). apply Hh.
Qed.

(** The end of an operation: unlock and return. *)
Lemma owp_done hk (hr : Z -> gset Z) s0 ω0 s ω r :
  inside (hr r) s0 ω0 s ω -> hk ⊆ hr r ->
  owp true t hk s0 ω0 ((THREAD_UNLOCK false;; mret r) s) (final hr).
Proof.
  intros [L G O Hn Hh] Hsub. eapply owp_unlock; [done|exact G|done|done|intros m ?; by apply Hh, Hsub|].
  intros s' ω' R A O' Ev. by eapply user_after.
Qed.

(** Waiting on an object that is not a mutex. *)
Lemma owp_block_other h hk w timeout s0 ω0 s ω (Q : kstate -> waits -> Z -> kstate -> Prop) :
  inside h s0 ω0 s ω -> hk ⊆ h -> (forall m, w <> WqMutex m) -> has_queue s w ->
  (forall s1 ω1 s2 ω2 r, inside h s1 ω1 s2 ω2 -> (forall a, kind_at s2 a = kind_at s a) -> Q s1 ω1 r s2) ->
  owp true t hk s0 ω0 (wait_queue_block w timeout s) Q.
Proof using Hni.
  intros [L G O Hn Hh] Hsub Hw (q & Hq & Hm) Hf. eapply owp_block; [done|done|done|by apply (Hf s0 ω0 s ω)|].
  intros s' Wt. pose proof Wt as [F T _ _ _ _].
  assert (forall m, holds s' m t <-> m ∈ h) as Hh' by (intros m; rewrite (objs_same_holds _ _ _ _ (fr_objs _ _ F)); apply Hh).
  exists ω. split_and!.
  - eapply guar_trans; [done|by apply frame_guar].
  - by eapply waiting_objs.
  - intros m Hm'. by apply Hh', Hsub.
  - intros s2 ω2 s3 r G2 []. apply (Hf s2 ω2 s3 ω2 r).
    + split; [done..|intros m; rewrite ba_waits0; apply Hn|intros m; rewrite ba_holds0; apply Hh'].
    + intros a. rewrite ba_kind0. unfold kind_at. by rewrite (fr_objs _ _ F).
Qed.

(** Waking on an object that is not a mutex. *)
Lemma inside_settles h s0 ω0 s ω s' : inside h s0 ω0 s ω -> settles s s' -> in_lock ∅ None ∅ t s' -> inside h s0 ω0 s' ω.
Proof.
  intros [L G O Hn Hh] S L'. split; try done.
  - eapply guar_trans; [done|by apply settles_guar_any].
  - by eapply objs_settles.
  - intros m. rewrite (objs_same_holds _ _ _ _ (fr_objs _ _ (se_frame _ _ S))). apply Hh.
Qed.

Lemma settles_kind s s' a : settles s s' -> kind_at s' a = kind_at s a.
Proof. intros S. unfold kind_at. by rewrite (fr_objs _ _ (se_frame _ _ S)). Qed.

Lemma owp_resched_inside h hk s0 ω0 ω s1 s' new r (Q : kstate -> waits -> Z -> kstate -> Prop) :
  guar true t s0 ω0 s1 ω -> objs_ok ω s1 -> not_waiting t ω -> (forall m, holds s1 m t <-> m ∈ h) -> hk ⊆ h ->
  ~ stack_queued s1 t -> quiet s1 s' -> in_lock ∅ None {[new]} new s' ->
  (forall s2 ω2 s3 ω3 r, inside h s2 ω2 s3 ω3 -> (forall a, kind_at s3 a = kind_at s1 a) -> Q s2 ω2 r s3) ->
  owp true t hk s0 ω0 (obind (resched_outcome t new s') (fun _ => mret r)) Q.
Proof.
  intros G O Hn Hh Hsub Hns Q' L' Hf. pose proof (quiet_settles _ _ Q') as S.
  assert (forall m, holds s' m t <-> m ∈ h) as Hh'.
  { intros m. rewrite (objs_same_holds _ _ _ _ (fr_objs _ _ (se_frame _ _ S))). apply Hh. }
  eapply (owp_resched true t hk _ _ s' ω); [done|by rewrite (qu_stack _ _ Q')| |by eapply objs_settles|intros m ?; by apply Hh', Hsub|].
  { eapply guar_trans; [done|by apply settles_guar_any]. }
  intros s2 ω2 s3 ω3 G3 R3 L3 O3. cbn. apply (Hf s2 ω2 s3 ω3 r).
  - split; try done; [by eapply rely_not_waiting|]. intros m. rewrite (rl_holds _ _ _ _ _ R3). apply Hh'.
  - intros a. rewrite (rl_kind _ _ _ _ _ R3). by apply settles_kind.
Qed.

Lemma inside_no_timer h s0 ω0 s ω : inside h s0 ω0 s ω -> ~ stack_queued s t.
Proof.
  intros [L _ _ _ _]. destruct (in_lock_running _ _ _ _ L) as (th & Ht & Hs).
  eapply (kinv_running_no_timer _ _ t th s); [apply L|done|done].
Qed.

Lemma owp_wake_resched h hk s0 ω0 s ω s1 s' new r (Q : kstate -> waits -> Z -> kstate -> Prop) :
  inside h s0 ω0 s ω -> hk ⊆ h -> settles s s1 -> quiet s1 s' -> in_lock ∅ None {[new]} new s' ->
  (forall s1 ω1 s2 ω2 r, inside h s1 ω1 s2 ω2 -> (forall a, kind_at s2 a = kind_at s a) -> Q s1 ω1 r s2) ->
  owp true t hk s0 ω0 (obind (resched_outcome t new s') (fun _ => mret r)) Q.
Proof.
  intros I Hsub S1 Q' L' Hf. pose proof (inside_no_timer _ _ _ _ _ I) as Hns. destruct I as [L G O Hn Hh].
  eapply (owp_resched_inside h hk _ _ ω s1); [|by eapply objs_settles|done| |done| |done|done|].
  - eapply guar_trans; [done|by apply settles_guar_any].
  - intros m. rewrite (objs_same_holds _ _ _ _ (fr_objs _ _ (se_frame _ _ S1))). apply Hh.
  - intros Hq%(se_stack _ _ S1). done.
  - intros s2 ω2 s3 ω3 r' I3 Ek. apply (Hf s2 ω2 s3 ω3 r' I3). intros a. rewrite Ek. by apply settles_kind.
Qed.

Lemma owp_wake_one h hk w (reschedule : bool) err s0 ω0 s ω (Q : kstate -> waits -> Z -> kstate -> Prop) :
  inside h s0 ω0 s ω -> hk ⊆ h -> (forall m, w <> WqMutex m) -> has_queue s w ->
  (forall s1 ω1 s2 ω2 r, inside h s1 ω1 s2 ω2 -> (forall a, kind_at s2 a = kind_at s a) -> Q s1 ω1 r s2) ->
  owp true t hk s0 ω0 (wait_queue_wake_one w reschedule err s) Q.
Proof using Hni.
  intros I Hsub Hw (q & Hq & Hm) Hf. pose proof I as [L G O Hn Hh].
  destruct (in_lock_running _ _ _ _ L) as (th & Ht & _).
  pose proof (not_idle _ _ _ _ _ _ (il_inv _ _ _ _ _ L) Hni Ht) as Hi.
  destruct (wq_list q) as [|u rest] eqn:El.
  { rewrite (wake_one_empty t w q reschedule err s L Hq Hm El). cbn. by apply (Hf s0 ω0 s ω). }
  assert (forall s', woken [u] w (wq_pop rest q) err s s' -> settles s s') as Hset.
  { intros s' K. pose proof (ki_sched _ _ _ _ (il_inv _ _ _ _ _ L)) as W.
    destruct (sw_wq_count _ _ _ _ _ _ _ W w q Hq) as (Hnd & _ & _). rewrite El in Hnd. apply NoDup_cons in Hnd as [Hnu _].
    eapply (woken_settles ∅ None [u] w q (wq_pop rest q)); try done.
    - intros v. cbn. by rewrite El, elem_of_cons, list_elem_of_singleton.
    - intros v ->%list_elem_of_singleton. done.
    - intros m ->. by destruct (Hw m). }
  destruct reschedule.
  - destruct (wake_one_resched_run t th w q u rest err s L Ht Hi Hq Hm El) as (new & s1 & s' & K & Q' & L' & E).
    rewrite E. eapply owp_wake_resched; [done|done|by apply Hset|done..].
  - destruct (rets_inv _ _ _ (wake_one_run t w q u rest err s L Hq Hm El)) as (r & s' & E & -> & L' & K).
    rewrite E. cbn. apply (Hf s0 ω0 s' ω).
    + eapply inside_settles; [done|by apply Hset|done].
    + intros a. by apply settles_kind, Hset.
Qed.

Lemma owp_wake_all h hk w (reschedule : bool) err s0 ω0 s ω (Q : kstate -> waits -> Z -> kstate -> Prop) :
  inside h s0 ω0 s ω -> hk ⊆ h -> (forall m, w <> WqMutex m) -> has_queue s w ->
  (forall s1 ω1 s2 ω2 r, inside h s1 ω1 s2 ω2 -> (forall a, kind_at s2 a = kind_at s a) -> Q s1 ω1 r s2) ->
  owp true t hk s0 ω0 (wait_queue_wake_all w reschedule err s) Q.
Proof using Hni.
  intros I Hsub Hw (q & Hq & Hm) Hf. pose proof I as [L G O Hn Hh].
  destruct (in_lock_running _ _ _ _ L) as (th & Ht & _).
  pose proof (not_idle _ _ _ _ _ _ (il_inv _ _ _ _ _ L) Hni Ht) as Hi.
  assert (forall s', woken (wq_list q) w (wq_emptied q) err s s' -> settles s s') as Hset.
  { intros s' K. eapply (woken_settles ∅ None (wq_list q) w q (wq_emptied q)); try done.
    - apply L.
    - intros v. cbn. rewrite elem_of_nil. tauto.
    - intros v _. cbn. apply not_elem_of_nil.
    - intros m ->. by destruct (Hw m). }
  destruct (decide (wq_list q = [])) as [El|Hne].
  { rewrite (wake_all_empty t w q reschedule err s L Hq Hm El). cbn. by apply (Hf s0 ω0 s ω). }
  destruct reschedule.
  - destruct (wake_all_resched_run t th w q err s L Ht Hi Hq Hm Hne) as (new & s1 & s' & K & Q' & L' & E).
    rewrite E. eapply owp_wake_resched; [done|done|by apply Hset|done..].
  - destruct (rets_inv _ _ _ (wake_all_run ∅ None ∅ t w q err s L Hq Hm)) as (r & s' & E & _ & L' & K & _).
    rewrite E. cbn. apply (Hf s0 ω0 s' ω).
    + eapply inside_settles; [done|by apply Hset|done].
    + intros a. by apply settles_kind, Hset.
Qed.

Lemma inside_put_event h s0 ω0 s ω e ev ev' :
  inside h s0 ω0 s ω -> ks_objs s !! e = Some (KEvent ev) -> e_magic ev' = e_magic ev ->
  inside h s0 ω0 (put_obj e (KEvent ev') s) ω.
Proof.
  intros [L G O Hn Hh] He Hm. split; try done.
  - by apply (in_lock_ext _ _ _ _ s); [|..|apply L|].
  - eapply guar_trans; [done|]. by eapply put_obj_guar.
  - by eapply put_event_ok.
  - intros m. rewrite holds_put. rewrite <- Hh, (holds_at s e (KEvent ev) m t He). by destruct (decide (m = e)).
Qed.

Lemma inside_put_sem h s0 ω0 s ω a sem sem' :
  inside h s0 ω0 s ω -> ks_objs s !! a = Some (KSem sem) -> inside h s0 ω0 (put_obj a (KSem sem') s) ω.
Proof.
  intros [L G O Hn Hh] Ha. split; try done.
  - by apply (in_lock_ext _ _ _ _ s); [|..|apply L|].
  - eapply guar_trans; [done|]. by eapply put_obj_guar.
  - by eapply put_sem_ok.
  - intros m. rewrite holds_put. rewrite <- Hh, (holds_at s a (KSem sem) m t Ha). by destruct (decide (m = a)).
Qed.

(** ** event.c *)
(** An operation on an object, which is there at the call. *)
Definition op_safe_at (a : Z) (k : nat) (h hk : gset Z) (hr : Z -> gset Z) (m : K Z) : Prop :=
  forall ω s, user t h ω s -> kind_at s a = Some k -> owp true t hk s ω (m s) (final hr).

Lemma event_wait_timeout_safe h e timeout : op_safe_at e 1 h h (fun _ => h) (event_wait_timeout e timeout).
Proof using Hni.
  intros ω s U [ev He]%kind_event. destruct (ob_event _ _ (us_objs _ _ _ _ U) e ev He) as [Hm _].
  unfold event_wait_timeout. ostep. ostep. eapply owp_enter; [done|]. intros s1 I Eo. rewrite <- Eo in He. ostep.
  destruct (ob_event _ _ (in_ob _ _ _ _ _ I) e ev He) as [_ Hq].
  destruct (e_signaled ev).
  - destruct (has_flag (e_flags ev) EVENT_FLAG_AUTOUNSIGNAL); cbn [kwhen].
    + apply owp_seq. do 2 ostep. apply (owp_done h (fun _ => h) _ _ _ ω); [by apply (inside_put_event _ _ _ _ _ _ ev)|done].
    + apply owp_seq. do 2 ostep. by apply (owp_done h (fun _ => h) _ _ _ ω).
  - apply owp_seq. eapply owp_block_other; [done..|]. intros s2 ω2 s3 ω3 r I3 _. by apply (owp_done h (fun _ => h) _ _ _ ω3).
Qed.

Lemma event_signal_safe h e reschedule : op_safe_at e 1 h h (fun _ => h) (event_signal e reschedule).
Proof using Hni.
  intros ω s U [ev He]%kind_event. destruct (ob_event _ _ (us_objs _ _ _ _ U) e ev He) as [Hm _].
  unfold event_signal. ostep. ostep. eapply owp_enter; [done|]. intros s1 I Eo. rewrite <- Eo in He. ostep.
  destruct (ob_event _ _ (in_ob _ _ _ _ _ I) e ev He) as [_ Hq].
  destruct (e_signaled ev); cbn [negb].
  { apply owp_seq. ostep. by apply (owp_done h (fun _ => h) _ _ _ ω). }
  destruct (has_flag (e_flags ev) EVENT_FLAG_AUTOUNSIGNAL).
  - apply owp_seq, owp_seq. eapply owp_wake_one; [done..|]. intros s2 ω2 s3 ω3 r I3 Ek.
    assert (kind_at s3 e = Some 1%nat) as [ev3 He3]%kind_event by (rewrite Ek; unfold kind_at; by rewrite He).
    destruct (r <=? 0); cbn [kwhen].
    + apply owp_step. eapply rets_mod_event; [done|]. ostep. apply (owp_done h (fun _ => h) _ _ _ ω3); [by apply (inside_put_event _ _ _ _ _ _ ev3)|done].
    + do 2 ostep. by apply (owp_done h (fun _ => h) _ _ _ ω3).
  - apply owp_seq. apply owp_step. eapply rets_mod_event; [done|]. kcbn.
    eapply owp_wake_all; [by apply (inside_put_event _ _ _ _ _ _ ev)|done..|].
    intros s2 ω2 s3 ω3 r I3 _. by apply (owp_done h (fun _ => h) _ _ _ ω3).
Qed.

Lemma event_unsignal_safe h e : op_safe_at e 1 h h (fun _ => h) (event_unsignal e).
Proof.
  intros ω s U [ev He]%kind_event. pose proof U as [[I Hl Hc] O Hn Ev Hh].
  destruct (ob_event _ _ O e ev He) as [Hm _]. unfold event_unsignal. do 4 ostep.
  exists ω. split; [by eapply put_obj_guar|]. split; try done.
  - split; try done. by apply (kinv_ext _ _ _ s).
  - by eapply put_event_ok.
  - intros m. rewrite holds_put. rewrite <- Hh, (holds_at s e (KEvent ev) m t He). by destruct (decide (m = e)).
Qed.

(** ** semaphore.c *)
Lemma sem_post_safe h a resched : op_safe_at a 2 h h (fun _ => h) (sem_post a resched).
Proof using Hni.
  intros ω s U [sem Ha]%kind_sem. unfold sem_post. eapply owp_enter; [done|]. intros s1 I Eo. rewrite <- Eo in Ha.
  do 2 ostep. set (sem' := set_sem_count (sem_count sem + 1) sem).
  pose proof (inside_put_sem h s ω s1 ω a sem sem' I Ha) as I'. apply owp_seq. destruct (_ <=? 0).
  - eapply owp_wake_one; [done|done|done|apply (ob_sem _ _ (in_ob _ _ _ _ _ I') a sem'), lookup_insert_eq|].
    intros s2 ω2 s3 ω3 r I3 _. by apply (owp_done h (fun _ => h) _ _ _ ω3).
  - ostep. by apply (owp_done h (fun _ => h) _ _ _ ω).
Qed.

Lemma sem_wait_safe h a : op_safe_at a 2 h h (fun _ => h) (sem_wait a).
Proof using Hni.
  intros ω s U [sem Ha]%kind_sem. unfold sem_wait. eapply owp_enter; [done|]. intros s1 I Eo. rewrite <- Eo in Ha.
  do 2 ostep. set (sem' := set_sem_count (sem_count sem - 1) sem).
  pose proof (inside_put_sem h s ω s1 ω a sem sem' I Ha) as I'. apply owp_seq. destruct (_ <? 0).
  - eapply owp_block_other; [done|done|done|apply (ob_sem _ _ (in_ob _ _ _ _ _ I') a sem'), lookup_insert_eq|].
    intros s2 ω2 s3 ω3 r I3 _. by apply (owp_done h (fun _ => h) _ _ _ ω3).
  - ostep. by apply (owp_done h (fun _ => h) _ _ _ ω).
Qed.

Lemma sem_trywait_safe h a : op_safe_at a 2 h h (fun _ => h) (sem_trywait a).
Proof.
  intros ω s U [sem Ha]%kind_sem. unfold sem_trywait. eapply owp_enter; [done|]. intros s1 I Eo. rewrite <- Eo in Ha.
  ostep. apply owp_seq. destruct (_ <=? 0).
  - ostep. by apply (owp_done h (fun _ => h) _ _ _ ω).
  - do 2 ostep. apply (owp_done h (fun _ => h) _ _ _ ω); [by eapply inside_put_sem|done].
Qed.

Lemma sem_timedwait_safe h a timeout : op_safe_at a 2 h h (fun _ => h) (sem_timedwait a timeout).
Proof using Hni.
  intros ω s U [sem Ha]%kind_sem. unfold sem_timedwait. eapply owp_enter; [done|]. intros s1 I Eo. rewrite <- Eo in Ha.
  do 2 ostep. set (sem' := set_sem_count (sem_count sem - 1) sem).
  pose proof (inside_put_sem h s ω s1 ω a sem sem' I Ha) as I'. apply owp_seq. destruct (_ <? 0).
  - apply owp_seq. eapply owp_block_other; [done|done|done|apply (ob_sem _ _ (in_ob _ _ _ _ _ I') a sem'), lookup_insert_eq|].
    intros s2 ω2 s3 ω3 r I3 Ek.
    assert (kind_at s3 a = Some 2%nat) as [sem3 Ha3]%kind_sem by (rewrite Ek; unfold kind_at; kcbn; by rewrite lookup_insert_eq).
    destruct (r <? NO_ERROR), (r =? ERR_TIMED_OUT); cbn [kwhen].
    2-4: do 2 ostep; by apply (owp_done h (fun _ => h) _ _ _ ω3).
    do 2 ostep. apply (owp_done h (fun _ => h) _ _ _ ω3); [by eapply inside_put_sem|done].
  - ostep. by apply (owp_done h (fun _ => h) _ _ _ ω).
Qed.

(** ** mutex.c *)
Lemma guar_waits s ω s' ω' ω'' :
  guar true t s ω s' ω' -> (forall u m, u <> t -> u ∈ ω'' m <-> u ∈ ω' m) -> guar true t s ω s' ω''.
Proof.
  intros [Gr ? ? ?] Hw. split; try done. intros u [Hu|?]; [|done]. destruct (Gr u (or_introl Hu)). split; try done.
  intros m. rewrite Hw by done. auto.
Qed.

Lemma woken_guar us w q' err ω s s' : woken us w q' err s s' -> guar true t s ω s' ω.
Proof.
  intros [F _ _ Es Et]. apply frame_guar; [done|]. split; [intros u _; apply Et|intros u _; apply Es].
Qed.

Lemma put_obj_lock X Ho Y a o s : in_lock X Ho Y t s -> in_lock X Ho Y t (put_obj a o s).
Proof. intros L. by apply (in_lock_ext _ _ _ _ s); [|..|apply L|]. Qed.

Lemma put_obj_twice a o o' s : put_obj a o (put_obj a o' s) = put_obj a o s.
Proof. unfold put_obj. kcbn. by rewrite insert_insert_eq. Qed.
Lemma put_obj_id a o s : ks_objs s !! a = Some o -> put_obj a o s = s.
Proof. intros Ha. unfold put_obj. rewrite insert_id by done. by destruct s. Qed.

(** Giving the mutex at [m] the holder [o], which is [t] or nobody. *)
Lemma holds_put_mutex (h : gset Z) m mx o s :
  (forall m', holds s m' t <-> m' ∈ h) -> m_holder mx = o -> o = None \/ o = Some t ->
  forall m', holds (put_obj m (KMutex mx) s) m' t <-> m' ∈ (if o then {[m]} ∪ h else h ∖ {[m]} : gset Z).
Proof.
  clear Hni. intros Hh Ho Hc m'. rewrite holds_put. destruct (decide (m' = m)) as [->|].
  - destruct Hc as [->| ->]; rewrite Ho; set_solver.
  - rewrite Hh. destruct Hc as [->| ->]; set_solver.
Qed.

Lemma mutex_release_safe h m : m ∈ h ->
  op_safe_at m 0 h (h ∖ {[m]}) (fun _ => h ∖ {[m]}) (mutex_release m).
Proof using Hni.
  intros Hmh ω s U [mx Hm]%kind_mutex. destruct (user_thread _ _ _ U) as (th & pc & Ht & Hi & _ & Hpc & Et & _).
  pose proof (us_holds _ _ _ _ U m) as Hhm. destruct (proj2 Hhm Hmh) as (mx' & ? & Hh). simplify_eq.
  destruct (ob_mutex _ _ (us_objs _ _ _ _ U) m mx Hm) as (q & _ & M). pose proof (mo_magic _ _ _ _ _ M) as Hmag.
  unfold mutex_release. do 3 ostep. rewrite Et.
  rewrite bool_decide_true by done. cbn [negb].
  assert (kwhen (0 <? LK_DEBUGLEVEL) kdone = kdone) as -> by (by destruct (0 <? LK_DEBUGLEVEL)). ostep.
  eapply owp_enter; [done|]. intros s1 I Eo. rewrite <- Eo in Hm. do 3 ostep. rewrite put_obj_twice. fold (released mx).
  set (s2 := put_obj m (KMutex (released mx)) s1).
  destruct (ob_mutex _ _ (in_ob _ _ _ _ _ I) m mx Hm) as (q1 & Hq1 & M1).
  destruct (release_objs t m ω mx q1 s1 (in_ob _ _ _ _ _ I) Hm Hh Hq1) as [O2 Hg].
  assert (inside (h ∖ {[m]}) s ω s2 ω) as I2.
  { destruct I as [L G O Hn Hho]. split; [by apply put_obj_lock| |done|done|].
    - eapply guar_trans; [done|]. eapply put_obj_guar; [done|done|]. intros u [Hu|?]; [|done]. cbn. rewrite Hh. split; [congruence|done].
    - by apply (holds_put_mutex h m (released mx) None); [|done|left]. }
  destruct (1 <=? _); cbn [kwhen]; [|ostep; by apply (owp_done (h ∖ {[m]}) (fun _ => h ∖ {[m]}) _ _ _ ω)].
  apply owp_seq, owp_seq. destruct (in_lock_running _ _ _ _ (in_lk _ _ _ _ _ I2)) as (th2 & Ht2 & _).
  pose proof (not_idle _ _ _ _ _ _ (il_inv _ _ _ _ _ (in_lk _ _ _ _ _ I2)) Hni Ht2) as Hi2.
  assert (forall s3 ω3 s4 ω4 (r : Z), inside (h ∖ {[m]}) s3 ω3 s4 ω4 ->
    owp true t (h ∖ {[m]}) s3 ω3 (kdone s4) (fun s5 ω5 _ s6 =>
      owp true t (h ∖ {[m]}) s5 ω5 ((THREAD_UNLOCK false;; mret NO_ERROR) s6) (final (fun _ => h ∖ {[m]})))) as Hend.
  { intros s3 ω3 s4 ω4 _ I4. cbn -[THREAD_UNLOCK]. by apply (owp_done (h ∖ {[m]}) (fun _ => h ∖ {[m]}) _ _ _ ω4). }
  destruct (wq_list q1) as [|u rest] eqn:El.
  { rewrite (wake_one_empty t (WqMutex m) q1 true NO_ERROR s2 (in_lk _ _ _ _ _ I2) Hq1 (mo_wq_magic _ _ _ _ _ M1) El).
    cbn -[THREAD_UNLOCK]. by apply (owp_done (h ∖ {[m]}) (fun _ => h ∖ {[m]}) _ _ _ ω). }
  destruct (wake_one_resched_run t th2 (WqMutex m) q1 u rest NO_ERROR s2 (in_lk _ _ _ _ _ I2) Ht2 Hi2 Hq1
    (mo_wq_magic _ _ _ _ _ M1) El) as (new & s3 & s4 & K & Q' & L' & E).
  rewrite E. pose proof (inside_no_timer _ _ _ _ _ I2) as Hns. destruct I2 as [L2 G2 _ Hn2 Hh2].
  eapply (owp_resched_inside (h ∖ {[m]}) (h ∖ {[m]}) _ _ ω s3); [| |done| |done| |done|done|].
  - eapply guar_trans; [exact G2|by eapply woken_guar].
  - eapply wake_mutex_objs; [exact O2|apply L2|apply lookup_insert_eq|done|exact Hq1|done|exact Hg|exact K].
  - intros m'. rewrite (objs_same_holds _ _ _ _ (fr_objs _ _ (wk_frame _ _ _ _ _ _ K))). apply Hh2.
  - by rewrite (wk_stack _ _ _ _ _ _ K).
  - intros s5 ω5 s6 ω6 r I6 _. by apply (Hend s5 ω5 s6 ω6 r).
Qed.

(** The end of [mutex_acquire_timeout]: by what the wait returned. *)
Definition acquire_end (m : Z) (saved : bool) (ret : Z) : K Z :=
  (if ret <? NO_ERROR then
     kwhen (ret =? ERR_TIMED_OUT) (mod_mutex m (fun mx => set_m_count (m_count mx - 1) mx))
   else mod_mutex m (set_m_holder (Some t)));;
  THREAD_UNLOCK saved;;
  mret ret.

Definition acquired (h : gset Z) (m r : Z) : gset Z := if r =? NO_ERROR then {[m]} ∪ h else h.

Lemma acquired_sub h m r : h ⊆ acquired h m r.
Proof. clear Hni. unfold acquired. destruct (r =? NO_ERROR); set_solver. Qed.

(** The mutex was free. *)
Lemma acquire_free h m mx s0 ω0 s ω :
  inside h s0 ω0 s ω -> ks_objs s !! m = Some (KMutex mx) -> m_count mx <= 0 ->
  owp true t h s0 ω0 (acquire_end m false NO_ERROR (put_obj m (KMutex (set_m_count (m_count mx + 1) mx)) s)) (final (acquired h m)).
Proof.
  intros [L G O Hn Hh] Hm Hc. destruct (acquire_objs t m ω mx s O Hm Hc) as [Hho O2]. unfold acquire_end.
  change (NO_ERROR <? NO_ERROR) with false. ostep. rewrite put_obj_twice. eapply (owp_done h (acquired h m) _ _ _ ω NO_ERROR); [|apply acquired_sub].
  split; [by apply put_obj_lock| |done|done|].
  - eapply guar_trans; [done|]. eapply put_obj_guar; [done|done|]. intros u [Hu|?]; [|done]. cbn. rewrite Hho. split; [done|congruence].
  - by apply (holds_put_mutex h m _ (Some t)); [|done|right].
Qed.

(** It was not, and the thread would not wait. *)
Lemma acquire_at_once h m mx s0 ω0 s ω :
  inside h s0 ω0 s ω -> ks_objs s !! m = Some (KMutex mx) ->
  owp true t h s0 ω0 (acquire_end m false ERR_TIMED_OUT (put_obj m (KMutex (set_m_count (m_count mx + 1) mx)) s)) (final (acquired h m)).
Proof.
  intros I Hm. unfold acquire_end. change (ERR_TIMED_OUT <? NO_ERROR) with true. change (ERR_TIMED_OUT =? ERR_TIMED_OUT) with true.
  cbn [kwhen]. ostep. rewrite put_obj_twice.
  replace (set_m_count _ (set_m_count _ mx)) with mx by (destruct mx; unfold set_m_count; cbn; f_equal; lia).
  rewrite put_obj_id by done. by apply (owp_done h (acquired h m) _ _ _ ω ERR_TIMED_OUT).
Qed.

(** It was waited for. *)
Lemma acquire_resumed h m s ω s2 s3 ω2 r :
  (forall m', t ∈ ω m' <-> m' = m) -> (forall m', holds s m' t <-> m' ∈ h) ->
  guar true t s2 ω2 s3 ω2 -> back s ω s3 ω2 r ->
  owp true t h s2 ω2 (acquire_end m false r s3) (final (acquired h m)).
Proof.
  intros Hw Hh G [L O Ew Eh _ Er]. assert (t ∈ ω2 m) as Ht by (by apply Ew, Hw).
  destruct (resume_objs t m ω2 s3 r O Ht (running_off_queues _ _ _ _ L) Er) as (mx & Hm & Hcase).
  assert (forall m', holds s3 m' t <-> m' ∈ h) as Hh3 by (intros m'; rewrite Eh; apply Hh).
  set (ω3 := set_waits m (ω2 m ∖ {[t]}) ω2) in *.
  assert (not_waiting t ω3) as Hn3.
  { intros m'. unfold ω3, set_waits. destruct (decide (m' = m)) as [->|Hne]; [rewrite elem_of_difference, elem_of_singleton; tauto|].
    rewrite Ew, Hw. done. }
  assert (forall u m', u <> t -> u ∈ ω3 m' <-> u ∈ ω2 m') as Hoth.
  { intros u m' Hu. unfold ω3, set_waits. destruct (decide (m' = m)) as [->|]; [|done].
    rewrite elem_of_difference, elem_of_singleton. tauto. }
  unfold acquire_end. destruct Hcase as [[-> O3]|(-> & Hho & O3)].
  - change (ERR_TIMED_OUT <? NO_ERROR) with true. change (ERR_TIMED_OUT =? ERR_TIMED_OUT) with true. cbn [kwhen]. ostep.
    eapply (owp_done h (acquired h m) _ _ _ ω3 ERR_TIMED_OUT); [|apply acquired_sub].
    split; [by apply put_obj_lock| |done|done|].
    + apply (guar_waits _ _ _ ω2); [|done]. eapply guar_trans; [done|]. by eapply put_obj_guar.
    + intros m'. rewrite holds_put. rewrite <- (Hh3 m'), (holds_at s3 m (KMutex mx) m' t Hm). by destruct (decide (m' = m)).
  - change (NO_ERROR <? NO_ERROR) with false. ostep. eapply (owp_done h (acquired h m) _ _ _ ω3 NO_ERROR); [|apply acquired_sub].
    split; [by apply put_obj_lock| |done|done|].
    + apply (guar_waits _ _ _ ω2); [|done]. eapply guar_trans; [done|]. eapply put_obj_guar; [done|done|].
      intros u [Hu|?]; [|done]. cbn. rewrite Hho. split; [done|congruence].
    + by apply (holds_put_mutex h m _ (Some t)); [|done|right].
Qed.

Lemma mutex_acquire_timeout_safe ready h m timeout : m ∉ h ->
  op_safe_at m 0 h h (acquired h m) (mutex_acquire_timeout ready m timeout).
Proof using Hni.
  intros Hmh ω s U [mx Hm]%kind_mutex. destruct (user_thread _ _ _ U) as (th & pc & Ht & Hi & _ & Hpc & Et & Hpi).
  destruct (ob_mutex _ _ (us_objs _ _ _ _ U) m mx Hm) as (q & _ & M). pose proof (mo_magic _ _ _ _ _ M) as Hmag.
  unfold mutex_acquire_timeout. do 3 ostep. rewrite Et.
  rewrite bool_decide_false by (intros Hh; apply Hmh, (us_holds _ _ _ _ U); by exists mx).
  assert (kwhen (0 <? LK_DEBUGLEVEL) kdone = kdone) as -> by (by destruct (0 <? LK_DEBUGLEVEL)). ostep.
  ostep. apply owp_step, rets_assert; [rewrite Hpi; by destruct ready, (timeout =? 0)|].
  eapply owp_enter; [done|]. intros s1 I Eo. rewrite <- Eo in Hm. do 2 ostep.
  set (mx' := set_m_count (m_count mx + 1) mx).
  destruct (ob_mutex _ _ (in_ob _ _ _ _ _ I) m mx Hm) as (q1 & Hq1 & M1). apply owp_seq.
  destruct (Z.ltb_spec 1 (m_count mx + 1)) as [Hlt|Hle].
  - eapply (owp_block h _ _ (WqMutex m) q1 timeout); [by apply put_obj_lock, (in_lk _ _ _ _ _ I)|done|apply M1| |].
    + by apply (acquire_at_once h m mx s ω s1 ω).
    + intros s' Wt. pose proof Wt as [F T _ _ _ _]. destruct I as [L G O Hn Hh].
      assert (forall m', holds s' m' t <-> m' ∈ h) as Hh'.
      { intros m'. rewrite (objs_same_holds _ _ _ _ (fr_objs _ _ F)), holds_put. rewrite <- (Hh m'), (holds_at s1 m (KMutex mx) m' t Hm).
        by destruct (decide (m' = m)). }
      exists (set_waits m ({[t]} ∪ ω m) ω). split_and!.
      * apply (guar_waits _ _ _ ω).
        -- eapply guar_trans; [done|]. eapply guar_trans; [by eapply (put_obj_guar s1 m true t ω (KMutex mx) (KMutex mx'))|by apply frame_guar].
        -- intros u m' Hu. unfold set_waits. destruct (decide (m' = m)) as [->|]; [|done]. rewrite elem_of_union, elem_of_singleton. tauto.
      * eapply waiting_mutex; [done|done|by eapply running_off_queues|done|exact Wt].
      * intros m' Hm'. by apply Hh'.
      * intros s2 ω2 s3 r G2 B. eapply (acquire_resumed h m s' (set_waits m ({[t]} ∪ ω m) ω)); [|done|done|done].
        intros m'. unfold set_waits. destruct (decide (m' = m)) as [->|]; [rewrite elem_of_union, elem_of_singleton; tauto|].
        split; [|done]. intros Hin. by destruct (Hn m').
  - ostep. apply (acquire_free h m mx s ω s1 ω); [done|done|lia].
Qed.
End ops.
