(* ===== verification/System.v ===== *)
(** * The running system

    Threads call the operations of the kernel one after the other, on any number
    of cpus; timer and reschedule interrupts arrive wherever a cpu has them
    enabled; operations interleave at the points where they release the lock or
    give up the cpu.  Every reachable state of this system satisfies the kernel's
    invariant, no operation ever faults or fails an assertion, and no two
    threads are inside the same mutex.

    Between taking a timer off its queue and calling it back, the tick of one
    cpu runs without steps of the other cpus; with one cpu that is no
    restriction, since its interrupts are off. *)
From S2P Require Import Prelude KState Timer Thread WaitQueue ThreadLife Logic SchedInv TimerInv SchedSpec SchedOps WaitOps Mutex Event Semaphore TimerTick TickOps Rely SyncInv SyncOps.

(** ** What threads call *)
Inductive call :=
  | CallYield | CallSleep (delay : Z) | CallSetPriority (priority : Z)
  | CallMutexAcquire (m timeout : Z) | CallMutexRelease (m : Z)
  | CallEventWait (e timeout : Z) | CallEventSignal (e : Z) (reschedule : bool) | CallEventUnsignal (e : Z)
  | CallSemPost (a : Z) (resched : bool) | CallSemWait (a : Z) | CallSemTrywait (a : Z)
  | CallSemTimedwait (a timeout : Z)
  | CallNone.   (* a new thread, or an interrupt of a thread in its own code *)

(** The mutexes a thread holds, as it knows from its calls: those it acquired
    with success and has not begun to release. *)
Definition held_during (c : call) (h : gset Z) : gset Z :=
  match c with CallMutexRelease m => h ∖ {[m]} | _ => h end.
Definition held_after (c : call) (h : gset Z) (r : Z) : gset Z :=
  match c with
  | CallMutexAcquire m _ => if r =? NO_ERROR then {[m]} ∪ h else h
  | CallMutexRelease m => h ∖ {[m]}
  | _ => h
  end.

(** A mutex is not acquired twice and released by its holder; objects exist. *)
Definition allowed (c : call) (h : gset Z) (s : kstate) : Prop :=
  match c with
  | CallYield | CallSleep _ | CallSetPriority _ => True
  | CallMutexAcquire m _ => m ∉ h /\ kind_at s m = Some 0%nat
  | CallMutexRelease m => m ∈ h
  | CallEventWait e _ | CallEventSignal e _ | CallEventUnsignal e => kind_at s e = Some 1%nat
  | CallSemPost a _ | CallSemWait a | CallSemTrywait a | CallSemTimedwait a _ => kind_at s a = Some 2%nat
  | CallNone => False
  end.

Section system.
Context `{KConfig} (mutex_threading_ready : bool) (other_callback : Z -> Z -> K handler_return).

Definition run_call (c : call) : K Z :=
  match c with
  | CallYield => thread_yield;; mret NO_ERROR
  | CallSleep delay => thread_sleep delay;; mret NO_ERROR
  | CallSetPriority priority => thread_set_priority priority;; mret NO_ERROR
  | CallMutexAcquire m timeout => mutex_acquire_timeout mutex_threading_ready m timeout
  | CallMutexRelease m => mutex_release m
  | CallEventWait e timeout => event_wait_timeout e timeout
  | CallEventSignal e reschedule => event_signal e reschedule
  | CallEventUnsignal e => event_unsignal e
  | CallSemPost a resched => sem_post a resched
  | CallSemWait a => sem_wait a
  | CallSemTrywait a => sem_trywait a
  | CallSemTimedwait a timeout => sem_timedwait a timeout
  | CallNone => mret NO_ERROR
  end.

(** The way into and out of an interrupt handler, as [x86_exception_handler]
    has it for the vectors of the platform: interrupts are off, the interrupt is
    counted, and on the way out the thread is preempted when
    the handler asks for it. *)
Definition interrupt (handler : K handler_return) : K unit :=
  mod_cpu (set_pc_ints_disabled true);;
  THREAD_STATS_INC (fun st => set_st_interrupts (u64 (st_interrupts st + 1)) st);;
  r ← atomically handler;
  kwhen (negb (bool_decide (r = INT_NO_RESCHEDULE))) thread_preempt;;
  mod_cpu (set_pc_ints_disabled false).

Inductive irq := IrqTimer (fuel : nat) | IrqReschedule.
Definition irq_handler (i : irq) : K handler_return :=
  match i with
  | IrqTimer fuel => s ← kget; timer_tick other_callback fuel (ks_now s)
  | IrqReschedule => mp_mbx_reschedule_irq
  end.
(** Enough fuel for the loop of the tick; no timer exactly half the range of the
    clock away, which would fail an assertion. *)
Definition irq_ok (i : irq) (s : kstate) : Prop :=
  match i with
  | IrqTimer fuel => (length (own_queue s) + 2 <= fuel)%nat /\ no_antipode (ks_now s) s
  | IrqReschedule => True
  end.

(** ** Its steps *)
Inductive status :=
  | InUser (h : gset Z)                          (* in its own code *)
  | Running (c : call) (h : gset Z) (k : K Z)    (* on a cpu, in the kernel, without the lock *)
  | Parked (c : call) (h : gset Z) (k : K Z).    (* on no cpu *)

Inductive sys :=
  | Sys (s : kstate) (T : gmap tid status) (next : option tid)   (* [next]: switching to this thread *)
  | Crashed (f : fault).

(** After a stretch of code of thread [t]. *)
Definition settle (t : tid) (c : call) (h : gset Z) (o : outcome Z) (T : gmap tid status) : sys :=
  match o with
  | Ret r s => Sys s (<[t := InUser (held_after c h r)]> T) None
  | Unlocked s k => Sys s (<[t := Running c h k]> T) None
  | Switch _ new s k => Sys s (<[t := Parked c h k]> T) (Some new)
  | Fault f => Crashed f
  end.

Inductive sys_step : sys -> sys -> Prop :=
  | step_call s T cpu t c h :
      currents s !! cpu = Some t -> T !! t = Some (InUser h) -> 0 <= t (* not an idle thread *) -> allowed c h s ->
      sys_step (Sys s T None) (settle t c h (run_call c (set_ks_cpu cpu s)) T)
  | step_resume s T cpu t c h k :
      currents s !! cpu = Some t -> T !! t = Some (Running c h k) ->
      sys_step (Sys s T None) (settle t c h (k (set_ks_cpu cpu s)) T)
  | step_switch s T t c h k :
      T !! t = Some (Parked c h k) ->
      sys_step (Sys s T (Some t)) (settle t c h (k s) T)
  | step_irq_user s T cpu t h i :
      cpu_view s cpu = Some (t, false) -> T !! t = Some (InUser h) -> irq_ok i (set_ks_cpu cpu s) ->
      sys_step (Sys s T None) (settle t CallNone h ((interrupt (irq_handler i);; mret NO_ERROR) (set_ks_cpu cpu s)) T)
  | step_irq_kernel s T cpu t c h k i :
      cpu_view s cpu = Some (t, false) -> T !! t = Some (Running c h k) -> irq_ok i (set_ks_cpu cpu s) ->
      sys_step (Sys s T None) (settle t c h ((interrupt (irq_handler i);; k) (set_ks_cpu cpu s)) T)
  | step_time s T now :
      sys_step (Sys s T None) (Sys (set_ks_now now s) T None).

(** ** Where it starts *)
(** Threads on a cpu are in their own code and the others have not run yet; the
    lock is free, no mutex is held and nobody waits. *)
Record initial (s : kstate) (T : gmap tid status) : Prop := {
  ini_kinv : kinv ∅ None ∅ s;
  ini_lock : ks_thread_lock s = false;
  ini_objs : objs_ok (fun _ => ∅) s;
  ini_free : forall m t, ~ holds s m t;
  ini_timers : forall t, ~ stack_queued s t;
  ini_all : forall t, is_Some (ks_threads s !! t) -> is_Some (T !! t);
  ini_status : forall t st, T !! t = Some st ->
    (exists cpu, cpu_view s cpu = Some (t, false)) /\ st = InUser ∅ \/
    (forall cpu, currents s !! cpu <> Some t) /\ st = Parked CallNone ∅ (initial_thread_start;; mret NO_ERROR);
}.

Inductive reachable : sys -> Prop :=
  | reach_init s T : initial s T -> reachable (Sys s T None)
  | reach_step x y : reachable x -> sys_step x y -> reachable y.
End system.
