(* ===== verification/SystemSafe.v ===== *)
(** * The running system is safe

    The invariant of the system of System, that every step keeps it, and what
    follows: no reachable state has crashed, and no two threads are inside the
    same mutex. *)
From S2P Require Import Prelude KState Timer Thread WaitQueue ThreadLife Logic SchedInv TimerInv SchedSpec SchedOps WaitOps Mutex Event Semaphore TimerTick TickOps Rely SyncInv SyncOps System.

(** ** The cpu and the clock do not matter to threads *)
Lemma objs_set_cpu ω c s : objs_ok ω s -> objs_ok ω (set_ks_cpu c s).
Proof. intros []. by split. Qed.
Lemma objs_set_now ω n s : objs_ok ω s -> objs_ok ω (set_ks_now n s).
Proof. intros []. by split. Qed.
Lemma rely_set_cpu t ω c s : rely t s ω (set_ks_cpu c s) ω.
Proof. by split. Qed.
Lemma rely_set_now t ω n s : rely t s ω (set_ks_now n s) ω.
Proof. by split. Qed.

Lemma rest_set_cpu c t s : kinv ∅ None ∅ s -> ks_thread_lock s = false -> currents s !! c = Some t -> at_rest t (set_ks_cpu c s).
Proof. intros I Hl Hc. split; [by apply (kinv_ext _ _ _ s)|done|done]. Qed.

Lemma view_current s c t b : cpu_view s c = Some (t, b) -> currents s !! c = Some t.
Proof.
  unfold cpu_view, currents. rewrite lookup_fmap. intros (pc & -> & [= -> _])%fmap_Some. done.
Qed.
Lemma current_view s c t : currents s !! c = Some t -> exists b, cpu_view s c = Some (t, b).
Proof. unfold cpu_view, currents. intros (pc & <- & ->)%lookup_fmap_Some. by eexists. Qed.

(** A thread runs on one cpu only. *)
Lemma one_cpu X Y s c c' t : kinv X None Y s -> currents s !! c = Some t -> currents s !! c' = Some t -> c = c'.
Proof.
  intros [W _ _ _] Hc Hc'. destruct (sw_cur _ _ _ _ _ _ _ W c t Hc) as (_ & th & ? & _ & ?); [done|].
  destruct (sw_cur _ _ _ _ _ _ _ W c' t Hc') as (_ & ? & ? & _ & ?); [done|]. congruence.
Qed.

(** ** Sequencing over an interrupt *)
Lemma owp_start {A} t hk s0 ω0 s1 ω1 (o : outcome A) (Q : kstate -> waits -> A -> kstate -> Prop) :
  guar true t s0 ω0 s1 ω1 -> (forall a s, Q s1 ω1 a s -> Q s0 ω0 a s) ->
  owp true t hk s1 ω1 o Q -> owp true t hk s0 ω0 o Q.
Proof.
  intros G HQ. destruct o; simpl; try done; [by auto|..].
  - intros (ω & G' & ?). exists ω. split; [by eapply guar_trans|done].
  - intros (ω & G' & ?). exists ω. split; [by eapply guar_trans|done].
Qed.

Lemma final_start t hr s0 ω0 s1 ω1 r s :
  guar true t s0 ω0 s1 ω1 -> final t hr s1 ω1 r s -> final t hr s0 ω0 r s.
Proof. intros G (ω & G' & U). exists ω. split; [by eapply guar_trans|done]. Qed.

(** Code that leaves alone what its own thread relies on. *)
Lemma owp_rely {A} t hk s00 ω00 s0 ω0 (o : outcome A) Q :
  rely t s00 ω00 s0 ω0 -> owp false t hk s0 ω0 o Q ->
  owp true t hk s0 ω0 o (fun s1 ω1 a s => Q s1 ω1 a s /\ rely t s00 ω00 s1 ω1).
Proof.
  revert s0 ω0. induction o as [a s|old new s k IH|s k IH|f]; intros s0 ω0 R; simpl; try done.
  - intros (ω & G & Ho & Hne & L & O & Hk & Hf). exists ω. split_and!; try done; [by apply guar_self|].
    intros s' ω' R' L' O'. apply IH; [|auto]. eapply rely_trans; [exact R|].
    eapply rely_trans; [apply (gu_rely _ _ _ _ _ _ G); by right|done].
  - intros (ω & G & A0 & O & Hn & Hk & Hf). exists ω. split_and!; try done; [by apply guar_self|].
    intros s' ω' R' A' O' Ev. apply IH; [|auto]. eapply rely_trans; [exact R|].
    eapply rely_trans; [apply (gu_rely _ _ _ _ _ _ G); by right|done].
Qed.

Section interrupts.
Context `{KConfig} (other_callback : Z -> Z -> K handler_return).

Definition irq_safe (t : tid) (handler : K handler_return) (s : kstate) : Prop :=
  at_irq t s -> rets (atomically handler) s (fun _ s' => at_irq t s' /\ settles s s').

Lemma irq_handler_safe t i s : no_driver_timers s -> irq_ok i s -> irq_safe t (irq_handler other_callback i) s.
Proof.
  intros Hd Hok A. destruct i as [fuel|]; cbn [irq_handler].
  - destruct Hok as [Hf Hna]. astep. eapply rets_mono; [by apply timer_tick_run|]. naive_solver.
  - apply arets_rets. destruct (at_irq_pc _ _ A) as (pc & Hpc & Et & Hpi). unfold mp_mbx_reschedule_irq.
    ksteps. split; [by apply at_irq_stats|]. apply quiet_settles. by eapply put_cpu_quiet.
Qed.

(** What an interrupt leaves. *)
Definition irq_done (t : tid) (s0 : kstate) (ω0 : waits) (_ : unit) (s : kstate) : Prop :=
  exists ω, guar false t s0 ω0 s ω /\ at_rest t s /\ objs_ok ω s /\ not_waiting t ω /\
    cpu_view s (ks_cpu s) = Some (t, false).

Lemma interrupt_end t hk s0 ω0 s ω b :
  guar false t s0 ω0 s ω -> at_rest t s -> objs_ok ω s -> not_waiting t ω -> cpu_view s (ks_cpu s) = Some (t, b) ->
  owp false t hk s0 ω0 (mod_cpu (set_pc_ints_disabled false) s) (irq_done t).
Proof.
  intros G A O Hn Hv. destruct (current_pc _ _ (ar_cur _ _ A)) as (pc & Hpc & Et).
  destruct (put_cpu_rest t pc (set_pc_ints_disabled false pc) s) as [A' Hv']; [done..|].
  pose proof (quiet_settles _ _ (put_cpu_quiet s pc (set_pc_ints_disabled false pc) Hpc eq_refl eq_refl)) as S.
  unfold mod_cpu, get_cpu, mbind, K_bind. rewrite Hpc. cbn. exists ω. split_and!; try done.
  - eapply guar_trans; [done|by apply settles_guar_any].
  - by eapply objs_settles.
Qed.

Lemma interrupt_safe t hk handler s ω :
  at_rest t s -> objs_ok ω s -> not_waiting t ω -> keeps hk t s -> cpu_view s (ks_cpu s) = Some (t, false) ->
  (forall pc st, ks_percpu s !! ks_cpu s = Some pc ->
     irq_safe t handler (put_cpu (set_pc_stats st (set_pc_ints_disabled true pc)) s)) ->
  owp false t hk s ω (interrupt handler s) (irq_done t).
Proof.
  intros A O Hn Hk Hv Hsafe. destruct (current_pc _ _ (ar_cur _ _ A)) as (pc & Hpc & Et). 
  unfold interrupt. apply owp_step. eapply rets_mod_cpu; [done|].
  apply owp_step. eapply (rets_stats_inc _ _ (set_pc_ints_disabled true pc)); [apply lookup_insert_eq|]. intros st.
  rewrite put_cpu_twice. specialize (Hsafe pc st Hpc). set (pc' := set_pc_stats st (set_pc_ints_disabled true pc)) in *.
  destruct (put_cpu_rest t pc pc' s) as [A1 Hv1]; [done..|].
  pose proof (quiet_settles _ _ (put_cpu_quiet s pc pc' Hpc eq_refl eq_refl)) as S1.
  apply owp_step. eapply rets_mono; [by apply Hsafe|]. intros r s2 ([A2 Hv2] & S2).
  assert (settles s s2) as S by (eapply settles_trans; [apply A|done|done]).
  pose proof (objs_settles _ _ _ S O) as O2. pose proof (settles_guar t ω _ _ S) as G2.
  pose proof (settles_keeps t hk _ _ S Hk) as Hk2.
  destruct (bool_decide (r = INT_NO_RESCHEDULE)); cbn [negb kwhen].
  { apply owp_step, rets_kdone. by eapply interrupt_end. }
  apply owp_seq. destruct (thread_preempt_run t s2 A2) as (new & s3 & saved & Sv & L & Q & Hq & E).
  rewrite E. pose proof (quiet_settles _ _ Q) as S3.
  eapply (owp_resched false t hk s ω s3 ω); [done|done| |by eapply objs_settles|by eapply settles_keeps|].
  { eapply guar_trans; [done|by apply settles_guar]. }
  intros s4 ω4 s5 ω5 G5 R5 L5 O5. eapply owp_unlock0; [done|done|done|by eapply rely_not_waiting| |].
  { eapply rely_keeps; [done|]. by eapply settles_keeps. }
  intros s6 ω6 R6 A6 O6 Hv6. eapply interrupt_end; [apply guar_refl|done|done| |done].
  eapply rely_not_waiting; [done|]. by eapply rely_not_waiting.
Qed.
End interrupts.

(** ** The invariant *)
Section invariant.
Context `{KConfig}.

Definition continues (t : tid) (c : call) (h : gset Z) (s : kstate) (ω : waits) (o : outcome Z) : Prop :=
  owp true t (held_during c h) s ω o (final t (held_after c h)).

(** What holds of a thread by its status. *)
Definition thread_ok (next : option tid) (s : kstate) (ω : waits) (t : tid) (st : status) : Prop :=
  match st with
  | InUser h => (exists cpu, cpu_view s cpu = Some (t, false)) /\ not_waiting t ω /\ (forall m, holds s m t <-> m ∈ h)
  | Running c h k => not_waiting t ω /\ keeps (held_during c h) t s /\
      exists cpu b, cpu_view s cpu = Some (t, b) /\ forall s' ω', rely t s ω s' ω' -> at_rest t s' -> objs_ok ω' s' ->
        cpu_view s' (ks_cpu s') = Some (t, b) -> continues t c h s' ω' (k s')
  | Parked c h k => (next = Some t \/ forall cpu, currents s !! cpu <> Some t) /\ keeps (held_during c h) t s /\
      forall s' ω', rely t s ω s' ω' -> in_lock ∅ None {[t]} t s' -> objs_ok ω' s' -> continues t c h s' ω' (k s')
  end.

Definition sys_inv (x : sys) : Prop :=
  match x with
  | Crashed _ => False
  | Sys s T next => exists ω, objs_ok ω s /\
      match next with
      | None => kinv ∅ None ∅ s /\ ks_thread_lock s = false
      | Some t => in_lock ∅ None {[t]} t s /\ exists c h k, T !! t = Some (Parked c h k)
      end /\
      (forall t, is_Some (ks_threads s !! t) -> is_Some (T !! t)) /\
      forall t st, T !! t = Some st -> thread_ok next s ω t st
  end.

(** A thread that does not run on the cpu of the stretch is not concerned. *)
Lemma thread_ok_step t u st s ω s' ω' next next' b :
  u <> t -> guar true t s ω s' ω' -> cpu_view s (ks_cpu s) = Some (t, b) ->
  (forall v, currents s' !! ks_cpu s = Some v -> v = t \/ next' = Some v) -> next <> Some u ->
  thread_ok next s ω u st -> thread_ok next' s' ω' u st.
Proof.
  intros Hu G Hv Hcur Hn Hok. pose proof (gu_rely _ _ _ _ _ _ G u (or_introl Hu)) as R.
  assert (forall cpu b', cpu_view s cpu = Some (u, b') -> cpu_view s' cpu = Some (u, b')) as Hview.
  { intros cpu b' E. rewrite (gu_others _ _ _ _ _ _ G); [done|]. intros ->. congruence. }
  destruct st as [h|c h k|c h k]; cbn in *.
  - destruct Hok as ([cpu Hc] & Hw & Hh). split_and!; [eauto|by eapply rely_not_waiting|].
    intros m. rewrite (rl_holds _ _ _ _ _ R). apply Hh.
  - destruct Hok as (Hw & Hk & cpu & b' & Hc & Hf). split_and!; [by eapply rely_not_waiting|by eapply rely_keeps|].
    exists cpu, b'. split; [auto|]. intros s2 ω2 R2. apply Hf. by eapply rely_trans.
  - destruct Hok as (Hc & Hk & Hf). split_and!; [|by eapply rely_keeps|].
    + destruct Hc as [?|Hc]; [done|]. destruct (decide (next' = Some u)) as [|Hnu]; [by left|]. right. intros cpu E.
      destruct (decide (cpu = ks_cpu s)) as [->|Hne]; [destruct (Hcur u E); done|].
      apply (Hc cpu). destruct (current_view _ _ _ E) as [b' Eb]. rewrite (gu_others _ _ _ _ _ _ G) in Eb by done.
      by eapply view_current.
    + intros s2 ω2 R2. apply Hf. by eapply rely_trans.
Qed.

(** The heart of the matter: a stretch of code that keeps to the guarantee leads
    to a state that satisfies the invariant. *)
Lemma settle_inv t c h o T s ω next b :
  continues t c h s ω o -> cpu_view s (ks_cpu s) = Some (t, b) -> (forall cpu, currents s !! cpu = Some t -> cpu = ks_cpu s) ->
  next = None \/ next = Some t ->
  (forall u, is_Some (ks_threads s !! u) -> is_Some (T !! u)) ->
  (forall u st, u <> t -> T !! u = Some st -> thread_ok next s ω u st) ->
  sys_inv (settle t c h o T).
Proof.
  intros Ho Hv Hone Hnext Hall Hoth.
  assert (forall s' ω' next' st, guar true t s ω s' ω' ->
    (forall v, currents s' !! ks_cpu s = Some v -> v = t \/ next' = Some v) ->
    thread_ok next' s' ω' t st ->
    (forall u, is_Some (ks_threads s' !! u) -> is_Some (<[t := st]> T !! u)) /\
    forall u st', <[t := st]> T !! u = Some st' -> thread_ok next' s' ω' u st') as Hgo.
  { intros s' ω' next' st G Hcur Hst. split.
    - intros u Hu. apply lookup_insert_is_Some'. right. by apply Hall, (gu_threads _ _ _ _ _ _ G).
    - intros u st' [[<- <-]|[Hne Hu]]%lookup_insert_Some; [done|].
      eapply (thread_ok_step t u st' s ω s' ω' next next' b); [done..| |by apply Hoth]. destruct Hnext as [->| ->]; congruence. }
  unfold continues in Ho. destruct o as [r s'|old new s' k|s' k|f]; cbn in Ho |- *.
  - destruct Ho as (ω' & G & [A O Hw Hv' Hh]). exists ω'. split; [done|]. split; [split; apply A|].
    apply (Hgo s' ω' None (InUser (held_after c h r))); [done| |cbn; eauto].
    intros v Hc; left; pose proof (ar_cur _ _ A) as Hc'; rewrite (gu_cpu _ _ _ _ _ _ G) in Hc'; congruence.
  - destruct Ho as (ω' & G & -> & Hne & L & O & Hk & Hf). exists ω'.
    pose proof (il_cur _ _ _ _ _ L) as Hcn. rewrite (gu_cpu _ _ _ _ _ _ G) in Hcn.
    assert (exists c' h' k', T !! new = Some (Parked c' h' k')) as (c' & h' & k' & Hnew).
    { destruct (in_lock_running _ _ _ _ L) as (thn & Hthn & _).
      destruct (Hall new) as [st Hst]; [apply (gu_threads _ _ _ _ _ _ G); by eexists|].
      assert (forall cpu b', cpu_view s cpu <> Some (new, b')) as Hno.
      { intros cpu b' E. assert (cpu <> ks_cpu s) as Hcpu by congruence.
        pose proof E as E'. rewrite <- (gu_others _ _ _ _ _ _ G cpu Hcpu) in E'. apply view_current in E'.
        by pose proof (one_cpu _ _ _ _ _ _ (il_inv _ _ _ _ _ L) E' Hcn). }
      pose proof (Hoth new st Hne Hst) as Hok. destruct st as [h'|c' h' k'|c' h' k']; cbn in Hok; [|..|by eauto].
      - destruct Hok as ([cpu E] & _). by destruct (Hno cpu false).
      - destruct Hok as (_ & _ & cpu & b' & E & _). by destruct (Hno cpu b'). }
    split; [done|]. split; [split; [done|]; exists c', h', k'; by rewrite lookup_insert_ne|].
    apply (Hgo s' ω' (Some new) (Parked c h k)); [done|intros v Hc; right; congruence|]. cbn. split_and!; [|done|done].
    right. intros cpu E. destruct (decide (cpu = ks_cpu s)) as [->|Hcpu]; [congruence|].
    destruct (current_view _ _ _ E) as [b' Eb]. rewrite (gu_others _ _ _ _ _ _ G) in Eb by done.
    by apply Hcpu, Hone, (view_current _ _ _ b').
  - destruct Ho as (ω' & G & A & O & Hw & Hk & Hf). exists ω'. split; [done|]. split; [split; apply A|].
    pose proof (ar_cur _ _ A) as Hc'. apply (Hgo s' ω' None (Running c h k)); [done| |].
    + intros v Hc; left; rewrite (gu_cpu _ _ _ _ _ _ G) in Hc'; congruence.
    + cbn; split_and!; [done|done|]. destruct (current_view _ _ _ Hc') as [b' Hb']. exists (ks_cpu s'), b'. split; [done|].
      intros s2 ω2 R2 A2 O2 Hv2. apply Hf; congruence.
  - done.
Qed.

(** ** Every step keeps it *)
Context (mutex_threading_ready : bool) (other_callback : Z -> Z -> K handler_return).

Lemma run_call_safe t c h s ω :
  0 <= t -> user t h ω s -> allowed c h s ->
  continues t c h s ω (run_call mutex_threading_ready c s).
Proof.
  intros Hni U Ha. unfold continues. destruct c; cbn [run_call held_during held_after allowed] in *.
  - by apply thread_yield_safe.
  - by apply thread_sleep_safe.
  - by apply thread_set_priority_safe.
  - destruct Ha. by apply mutex_acquire_timeout_safe.
  - apply mutex_release_safe; try done. apply (us_holds _ _ _ _ U) in Ha as (mx & Hm & _). unfold kind_at. by rewrite Hm.
  - by apply event_wait_timeout_safe.
  - by apply event_signal_safe.
  - by apply event_unsignal_safe.
  - by apply sem_post_safe.
  - by apply sem_wait_safe.
  - by apply sem_trywait_safe.
  - by apply sem_timedwait_safe.
  - done.
Qed.

(** A thread on a cpu, seen from that cpu. *)
Lemma user_on_cpu t h ω cpu s :
  kinv ∅ None ∅ s -> ks_thread_lock s = false -> objs_ok ω s -> currents s !! cpu = Some t ->
  thread_ok None s ω t (InUser h) -> user t h ω (set_ks_cpu cpu s).
Proof.
  intros I Hl O Hc ([cpu' Hv] & Hw & Hh). pose proof (one_cpu _ _ _ _ _ _ I Hc (view_current _ _ _ _ Hv)) as <-.
  split; [by apply rest_set_cpu|by apply objs_set_cpu|done|done|done].
Qed.

Lemma thread_ok_same next s ω t st s' :
  (forall cpu, cpu_view s' cpu = cpu_view s cpu) -> (forall cpu, currents s' !! cpu = currents s !! cpu) ->
  rely t s ω s' ω -> thread_ok next s ω t st -> thread_ok next s' ω t st.
Proof.
  intros Ev Ec R Hok. destruct st as [h|c h k|c h k]; cbn in *.
  - destruct Hok as ([cpu Hc] & Hw & Hh). split_and!; [exists cpu; by rewrite Ev|done|].
    intros m. rewrite (rl_holds _ _ _ _ _ R). apply Hh.
  - destruct Hok as (Hw & Hk & cpu & b & Hc & Hf). split_and!; [done|by eapply rely_keeps|].
    exists cpu, b. rewrite Ev. split; [done|]. intros s2 ω2 R2. apply Hf. by eapply rely_trans.
  - destruct Hok as (Hc & Hk & Hf). split_and!; [|by eapply rely_keeps|].
    + destruct Hc as [?|Hc]; [by left|right]. intros cpu. by rewrite Ec.
    + intros s2 ω2 R2. apply Hf. by eapply rely_trans.
Qed.

(** A step of the thread on a cpu, the lock being free. *)
Lemma step_on_cpu cpu t c h o s T ω :
  kinv ∅ None ∅ s -> objs_ok ω s -> (forall u, is_Some (ks_threads s !! u) -> is_Some (T !! u)) ->
  (forall u st, T !! u = Some st -> thread_ok None s ω u st) -> currents s !! cpu = Some t ->
  continues t c h (set_ks_cpu cpu s) ω o -> sys_inv (settle t c h o T).
Proof.
  intros I O Hall Hth Hc Ho. destruct (current_view _ _ _ Hc) as [b Hv].
  eapply (settle_inv t c h o T (set_ks_cpu cpu s) ω None b); [done|done| |by left|done|].
  - intros cpu' Hc'. by eapply one_cpu.
  - intros u st _ Hu. apply (thread_ok_same None s ω); [done|done|apply rely_set_cpu|by apply Hth].
Qed.

Lemma irq_on_cpu cpu t hk i s ω :
  kinv ∅ None ∅ s -> ks_thread_lock s = false -> objs_ok ω s -> not_waiting t ω -> keeps hk t s ->
  cpu_view s cpu = Some (t, false) -> irq_ok i (set_ks_cpu cpu s) ->
  owp true t hk (set_ks_cpu cpu s) ω (interrupt (irq_handler other_callback i) (set_ks_cpu cpu s)) (fun s1 ω1 a s2 =>
    irq_done t s1 ω1 a s2 /\ rely t s ω s1 ω1).
Proof.
  intros I Hl O Hn Hk Hv Hok. pose proof (view_current _ _ _ _ Hv) as Hc.
  apply owp_rely; [apply rely_set_cpu|]. apply interrupt_safe; [by apply rest_set_cpu|by apply objs_set_cpu|done|done|done|].
  intros pc st Hpc. set (pc' := set_pc_stats st (set_pc_ints_disabled true pc)).
  apply irq_handler_safe; [apply (ob_timers _ _ O)|]. destruct i as [fuel|]; [|done].
  assert (own_queue (put_cpu pc' (set_ks_cpu cpu s)) = own_queue (set_ks_cpu cpu s)) as E.
  { rewrite (own_queue_pc _ pc Hpc). by apply (own_queue_pc _ pc'), lookup_insert_eq. }
  destruct Hok as [Hf Hna]. cbn. rewrite E. split; [done|]. intros j tm. rewrite E. apply Hna.
Qed.

Lemma sys_inv_step x y : sys_inv x -> sys_step mutex_threading_ready other_callback x y -> sys_inv y.
Proof.
  intros Hx Hstep. destruct Hstep as [s T cpu t c h Hc HT Hni Ha|s T cpu t c h k Hc HT|s T t c h k HT
    |s T cpu t h i Hv HT Hok|s T cpu t c h k i Hv HT Hok|s T now]; cbn in Hx; destruct Hx as (ω & O & Hmode & Hall & Hth).
  - destruct Hmode as [I Hl]. eapply step_on_cpu; [done..|]. apply run_call_safe; [done| |done].
    apply user_on_cpu; try done. by apply Hth.
  - destruct Hmode as [I Hl]. destruct (Hth t _ HT) as (Hw & Hk & cpu' & b & Hv & Hf).
    pose proof (one_cpu _ _ _ _ _ _ I Hc (view_current _ _ _ _ Hv)) as <-. eapply step_on_cpu; [done..|].
    apply Hf; [apply rely_set_cpu|by apply rest_set_cpu|by apply objs_set_cpu|done].
  - destruct Hmode as (L & _). destruct (Hth t _ HT) as (_ & Hk & Hf).
    pose proof (il_cur _ _ _ _ _ L) as Hc. destruct (current_view _ _ _ Hc) as [b Hv].
    eapply (settle_inv t c h (k s) T s ω (Some t) b); [|done| |by right|done|by intros u st _; apply Hth].
    + apply Hf; [apply rely_refl|done|done].
    + intros cpu' Hc'. eapply one_cpu; [apply L|done|done].
  - destruct Hmode as [I Hl]. pose proof (view_current _ _ _ _ Hv) as Hc. eapply step_on_cpu; [done..|].
    destruct (Hth t _ HT) as (_ & Hw & Hh). unfold continues. apply owp_seq.
    eapply owp_mono; [apply irq_on_cpu; try done; intros m ?; by apply Hh|].
    intros s1 ω1 _ s2 [(ω2 & G & A & O2 & Hn2 & Hv2) R]. cbn. exists ω2. split; [by apply guar_self|]. split; try done.
    intros m. rewrite <- Hh. rewrite (rl_holds _ _ _ _ _ (gu_rely _ _ _ _ _ _ G t (or_intror eq_refl))). apply R.
  - destruct Hmode as [I Hl]. pose proof (view_current _ _ _ _ Hv) as Hc. eapply step_on_cpu; [done..|].
    destruct (Hth t _ HT) as (Hw & Hk & cpu' & b & Hv' & Hf).
    pose proof (one_cpu _ _ _ _ _ _ I Hc (view_current _ _ _ _ Hv')) as <-. assert (b = false) as -> by congruence.
    unfold continues. apply owp_seq. eapply owp_mono; [by apply irq_on_cpu|].
    intros s1 ω1 _ s2 [(ω2 & G & A & O2 & Hn2 & Hv2) R].
    eapply owp_start; [by apply guar_self|intros; eapply final_start; [by apply guar_self|done]|].
    apply Hf; [|done..]. eapply rely_trans; [exact R|]. apply (gu_rely _ _ _ _ _ _ G). by right.
  - destruct Hmode as [I Hl]. exists ω. split; [by apply objs_set_now|]. split; [split; [by apply (kinv_ext _ _ _ s)|done]|].
    split; [done|]. intros t st Hst. apply (thread_ok_same None s ω); [done|done|apply rely_set_now|by apply Hth].
Qed.

Lemma initial_inv s T : initial s T -> sys_inv (Sys s T None).
Proof.
  intros [I Hl O Hfree Htm Hall Hst]. exists (fun _ => ∅). split; [done|]. split; [done|]. split; [done|].
  intros t st Ht. destruct (Hst t st Ht) as [[Hc ->]|[Hc ->]]; cbn.
  - split_and!; [done|by intros m|]. intros m. split; [by intros ?%Hfree|set_solver].
  - split_and!; [by right|by intros m|]. intros s' ω' R L O'. unfold continues. apply owp_seq.
    assert (~ stack_queued s' t) as Hn by (intros Hq%(rl_stack _ _ _ _ _ R); by eapply Htm).
    assert (in_lock ∅ None ∅ t s') as L'.
    { destruct L as [I' ? ?]. split; [|done|done]. apply (kinv_no_timer _ _ _ t); [by rewrite union_empty_r_L|done]. }
    assert (not_waiting t ω') as Hw by (eapply rely_not_waiting; [exact R|]; by intros m).
    change (initial_thread_start s') with (THREAD_UNLOCK false s').
    eapply owp_unlock0; [done|apply guar_refl|done|done|by intros m|]. intros s3 ω3 R3 A3 O3 Ev3. cbn.
    eapply user_after; [exact R3|done..|]. intros m. rewrite (rl_holds _ _ _ _ _ R). split; [by intros ?%Hfree|set_solver].
Qed.

Lemma reachable_inv x : reachable mutex_threading_ready other_callback x -> sys_inv x.
Proof. induction 1; [by apply initial_inv|by eapply sys_inv_step]. Qed.
End invariant.
