(* ===== verification/Demo.v ===== *)
(** * A concrete kernel state

    One cpu running thread 1, with thread 2 ready, thread 3 waiting for the
    mutex at 100 that thread 1 holds, and the idle thread of the cpu.  It
    satisfies the invariant, and is where the examples of the properties are
    evaluated; assertions are compiled in. *)
From S2P Require Import Prelude KState Timer Thread WaitQueue ThreadLife Logic SchedInv TimerInv SchedSpec SchedOps.

#[local] Instance demo_config : KConfig := {| LK_DEBUGLEVEL := 2 |}.

Definition demo_thread (state : thread_state) (flags curr_cpu pinned : Z) (wait : option wqid) : thread_t :=
  Thread THREAD_MAGIC 16 state 5 flags curr_cpu pinned None wait 0 0 0 [] 0 0 0 [0; 0] "demo" 0 0 0.

Definition demo_threads : gmap tid thread_t :=
  <[idle_thread 0 := demo_thread THREAD_READY (Z.lor THREAD_FLAG_DETACHED THREAD_FLAG_IDLE) (-1) 0 None]>
  (<[1 := demo_thread THREAD_RUNNING 0 0 (-1) None]>
  (<[2 := demo_thread THREAD_READY 0 (-1) (-1) None]>
  (<[3 := demo_thread THREAD_BLOCKED 0 (-1) (-1) (Some (WqMutex 100))]> ∅))).

Definition demo_wait_queues : gmap wqid wait_queue_t :=
  <[WqRetcode (idle_thread 0) := WAIT_QUEUE_INITIAL_VALUE]>
  (<[WqRetcode 1 := WAIT_QUEUE_INITIAL_VALUE]>
  (<[WqRetcode 2 := WAIT_QUEUE_INITIAL_VALUE]>
  (<[WqRetcode 3 := WAIT_QUEUE_INITIAL_VALUE]>
  (<[WqMutex 100 := WaitQueue WAIT_QUEUE_MAGIC 1 [3]]>
  (<[WqMutex 200 := WAIT_QUEUE_INITIAL_VALUE]>
  (<[WqEvent 300 := WAIT_QUEUE_INITIAL_VALUE]>
  (<[WqSem 400 := WAIT_QUEUE_INITIAL_VALUE]> ∅))))))).

Definition demo_timers : gmap timer_id timer_t :=
  <[TmPreempt 0 := Timer TIMER_MAGIC 1010 10 ThreadTimerTick 0]> ∅.

Definition demo_run_queue : list (list tid) := <[16%nat := [2]]> (replicate 32 []).

Definition demo (lock : bool) : kstate :=
  KState 0 (<[0 := PerCpu 1 lock [TmPreempt 0] (ThreadStats 0 0 0 0 0 0 0 0 0 0)]> ∅)
    demo_threads [1; 2; 3; idle_thread 0] demo_run_queue (BIT 16) lock demo_wait_queues demo_timers
    (MpState 1 0 0)
    (<[100 := KMutex (Mutex MUTEX_MAGIC 2 (Some 1))]> (<[200 := KMutex (Mutex MUTEX_MAGIC 0 None)]> ∅))
    [] 1000 1000000 [] [].

(** Case analysis on a lookup in a concrete map. *)
Ltac concrete :=
  repeat match goal with
  | H : (<[_ := _]> _) !! _ = Some _ |- _ => apply lookup_insert_Some in H as [[<- <-]|[? H]]
  | H : ∅ !! _ = Some _ |- _ => by rewrite lookup_empty in H
  | H : is_Some _ |- _ => destruct H
  end.

Lemma demo_rq_lookup (i : nat) q : demo_run_queue !! i = Some q -> (i = 16%nat /\ q = [2]) \/ (i <> 16%nat /\ (i < 32)%nat /\ q = []).
Proof.
  unfold demo_run_queue. intros Hq. destruct (decide (i = 16%nat)) as [->|].
  - rewrite list_lookup_insert_eq in Hq by (by cbn; lia). left. by simplify_eq.
  - rewrite list_lookup_insert_ne in Hq by done. apply lookup_replicate in Hq as [-> ?]. by right.
Qed.

Lemma demo_currents lock : currents (demo lock) = <[0 := 1]> ∅.
Proof. done. Qed.

Lemma demo_threads_lookup t th : demo_threads !! t = Some th ->
  (t = idle_thread 0 /\ th = demo_thread THREAD_READY (Z.lor THREAD_FLAG_DETACHED THREAD_FLAG_IDLE) (-1) 0 None) \/
  (t = 1 /\ th = demo_thread THREAD_RUNNING 0 0 (-1) None) \/
  (t = 2 /\ th = demo_thread THREAD_READY 0 (-1) (-1) None) \/
  (t = 3 /\ th = demo_thread THREAD_BLOCKED 0 (-1) (-1) (Some (WqMutex 100))).
Proof. unfold demo_threads. intros Ht. concrete; auto 10. Qed.

Lemma demo_wq_lookup w q : demo_wait_queues !! w = Some q ->
  (w = WqMutex 100 /\ q = WaitQueue WAIT_QUEUE_MAGIC 1 [3]) \/ (w <> WqMutex 100 /\ q = WAIT_QUEUE_INITIAL_VALUE).
Proof. unfold demo_wait_queues. intros Hq. concrete; auto. Qed.

Lemma demo_current_lookup c t : (<[0 := 1]> ∅ : gmap Z tid) !! c = Some t -> c = 0 /\ t = 1.
Proof. intros Hc. by concrete. Qed.

Ltac demo_cases :=
  repeat match goal with
  | H : demo_threads !! _ = Some _ |- _ => apply demo_threads_lookup in H as [[-> ->]|[[-> ->]|[[-> ->]|[-> ->]]]]
  | H : demo_run_queue !! _ = Some _ |- _ => apply demo_rq_lookup in H as [[-> ->]|(? & ? & ->)]
  | H : demo_wait_queues !! _ = Some _ |- _ => apply demo_wq_lookup in H as [[-> ->]|[? ->]]
  | H : <[0 := 1]> ∅ !! _ = Some _ |- _ => apply demo_current_lookup in H as [-> ->]
  end.

Lemma demo_sched lock : swf ∅ None (demo lock).
Proof.
  unfold swf. rewrite demo_currents. change (ks_threads _) with demo_threads.
  change (ks_run_queue _) with demo_run_queue. change (ks_wait_queues _) with demo_wait_queues.
  change (ks_run_queue_bitmap _) with (BIT 16). split.
  - done.
  - done.
  - intros i q Hq. demo_cases; [done|]. rewrite bool_decide_false by tauto.
    rewrite BIT_spec, bool_decide_false by lia. done.
  - intros i Hi. rewrite BIT_spec, bool_decide_false by lia. done.
  - intros i q Hq. demo_cases; [apply NoDup_singleton|constructor].
  - intros i q t Hq Ht. demo_cases; [|set_solver]. apply list_elem_of_singleton in Ht as ->. split; [set_solver|].
    eexists. split_and!; reflexivity.
  - intros w q Hq. demo_cases; cbn; split_and!; try done; [apply NoDup_singleton|constructor].
  - intros w q t Hq Ht. demo_cases; [|by apply elem_of_nil in Ht]. apply list_elem_of_singleton in Ht as ->. split; [set_solver|].
    eexists. split_and!; reflexivity.
  - intros t th Ht. demo_cases; (split; [intros _; vm_compute; intuition congruence|reflexivity]).
  - intros t th Ht _ Hs Hi. demo_cases; try done. exists [2]. split; [reflexivity|set_solver].
  - intros t th Ht _ Hs. demo_cases; try done. eexists _, _. split_and!; [reflexivity..|cbn; set_solver].
  - intros t th Ht _ Hs. demo_cases; try done.
  - intros c t Hc _. demo_cases. split; [set_solver|]. eexists. split_and!; reflexivity.
  - done.
  - intros c [t Hc]. demo_cases. eexists. split_and!; [reflexivity..|by left].
  - intros c c' Hc [t' Hc']. apply demo_current_lookup in Hc' as [-> _].
    by apply demo_current_lookup in Hc as [-> _].
  - intros t th Ht Hi. demo_cases; try done. exists 0. split; [done|by eexists].
  - intros c [t Hc]. by demo_cases.
Qed.

Lemma demo_timer_queues lock : timer_queues (demo lock) = <[0 := [TmPreempt 0]]> ∅.
Proof. done. Qed.

Lemma demo_tq_lookup c q : (<[0 := [TmPreempt 0]]> ∅ : gmap Z (list timer_id)) !! c = Some q -> c = 0 /\ q = [TmPreempt 0].
Proof. intros Hc. by concrete. Qed.

Lemma demo_kinv lock : kinv ∅ None ∅ (demo lock).
Proof.
  split.
  - apply demo_sched.
  - unfold twf. rewrite demo_timer_queues. change (ks_threads _) with demo_threads. change (ks_timers _) with demo_timers.
    split.
    + intros i tm Hi. unfold demo_timers in Hi. by concrete.
    + intros c q i [-> ->]%demo_tq_lookup ->%list_elem_of_singleton. by eexists.
    + intros c q [-> ->]%demo_tq_lookup. apply NoDup_singleton.
    + by intros c c' q q' i [-> ->]%demo_tq_lookup [-> ->]%demo_tq_lookup.
    + intros c [q Hq]. apply demo_tq_lookup in Hq as [-> _]. by eexists.
    + intros c q c' [-> ->]%demo_tq_lookup [= ->]%list_elem_of_singleton. split; [done|]. by eexists.
    + intros c q t [-> ->]%demo_tq_lookup [=]%list_elem_of_singleton.
    + intros c q a [-> ->]%demo_tq_lookup [=]%list_elem_of_singleton.
  - unfold preempt_on. rewrite demo_timer_queues, demo_currents. change (ks_threads _) with demo_threads.
    intros c q t th [-> ->]%demo_tq_lookup [_ ->]%demo_current_lookup Ht.
    change (demo_threads !! 1) with (Some (demo_thread THREAD_RUNNING 0 0 (-1) None)) in Ht. simplify_eq.
    split; [done|]. intros _. by apply list_elem_of_singleton.
  - change (ks_threads _) with demo_threads. change (ks_wait_queues _) with demo_wait_queues.
    intros t [th Ht]. demo_cases; (eexists; split; reflexivity).
Qed.

Lemma demo_at_rest : at_rest 1 (demo false).
Proof. split; [apply demo_kinv|done|done]. Qed.

Lemma demo_locked : locked (demo true).
Proof. split; [done|]. by eexists. Qed.

Lemma demo_in_lock : in_lock ∅ None ∅ 1 (demo true).
Proof. split; [apply demo_kinv|apply demo_locked|done]. Qed.

(** Thread 1 having gone to sleep, about to call the scheduler. *)
Definition demo_asleep : kstate := put_thread 1 (demo_thread THREAD_SLEEPING 0 0 (-1) None) (demo true).

Lemma demo_asleep_kinv : kinv ∅ (Some 0) ∅ demo_asleep /\ locked demo_asleep.
Proof.
  pose proof (give_up_run ∅ 1 (demo_thread THREAD_RUNNING 0 0 (-1) None) (demo_thread THREAD_SLEEPING 0 0 (-1) None)
    (demo true) demo_in_lock eq_refl) as L.
  destruct L as [L1 L2 _]; [|done|].
  { by split_and!. }
  split; [|done]. eapply kinv_rest; [exact L1|reflexivity|]. by right; left.
Qed.
