(* ===== verification/SystemRun.v ===== *)
(** * Runs of the system

    The steps of System as a function, to follow a schedule; a concrete initial
    state; and what schedules from it lead to. *)
From S2P Require Import Prelude KState Timer Thread WaitQueue ThreadLife Logic SchedInv TimerInv SchedSpec SchedOps WaitOps Mutex Event Semaphore TimerTick TickOps Rely SyncInv SyncOps System SystemSafe Demo.

Inductive action :=
  | ActCall (cpu : Z) (c : call) | ActResume (cpu : Z) | ActSwitch
  | ActIrq (cpu : Z) (i : irq) | ActTime (now : Z).

#[export] Instance allowed_dec c h s : Decision (allowed c h s).
Proof. destruct c; cbn; apply _. Defined.

Definition irq_okb (i : irq) (s : kstate) : bool :=
  match i with
  | IrqTimer fuel => bool_decide (length (own_queue s) + 2 <= fuel)%nat &&
      forallb (fun j => match ks_timers s !! j with
                        | Some tm => negb (u32 (tm_scheduled_time tm - ks_now s) =? 2 ^ 31)
                        | None => true
                        end) (own_queue s)
  | IrqReschedule => true
  end.
Lemma irq_okb_ok i s : irq_okb i s = true -> irq_ok i s.
Proof.
  destruct i as [fuel|]; [|done]. cbn. intros [Hf Hq]%andb_true_iff. apply bool_decide_eq_true in Hf. split; [done|].
  intros j tm Hj Htm. rewrite forallb_forall in Hq. specialize (Hq j). rewrite Htm in Hq.
  apply list_elem_of_In in Hj. specialize (Hq Hj). unfold antipode. apply negb_true_iff, Z.eqb_neq in Hq. done.
Qed.

Section exec.
Context `{KConfig} (ready : bool) (other : Z -> Z -> K handler_return).

Definition exec (a : action) (x : sys) : option sys :=
  match x with
  | Crashed _ => None
  | Sys s T (Some t) =>
      match a, T !! t with
      | ActSwitch, Some (Parked c h k) => Some (settle t c h (k s) T)
      | _, _ => None
      end
  | Sys s T None =>
      match a with
      | ActCall cpu c =>
          t ← currents s !! cpu;
          match T !! t with
          | Some (InUser h) =>
              if (0 <=? t) && bool_decide (allowed c h s)
              then Some (settle t c h (run_call ready c (set_ks_cpu cpu s)) T) else None
          | _ => None
          end
      | ActResume cpu =>
          t ← currents s !! cpu;
          match T !! t with
          | Some (Running c h k) => Some (settle t c h (k (set_ks_cpu cpu s)) T)
          | _ => None
          end
      | ActSwitch => None
      | ActIrq cpu i =>
          if irq_okb i (set_ks_cpu cpu s) then
            match cpu_view s cpu with
            | Some (t, false) =>
                match T !! t with
                | Some (InUser h) =>
                    Some (settle t CallNone h ((interrupt (irq_handler other i);; mret NO_ERROR) (set_ks_cpu cpu s)) T)
                | Some (Running c h k) => Some (settle t c h ((interrupt (irq_handler other i);; k) (set_ks_cpu cpu s)) T)
                | _ => None
                end
            | _ => None
            end
          else None
      | ActTime now => Some (Sys (set_ks_now now s) T None)
      end
  end.

Fixpoint exec_all (l : list action) (x : sys) : option sys :=
  match l with
  | [] => Some x
  | a :: l => y ← exec a x; exec_all l y
  end.

Lemma exec_step a x y : exec a x = Some y -> sys_step ready other x y.
Proof.
  destruct x as [s T [t|]|f]; [| |done].
  - destruct a; try done. cbn. destruct (T !! t) as [[]|] eqn:Ht; try done. intros [= <-]. by apply step_switch.
  - destruct a as [cpu c|cpu| |cpu i|now]; cbn; try done.
    + destruct (currents s !! cpu) as [t|] eqn:Hc; [|done]. cbn. destruct (T !! t) as [[h| |]|] eqn:Ht; try done.
      destruct (Z.leb_spec 0 t); [|done]. cbn. destruct (bool_decide_reflect (allowed c h s)); [|done].
      intros [= <-]. by eapply step_call.
    + destruct (currents s !! cpu) as [t|] eqn:Hc; [|done]. cbn. destruct (T !! t) as [[|c h k|]|] eqn:Ht; try done.
      intros [= <-]. by eapply step_resume.
    + destruct (irq_okb i (set_ks_cpu cpu s)) eqn:Hi; [|done]. apply irq_okb_ok in Hi.
      destruct (cpu_view s cpu) as [[t []]|] eqn:Hv; try done. destruct (T !! t) as [[h|c h k|]|] eqn:Ht; try done.
      * intros [= <-]. by eapply step_irq_user.
      * intros [= <-]. by eapply step_irq_kernel.
    + intros [= <-]. apply step_time.
Qed.

Lemma exec_reachable l x y : reachable ready other x -> exec_all l x = Some y -> reachable ready other y.
Proof.
  revert x. induction l as [|a l IH]; intros x Hx; cbn; [by intros [= <-]|].
  destruct (exec a x) as [z|] eqn:Hz; [|done]. cbn. apply IH. eapply reach_step; [done|]. by eapply exec_step.
Qed.
End exec.

(** ** An initial state *)
#[local] Existing Instance demo_config.

(** The state of Demo once thread 3 was woken, with its objects as initialised. *)
Definition boot_objs : gmap Z kobj :=
  <[100 := KMutex MUTEX_INITIAL_VALUE]> (<[200 := KMutex MUTEX_INITIAL_VALUE]>
  (<[300 := KEvent (EVENT_INITIAL_VALUE false 0)]> (<[400 := KSem (SEMAPHORE_INITIAL_VALUE 0)]> ∅))).
Definition boot_pc (pc : percpu) : percpu := set_pc_ints_disabled false pc.
Definition boot_state (s : kstate) : kstate :=
  set_ks_objs boot_objs (set_ks_thread_lock false (set_ks_percpu (boot_pc <$> ks_percpu s) s)).
Definition boot : kstate :=
  match wait_queue_wake_all (WqMutex 100) false NO_ERROR (demo true) with Ret _ s => boot_state s | _ => demo true end.

Definition fresh : status := Parked CallNone ∅ (initial_thread_start;; mret NO_ERROR).
Definition boot_threads : gmap tid status :=
  <[1 := InUser ∅]> (<[2 := fresh]> (<[3 := fresh]> (<[idle_thread 0 := fresh]> ∅))).

Lemma boot_kinv : kinv ∅ None ∅ boot.
Proof.
  unfold boot.
  destruct (rets_inv _ _ _ (wake_all_run ∅ None ∅ 1 (WqMutex 100) (WaitQueue WAIT_QUEUE_MAGIC 1 [3]) NO_ERROR (demo true)
    demo_in_lock eq_refl eq_refl)) as (r & s' & -> & _ & L & _).
  eapply kinv_ext; [|apply L]. unfold kview, boot_state, currents, timer_queues. kcbn. by rewrite <- !map_fmap_compose.
Qed.

Lemma boot_queues w q : ks_wait_queues boot !! w = Some q -> wq_magic q = WAIT_QUEUE_MAGIC /\ wq_list q = [].
Proof.
  assert (map_Forall (fun _ q => wq_magic q = WAIT_QUEUE_MAGIC /\ wq_list q = []) (ks_wait_queues boot)) as Hq; [|apply Hq].
  apply (bool_decide_eq_true_1 _). vm_compute. reflexivity.
Qed.
Lemma boot_timers i tm : ks_timers boot !! i = Some tm -> i = TmPreempt 0.
Proof.
  assert (map_Forall (fun i _ => i = TmPreempt 0) (ks_timers boot)) as Hq; [|apply Hq].
  apply (bool_decide_eq_true_1 _). vm_compute. reflexivity.
Qed.
Lemma boot_has_status t : is_Some (ks_threads boot !! t) -> is_Some (boot_threads !! t).
Proof.
  intros [th Ht]. revert t th Ht. change (map_Forall (fun t _ => is_Some (boot_threads !! t)) (ks_threads boot)).
  apply (bool_decide_eq_true_1 _). vm_compute. reflexivity.
Qed.
Lemma boot_objs_eq : ks_objs boot = boot_objs.
Proof. vm_compute. reflexivity. Qed.
Lemma boot_currents : currents boot = <[0 := 1]> ∅.
Proof. vm_compute. reflexivity. Qed.
Lemma boot_timer_queues : timer_queues boot = <[0 := [TmPreempt 0]]> ∅.
Proof. vm_compute. reflexivity. Qed.

Lemma boot_obj_cases a o : ks_objs boot !! a = Some o ->
  (a = 100 \/ a = 200) /\ o = KMutex MUTEX_INITIAL_VALUE \/ a = 300 /\ o = KEvent (EVENT_INITIAL_VALUE false 0) \/
  a = 400 /\ o = KSem (SEMAPHORE_INITIAL_VALUE 0).
Proof. rewrite boot_objs_eq. unfold boot_objs. intros Ho. concrete; auto 10. Qed.
Ltac boot_obj H := apply boot_obj_cases in H as [[[->| ->] ?]|[[-> ?]|[-> ?]]]; simplify_eq.

Lemma boot_objs_ok : objs_ok (fun _ => ∅) boot.
Proof.
  split.
  - intros m mx Hm. assert (mx = MUTEX_INITIAL_VALUE /\ exists q, ks_wait_queues boot !! WqMutex m = Some q) as [-> [q Hq]].
    { boot_obj Hm; (split; [done|by eexists]). }
    destruct (boot_queues _ _ Hq) as [Hwm Hl]. exists q. split; [exact Hq|]. clear Hq Hm. split; [reflexivity|by rewrite size_empty|done| | |].
    + intros u. rewrite Hl. by intros ?%elem_of_nil.
    + by intros u ?%elem_of_empty.
    + by intros u v [?%elem_of_empty _].
  - by intros m u ?%elem_of_empty.
  - by intros m m' u ?%elem_of_empty.
  - intros m u w q []%elem_of_empty.
  - intros e ev He. boot_obj He. split; [done|]. by eexists.
  - intros a sem Ha. boot_obj Ha. by eexists.
  - intros a. destruct (ks_timers boot !! TmObj a) eqn:Ha; [|done]. by apply boot_timers in Ha.
Qed.

Lemma boot_initial : initial boot boot_threads.
Proof.
  split.
  - exact boot_kinv.
  - reflexivity.
  - exact boot_objs_ok.
  - intros m t (mx & Hm & Hh). by boot_obj Hm.
  - intros t (c & q & Hq & Ht). rewrite boot_timer_queues in Hq. apply demo_tq_lookup in Hq as [-> ->].
    by apply list_elem_of_singleton in Ht.
  - exact boot_has_status.
  - intros t st Ht. unfold boot_threads in Ht. rewrite boot_currents.
    apply lookup_insert_Some in Ht as [[<- <-]|[Hne Ht]]; [left; split; [by exists 0|done]|].
    right. split; [by intros cpu [_ ->]%demo_current_lookup|]. by concrete.
Qed.

(** ** What holds of every run *)
(** The mutexes a thread is inside of: those it may rely on to be its own. *)
Definition owned (st : status) : gset Z :=
  match st with InUser h => h | Running c h _ | Parked c h _ => held_during c h end.


Lemma thread_ok_owned `{KConfig} next s ω t st m : thread_ok next s ω t st -> m ∈ owned st -> holds s m t.
Proof.
  destruct st as [h|c h k|c h k]; cbn.
  - intros (_ & _ & Hh). by apply Hh.
  - intros (_ & Hk & _). apply Hk.
  - intros (_ & Hk & _). apply Hk.
Qed.



(** ** Schedules *)
Definition no_driver (_ _ : Z) : K handler_return := mret INT_NO_RESCHEDULE.
Definition start : sys := Sys boot boot_threads None.

Lemma start_reachable : reachable true no_driver start.
Proof. apply reach_init, boot_initial. Qed.

(** Thread 1 raises its priority, takes the mutex and sleeps. *)
Definition schedule_taken : list action :=
  [ActCall 0 (CallSetPriority 20); ActResume 0; ActCall 0 (CallMutexAcquire 100 INFINITE_TIME); ActResume 0].
(** Then thread 3 tries it for 5 ms and blocks; thread 2 runs. *)
Definition schedule_timeout : list action := schedule_taken ++
  [ActCall 0 (CallSleep 3); ActSwitch; ActResume 0; ActCall 0 (CallMutexAcquire 100 5); ActSwitch; ActResume 0;
   ActCall 0 (CallSetPriority 18); ActResume 0].
(** Thread 1 wakes up, thread 3 times out without getting the cpu, thread 1
    releases the mutex and sleeps; thread 2 runs, wants the mutex and blocks;
    thread 3 returns with its error. *)
Definition schedule_lost : list action := schedule_timeout ++
  [ActTime 1003; ActIrq 0 (IrqTimer 10); ActSwitch; ActResume 0;
   ActTime 1006; ActIrq 0 (IrqTimer 10); ActResume 0; ActCall 0 (CallMutexRelease 100); ActResume 0;
   ActCall 0 (CallSleep 100); ActSwitch; ActResume 0; ActCall 0 (CallMutexAcquire 100 INFINITE_TIME); ActSwitch; ActResume 0].

Lemma schedule_reaches l (P : kstate -> gmap tid status -> option tid -> bool) :
  match exec_all true no_driver l start with Some (Sys s T next) => P s T next | _ => false end = true ->
  exists s T next, reachable true no_driver (Sys s T next) /\ P s T next = true.
Proof.
  destruct (exec_all true no_driver l start) as [[s T next|]|] eqn:E; [|done..]. intros HP. exists s, T, next.
  split; [|done]. eapply exec_reachable; [apply start_reachable|exact E].
Qed.


Definition user_of (T : gmap tid status) (t : tid) : option (gset Z) :=
  match T !! t with Some (InUser h) => Some h | _ => None end.
Lemma user_of_Some T t h : user_of T t = Some h -> T !! t = Some (InUser h).
Proof. unfold user_of. destruct (T !! t) as [[]|]; congruence. Qed.



Definition mutex_state (s : kstate) (m : Z) : option (Z * option tid) :=
  match ks_objs s !! m with Some (KMutex mx) => Some (m_count mx, m_holder mx) | _ => None end.

(** Nobody is inside the mutex or about to be, and yet it counts as taken, with a
    thread in its queue that no timer will wake. *)
Definition stranded (s : kstate) (T : gmap tid status) (m : Z) (u : tid) : Prop :=
  mutex_state s m = Some (1, None) /\
  wq_list <$> ks_wait_queues s !! WqMutex m = Some [u] /\
  t_state <$> ks_threads s !! u = Some THREAD_BLOCKED /\
  map_Forall (fun _ q => TmStack u ∉ q) (timer_queues s) /\
  map_Forall (fun _ st => m ∉ owned st) T.

#[export] Instance stranded_dec s T m u : Decision (stranded s T m u).
Proof. unfold stranded. apply _. Defined.

(** C37: a mutex can be lost: when a thread that waits with a timeout has timed out
    but not run yet, a release finds nobody to wake, and still leaves the count
    at one; a thread that asks for the free mutex then blocks, without a
    timeout, and stays blocked when the first thread backs out. *)
Theorem mutex_lost_wakeup : exists s T next, reachable true no_driver (Sys s T next) /\ stranded s T 100 2.
Proof.
  destruct (schedule_reaches schedule_lost (fun s T next => bool_decide (stranded s T 100 2)))
    as (s & T & next & Hr & HP); [vm_compute; reflexivity|].
  exists s, T, next. split; [done|]. by apply bool_decide_eq_true in HP.
Qed.
