(* ===== verification/SchedClaims.v ===== *)
(** * The scheduler's and the wait queues' contracts

    The properties of thread.c's operations, each with an example on the state
    of Demo. *)
From S2P Require Import Prelude KState Timer Thread WaitQueue ThreadLife Logic SchedInv TimerInv SchedSpec SchedOps WaitOps Demo.

Section claims.
Context `{KConfig}.

(** C14: [get_top_thread] returns, and takes off its queue, the first thread that
    may run on the cpu of the highest priority queue that has such a thread, and
    clears the queue's bit exactly when it was the last one; when no queue has
    one it returns the idle thread and changes nothing. *)
Theorem get_top_thread_correct X Ho cpu s :
  swf X Ho s -> exists new s', get_top_thread cpu s = Ret new s' /\ picked s cpu new s'.
Proof. intros W. exact (rets_inv _ _ _ (get_top_thread_run cpu s W)). Qed.

(** C13: [thread_resched], called with the lock held by a thread that has given
    up the cpu, never faults: it returns at once when the thread picked is the
    current one and otherwise switches to the thread picked, which is then the
    running thread of this cpu; the invariant of the whole kernel (run queues,
    bitmap, wait queues, timers, cpu ownership) holds again, the preemption
    timer runs exactly if the new thread can be preempted, and no other thread
    changes state. *)
Theorem thread_resched_correct Y s t th :
  kinv ∅ (Some (ks_cpu s)) Y s -> locked s -> currents s !! ks_cpu s = Some t ->
  ks_threads s !! t = Some th -> t_state th <> THREAD_RUNNING ->
  exists new s', resched_to s t new s' /\ kinv ∅ None ({[new]} ∪ Y) s' /\ locked s' /\
    thread_resched s = resched_outcome t new s'.
Proof. exact (thread_resched_run Y s t th). Qed.

(** [thread_yield], [thread_preempt] and [thread_set_priority] fault
    nowhere and have one shape: the current thread goes back to a run queue, the
    scheduler runs with the invariant restored, and the lock is released once
    the thread runs again. *)
Theorem thread_yield_correct t th prio s :
  at_rest t s -> ks_threads s !! t = Some th -> thread_is_idle th = false ->
  yields t s thread_yield /\ yields t s thread_preempt /\ yields t s (thread_set_priority prio).
Proof.
  intros R Ht Hi. split_and!; [by apply thread_yield_run|by apply thread_preempt_run|].
  by eapply thread_set_priority_run.
Qed.

(** [thread_sleep] puts the thread to sleep with its timer set and gives up
    the cpu to another thread, with the invariant; nothing else changes. *)
Theorem thread_sleep_correct t th delay s :
  at_rest t s -> ks_threads s !! t = Some th -> thread_is_idle th = false ->
  exists s1 saved, cpu_view s (ks_cpu s) = Some (t, saved) /\ sleeping t s s1 /\
    blocks t s1 (fun _ => True) (THREAD_UNLOCK saved) (thread_sleep delay s).
Proof. exact (thread_sleep_run t th delay s). Qed.



(** [wait_queue_wake_all] makes every waiting thread ready with the given
    status, leaves the queue empty and returns how many there were. *)
Theorem wait_queue_wake_all_correct t w q err s :
  in_lock ∅ None ∅ t s -> ks_wait_queues s !! w = Some q -> wq_magic q = WAIT_QUEUE_MAGIC ->
  exists s', wait_queue_wake_all w false err s = Ret (Z.of_nat (length (wq_list q))) s' /\
    in_lock ∅ None ∅ t s' /\ woken (wq_list q) w (wq_emptied q) err s s' /\
    forall v, v ∉ wq_list q -> ks_threads s' !! v = ks_threads s !! v.
Proof.
  intros L Hq Hm. destruct (rets_inv _ _ _ (wake_all_run ∅ None ∅ t w q err s L Hq Hm)) as (r & s' & E & -> & ? & ? & ?).
  eauto.
Qed.

(** [thread_unblock_from_wait_queue] takes a blocked thread off the queue it
    waits on, wherever in it the thread is, and makes it ready with the given
    status; for a thread that does not wait it returns [ERR_NOT_BLOCKED]. *)
Theorem thread_unblock_from_wait_queue_correct cur t th err s :
  in_lock ∅ None ∅ cur s -> ks_threads s !! t = Some th -> t_state th <> THREAD_DEATH ->
  if decide (t_state th = THREAD_BLOCKED) then
    exists w q s', t_blocking_wait_queue th = Some w /\ ks_wait_queues s !! w = Some q /\ t ∈ wq_list q /\
      thread_unblock_from_wait_queue t err s = Ret NO_ERROR s' /\ in_lock ∅ None ∅ cur s' /\
      woken [t] w (wq_remove t q) err s s'
  else thread_unblock_from_wait_queue t err s = Ret ERR_NOT_BLOCKED s.
Proof.
  intros L Ht Hd. destruct (decide (t_state th = THREAD_BLOCKED)) as [Hb|Hb]; [|by eapply unblock_not_blocked].
  destruct (unblock_run ∅ None ∅ cur t th err s L Ht) as (w & q & ? & ? & ? & Hr); [set_solver|done|].
  destruct (rets_inv _ _ _ Hr) as (r & s' & E & -> & ? & ? & _). exists w, q, s'. done.
Qed.
End claims.

#[local] Existing Instance demo_config.

Lemma get_top_thread_correct_witness :
  swf ∅ None (demo false) /\
  exists new s', get_top_thread 0 (demo false) = Ret new s' /\ picked (demo false) 0 new s'.
Proof. split; [exact (demo_sched false)|]. exact (get_top_thread_correct ∅ None 0 (demo false) (demo_sched false)). Defined.

Lemma thread_resched_correct_witness :
  exists new s', resched_to demo_asleep 1 new s' /\ kinv ∅ None ({[new]} ∪ ∅) s' /\ locked s' /\
    thread_resched demo_asleep = resched_outcome 1 new s'.
Proof.
  apply (thread_resched_correct ∅ demo_asleep 1 (demo_thread THREAD_SLEEPING 0 0 (-1) None));
    [exact (proj1 demo_asleep_kinv)|exact (proj2 demo_asleep_kinv)|reflexivity|reflexivity|discriminate].
Defined.

Lemma thread_yield_correct_witness :
  yields 1 (demo false) thread_yield /\ yields 1 (demo false) thread_preempt /\
  yields 1 (demo false) (thread_set_priority 20).
Proof.
  apply (thread_yield_correct 1 (demo_thread THREAD_RUNNING 0 0 (-1) None) 20 (demo false));
    [exact demo_at_rest|reflexivity|reflexivity].
Defined.

Lemma thread_sleep_correct_witness :
  exists s1 saved, cpu_view (demo false) 0 = Some (1, saved) /\ sleeping 1 (demo false) s1 /\
    blocks 1 s1 (fun _ => True) (THREAD_UNLOCK saved) (thread_sleep 50 (demo false)).
Proof.
  apply (thread_sleep_correct 1 (demo_thread THREAD_RUNNING 0 0 (-1) None) 50 (demo false));
    [exact demo_at_rest|reflexivity|reflexivity].
Defined.



Lemma wait_queue_wake_all_correct_witness :
  exists s', wait_queue_wake_all (WqMutex 100) false ERR_OBJECT_DESTROYED (demo true) = Ret 1 s' /\
    in_lock ∅ None ∅ 1 s' /\
    woken [3] (WqMutex 100) (wq_emptied (WaitQueue WAIT_QUEUE_MAGIC 1 [3])) ERR_OBJECT_DESTROYED (demo true) s' /\
    forall v, v ∉ [3] -> ks_threads s' !! v = ks_threads (demo true) !! v.
Proof.
  exact (wait_queue_wake_all_correct 1 (WqMutex 100) (WaitQueue WAIT_QUEUE_MAGIC 1 [3]) ERR_OBJECT_DESTROYED
    (demo true) demo_in_lock eq_refl eq_refl).
Defined.

Lemma thread_unblock_from_wait_queue_correct_witness :
  thread_unblock_from_wait_queue 2 ERR_TIMED_OUT (demo true) = Ret ERR_NOT_BLOCKED (demo true) /\
  exists w q s', Some (WqMutex 100) = Some w /\ ks_wait_queues (demo true) !! w = Some q /\ 3 ∈ wq_list q /\
      thread_unblock_from_wait_queue 3 ERR_TIMED_OUT (demo true) = Ret NO_ERROR s' /\ in_lock ∅ None ∅ 1 s' /\
      woken [3] w (wq_remove 3 q) ERR_TIMED_OUT (demo true) s'.
Proof.
  split.
  - apply (thread_unblock_from_wait_queue_correct 1 2 (demo_thread THREAD_READY 0 (-1) (-1) None) ERR_TIMED_OUT
      (demo true) demo_in_lock eq_refl). discriminate.
  - apply (thread_unblock_from_wait_queue_correct 1 3 (demo_thread THREAD_BLOCKED 0 (-1) (-1) (Some (WqMutex 100)))
      ERR_TIMED_OUT (demo true) demo_in_lock eq_refl). discriminate.
Defined.
