(* ===== verification/TimerClaims.v ===== *)
(** * The timers' contracts

    What setting, cancelling and expiring timers does to the queue of the cpu
    and to the hardware timer, each with an example. *)
From stdpp Require Import sorting.
From S2P Require Import Prelude KState Timer Thread WaitQueue ThreadLife Logic SchedInv TimerInv SchedSpec SchedOps WaitOps TimerTick TickOps Demo.

Lemma ahead_deadline now tm :
  deadline (now - 2 ^ 30) tm < 2 ^ 31 ->
  TIME_LT now (tm_scheduled_time tm) = true <-> 2 ^ 30 < deadline (now - 2 ^ 30) tm.
Proof.
  unfold deadline. set (d := tm_scheduled_time tm). replace (d - (now - 2 ^ 30)) with (d - now + 2 ^ 30) by lia.
  rewrite TIME_LT_iff, u32_opp. pose proof (wrap_range 32 (d - now) ltac:(lia)) as Hr.
  assert (u32 (d - now + 2 ^ 30) = (u32 (d - now) + 2 ^ 30) mod 2 ^ 32) as -> by (unfold wrap; by rewrite Zplus_mod_idemp_l).
  destruct (Z.lt_ge_cases (u32 (d - now) + 2 ^ 30) (2 ^ 32)).
  - rewrite Z.mod_small by lia. destruct (Z.eqb_spec (u32 (d - now)) 0); lia.
  - rewrite <- (Z.mod_add _ (-1)), Z.mod_small by lia. destruct (Z.eqb_spec (u32 (d - now)) 0); lia.
Qed.

(** In a queue in order, no timer has expired when the first has not. *)
Lemma in_order_ahead now s i tm :
  queue_in_order now s -> head_ahead now s -> i ∈ own_queue s -> ks_timers s !! i = Some tm ->
  TIME_LT now (tm_scheduled_time tm) = true.
Proof.
  unfold queue_in_order, head_ahead. intros [Hs Hf] Hh Hi Htm. destruct (own_queue s) as [|j q]; [by apply elem_of_nil in Hi|].
  rewrite Forall_forall in Hf. destruct (Hf j) as [[tmj Hj] Hlj]; [by left|]. specialize (Hh j tmj eq_refl Hj).
  assert (forall k x, ks_timers s !! k = Some x -> deadline_of (now - 2 ^ 30) (ks_timers s) k = deadline (now - 2 ^ 30) x) as Hof.
  { intros k x Hk. unfold deadline_of. by rewrite Hk. }
  destruct (Hf i Hi) as [_ Hli]. rewrite (Hof _ _ Hj) in Hlj. rewrite (Hof _ _ Htm) in Hli.
  apply ahead_deadline in Hh; [|done]. apply ahead_deadline; [done|].
  apply elem_of_cons in Hi as [->|Hi]; [by simplify_eq|]. apply StronglySorted_inv in Hs as [_ Hs]. rewrite Forall_forall in Hs.
  specialize (Hs i Hi). rewrite (Hof _ _ Hj), (Hof _ _ Htm) in Hs. lia.
Qed.

Section claims.
Context `{KConfig}.

(** C27: [timer_set], on a timer that is not queued, puts it into the queue of the
    cpu behind the timers that do not expire later and before those that do, in
    time that wraps around; a queue whose timers expire in order, within half the
    range of the clock, stays so; the hardware is set to the delay exactly when
    the timer became the first; and nothing else changes. *)
Theorem timer_set_correct base timer tm delay period cb arg pc s :
  ks_percpu s !! ks_cpu s = Some pc -> ks_timers s !! timer = Some tm -> tm_magic tm = TIMER_MAGIC ->
  timer_queued s timer = false -> in_order base (ks_timers s) (pc_timer_queue pc) ->
  let tm' := Timer TIMER_MAGIC (u32 (ks_now s + delay)) period cb arg in
  deadline base tm' < 2 ^ 31 ->
  exists q1 q2, pc_timer_queue pc = q1 ++ q2 /\
    timer_set timer delay period cb arg s =
      Ret tt (set_ks_trace (if bool_decide (q1 = []) then EvSetOneshotTimer delay :: ks_trace s else ks_trace s)
        (put_cpu (set_pc_timer_queue (q1 ++ timer :: q2) pc) (put_timer timer tm' s))) /\
    in_order base (<[timer := tm']> (ks_timers s)) (q1 ++ timer :: q2) /\
    (forall i, i ∈ q1 -> deadline_of base (ks_timers s) i <= deadline base tm') /\
    (forall i, i ∈ q2 -> deadline base tm' < deadline_of base (ks_timers s) i).
Proof.
  intros Hpc Ht Hm Hnq Ho tm' Hd. pose proof (proj2 Ho) as Hf. rewrite Forall_forall in Hf.
  assert (timer ∉ pc_timer_queue pc) as Hni.
  { rewrite not_timer_queued in Hnq. apply (Hnq (ks_cpu s)). unfold timer_queues. by rewrite lookup_fmap, Hpc. }
  assert (set_timer_fields (ks_now s) delay period cb arg tm = tm') as E.
  { unfold tm'. rewrite <- Hm. by destruct tm. }
  destruct (rets_inv _ _ _ (timer_set_placed timer tm delay period cb arg s pc Hpc Ht Hm Hnq ltac:(intros i Hi; by apply Hf)))
    as ([] & s' & Hr & q1 & q2 & Eq & Hp & ->).
  rewrite E in *. exists q1, q2. rewrite Eq in *. split; [done|]. split.
  { rewrite Hr. unfold arm_oneshot. do 2 f_equal. destruct q1 as [|i q1]; cbn; [by rewrite !bool_decide_true|].
    rewrite !bool_decide_false; [done..|]. intros [= ->]. apply Hni. by left. }
  split; [by apply in_order_placed|].
  assert (in_order base (<[timer := tm']> (ks_timers s)) (q1 ++ q2)) as Ho'.
  { eapply in_order_ext; [|exact Ho]. intros i Hi. apply lookup_insert_ne. by intros ->. }
  assert (forall i, i ∈ q1 ++ q2 -> exists e, (<[timer := tm']> (ks_timers s)) !! i = Some e /\ deadline_of base (ks_timers s) i = deadline base e) as Hof.
  { intros i Hi. destruct (Hf i Hi) as [[e He] _]. exists e. rewrite lookup_insert_ne by (by intros ->). split; [done|].
    unfold deadline_of. by rewrite He. }
  split; intros i Hi; (destruct (Hof i) as (e & He & ->); [set_solver|]); by eapply placed_before.
Qed.

End claims.

#[local] Existing Instance demo_config.

(** In the state of Demo the preemption timer expires in 10 ms: a timer of 5 ms
    goes before it. *)
Lemma timer_set_correct_witness :
  let s := put_timer (TmStack 1) (Timer TIMER_MAGIC 0 0 NullCallback 0) (demo true) in
  let tm' := Timer TIMER_MAGIC 1005 0 ThreadSleepHandler 1 in
  exists q1 q2, [TmPreempt 0] = q1 ++ q2 /\ in_order 1000 (<[TmStack 1 := tm']> (ks_timers s)) (q1 ++ TmStack 1 :: q2) /\
  forall i, i ∈ q2 -> 5 < deadline_of 1000 (ks_timers s) i.
Proof.
  intros s tm'.
  destruct (timer_set_correct 1000 (TmStack 1) (Timer TIMER_MAGIC 0 0 NullCallback 0) 5 0 ThreadSleepHandler 1
    (PerCpu 1 true [TmPreempt 0] (ThreadStats 0 0 0 0 0 0 0 0 0 0)) s) as (q1 & q2 & Eq & _ & Ho & _ & H2).
  1-4: reflexivity.
  - apply (bool_decide_eq_true_1 _). vm_compute. reflexivity.
  - reflexivity.
  - exists q1, q2. split; [exact Eq|]. split; [exact Ho|exact H2].
Defined.

