(* ===== verification/LifeClaims.v ===== *)
(** * The contracts of creating and ending threads

    The properties of the life cycle operations of thread.c, each with an
    example on the state of Demo. *)
From S2P Require Import Prelude KState Timer Thread WaitQueue ThreadLife Logic SchedInv TimerInv SchedSpec SchedOps WaitOps LifeOps Demo.

Section claims.
Context `{KConfig}.

(** [thread_create] gives a new thread, suspended and on no queue, with the
    entry point, argument and priority asked for, the thread local storage of
    its creator and memory to be freed with it, first in the list of threads,
    with the invariant of the kernel; when memory for the structure or for the
    stack runs out it returns NULL with the threads as they were, the structure
    freed again. *)
Theorem thread_create_correct t0 th0 name entry arg priority stack_size s :
  at_rest t0 s -> ks_threads s !! t0 = Some th0 -> 0 <= priority < NUM_PRIORITIES ->
  match ks_allocs s with
  | Some p :: Some stk :: rest => p <> 0 -> stk <> 0 -> addable p s ->
      exists s', thread_create name entry arg priority stack_size s = Unlocked s' (fun s'' => Ret p s'') /\ at_rest t0 s' /\
        created_in p (created name entry arg priority stk stack_size (t_tls th0)) rest s s'
  | Some p :: _ => p <> 0 -> addable p s ->
      exists s', thread_create name entry arg priority stack_size s = Ret 0 s' /\ at_rest t0 s' /\
        ks_threads s' = ks_threads s /\ ks_trace s' = EvFree p :: ks_trace s
  | _ => exists s', thread_create name entry arg priority stack_size s = Ret 0 s' /\ at_rest t0 s' /\
        ks_threads s' = ks_threads s /\ ks_trace s' = ks_trace s
  end.
Proof.
  intros A Ht Hp.
  assert (forall P, rets (thread_create name entry arg priority stack_size) s (fun r s' => r = 0 /\ P s') ->
    exists s', thread_create name entry arg priority stack_size s = Ret 0 s' /\ P s') as Hfail.
  { intros P HP. destruct (rets_inv _ _ _ HP) as (r & s' & E & -> & ?). eauto. }
  destruct (ks_allocs s) as [|[p|] rest] eqn:Ea.
  - apply Hfail. apply thread_create_no_struct; [done|]. rewrite Ea. by left.
  - destruct rest as [|[stk|] rest].
    + intros Hp0 Hadd. eapply Hfail, thread_create_no_stack; [done|done|done|done|by left].
    + intros Hp0 Hs0 Hadd. by eapply thread_create_run.
    + intros Hp0 Hadd. eapply Hfail, thread_create_no_stack; [done|done|done|done|right; by eexists].
  - apply Hfail. apply thread_create_no_struct; [done|]. rewrite Ea. right. by eexists.
Qed.

(** [thread_resume] makes a suspended thread ready, at the head of the run
    queue of its priority, with the invariant, and changes no other thread; the
    caller then yields, unless it had interrupts off. *)
Theorem thread_resume_correct t0 t th s :
  at_rest t0 s -> ks_threads s !! t = Some th -> t_state th = THREAD_SUSPENDED -> resumed t0 t th s (thread_resume t s).
Proof. exact (thread_resume_run t0 t th s). Qed.

(** C34: [thread_exit] ends the thread for good: it is dead, with its return code
    stored, and gives up the cpu to another thread, with the invariant, on no
    queue from which it could run again.  A detached thread is off the list of
    threads, invalidated, and has its memory handed to the delayed free; of any
    other one, all threads that wait in [thread_join] are woken with success. *)
Theorem thread_exit_correct t th retcode s :
  at_rest t s -> ks_threads s !! t = Some th -> thread_is_idle th = false ->
  exits t th retcode s (thread_exit retcode s).
Proof. exact (thread_exit_run t th retcode s). Qed.

End claims.

#[local] Existing Instance demo_config.

(** The state of Demo with one more thread. *)
Definition demo_with (state : thread_state) : kstate := added 4 (demo_thread state 0 (-1) (-1) None) (demo false).

Lemma demo_addable p : p = 4 \/ p = 500 -> addable p (demo false).
Proof. intros [->| ->]; (split; [reflexivity|]); intros q Hq; vm_compute in Hq; discriminate. Qed.

Lemma demo_with_rest state : state = THREAD_SUSPENDED \/ state = THREAD_DEATH -> at_rest 1 (demo_with state).
Proof.
  intros Hs. destruct demo_at_rest as [I Hl Hc]. split; [|done|done].
  apply kinv_added; [done|apply demo_addable; by left| |done|done|done]. intros _. split; [done|]. split; done.
Qed.

Lemma thread_create_correct_witness :
  let s := set_ks_allocs [Some 500; Some 600] (demo false) in
  exists s', thread_create "worker" 7 0 16 4096 s = Unlocked s' (fun s'' => Ret 500 s'') /\ at_rest 1 s' /\
    ks_thread_list s' = 500 :: ks_thread_list s.
Proof.
  intros s. destruct (thread_create_correct 1 (demo_thread THREAD_RUNNING 0 0 (-1) None) "worker" 7 0 16 4096 s) as (s' & E & A & C).
  - destruct demo_at_rest as [I Hl Hc]. split; [|done|done]. by apply (kinv_ext _ _ _ (demo false)).
  - reflexivity.
  - done.
  - done.
  - done.
  - destruct (demo_addable 500) as [H1 H2]; [by right|]. by split.
  - exists s'. split; [exact E|]. split; [exact A|exact (cr_list _ _ _ _ _ C)].
Defined.

Lemma thread_resume_correct_witness :
  resumed 1 4 (demo_thread THREAD_SUSPENDED 0 (-1) (-1) None) (demo_with THREAD_SUSPENDED) (thread_resume 4 (demo_with THREAD_SUSPENDED)).
Proof. apply thread_resume_correct; [apply demo_with_rest; by left|reflexivity|reflexivity]. Defined.

Lemma thread_exit_correct_witness :
  exits 1 (demo_thread THREAD_RUNNING 0 0 (-1) None) 42 (demo false) (thread_exit 42 (demo false)).
Proof. apply thread_exit_correct; [apply demo_at_rest|reflexivity|reflexivity]. Defined.

