(* ===== verification/PortBuf.v ===== *)
(** * Packet buffers of ports ([kernel/port.c])

    The circular buffer of a port, and the bounded first-in first-out queue it
    implements. *)
From S2P Require Import Prelude Align KState.

(** ** The buffer *)
Definition PORT_BUFF_SIZE : Z := 8.
Definition PORT_BUFF_SIZE_BIG : Z := 64.

(** The fields [make_buf] sets; the packets of fresh memory are indeterminate,
    written [[]]. *)
Definition make_buf_fields (big : bool) : port_buf_t :=
  let pk_count := if big then PORT_BUFF_SIZE_BIG else PORT_BUFF_SIZE in
  PortBuf (log2_uint pk_count) pk_count 0 0 (replicate (Z.to_nat pk_count) []).

Definition buf_is_empty (buf : port_buf_t) : bool := pb_avail buf =? valpow2 (pb_log2 buf).

(** [buf->packet[i]], outside the array an invalid access *)
Definition packet_at (buf : port_buf_t) (i : Z) : option (list Z) := pb_packet buf !! Z.to_nat i.
Definition set_packet (buf : port_buf_t) (i : Z) (p : list Z) : option (list (list Z)) :=
  if (Z.to_nat i <? length (pb_packet buf))%nat then Some (<[Z.to_nat i := p]> (pb_packet buf)) else None.

(** The loop of [buf_write]. *)
Fixpoint buf_write_loop (buf : port_buf_t) (packets : list (list Z)) : option port_buf_t :=
  match packets with
  | [] => Some buf
  | p :: packets =>
      ps ← set_packet buf (pb_tail buf) p;
      buf_write_loop (PortBuf (pb_log2 buf) (pb_avail buf) (pb_head buf)
        (modpow2 (u32 (pb_tail buf + 1)) (pb_log2 buf)) ps) packets
  end.

(** Status and buffer after; [None] is an access outside the buffer. *)
Definition buf_write (buf : port_buf_t) (packets : list (list Z)) : option (Z * port_buf_t) :=
  let count := Z.of_nat (length packets) in
  if pb_avail buf <? count then Some (ERR_NOT_ENOUGH_BUFFER, buf)
  else
    buf ← buf_write_loop buf packets;
    Some (NO_ERROR, PortBuf (pb_log2 buf) (u32 (pb_avail buf - count)) (pb_head buf) (pb_tail buf)
                      (pb_packet buf)).

(** Status, the packet read and the buffer after. *)
Definition buf_read (buf : port_buf_t) : option (Z * option (list Z) * port_buf_t) :=
  if buf_is_empty buf then Some (ERR_NO_MSG, None, buf)
  else
    p ← packet_at buf (pb_head buf);
    Some (NO_ERROR, Some p,
      PortBuf (pb_log2 buf) (u32 (pb_avail buf + 1)) (modpow2 (u32 (pb_head buf + 1)) (pb_log2 buf))
        (pb_tail buf) (pb_packet buf)).

(** ** The queue it implements *)

(** The [n] packets from the head on. *)
Definition window (buf : port_buf_t) (n : nat) : list (list Z) :=
  (fun k => pb_packet buf !!! Z.to_nat ((pb_head buf + Z.of_nat k) mod 2 ^ pb_log2 buf)) <$> seq 0 n.

(** How many packets are queued. *)
Definition buf_used (buf : port_buf_t) : Z := 2 ^ pb_log2 buf - pb_avail buf.
Definition contents (buf : port_buf_t) : list (list Z) := window buf (Z.to_nat (buf_used buf)).

(** The shape of a buffer with [n] packets queued, whatever [avail] says. *)
Record buf_shape (buf : port_buf_t) (n : Z) : Prop := {
  bs_log2 : 0 <= pb_log2 buf < 31;
  bs_len : Z.of_nat (length (pb_packet buf)) = 2 ^ pb_log2 buf;
  bs_head : 0 <= pb_head buf < 2 ^ pb_log2 buf;
  bs_tail : pb_tail buf = (pb_head buf + n) mod 2 ^ pb_log2 buf;
  bs_n : 0 <= n <= 2 ^ pb_log2 buf;
}.
Definition buf_wf (buf : port_buf_t) : Prop := buf_shape buf (buf_used buf).

Lemma cap_pos n : 0 <= n -> 0 < 2 ^ n.
Proof. lia. Qed.

Lemma modpow2_succ x n : 0 <= n < 31 -> 0 <= x < 2 ^ n -> modpow2 (u32 (x + 1)) n = (x + 1) mod 2 ^ n.
Proof.
  intros Hn Hx. assert (2 ^ n < 2 ^ 31) by (apply Z.pow_lt_mono_r; lia).
  rewrite (wrap_small 32) by lia. apply modpow2_mod; lia.
Qed.

(** One packet more. *)
Lemma window_push buf n p ps :
  buf_shape buf n -> n < 2 ^ pb_log2 buf -> set_packet buf (pb_tail buf) p = Some ps ->
  let buf' := PortBuf (pb_log2 buf) (pb_avail buf) (pb_head buf)
                (modpow2 (u32 (pb_tail buf + 1)) (pb_log2 buf)) ps in
  buf_shape buf' (n + 1) /\ window buf' (Z.to_nat (n + 1)) = window buf (Z.to_nat n) ++ [p].
Proof.
  intros [Hl Hlen Hh Ht Hn] Hlt Hset buf'. unfold set_packet in Hset.
  case_match; [|done]. simplify_eq. pose proof (cap_pos (pb_log2 buf) ltac:(lia)) as Hc.
  set (cap := 2 ^ pb_log2 buf) in *.
  assert (0 <= pb_tail buf < cap) as Htr by (rewrite Ht; apply Z.mod_pos_bound; lia).
  split.
  - split; cbn; fold cap; [done|by rewrite length_insert|done| |lia].
    rewrite modpow2_succ by (fold cap; lia). fold cap. rewrite Ht.
    rewrite Zplus_mod_idemp_l. f_equal. lia.
  - unfold window. replace (Z.to_nat (n + 1)) with (S (Z.to_nat n)) by lia.
    rewrite seq_S, fmap_app. cbn. fold cap. f_equal.
    + apply list_fmap_ext. intros i k Hik. apply lookup_seq in Hik as [-> Hi]. cbn.
      apply list_lookup_total_insert_ne. rewrite Ht. intros E.
      apply (f_equal Z.of_nat) in E. rewrite !Z2Nat.id in E by (apply Z.mod_pos_bound; lia).
      assert ((n - Z.of_nat i) mod cap = 0) as E'.
      { replace (n - Z.of_nat i) with ((pb_head buf + n) - (pb_head buf + Z.of_nat i)) by lia.
        rewrite Zminus_mod, E, Z.sub_diag. by apply Zmod_0_l. }
      rewrite Z.mod_small in E' by lia. lia.
    + f_equal. replace ((pb_head buf + Z.of_nat (Z.to_nat n)) mod cap) with (pb_tail buf)
        by (rewrite Z2Nat.id by lia; done).
      apply list_lookup_total_insert_eq. lia.
Qed.

Lemma set_packet_tail buf n p :
  buf_shape buf n -> exists ps, set_packet buf (pb_tail buf) p = Some ps.
Proof.
  intros [Hl Hlen Hh Ht Hn]. pose proof (cap_pos (pb_log2 buf) ltac:(lia)).
  unfold set_packet. rewrite (proj2 (Nat.ltb_lt _ _)); [eauto|].
  pose proof (Z.mod_pos_bound (pb_head buf + n) (2 ^ pb_log2 buf)). lia.
Qed.

Lemma buf_write_loop_shape ps buf n :
  buf_shape buf n -> n + Z.of_nat (length ps) <= 2 ^ pb_log2 buf ->
  exists buf', buf_write_loop buf ps = Some buf' /\ buf_shape buf' (n + Z.of_nat (length ps)) /\
    pb_log2 buf' = pb_log2 buf /\ pb_avail buf' = pb_avail buf /\
    window buf' (Z.to_nat (n + Z.of_nat (length ps))) = window buf (Z.to_nat n) ++ ps.
Proof.
  revert buf n. induction ps as [|p ps IH]; intros buf n Sh Hn; cbn [buf_write_loop length] in *.
  { exists buf. rewrite Z.add_0_r, app_nil_r. auto. }
  destruct (set_packet_tail buf n p Sh) as [pk Hpk]. rewrite Hpk. cbn [mbind option_bind].
  destruct (window_push buf n p pk Sh) as [Sh' W]; [lia|done|].
  destruct (IH _ _ Sh') as (buf' & E & S2 & El & Ea & W2); [cbn; lia|].
  exists buf'. rewrite E. replace (n + Z.of_nat (S (length ps))) with (n + 1 + Z.of_nat (length ps)) by lia.
  split_and!; [done..|]. rewrite W2, W, <- app_assoc. done.
Qed.

Lemma window_length buf n : length (window buf n) = n.
Proof. unfold window. by rewrite length_fmap, length_seq. Qed.

Lemma contents_length buf : buf_wf buf -> Z.of_nat (length (contents buf)) = buf_used buf.
Proof. intros [??? ? ?]. unfold contents. rewrite window_length. lia. Qed.

(** One packet less. *)
Lemma window_pop buf n :
  buf_shape buf n -> 0 < n ->
  exists p, packet_at buf (pb_head buf) = Some p /\
    forall av, let buf' := PortBuf (pb_log2 buf) av (modpow2 (u32 (pb_head buf + 1)) (pb_log2 buf))
                 (pb_tail buf) (pb_packet buf) in
      buf_shape buf' (n - 1) /\ window buf (Z.to_nat n) = p :: window buf' (Z.to_nat (n - 1)).
Proof.
  intros [Hl Hlen Hh Ht Hn] Hpos. pose proof (cap_pos (pb_log2 buf) ltac:(lia)) as Hc.
  set (cap := 2 ^ pb_log2 buf) in *.
  destruct (lookup_lt_is_Some_2 (pb_packet buf) (Z.to_nat (pb_head buf))) as [p Hp]; [lia|].
  exists p. split; [done|]. intros av. cbn zeta. rewrite modpow2_succ by (fold cap; lia). fold cap. split.
  - split; cbn; fold cap; [done..| | |lia].
    + apply Z.mod_pos_bound. lia.
    + rewrite Zplus_mod_idemp_l, Ht. f_equal. lia.
  - unfold window. replace (Z.to_nat n) with (S (Z.to_nat (n - 1))) by lia.
    rewrite <- cons_seq, fmap_cons, <- fmap_S_seq, <- list_fmap_compose. fold cap. f_equal.
    + rewrite Z.add_0_r, Z.mod_small by lia. by apply list_lookup_total_correct.
    + apply list_fmap_ext. intros i k _. cbn -[Z.of_nat]. fold cap.
      rewrite Zplus_mod_idemp_l. do 3 f_equal. lia.
Qed.

Lemma buf_write_run buf packets :
  buf_wf buf ->
  exists r buf', buf_write buf packets = Some (r, buf') /\ buf_wf buf' /\ pb_log2 buf' = pb_log2 buf /\
    if Z.of_nat (length (contents buf) + length packets) <=? 2 ^ pb_log2 buf
    then r = NO_ERROR /\ contents buf' = contents buf ++ packets
    else r = ERR_NOT_ENOUGH_BUFFER /\ buf' = buf.
Proof.
  intros Hwf. pose proof (contents_length buf Hwf) as Hlen. unfold buf_write.
  pose proof Hwf as [Hl _ _ _ Hn].
  assert (pb_avail buf = 2 ^ pb_log2 buf - buf_used buf) as Hav by (unfold buf_used; lia).
  destruct (Z.ltb_spec (pb_avail buf) (Z.of_nat (length packets))).
  { rewrite (proj2 (Z.leb_gt _ _)) by lia. eauto 10. }
  rewrite (proj2 (Z.leb_le _ _)) by lia.
  destruct (buf_write_loop_shape packets buf _ Hwf) as (buf' & E & [] & El & Ea & W); [lia|].
  assert (2 ^ pb_log2 buf < 2 ^ 31) by (apply Z.pow_lt_mono_r; lia).
  rewrite E. cbn. eexists _, _. split; [done|]. rewrite Ea, (wrap_small 32) by lia.
  assert (buf_used (PortBuf (pb_log2 buf') (pb_avail buf - Z.of_nat (length packets)) (pb_head buf')
            (pb_tail buf') (pb_packet buf')) = buf_used buf + Z.of_nat (length packets)) as Hu
    by (unfold buf_used; cbn; rewrite El; lia).
  split_and!; [|done|done|].
  - unfold buf_wf. rewrite Hu. by split.
  - unfold contents. rewrite Hu. exact W.
Qed.

(** [buf_write] appends all the packets, in order, to the queue the
    circular buffer holds when they fit, and otherwise returns
    [ERR_NOT_ENOUGH_BUFFER] with the buffer as it was; it accesses nothing
    outside the packet array. *)
Theorem buf_write_refines buf packets :
  buf_wf buf ->
  exists r buf', buf_write buf packets = Some (r, buf') /\ buf_wf buf' /\ pb_log2 buf' = pb_log2 buf /\
    if Z.of_nat (length (contents buf) + length packets) <=? 2 ^ pb_log2 buf
    then r = NO_ERROR /\ contents buf' = contents buf ++ packets
    else r = ERR_NOT_ENOUGH_BUFFER /\ buf' = buf.
Proof. exact (buf_write_run buf packets). Qed.

Definition demo_buf : port_buf_t := PortBuf 1 1 1 0 [[7]; [8]].

Lemma buf_write_refines_witness :
  buf_wf demo_buf /\ exists r buf', buf_write demo_buf [[9]] = Some (r, buf') /\
    contents buf' = contents demo_buf ++ [[9]].
Proof.
  assert (buf_wf demo_buf) as H by (split; vm_compute; intuition congruence). split; [done|].
  destruct (buf_write_refines demo_buf [[9]] H) as (r & b & E & _ & _ & R).
  exists r, b. split; [done|]. apply R.
Defined.

Lemma buf_read_run buf :
  buf_wf buf ->
  match contents buf with
  | [] => buf_read buf = Some (ERR_NO_MSG, None, buf)
  | p :: rest => exists buf', buf_read buf = Some (NO_ERROR, Some p, buf') /\ buf_wf buf' /\
                   pb_log2 buf' = pb_log2 buf /\ contents buf' = rest
  end.
Proof.
  intros Hwf. pose proof (contents_length buf Hwf) as Hlen. pose proof Hwf as [Hl _ _ _ Hn].
  assert (2 ^ pb_log2 buf < 2 ^ 31) by (apply Z.pow_lt_mono_r; lia).
  unfold buf_read, buf_is_empty. rewrite valpow2_small by lia.
  assert (pb_avail buf = 2 ^ pb_log2 buf - buf_used buf) as Hav by (unfold buf_used; lia).
  destruct (Z.eqb_spec (pb_avail buf) (2 ^ pb_log2 buf)) as [E|E].
  { destruct (contents buf); [done|]. cbn in Hlen. lia. }
  destruct (window_pop buf _ Hwf) as (p & Hp & Hpop); [lia|].
  rewrite (wrap_small 32) by lia.
  destruct (Hpop (pb_avail buf + 1)) as [Hs W]. fold (contents buf) in W. rewrite W, Hp. cbn.
  eexists. split; [done|].
  assert (buf_used (PortBuf (pb_log2 buf) (pb_avail buf + 1) (modpow2 (u32 (pb_head buf + 1)) (pb_log2 buf))
            (pb_tail buf) (pb_packet buf)) = buf_used buf - 1) as Hu by (unfold buf_used; cbn; lia).
  split_and!; [|done|]; [unfold buf_wf; by rewrite Hu|unfold contents; by rewrite Hu].
Qed.

(** [buf_read] takes the oldest packet of the queue, and returns
    [ERR_NO_MSG] exactly when the queue is empty; it accesses nothing outside
    the packet array. *)
Theorem buf_read_refines buf :
  buf_wf buf ->
  match contents buf with
  | [] => buf_read buf = Some (ERR_NO_MSG, None, buf)
  | p :: rest => exists buf', buf_read buf = Some (NO_ERROR, Some p, buf') /\ buf_wf buf' /\
                   pb_log2 buf' = pb_log2 buf /\ contents buf' = rest
  end.
Proof. exact (buf_read_run buf). Qed.

Lemma buf_read_refines_witness :
  contents demo_buf = [[8]] /\
  exists buf', buf_read demo_buf = Some (NO_ERROR, Some [8], buf') /\ contents buf' = [].
Proof.
  split; [done|].
  assert (buf_wf demo_buf) as H by (split; vm_compute; intuition congruence).
  destruct (buf_read_refines demo_buf H) as (b & E & _ & _ & C). eauto.
Defined.

(** A buffer as [make_buf] makes it is an empty queue. *)
Lemma make_buf_wf big : buf_wf (make_buf_fields big) /\ contents (make_buf_fields big) = [].
Proof. by destruct big; split; [split; vm_compute; intuition congruence| |split; vm_compute; intuition congruence|]. Qed.
