(* ===== verification/Port.v ===== *)
(** * Ports: the code of [kernel/port.c] above the packet buffers

    Named write ports, the read ports opened on them and groups of read ports.
    A handle ([port_t]) is an untyped address whose first word tells the kind of
    object; [rp_list], the list of the read ports of a write port or of a group,
    is kept as the list of their addresses. *)
From S2P Require Import Prelude Align KState Timer Thread WaitQueue PortBuf.

Definition WRITEPORT_MAGIC_W : Z := 0x70727477.
Definition WRITEPORT_MAGIC_X : Z := 0x70727478.
Definition READPORT_MAGIC : Z := 0x70727472.
Definition PORTGROUP_MAGIC : Z := 0x70727467.
Definition PORTHOLD_MAGIC : Z := 0x70727467.
Definition MAX_PORT_GROUP_COUNT : Z := 256.
Definition PORT_NAME_LEN : nat := 12.
Definition PORT_MODE_BROADCAST : Z := 0.
Definition PORT_MODE_UNICAST : Z := 1.
Definition PORT_MODE_BIG_BUFFER : Z := 2.

(** [port_result_t] *)
Record port_result := PortResult { pr_ctx : Z; pr_packet : list Z }.

(** ** Field access *)
Definition get_buf (a : Z) : K port_buf_t :=
  o ← get_obj a; match o with KPortBuf b => mret b | _ => kfault BadDeref end.
Definition get_wp (a : Z) : K write_port_t :=
  o ← get_obj a; match o with KWritePort wp => mret wp | _ => kfault BadDeref end.
Definition get_rp (a : Z) : K read_port_t :=
  o ← get_obj a; match o with KReadPort rp => mret rp | _ => kfault BadDeref end.
Definition get_pg (a : Z) : K port_group_t :=
  o ← get_obj a; match o with KPortGroup pg => mret pg | _ => kfault BadDeref end.

Definition set_wp_magic (a v : Z) : K unit :=
  wp ← get_wp a;
  kmod (put_obj a (KWritePort (WritePort v (wp_buf wp) (wp_rp_list wp) (wp_mode wp) (wp_name wp)))).
Definition set_wp_buf (a v : Z) : K unit :=
  wp ← get_wp a;
  kmod (put_obj a (KWritePort (WritePort (wp_magic wp) v (wp_rp_list wp) (wp_mode wp) (wp_name wp)))).
Definition set_wp_rp_list (a : Z) (v : list Z) : K unit :=
  wp ← get_wp a;
  kmod (put_obj a (KWritePort (WritePort (wp_magic wp) (wp_buf wp) v (wp_mode wp) (wp_name wp)))).
Definition set_rp_magic (a v : Z) : K unit :=
  rp ← get_rp a;
  kmod (put_obj a (KReadPort (ReadPort v (rp_buf rp) (rp_ctx rp) (rp_wport rp) (rp_gport rp)))).
Definition set_rp_buf (a v : Z) : K unit :=
  rp ← get_rp a;
  kmod (put_obj a (KReadPort (ReadPort (rp_magic rp) v (rp_ctx rp) (rp_wport rp) (rp_gport rp)))).
Definition set_rp_wport (a v : Z) : K unit :=
  rp ← get_rp a;
  kmod (put_obj a (KReadPort (ReadPort (rp_magic rp) (rp_buf rp) (rp_ctx rp) v (rp_gport rp)))).
Definition set_rp_gport (a v : Z) : K unit :=
  rp ← get_rp a;
  kmod (put_obj a (KReadPort (ReadPort (rp_magic rp) (rp_buf rp) (rp_ctx rp) (rp_wport rp) v))).
Definition set_pg_magic (a v : Z) : K unit :=
  pg ← get_pg a; kmod (put_obj a (KPortGroup (PortGroup v (pg_rp_list pg)))).
Definition set_pg_rp_list (a : Z) (v : list Z) : K unit :=
  pg ← get_pg a; kmod (put_obj a (KPortGroup (PortGroup (pg_magic pg) v))).

(** The first word of whatever object a handle points to. *)
Definition handle_magic (a : Z) : K Z :=
  o ← get_obj a;
  mret match o with
       | KMutex m => m_magic m | KEvent e => e_magic e | KSem s => sem_magic s
       | KPortBuf b => pb_log2 b | KWritePort wp => wp_magic wp
       | KReadPort rp => rp_magic rp | KPortGroup pg => pg_magic pg
       end.

(** [free] of a port object or buffer: it and the wait queue in it are gone. *)
Definition port_free (a : Z) : K unit :=
  if a =? 0 then kdone
  else
    get_obj a;;
    kmod (fun s => set_ks_objs (delete a (ks_objs s))
      (set_ks_wait_queues (delete (WqReadPort a) (delete (WqPortGroup a) (ks_wait_queues s))) s));;
    emit (EvFree a).

(** ** Buffers by pointer *)
Definition make_buf (big : bool) : K Z :=
  buf ← malloc;
  if buf =? 0 then mret 0
  else kmod (put_obj buf (KPortBuf (make_buf_fields big)));; mret buf.

Definition buf_write_at (a : Z) (packets : list (list Z)) : K Z :=
  b ← get_buf a;
  match buf_write b packets with
  | Some (r, b') => kmod (put_obj a (KPortBuf b'));; mret r
  | None => kfault BadIndex
  end.

Definition buf_read_at (a : Z) (pr : port_result) : K (Z * port_result) :=
  b ← get_buf a;
  match buf_read b with
  | Some (r, pk, b') =>
      kmod (put_obj a (KPortBuf b'));;
      mret (r, match pk with Some p => PortResult (pr_ctx pr) p | None => pr end)
  | None => kfault BadIndex
  end.

Definition port_init : K unit := kmod (set_ks_write_port_list []).

(** The write port list searched by name; [skip_held] is the extra condition of
    [port_open]. *)
Fixpoint find_port (l : list Z) (name : string) (skip_held : bool) : K (option Z) :=
  match l with
  | [] => mret None
  | wp :: l =>
      w ← get_wp wp;
      if String.eqb (wp_name w) name && negb (skip_held && (wp_magic w =? PORTHOLD_MAGIC))
      then mret (Some wp) else find_port l name skip_held
  end.

Definition port_name (name : string) : string := String.substring 0 (PORT_NAME_LEN - 1) name.
Definition write_port_list_add_tail (wp : Z) : K unit :=
  kmod (fun s => set_ks_write_port_list (ks_write_port_list s ++ [wp]) s).
(** [list_delete] of a node that is on no list goes through a NULL pointer. *)
Definition write_port_list_delete (wp : Z) : K unit :=
  s ← kget;
  if bool_decide (wp ∈ ks_write_port_list s)
  then kmod (set_ks_write_port_list (remove_elt wp (ks_write_port_list s)))
  else kfault BadDeref.

(** The address of [stack_wp], a local variable of the running thread, and its
    end at the return. *)
Definition stack_wp_addr (t : tid) : Z := - 2 ^ 20 - t.
Definition stack_wp_end (a : Z) : K unit :=
  kmod (fun s => set_ks_objs (delete a (ks_objs s)) s).

Section port.
Context `{KConfig}.

Definition drop_placeholder (stack_wp : Z) : K unit :=
  state ← THREAD_LOCK;
  write_port_list_delete stack_wp;;
  THREAD_UNLOCK state;;
  stack_wp_end stack_wp.

(** Returns the status and what is stored through [port]; [name] is [None] for
    a NULL name and [port_nonnull] false for a NULL [port]. *)
Definition port_create (name : option string) (mode : Z) (port_nonnull : bool) : K (Z * option Z) :=
  match name with
  | None => mret (ERR_INVALID_ARGS, None)
  | Some name =>
    if negb port_nonnull then mret (ERR_INVALID_ARGS, None)
    else if has_flag mode PORT_MODE_BROADCAST && has_flag mode PORT_MODE_BIG_BUFFER
    then mret (ERR_INVALID_ARGS, None)
    else if (PORT_NAME_LEN <=? String.length name)%nat then mret (ERR_INVALID_ARGS, None)
    else
      (* add a stack-allocated port to the list until we can replace it *)
      cur ← get_current_thread;
      let stack_wp := stack_wp_addr cur in
      kmod (put_obj stack_wp (KWritePort (WritePort PORTHOLD_MAGIC 0 [] 0 (port_name name))));;
      state1 ← THREAD_LOCK;
      s ← kget;
      found ← find_port (ks_write_port_list s) name false;
      match found with
      | Some wp =>
          w ← get_wp wp;
          THREAD_UNLOCK state1;;
          stack_wp_end stack_wp;;
          (* can't return closed or partial ports *)
          if (wp_magic w =? WRITEPORT_MAGIC_X) || (wp_magic w =? PORTHOLD_MAGIC)
          then mret (ERR_BUSY, None)
          else mret (ERR_ALREADY_EXISTS, Some wp)
      | None =>
          write_port_list_add_tail stack_wp;;
          THREAD_UNLOCK state1;;
          (* not found, create the write port and the circular buffer *)
          wp ← malloc;
          if wp =? 0 then drop_placeholder stack_wp;; mret (ERR_NO_MEMORY, None)
          else
            kmod (put_obj wp (KWritePort (WritePort WRITEPORT_MAGIC_W 0 [] mode (port_name name))));;
            buf ← make_buf (has_flag mode PORT_MODE_BIG_BUFFER);
            set_wp_buf wp buf;;
            if buf =? 0 then
              port_free wp;; drop_placeholder stack_wp;; mret (ERR_NO_MEMORY, None)
            else
              (* swap the placeholder out of the list for the actual port *)
              state2 ← THREAD_LOCK;
              write_port_list_add_tail wp;;
              write_port_list_delete stack_wp;;
              THREAD_UNLOCK state2;;
              stack_wp_end stack_wp;;
              mret (NO_ERROR, Some wp)
      end
  end.

(** The association of a fresh read port with the write port found; returns the
    status and what is left in the local [buf]. *)
Definition port_attach (rp wp buf : Z) : K (Z * Z) :=
  set_rp_wport rp wp;;
  w ← get_wp wp;
  if negb (wp_buf w =? 0) then
    (* this is the first read port; transfer the circular buffer *)
    set_wp_rp_list wp (wp_rp_list w ++ [rp]);;
    set_rp_buf rp (wp_buf w);;
    set_wp_buf wp 0;;
    mret (NO_ERROR, buf)
  else if negb (buf =? 0) then
    if has_flag (wp_mode w) PORT_MODE_UNICAST then mret (ERR_NOT_ALLOWED, buf)
    else
      set_wp_rp_list wp (wp_rp_list w ++ [rp]);;
      set_rp_buf rp buf;;
      mret (NO_ERROR, 0)
  else mret (ERR_NO_MEMORY, buf).

Definition port_open (name : option string) (ctx : Z) (port_nonnull : bool) : K (Z * option Z) :=
  match name with
  | None => mret (ERR_INVALID_ARGS, None)
  | Some name =>
    if negb port_nonnull then mret (ERR_INVALID_ARGS, None)
    else
      (* assume success; create the read port and buffer now *)
      rp ← malloc;
      if rp =? 0 then mret (ERR_NO_MEMORY, None)
      else
        kmod (put_obj rp (KReadPort (ReadPort READPORT_MAGIC 0 ctx 0 0)));;
        wait_queue_init (WqReadPort rp);;
        buf ← make_buf false;
        if buf =? 0 then port_free rp;; mret (ERR_NO_MEMORY, None)
        else
          (* find the named write port and associate it with read port *)
          state ← THREAD_LOCK;
          s ← kget;
          found ← find_port (ks_write_port_list s) name true;
          '(rc, buf) ← match found with
                       | Some wp => port_attach rp wp buf
                       | None => mret (ERR_NOT_FOUND, buf)
                       end;
          THREAD_UNLOCK state;;
          port_free buf;;
          if rc =? NO_ERROR then mret (NO_ERROR, Some rp)
          else port_free rp;; mret (rc, None)
  end.

(** ** Groups *)
Fixpoint clear_gports (ports : list Z) : K unit :=
  match ports with
  | [] => kdone
  | rp :: ports => set_rp_gport rp 0;; clear_gports ports
  end.

(** The linking loop; [done] are the ports linked so far. *)
Fixpoint port_group_loop (pg : Z) (done ports : list Z) : K Z :=
  match ports with
  | [] => mret NO_ERROR
  | rp :: ports =>
      magic ← handle_magic rp;
      bad ← (if negb (magic =? READPORT_MAGIC) then mret true
             else r ← get_rp rp; mret (negb (rp_gport r =? 0)));
      if bad : bool then
        (* undo the changes to the previous read ports *)
        clear_gports done;; mret ERR_BAD_HANDLE
      else
        set_rp_gport rp pg;;
        g ← get_pg pg;
        set_pg_rp_list pg (pg_rp_list g ++ [rp]);;
        port_group_loop pg (done ++ [rp]) ports
  end.

(** [ports] is [None] for NULL; its length is [count] otherwise. *)
Definition port_group (ports : option (list Z)) (count : Z) (group_nonnull : bool)
  : K (Z * option Z) :=
  if MAX_PORT_GROUP_COUNT <? count then mret (ERR_TOO_BIG, None)
  else if negb (count =? 0) && bool_decide (ports = None) then mret (ERR_INVALID_ARGS, None)
  else if negb group_nonnull then mret (ERR_INVALID_ARGS, None)
  else
    pg ← malloc;
    if pg =? 0 then mret (ERR_NO_MEMORY, None)
    else
      kmod (put_obj pg (KPortGroup (PortGroup PORTGROUP_MAGIC [])));;
      wait_queue_init (WqPortGroup pg);;
      state ← THREAD_LOCK;
      rc ← port_group_loop pg [] (take (Z.to_nat count) (default [] ports));
      THREAD_UNLOCK state;;
      if rc =? NO_ERROR then mret (NO_ERROR, Some pg)
      else port_free pg;; mret (rc, None).

Definition port_group_add (group port : Z) : K Z :=
  if (port =? 0) || (group =? 0) then mret ERR_INVALID_ARGS
  else
    gmagic ← handle_magic group;
    if negb (gmagic =? PORTGROUP_MAGIC) then mret ERR_INVALID_ARGS
    else
      pmagic ← handle_magic port;
      bad ← (if negb (pmagic =? READPORT_MAGIC) then mret true
             else r ← get_rp port; mret (negb (rp_gport r =? 0)));
      if bad : bool then mret ERR_BAD_HANDLE
      else
        state ← THREAD_LOCK;
        g ← get_pg group;
        rc ← (if Z.of_nat (length (pg_rp_list g)) =? MAX_PORT_GROUP_COUNT then mret ERR_TOO_BIG
              else
                set_rp_gport port group;;
                set_pg_rp_list group (pg_rp_list g ++ [port]);;
                (* if the new read port has messages, try to wake a reader *)
                r ← get_rp port; b ← get_buf (rp_buf r);
                kwhen (negb (buf_is_empty b))
                  (wait_queue_wake_one (WqPortGroup group) false NO_ERROR;; kdone);;
                mret NO_ERROR);
        THREAD_UNLOCK state;;
        mret rc.

(** [list_delete(&rp->g_node)] where the node is on the list of [pg], if any *)
Definition g_node_delete (pg rp : Z) : K unit :=
  g ← get_pg pg;
  if bool_decide (rp ∈ pg_rp_list g) then set_pg_rp_list pg (remove_elt rp (pg_rp_list g))
  else kfault BadDeref.
(** [list_delete(&rp->w_node)] *)
Definition w_node_delete (wp rp : Z) : K unit :=
  w ← get_wp wp;
  if bool_decide (rp ∈ wp_rp_list w) then set_wp_rp_list wp (remove_elt rp (wp_rp_list w))
  else kfault BadDeref.

Definition port_group_remove (group port : Z) : K Z :=
  if (port =? 0) || (group =? 0) then mret ERR_INVALID_ARGS
  else
    gmagic ← handle_magic group;
    if negb (gmagic =? PORTGROUP_MAGIC) then mret ERR_INVALID_ARGS
    else
      pmagic ← handle_magic port;
      bad ← (if negb (pmagic =? READPORT_MAGIC) then mret true
             else r ← get_rp port; mret (negb (rp_gport r =? group)));
      if bad : bool then mret ERR_BAD_HANDLE
      else
        state ← THREAD_LOCK;
        g ← get_pg group;
        if negb (bool_decide (port ∈ pg_rp_list g)) then
          THREAD_UNLOCK state;; mret ERR_BAD_HANDLE
        else
          g_node_delete group port;;
          THREAD_UNLOCK state;;
          mret NO_ERROR.

(** ** Writing and reading *)

(** The loop over the read ports: write, and wake a thread of the group or else
    of the read port. *)
Fixpoint port_write_loop (rps : list Z) (pk : list (list Z)) (status awake_count : Z)
  : K (Z * Z) :=
  match rps with
  | [] => mret (status, awake_count)
  | rp :: rps =>
      r ← get_rp rp;
      st ← buf_write_at (rp_buf r) pk;
      if st <? 0 then port_write_loop rps pk ERR_PARTIAL_WRITE awake_count  (* buffer full *)
      else
        awaken ← (if negb (rp_gport r =? 0)
                  then wait_queue_wake_one (WqPortGroup (rp_gport r)) false NO_ERROR else mret 0);
        awaken ← (if awaken =? 0
                  then wait_queue_wake_one (WqReadPort rp) false NO_ERROR else mret awaken);
        port_write_loop rps pk status (awake_count + awaken)
  end.

Definition port_write (port : Z) (pk : option (list (list Z))) : K Z :=
  match pk with
  | None => mret ERR_INVALID_ARGS
  | Some pk =>
    if port =? 0 then mret ERR_INVALID_ARGS
    else
      state ← THREAD_LOCK;
      magic ← handle_magic port;
      if negb (magic =? WRITEPORT_MAGIC_W) then THREAD_UNLOCK state;; mret ERR_BAD_HANDLE
      else
        w ← get_wp port;
        '(status, awake_count) ←
          (if negb (wp_buf w =? 0) then
             (* there are no read ports, just write to the buffer *)
             st ← buf_write_at (wp_buf w) pk; mret (st, 0)
           else port_write_loop (wp_rp_list w) pk NO_ERROR 0);
        THREAD_UNLOCK state;;
        kwhen (negb (awake_count =? 0)) thread_yield;;
        mret status
  end.

(** Each round but the last blocks the thread once, so the number of rounds is
    decided by the other threads: [fuel] bounds it. *)
Fixpoint read_no_lock (fuel : nat) (rp timeout : Z) (result : port_result) : K (Z * port_result) :=
  match fuel with
  | O => kfault OutOfFuel
  | S fuel =>
      r ← get_rp rp;
      '(status, result) ← buf_read_at (rp_buf r) result;
      let result := PortResult (rp_ctx r) (pr_packet result) in
      if negb (status =? ERR_NO_MSG) then mret (status, result)
      else if timeout =? 0 then mret (ERR_TIMED_OUT, result)
      else
        wr ← wait_queue_block (WqReadPort rp) timeout;
        if negb (wr =? NO_ERROR) then mret (wr, result)
        else read_no_lock fuel rp timeout result
  end.

(** One pass over the ports of a group without blocking: [None] when no port
    had a packet. *)
Fixpoint group_scan (rps : list Z) (result : port_result)
  : K (option Z * port_result) :=
  match rps with
  | [] => mret (None, result)
  | rp :: rps =>
      '(rc, result) ← read_no_lock 1 rp 0 result;
      if negb (rc =? ERR_TIMED_OUT) then mret (Some rc, result)
      else group_scan rps result
  end.

Fixpoint group_read (fuel : nat) (pg timeout : Z) (result : port_result) : K (Z * port_result) :=
  match fuel with
  | O => kfault OutOfFuel
  | S fuel =>
      g ← get_pg pg;
      '(rc, result) ← group_scan (pg_rp_list g) result;
      match rc with
      | Some rc => mret (rc, result)
      | None =>
          (* no data, block on the group waitqueue *)
          rc ← wait_queue_block (WqPortGroup pg) timeout;
          if rc =? NO_ERROR then group_read fuel pg timeout result else mret (rc, result)
      end
  end.

Definition port_read (fuel : nat) (port timeout : Z) (result : option port_result)
  : K (Z * option port_result) :=
  match result with
  | None => mret (ERR_INVALID_ARGS, None)
  | Some result =>
    if port =? 0 then mret (ERR_INVALID_ARGS, Some result)
    else
      state ← THREAD_LOCK;
      magic ← handle_magic port;
      '(rc, result) ←
        (if magic =? READPORT_MAGIC then read_no_lock fuel port timeout result
         else if magic =? PORTGROUP_MAGIC then group_read fuel port timeout result
         else mret (ERR_BAD_HANDLE, result));
      THREAD_UNLOCK state;;
      mret (rc, Some result)
  end.

(** ** Destroying and closing *)
Fixpoint detach_readers (rps : list Z) : K unit :=
  match rps with
  | [] => kdone
  | rp :: rps =>
      (* wake the read and group ports *)
      wait_queue_wake_all (WqReadPort rp) false ERR_CANCELLED;;
      r ← get_rp rp;
      kwhen (negb (rp_gport r =? 0))
        (wait_queue_wake_all (WqPortGroup (rp_gport r)) false ERR_CANCELLED;; kdone);;
      (* remove self from reader ports *)
      set_rp_wport rp 0;;
      detach_readers rps
  end.

Definition port_destroy (port : Z) : K Z :=
  if port =? 0 then mret ERR_INVALID_ARGS
  else
    state ← THREAD_LOCK;
    magic ← handle_magic port;
    if negb (magic =? WRITEPORT_MAGIC_X) then THREAD_UNLOCK state;; mret ERR_BAD_HANDLE
    else
      (* remove self from global named ports list *)
      write_port_list_delete port;;
      w ← get_wp port;
      kwhen (wp_buf w =? 0) (detach_readers (wp_rp_list w));;
      set_wp_magic port 0;;
      THREAD_UNLOCK state;;
      port_free (wp_buf w);;
      port_free port;;
      mret NO_ERROR.

(** What closing a read port does before the unlock; returns the local [buf]. *)
Definition close_read_port (rp : Z) : K Z :=
  r ← get_rp rp;
  buf ← (if negb (rp_wport r =? 0) then
           (* remove self from write port list and reassign the buffer if last *)
           w_node_delete (rp_wport r) rp;;
           w ← get_wp (rp_wport r);
           if bool_decide (wp_rp_list w = []) then
             set_wp_buf (rp_wport r) (rp_buf r);;
             set_rp_buf rp 0;;
             mret 0
           else mret (rp_buf r)
         else mret 0);
  kwhen (negb (rp_gport r =? 0)) (g_node_delete (rp_gport r) rp);;
  (* wake up waiters, the return code is ERR_OBJECT_DESTROYED *)
  wait_queue_destroy (WqReadPort rp) true;;
  set_rp_magic rp 0;;
  mret buf.

Definition close_group (pg : Z) : K Z :=
  wait_queue_destroy (WqPortGroup pg) true;;
  (* remove self from reader ports *)
  g ← get_pg pg;
  clear_gports (pg_rp_list g);;
  set_pg_magic pg 0;;
  mret 0.

Definition port_close (port : Z) : K Z :=
  if port =? 0 then mret ERR_INVALID_ARGS
  else
    state ← THREAD_LOCK;
    magic ← handle_magic port;
    if (magic =? READPORT_MAGIC) || (magic =? PORTGROUP_MAGIC) then
      buf ← (if magic =? READPORT_MAGIC then close_read_port port else close_group port);
      THREAD_UNLOCK state;;
      port_free buf;;
      port_free port;;
      mret NO_ERROR
    else if magic =? WRITEPORT_MAGIC_W then
      (* mark it as closed: now it can be read but not written to *)
      set_wp_magic port WRITEPORT_MAGIC_X;;
      THREAD_UNLOCK state;;
      mret NO_ERROR
    else
      THREAD_UNLOCK state;;
      mret ERR_BAD_HANDLE.
End port.
