(* ===== verification/PortOps.v ===== *)
(** * Writing to and reading from ports

    [port_write] appends its packets to the queue of every read port that has
    room for them all; [port_read] takes the oldest packet. *)
From S2P Require Import Prelude Align KState Timer Thread WaitQueue ThreadLife Logic SchedInv TimerInv SchedSpec SchedOps WaitOps LifeOps Demo PortBuf Port.

(** A read port [rp] with the fields [r], its buffer [b] and its wait queues. *)
Record reader_at (s : kstate) (rp : Z) (r : read_port_t) (b : port_buf_t) : Prop := {
  ra_port : ks_objs s !! rp = Some (KReadPort r);
  ra_buf : ks_objs s !! rp_buf r = Some (KPortBuf b);
  ra_wf : buf_wf b;
  ra_queue : has_queue s (WqReadPort rp);
  ra_group : rp_gport r <> 0 -> has_queue s (WqPortGroup (rp_gport r));
}.

(** Room for all the packets. *)
Definition room (packets : list (list Z)) (b : port_buf_t) : bool :=
  Z.of_nat (length (contents b) + length packets) <=? 2 ^ pb_log2 b.
Definition delivered (packets : list (list Z)) (b b' : port_buf_t) : Prop :=
  buf_wf b' /\ pb_log2 b' = pb_log2 b /\ contents b' = if room packets b then contents b ++ packets else contents b.

(** What a wake up leaves alone, for a port. *)
Record port_frame (s s' : kstate) : Prop := {
  pf_cpu : ks_cpu s' = ks_cpu s;
  pf_queues : forall w, has_queue s w -> has_queue s' w;
  pf_list : ks_write_port_list s' = ks_write_port_list s;
}.
#[export] Instance port_frame_preorder : PreOrder port_frame.
Proof. split; [done|]. intros s1 s2 s3 [] []. split; [congruence|auto|congruence]. Qed.

Section ops.
Context `{KConfig}.

Lemma wake_one_any t w err s :
  in_lock ∅ None ∅ t s -> has_queue s w ->
  rets (wait_queue_wake_one w false err) s (fun r s' => (r = 0 \/ r = 1) /\ in_lock ∅ None ∅ t s' /\
    port_frame s s' /\ ks_objs s' = ks_objs s).
Proof.
  intros L (q & Hq & Hm). destruct (wq_list q) as [|u rest] eqn:El.
  - eapply rets_eq; [by eapply wake_one_empty|]. split_and!; try done. by left.
  - eapply rets_mono; [by eapply wake_one_run|]. intros r s' (-> & L' & K). pose proof (wk_frame _ _ _ _ _ _ K) as F.
    split_and!; [by right|done| |apply F]. split; [apply F| |apply F]. intros w' (q' & Hq' & Hm'). unfold has_queue.
    rewrite (wk_wait_queues _ _ _ _ _ _ K). destruct (decide (w' = w)) as [->|]; [rewrite lookup_insert_eq|rewrite lookup_insert_ne by done].
    + assert (q' = q) as -> by congruence. by eexists.
    + by exists q'.
Qed.

Lemma buf_write_at_run a b packets s :
  ks_objs s !! a = Some (KPortBuf b) -> buf_wf b ->
  rets (buf_write_at a packets) s (fun r s' => r = (if room packets b then NO_ERROR else ERR_NOT_ENOUGH_BUFFER) /\
    exists b', s' = put_obj a (KPortBuf b') s /\ delivered packets b b').
Proof.
  intros Ha Hwf. destruct (buf_write_run b packets Hwf) as (r & b' & E & Hwf' & El & Hc). unfold buf_write_at, get_buf.
  kstep. kstep. unfold rets at 1, get_obj. rewrite Ha. cbn. unfold rets. cbn. rewrite E. cbn. unfold delivered. fold (room packets b) in Hc.
  destruct (room packets b); destruct Hc as [-> Hc]; (split; [done|]); exists b'; (split_and!; try done). by subst.
Qed.
Lemma in_lock_put_obj X Ho Y t a o s : in_lock X Ho Y t s -> in_lock X Ho Y t (put_obj a o s).
Proof. intros L. by apply (in_lock_ext _ _ _ _ s); [| |apply L|]. Qed.

Lemma rets_get_rp a r s (P : read_port_t -> kstate -> Prop) :
  ks_objs s !! a = Some (KReadPort r) -> P r s -> rets (get_rp a) s P.
Proof. intros Ha HP. unfold get_rp, rets, mbind, K_bind, get_obj. rewrite Ha. done. Qed.

Lemma room_neg packets b : ((if room packets b then NO_ERROR else ERR_NOT_ENOUGH_BUFFER) <? 0) = negb (room packets b).
Proof. by destruct (room packets b). Qed.

Lemma rets_assoc {A B C} (m : K A) (f : A -> K B) (g : B -> K C) s P :
  rets (m ≫= f) s (fun b s' => rets (g b) s' P) -> rets (a ← m; b ← f a; g b) s P.
Proof. unfold rets, mbind, K_bind. destruct (m s) as [a s1| | |]; try done. cbn. by destruct (f a s1). Qed.

(** The wake up of one thread of the group, or else of the read port. *)
Lemma wake_reader_run t rp r s :
  in_lock ∅ None ∅ t s -> has_queue s (WqReadPort rp) -> (rp_gport r <> 0 -> has_queue s (WqPortGroup (rp_gport r))) ->
  rets (awaken ← (if negb (rp_gport r =? 0) then wait_queue_wake_one (WqPortGroup (rp_gport r)) false NO_ERROR else mret 0);
        if awaken =? 0 then wait_queue_wake_one (WqReadPort rp) false NO_ERROR else mret awaken) s (fun n s' =>
    (n = 0 \/ n = 1) /\ in_lock ∅ None ∅ t s' /\ port_frame s s' /\ ks_objs s' = ks_objs s).
Proof.
  intros L Hq Hg. apply rets_bind.
  apply (rets_mono _ _ (fun n s' => (n = 0 \/ n = 1) /\ in_lock ∅ None ∅ t s' /\ port_frame s s' /\ ks_objs s' = ks_objs s)).
  - destruct (Z.eqb_spec (rp_gport r) 0); cbn [negb]; [|by apply wake_one_any; auto]. kstep. split_and!; try done. by left.
  - intros n s1 (Hn & L1 & F1 & E1). destruct (Z.eqb_spec n 0) as [->|].
    + eapply rets_mono; [apply wake_one_any; [done|by apply (pf_queues _ _ F1)]|].
      intros m s2 (? & ? & F2 & E2). split_and!; [done|done|by etransitivity|congruence].
    + kstep. done.
Qed.

(** The readers of a write port: their buffers are their own. *)
Definition readers : Type := list (Z * read_port_t * port_buf_t).
Definition readers_at (s : kstate) (rs : readers) : Prop :=
  (forall rp r b, (rp, r, b) ∈ rs -> reader_at s rp r b) /\ NoDup ((fun '(_, r, _) => rp_buf r) <$> rs).

Lemma readers_at_step s s' rp r b b' rs :
  readers_at s ((rp, r, b) :: rs) -> port_frame s s' -> ks_objs s' = <[rp_buf r := KPortBuf b']> (ks_objs s) ->
  readers_at s' rs.
Proof.
  intros [Hr Hnd] F E. rewrite fmap_cons in Hnd. apply NoDup_cons in Hnd as [Hni Hnd]. split; [|done].
  intros rp2 r2 b2 Hin. destruct (Hr rp2 r2 b2) as [Hp Hb Hwf Hq Hg]; [by right|].
  destruct (Hr rp r b) as [_ Hb1 _ _ _]; [by left|]. split; try done.
  - rewrite E, lookup_insert_ne; [done|]. intros E2. rewrite E2 in Hb1. congruence.
  - rewrite E, lookup_insert_ne; [done|]. intros E2. apply Hni. apply list_elem_of_fmap. by exists (rp2, r2, b2).
  - by apply (pf_queues _ _ F).
  - intros Hne. by apply (pf_queues _ _ F), Hg.
Qed.

(** What the loop of [port_write] leaves, from [s] and with [n] threads woken so far. *)
Definition written (t : tid) (packets : list (list Z)) (rs : readers) (status n : Z) (s : kstate) (res : Z * Z) (s' : kstate) : Prop :=
  in_lock ∅ None ∅ t s' /\ port_frame s s' /\
  res.1 = (if forallb (fun '(_, _, b) => room packets b) rs then status else ERR_PARTIAL_WRITE) /\
  n <= res.2 <= n + Z.of_nat (length rs) /\
  (forall rp r b, (rp, r, b) ∈ rs -> exists b', ks_objs s' !! rp_buf r = Some (KPortBuf b') /\ delivered packets b b') /\
  (forall a, (forall rp r b, (rp, r, b) ∈ rs -> a <> rp_buf r) -> ks_objs s' !! a = ks_objs s !! a).

Lemma written_cons t packets rp r b b' rs status status' n n' s s2 res s' :
  readers_at s ((rp, r, b) :: rs) -> port_frame s s2 -> ks_objs s2 = <[rp_buf r := KPortBuf b']> (ks_objs s) ->
  delivered packets b b' -> status' = (if room packets b then status else ERR_PARTIAL_WRITE) -> n <= n' <= n + 1 ->
  written t packets rs status' n' s2 res s' -> written t packets ((rp, r, b) :: rs) status n s res s'.
Proof.
  intros [Hr Hnd] F2 E2 Hd -> Hn (L & F & Es & Hn' & Hin & Hout). rewrite fmap_cons in Hnd. apply NoDup_cons in Hnd as [Hni _].
  assert (forall rp2 r2 b2, (rp2, r2, b2) ∈ rs -> rp_buf r <> rp_buf r2) as Hne.
  { intros rp2 r2 b2 Hx E. apply Hni, list_elem_of_fmap. by exists (rp2, r2, b2). }
  split; [done|]. split; [by etransitivity|]. split.
  { rewrite Es. cbn. destruct (room packets b); [done|]. by destruct (forallb _ rs). }
  split; [cbn [length]; lia|]. split.
  - intros rp2 r2 b2 [[= -> -> ->]|Hx]%elem_of_cons; [|by eapply Hin]. exists b'. split; [|done].
    rewrite Hout by done. by rewrite E2, lookup_insert_eq.
  - intros a Ha. rewrite Hout by (intros rp2 r2 b2 Hx; apply (Ha rp2 r2 b2); by right). rewrite E2. apply lookup_insert_ne.
    intros <-. by apply (Ha rp r b); [left|].
Qed.

Lemma port_write_loop_run t packets rs status n s :
  in_lock ∅ None ∅ t s -> readers_at s rs ->
  rets (port_write_loop ((fun '(rp, _, _) => rp) <$> rs) packets status n) s (written t packets rs status n s).
Proof.
  revert status n s. induction rs as [|[[rp r] b] rs IH]; intros status n s L Hrs.
  { apply rets_ret. split_and!; try done; cbn; try lia. intros rp r b []%elem_of_nil. }
  pose proof Hrs as [Hr Hnd]. destruct (Hr rp r b) as [Hp Hb Hwf Hq Hg]; [by left|].
  rewrite fmap_cons. cbn [port_write_loop]. kstep. eapply rets_get_rp; [done|]. kstep.
  eapply rets_mono; [by apply buf_write_at_run|]. intros st s1 (-> & b' & -> & Hd). rewrite room_neg.
  set (s1 := put_obj (rp_buf r) (KPortBuf b') s).
  assert (in_lock ∅ None ∅ t s1) as L1 by (by apply in_lock_put_obj).
  assert (port_frame s s1) as F1 by done.
  destruct (room packets b) eqn:Er; cbn [negb].
  - apply rets_assoc. eapply rets_mono; [by apply (wake_reader_run t rp r s1)|].
    intros m s2 (Hm & L2 & F2 & E2). eapply rets_mono.
    { apply IH; [done|]. eapply readers_at_step; [done| |exact E2]. by transitivity s1. }
    intros res s'. eapply written_cons; [done|by transitivity s1|exact E2|done|by rewrite Er|lia].
  - eapply rets_mono; [apply IH; [done|by eapply readers_at_step]|].
    intros res s'. eapply written_cons; [done|exact F1|reflexivity|done|by rewrite Er|lia].
Qed.

Lemma has_queue_view s s' w : kview s' = kview s -> has_queue s w -> has_queue s' w.
Proof. unfold kview, has_queue. intros [= _ _ _ E _ _ _]. by rewrite E. Qed.

Lemma readers_at_view s s' rs : kview s' = kview s -> ks_objs s' = ks_objs s -> readers_at s rs -> readers_at s' rs.
Proof.
  intros V E [Hr Hnd]. split; [|done]. intros rp r b Hx. destruct (Hr rp r b Hx) as [Hp Hb Hwf Hq Hg].
  split; [by rewrite E|by rewrite E|done|by eapply has_queue_view|]. intros Hne. by eapply has_queue_view, Hg.
Qed.

(** The write, up to the release of the lock. *)
Lemma port_write_start t port w packets s :
  at_rest t s -> port <> 0 -> ks_objs s !! port = Some (KWritePort w) -> wp_magic w = WRITEPORT_MAGIC_W ->
  exists saved s1, in_lock ∅ None ∅ t s1 /\ frame s s1 /\ kview s1 = kview s /\
    port_write port (Some packets) s =
      ('(status, awake_count) ←
          (if negb (wp_buf w =? 0) then st ← buf_write_at (wp_buf w) packets; mret (st, 0)
           else port_write_loop (wp_rp_list w) packets NO_ERROR 0);
        THREAD_UNLOCK saved;; kwhen (negb (awake_count =? 0)) thread_yield;; mret status) s1.
Proof.
  intros A Hp Hw Hm. destruct (rets_inv _ _ _ (THREAD_LOCK_run t s A)) as (saved & s1 & El & L1 & F1 & V1 & _).
  exists saved, s1. split_and!; [done..|]. assert (ks_objs s1 !! port = Some (KWritePort w)) as Hw1 by (by rewrite (fr_objs _ _ F1)).
  unfold port_write. rewrite (proj2 (Z.eqb_neq _ _) Hp). unfold mbind at 1, K_bind at 1. rewrite El. cbn [obind].
  unfold mbind at 1, K_bind at 1, handle_magic, mbind at 1, K_bind at 1, get_obj at 1. rewrite Hw1. cbn [obind mret K_ret].
  rewrite Hm. cbn [Z.eqb negb]. change (WRITEPORT_MAGIC_W =? WRITEPORT_MAGIC_W) with true. cbn [negb].
  unfold mbind at 1, K_bind at 1, get_wp, mbind at 1, K_bind at 1, get_obj at 1. rewrite Hw1. cbn [obind mret K_ret].
  reflexivity.
Qed.

(** A write port has its readers [rs], or, while there are none, the buffer [b]. *)
Definition port_ready (s : kstate) (w : write_port_t) (rs : readers) (b : port_buf_t) : Prop :=
  if wp_buf w =? 0 then wp_rp_list w = ((fun '(rp, _, _) => rp) <$> rs) /\ readers_at s rs
  else ks_objs s !! wp_buf w = Some (KPortBuf b) /\ buf_wf b.


Lemma port_read_start t port r fuel timeout result s :
  at_rest t s -> port <> 0 -> ks_objs s !! port = Some (KReadPort r) -> rp_magic r = READPORT_MAGIC ->
  exists saved s1, in_lock ∅ None ∅ t s1 /\ frame s s1 /\ kview s1 = kview s /\
    port_read fuel port timeout (Some result) s =
      obind (read_no_lock fuel port timeout result s1) (fun '(rc, result) => THREAD_UNLOCK saved;; mret (rc, Some result)).
Proof.
  intros A Hp Hr Hm. destruct (rets_inv _ _ _ (THREAD_LOCK_run t s A)) as (saved & s1 & El & L1 & F1 & V1 & _).
  exists saved, s1. split_and!; [done..|]. assert (ks_objs s1 !! port = Some (KReadPort r)) as Hr1 by (by rewrite (fr_objs _ _ F1)).
  unfold port_read. rewrite (proj2 (Z.eqb_neq _ _) Hp). unfold mbind at 1, K_bind at 1. rewrite El. cbn [obind].
  unfold mbind at 1, K_bind at 1, handle_magic, mbind at 1, K_bind at 1, get_obj at 1. rewrite Hr1. cbn [obind mret K_ret].
  rewrite Hm. change (READPORT_MAGIC =? READPORT_MAGIC) with true. reflexivity.
Qed.

Lemma buf_read_at_run a b result s :
  ks_objs s !! a = Some (KPortBuf b) -> buf_wf b ->
  match contents b with
  | [] => buf_read_at a result s = Ret (ERR_NO_MSG, result) (put_obj a (KPortBuf b) s)
  | p :: rest => exists b', buf_read_at a result s = Ret (NO_ERROR, PortResult (pr_ctx result) p) (put_obj a (KPortBuf b') s) /\
      buf_wf b' /\ contents b' = rest
  end.
Proof.
  intros Ha Hwf. pose proof (buf_read_run b Hwf) as Hb. unfold buf_read_at, get_buf, mbind, K_bind, get_obj. rewrite Ha. cbn.
  destruct (contents b) as [|p rest]; [by rewrite Hb|]. destruct Hb as (b' & -> & ? & _ & ?). by exists b'.
Qed.

Lemma read_no_lock_run port r b fuel timeout result s :
  ks_objs s !! port = Some (KReadPort r) -> ks_objs s !! rp_buf r = Some (KPortBuf b) -> buf_wf b ->
  match contents b with
  | p :: rest => exists b', read_no_lock (S fuel) port timeout result s =
        Ret (NO_ERROR, PortResult (rp_ctx r) p) (put_obj (rp_buf r) (KPortBuf b') s) /\ buf_wf b' /\ contents b' = rest
  | [] => let result' := PortResult (rp_ctx r) (pr_packet result) in
      read_no_lock (S fuel) port timeout result s =
      if timeout =? 0 then Ret (ERR_TIMED_OUT, result') s
      else obind (wait_queue_block (WqReadPort port) timeout s)
        (fun wr => if negb (wr =? NO_ERROR) then mret (wr, result') else read_no_lock fuel port timeout result')
  end.
Proof.
  intros Hr Hb Hwf.
  assert (forall f : read_port_t -> K (Z * port_result), (x ← get_rp port; f x) s = f r s) as Eg.
  { intros f. unfold get_rp, mbind, K_bind, get_obj. by rewrite Hr. }
  assert (put_obj (rp_buf r) (KPortBuf b) s = s) as Eid.
  { unfold put_obj. rewrite insert_id by done. by destruct s. }
  pose proof (fun res => buf_read_at_run (rp_buf r) b res s Hb Hwf) as Hread. destruct (contents b) as [|p rest]; cbn [read_no_lock].
  - cbv zeta. rewrite Eg. unfold mbind at 1, K_bind at 1. rewrite Hread, Eid. cbn. by destruct (timeout =? 0).
  - destruct (Hread result) as (b' & E & ? & ?). exists b'. split; [|done]. rewrite Eg. unfold mbind at 1, K_bind at 1. by rewrite E.
Qed.

(** C33: [port_read] of a read port with packets queued returns the oldest of them,
    with the context the port was opened with, and takes it off the queue.  When
    none is queued it returns [ERR_TIMED_OUT] for a zero timeout and changes
    nothing; otherwise it waits on the port, giving up the cpu with the
    invariant. *)
Theorem port_read_correct t th port r b fuel timeout result s :
  at_rest t s -> ks_threads s !! t = Some th -> thread_is_idle th = false ->
  port <> 0 -> rp_magic r = READPORT_MAGIC -> reader_at s port r b ->
  match contents b with
  | p :: rest => exists s' b',
      port_read (S fuel) port timeout (Some result) s =
        Unlocked s' (fun s'' => Ret (NO_ERROR, Some (PortResult (rp_ctx r) p)) s'') /\ at_rest t s' /\
      ks_objs s' = <[rp_buf r := KPortBuf b']> (ks_objs s) /\ buf_wf b' /\ contents b' = rest
  | [] => if timeout =? 0 then exists s',
        port_read (S fuel) port timeout (Some result) s =
          Unlocked s' (fun s'' => Ret (ERR_TIMED_OUT, Some (PortResult (rp_ctx r) (pr_packet result))) s'') /\ at_rest t s' /\
        ks_objs s' = ks_objs s
      else exists s1 new s' k, new <> t /\ kview s1 = kview s /\ ks_objs s' = ks_objs s /\
        in_lock ∅ None {[new]} new s' /\ waiting t (WqReadPort port) timeout s1 s' /\
        port_read (S fuel) port timeout (Some result) s = Switch t new s' k
  end.
Proof.
  intros A Ht Hi Hp Hm [Hr Hb Hwf Hq _].
  destruct (port_read_start t port r (S fuel) timeout result s A Hp Hr Hm) as (saved & s1 & L1 & F1 & V1 & ->).
  pose proof (fr_objs _ _ F1) as Eo. rewrite <- Eo in Hr, Hb.
  pose proof (read_no_lock_run port r b fuel timeout result s1 Hr Hb Hwf) as Hread.
  destruct (contents b) as [|p rest]; cbv zeta in Hread.
  - rewrite Hread. destruct (Z.eqb_spec timeout 0) as [_|Hne]; cbn [obind].
    + destruct (THREAD_UNLOCK_run t s1 saved L1) as (s2 & E2 & A2 & F2 & _). exists s2.
      split_and!; [|done|by rewrite (fr_objs _ _ F2)]. unfold mbind, K_bind. by rewrite E2.
    + apply (has_queue_view s s1) in Hq as (q & Hq & Hqm); [|done]. rewrite <- (kview_threads _ _ V1) in Ht.
      destruct (wait_queue_block_run t th (WqReadPort port) q timeout s1 L1 Ht Hi Hq Hqm Hne) as (new & s' & Hn & L' & Hw & ->).
      exists s1, new, s'. cbn [obind]. eexists. split_and!; try done. by rewrite (fr_objs _ _ (wt_frame _ _ _ _ _ Hw)).
  - destruct Hread as (b' & -> & Hwf' & Hc). cbn [obind].
    destruct (THREAD_UNLOCK_run t (put_obj (rp_buf r) (KPortBuf b') s1) saved) as (s2 & E2 & A2 & F2 & _); [by apply in_lock_put_obj|].
    exists s2, b'. split_and!; try done; [unfold mbind, K_bind; by rewrite E2|]. by rewrite (fr_objs _ _ F2), <- Eo.
Qed.
End ops.

#[local] Existing Instance demo_config.

(** The state of Demo with the write port 10 and its reader 11. *)
Definition demo_reader : read_port_t := ReadPort READPORT_MAGIC 12 77 10 0.
Definition demo_port (b : port_buf_t) : kstate :=
  put_wq (WqReadPort 11) WAIT_QUEUE_INITIAL_VALUE
    (set_ks_objs (<[10 := KWritePort (WritePort WRITEPORT_MAGIC_W 0 [11] 0 "p")]> (<[11 := KReadPort demo_reader]> (<[12 := KPortBuf b]> ∅)))
      (demo false)).

Lemma demo_port_rest b : at_rest 1 (demo_port b).
Proof.
  destruct demo_at_rest as [[W T P R] Hl Hc]. split; [|done|done]. split; [|done|done|].
  - unfold swf. apply sched_wq_init; [exact W|]. intros q Hq. vm_compute in Hq. discriminate.
  - intros u Hu. destruct (R u Hu) as (q & Hq & Hm). exists q. split; [|done]. unfold demo_port. kcbn. by rewrite lookup_insert_ne.
Qed.

Lemma demo_port_reader b : buf_wf b -> reader_at (demo_port b) 11 demo_reader b.
Proof. intros Hb. split; [reflexivity|reflexivity|done|by eexists|done]. Qed.

Lemma demo_buf_wf : buf_wf demo_buf.
Proof. split; vm_compute; intuition congruence. Qed.


Lemma port_read_correct_witness : exists s' b',
  port_read 1 11 0 (Some (PortResult 0 [])) (demo_port demo_buf) =
    Unlocked s' (fun s'' => Ret (NO_ERROR, Some (PortResult 77 [8])) s'') /\ contents b' = [].
Proof.
  destruct (port_read_correct 1 (demo_thread THREAD_RUNNING 0 0 (-1) None) 11 demo_reader demo_buf 0 0 (PortResult 0 [])
    (demo_port demo_buf)) as (s' & b' & E & _ & _ & _ & Hc).
  - apply demo_port_rest.
  - reflexivity.
  - reflexivity.
  - done.
  - reflexivity.
  - apply demo_port_reader, demo_buf_wf.
  - exists s', b'. split; [exact E|exact Hc].
Defined.

(** The same ports with the reader in the group 13. *)
Definition demo_group : kstate :=
  put_wq (WqPortGroup 13) WAIT_QUEUE_INITIAL_VALUE
    (put_obj 13 (KPortGroup (PortGroup PORTGROUP_MAGIC [11]))
      (put_obj 11 (KReadPort (ReadPort READPORT_MAGIC 12 77 10 13)) (demo_port demo_buf))).

(** What an operation comes to when nothing else runs whenever it drops the lock. *)
Fixpoint alone {A} (o : outcome A) : outcome A :=
  match o with Unlocked s k => alone (k s) | o => o end.

(** [port_group_remove] unlinks the read port and leaves its [gport] set, so that
    closing the port unlinks the cleared node a second time. *)
Theorem group_remove_then_close :
  exists s r, alone (port_group_remove 13 11 demo_group) = Ret NO_ERROR s /\
    ks_objs s !! 11 = Some (KReadPort r) /\ rp_gport r = 13 /\
    ks_objs s !! 13 = Some (KPortGroup (PortGroup PORTGROUP_MAGIC [])) /\
    alone (port_close 11 s) = Fault BadDeref.
Proof.
  eexists _, _. split; [vm_compute; reflexivity|]. split_and!; vm_compute; reflexivity.
Qed.
