(* ===== verification/Pmm.v ===== *)
(** * Physical memory: the code of [kernel/vm/pmm.c] and [kernel/vm/bootalloc.c]

    Memory arenas with their page arrays and free lists, and the allocation of
    pages out of them.  A [vm_page_t *] is its address; the page structures of
    an arena are an array at [page_array], of which the model keeps the flags.
    The operations hold the pmm mutex from end to end, so each is one step on
    the arenas; [None] is a failed assertion or an access through a pointer to
    no page. *)
From S2P Require Import Prelude Align.

Definition VM_PAGE_FLAG_NONFREE : Z := 1.
Definition PMM_ARENA_FLAG_KMAP : Z := 1.
(** [sizeof(vm_page_t)]: a list node of two pointers and a 32-bit word *)
Definition sizeof_vm_page : Z := 24.

Record pmm_arena := Arena {
  ar_flags : Z;
  ar_priority : Z;
  ar_base : Z;
  ar_size : Z;
  ar_free_count : Z;
  ar_page_array : Z;
  ar_pages : list Z;      (* the flags of page_array[i] *)
  ar_free_list : list Z;
}.

Definition set_ar_free_list (fl : list Z) (a : pmm_arena) : pmm_arena :=
  Arena (ar_flags a) (ar_priority a) (ar_base a) (ar_size a) (ar_free_count a) (ar_page_array a)
    (ar_pages a) fl.
Definition set_ar_free_count (n : Z) (a : pmm_arena) : pmm_arena :=
  Arena (ar_flags a) (ar_priority a) (ar_base a) (ar_size a) n (ar_page_array a)
    (ar_pages a) (ar_free_list a).
Definition set_ar_pages (ps : list Z) (a : pmm_arena) : pmm_arena :=
  Arena (ar_flags a) (ar_priority a) (ar_base a) (ar_size a) (ar_free_count a) (ar_page_array a)
    ps (ar_free_list a).

Definition oguard (b : bool) : option unit := if b then Some () else None.

(** [&a->page_array[index]], and the index of a page pointer *)
Definition page_ptr (a : pmm_arena) (index : Z) : Z := ar_page_array a + sizeof_vm_page * index.
Definition page_index (a : pmm_arena) (page : Z) : Z := (page - ar_page_array a) / sizeof_vm_page.

Definition PAGE_BELONGS_TO_ARENA (page : Z) (a : pmm_arena) : bool :=
  (ar_page_array a <=? page) &&
  (page <? ar_page_array a + ar_size a / PAGE_SIZE * sizeof_vm_page).
Definition PAGE_ADDRESS_FROM_ARENA (page : Z) (a : pmm_arena) : Z :=
  u64 (page_index a page * PAGE_SIZE + ar_base a).
Definition ADDRESS_IN_ARENA (address : Z) (a : pmm_arena) : bool :=
  (ar_base a <=? address) && (address <=? u64 (ar_base a + ar_size a - 1)).

Definition page_is_free (flags : Z) : bool := negb (has_flag flags VM_PAGE_FLAG_NONFREE).

(** The flags behind a pointer to a page of the arena, and their update. *)
Definition page_flags (a : pmm_arena) (page : Z) : option Z :=
  let i := page_index a page in
  oguard ((0 <=? i) && (page_ptr a i =? page));; ar_pages a !! Z.to_nat i.
Definition set_page_flags (a : pmm_arena) (page flags : Z) : pmm_arena :=
  set_ar_pages (<[Z.to_nat (page_index a page) := flags]> (ar_pages a)) a.

(** ** Addresses *)
Fixpoint vm_page_to_paddr (arenas : list pmm_arena) (page : Z) : Z :=
  match arenas with
  | [] => u64 (-1)
  | a :: arenas => if PAGE_BELONGS_TO_ARENA page a then PAGE_ADDRESS_FROM_ARENA page a
                   else vm_page_to_paddr arenas page
  end.

(** 0 is NULL. *)
Fixpoint paddr_to_vm_page (arenas : list pmm_arena) (addr : Z) : Z :=
  match arenas with
  | [] => 0
  | a :: arenas => if ADDRESS_IN_ARENA addr a then page_ptr a ((addr - ar_base a) / PAGE_SIZE)
                   else paddr_to_vm_page arenas addr
  end.

(** ** Boot time *)

(** The pointer and the new [boot_alloc_end]. *)
Definition boot_alloc_mem (boot_alloc_end len : Z) : Z * Z :=
  let ptr := ALIGN boot_alloc_end 8 in (ptr, u64 (ptr + ALIGN len 8)).

(** The walk of the arena list in priority order. *)
Fixpoint insert_arena (arena : pmm_arena) (arenas : list pmm_arena) : list pmm_arena :=
  match arenas with
  | [] => [arena]
  | a :: arenas' => if ar_priority arena <? ar_priority a then arena :: arenas
                    else a :: insert_arena arena arenas'
  end.

(** The arenas and the new [boot_alloc_end]. *)
Definition pmm_add_arena (arenas : list pmm_arena) (boot_alloc_end : Z) (arena : pmm_arena)
  : option (list pmm_arena * Z) :=
  oguard (IS_PAGE_ALIGNED (ar_base arena));;
  oguard (IS_PAGE_ALIGNED (ar_size arena));;
  oguard (0 <? ar_size arena);;
  let page_count := ar_size arena / PAGE_SIZE in
  let '(page_array, boot_alloc_end) :=
    boot_alloc_mem boot_alloc_end (u64 (page_count * sizeof_vm_page)) in
  (* all pages zeroed and added to the free list *)
  let arena := Arena (ar_flags arena) (ar_priority arena) (ar_base arena) (ar_size arena)
    page_count page_array (replicate (Z.to_nat page_count) 0)
    ((fun i => page_array + sizeof_vm_page * Z.of_nat i) <$> seq 0 (Z.to_nat page_count)) in
  Some (insert_arena arena arenas, boot_alloc_end).

(** ** Allocation of any pages *)

(** The inner loop, with [todo] the value of [count - allocated]: what is left
    to allocate, the arena, the list, and whether [goto done] was taken. *)
Fixpoint alloc_from_arena (todo : nat) (a : pmm_arena) (list : list Z)
  : option (nat * pmm_arena * _ * bool) :=
  match todo with
  | O => Some (O, a, list, false)
  | S todo' =>
      if 0 <? ar_free_count a then
        match ar_free_list a with
        | [] => Some (todo, a, list, true)
        | page :: rest =>
            let a := set_ar_free_count (ar_free_count a - 1) (set_ar_free_list rest a) in
            flags ← page_flags a page;
            alloc_from_arena todo' (set_page_flags a page (Z.lor flags VM_PAGE_FLAG_NONFREE))
              (list ++ [page])
        end
      else Some (todo, a, list, false)
  end.

Fixpoint alloc_pages_walk (todo : nat) (arenas : list pmm_arena) (list : list Z)
  : option (nat * _ * _) :=
  match arenas with
  | [] => Some (todo, [], list)
  | a :: arenas' =>
      '(todo, a, list, done) ← alloc_from_arena todo a list;
      if done : bool then Some (todo, a :: arenas', list)
      else
        '(todo, arenas', list) ← alloc_pages_walk todo arenas' list;
        Some (todo, a :: arenas', list)
  end.

(** The number of pages allocated, the arenas and the list they were added to. *)
Definition pmm_alloc_pages (arenas : list pmm_arena) (count : Z) (list : list Z)
  : option (Z * _ * _) :=
  if count =? 0 then Some (0, arenas, list)
  else
    '(todo, arenas, list) ← alloc_pages_walk (Z.to_nat count) arenas list;
    Some (count - Z.of_nat todo, arenas, list).

(** 0 is NULL. *)
Definition pmm_alloc_page (arenas : list pmm_arena) : option (Z * list pmm_arena) :=
  '(ret, arenas, list) ← pmm_alloc_pages arenas 1 [];
  if ret =? 0 then Some (0, arenas)
  else
    oguard (ret =? 1);;
    Some (default 0 (head list), arenas).

(** ** Allocation of given pages *)

(** What the allocation of a specific free page does to its arena. *)
Definition take_page (a : pmm_arena) (page : Z) : option pmm_arena :=
  flags ← page_flags a page;
  oguard (bool_decide (page ∈ ar_free_list a));;
  Some (set_ar_free_count (ar_free_count a - 1)
    (set_page_flags (set_ar_free_list (remove_elt page (ar_free_list a)) a) page
      (Z.lor flags VM_PAGE_FLAG_NONFREE))).

Fixpoint range_in_arena (todo : nat) (a : pmm_arena) (address : Z) (list : list Z)
  : option (nat * pmm_arena * Z * _) :=
  match todo with
  | O => Some (O, a, address, list)
  | S todo' =>
      if ADDRESS_IN_ARENA address a then
        let index := (address - ar_base a) / PAGE_SIZE in
        oguard (index <? ar_size a / PAGE_SIZE);;
        let page := page_ptr a index in
        flags ← page_flags a page;
        if has_flag flags VM_PAGE_FLAG_NONFREE then Some (todo, a, address, list)
        else
          a ← take_page a page;
          range_in_arena todo' a (u64 (address + PAGE_SIZE)) (list ++ [page])
      else Some (todo, a, address, list)
  end.

Fixpoint alloc_range_walk (todo : nat) (arenas : list pmm_arena) (address : Z) (list : list Z)
  : option (nat * _ * _) :=
  match arenas with
  | [] => Some (todo, [], list)
  | a :: arenas' =>
      '(todo, a, address, list) ← range_in_arena todo a address list;
      if (todo =? 0)%nat then Some (todo, a :: arenas', list)
      else
        '(todo, arenas', list) ← alloc_range_walk todo arenas' address list;
        Some (todo, a :: arenas', list)
  end.

Definition pmm_alloc_range (arenas : list pmm_arena) (address count : Z) (list : list Z)
  : option (Z * _ * _) :=
  if count =? 0 then Some (0, arenas, list)
  else
    '(todo, arenas, list) ←
      alloc_range_walk (Z.to_nat count) arenas (ROUNDDOWN address PAGE_SIZE) list;
    Some (count - Z.of_nat todo, arenas, list).

(** ** Freeing *)

(** The search for the arena of one page; [None] when no arena has it or it is
    not allocated. *)
Fixpoint free_one (arenas : list pmm_arena) (page : Z) : option (list pmm_arena) :=
  match arenas with
  | [] => None
  | a :: arenas' =>
      if PAGE_BELONGS_TO_ARENA page a then
        flags ← page_flags a page;
        oguard (has_flag flags VM_PAGE_FLAG_NONFREE);;
        Some (set_ar_free_count (ar_free_count a + 1)
          (set_ar_free_list (page :: ar_free_list a)
            (set_page_flags a page (clear_flag flags VM_PAGE_FLAG_NONFREE))) :: arenas')
      else
        arenas' ← free_one arenas' page; Some (a :: arenas')
  end.

(** The number of pages freed; the list is left empty. *)
Fixpoint pmm_free (arenas : list pmm_arena) (list : list Z) : option (Z * _) :=
  match list with
  | [] => Some (0, arenas)
  | page :: list =>
      arenas ← free_one arenas page;
      '(count, arenas) ← pmm_free arenas list;
      Some (count + 1, arenas)
  end.

Definition pmm_free_page (arenas : list pmm_arena) (page : Z) : option (Z * list pmm_arena) :=
  pmm_free arenas [page].

(** ** Contiguous runs *)

(** The inner loop of the search: the [i] at which the run is broken. *)
Fixpoint run_broken (flags : list Z) (count : nat) (i : Z) : option (option Z) :=
  match count with
  | O => Some None
  | S count =>
      match flags with
      | [] => None
      | f :: flags => if has_flag f VM_PAGE_FLAG_NONFREE then Some (Some i)
                      else run_broken flags count (i + 1)
      end
  end.

(** The search from [start] on; [None] inside is no run in this arena. *)
Fixpoint find_run (fuel : nat) (a : pmm_arena) (count alignment_log2 aligned_offset start : Z)
  : option (option Z) :=
  if (start <? ar_size a / PAGE_SIZE) && (u32 (start + count) <=? ar_size a / PAGE_SIZE) then
    match fuel with
    | O => None
    | S fuel =>
        broken ← run_broken (drop (Z.to_nat start) (ar_pages a)) (Z.to_nat count) 0;
        match broken with
        | Some i =>
            find_run fuel a count alignment_log2 aligned_offset
              (u32 (ROUNDUP (u32 (start - aligned_offset + i + 1))
                      (2 ^ (alignment_log2 - PAGE_SIZE_SHIFT)) + aligned_offset))
        | None => Some (Some start)
        end
    end
  else Some None.

(** The pages from [start] taken out of the free list, in order. *)
Fixpoint take_run (count : nat) (a : pmm_arena) (i : Z) (pages : list Z) : option (pmm_arena * _) :=
  match count with
  | O => Some (a, pages)
  | S count =>
      let p := page_ptr a i in
      flags ← page_flags a p;
      oguard (page_is_free flags);;
      a ← take_page a p;
      take_run count a (i + 1) (pages ++ [p])
  end.

(** One arena: the arena after, the pages and the address of the run found. *)
Definition contiguous_in_arena (a : pmm_arena) (count alignment_log2 : Z)
  : option (option (pmm_arena * list Z * Z)) :=
  if has_flag (ar_flags a) PMM_ARENA_FLAG_KMAP then
    oguard (alignment_log2 <? 64);;
    let rounded_base := ROUNDUP (ar_base a) (2 ^ alignment_log2) in
    if (rounded_base <? ar_base a) || (u64 (ar_base a + ar_size a - 1) <? rounded_base)
    then Some None
    else
      let aligned_offset := u32 ((rounded_base - ar_base a) / PAGE_SIZE) in
      run ← find_run (S (Z.to_nat (ar_size a / PAGE_SIZE))) a count alignment_log2
              aligned_offset aligned_offset;
      match run with
      | None => Some None
      | Some start =>
          '(a', pages) ← take_run (Z.to_nat count) a start [];
          Some (Some (a', pages, u64 (ar_base a + start * PAGE_SIZE)))
      end
  else Some None.

Fixpoint contiguous_walk (arenas : list pmm_arena) (count alignment_log2 : Z)
  : option (option (_ * list Z * Z)) :=
  match arenas with
  | [] => Some None
  | a :: arenas' =>
      r ← contiguous_in_arena a count alignment_log2;
      match r with
      | Some (a, pages, pa) => Some (Some (a :: arenas', pages, pa))
      | None =>
          r ← contiguous_walk arenas' count alignment_log2;
          match r with
          | Some (arenas', pages, pa) => Some (Some (a :: arenas', pages, pa))
          | None => Some None
          end
      end
  end.

(** The count, what is stored through [pa], the arenas and the list; a NULL list
    is [None]. *)
Definition pmm_alloc_contiguous (arenas : list pmm_arena) (count alignment_log2 : Z)
  (list : option (list Z)) : option (Z * option Z * _ * _) :=
  if count =? 0 then Some (0, None, arenas, list)
  else
    let alignment_log2 := if alignment_log2 <? PAGE_SIZE_SHIFT then PAGE_SIZE_SHIFT
                          else alignment_log2 in
    r ← contiguous_walk arenas count alignment_log2;
    match r with
    | Some (arenas, pages, pa) =>
        Some (count, Some pa, arenas, (fun l => l ++ pages) <$> list)
    | None => Some (0, None, arenas, list)
    end.

(** ** Kernel pages *)
Section kpages.
(** [paddr_to_kvaddr] and [vaddr_to_paddr] of [kernel/vm/vm.c] *)
Context (paddr_to_kvaddr vaddr_to_paddr : Z -> Z).

Definition pmm_alloc_kpages (arenas : list pmm_arena) (count : Z) (list : option (list Z))
  : option (Z * _ * _) :=
  if count =? 1 then
    (* fast path for single page *)
    '(p, arenas) ← pmm_alloc_page arenas;
    Some (if p =? 0 then 0 else paddr_to_kvaddr (vm_page_to_paddr arenas p), arenas, list)
  else
    '(alloc_count, pa, arenas, list) ← pmm_alloc_contiguous arenas count PAGE_SIZE_SHIFT list;
    Some (if alloc_count =? 0 then 0 else paddr_to_kvaddr (default 0 pa), arenas, list).

Fixpoint kpages_list (arenas : list pmm_arena) (count : nat) (ptr : Z) : list Z :=
  match count with
  | O => []
  | S count =>
      let p := paddr_to_vm_page arenas (vaddr_to_paddr ptr) in
      (if p =? 0 then [] else [p]) ++ kpages_list arenas count (u64 (ptr + PAGE_SIZE))
  end.

Definition pmm_free_kpages (arenas : list pmm_arena) (ptr count : Z) : option (Z * list pmm_arena) :=
  pmm_free arenas (kpages_list arenas (Z.to_nat count) ptr).
End kpages.
