(* ===== verification/PmmInv.v ===== *)
(** * What the physical memory manager guarantees

    The invariant of the arenas (the free list of an arena holds, once each, the
    pages of its array not marked in use) and the behaviour of every operation
    of Pmm on arenas that satisfy it. *)
From Stdlib Require Import Sorted.
From S2P Require Import Prelude Align Pmm.

(** ** The invariant *)
Definition npages (a : pmm_arena) : Z := ar_size a / PAGE_SIZE.

Record arena_wf (a : pmm_arena) : Prop := {
  aw_base : 0 <= ar_base a /\ ar_base a mod PAGE_SIZE = 0;
  aw_size : 0 < ar_size a /\ ar_size a mod PAGE_SIZE = 0;
  aw_top : ar_base a + ar_size a <= 2 ^ 64;
  aw_array : 0 < ar_page_array a;
  aw_len : Z.of_nat (length (ar_pages a)) = npages a;
  aw_count : ar_free_count a = Z.of_nat (length (ar_free_list a));
  aw_nodup : NoDup (ar_free_list a);
  aw_free : forall p, p ∈ ar_free_list a <->
    exists i f, 0 <= i /\ p = page_ptr a i /\ ar_pages a !! Z.to_nat i = Some f /\ page_is_free f = true;
}.

(** What an operation never changes. *)
Definition layout (a : pmm_arena) := (ar_flags a, ar_priority a, ar_base a, ar_size a, ar_page_array a).

(** Two arenas share neither page structures nor physical addresses. *)
Definition arenas_apart (a b : pmm_arena) : Prop :=
  (page_ptr a (npages a) <= ar_page_array b \/ page_ptr b (npages b) <= ar_page_array a) /\
  (ar_base a + ar_size a <= ar_base b \/ ar_base b + ar_size b <= ar_base a).

Fixpoint pairwise {A} (R : A -> A -> Prop) (l : list A) : Prop :=
  match l with [] => True | x :: l => Forall (R x) l /\ pairwise R l end.

Record pmm_wf (arenas : list pmm_arena) : Prop := {
  pw_each : Forall arena_wf arenas;
  pw_apart : pairwise arenas_apart arenas;
}.

Definition free_pages (arenas : list pmm_arena) : list Z := concat (ar_free_list <$> arenas).
(** [p] is a page structure of the arena, of the arenas *)
Definition page_of (a : pmm_arena) (p : Z) : Prop := exists i, 0 <= i < npages a /\ p = page_ptr a i.
Definition page_known (arenas : list pmm_arena) (p : Z) : Prop := Exists (fun a => page_of a p) arenas.

(** ** Pages of one arena *)
Lemma npages_pos a : arena_wf a -> 0 < npages a.
Proof. intros [? [] _ _ _ _ _ _]. unfold npages, PAGE_SIZE in *. Z.div_mod_to_equations. lia. Qed.

Lemma page_index_ptr a i : page_index a (page_ptr a i) = i.
Proof. unfold page_index, page_ptr, sizeof_vm_page. Z.div_mod_to_equations. lia. Qed.

Lemma page_ptr_inj a i j : page_ptr a i = page_ptr a j -> i = j.
Proof. unfold page_ptr, sizeof_vm_page. lia. Qed.

Lemma page_flags_ptr a i : 0 <= i -> page_flags a (page_ptr a i) = ar_pages a !! Z.to_nat i.
Proof.
  intros Hi. unfold page_flags. rewrite page_index_ptr.
  rewrite (proj2 (Z.leb_le 0 i)), Z.eqb_refl by done. done.
Qed.

Lemma page_is_free_lor f : page_is_free (Z.lor f VM_PAGE_FLAG_NONFREE) = false.
Proof.
  unfold page_is_free, has_flag. rewrite negb_involutive. apply Z.eqb_neq. intros E.
  assert (Z.testbit (Z.land (Z.lor f 1) 1) 0 = true) as H.
  { rewrite Z.land_spec, Z.lor_spec. by rewrite orb_true_r. }
  unfold VM_PAGE_FLAG_NONFREE in E. by rewrite E in H.
Qed.

Lemma page_is_free_clear f : page_is_free (clear_flag f VM_PAGE_FLAG_NONFREE) = true.
Proof.
  unfold page_is_free, has_flag, clear_flag, VM_PAGE_FLAG_NONFREE. rewrite negb_involutive. apply Z.eqb_eq.
  apply Z.bits_inj. intros n. rewrite Z.land_spec, Z.ldiff_spec, Z.bits_0.
  by destruct (Z.testbit 1 n); rewrite ?andb_false_r.
Qed.

Lemma page_belongs a p :
  arena_wf a -> page_of a p -> PAGE_BELONGS_TO_ARENA p a = true.
Proof.
  intros _ (i & Hi & ->). unfold PAGE_BELONGS_TO_ARENA, page_ptr, npages in *.
  apply andb_true_iff. rewrite Z.leb_le, Z.ltb_lt. unfold sizeof_vm_page. lia.
Qed.

Lemma page_apart a b p : arenas_apart a b -> page_of b p -> PAGE_BELONGS_TO_ARENA p a = false.
Proof.
  intros [H _] (i & Hi & ->). unfold PAGE_BELONGS_TO_ARENA, page_ptr, npages, sizeof_vm_page in *.
  apply andb_false_iff. rewrite Z.leb_gt, Z.ltb_ge. lia.
Qed.

Lemma layout_page_ptr a b i : layout a = layout b -> page_ptr a i = page_ptr b i.
Proof. unfold layout, page_ptr. intros [=]. congruence. Qed.
Lemma layout_npages a b : layout a = layout b -> npages a = npages b.
Proof. unfold layout, npages. intros [=]. congruence. Qed.
Lemma layout_page_of a b p : layout a = layout b -> page_of a p <-> page_of b p.
Proof.
  intros E. unfold page_of. rewrite (layout_npages _ _ E).
  by setoid_rewrite (fun i => layout_page_ptr _ _ i E).
Qed.

Lemma free_page_of a p : arena_wf a -> p ∈ ar_free_list a -> page_of a p.
Proof.
  intros W (i & f & Hi & -> & Hf & _)%(aw_free _ W). exists i. split; [|done].
  apply lookup_lt_Some in Hf. pose proof (aw_len _ W). lia.
Qed.

(** Flipping a page between free and in use, with the free list to match. *)
Lemma arena_wf_update a i f f' fl n :
  arena_wf a -> 0 <= i -> ar_pages a !! Z.to_nat i = Some f ->
  NoDup fl -> n = Z.of_nat (length fl) ->
  (forall p, p ∈ fl <-> (p <> page_ptr a i /\ p ∈ ar_free_list a) \/ (p = page_ptr a i /\ page_is_free f' = true)) ->
  arena_wf (set_ar_free_count n (set_ar_free_list fl (set_page_flags a (page_ptr a i) f'))).
Proof.
  intros [H1 H2 H3 H4 H5 H6 H7 H8] Hi Hf Hnd Hn Hfl. apply lookup_lt_Some in Hf as Hlt.
  split; cbn; try done. { by rewrite length_insert. }
  intros p. rewrite Hfl, H8, page_index_ptr. split.
  - intros [[Hne (j & g & Hj & -> & Hg & Hfr)]|[-> Hfr]].
    + exists j, g. split_and!; try done. rewrite list_lookup_insert_ne; [done|].
      intros E. apply Hne. f_equal. lia.
    + exists i, f'. split_and!; try done. by apply list_lookup_insert_eq.
  - intros (j & g & Hj & -> & Hg & Hfr). change (page_ptr _ j) with (page_ptr a j) in *.
    destruct (decide (j = i)) as [->|Hne].
    + right. rewrite list_lookup_insert_eq in Hg by done. by simplify_eq.
    + left. rewrite list_lookup_insert_ne in Hg by lia. split; [|by exists j, g].
      by intros E%page_ptr_inj.
Qed.

Lemma take_page_run a p :
  arena_wf a -> p ∈ ar_free_list a ->
  exists a', take_page a p = Some a' /\ arena_wf a' /\ layout a' = layout a /\
    ar_free_list a' = remove_elt p (ar_free_list a) /\
    (exists i f, 0 <= i /\ p = page_ptr a i /\ ar_pages a !! Z.to_nat i = Some f /\
       ar_pages a' = <[Z.to_nat i := Z.lor f VM_PAGE_FLAG_NONFREE]> (ar_pages a)).
Proof.
  intros W Hp. pose proof Hp as (i & f & Hi & -> & Hf & Hfr)%(aw_free _ W).
  unfold take_page. rewrite page_flags_ptr, Hf by done. cbn [mbind option_bind].
  rewrite bool_decide_true by done. cbn. eexists. split; [done|].
  split_and!; [|done|done|].
  - apply (arena_wf_update a i f _ (remove_elt (page_ptr a i) (ar_free_list a))
             (ar_free_count a - 1) W Hi Hf).
    + apply NoDup_remove_elt, W.
    + rewrite length_remove_elt by (done || apply W). rewrite (aw_count _ W).
      destruct (ar_free_list a); [set_solver|]. cbn. lia.
    + intros p. rewrite elem_of_remove_elt, page_is_free_lor. intuition congruence.
  - exists i, f. split_and!; [done..|]. cbn. do 2 f_equal. exact (page_index_ptr a i).
Qed.

Lemma alloc_from_arena_run n a l :
  arena_wf a ->
  let m := (n `min` length (ar_free_list a))%nat in
  exists a', alloc_from_arena n a l = Some ((n - m)%nat, a', l ++ take m (ar_free_list a), false) /\
    arena_wf a' /\ layout a' = layout a /\ ar_free_list a' = drop m (ar_free_list a).
Proof.
  revert a l. induction n as [|n IH]; intros a l W; cbn [alloc_from_arena].
  { exists a. cbn. by rewrite app_nil_r. }
  rewrite (aw_count _ W). destruct (ar_free_list a) as [|p rest] eqn:Efl.
  { exists a. cbn. by rewrite app_nil_r. }
  rewrite (proj2 (Z.ltb_lt _ _)) by (cbn; lia).
  destruct (take_page_run a p W) as (a' & Ht & W' & La & Hfl & _); [rewrite Efl; set_solver|].
  pose proof (aw_nodup _ W) as Hnd. rewrite Efl in Hnd. apply NoDup_cons in Hnd as [Hnp _].
  rewrite Efl, remove_elt_cons_eq in Hfl by done.
  unfold take_page in Ht. change (page_flags (set_ar_free_count _ _) p) with (page_flags a p).
  destruct (page_flags a p) as [f|]; [|done]. cbn [mbind option_bind] in Ht |- *.
  rewrite Efl, bool_decide_true, remove_elt_cons_eq in Ht by set_solver. cbn in Ht.
  destruct (IH a' (l ++ [p]) W') as (a2 & E & W2 & L2 & F2).
  exists a2. rewrite Hfl in E, F2. cbn [length Nat.min take drop Nat.sub]. split_and!; [|done|congruence|done].
  injection Ht as Ht. rewrite (aw_count _ W), Efl in Ht.
  match goal with |- alloc_from_arena n ?b _ = _ => replace b with a' end.
  rewrite E, <- app_assoc. done.
Qed.

(** ** The arenas together *)
Definition same_layout (l l' : list pmm_arena) : Prop := layout <$> l' = layout <$> l.

Lemma same_layout_trans l1 l2 l3 : same_layout l1 l2 -> same_layout l2 l3 -> same_layout l1 l3.
Proof. unfold same_layout. congruence. Qed.
#[export] Hint Unfold same_layout : nusa.

Lemma apart_layout a b a' b' :
  layout a' = layout a -> layout b' = layout b -> arenas_apart a b -> arenas_apart a' b'.
Proof.
  unfold arenas_apart. intros Ea Eb.
  rewrite (layout_npages _ _ Ea), (layout_npages _ _ Eb), (layout_page_ptr _ _ _ Ea), (layout_page_ptr _ _ _ Eb).
  unfold layout in *. injection Ea as _ _ -> -> ->. by injection Eb as _ _ -> -> ->.
Qed.

Lemma pairwise_layout l l' : same_layout l l' -> pairwise arenas_apart l -> pairwise arenas_apart l'.
Proof.
  unfold same_layout. revert l'. induction l as [|a l IH]; intros [|a' l'] E; try done.
  rewrite !fmap_cons in E. assert (layout a' = layout a /\ layout <$> l' = layout <$> l) as [Ea El] by (split; congruence).
  cbn. intros [Hf Hp]. split; [|by apply IH].
  clear IH Hp E. revert l' El. induction Hf as [|b l Hb Hf IHHf]; intros [|b' l'] El; try done.
  rewrite !fmap_cons in El. assert (layout b' = layout b /\ layout <$> l' = layout <$> l) as [Eb El'] by (split; congruence).
  constructor; [|by apply IHHf]. by eapply apart_layout.
Qed.

Lemma pmm_wf_update l l' : pmm_wf l -> same_layout l l' -> Forall arena_wf l' -> pmm_wf l'.
Proof. intros [_ H] E F. split; [done|]. by eapply pairwise_layout. Qed.

Lemma alloc_pages_walk_run n arenas l :
  Forall arena_wf arenas ->
  let m := (n `min` length (free_pages arenas))%nat in
  exists arenas', alloc_pages_walk n arenas l = Some ((n - m)%nat, arenas', l ++ take m (free_pages arenas)) /\
    Forall arena_wf arenas' /\ same_layout arenas arenas' /\ free_pages arenas' = drop m (free_pages arenas).
Proof.
  intros W. revert n l. induction W as [|a arenas Wa W IH]; intros n l; cbn [alloc_pages_walk].
  { exists []. cbn. rewrite Nat.min_0_r, take_nil, app_nil_r, Nat.sub_0_r. auto with nusa. }
  destruct (alloc_from_arena_run n a l Wa) as (a' & E & W' & L' & F'). rewrite E. cbn [mbind option_bind].
  destruct (IH (n - n `min` length (ar_free_list a))%nat (l ++ take (n `min` length (ar_free_list a)) (ar_free_list a)))
    as (ar' & E2 & W2 & L2 & F2).
  rewrite E2. cbn [mbind option_bind]. exists (a' :: ar').
  change (free_pages (a :: arenas)) with (ar_free_list a ++ free_pages arenas).
  change (free_pages (a' :: ar')) with (ar_free_list a' ++ free_pages ar').
  rewrite length_app, take_app, drop_app, F', F2, <- app_assoc.
  split_and!; [|by constructor|unfold same_layout in *; cbn; congruence|].
  - do 2 f_equal; [f_equal; lia|]. f_equal. f_equal.
    + destruct (decide (n <= length (ar_free_list a))%nat); [f_equal; lia|]. rewrite !take_ge by lia. done.
    + f_equal. lia.
  - f_equal.
    + destruct (decide (n <= length (ar_free_list a))%nat); [f_equal; lia|]. rewrite !drop_ge by lia. done.
    + f_equal. lia.
Qed.

(** ** Freeing *)
Lemma page_known_layout l l' p : same_layout l l' -> page_known l p -> page_known l' p.
Proof.
  unfold same_layout, page_known. revert l'. induction l as [|a l IH]; intros [|a' l'] E; try done.
  rewrite !fmap_cons in E. assert (layout a' = layout a /\ layout <$> l' = layout <$> l) as [Ea El] by (split; congruence).
  rewrite !Exists_cons, (layout_page_of _ _ p Ea). intros [?|?]; [by left|right; by apply IH].
Qed.

Lemma free_in_arena a p :
  arena_wf a -> page_of a p -> p ∉ ar_free_list a ->
  exists f, page_flags a p = Some f /\ has_flag f VM_PAGE_FLAG_NONFREE = true /\
    arena_wf (set_ar_free_count (ar_free_count a + 1) (set_ar_free_list (p :: ar_free_list a)
      (set_page_flags a p (clear_flag f VM_PAGE_FLAG_NONFREE)))).
Proof.
  intros W (i & Hi & ->) Hp.
  destruct (lookup_lt_is_Some_2 (ar_pages a) (Z.to_nat i)) as [f Hf]; [pose proof (aw_len _ W); lia|].
  exists f. rewrite page_flags_ptr by lia. split; [done|]. split.
  - apply not_false_iff_true. intros Hnf. apply Hp, (aw_free _ W). exists i, f.
    unfold page_is_free. rewrite Hnf. split_and!; [lia|done..].
  - apply (arena_wf_update a i f); [done|lia|done| | |].
    + constructor; [done|apply W].
    + rewrite (aw_count _ W). cbn. lia.
    + intros p. rewrite page_is_free_clear. set_solver.
Qed.

Lemma free_one_run arenas p :
  pmm_wf arenas -> page_known arenas p -> p ∉ free_pages arenas ->
  exists arenas', free_one arenas p = Some arenas' /\ pmm_wf arenas' /\ same_layout arenas arenas' /\
    free_pages arenas' ≡ₚ p :: free_pages arenas.
Proof.
  intros W Hk Hn. cut (exists arenas', free_one arenas p = Some arenas' /\ Forall arena_wf arenas' /\
    same_layout arenas arenas' /\ free_pages arenas' ≡ₚ p :: free_pages arenas).
  { intros (ar' & ? & ? & ? & ?). exists ar'. eauto using pmm_wf_update. }
  destruct W as [W Hap]. induction W as [|a l Wa W IH]; [by apply Exists_nil in Hk|].
  change (free_pages (a :: l)) with (ar_free_list a ++ free_pages l) in *.
  destruct Hap as [Ha Hap]. cbn [free_one]. apply Exists_cons in Hk as [Hk|Hk].
  - destruct (free_in_arena a p Wa Hk) as (f & Hf & Hnf & W'); [set_solver|].
    rewrite page_belongs, Hf by done. cbn [mbind option_bind]. rewrite Hnf. cbn [oguard mbind option_bind].
    eexists. split; [done|]. split_and!; [by constructor|done|done].
  - assert (PAGE_BELONGS_TO_ARENA p a = false) as ->.
    { apply Exists_exists in Hk as (b & Hb & Hp). rewrite Forall_forall in Ha. eapply page_apart; eauto. }
    destruct (IH Hap Hk) as (ar' & E & W' & L' & P'); [set_solver|]. rewrite E. cbn [mbind option_bind].
    eexists. split; [done|]. split_and!; [by constructor|unfold same_layout in *; rewrite !fmap_cons; congruence|].
    change (free_pages (a :: ar')) with (ar_free_list a ++ free_pages ar').
    rewrite P'. by rewrite Permutation_middle.
Qed.

Lemma pmm_free_run arenas l :
  pmm_wf arenas -> NoDup l -> Forall (page_known arenas) l -> (forall p, p ∈ l -> p ∉ free_pages arenas) ->
  exists arenas', pmm_free arenas l = Some (Z.of_nat (length l), arenas') /\ pmm_wf arenas' /\
    same_layout arenas arenas' /\ free_pages arenas' ≡ₚ l ++ free_pages arenas.
Proof.
  intros W Hnd. revert arenas W. induction Hnd as [|p l Hp Hnd IH]; intros arenas W Hk Hn; cbn [pmm_free].
  { exists arenas. by repeat split; try apply W. }
  apply Forall_cons in Hk as [Hkp Hk].
  destruct (free_one_run arenas p W Hkp) as (ar1 & E1 & W1 & L1 & P1); [set_solver|].
  destruct (IH ar1 W1) as (ar2 & E2 & W2 & L2 & P2).
  { eapply Forall_impl; [done|]. intros q. by apply page_known_layout. }
  { intros q Hq. rewrite P1. set_solver. }
  rewrite E1. cbn [mbind option_bind]. rewrite E2. cbn [mbind option_bind]. exists ar2.
  split_and!; [|done|by eapply same_layout_trans|].
  - do 2 f_equal. cbn [length]. lia.
  - rewrite P2, P1. cbn. by rewrite Permutation_middle.
Qed.

Lemma elem_of_free_pages arenas p : p ∈ free_pages arenas <-> Exists (fun a => p ∈ ar_free_list a) arenas.
Proof.
  induction arenas as [|a l IH].
  - rewrite Exists_nil. set_solver.
  - change (free_pages (a :: l)) with (ar_free_list a ++ free_pages l).
    by rewrite elem_of_app, Exists_cons, IH.
Qed.

Lemma free_pages_known arenas p : Forall arena_wf arenas -> p ∈ free_pages arenas -> page_known arenas p.
Proof.
  rewrite elem_of_free_pages, Forall_forall. intros W (a & Ha & Hp)%Exists_exists.
  apply Exists_exists. eauto using free_page_of.
Qed.

Lemma free_pages_nodup arenas : pmm_wf arenas -> NoDup (free_pages arenas).
Proof.
  intros [W Hap]. induction W as [|a l Wa W IH]; [constructor|]. destruct Hap as [Ha Hap].
  change (free_pages (a :: l)) with (ar_free_list a ++ free_pages l). apply NoDup_app.
  split_and!; [apply Wa| |by apply IH]. intros p Hp Hq.
  apply elem_of_free_pages, Exists_exists in Hq as (b & Hb & Hq).
  rewrite Forall_forall in *. pose proof (page_apart a b p (Ha _ Hb) (free_page_of _ _ (W _ Hb) Hq)) as Hf.
  rewrite page_belongs in Hf by eauto using free_page_of. done.
Qed.

(** ** The claims on single pages *)

Lemma pmm_alloc_pages_run arenas count l :
  pmm_wf arenas -> 0 <= count ->
  let n := (Z.to_nat count `min` length (free_pages arenas))%nat in
  exists arenas', pmm_alloc_pages arenas count l = Some (Z.of_nat n, arenas', l ++ take n (free_pages arenas)) /\
    pmm_wf arenas' /\ same_layout arenas arenas' /\ free_pages arenas' = drop n (free_pages arenas).
Proof.
  intros W Hc n. unfold pmm_alloc_pages. destruct (Z.eqb_spec count 0) as [->|].
  { exists arenas. cbn. rewrite app_nil_r. by repeat split; try apply W. }
  destruct (alloc_pages_walk_run (Z.to_nat count) arenas l (pw_each _ W)) as (ar' & E & W' & L & F).
  rewrite E. cbn [mbind option_bind]. exists ar'. split_and!; [|by eapply pmm_wf_update|done|done].
  do 3 f_equal. fold n. lia.
Qed.

(** [pmm_alloc_pages] allocates as many pages as are asked for and free,
    the first ones of the free lists in arena order; it appends exactly those
    to the caller's list and leaves the rest free, with the invariant. *)
Theorem pmm_alloc_pages_correct arenas count l :
  pmm_wf arenas -> 0 <= count ->
  let n := (Z.to_nat count `min` length (free_pages arenas))%nat in
  exists arenas', pmm_alloc_pages arenas count l = Some (Z.of_nat n, arenas', l ++ take n (free_pages arenas)) /\
    pmm_wf arenas' /\ same_layout arenas arenas' /\ free_pages arenas' = drop n (free_pages arenas).
Proof. exact (pmm_alloc_pages_run arenas count l). Qed.

(** Pages obtained from [pmm_alloc_pages] can all be given back with
    [pmm_free], which counts them and restores the set of free pages. *)
Theorem pmm_alloc_free_roundtrip arenas count n arenas1 l :
  pmm_wf arenas -> 0 <= count -> pmm_alloc_pages arenas count [] = Some (n, arenas1, l) ->
  exists arenas2, pmm_free arenas1 l = Some (n, arenas2) /\ pmm_wf arenas2 /\
    same_layout arenas arenas2 /\ free_pages arenas2 ≡ₚ free_pages arenas.
Proof.
  intros W Hc E. unfold pmm_alloc_pages in E. destruct (Z.eqb_spec count 0) as [->|].
  { simplify_eq. exists arenas1. by repeat split; try apply W. }
  destruct (alloc_pages_walk_run (Z.to_nat count) arenas [] (pw_each _ W)) as (ar' & E' & W' & L & F).
  rewrite E' in E. cbn [mbind option_bind] in E. simplify_eq. set (m := (_ `min` _)%nat) in *.
  pose proof (free_pages_nodup _ W) as Hnd. rewrite <- (take_drop m (free_pages arenas)) in Hnd.
  apply NoDup_app in Hnd as (Hnd & Hdis & _).
  destruct (pmm_free_run arenas1 (take m (free_pages arenas))) as (ar2 & E2 & W2 & L2 & P2).
  - by eapply pmm_wf_update.
  - done.
  - apply Forall_forall. intros p Hp. eapply page_known_layout; [exact L|].
    apply free_pages_known; [apply W|]. rewrite <- (take_drop m (free_pages arenas)). apply elem_of_app. by left.
  - intros p Hp. rewrite F. by apply Hdis.
  - exists ar2. rewrite app_nil_l. split_and!; [|done|by eapply same_layout_trans|].
    + rewrite E2. do 2 f_equal. rewrite length_take. unfold m. lia.
    + rewrite P2, F. by rewrite take_drop.
Qed.

(** ** Contiguous runs *)

(** [count] free pages from index [s] on, starting at an address aligned to
    [2 ^ al]. *)
Record aligned_run (a : pmm_arena) (count al s : Z) : Prop := {
  ar_run_start : 0 <= s;
  ar_run_end : s + count <= npages a;
  ar_run_align : (ar_base a + s * PAGE_SIZE) mod 2 ^ al = 0;
  ar_run_free : forall i, s <= i < s + count -> page_ptr a i ∈ ar_free_list a;
}.

Lemma run_broken_spec flags n i0 :
  (n <= length flags)%nat ->
  exists r, run_broken flags n i0 = Some r /\
    match r with
    | None => forall k f, (k < n)%nat -> flags !! k = Some f -> page_is_free f = true
    | Some i => exists k f, (k < n)%nat /\ i = i0 + Z.of_nat k /\ flags !! k = Some f /\ page_is_free f = false
    end.
Proof.
  revert flags i0. induction n as [|n IH]; intros [|f flags] i0 Hn; cbn in *; [| |lia|].
  1,2: eexists; split; [done|]; intros k g Hk; lia.
  destruct (has_flag f VM_PAGE_FLAG_NONFREE) eqn:Ef.
  - eexists. split; [done|]. exists 0%nat, f. unfold page_is_free. rewrite Ef. split_and!; [lia..|done|done].
  - destruct (IH flags (i0 + 1)) as (r & E & Hr); [lia|]. exists r. split; [done|].
    destruct r as [i|].
    + destruct Hr as (k & g & ? & ? & ? & ?). exists (S k), g. split_and!; [lia..|done|done].
    + intros [|k] g Hk Hg; [cbn in Hg; simplify_eq; unfold page_is_free; by rewrite Ef|].
      apply (Hr k); [lia|done].
Qed.

Lemma free_iff a i f :
  arena_wf a -> 0 <= i -> ar_pages a !! Z.to_nat i = Some f ->
  page_ptr a i ∈ ar_free_list a <-> page_is_free f = true.
Proof.
  intros W Hi Hf. rewrite (aw_free _ W). split.
  - intros (j & g & Hj & E%page_ptr_inj & Hg & Hfr). by simplify_eq.
  - intros. by exists i, f.
Qed.

(** The scan at one start: a run, or the first page that breaks it. *)
Lemma run_broken_arena a start count :
  arena_wf a -> 0 <= start -> 0 <= count -> start + count <= npages a ->
  exists r, run_broken (drop (Z.to_nat start) (ar_pages a)) (Z.to_nat count) 0 = Some r /\
    match r with
    | None => forall i, start <= i < start + count -> page_ptr a i ∈ ar_free_list a
    | Some i => 0 <= i < count /\ page_ptr a (start + i) ∉ ar_free_list a
    end.
Proof.
  intros W Hs Hc He. pose proof (aw_len _ W) as Hlen.
  destruct (run_broken_spec (drop (Z.to_nat start) (ar_pages a)) (Z.to_nat count) 0) as (r & E & Hr).
  { rewrite length_drop. lia. }
  exists r. split; [done|]. destruct r as [i|].
  - destruct Hr as (k & f & Hk & -> & Hf & Hfr). split; [lia|]. rewrite lookup_drop in Hf.
    rewrite (free_iff a _ f W); [by rewrite Hfr|lia|]. rewrite <- Hf. f_equal. lia.
  - intros i Hi. destruct (lookup_lt_is_Some_2 (ar_pages a) (Z.to_nat i)) as [f Hf]; [lia|].
    apply (free_iff a i f W); [lia|done|]. apply (Hr (Z.to_nat (i - start))); [lia|].
    rewrite lookup_drop, <- Hf. f_equal. lia.
Qed.

Lemma pow2_page al : 12 <= al -> 2 ^ al = PAGE_SIZE * 2 ^ (al - 12).
Proof. intros. change PAGE_SIZE with (2 ^ 12). rewrite <- Z.pow_add_r by lia. f_equal. lia. Qed.

(** Alignment of the address of a page in terms of its distance from an aligned one. *)
Lemma aligned_offset_iff base off s al :
  12 <= al -> (base + off * PAGE_SIZE) mod 2 ^ al = 0 ->
  (base + s * PAGE_SIZE) mod 2 ^ al = 0 <-> (s - off) mod 2 ^ (al - 12) = 0.
Proof.
  intros Hal Hoff. assert (0 < 2 ^ (al - 12)) by lia. rewrite (pow2_page al Hal) in *.
  set (k := 2 ^ (al - 12)) in *. unfold PAGE_SIZE in *.
  apply Z.mod_divide in Hoff as [x Hx]; [|lia]. split; intros Hm.
  - apply Z.mod_divide in Hm as [y Hy]; [|lia]. apply Z.mod_divide; [lia|]. exists (y - x). lia.
  - apply Z.mod_divide in Hm as [y Hy]; [|lia]. apply Z.mod_divide; [lia|]. exists (y + x). lia.
Qed.

Section search.
Context (a : pmm_arena) (count al off : Z).
Hypothesis W : arena_wf a.
Hypothesis Hcount : 0 < count < 2 ^ 31.
Hypothesis Hpages : npages a < 2 ^ 31.
Hypothesis Hal : 12 <= al <= 31.
Hypothesis Hoff : 0 <= off /\ (ar_base a + off * PAGE_SIZE) mod 2 ^ al = 0.

Lemma next_start start i :
  off <= start < npages a -> 0 <= i < count -> start + i < npages a ->
  let next := u32 (ROUNDUP (u32 (start - off + i + 1)) (2 ^ (al - PAGE_SIZE_SHIFT)) + off) in
  start + i < next /\ (next - off) mod 2 ^ (al - 12) = 0 /\
  forall s, start + i < s -> (s - off) mod 2 ^ (al - 12) = 0 -> next <= s.
Proof using All.
  intros Hs Hi Hlt. change PAGE_SIZE_SHIFT with 12. cbn zeta.
  assert (2 ^ (al - 12) <= 2 ^ 19) by (apply Z.pow_le_mono_r; lia).
  rewrite (wrap_small 32 (start - off + i + 1)) by lia.
  pose proof (ROUNDUP_spec (start - off + i + 1) (al - 12)) as [Hr Hm]; [lia..|].
  rewrite wrap_small by lia. split_and!; [lia|by rewrite Z.add_simpl_r|].
  intros s Hlts Hms. pose proof (ROUNDUP_least (start - off + i + 1) (al - 12) (s - off)). lia.
Qed.

Lemma find_run_run fuel start :
  off <= start -> (start - off) mod 2 ^ (al - 12) = 0 -> npages a < start + Z.of_nat fuel ->
  exists r, find_run fuel a count al off start = Some r /\
    match r with
    | None => forall s, start <= s -> ~ aligned_run a count al s
    | Some s => start <= s /\ aligned_run a count al s /\ forall s', start <= s' < s -> ~ aligned_run a count al s'
    end.
Proof using All.
  revert start. induction fuel as [|fuel IH]; intros start Hs Hm Hf; cbn [find_run]; fold (npages a).
  { rewrite (proj2 (Z.ltb_ge _ _)) by lia. cbn. eexists. split; [done|].
    intros s Hss [_ ? _ _]. lia. }
  destruct (Z.ltb_spec start (npages a)); cbn [andb].
  2:{ eexists. split; [done|]. intros s Hss [_ ? _ _]. lia. }
  rewrite (wrap_small 32) by lia. destruct (Z.leb_spec (start + count) (npages a)) as [Hle|Hgt].
  2:{ eexists. split; [done|]. intros s Hss [_ ? _ _]. lia. }
  destruct (run_broken_arena a start count W) as (r & E & Hr); [lia..|].
  rewrite E. cbn [mbind option_bind]. destruct r as [i|].
  - destruct Hr as [Hi Hbr]. destruct (next_start start i) as (Hn1 & Hn2 & Hn3); [lia..|].
    set (next := u32 _) in *. destruct (IH next) as (r & -> & Hr'); [lia|done|lia|].
    assert (forall s, start <= s < next -> ~ aligned_run a count al s) as Hnone.
    { intros s Hss [? ? Ha Hfree]. apply (aligned_offset_iff _ off) in Ha; [|lia|apply Hoff].
      destruct (decide (s <= start + i)); [|specialize (Hn3 s); lia]. apply Hbr, Hfree. lia. }
    exists r. split; [done|]. destruct r as [s|].
    + destruct Hr' as (? & ? & Hmin). split_and!; [lia|done|]. intros s' Hs'.
      destruct (decide (s' < next)); [apply Hnone; lia|apply Hmin; lia].
    + intros s Hss. destruct (decide (s < next)); [apply Hnone; lia|apply Hr'; lia].
  - eexists. split; [done|]. split_and!; [lia| |lia].
    split; [lia|done| |done]. apply (aligned_offset_iff _ off); [lia|apply Hoff|done].
Qed.
End search.

(** The pages of the run are taken one by one. *)
Lemma take_run_run n a s pages :
  arena_wf a -> 0 <= s -> (forall i, s <= i < s + Z.of_nat n -> page_ptr a i ∈ ar_free_list a) ->
  let ps := (fun k => page_ptr a (s + Z.of_nat k)) <$> seq 0 n in
  exists a', take_run n a s pages = Some (a', pages ++ ps) /\ arena_wf a' /\ layout a' = layout a /\
    ar_free_list a ≡ₚ ps ++ ar_free_list a'.
Proof.
  revert a s pages. induction n as [|n IH]; intros a s pages W Hs Hfree; cbn [take_run].
  { exists a. cbn. by rewrite app_nil_r. }
  assert (page_ptr a s ∈ ar_free_list a) as Hp by (apply Hfree; lia).
  pose proof Hp as (j & f & Hj & E%page_ptr_inj & Hf & Hfr)%(aw_free _ W). subst j.
  destruct (take_page_run a (page_ptr a s) W Hp) as (a1 & E1 & W1 & L1 & F1 & _).
  rewrite page_flags_ptr, Hf by done. cbn [mbind option_bind]. rewrite Hfr. cbn [oguard mbind option_bind].
  rewrite E1. cbn [mbind option_bind].
  destruct (IH a1 (s + 1) (pages ++ [page_ptr a s]) W1) as (a2 & E2 & W2 & L2 & P2); [lia| |].
  { intros i Hi. rewrite F1, elem_of_remove_elt, (layout_page_ptr _ _ _ L1).
    split; [apply Hfree; lia|]. intros ?%page_ptr_inj. lia. }
  assert ((fun k => page_ptr a (s + Z.of_nat k)) <$> seq 0 (S n) =
          page_ptr a s :: ((fun k => page_ptr a1 (s + 1 + Z.of_nat k)) <$> seq 0 n)) as ->.
  { rewrite <- cons_seq, fmap_cons, Z.add_0_r. f_equal. rewrite <- fmap_S_seq, <- list_fmap_compose.
    apply list_fmap_ext. intros i k _. cbn -[Z.of_nat]. rewrite (layout_page_ptr _ _ _ L1). f_equal. lia. }
  exists a2. rewrite E2, <- app_assoc. split_and!; [done|done|congruence|].
  cbn. rewrite <- P2, F1. apply remove_elt_perm; [apply W|done].
Qed.

Definition run_pages (a : pmm_arena) (s count : Z) : list Z :=
  (fun k => page_ptr a (s + Z.of_nat k)) <$> seq 0 (Z.to_nat count).

(** What a successful search of one arena gives. *)
Definition run_taken (a : pmm_arena) (count al : Z) (a' : pmm_arena) (pages : list Z) (pa : Z) : Prop :=
  exists s, aligned_run a count al s /\ (forall s', 0 <= s' < s -> ~ aligned_run a count al s') /\
    pages = run_pages a s count /\ pa = ar_base a + s * PAGE_SIZE /\
    arena_wf a' /\ layout a' = layout a /\ ar_free_list a ≡ₚ pages ++ ar_free_list a'.

(** The first aligned page of an arena. *)
Lemma rounded_base_run a al :
  arena_wf a -> 12 <= al <= 31 ->
  let rounded_base := ROUNDUP (ar_base a) (2 ^ al) in
  if (rounded_base <? ar_base a) || (u64 (ar_base a + ar_size a - 1) <? rounded_base)
  then forall s, 0 <= s < npages a -> (ar_base a + s * PAGE_SIZE) mod 2 ^ al <> 0
  else exists off, rounded_base = ar_base a + off * PAGE_SIZE /\ 0 <= off < npages a /\
         rounded_base mod 2 ^ al = 0 /\
         forall s, 0 <= s < off -> (ar_base a + s * PAGE_SIZE) mod 2 ^ al <> 0.
Proof.
  intros W Hal. pose proof W as [[Hb Hba] [Hs Hsa] Htop _ _ _ _ _]. cbn zeta.
  assert (2 ^ al <= 2 ^ 31) by (apply Z.pow_le_mono_r; lia). assert (0 < 2 ^ al) by lia.
  rewrite (wrap_small 64) by lia. pose proof (npages_pos a W) as Hn.
  assert (ar_size a = npages a * PAGE_SIZE) as Esz by (unfold npages, PAGE_SIZE in *; Z.div_mod_to_equations; lia).
  destruct (decide (ar_base a + 2 ^ al - 1 < 2 ^ 64)) as [Hov|Hov].
  2:{ rewrite (ROUNDUP_wraps (ar_base a) al) by lia. rewrite (proj2 (Z.ltb_lt _ _)) by lia. cbn [orb].
      intros s Hss [x Hx]%Z.mod_divide; [|lia]. unfold PAGE_SIZE in *.
      assert (2 ^ 64 = 2 ^ (64 - al) * 2 ^ al) as E64 by (rewrite <- Z.pow_add_r by lia; f_equal; lia).
      assert (x < 2 ^ (64 - al)) by nia. nia. }
  pose proof (ROUNDUP_spec (ar_base a) al) as [Hr Hm]; [lia..|].
  pose proof (fun b => ROUNDUP_least (ar_base a) al b) as Hleast.
  set (rb := ROUNDUP _ _) in *. rewrite (proj2 (Z.ltb_ge _ _)) by lia. cbn [orb].
  destruct (Z.ltb_spec (ar_base a + ar_size a - 1) rb) as [Hgt|Hle].
  { intros s Hss Ha. specialize (Hleast (ar_base a + s * PAGE_SIZE)). unfold PAGE_SIZE in *. lia. }
  assert (rb mod PAGE_SIZE = 0) as Hrp.
  { apply Z.mod_divide in Hm as [x ->]; [|lia]. rewrite (pow2_page al) by lia.
    replace (x * (PAGE_SIZE * 2 ^ (al - 12))) with (x * 2 ^ (al - 12) * PAGE_SIZE) by lia.
    by apply Z.mod_mul. }
  exists ((rb - ar_base a) / PAGE_SIZE).
  assert (rb = ar_base a + (rb - ar_base a) / PAGE_SIZE * PAGE_SIZE) as Erb
    by (unfold PAGE_SIZE in *; Z.div_mod_to_equations; lia).
  split_and!; [done|unfold PAGE_SIZE in *; Z.div_mod_to_equations; lia|nia|done|].
  intros s Hss Ha. specialize (Hleast (ar_base a + s * PAGE_SIZE)).
  assert (ar_base a + s * PAGE_SIZE < rb) by (unfold PAGE_SIZE in *; nia).
  unfold PAGE_SIZE in *. lia.
Qed.

Lemma contiguous_in_arena_run a count al :
  arena_wf a -> 0 < count < 2 ^ 31 -> npages a < 2 ^ 31 -> 12 <= al <= 31 ->
  exists r, contiguous_in_arena a count al = Some r /\
    match r with
    | None => has_flag (ar_flags a) PMM_ARENA_FLAG_KMAP = true -> forall s, ~ aligned_run a count al s
    | Some (a', pages, pa) => has_flag (ar_flags a) PMM_ARENA_FLAG_KMAP = true /\ run_taken a count al a' pages pa
    end.
Proof.
  intros W Hc Hn Hal. unfold contiguous_in_arena.
  destruct (has_flag (ar_flags a) PMM_ARENA_FLAG_KMAP); [|by exists None].
  rewrite (proj2 (Z.ltb_lt al 64)) by lia. cbn [oguard mbind option_bind].
  pose proof (rounded_base_run a al W Hal) as Hrb. cbn zeta in Hrb. destruct (_ || _).
  { exists None. split; [done|]. intros _ s [? ? Ha _]. apply (Hrb s); [lia|done]. }
  destruct Hrb as (off & Erb & Hoff & Hm & Hbelow). rewrite Erb in *.
  replace ((ar_base a + off * PAGE_SIZE - ar_base a) / PAGE_SIZE) with off
    by (unfold PAGE_SIZE; Z.div_mod_to_equations; lia).
  rewrite (wrap_small 32 off) by lia.
  assert (forall s, 0 <= s < off -> ~ aligned_run a count al s) as Hnone.
  { intros s Hs [_ _ Ha _]. by apply (Hbelow s). }
  destruct (find_run_run a count al off W Hc Hn Hal (conj (proj1 Hoff) Hm)
              (S (Z.to_nat (ar_size a / PAGE_SIZE))) off) as (r & E & Hr).
  { lia. } { by rewrite Z.sub_diag, Zmod_0_l. } { fold (npages a). lia. }
  rewrite E. cbn [mbind option_bind]. destruct r as [s|].
  - destruct Hr as (Hs & Hrun & Hmin).
    destruct (take_run_run (Z.to_nat count) a s [] W) as (a' & E2 & W2 & L2 & P2).
    { apply Hrun. } { intros i Hi. apply (ar_run_free _ _ _ _ Hrun). lia. }
    rewrite E2. cbn [mbind option_bind]. eexists. split; [done|]. split; [done|].
    exists s. split_and!; try done.
    + intros s' Hs'. destruct (decide (s' < off)); [apply Hnone; lia|apply Hmin; lia].
    + apply wrap_small. pose proof (aw_base _ W). pose proof (aw_top _ W). destruct Hrun as [? He _ _].
      unfold npages, PAGE_SIZE in *. Z.div_mod_to_equations. lia.
  - exists None. split; [done|]. intros _ s Hrun. destruct (decide (s < off)).
    + apply (Hnone s); [|done]. pose proof (ar_run_start _ _ _ _ Hrun). lia.
    + apply (Hr s); [lia|done].
Qed.

(** The outcome of the search over all arenas. *)
Definition contiguous_done (arenas : list pmm_arena) (count al : Z) (arenas' : list pmm_arena)
  (pages : list Z) (pa : Z) : Prop :=
  exists l1 a a' l2, arenas = l1 ++ a :: l2 /\ arenas' = l1 ++ a' :: l2 /\
    has_flag (ar_flags a) PMM_ARENA_FLAG_KMAP = true /\ run_taken a count al a' pages pa.

Lemma contiguous_walk_run arenas count al :
  Forall arena_wf arenas -> Forall (fun a => npages a < 2 ^ 31) arenas -> 0 < count < 2 ^ 31 -> 12 <= al <= 31 ->
  exists r, contiguous_walk arenas count al = Some r /\
    match r with
    | None => forall a s, a ∈ arenas -> has_flag (ar_flags a) PMM_ARENA_FLAG_KMAP = true -> ~ aligned_run a count al s
    | Some (arenas', pages, pa) => contiguous_done arenas count al arenas' pages pa
    end.
Proof.
  intros W Hn Hc Hal. induction W as [|a l Wa W IH]; cbn [contiguous_walk].
  { exists None. split; [done|]. set_solver. }
  apply Forall_cons in Hn as [Hna Hn].
  destruct (contiguous_in_arena_run a count al Wa Hc Hna Hal) as (r & E & Hr).
  rewrite E. cbn [mbind option_bind]. destruct r as [[[a' pages] pa]|].
  { destruct Hr as [Hk Ht]. eexists. split; [done|]. by exists [], a, a', l. }
  destruct (IH Hn) as (r & E2 & Hr2). rewrite E2. cbn [mbind option_bind].
  destruct r as [[[ar' pages] pa]|].
  - eexists. split; [done|]. destruct Hr2 as (l1 & b & b' & l2 & -> & -> & Hk & Ht).
    exists (a :: l1), b, b', l2. done.
  - exists None. split; [done|]. intros b s [->|Hb]%elem_of_cons Hk; [by apply Hr|by apply Hr2].
Qed.

Lemma contiguous_done_wf arenas count al arenas' pages pa :
  pmm_wf arenas -> contiguous_done arenas count al arenas' pages pa ->
  pmm_wf arenas' /\ same_layout arenas arenas' /\ free_pages arenas ≡ₚ pages ++ free_pages arenas'.
Proof.
  intros W (l1 & a & a' & l2 & -> & -> & _ & s & _ & _ & _ & _ & Wa & La & P).
  assert (same_layout (l1 ++ a :: l2) (l1 ++ a' :: l2)) as HL
    by (unfold same_layout; rewrite !fmap_app, !fmap_cons, La; done).
  split_and!; [|done|].
  - eapply pmm_wf_update; [done..|]. destruct W as [W _].
    apply Forall_app in W as [W1 W2]. apply Forall_cons in W2 as [_ W2]. apply Forall_app. by split; [|constructor].
  - unfold free_pages. rewrite !fmap_app, !fmap_cons, !concat_app. cbn [concat]. rewrite P.
    rewrite <- !app_assoc. apply Permutation_app_swap_app.
Qed.


(** Two arenas, the second kernel mapped and with its first page in use. *)
Definition demo_arena0 : pmm_arena := Arena 0 0 0x100000 0x2000 2 0x8000 [0; 0] [0x8018; 0x8000].
Definition demo_arena1 : pmm_arena :=
  Arena 1 1 0x201000 0x4000 3 0x9000 [1; 0; 0; 0] [0x9018; 0x9030; 0x9048].
Definition demo_arenas : list pmm_arena := [demo_arena0; demo_arena1].

Lemma arena_wf_intro a :
  0 <= ar_base a /\ ar_base a mod PAGE_SIZE = 0 -> 0 < ar_size a /\ ar_size a mod PAGE_SIZE = 0 ->
  ar_base a + ar_size a <= 2 ^ 64 -> 0 < ar_page_array a ->
  Z.of_nat (length (ar_pages a)) = npages a -> ar_free_count a = Z.of_nat (length (ar_free_list a)) ->
  NoDup (ar_free_list a) ->
  ar_free_list a ≡ₚ page_ptr a ∘ Z.of_nat <$> filter (fun i => (page_is_free <$> ar_pages a !! i) = Some true)
                                                (seq 0 (length (ar_pages a))) ->
  arena_wf a.
Proof.
  intros ? ? ? ? Hl ? ? P. split; [done..|]. intros p. rewrite P, list_elem_of_fmap.
  setoid_rewrite list_elem_of_filter. setoid_rewrite elem_of_seq. split.
  - intros (i & -> & (f & Hf & Hi)%fmap_Some & _). exists (Z.of_nat i), f. rewrite Nat2Z.id.
    split_and!; [lia|done|done|done].
  - intros (i & f & Hi & -> & Hf & Hfr). exists (Z.to_nat i). cbn. rewrite Z2Nat.id, Hf by done. cbn.
    rewrite Hfr. apply lookup_lt_Some in Hf. split_and!; [done|done|lia|lia].
Qed.

Lemma demo_arenas_wf : pmm_wf demo_arenas.
Proof.
  split.
  - apply Forall_cons; split; [|apply Forall_cons; split; [|by apply Forall_nil]]; apply arena_wf_intro; apply (bool_decide_unpack _); vm_compute; exact I.
  - split; [|done]. apply Forall_cons; split; [|by apply Forall_nil]. apply (bool_decide_unpack _). vm_compute. exact I.
Qed.

Lemma pmm_alloc_pages_correct_witness :
  pmm_wf demo_arenas /\ exists arenas', pmm_alloc_pages demo_arenas 3 [] = Some (3, arenas', [0x8018; 0x8000; 0x9018]).
Proof.
  split; [apply demo_arenas_wf|].
  destruct (pmm_alloc_pages_correct demo_arenas 3 [] demo_arenas_wf ltac:(lia)) as (ar' & E & _).
  exists ar'. exact E.
Defined.

Lemma pmm_alloc_free_roundtrip_witness :
  exists arenas1 l, pmm_alloc_pages demo_arenas 3 [] = Some (3, arenas1, l) /\
    exists arenas2, pmm_free arenas1 l = Some (3, arenas2) /\ free_pages arenas2 ≡ₚ free_pages demo_arenas.
Proof.
  eexists _, _. split; [reflexivity|].
  destruct (pmm_alloc_free_roundtrip demo_arenas 3 3 _ _ demo_arenas_wf ltac:(lia) eq_refl)
    as (ar2 & E & _ & _ & P).
  exists ar2. split; [exact E|exact P].
Defined.


(** ** Addresses *)
Lemma page_address a i :
  arena_wf a -> 0 <= i < npages a -> PAGE_ADDRESS_FROM_ARENA (page_ptr a i) a = ar_base a + i * PAGE_SIZE.
Proof.
  intros W Hi. unfold PAGE_ADDRESS_FROM_ARENA. rewrite page_index_ptr.
  pose proof (aw_base _ W). pose proof (aw_top _ W). unfold npages, PAGE_SIZE in *.
  rewrite wrap_small; [lia|]. Z.div_mod_to_equations. lia.
Qed.

Lemma address_in_arena a x :
  arena_wf a -> 0 <= x -> ADDRESS_IN_ARENA x a = true <-> ar_base a <= x < ar_base a + ar_size a.
Proof.
  intros [[] [] ? _ _ _ _ _] Hx. unfold ADDRESS_IN_ARENA. rewrite (wrap_small 64) by lia.
  rewrite andb_true_iff, !Z.leb_le. lia.
Qed.

Lemma page_to_paddr_run arenas p :
  pmm_wf arenas -> page_known arenas p ->
  exists a i, a ∈ arenas /\ 0 <= i < npages a /\ p = page_ptr a i /\
    vm_page_to_paddr arenas p = ar_base a + i * PAGE_SIZE.
Proof.
  intros [W Hap] Hk. induction W as [|a l Wa W IH]; [by apply Exists_nil in Hk|].
  destruct Hap as [Ha Hap]. cbn [vm_page_to_paddr]. apply Exists_cons in Hk as [Hk|Hk].
  - rewrite page_belongs by done. destruct Hk as (i & Hi & ->). exists a, i.
    split_and!; [set_solver|lia|lia|done|by apply page_address].
  - pose proof Hk as (b & Hb & Hp)%Exists_exists. rewrite Forall_forall in Ha.
    rewrite (page_apart a b p) by auto. destruct (IH Hap Hk) as (c & i & ? & ? & ? & ?).
    exists c, i. split_and!; [set_solver|lia|lia|done|done].
Qed.

Lemma page_ptr_paddr arenas a i :
  pmm_wf arenas -> a ∈ arenas -> 0 <= i < npages a -> vm_page_to_paddr arenas (page_ptr a i) = ar_base a + i * PAGE_SIZE.
Proof.
  intros [W Hap] Hin Hi. induction W as [|b l Wb W IH]; [set_solver|]. destruct Hap as [Hb Hap]. cbn [vm_page_to_paddr].
  assert (page_of a (page_ptr a i)) as Hp by (by exists i). apply elem_of_cons in Hin as [->|Hin].
  - rewrite page_belongs by done. by apply page_address.
  - rewrite Forall_forall in Hb. rewrite (page_apart b a) by auto. by apply IH.
Qed.

Lemma paddr_to_page_run arenas a x :
  pmm_wf arenas -> a ∈ arenas -> ar_base a <= x < ar_base a + ar_size a ->
  paddr_to_vm_page arenas x = page_ptr a ((x - ar_base a) / PAGE_SIZE).
Proof.
  intros [W Hap] Hin Hx. induction W as [|b l Wb W IH]; [set_solver|].
  destruct Hap as [Hb Hap]. cbn [paddr_to_vm_page]. apply elem_of_cons in Hin as [->|Hin].
  - rewrite (proj2 (address_in_arena b x Wb ltac:(destruct (aw_base _ Wb); lia))) by done. done.
  - assert (ADDRESS_IN_ARENA x b = false) as ->; [|by apply IH].
    apply not_true_iff_false. rewrite Forall_forall in W, Hb.
    pose proof (aw_base _ (W _ Hin)). rewrite address_in_arena by (done || lia).
    destruct (Hb _ Hin) as [_ Hd]. lia.
Qed.

Lemma page_of_address arenas p :
  pmm_wf arenas -> page_known arenas p ->
  vm_page_to_paddr arenas p mod PAGE_SIZE = 0 /\
  forall off, 0 <= off < PAGE_SIZE -> paddr_to_vm_page arenas (vm_page_to_paddr arenas p + off) = p.
Proof.
  intros W Hk. destruct (page_to_paddr_run arenas p W Hk) as (a & i & Ha & Hi & -> & ->).
  pose proof (proj1 (Forall_forall _ _) (pw_each _ W) a Ha) as Wa.
  pose proof (aw_base _ Wa). pose proof (aw_size _ Wa). unfold npages in Hi. split.
  - unfold PAGE_SIZE in *. Z.div_mod_to_equations. lia.
  - intros off Hoff. rewrite (paddr_to_page_run arenas a) by (done || unfold PAGE_SIZE in *; Z.div_mod_to_equations; lia).
    f_equal. unfold PAGE_SIZE in *. Z.div_mod_to_equations. lia.
Qed.

(** A page structure and the physical address of its page determine each
    other: [paddr_to_vm_page] inverts [vm_page_to_paddr], whose results are page
    aligned, and takes every address inside a page to that page's structure. *)
Theorem page_address_roundtrip arenas p off :
  pmm_wf arenas -> page_known arenas p -> 0 <= off < PAGE_SIZE ->
  IS_PAGE_ALIGNED (vm_page_to_paddr arenas p) = true /\
  paddr_to_vm_page arenas (vm_page_to_paddr arenas p + off) = p.
Proof.
  intros W Hk Hoff. destruct (page_of_address arenas p W Hk) as [Hm Hp].
  split; [rewrite IS_PAGE_ALIGNED_mod; by apply Z.eqb_eq|by apply Hp].
Qed.

Lemma page_address_roundtrip_witness :
  paddr_to_vm_page demo_arenas (vm_page_to_paddr demo_arenas 0x9030 + 5) = 0x9030.
Proof.
  apply (page_address_roundtrip demo_arenas 0x9030 5); [apply demo_arenas_wf| |unfold PAGE_SIZE; lia].
  apply Exists_cons. right. apply Exists_cons. left. exists 2. vm_compute. intuition congruence.
Defined.

(** ** A run that is not there: 32-bit overflow

    [start + count] is computed in 32 bits, so a huge count passes the bound and
    the scan leaves the page array. *)
Definition overflow_arena : pmm_arena := Arena 1 0 0x1000 0x2000 2 0x8000 [0; 0] [0x8000; 0x8018].


(** For a single page [pmm_alloc_kpages] leaves the caller's list alone,
    where its description promises to append the page structure to it. *)
Theorem pmm_alloc_kpages_single_list kv arenas l r arenas' l' :
  pmm_alloc_kpages kv arenas 1 (Some l) = Some (r, arenas', l') -> l' = Some l.
Proof. unfold pmm_alloc_kpages. cbn -[pmm_alloc_page]. destruct (pmm_alloc_page arenas) as [[p ar]|]; cbn; congruence. Qed.

Lemma pmm_alloc_kpages_single_list_witness :
  exists arenas', pmm_alloc_kpages (Z.add 0xffff0000) demo_arenas 1 (Some []) =
                    Some (0xffff0000 + 0x101000, arenas', Some []) /\ Some (A:=list Z) [] = Some [].
Proof.
  eexists. split; [vm_compute; reflexivity|].
  eapply (pmm_alloc_kpages_single_list (Z.add 0xffff0000) demo_arenas []). vm_compute. reflexivity.
Defined.

(** ** Adding an arena at boot *)
Definition by_priority : list pmm_arena -> Prop := StronglySorted (fun a b => ar_priority a <= ar_priority b).

Lemma insert_arena_split arena arenas :
  by_priority arenas ->
  exists l1 l2, arenas = l1 ++ l2 /\ insert_arena arena arenas = l1 ++ arena :: l2 /\
    by_priority (insert_arena arena arenas).
Proof.
  induction 1 as [|a l Hs IH Hall]; cbn [insert_arena].
  { exists [], []. split_and!; [done..|]. repeat constructor. }
  destruct (Z.ltb_spec (ar_priority arena) (ar_priority a)) as [Hlt|Hge].
  - exists [], (a :: l). split_and!; [done..|]. constructor; [by constructor|].
    constructor; [lia|]. eapply Forall_impl; [done|]. cbn. lia.
  - destruct IH as (l1 & l2 & -> & E & Hs'). exists (a :: l1), l2. cbn. rewrite E in *. split_and!; [done..|].
    constructor; [done|]. apply Forall_app in Hall as [H1 H2]. apply Forall_app. by split; [|constructor].
Qed.

Lemma pairwise_insert {A} (R : A -> A -> Prop) x l1 l2 :
  (forall y, R x y -> R y x) -> pairwise R (l1 ++ l2) -> Forall (R x) (l1 ++ l2) -> pairwise R (l1 ++ x :: l2).
Proof.
  intros Hsym. induction l1 as [|y l1 IH]; cbn; [by intros|].
  intros [Hy Hp] [Hxy Hx]%Forall_cons. split; [|by apply IH].
  apply Forall_app in Hy as [H1 H2]. apply Forall_app. split; [done|]. constructor; [by apply Hsym|done].
Qed.

(** The page structures of all arenas lie below [e]. *)
Definition arrays_below (e : Z) (arenas : list pmm_arena) : Prop :=
  Forall (fun a => page_ptr a (npages a) <= e) arenas.

Lemma boot_alloc_mem_run e len :
  0 <= e -> 0 <= len -> e + len + 16 < 2 ^ 64 ->
  exists ptr e', boot_alloc_mem e len = (ptr, e') /\ e <= ptr /\ ptr + len <= e' /\ e' < e + len + 15.
Proof.
  intros He Hl Hb. unfold boot_alloc_mem, ALIGN.
  pose proof (ROUNDUP_spec e 3) as [H1 _]; [lia..|]. pose proof (ROUNDUP_spec len 3) as [H2 _]; [lia..|].
  change (2 ^ 3) with 8 in *. rewrite (wrap_small 64) by lia. eexists _, _. split; [done|]. lia.
Qed.

Lemma filter_all {A} (P : A -> Prop) `{!forall x, Decision (P x)} l : Forall P l -> filter P l = l.
Proof. induction 1; [done|]. rewrite filter_cons_True by done. by f_equal. Qed.

Lemma fresh_arena_wf flags prio base size arr :
  0 <= base /\ base mod PAGE_SIZE = 0 -> 0 < size /\ size mod PAGE_SIZE = 0 -> base + size <= 2 ^ 64 -> 0 < arr ->
  arena_wf (Arena flags prio base size (size / PAGE_SIZE) arr (replicate (Z.to_nat (size / PAGE_SIZE)) 0)
    ((fun i => arr + sizeof_vm_page * Z.of_nat i) <$> seq 0 (Z.to_nat (size / PAGE_SIZE)))).
Proof.
  intros Hb Hs Ht Ha. assert (0 <= size / PAGE_SIZE) by (apply Z.div_pos; unfold PAGE_SIZE; lia).
  apply arena_wf_intro; cbn; try done.
  - rewrite length_replicate. unfold npages. cbn. lia.
  - rewrite length_fmap, length_seq. lia.
  - apply NoDup_fmap_2; [|apply NoDup_seq]. intros x y. unfold sizeof_vm_page. lia.
  - rewrite length_replicate. rewrite filter_all; [done|].
    apply Forall_forall. intros i Hi%elem_of_seq. rewrite lookup_replicate_2 by lia. done.
Qed.

(** [pmm_add_arena] adds a page aligned arena that overlaps no other one:
    the arenas stay in priority order and satisfy the invariant, the new arena's
    page structures come from the boot allocator, apart from all others, and all
    its pages become free. *)
Theorem pmm_add_arena_correct arenas e arena :
  pmm_wf arenas -> by_priority arenas -> arrays_below e arenas -> 0 < e ->
  IS_PAGE_ALIGNED (ar_base arena) = true -> IS_PAGE_ALIGNED (ar_size arena) = true ->
  0 <= ar_base arena -> 0 < ar_size arena -> ar_base arena + ar_size arena <= 2 ^ 64 ->
  Forall (fun a => ar_base a + ar_size a <= ar_base arena \/ ar_base arena + ar_size arena <= ar_base a) arenas ->
  e + npages arena * sizeof_vm_page + 16 < 2 ^ 64 ->
  exists arenas' e' new, pmm_add_arena arenas e arena = Some (arenas', e') /\
    pmm_wf arenas' /\ by_priority arenas' /\ arrays_below e' arenas' /\ arenas' ≡ₚ new :: arenas /\
    (ar_base new, ar_size new, ar_priority new) = (ar_base arena, ar_size arena, ar_priority arena) /\
    (forall i, 0 <= i < npages arena -> page_ptr new i ∈ free_pages arenas').
Proof.
  intros W Hp Hb He Hba Hsa Hb0 Hs0 Ht Hd Hov. unfold pmm_add_arena. rewrite Hba, Hsa.
  rewrite (proj2 (Z.ltb_lt _ _)) by done. cbn [oguard mbind option_bind].
  rewrite IS_PAGE_ALIGNED_mod in Hba, Hsa. apply Z.eqb_eq in Hba, Hsa. fold (npages arena).
  assert (0 <= npages arena) by (apply Z.div_pos; unfold PAGE_SIZE; lia).
  rewrite (wrap_small 64) by (unfold sizeof_vm_page in *; lia).
  destruct (boot_alloc_mem_run e (npages arena * sizeof_vm_page)) as (arr & e' & -> & H1 & H2 & _);
    [unfold sizeof_vm_page in *; lia..|].
  pose proof (fresh_arena_wf (ar_flags arena) (ar_priority arena) (ar_base arena) (ar_size arena) arr) as Wn.
  fold (npages arena) in Wn. set (new := Arena _ _ _ _ _ _ _ _) in *.
  specialize (Wn (conj Hb0 Hba) (conj Hs0 Hsa) Ht ltac:(lia)).
  destruct (insert_arena_split new arenas Hp) as (l1 & l2 & -> & E & Hp'). rewrite E in *.
  assert (page_ptr new (npages new) <= e') as Hnew by (unfold page_ptr; cbn; unfold npages in *; cbn; lia).
  exists (l1 ++ new :: l2), e', new. split; [done|]. split_and!; try done.
  - destruct W as [W Hap]. split.
    + apply Forall_app in W as [? ?]. apply Forall_app. by split; [|constructor].
    + apply pairwise_insert; [unfold arenas_apart; tauto|done|].
      unfold arrays_below in Hb. rewrite Forall_forall in *. intros a Ha. specialize (Hb a Ha). specialize (Hd a Ha).
      split; [right|cbn; tauto]. cbn. lia.
  - unfold arrays_below in *. apply Forall_app in Hb as [Hb1 Hb2]. apply Forall_app.
    assert (e <= e') by (unfold sizeof_vm_page in *; lia).
    split; [|constructor; [done|]]; (eapply Forall_impl; [done|]); cbn; lia.
  - by rewrite Permutation_middle.
  - intros i Hi. apply elem_of_free_pages, Exists_app. right. apply Exists_cons. left.
    cbn. apply list_elem_of_fmap. exists (Z.to_nat i). rewrite Z2Nat.id by lia. split; [done|].
    apply elem_of_seq. lia.
Qed.

Lemma pmm_add_arena_correct_witness :
  exists arenas' e', pmm_add_arena demo_arenas 0xa003 (Arena 1 0 0x300000 0x1000 0 0 [] []) = Some (arenas', e') /\
    pmm_wf arenas'.
Proof.
  destruct (pmm_add_arena_correct demo_arenas 0xa003 (Arena 1 0 0x300000 0x1000 0 0 [] []))
    as (ar' & e' & _ & E & W & _).
  - apply demo_arenas_wf.
  - repeat constructor; cbn; lia.
  - apply (bool_decide_unpack _); vm_compute; exact I.
  - lia.
  - reflexivity.
  - reflexivity.
  - cbn. lia.
  - cbn. lia.
  - cbn. lia.
  - apply (bool_decide_unpack _); vm_compute; exact I.
  - vm_compute. reflexivity.
  - eauto.
Defined.

(** ** Specific pages *)
Lemma next_page_aligned addr : addr mod PAGE_SIZE = 0 -> u64 (addr + PAGE_SIZE) mod PAGE_SIZE = 0.
Proof.
  intros Hm. unfold wrap. change (2 ^ 64) with (PAGE_SIZE * 2 ^ 52).
  rewrite Z.rem_mul_r by done. unfold PAGE_SIZE in *. Z.div_mod_to_equations. lia.
Qed.

Section range.
(** the page structure of each address *)
Context (f : Z -> Z).

Definition range_pages (addr : Z) (m : nat) : list Z :=
  (fun k => f (u64 (addr + Z.of_nat k * PAGE_SIZE))) <$> seq 0 m.

Definition covers (a : pmm_arena) : Prop :=
  forall x, ar_base a <= x < ar_base a + ar_size a -> f x = page_ptr a ((x - ar_base a) / PAGE_SIZE).

(** The pages of the whole range are free pages of [a]. *)
Definition range_free (a : pmm_arena) (addr : Z) (n : nat) : Prop :=
  forall k, (k < n)%nat -> let x := addr + Z.of_nat k * PAGE_SIZE in
    ar_base a <= x < ar_base a + ar_size a /\ f x ∈ ar_free_list a.

Lemma range_pages_S addr m :
  0 <= addr -> range_pages addr (S m) = f (u64 addr) :: range_pages (u64 (addr + PAGE_SIZE)) m.
Proof.
  intros Ha. unfold range_pages. rewrite <- cons_seq, fmap_cons, Z.mul_0_l, Z.add_0_r. f_equal.
  rewrite <- fmap_S_seq, <- list_fmap_compose. apply list_fmap_ext. intros i k _. cbn -[Z.of_nat].
  rewrite wrap_add_l by lia. do 2 f_equal. lia.
Qed.

Lemma covers_layout a b : layout b = layout a -> covers a -> covers b.
Proof.
  unfold covers. intros E H x. rewrite (layout_page_ptr _ _ _ E). unfold layout in E.
  injection E as _ _ -> -> _. apply H.
Qed.

Lemma range_in_arena_run todo a addr l :
  arena_wf a -> covers a -> 0 <= addr < 2 ^ 64 -> addr mod PAGE_SIZE = 0 ->
  exists m a', (m <= todo)%nat /\
    range_in_arena todo a addr l =
      Some ((todo - m)%nat, a', u64 (addr + Z.of_nat m * PAGE_SIZE), l ++ range_pages addr m) /\
    arena_wf a' /\ layout a' = layout a /\ ar_free_list a ≡ₚ range_pages addr m ++ ar_free_list a' /\
    (range_free a addr todo -> m = todo) /\ (ADDRESS_IN_ARENA addr a = false -> m = 0%nat).
Proof.
  revert a addr l. induction todo as [|todo IH]; intros a addr l W Hc Ha Hm; cbn [range_in_arena].
  { exists 0%nat, a. rewrite Z.add_0_r, wrap_small, app_nil_r by done. by repeat split; try lia; try apply W. }
  destruct (ADDRESS_IN_ARENA addr a) eqn:Hin.
  2:{ exists 0%nat, a. rewrite Z.add_0_r, wrap_small, app_nil_r by done. split_and!; try done; [lia|].
      intros Hr. destruct (Hr 0%nat ltac:(lia)) as [Hx _]. rewrite Z.add_0_r in Hx.
      apply (address_in_arena a addr W) in Hx; [congruence|lia]. }
  apply address_in_arena in Hin; [|done|lia]. pose proof W as [[Hb0 Hb] [Hs0 Hs] Htop _ Hlen _ _ _].
  set (i := (addr - ar_base a) / PAGE_SIZE).
  assert (0 <= i < npages a) as Hi by (unfold npages, i, PAGE_SIZE in *; Z.div_mod_to_equations; lia).
  rewrite (proj2 (Z.ltb_lt _ _)) by apply Hi. cbn [oguard mbind option_bind].
  rewrite page_flags_ptr by lia.
  destruct (lookup_lt_is_Some_2 (ar_pages a) (Z.to_nat i)) as [g Hg]; [lia|]. rewrite Hg. cbn [mbind option_bind].
  pose proof (free_iff a i g W ltac:(lia) Hg) as Hfree. unfold page_is_free in Hfree.
  destruct (has_flag g VM_PAGE_FLAG_NONFREE).
  { exists 0%nat, a. rewrite Z.add_0_r, wrap_small, app_nil_r by done. split_and!; try done; [lia|].
    intros Hr. destruct (Hr 0%nat ltac:(lia)) as [Hx Hf]. rewrite Z.add_0_r, (Hc addr Hin) in Hf. by apply Hfree in Hf. }
  destruct (take_page_run a (page_ptr a i) W) as (a1 & E1 & W1 & L1 & F1 & _); [by apply Hfree|].
  rewrite E1. cbn [mbind option_bind].
  destruct (IH a1 (u64 (addr + PAGE_SIZE)) (l ++ [page_ptr a i]) W1) as (m & a2 & Hmt & E2 & W2 & L2 & P2 & All2 & _).
  { by eapply covers_layout. } { by apply wrap_range. }
  { by apply next_page_aligned. }
  exists (S m), a2. rewrite range_pages_S, (wrap_small 64 addr), (Hc addr Hin) by lia. fold i.
  rewrite E2, wrap_add_l, <- app_assoc by lia. split_and!; [lia| |done|congruence| | |done].
  - replace (addr + Z.of_nat (S m) * PAGE_SIZE) with (addr + PAGE_SIZE + Z.of_nat m * PAGE_SIZE) by lia. done.
  - cbn. rewrite <- P2, F1. apply remove_elt_perm; [apply W|by apply Hfree].
  - intros Hr. f_equal. destruct todo as [|todo]; [lia|].
    destruct (Hr 1%nat ltac:(lia)) as [Hx1 _]. apply All2. intros k Hk. destruct (Hr (S k) ltac:(lia)) as [Hx Hf].
    unfold layout in L1. injection L1 as _ _ EL1 EL2 _. cbn zeta.
    rewrite (wrap_small 64) by (unfold PAGE_SIZE in *; lia).
    replace (addr + PAGE_SIZE + Z.of_nat k * PAGE_SIZE) with (addr + Z.of_nat (S k) * PAGE_SIZE) by lia.
    rewrite EL1, EL2, F1, elem_of_remove_elt. split_and!; [lia..|done|].
    rewrite (Hc _ Hx). intros E%page_ptr_inj. unfold i, PAGE_SIZE in *. Z.div_mod_to_equations. lia.
Qed.
End range.

Lemma alloc_range_walk_run f todo arenas addr l :
  Forall arena_wf arenas -> Forall (covers f) arenas -> pairwise arenas_apart arenas ->
  0 <= addr < 2 ^ 64 -> addr mod PAGE_SIZE = 0 ->
  exists m arenas', (m <= todo)%nat /\
    alloc_range_walk todo arenas addr l = Some ((todo - m)%nat, arenas', l ++ range_pages f addr m) /\
    Forall arena_wf arenas' /\ same_layout arenas arenas' /\
    free_pages arenas ≡ₚ range_pages f addr m ++ free_pages arenas' /\
    (Exists (fun a => range_free f a addr todo) arenas -> m = todo).
Proof.
  intros W Hc. revert todo addr l. induction W as [|a ar Wa W IH]; intros todo addr l Hap Ha Hm; cbn [alloc_range_walk].
  { exists 0%nat, []. rewrite Nat.sub_0_r, app_nil_r. split_and!; [lia|done..|]. by intros ?%Exists_nil. }
  apply Forall_cons in Hc as [Hca Hc]. destruct Hap as [Hapa Hap].
  destruct (range_in_arena_run f todo a addr l Wa Hca Ha Hm) as (m & a' & Hmt & E & Wa' & La & Pa & Alla & Outa).
  rewrite E. cbn [mbind option_bind]. destruct (Nat.eqb_spec (todo - m) 0) as [E0|Hne].
  { exists m, (a' :: ar). split_and!; [lia|done|by constructor|unfold same_layout; rewrite !fmap_cons; congruence| |lia].
    change (free_pages (a :: ar)) with (ar_free_list a ++ free_pages ar). by rewrite Pa, <- app_assoc. }
  assert (u64 (addr + Z.of_nat m * PAGE_SIZE) mod PAGE_SIZE = 0) as Hm'.
  { unfold wrap. change (2 ^ 64) with (PAGE_SIZE * 2 ^ 52). rewrite Z.rem_mul_r by done.
    unfold PAGE_SIZE in *. Z.div_mod_to_equations. lia. }
  destruct (IH Hc (todo - m)%nat _ (l ++ range_pages f addr m) Hap (wrap_range 64 _ ltac:(lia)) Hm')
    as (m2 & ar' & Hm2 & E2 & W2 & L2 & P2 & All2).
  assert (range_pages f addr (m + m2) =
          range_pages f addr m ++ range_pages f (u64 (addr + Z.of_nat m * PAGE_SIZE)) m2) as Erp.
  { unfold range_pages. rewrite seq_app, fmap_app. f_equal. rewrite Nat.add_comm, <- fmap_add_seq, <- list_fmap_compose.
    apply list_fmap_ext. intros i k _. cbn. rewrite wrap_add_l by lia. do 2 f_equal. lia. }
  rewrite E2. cbn [mbind option_bind]. exists (m + m2)%nat, (a' :: ar').
  rewrite Erp, <- app_assoc. split_and!; [lia| |by constructor| | |].
  - by replace (todo - m - m2)%nat with (todo - (m + m2))%nat by lia.
  - unfold same_layout in *. rewrite !fmap_cons. congruence.
  - change (free_pages (a :: ar)) with (ar_free_list a ++ free_pages ar).
    change (free_pages (a' :: ar')) with (ar_free_list a' ++ free_pages ar').
    rewrite Pa, P2, <- !app_assoc. f_equiv. apply Permutation_app_swap_app.
  - intros [Hf|Hf]%Exists_cons; [apply Alla in Hf; lia|]. assert (m = 0)%nat as ->.
    { apply Outa, not_true_iff_false. intros Hin%(address_in_arena a addr Wa); [|lia].
      apply Exists_exists in Hf as (b & Hb & Hf). rewrite Forall_forall in Hapa. destruct (Hapa b Hb) as [_ Hd].
      destruct (Hf 0%nat ltac:(lia)) as [Hx _]. lia. }
    rewrite Z.add_0_r, wrap_small, Nat.sub_0_r in All2 by done. by apply All2.
Qed.

(** [pmm_alloc_range] takes pages at consecutive physical addresses from the
    given one on, each of them free before, and appends their structures in
    that order; when the whole range is free in one arena it takes all of it. *)
Theorem pmm_alloc_range_correct arenas address count l :
  pmm_wf arenas -> 0 <= address < 2 ^ 64 -> 0 <= count ->
  let f := paddr_to_vm_page arenas in
  let addr := ROUNDDOWN address PAGE_SIZE in
  exists m arenas', (m <= Z.to_nat count)%nat /\
    pmm_alloc_range arenas address count l = Some (Z.of_nat m, arenas', l ++ range_pages f addr m) /\
    pmm_wf arenas' /\ free_pages arenas ≡ₚ range_pages f addr m ++ free_pages arenas' /\
    (Exists (fun a => range_free f a addr (Z.to_nat count)) arenas -> Z.of_nat m = count).
Proof.
  intros W Ha Hc f addr. unfold pmm_alloc_range. destruct (Z.eqb_spec count 0) as [->|Hne].
  { exists 0%nat, arenas. rewrite app_nil_r. split_and!; [lia|done..]. }
  assert (addr = address / PAGE_SIZE * PAGE_SIZE) as Eaddr by exact (ROUNDDOWN_div address 12 ltac:(lia)).
  destruct (alloc_range_walk_run f (Z.to_nat count) arenas addr l) as (m & ar' & Hm & E & W' & L' & P' & All).
  - apply W.
  - apply Forall_forall. intros a Hin x Hx. by apply (paddr_to_page_run arenas a x W).
  - apply W.
  - rewrite Eaddr. unfold PAGE_SIZE. Z.div_mod_to_equations. lia.
  - rewrite Eaddr. by apply Z.mod_mul.
  - fold addr. rewrite E. cbn [mbind option_bind]. exists m, ar'.
    split_and!; [done| |by eapply pmm_wf_update|done|intros ->%All; lia].
    do 3 f_equal. lia.
Qed.

Lemma pmm_alloc_range_correct_witness :
  exists m arenas', pmm_alloc_range demo_arenas 0x202345 2 [] =
    Some (Z.of_nat m, arenas', range_pages (paddr_to_vm_page demo_arenas) 0x202000 m) /\ pmm_wf arenas'.
Proof.
  destruct (pmm_alloc_range_correct demo_arenas 0x202345 2 [] demo_arenas_wf) as (m & ar' & _ & E & W & _).
  - lia.
  - lia.
  - exists m, ar'. split; [exact E|exact W].
Defined.
