(* ===== verification/Vmm.v ===== *)
(** * Virtual memory: the code of [kernel/vm/vmm.c] and [kernel/vm/vm.c]

    Address spaces with their regions in address order, the search for room in
    one, and the allocation, reservation and freeing of regions.  The memory
    management unit is an interface, [ArchMmu], with one instance per
    architecture in the tree.  Functions run from end to end on a [vmm_state];
    [None] is a failed assertion or an invalid access. *)
From S2P Require Import Prelude Align Pmm.

(** ** Configuration and the architecture's functions *)
Class AspaceConfig := {
  KERNEL_ASPACE_BASE : Z; KERNEL_ASPACE_SIZE : Z;
  USER_ASPACE_BASE : Z; USER_ASPACE_SIZE : Z;
}.

(** [arch/include/arch/mmu.h]: every function takes the [arch_aspace_t] and gives
    its status and the new one.  A query gives the address and the flags. *)
Class ArchMmu (arch_aspace : Type) := {
  arch_aspace_zero : arch_aspace;
  arch_mmu_init_aspace : Z -> Z -> Z -> Z * arch_aspace;
  arch_mmu_map : arch_aspace -> Z -> Z -> Z -> Z -> Z * arch_aspace;
  arch_mmu_unmap : arch_aspace -> Z -> Z -> Z * arch_aspace;
  arch_mmu_query : arch_aspace -> Z -> Z * Z * Z;
}.

Definition VMM_ASPACE_FLAG_KERNEL : Z := 1.
Definition VMM_REGION_FLAG_RESERVED : Z := 1.
Definition VMM_REGION_FLAG_PHYSICAL : Z := 2.
Definition VMM_FLAG_VALLOC_SPECIFIC : Z := 1.
Definition ARCH_ASPACE_FLAG_KERNEL : Z := 1.
Definition MMU_INITIAL_MAPPING_TEMPORARY : Z := 1.

Definition vm_name (name : string) : string := String.substring 0 31 name.

Record vmm_region := Region {
  r_ptr : Z;  (* the address of the structure *)
  r_name : string;
  r_flags : Z;
  r_arch_mmu_flags : Z;
  r_base : Z;
  r_size : Z;
  r_page_list : list Z;
}.
Definition set_r_base (v : Z) (r : vmm_region) : vmm_region :=
  Region (r_ptr r) (r_name r) (r_flags r) (r_arch_mmu_flags r) v (r_size r) (r_page_list r).
Definition set_r_page_list (v : list Z) (r : vmm_region) : vmm_region :=
  Region (r_ptr r) (r_name r) (r_flags r) (r_arch_mmu_flags r) (r_base r) (r_size r) v.

(** ** Ranges and the search for room *)

Definition is_inside (as_base as_size vaddr : Z) : bool :=
  (as_base <=? vaddr) && (vaddr <=? u64 (as_base + as_size - 1)).

Definition is_region_inside (as_base as_size vaddr size : Z) : bool :=
  if negb (is_inside as_base as_size vaddr) then false
  else if size =? 0 then true
  else if u64 (vaddr + size - 1) <? vaddr then false
  else if u64 (as_base + as_size - 1) <? u64 (vaddr + size - 1) then false
  else true.

Definition trim_size (as_base as_size vaddr size : Z) : option Z :=
  oguard (is_inside as_base as_size vaddr);;
  if size =? 0 then Some size
  else
    let offset := u64 (vaddr - as_base) in
    let size := if u64 (offset + size) <? offset then u64 (ULONG_MAX - offset - 1) else size in
    Some (if u64 (as_size - 1) <=? u64 (offset + size) then u64 (as_size - offset) else size).

(** The last byte of a region. *)
Definition r_last (r : vmm_region) : Z := u64 (r_base r + r_size r - 1).

(** The walk of [add_region_to_aspace] after the first region was not beyond. *)
Fixpoint add_region_walk (r : vmm_region) (r_end : Z) (l : list vmm_region) : option (list vmm_region) :=
  match l with
  | [] => None
  | last :: l' =>
      if (r_last last <? r_base r) &&
         match l' with [] => true | next :: _ => r_end <? r_base next end
      then Some (last :: r :: l')
      else (cons last) <$> add_region_walk r r_end l'
  end.

(** The status and the region list. *)
Definition add_region (as_base as_size : Z) (regions : list vmm_region) (r : vmm_region)
  : Z * list vmm_region :=
  if (r_size r =? 0) || negb (is_region_inside as_base as_size (r_base r) (r_size r))
  then (ERR_OUT_OF_RANGE, regions)
  else
    let r_end := r_last r in
    if match regions with [] => true | last :: _ => r_end <? r_base last end
    then (NO_ERROR, r :: regions)
    else match add_region_walk r r_end regions with
         | Some regions => (NO_ERROR, regions)
         | None => (ERR_NO_MEMORY, regions)
         end.

Definition arch_mmu_pick_spot (base align : Z) : Z := ALIGN base align.

(** What [check_gap] tells its caller: the spot, that the search is over, or to
    go on with the next gap. *)
Inductive gap_result := GapFound (pva : Z) | GapStop | GapNext.

Definition check_gap (as_base as_size : Z) (prev next : option vmm_region) (align size : Z) : gap_result :=
  let gap_beg := match prev with Some p => u64 (r_base p + r_size p) | None => as_base end in
  match
    match next with
    | Some n => if gap_beg =? r_base n then inr GapNext else inl (u64 (r_base n - 1))
    | None => if gap_beg =? u64 (as_base + as_size) then inr GapStop
              else inl (u64 (as_base + as_size - 1))
    end
  with
  | inr res => res
  | inl gap_end =>
      let pva := arch_mmu_pick_spot gap_beg align in
      if pva <? gap_beg then GapStop  (* address wrapped around *)
      else if (pva <? gap_end) && (size <=? u64 (gap_end - pva + 1)) then GapFound pva
      else GapNext
  end.

(** The walk over the gaps behind each region, with how many regions precede. *)
Fixpoint alloc_spot_walk (as_base as_size align size : Z) (before : nat) (l : list vmm_region)
  : option (Z * nat) :=
  match l with
  | [] => None
  | r :: l' =>
      match check_gap as_base as_size (Some r) (head l') align size with
      | GapFound spot => Some (spot, S before)
      | GapStop => None
      | GapNext => alloc_spot_walk as_base as_size align size (S before) l'
      end
  end.

(** The spot and the number of regions before it; inner [None] stands for -1. *)
Definition alloc_spot (as_base as_size : Z) (regions : list vmm_region) (size align_pow2 : Z)
  : option (option (Z * nat)) :=
  oguard ((0 <? size) && IS_PAGE_ALIGNED size);;
  let align_pow2 := if align_pow2 <? PAGE_SIZE_SHIFT then PAGE_SIZE_SHIFT else align_pow2 in
  oguard (align_pow2 <? 64);;
  let align := 2 ^ align_pow2 in
  Some match check_gap as_base as_size None (head regions) align size with
       | GapFound spot => Some (spot, O)
       | GapStop => None
       | GapNext => alloc_spot_walk as_base as_size align size O regions
       end.

Fixpoint vmm_find_region (l : list vmm_region) (vaddr : Z) : option vmm_region :=
  match l with
  | [] => None
  | r :: l => if (r_base r <=? vaddr) && (vaddr <=? r_last r) then Some r else vmm_find_region l vaddr
  end.

(** ** State *)
Section vmm.
Context {arch_aspace : Type} `{ArchMmu arch_aspace, AspaceConfig}.

Record vmm_aspace := Aspace {
  as_name : string;
  as_flags : Z;
  as_base : Z;
  as_size : Z;
  as_region_list : list vmm_region;
  as_arch : arch_aspace;
}.
Definition set_as_region_list (l : list vmm_region) (a : vmm_aspace) : vmm_aspace :=
  Aspace (as_name a) (as_flags a) (as_base a) (as_size a) l (as_arch a).
Definition set_as_arch (m : arch_aspace) (a : vmm_aspace) : vmm_aspace :=
  Aspace (as_name a) (as_flags a) (as_base a) (as_size a) (as_region_list a) m.

Record vmm_state := VmmState {
  vs_aspaces : gmap Z vmm_aspace;  (* the live structures by address *)
  vs_aspace_list : list Z;
  vs_arenas : list pmm_arena;
  vs_allocs : list (option Z);     (* what the next calloc calls return *)
  vs_cur_aspace : Z;               (* get_current_thread()->aspace *)
  vs_mmu_aspace : Z;               (* what arch_mmu_context_switch loaded last *)
}.
Definition set_vs_aspaces (m : gmap Z vmm_aspace) (s : vmm_state) : vmm_state :=
  VmmState m (vs_aspace_list s) (vs_arenas s) (vs_allocs s) (vs_cur_aspace s) (vs_mmu_aspace s).
Definition set_vs_aspace_list (l : list Z) (s : vmm_state) : vmm_state :=
  VmmState (vs_aspaces s) l (vs_arenas s) (vs_allocs s) (vs_cur_aspace s) (vs_mmu_aspace s).
Definition set_vs_arenas (l : list pmm_arena) (s : vmm_state) : vmm_state :=
  VmmState (vs_aspaces s) (vs_aspace_list s) l (vs_allocs s) (vs_cur_aspace s) (vs_mmu_aspace s).
Definition set_vs_allocs (l : list (option Z)) (s : vmm_state) : vmm_state :=
  VmmState (vs_aspaces s) (vs_aspace_list s) (vs_arenas s) l (vs_cur_aspace s) (vs_mmu_aspace s).
Definition set_vs_cur_aspace (a : Z) (s : vmm_state) : vmm_state :=
  VmmState (vs_aspaces s) (vs_aspace_list s) (vs_arenas s) (vs_allocs s) a (vs_mmu_aspace s).
Definition set_vs_mmu_aspace (a : Z) (s : vmm_state) : vmm_state :=
  VmmState (vs_aspaces s) (vs_aspace_list s) (vs_arenas s) (vs_allocs s) (vs_cur_aspace s) a.

Definition get_aspace (p : Z) (s : vmm_state) : option vmm_aspace := vs_aspaces s !! p.
Definition put_aspace (p : Z) (a : vmm_aspace) (s : vmm_state) : vmm_state :=
  set_vs_aspaces (<[p := a]> (vs_aspaces s)) s.

(** [calloc]: the pointer, 0 for NULL *)
Definition vm_calloc (s : vmm_state) : Z * vmm_state :=
  match vs_allocs s with
  | Some p :: rest => (p, set_vs_allocs rest s)
  | None :: rest => (0, set_vs_allocs rest s)
  | [] => (0, s)
  end.

Definition vm_pmm_free (pages : list Z) (s : vmm_state) : option vmm_state :=
  '(_, arenas) ← pmm_free (vs_arenas s) pages; Some (set_vs_arenas arenas s).

(** ** Regions *)

Definition alloc_region_struct (name : string) (base size flags arch_mmu_flags : Z) (s : vmm_state)
  : option vmm_region * vmm_state :=
  let '(p, s) := vm_calloc s in
  (if p =? 0 then None else Some (Region p (vm_name name) flags arch_mmu_flags base size []), s).

(** The region added, if any, is also on the list of the address space. *)
Definition alloc_region (aspace : Z) (name : string) (size vaddr align_pow2 vmm_flags region_flags
  arch_mmu_flags : Z) (s : vmm_state) : option (option vmm_region * vmm_state) :=
  let '(r, s) := alloc_region_struct name vaddr size region_flags arch_mmu_flags s in
  match r with
  | None => Some (None, s)
  | Some r =>
      a ← get_aspace aspace s;
      if has_flag vmm_flags VMM_FLAG_VALLOC_SPECIFIC then
        (* stick it in the list, checking to see if it fits *)
        let '(err, regions) := add_region (as_base a) (as_size a) (as_region_list a) r in
        if err <? 0 then Some (None, s)
        else Some (Some r, put_aspace aspace (set_as_region_list regions a) s)
      else
        (* allocate a virtual slot for it *)
        spot ← alloc_spot (as_base a) (as_size a) (as_region_list a) size align_pow2;
        match spot with
        | None => Some (None, s)
        | Some (vaddr, before) =>
            let r := set_r_base vaddr r in
            let regions := take before (as_region_list a) ++ r :: drop before (as_region_list a) in
            Some (Some r, put_aspace aspace (set_as_region_list regions a) s)
        end
  end.

(** The region removed and unmapped, or [ERR_NOT_FOUND]. *)
Definition vmm_remove_region_locked (aspace vaddr : Z) (s : vmm_state)
  : option (Z * option vmm_region * vmm_state) :=
  a ← get_aspace aspace s;
  match vmm_find_region (as_region_list a) vaddr with
  | None => Some (ERR_NOT_FOUND, None, s)
  | Some r =>
      let regions := filter (fun r' => r_ptr r' <> r_ptr r) (as_region_list a) in
      let '(_, arch) := arch_mmu_unmap (as_arch a) (r_base r) (u32 (r_size r / PAGE_SIZE)) in
      Some (NO_ERROR, Some r, put_aspace aspace (set_as_arch arch (set_as_region_list regions a)) s)
  end.

(** Error exits: take the region [r] just added out again. *)
Definition undo_region (aspace : Z) (r : vmm_region) (s : vmm_state) : option vmm_state :=
  '(err2, r_temp, s) ← vmm_remove_region_locked aspace (r_base r) s;
  oguard ((err2 =? NO_ERROR) || (err2 =? ERR_NOT_FOUND));;
  oguard (bool_decide (r_ptr <$> r_temp = Some (r_ptr r)));;
  Some s.

Definition vmm_reserve_space (aspace : Z) (name : option string) (size vaddr : Z) (s : vmm_state)
  : option (Z * vmm_state) :=
  a ← get_aspace aspace s;
  oguard (IS_PAGE_ALIGNED vaddr);;
  oguard (IS_PAGE_ALIGNED size);;
  let name := default EmptyString name in
  if size =? 0 then Some (NO_ERROR, s)
  else if negb (IS_PAGE_ALIGNED vaddr) || negb (IS_PAGE_ALIGNED size) then Some (ERR_INVALID_ARGS, s)
  else if negb (is_inside (as_base a) (as_size a) vaddr) then Some (ERR_OUT_OF_RANGE, s)
  else
    size ← trim_size (as_base a) (as_size a) vaddr size;
    (* lookup how it's already mapped: the flags are set only on success *)
    let '(err, _, flags) := arch_mmu_query (as_arch a) vaddr in
    let arch_mmu_flags := if err <? 0 then 0 else flags in
    '(r, s) ← alloc_region aspace name size vaddr 0 VMM_FLAG_VALLOC_SPECIFIC
                VMM_REGION_FLAG_RESERVED arch_mmu_flags s;
    Some (match r with Some _ => NO_ERROR | None => ERR_NO_MEMORY end, s).

(** The address asked for: inner [None] when a specific spot is wanted and [ptr]
    is NULL. *)
Definition wanted_vaddr (vmm_flags : Z) (ptr : option Z) : option Z :=
  if has_flag vmm_flags VMM_FLAG_VALLOC_SPECIFIC then ptr else Some 0.

(** Status, the value left in [*ptr] (when [ptr] is not NULL) and the state. *)
Definition vmm_alloc_physical (aspace : Z) (name : option string) (size : Z) (ptr : option Z)
  (align_log2 paddr vmm_flags arch_mmu_flags : Z) (s : vmm_state)
  : option (Z * option Z * vmm_state) :=
  oguard (IS_PAGE_ALIGNED paddr);;
  oguard (IS_PAGE_ALIGNED size);;
  let name := default EmptyString name in
  if size =? 0 then Some (NO_ERROR, ptr, s)
  else if negb (IS_PAGE_ALIGNED paddr) || negb (IS_PAGE_ALIGNED size) then Some (ERR_INVALID_ARGS, ptr, s)
  else
    match wanted_vaddr vmm_flags ptr with
    | None => Some (ERR_INVALID_ARGS, ptr, s)
    | Some vaddr =>
        '(r, s) ← alloc_region aspace name size vaddr align_log2 vmm_flags
                    VMM_REGION_FLAG_PHYSICAL arch_mmu_flags s;
        match r with
        | None => Some (ERR_NO_MEMORY, ptr, s)
        | Some r =>
            let ptr := (fun _ => r_base r) <$> ptr in
            a ← get_aspace aspace s;
            let '(err, arch) := arch_mmu_map (as_arch a) (r_base r) paddr (u32 (size / PAGE_SIZE))
                                  arch_mmu_flags in
            let s := put_aspace aspace (set_as_arch arch a) s in
            if err <? NO_ERROR then
              s ← undo_region aspace r s; Some (err, ptr, s)
            else Some (NO_ERROR, ptr, s)
        end
    end.

(** The region [r] of the address space with its page list set. *)
Definition set_region_pages (aspace : Z) (r : vmm_region) (pages : list Z) (s : vmm_state)
  : option vmm_state :=
  a ← get_aspace aspace s;
  Some (put_aspace aspace (set_as_region_list
    ((fun r' => if r_ptr r' =? r_ptr r then set_r_page_list pages r' else r') <$> as_region_list a) a) s).

Definition vmm_alloc_contiguous (aspace : Z) (name : option string) (size : Z) (ptr : option Z)
  (align_pow2 vmm_flags arch_mmu_flags : Z) (s : vmm_state) : option (Z * option Z * vmm_state) :=
  let size := ROUNDUP size PAGE_SIZE in
  if size =? 0 then Some (ERR_INVALID_ARGS, ptr, s)
  else
    let name := default EmptyString name in
    match wanted_vaddr vmm_flags ptr with
    | None => Some (ERR_INVALID_ARGS, ptr, s)
    | Some vaddr =>
        (* allocate physical memory up front, in case it cant be satisfied *)
        '(count, pa, arenas, page_list) ←
          pmm_alloc_contiguous (vs_arenas s) (u32 (size / PAGE_SIZE)) align_pow2 (Some []);
        let pa := default 0 pa in
        let page_list := default [] page_list in
        let s := set_vs_arenas arenas s in
        if count <? size / PAGE_SIZE then
          oguard (count =? 0);; Some (ERR_NO_MEMORY, ptr, s)
        else
          '(r, s) ← alloc_region aspace name size vaddr align_pow2 vmm_flags
                      VMM_REGION_FLAG_PHYSICAL arch_mmu_flags s;
          match r with
          | None => s ← vm_pmm_free page_list s; Some (ERR_NO_MEMORY, ptr, s)
          | Some r =>
              let ptr := (fun _ => r_base r) <$> ptr in
              a ← get_aspace aspace s;
              let '(err, arch) := arch_mmu_map (as_arch a) (r_base r) pa (u32 (size / PAGE_SIZE))
                                    arch_mmu_flags in
              let s := put_aspace aspace (set_as_arch arch a) s in
              if err <? NO_ERROR then
                s ← undo_region aspace r s;
                s ← vm_pmm_free page_list s;
                Some (err, ptr, s)
              else
                s ← set_region_pages aspace r page_list s;
                Some (NO_ERROR, ptr, s)
          end
    end.

(** The mapping loop of [vmm_alloc]: the status of the map that failed, if one
    did, with the pages mapped before it and those left to free. *)
Fixpoint map_pages (aspace : Z) (r : vmm_region) (va : Z) (mapped page_list : list Z)
  (arch_mmu_flags : Z) (s : vmm_state) : option (option Z * list Z * list Z * vmm_state) :=
  match page_list with
  | [] => Some (None, mapped, [], s)
  | p :: page_list =>
      oguard (va <=? r_last r);;
      let pa := vm_page_to_paddr (vs_arenas s) p in
      oguard (IS_PAGE_ALIGNED pa);;
      a ← get_aspace aspace s;
      let '(err, arch) := arch_mmu_map (as_arch a) va pa 1 arch_mmu_flags in
      let s := put_aspace aspace (set_as_arch arch a) s in
      if err <? NO_ERROR then
        (* add the page back to the list so it gets freed *)
        Some (Some err, mapped, page_list ++ [p], s)
      else
        map_pages aspace r (u64 (va + PAGE_SIZE)) (mapped ++ [p]) page_list arch_mmu_flags s
  end.

(** The part of [vmm_alloc] after the region was allocated. *)
Definition vmm_alloc_map (aspace : Z) (r : vmm_region) (ptr : option Z) (page_list : list Z)
  (arch_mmu_flags : Z) (s : vmm_state) : option (Z * option Z * vmm_state) :=
  oguard (IS_PAGE_ALIGNED (r_base r));;
  '(failed, mapped, rest, s) ← map_pages aspace r (r_base r) [] page_list arch_mmu_flags s;
  match failed with
  | None =>
      s ← set_region_pages aspace r mapped s;
      Some (NO_ERROR, (fun _ => r_base r) <$> ptr, s)
  | Some err =>
      s ← undo_region aspace r s;
      s ← vm_pmm_free mapped s;
      s ← vm_pmm_free rest s;
      Some (err, ptr, s)
  end.

Definition vmm_alloc (aspace : Z) (name : option string) (size : Z) (ptr : option Z)
  (align_pow2 vmm_flags arch_mmu_flags : Z) (s : vmm_state) : option (Z * option Z * vmm_state) :=
  let size := ROUNDUP size PAGE_SIZE in
  if size =? 0 then Some (ERR_INVALID_ARGS, ptr, s)
  else
    let name := default EmptyString name in
    match wanted_vaddr vmm_flags ptr with
    | None => Some (ERR_INVALID_ARGS, ptr, s)
    | Some vaddr =>
        (* allocate a random pile of pages *)
        '(count, arenas, page_list) ← pmm_alloc_pages (vs_arenas s) (u32 (size / PAGE_SIZE)) [];
        let s := set_vs_arenas arenas s in
        oguard (count <=? size);;
        if count <? size / PAGE_SIZE then
          s ← vm_pmm_free page_list s; Some (ERR_NO_MEMORY, ptr, s)
        else
          '(r, s) ← alloc_region aspace name size vaddr align_pow2 vmm_flags
                      VMM_REGION_FLAG_PHYSICAL arch_mmu_flags s;
          match r with
          | None => s ← vm_pmm_free page_list s; Some (ERR_NO_MEMORY, ptr, s)
          | Some r => vmm_alloc_map aspace r ptr page_list arch_mmu_flags s
          end
    end.

Definition vmm_free_region (aspace vaddr : Z) (s : vmm_state) : option (Z * vmm_state) :=
  '(err, r, s) ← vmm_remove_region_locked aspace vaddr s;
  if err <? NO_ERROR then Some (err, s)
  else
    r ← r;
    (* return physical pages if any *)
    s ← vm_pmm_free (r_page_list r) s;
    Some (NO_ERROR, s).

(** ** Address spaces *)

(** The status and the address space stored through [_aspace]. *)
Definition vmm_create_aspace (name : option string) (flags : Z) (s : vmm_state) : Z * option Z * vmm_state :=
  let '(p, s) := vm_calloc s in
  if p =? 0 then (ERR_NO_MEMORY, None, s)
  else
    let name := vm_name (default "unnamed"%string name) in
    let kernel := has_flag flags VMM_ASPACE_FLAG_KERNEL in
    let base := if kernel then KERNEL_ASPACE_BASE else USER_ASPACE_BASE in
    let size := if kernel then KERNEL_ASPACE_SIZE else USER_ASPACE_SIZE in
    let '(err, arch) := arch_mmu_init_aspace base size (if kernel then ARCH_ASPACE_FLAG_KERNEL else 0) in
    if err <? 0 then (err, None, s)
    else
      let s := put_aspace p (Aspace name flags base size [] arch) s in
      (NO_ERROR, Some p, set_vs_aspace_list (p :: vs_aspace_list s) s).

(** [vmm_init_preheap]; [p] is the address of [_kernel_aspace]. *)
Definition vmm_init_preheap (p : Z) (s : vmm_state) : vmm_state :=
  let '(_, arch) := arch_mmu_init_aspace KERNEL_ASPACE_BASE KERNEL_ASPACE_SIZE ARCH_ASPACE_FLAG_KERNEL in
  let s := put_aspace p (Aspace "kernel" VMM_ASPACE_FLAG_KERNEL KERNEL_ASPACE_BASE KERNEL_ASPACE_SIZE
                           [] arch) s in
  set_vs_aspace_list (p :: vs_aspace_list s) s.

Fixpoint unmap_regions (arch : arch_aspace) (l : list vmm_region) : arch_aspace :=
  match l with
  | [] => arch
  | r :: l => unmap_regions (snd (arch_mmu_unmap arch (r_base r) (u32 (r_size r / PAGE_SIZE)))) l
  end.

Fixpoint free_regions (l : list vmm_region) (s : vmm_state) : option vmm_state :=
  match l with
  | [] => Some s
  | r :: l => s ← vm_pmm_free (r_page_list r) s; free_regions l s
  end.

Definition vmm_context_switch (newaspace : Z) (s : vmm_state) : vmm_state := set_vs_mmu_aspace newaspace s.

Definition vmm_free_aspace (aspace : Z) (s : vmm_state) : option (Z * vmm_state) :=
  a ← get_aspace aspace s;
  if negb (bool_decide (aspace ∈ vs_aspace_list s)) then Some (ERR_INVALID_ARGS, s)
  else
    let s := set_vs_aspace_list (remove_elt aspace (vs_aspace_list s)) s in
    (* free all of the regions *)
    let arch := unmap_regions (as_arch a) (as_region_list a) in
    let s := put_aspace aspace (set_as_arch arch (set_as_region_list [] a)) s in
    s ← free_regions (as_region_list a) s;
    (* make sure the current thread does not map the aspace *)
    let s := if vs_cur_aspace s =? aspace then vmm_context_switch 0 (set_vs_cur_aspace 0 s) else s in
    (* free the aspace *)
    Some (NO_ERROR, set_vs_aspaces (delete aspace (vs_aspaces s)) s).

Definition vmm_set_active_aspace (aspace : Z) (s : vmm_state) : Z * vmm_state :=
  if aspace =? vs_cur_aspace s then (aspace, s)
  else (vs_cur_aspace s, vmm_context_switch aspace (set_vs_cur_aspace aspace s)).

(** ** Address conversions and the boot time set up, [vm.c] *)
Record mmu_initial_mapping := InitialMapping {
  im_phys : Z; im_virt : Z; im_size : Z; im_flags : Z; im_name : string;
}.

Fixpoint paddr_to_kvaddr (maps : list mmu_initial_mapping) (pa : Z) : Z :=
  match maps with
  | [] => 0
  | map :: maps =>
      if im_size map =? 0 then 0  (* the terminating entry *)
      else if negb (has_flag (im_flags map) MMU_INITIAL_MAPPING_TEMPORARY) &&
              (im_phys map <=? pa) && (pa <=? u64 (im_phys map + im_size map - 1))
      then u64 (im_virt map + (pa - im_phys map))
      else paddr_to_kvaddr maps pa
  end.

Definition is_kernel_address (va : Z) : bool :=
  (KERNEL_ASPACE_BASE <=? va) && (va <=? KERNEL_ASPACE_BASE + (KERNEL_ASPACE_SIZE - 1)).
Definition is_user_address (va : Z) : bool :=
  (USER_ASPACE_BASE <=? va) && (va <=? USER_ASPACE_BASE + (USER_ASPACE_SIZE - 1)).

(** [kernel_aspace] is the address of [_kernel_aspace]; 0 is NULL. *)
Definition vaddr_to_aspace (kernel_aspace ptr : Z) (s : vmm_state) : Z :=
  if is_kernel_address ptr then kernel_aspace
  else if is_user_address ptr then vs_cur_aspace s else 0.

Definition vaddr_to_paddr (kernel_aspace ptr : Z) (s : vmm_state) : option Z :=
  let aspace := vaddr_to_aspace kernel_aspace ptr s in
  if aspace =? 0 then Some 0
  else
    a ← get_aspace aspace s;
    let '(rc, pa, _) := arch_mmu_query (as_arch a) ptr in
    Some (if rc =? 0 then pa else 0).

(** The loop of [mark_pages_in_use] over [n] pages; a page that is not mapped is
    a panic. *)
Fixpoint mark_pages_loop (n : nat) (kernel_aspace va : Z) (list : list Z) (s : vmm_state)
  : option vmm_state :=
  match n with
  | O => Some s
  | S n =>
      a ← get_aspace kernel_aspace s;
      let '(err, pa, _) := arch_mmu_query (as_arch a) va in
      if 0 <=? err then
        '(_, arenas, list) ← pmm_alloc_range (vs_arenas s) pa 1 list;
        mark_pages_loop n kernel_aspace (u64 (va + PAGE_SIZE)) list (set_vs_arenas arenas s)
      else None
  end.

Definition mark_pages_in_use (kernel_aspace va len : Z) (s : vmm_state) : option vmm_state :=
  (* make sure we are inclusive of all of the pages in the address range *)
  let len := PAGE_ALIGN (u64 (len + Z.land va (PAGE_SIZE - 1))) in
  let va := ROUNDDOWN va PAGE_SIZE in
  mark_pages_loop (Z.to_nat (len / PAGE_SIZE)) kernel_aspace va [] s.

Definition vm_init_preheap (kernel_aspace start end_ boot_alloc_start boot_alloc_end : Z) (s : vmm_state)
  : option vmm_state :=
  let s := vmm_init_preheap kernel_aspace s in
  (* mark all of the kernel pages in use *)
  s ← mark_pages_in_use kernel_aspace start (u64 (end_ - start)) s;
  (* mark the physical pages used by the boot time allocator *)
  if boot_alloc_end =? boot_alloc_start then Some s
  else mark_pages_in_use kernel_aspace boot_alloc_start (u64 (boot_alloc_end - boot_alloc_start)) s.

Fixpoint vm_init_postheap (kernel_aspace : Z) (maps : list mmu_initial_mapping) (s : vmm_state)
  : option vmm_state :=
  match maps with
  | [] => Some s
  | map :: maps =>
      if im_size map =? 0 then Some s
      else
        s ← (if has_flag (im_flags map) MMU_INITIAL_MAPPING_TEMPORARY then Some s
             else snd <$> vmm_reserve_space kernel_aspace (Some (im_name map)) (im_size map)
                            (im_virt map) s);
        vm_init_postheap kernel_aspace maps s
  end.
End vmm.
