(* ===== verification/VmmSpace.v ===== *)
(** * The room in an address space

    The region list of an address space is in address order and without
    overlaps; a new region goes into a gap of it.  The search for a gap is
    complete: it finds the lowest place there is. *)
From S2P Require Import Prelude Align Pmm Vmm.

(** ** Regions in order *)

(** The end of a region, one past its last byte. *)
Definition r_end (r : vmm_region) : Z := r_base r + r_size r.

(** [l] lies in [[lo, hi)] in address order without overlaps. *)
Fixpoint regions_wf (lo hi : Z) (l : list vmm_region) : Prop :=
  match l with
  | [] => lo <= hi
  | r :: l => lo <= r_base r /\ 0 < r_size r /\ regions_wf (r_end r) hi l
  end.

(** The bytes from [x] on are inside the space and in no region. *)
Definition room (lo hi : Z) (l : list vmm_region) (x size : Z) : Prop :=
  lo <= x /\ x + size <= hi /\ Forall (fun r => x + size <= r_base r \/ r_end r <= x) l.

Lemma regions_wf_le lo hi l : regions_wf lo hi l -> lo <= hi.
Proof. revert lo. induction l as [|r l IH]; cbn; [done|]. intros lo (? & ? & ?%IH). unfold r_end in *. lia. Qed.

Lemma regions_wf_weaken lo lo' hi l : lo' <= lo -> regions_wf lo hi l -> regions_wf lo' hi l.
Proof. destruct l; cbn; intuition lia. Qed.

Lemma regions_wf_bounds lo hi l r :
  regions_wf lo hi l -> r ∈ l -> lo <= r_base r /\ 0 < r_size r /\ r_end r <= hi.
Proof.
  revert lo. induction l as [|r' l IH]; [set_solver|]. intros lo (H1 & H2 & H3) [->|Hr]%elem_of_cons.
  - apply regions_wf_le in H3. lia.
  - apply IH in H3 as (? & ? & ?); [|done]. unfold r_end in *. lia.
Qed.

Lemma regions_wf_app lo hi l1 l2 :
  regions_wf lo hi (l1 ++ l2) <-> exists mid, regions_wf lo mid l1 /\ regions_wf mid hi l2.
Proof.
  revert lo. induction l1 as [|r l1 IH]; intros lo; cbn.
  - split; [intros Hw; exists lo; split; [lia|done]|]. intros (mid & ? & ?). by eapply regions_wf_weaken.
  - rewrite IH. split; [intros (? & ? & mid & ? & ?); eauto|]. intros (mid & (? & ? & ?) & ?). eauto 10.
Qed.

Lemma regions_wf_delete lo hi l1 r l2 : regions_wf lo hi (l1 ++ r :: l2) -> regions_wf lo hi (l1 ++ l2).
Proof.
  rewrite !regions_wf_app. intros (mid & H1 & H2 & H3 & H4). exists mid. split; [done|].
  eapply regions_wf_weaken; [|done]. unfold r_end. lia.
Qed.

Lemma regions_wf_map f lo hi l :
  (forall r, r_base (f r) = r_base r /\ r_size (f r) = r_size r) -> regions_wf lo hi l -> regions_wf lo hi (f <$> l).
Proof.
  intros Hf. revert lo. induction l as [|r l IH]; cbn; [done|]. intros lo (? & ? & ?).
  unfold r_end in *. destruct (Hf r) as [-> ->]. auto.
Qed.

(** A region in the gap behind [l1]. *)
Lemma regions_wf_insert lo hi l1 l2 r :
  regions_wf lo hi (l1 ++ l2) -> 0 < r_size r ->
  lo <= r_base r -> Forall (fun r' => r_end r' <= r_base r) l1 ->
  r_end r <= hi -> Forall (fun r' => r_end r <= r_base r') l2 ->
  regions_wf lo hi (l1 ++ r :: l2).
Proof.
  revert lo. induction l1 as [|r' l1 IH]; intros lo Hw Hs Hlo H1 Hhi H2; cbn in *.
  - split_and!; [done..|]. destruct l2 as [|r2 l2]; cbn in *; [done|].
    apply Forall_cons in H2 as [? _]. intuition.
  - destruct Hw as (? & ? & Hw). apply Forall_cons in H1 as [? H1]. split_and!; [done..|]. by apply IH.
Qed.

(** ** Finding a region *)
Lemma r_last_eq r : 0 <= r_base r -> 0 < r_size r -> r_end r <= 2 ^ 64 -> r_last r = r_end r - 1.
Proof. intros. unfold r_last, r_end in *. apply wrap_small. lia. Qed.

Lemma r_last_end hi lo l r :
  0 <= lo -> hi <= 2 ^ 64 -> regions_wf lo hi l -> r ∈ l -> r_last r = r_end r - 1.
Proof. intros Hlo Hhi Hw Hr. destruct (regions_wf_bounds _ _ _ _ Hw Hr) as (? & ? & ?). apply r_last_eq; lia. Qed.

Lemma find_region_iff lo hi l vaddr r :
  0 <= lo -> hi <= 2 ^ 64 -> regions_wf lo hi l ->
  vmm_find_region l vaddr = Some r <-> r ∈ l /\ r_base r <= vaddr < r_end r.
Proof.
  intros Hlo Hhi Hw. assert (forall r, r ∈ l -> r_last r = r_end r - 1) as Hlast by (intros; by eapply r_last_end).
  revert lo Hlo Hw. induction l as [|r' l IH]; intros lo Hlo Hw; cbn [vmm_find_region]; [set_solver|].
  destruct Hw as (H1 & H2 & H3). rewrite (Hlast r') by set_solver.
  assert (forall q, q ∈ l -> r_end r' <= r_base q) as Hafter
    by (intros q Hq; by destruct (regions_wf_bounds _ _ _ _ H3 Hq)).
  destruct (decide (r_base r' <= vaddr < r_end r')) as [Hin|Hout].
  - rewrite (proj2 (Z.leb_le _ _)), (proj2 (Z.leb_le _ _)) by lia. cbn. split.
    + intros [= <-]. set_solver.
    + intros [[->|Hr]%elem_of_cons Hv]; [done|]. apply Hafter in Hr. lia.
  - assert ((r_base r' <=? vaddr) && (vaddr <=? r_end r' - 1) = false) as ->.
    { apply andb_false_iff. rewrite !Z.leb_gt. lia. }
    rewrite (IH ltac:(set_solver) (r_end r') ltac:(unfold r_end in *; lia) H3), elem_of_cons.
    intuition (subst; lia || done).
Qed.

(** ** Placing a region where it is asked for *)
Lemma room_split lo hi l x size :
  0 < size -> regions_wf lo hi l -> room lo hi l x size ->
  exists l1 l2, l = l1 ++ l2 /\ Forall (fun r => r_end r <= x) l1 /\ Forall (fun r => x + size <= r_base r) l2.
Proof.
  intros Hs. revert lo. induction l as [|r l IH]; intros lo Hw (Hlo & Hhi & Hr); [by exists [], []|].
  destruct Hw as (H1 & H2 & H3). apply Forall_cons in Hr as [[Hr|Hr] Hrs].
  - exists [], (r :: l). split_and!; [done..|]. constructor; [done|].
    apply Forall_forall. intros q Hq. destruct (regions_wf_bounds _ _ _ _ H3 Hq). unfold r_end in *. lia.
  - destruct (IH (r_end r) H3) as (l1 & l2 & -> & ? & ?); [by split_and!|].
    exists (r :: l1), l2. split_and!; [done|by constructor|done].
Qed.

Lemma room_insert lo hi l1 l2 r :
  regions_wf lo hi (l1 ++ l2) -> 0 < r_size r -> lo <= r_base r -> r_end r <= hi ->
  match reverse l1 with [] => True | last :: _ => r_end last <= r_base r end ->
  match l2 with [] => True | next :: _ => r_end r <= r_base next end ->
  regions_wf lo hi (l1 ++ r :: l2).
Proof.
  intros Hw Hs Hlo Hhi H1 H2. apply regions_wf_insert; try done.
  - destruct l1 as [|last l1 _] using rev_ind; [done|]. rewrite reverse_snoc in H1.
    rewrite <- app_assoc in Hw. apply regions_wf_app in Hw as (mid & Hw1 & ? & ? & _).
    apply Forall_app. split; [|by constructor]. apply Forall_forall. intros q Hq.
    destruct (regions_wf_bounds _ _ _ _ Hw1 Hq) as (_ & _ & ?). unfold r_end in *. lia.
  - destruct l2 as [|next l2]; [done|]. apply regions_wf_app in Hw as (mid & _ & _ & ? & Hw2).
    constructor; [done|]. apply Forall_forall. intros q Hq.
    destruct (regions_wf_bounds _ _ _ _ Hw2 Hq) as (? & _). unfold r_end in *. lia.
Qed.

(** Where the walk of [add_region_to_aspace] stops. *)
Definition walk_spot (r : vmm_region) (e : Z) (last : vmm_region) (l2 : list vmm_region) : Prop :=
  r_last last < r_base r /\ match l2 with [] => True | next :: _ => e < r_base next end.

Lemma add_region_walk_sound r e l l' :
  add_region_walk r e l = Some l' ->
  exists l1 last l2, l = l1 ++ last :: l2 /\ l' = l1 ++ last :: r :: l2 /\ walk_spot r e last l2.
Proof.
  revert l'. induction l as [|a l IH]; intros l'; cbn [add_region_walk]; [done|].
  destruct (Z.ltb_spec (r_last a) (r_base r)) as [Hlt|]; cbn [andb].
  - destruct l as [|b l]; [intros [= <-]; by exists [], a, []|].
    destruct (Z.ltb_spec e (r_base b)); [intros [= <-]; by exists [], a, (b :: l)|].
    intros (l0 & E & ->)%fmap_Some. destruct (IH _ E) as (l1 & last & l2 & -> & -> & ?).
    by exists (a :: l1), last, l2.
  - intros (l0 & E & ->)%fmap_Some. destruct (IH _ E) as (l1 & last & l2 & -> & -> & ?).
    by exists (a :: l1), last, l2.
Qed.

Lemma add_region_walk_complete r e l1 last l2 :
  walk_spot r e last l2 -> is_Some (add_region_walk r e (l1 ++ last :: l2)).
Proof.
  intros [H1 H2]. induction l1 as [|a l1 IH].
  - cbn [app add_region_walk]. rewrite (proj2 (Z.ltb_lt _ _)) by done. destruct l2; [by eexists|].
    cbn [andb]. rewrite (proj2 (Z.ltb_lt _ _)) by done. by eexists.
  - cbn [app add_region_walk]. destruct (_ && _); [by eexists|by apply fmap_is_Some].
Qed.

Lemma is_inside_iff lo hi v : 0 <= lo -> lo < hi <= 2 ^ 64 -> is_inside lo (hi - lo) v = true <-> lo <= v < hi.
Proof.
  intros. unfold is_inside. replace (lo + (hi - lo) - 1) with (hi - 1) by lia. rewrite (wrap_small 64) by lia.
  rewrite andb_true_iff, !Z.leb_le. lia.
Qed.

Lemma is_region_inside_iff lo hi v size :
  0 <= lo -> lo < hi <= 2 ^ 64 -> 0 <= v < 2 ^ 64 -> 0 < size < 2 ^ 64 ->
  is_region_inside lo (hi - lo) v size = true <-> lo <= v /\ v + size <= hi.
Proof.
  intros Hlo Hhi Hv Hs. unfold is_region_inside.
  pose proof (is_inside_iff lo hi v Hlo Hhi) as Hin. destruct (is_inside lo (hi - lo) v); cbn.
  2:{ split; [done|]. intros. enough (false = true) by done. apply Hin. lia. }
  rewrite (proj2 (Z.eqb_neq size 0)) by lia. replace (lo + (hi - lo) - 1) with (hi - 1) by lia.
  rewrite (wrap_small 64 (hi - 1)) by lia.
  destruct (decide (v + size - 1 < 2 ^ 64)).
  - rewrite (wrap_small 64) by lia. rewrite (proj2 (Z.ltb_ge _ v)) by lia.
    destruct (Z.ltb_spec (hi - 1) (v + size - 1)); intuition lia.
  - replace (u64 (v + size - 1)) with (v + size - 1 - 2 ^ 64)
      by (unfold wrap; apply Z.mod_unique with 1; lia).
    rewrite (proj2 (Z.ltb_lt _ _)) by lia. intuition lia.
Qed.

(** A region in a gap has room there. *)
Lemma room_of_insert lo hi l1 r l2 :
  regions_wf lo hi (l1 ++ r :: l2) -> room lo hi (l1 ++ l2) (r_base r) (r_size r).
Proof.
  intros Hw. destruct (regions_wf_bounds _ _ _ r Hw) as (? & ? & ?); [set_solver|].
  apply regions_wf_app in Hw as (mid & Hw1 & Hm & _ & Hw2). split_and!; [done..|]. fold (r_end r).
  apply Forall_app. split; apply Forall_forall; intros q Hq.
  - destruct (regions_wf_bounds _ _ _ _ Hw1 Hq) as (_ & _ & ?). right. lia.
  - destruct (regions_wf_bounds _ _ _ _ Hw2 Hq) as (? & _). left. lia.
Qed.

(** What adding a region at a given place does, inside the space. *)
Lemma add_region_run lo hi l r :
  0 <= lo -> lo < hi <= 2 ^ 64 -> regions_wf lo hi l ->
  0 < r_size r < 2 ^ 64 -> lo <= r_base r -> r_end r <= hi ->
  (exists l1 l2, l = l1 ++ l2 /\ add_region lo (hi - lo) l r = (NO_ERROR, l1 ++ r :: l2) /\
     regions_wf lo hi (l1 ++ r :: l2)) \/
  (add_region lo (hi - lo) l r = (ERR_NO_MEMORY, l) /\ ~ room lo hi l (r_base r) (r_size r)).
Proof.
  intros Hlo Hhi Hw Hs Hb He. unfold add_region. rewrite (proj2 (Z.eqb_neq _ _)) by lia.
  rewrite (proj2 (is_region_inside_iff lo hi (r_base r) (r_size r) Hlo Hhi ltac:(unfold r_end in *; lia) Hs)) by (unfold r_end in *; lia).
  cbn [orb negb]. rewrite r_last_eq by lia.
  destruct (match l with [] => true | last :: _ => r_end r - 1 <? r_base last end) eqn:Efront.
  { left. exists [], l. split_and!; [done..|]. apply (room_insert lo hi [] l); try done; [lia|].
    destruct l; [done|]. apply Z.ltb_lt in Efront. lia. }
  destruct l as [|a l]; [done|]. apply Z.ltb_ge in Efront.
  destruct (add_region_walk r (r_end r - 1) (a :: l)) as [l'|] eqn:E.
  - left. destruct (add_region_walk_sound _ _ _ _ E) as (l1 & last & l2 & El & -> & Hlast & Hnext).
    exists (l1 ++ [last]), l2. rewrite El, <- !app_assoc. split_and!; [done..|]. rewrite El in Hw.
    rewrite (r_last_end hi lo _ last Hlo ltac:(lia) Hw) in Hlast by set_solver.
    change (l1 ++ last :: r :: l2) with (l1 ++ [last] ++ r :: l2). rewrite app_assoc.
    apply room_insert; try done; [by rewrite <- app_assoc|lia|rewrite reverse_snoc; lia|].
    destruct l2; [done|]. lia.
  - right. split; [done|]. intros Hr. destruct (room_split lo hi (a :: l) (r_base r) (r_size r) ltac:(lia) Hw Hr) as (l1 & l2 & El & H1 & H2).
    destruct l1 as [|last l1 _] using rev_ind.
    { cbn in El. subst. apply Forall_cons in H2 as [? _]. unfold r_end in *. lia. }
    rewrite <- app_assoc in El. cbn in El. rewrite El in E, Hw.
    destruct (add_region_walk_complete r (r_end r - 1) l1 last l2) as [? E']; [|congruence].
    apply Forall_app in H1 as [_ [Hlast _]%Forall_cons]. split.
    + rewrite (r_last_end hi lo _ last Hlo ltac:(lia) Hw) by set_solver. lia.
    + destruct l2; [done|]. apply Forall_cons in H2 as [? _]. unfold r_end in *. lia.
Qed.

(** Asked for a specific place, [add_region_to_aspace] succeeds exactly when
    the whole region lies inside the address space and overlaps no other one,
    and then the region list stays in order with the region added;
    [ERR_OUT_OF_RANGE] is returned for a region that is empty or not inside, and
    [ERR_NO_MEMORY] for one that overlaps, with the list unchanged. *)
Theorem add_region_correct lo hi l r :
  0 <= lo -> lo < hi <= 2 ^ 64 -> regions_wf lo hi l -> 0 <= r_base r < 2 ^ 64 -> 0 <= r_size r < 2 ^ 64 ->
  let '(err, l') := add_region lo (hi - lo) l r in
  if decide (0 < r_size r /\ room lo hi l (r_base r) (r_size r)) then
    err = NO_ERROR /\ l' ≡ₚ r :: l /\ regions_wf lo hi l'
  else l' = l /\ err = if decide (0 < r_size r /\ lo <= r_base r /\ r_end r <= hi)
                       then ERR_NO_MEMORY else ERR_OUT_OF_RANGE.
Proof.
  intros Hlo Hhi Hw Hb Hs. destruct (decide (0 < r_size r /\ lo <= r_base r /\ r_end r <= hi)) as [(Hs' & Hb' & He)|Hno].
  - destruct (add_region_run lo hi l r Hlo Hhi Hw ltac:(lia) Hb' He) as [(l1 & l2 & -> & -> & Hw')|[-> Hnr]].
    + rewrite decide_True by (split; [done|by apply room_of_insert]).
      split_and!; [done|by rewrite Permutation_middle|done].
    + rewrite decide_False by tauto. done.
  - assert (add_region lo (hi - lo) l r = (ERR_OUT_OF_RANGE, l)) as ->.
    { unfold add_region.
      enough ((r_size r =? 0) || negb (is_region_inside lo (hi - lo) (r_base r) (r_size r)) = true) as -> by done.
      destruct (Z.eqb_spec (r_size r) 0); [done|]. cbn. apply negb_true_iff, not_true_iff_false.
      rewrite is_region_inside_iff by lia. unfold r_end in Hno. lia. }
    rewrite decide_False; [done|]. intros (? & ? & ? & _). apply Hno. unfold r_end. lia.
Qed.

(** ** The search for a place *)
Section search.
Context (lo hi k size : Z).
Hypothesis Hlo : 0 <= lo.
Hypothesis Hhi : lo < hi <= 2 ^ 64.
Hypothesis Hwidth : hi - lo < 2 ^ 64.
Hypothesis Hk : 12 <= k < 64.
Hypothesis Hsize : 1 < size < 2 ^ 64.

Definition aligned (y : Z) : Prop := y mod 2 ^ k = 0.
(** Where the gap that [next] ends, ends. *)
Definition gap_limit (next : option vmm_region) : Z := match next with Some n => r_base n | None => hi end.

(** The three answers of [check_gap] for a gap that starts at [gb]. *)
Lemma check_gap_run prev next gb :
  match prev with Some p => gb = r_end p | None => gb = lo end ->
  lo <= gb <= gap_limit next -> gap_limit next <= hi ->
  (match next with Some _ => gap_limit next < hi | None => True end) ->
  match check_gap lo (hi - lo) prev next (2 ^ k) size with
  | GapFound x => gb <= x /\ aligned x /\ x + size <= gap_limit next /\ forall y, aligned y -> gb <= y -> x <= y
  | GapStop => forall y, aligned y -> gb <= y -> hi < y + size
  | GapNext => forall y, aligned y -> gb <= y -> gap_limit next < y + size
  end.
Proof using All.
  intros Hgb Hb Hl Hn. unfold check_gap.
  assert (match prev with Some p => u64 (r_base p + r_size p) | None => lo end = u64 gb) as ->.
  { destruct prev; subst gb; [done|]. rewrite wrap_small; lia. }
  replace (lo + (hi - lo)) with hi by lia.
  destruct (decide (gb = hi)) as [->|Hne].
  { destruct next; [cbn in *; lia|]. rewrite Z.eqb_refl. intros y _ Hy. lia. }
  assert (gb < hi) by lia. rewrite (wrap_small 64 gb) by lia.
  destruct (decide (gb = gap_limit next)) as [E|Hlt].
  { destruct next as [n|]; cbn in *; [|lia]. rewrite E, Z.eqb_refl. intros y _ Hy. lia. }
  assert (gb < gap_limit next) as Hg by lia.
  assert (exists ge, ge = gap_limit next - 1 /\
    match next with
    | Some n => if gb =? r_base n then inr GapNext else inl (u64 (r_base n - 1))
    | None => if gb =? u64 hi then inr GapStop else inl (u64 (hi - 1))
    end = inl ge) as (ge & Ege & ->).
  { exists (gap_limit next - 1). split; [done|]. destruct next as [n|]; cbn in *.
    - rewrite (proj2 (Z.eqb_neq _ _)), wrap_small by lia. done.
    - rewrite (proj2 (Z.eqb_neq gb _)) by (unfold wrap; Z.div_mod_to_equations; lia).
      by rewrite wrap_small by lia. }
  unfold arch_mmu_pick_spot, ALIGN. assert (0 < 2 ^ k) by lia.
  destruct (decide (gb + 2 ^ k - 1 < 2 ^ 64)) as [Hov|Hov].
  - pose proof (ROUNDUP_spec gb k ltac:(lia) ltac:(lia) Hov) as [Hr Hm].
    pose proof (fun y => ROUNDUP_least gb k y ltac:(lia) ltac:(lia) Hov) as Hleast.
    set (x := ROUNDUP gb (2 ^ k)) in *. rewrite (proj2 (Z.ltb_ge x gb)) by lia.
    destruct (Z.ltb_spec x ge) as [Hx|Hx]; cbn [andb].
    + rewrite (wrap_small 64) by lia. destruct (Z.leb_spec size (ge - x + 1)).
      * split_and!; [lia|done|lia|]. intros y Hy ?. by apply Hleast.
      * intros y Hy ?. specialize (Hleast y ltac:(lia) Hy). lia.
    + intros y Hy ?. specialize (Hleast y ltac:(lia) Hy). lia.
  - rewrite (ROUNDUP_wraps gb k) by lia.
    assert (2 ^ k <= 2 ^ 63) by (apply Z.pow_le_mono_r; lia).
    rewrite (proj2 (Z.ltb_lt _ _)) by lia. intros y [q ->]%Z.mod_divide Hy; [|lia].
    assert (2 ^ 64 = 2 ^ (64 - k) * 2 ^ k) as E64 by (rewrite <- Z.pow_add_r by lia; f_equal; lia).
    assert (2 ^ (64 - k) <= q) by nia. nia.
Qed.

Lemma alloc_spot_walk_cons n r l :
  alloc_spot_walk lo (hi - lo) (2 ^ k) size n (r :: l) =
  match check_gap lo (hi - lo) (Some r) (head l) (2 ^ k) size with
  | GapFound spot => Some (spot, S n)
  | GapStop => None
  | GapNext => alloc_spot_walk lo (hi - lo) (2 ^ k) size (S n) l
  end.
Proof. done. Qed.

Lemma alloc_spot_walk_run n l r :
  regions_wf (r_base r) hi (r :: l) -> lo <= r_base r ->
  match alloc_spot_walk lo (hi - lo) (2 ^ k) size n (r :: l) with
  | Some (x, m) => aligned x /\ r_end r <= x /\
      (exists l1 l2, r :: l = l1 ++ l2 /\ l1 <> [] /\ m = (n + length l1)%nat /\
         Forall (fun q => r_end q <= x) l1 /\ Forall (fun q => x + size <= r_base q) l2 /\ x + size <= hi) /\
      forall y, aligned y -> r_end r <= y -> room (r_base r) hi (r :: l) y size -> x <= y
  | None => forall y, aligned y -> r_end r <= y -> ~ room (r_base r) hi (r :: l) y size
  end.
Proof using All.
  revert n r. induction l as [|r' l IH]; intros n r Hw Hr0; rewrite alloc_spot_walk_cons; cbn [head];
    pose proof Hw as (_ & Hs & Hw'); pose proof (regions_wf_le _ _ _ Hw') as Hle.
  { pose proof (check_gap_run (Some r) None (r_end r) eq_refl) as Hg. cbn in Hg.
    specialize (Hg ltac:(unfold r_end in *; lia) ltac:(lia) I).
    destruct (check_gap _ _ _ _ _ _) as [x| |].
    - destruct Hg as (? & ? & ? & Hmin). split_and!; [done..| |auto]. exists [r], [].
      split_and!; [done..|cbn; lia|by repeat constructor|done|done].
    - intros y Hy Hyr (_ & ? & _). specialize (Hg y Hy Hyr). lia.
    - cbn. intros y Hy Hyr (_ & ? & _). specialize (Hg y Hy Hyr). lia. }
  pose proof Hw' as (Hb' & Hs' & Hw''). pose proof (regions_wf_le _ _ _ Hw'').
  pose proof (check_gap_run (Some r) (Some r') (r_end r) eq_refl) as Hg. cbn in Hg.
  specialize (Hg ltac:(unfold r_end in *; lia) ltac:(unfold r_end in *; lia) ltac:(unfold r_end in *; lia)).
  destruct (check_gap _ _ _ _ _ _) as [x| |].
  - destruct Hg as (? & ? & ? & Hmin). split_and!; [done..| |auto]. exists [r], (r' :: l).
    split_and!; [done..|cbn; lia|by repeat constructor| |unfold r_end in *; lia].
    apply Forall_forall. intros q [->|Hq]%elem_of_cons; [done|].
    destruct (regions_wf_bounds _ _ _ _ Hw'' Hq). unfold r_end in *. lia.
  - intros y Hy Hyr (_ & ? & _). specialize (Hg y Hy Hyr). lia.
  - specialize (IH (S n) r' (conj (Z.le_refl _) (conj Hs' Hw'')) ltac:(unfold r_end in *; lia)).
    assert (forall y, aligned y -> r_end r <= y -> room (r_base r) hi (r :: r' :: l) y size ->
              r_end r' <= y /\ room (r_base r') hi (r' :: l) y size) as Hstep.
    { intros y Hy Hyr (_ & Hyh & [_ Hf]%Forall_cons). specialize (Hg y Hy Hyr).
      pose proof Hf as [Hfr _]%Forall_cons. split; [lia|]. split_and!; [unfold r_end in *; lia|done|done]. }
    destruct (alloc_spot_walk _ _ _ _ _ _) as [[x m]|].
    + destruct IH as (? & ? & (l1 & l2 & El & Hne & -> & H1 & H2 & H3) & Hmin).
      split_and!; [done|unfold r_end in *; lia| |].
      * exists (r :: l1), l2. rewrite El. split_and!; [done..|cbn; lia| |done|done].
        constructor; [unfold r_end in *; lia|done].
      * intros y Hy Hyr Hroom. destruct (Hstep y Hy Hyr Hroom). auto.
    + intros y Hy Hyr Hroom. destruct (Hstep y Hy Hyr Hroom). by apply (IH y).
Qed.
End search.

Lemma alloc_spot_run lo hi l size al :
  0 <= lo -> lo < hi <= 2 ^ 64 -> hi - lo < 2 ^ 64 -> regions_wf lo hi l ->
  0 < size < 2 ^ 64 -> IS_PAGE_ALIGNED size = true -> 0 <= al < 64 ->
  let k := Z.max al PAGE_SIZE_SHIFT in
  exists res, alloc_spot lo (hi - lo) l size al = Some res /\
    match res with
    | Some (x, n) => aligned k x /\ room lo hi l x size /\ (forall y, aligned k y -> room lo hi l y size -> x <= y) /\
        forall r, r_base r = x -> r_size r = size -> regions_wf lo hi (take n l ++ r :: drop n l)
    | None => forall y, aligned k y -> ~ room lo hi l y size
    end.
Proof.
  intros Hlo Hhi Hwd Hw Hs Hsa Hal k. unfold alloc_spot. rewrite Hsa, (proj2 (Z.ltb_lt 0 size)) by lia.
  assert ((if al <? PAGE_SIZE_SHIFT then PAGE_SIZE_SHIFT else al) = k) as ->
    by (unfold k; destruct (Z.ltb_spec al PAGE_SIZE_SHIFT); lia).
  assert (12 <= k < 64) as Hk by (unfold k, PAGE_SIZE_SHIFT; lia).
  rewrite (proj2 (Z.ltb_lt k 64)) by lia. cbn [oguard andb mbind option_bind].
  assert (1 < size < 2 ^ 64) as Hs1.
  { rewrite IS_PAGE_ALIGNED_mod in Hsa. apply Z.eqb_eq in Hsa. unfold PAGE_SIZE in Hsa. Z.div_mod_to_equations. lia. }
  eexists. split; [done|].
  pose proof (check_gap_run lo hi k size Hlo Hhi Hwd Hk Hs1 None (head l) lo eq_refl) as Hg.
  destruct l as [|r l]; cbn [head] in *.
  { specialize (Hg ltac:(cbn; lia) ltac:(cbn; lia) I). cbn [gap_limit] in Hg.
    destruct (check_gap _ _ _ _ _ _) as [x| |].
    - destruct Hg as (? & ? & ? & Hmin). split_and!; [done|by split_and!|intros y Hy (? & _); auto|].
      intros q <- <-. cbn. unfold r_end. lia.
    - intros y Hy (? & ? & _). specialize (Hg y Hy). lia.
    - cbn. intros y Hy (? & ? & _). specialize (Hg y Hy). lia. }
  pose proof Hw as (Hb & Hrs & Hw'). pose proof (regions_wf_le _ _ _ Hw') as Hle.
  specialize (Hg ltac:(cbn; lia) ltac:(cbn; unfold r_end in *; lia) ltac:(cbn; unfold r_end in *; lia)).
  cbn [gap_limit] in Hg. destruct (check_gap _ _ _ _ _ _) as [x| |].
  - destruct Hg as (? & ? & ? & Hmin). split_and!; [done| |intros y Hy (? & _); auto|].
    + split_and!; [done|unfold r_end in *; lia|]. apply Forall_forall. intros q [->|Hq]%elem_of_cons; [by left|].
      destruct (regions_wf_bounds _ _ _ _ Hw' Hq). left. unfold r_end in *. lia.
    + intros q <- <-. cbn [take drop app]. split_and!; [done|lia|]. eapply regions_wf_weaken; [|split_and!; [|done|done]]; done.
  - intros y Hy (? & ? & _). specialize (Hg y Hy). lia.
  - pose proof (alloc_spot_walk_run lo hi k size Hlo Hhi Hwd Hk Hs1 0 l r
                  (conj (Z.le_refl _) (conj Hrs Hw')) ltac:(lia)) as Hws.
    assert (forall y, aligned k y -> room lo hi (r :: l) y size -> r_end r <= y /\ room (r_base r) hi (r :: l) y size) as Hstep.
    { intros y Hy (Hy1 & Hy2 & Hf). specialize (Hg y Hy Hy1). pose proof Hf as [Hfr _]%Forall_cons.
      split; [lia|]. split_and!; [unfold r_end in *; lia|done|done]. }
    destruct (alloc_spot_walk _ _ _ _ _ _) as [[x m]|].
    + destruct Hws as (? & ? & (l1 & l2 & El & Hne & -> & H1 & H2 & H3) & Hmin). rewrite El in *. split_and!; [done| | |].
      * split_and!; [unfold r_end in *; lia|done|]. apply Forall_app.
        split; (eapply Forall_impl; [done|]); cbn; intros; [by right|by left].
      * intros y Hy Hroom. destruct (Hstep y Hy Hroom). auto.
      * intros q <- <-. cbn [Nat.add]. rewrite take_app_length, drop_app_length.
        apply regions_wf_insert; try done; [lia|unfold r_end in *; lia].
    + intros y Hy Hroom. destruct (Hstep y Hy Hroom). by apply (Hws y).
Qed.

(** [alloc_spot] finds room whenever there is any, at the lowest possible
    address.  The place it returns is aligned as asked (and to a page), inside
    the address space and in no region, and inserting a region there keeps the
    list in order; it returns -1 only when no aligned place has room. *)
Theorem alloc_spot_correct lo hi l size al :
  0 <= lo -> lo < hi <= 2 ^ 64 -> hi - lo < 2 ^ 64 -> regions_wf lo hi l ->
  0 < size < 2 ^ 64 -> IS_PAGE_ALIGNED size = true -> 0 <= al < 64 ->
  let k := Z.max al PAGE_SIZE_SHIFT in
  exists res, alloc_spot lo (hi - lo) l size al = Some res /\
    match res with
    | Some (x, n) => aligned k x /\ room lo hi l x size /\ (forall y, aligned k y -> room lo hi l y size -> x <= y) /\
        forall r, r_base r = x -> r_size r = size -> regions_wf lo hi (take n l ++ r :: drop n l)
    | None => forall y, aligned k y -> ~ room lo hi l y size
    end.
Proof. exact (alloc_spot_run lo hi l size al). Qed.

(** Two regions with room for a page but not for two between them. *)
Definition demo_regions : list vmm_region :=
  [Region 1 "a" 0 0 0x10000 0x2000 []; Region 2 "b" 0 0 0x13000 0x1000 []].

Lemma demo_regions_wf : regions_wf 0x10000 0x20000 demo_regions.
Proof. vm_compute. intuition congruence. Qed.

Lemma alloc_spot_correct_witness :
  exists res, alloc_spot 0x10000 0x10000 demo_regions 0x2000 0 = Some res /\
    res = Some (0x14000, 2%nat) /\ room 0x10000 0x20000 demo_regions 0x14000 0x2000.
Proof.
  destruct (alloc_spot_correct 0x10000 0x20000 demo_regions 0x2000 0) as (res & E & Hr).
  - lia.
  - lia.
  - lia.
  - exact demo_regions_wf.
  - lia.
  - reflexivity.
  - lia.
  - vm_compute in E. injection E as <-. eexists. split; [reflexivity|]. split; [reflexivity|apply Hr].
Defined.

Lemma add_region_correct_witness :
  let r := Region 3 "c" 0 0 0x12000 0x1000 [] in
  let '(err, l') := add_region 0x10000 0x10000 demo_regions r in
  err = NO_ERROR /\ l' ≡ₚ r :: demo_regions /\ regions_wf 0x10000 0x20000 l'.
Proof.
  exact (add_region_correct 0x10000 0x20000 demo_regions (Region 3 "c" 0 0 0x12000 0x1000 [])
           ltac:(lia) ltac:(lia) demo_regions_wf ltac:(cbn; lia) ltac:(cbn; lia)).
Defined.

(** [vmm_find_region] returns the region that contains the address: there is
    at most one, and NULL is returned exactly when there is none. *)
Theorem vmm_find_region_correct lo hi l vaddr :
  0 <= lo -> hi <= 2 ^ 64 -> regions_wf lo hi l ->
  match vmm_find_region l vaddr with
  | Some r => r ∈ l /\ r_base r <= vaddr < r_end r /\
      forall q, q ∈ l -> r_base q <= vaddr < r_end q -> q = r
  | None => forall q, q ∈ l -> ~ r_base q <= vaddr < r_end q
  end.
Proof.
  intros Hlo Hhi Hw. pose proof (fun r => find_region_iff lo hi l vaddr r Hlo Hhi Hw) as Hiff.
  destruct (vmm_find_region l vaddr) as [r|].
  - destruct (proj1 (Hiff r) eq_refl) as [? ?]. split_and!; [done|lia|lia|].
    intros q Hq Hv. assert (Some r = Some q) as [=]; [|done]. by apply Hiff.
  - intros q Hq Hv. assert (None = Some q) as [=]. by apply Hiff.
Qed.

Lemma vmm_find_region_correct_witness :
  vmm_find_region demo_regions 0x12000 = None /\
  exists r, vmm_find_region demo_regions 0x13fff = Some r /\ r ∈ demo_regions /\ r_base r <= 0x13fff < r_end r.
Proof.
  split; [reflexivity|].
  destruct (vmm_find_region_correct 0x10000 0x20000 demo_regions 0x13fff ltac:(lia) ltac:(lia) demo_regions_wf)
    as (Hin & Hr & _).
  eexists. split; [reflexivity|]. exact (conj Hin Hr).
Defined.
