(* ===== verification/VmmInv.v ===== *)
(** * What the virtual memory manager guarantees

    The invariant of the address spaces and of the physical pages their regions
    own, and the effect of allocating and freeing regions on both: no page is
    lost or shared, whether an operation succeeds or fails.  Nothing is assumed
    of the architecture's functions but their types. *)
From S2P Require Import Prelude Align Pmm PmmInv Vmm VmmSpace.

Section vmm_inv.
Context {arch_aspace : Type} `{ArchMmu arch_aspace, AspaceConfig}.

(** ** The invariant *)
Record aspace_wf (a : @vmm_aspace arch_aspace) : Prop := {
  asw_lo : 0 <= as_base a;
  asw_hi : 0 < as_size a < 2 ^ 64 /\ as_base a + as_size a <= 2 ^ 64;
  asw_regions : regions_wf (as_base a) (as_base a + as_size a) (as_region_list a);
  asw_ptrs : NoDup (r_ptr <$> as_region_list a);
}.

(** The pages the regions of an address space own, and those of all. *)
Definition aspace_pages (a : @vmm_aspace arch_aspace) : list Z := concat (r_page_list <$> as_region_list a).
Definition owned (m : gmap Z (@vmm_aspace arch_aspace)) : list Z := concat ((fun x => aspace_pages (snd x)) <$> map_to_list m).

(** [calloc] returns NULL or a structure that is not in use. *)
Definition fresh_alloc (m : gmap Z (@vmm_aspace arch_aspace)) (o : option Z) : Prop :=
  forall p, o = Some p -> forall q a, m !! q = Some a -> p ∉ r_ptr <$> as_region_list a.

(** [X] are pages on their way between the free lists and the regions. *)
Record vmm_wfx (X : list Z) (s : @vmm_state arch_aspace) : Prop := {
  vw_pmm : pmm_wf (vs_arenas s);
  vw_aspaces : forall p a, vs_aspaces s !! p = Some a -> aspace_wf a;
  vw_known : Forall (page_known (vs_arenas s)) (X ++ owned (vs_aspaces s));
  vw_nodup : NoDup (X ++ owned (vs_aspaces s) ++ free_pages (vs_arenas s));
  vw_fresh : Forall (fresh_alloc (vs_aspaces s)) (vs_allocs s);
  vw_allocs : NoDup (omap id (vs_allocs s));
}.
Definition vmm_wf (s : @vmm_state arch_aspace) : Prop := vmm_wfx [] s.

(** ** Pages owned *)
Lemma owned_insert m p a b :
  m !! p = Some a -> exists rest, owned m ≡ₚ aspace_pages a ++ rest /\ owned (<[p := b]> m) ≡ₚ aspace_pages b ++ rest.
Proof.
  intros Hm. exists (owned (delete p m)). unfold owned. split.
  - rewrite <- (insert_delete_id m p a Hm) at 1. rewrite map_to_list_insert by apply lookup_delete_eq. done.
  - rewrite <- insert_delete_eq. rewrite map_to_list_insert by apply lookup_delete_eq. done.
Qed.

Lemma owned_same_pages m p a b :
  m !! p = Some a -> aspace_pages b ≡ₚ aspace_pages a -> owned (<[p := b]> m) ≡ₚ owned m.
Proof. intros Hm E. destruct (owned_insert m p a b Hm) as (rest & -> & ->). by rewrite E. Qed.

(** [p]'s structure changed from [a] to [b], nothing else of the spaces did. *)
Lemma aspaces_update (s : @vmm_state arch_aspace) p b :
  (forall q a, vs_aspaces s !! q = Some a -> aspace_wf a) -> aspace_wf b ->
  forall q a, <[p := b]> (vs_aspaces s) !! q = Some a -> aspace_wf a.
Proof. intros Hs Hb q a. destruct (decide (q = p)) as [->|]; [rewrite lookup_insert_eq|rewrite lookup_insert_ne by done]; naive_solver. Qed.

Lemma fresh_update (m : gmap Z (@vmm_aspace arch_aspace)) p b o :
  fresh_alloc m o -> (forall x, o = Some x -> x ∉ r_ptr <$> as_region_list b) -> fresh_alloc (<[p := b]> m) o.
Proof.
  intros Hf Hb x -> q a. destruct (decide (q = p)) as [->|];
    [rewrite lookup_insert_eq; intros [= <-]; by apply Hb|rewrite lookup_insert_ne by done; by apply Hf].
Qed.

(** ** A fresh region structure *)
Lemma vm_calloc_run X (s : @vmm_state arch_aspace) :
  vmm_wfx X s -> exists p s', vm_calloc s = (p, s') /\ vmm_wfx X s' /\ vs_aspaces s' = vs_aspaces s /\
    vs_arenas s' = vs_arenas s /\
    (p = 0 \/ (forall q a, vs_aspaces s !! q = Some a -> p ∉ r_ptr <$> as_region_list a) /\ Some p ∉ vs_allocs s').
Proof.
  intros [H1 H2 H3 H4 H5 H6]. unfold vm_calloc. destruct (vs_allocs s) as [|[p|] l] eqn:E.
  - eexists _, _. split; [done|]. split_and!; [|done|done|by left]. split; rewrite ?E; done.
  - eexists _, _. split; [done|]. apply Forall_cons in H5 as [Hp H5]. cbn in H6. apply NoDup_cons in H6 as [Hn H6].
    split_and!; [by split|done|done|]. right. split; [by apply Hp|]. cbn. intros Hin. apply Hn.
    apply list_elem_of_omap. by exists (Some p).
  - eexists _, _. split; [done|]. apply Forall_cons in H5 as [_ H5]. split_and!; [by split|done|done|by left].
Qed.

Lemma aspace_pages_split (a : @vmm_aspace arch_aspace) l1 r l2 :
  aspace_pages (set_as_region_list (l1 ++ r :: l2) a) ≡ₚ r_page_list r ++ aspace_pages (set_as_region_list (l1 ++ l2) a).
Proof.
  unfold aspace_pages. cbn. rewrite !fmap_app, fmap_cons, !concat_app. cbn [concat].
  by rewrite Permutation_app_swap_app.
Qed.

(** Adding an empty region at a place that has room. *)
Lemma vmm_wf_add_region X (s : @vmm_state arch_aspace) p a l1 l2 r :
  vmm_wfx X s -> vs_aspaces s !! p = Some a -> as_region_list a = l1 ++ l2 ->
  regions_wf (as_base a) (as_base a + as_size a) (l1 ++ r :: l2) -> r_page_list r = [] ->
  (forall q b, vs_aspaces s !! q = Some b -> r_ptr r ∉ r_ptr <$> as_region_list b) ->
  Some (r_ptr r) ∉ vs_allocs s ->
  vmm_wfx X (put_aspace p (set_as_region_list (l1 ++ r :: l2) a) s) /\
  owned (<[p := set_as_region_list (l1 ++ r :: l2) a]> (vs_aspaces s)) ≡ₚ owned (vs_aspaces s).
Proof.
  intros W Ha El Hw Hp Hf Hn. pose proof W as [H1 H2 H3 H4 H5 H6]. pose proof (H2 _ _ Ha) as [A1 A2 A3 A4].
  assert (owned (<[p := set_as_region_list (l1 ++ r :: l2) a]> (vs_aspaces s)) ≡ₚ owned (vs_aspaces s)) as Ho.
  { apply (owned_same_pages _ _ a); [done|]. rewrite aspace_pages_split, Hp. unfold aspace_pages. cbn. by rewrite El. }
  split; [|done]. split; cbn; try done.
  - apply aspaces_update; [done|]. split; cbn; try done. specialize (Hf p a Ha). rewrite El in A4, Hf.
    rewrite fmap_app, fmap_cons, <- Permutation_middle, <- fmap_app. by constructor.
  - by rewrite Ho.
  - by rewrite Ho.
  - rewrite Forall_forall in *. intros o Ho'. apply fresh_update; [by apply H5|]. intros x ->. cbn.
    rewrite fmap_app, fmap_cons, elem_of_app, elem_of_cons. intros Hx.
    specialize (H5 _ Ho' x eq_refl p a Ha). rewrite El, fmap_app, elem_of_app in H5.
    destruct Hx as [?|[->|?]]; tauto.
Qed.

(** What [alloc_region] did: nothing, or a region of the wanted size put in a
    gap of the list. *)
Definition region_added (X : list Z) (s : @vmm_state arch_aspace) (p : Z) (a : @vmm_aspace arch_aspace) (size : Z) (r : vmm_region)
  (s' : @vmm_state arch_aspace) : Prop :=
  vmm_wfx X s' /\ r_size r = size /\ r_page_list r = [] /\
  exists l1 l2, as_region_list a = l1 ++ l2 /\
    vs_aspaces s' = <[p := set_as_region_list (l1 ++ r :: l2) a]> (vs_aspaces s) /\
    regions_wf (as_base a) (as_base a + as_size a) (l1 ++ r :: l2) /\
    owned (vs_aspaces s') ≡ₚ owned (vs_aspaces s).

Lemma alloc_region_run X (s : @vmm_state arch_aspace) p a name size vaddr al vf rf af :
  vmm_wfx X s -> vs_aspaces s !! p = Some a -> 0 < size < 2 ^ 64 -> IS_PAGE_ALIGNED size = true ->
  0 <= al < 64 -> 0 <= vaddr < 2 ^ 64 ->
  exists r s', alloc_region p name size vaddr al vf rf af s = Some (r, s') /\ vs_arenas s' = vs_arenas s /\
    match r with
    | None => vmm_wfx X s' /\ vs_aspaces s' = vs_aspaces s
    | Some r => region_added X s p a size r s' /\
        if has_flag vf VMM_FLAG_VALLOC_SPECIFIC then r_base r = vaddr
        else r_base r mod 2 ^ Z.max al PAGE_SIZE_SHIFT = 0
    end.
Proof.
  intros W Ha Hs Hsa Hal Hv. unfold alloc_region, alloc_region_struct.
  destruct (vm_calloc_run X s W) as (ptr & s1 & -> & W1 & E1 & E2 & Hp).
  destruct (Z.eqb_spec ptr 0) as [->|Hne]; [by exists None, s1|]. destruct Hp as [?|[Hf Hn]]; [done|].
  unfold get_aspace. rewrite E1, Ha. cbn [mbind option_bind].
  pose proof (vw_aspaces _ _ W _ _ Ha) as [A1 A2 A3 _]. rewrite <- E1 in Ha, Hf.
  set (r := Region ptr (vm_name name) rf af vaddr size []).
  destruct (has_flag vf VMM_FLAG_VALLOC_SPECIFIC).
  - replace (as_size a) with (as_base a + as_size a - as_base a) by lia.
    destruct (decide (as_base a <= vaddr /\ vaddr + size <= as_base a + as_size a)) as [[Hb He]|Hno].
    + destruct (add_region_run (as_base a) (as_base a + as_size a) (as_region_list a) r)
        as [(l1 & l2 & El & Er & Hw)|[Er _]]; [done|lia|done|done|done|done| |]; rewrite Er; cbn [Z.ltb].
      * eexists _, _. split; [done|]. split; [done|].
        destruct (vmm_wf_add_region X s1 p a l1 l2 r W1 Ha El Hw eq_refl Hf Hn) as [W2 Ho].
        split; [|done]. split_and!; [done..|]. exists l1, l2. cbn. rewrite <- E1. split_and!; done.
      * by exists None, s1.
    + unfold add_region. enough (is_region_inside (as_base a) (as_base a + as_size a - as_base a) (r_base r) (r_size r) = false) as ->.
      { rewrite orb_true_r. by exists None, s1. }
      apply not_true_iff_false. rewrite is_region_inside_iff by (done || cbn; lia). cbn. lia.
  - replace (as_size a) with (as_base a + as_size a - as_base a) by lia.
    destruct (alloc_spot_run (as_base a) (as_base a + as_size a) (as_region_list a) size al) as (res & -> & Hr);
      [done|lia|lia|done|done|done|done|]. cbn [mbind option_bind].
    destruct res as [[x n]|]; [|by exists None, s1]. destruct Hr as (Hx & _ & _ & Hw).
    eexists _, _. split; [done|]. split; [done|]. specialize (Hw (set_r_base x r) eq_refl eq_refl).
    destruct (vmm_wf_add_region X s1 p a (take n (as_region_list a)) (drop n (as_region_list a)) (set_r_base x r) W1 Ha)
      as [W2 Ho]; [by rewrite take_drop|done|done|done|done|].
    split; [|done]. split_and!; [done..|]. exists (take n (as_region_list a)), (drop n (as_region_list a)).
    rewrite take_drop. cbn. rewrite <- E1. split_and!; done.
Qed.

(** ** Steps that leave the regions alone *)

(** A call into the architecture's code for the space [p]. *)
Lemma wfx_arch X (s : @vmm_state arch_aspace) p a m :
  vmm_wfx X s -> vs_aspaces s !! p = Some a ->
  vmm_wfx X (put_aspace p (set_as_arch m a) s) /\
  owned (<[p := set_as_arch m a]> (vs_aspaces s)) ≡ₚ owned (vs_aspaces s).
Proof.
  intros [H1 H2 H3 H4 H5 H6] Ha. assert (owned (<[p := set_as_arch m a]> (vs_aspaces s)) ≡ₚ owned (vs_aspaces s)) as Ho
    by by apply (owned_same_pages _ _ a).
  split; [|done]. split; cbn; try done.
  - apply aspaces_update; [done|]. by destruct (H2 _ _ Ha); split.
  - by rewrite Ho.
  - by rewrite Ho.
  - rewrite Forall_forall in *. intros o Hin. apply fresh_update; [by apply H5|]. intros x ->. exact (H5 _ Hin x eq_refl p a Ha).
Qed.

Lemma wfx_perm X Y (s : @vmm_state arch_aspace) : X ≡ₚ Y -> vmm_wfx X s -> vmm_wfx Y s.
Proof. intros P [H1 H2 H3 H4 H5 H6]. rewrite P in H3, H4. by split. Qed.

(** Freeing pages in transit. *)
Lemma vm_pmm_free_run X Y (s : @vmm_state arch_aspace) :
  vmm_wfx (X ++ Y) s ->
  exists arenas', vm_pmm_free X s = Some (set_vs_arenas arenas' s) /\ vmm_wfx Y (set_vs_arenas arenas' s) /\
    free_pages arenas' ≡ₚ X ++ free_pages (vs_arenas s).
Proof.
  intros [H1 H2 H3 H4 H5 H6]. rewrite <- app_assoc in H3, H4. apply Forall_app in H3 as [HX H3].
  pose proof H4 as (Hnd & Hdis & Hrest)%NoDup_app. unfold vm_pmm_free.
  destruct (pmm_free_run (vs_arenas s) X H1 Hnd HX) as (ar' & -> & W' & L' & P').
  { intros x Hx Hf. apply (Hdis x Hx). set_solver. }
  cbn [mbind option_bind]. exists ar'. split_and!; [done| |done]. split; cbn; try done.
  - eapply Forall_impl; [exact H3|]. intros q. by apply page_known_layout.
  - rewrite P'. revert H4. apply NoDup_Permutation_proper.
    rewrite !app_assoc. rewrite (Permutation_app_comm (Y ++ owned _) X). by rewrite !app_assoc.
Qed.

(** Taking pages out of the free lists. *)
Lemma wfx_take X l arenas' (s : @vmm_state arch_aspace) :
  vmm_wfx X s -> pmm_wf arenas' -> same_layout (vs_arenas s) arenas' ->
  free_pages (vs_arenas s) ≡ₚ l ++ free_pages arenas' -> vmm_wfx (l ++ X) (set_vs_arenas arenas' s).
Proof.
  intros [H1 H2 H3 H4 H5 H6] W L P. split; cbn; try done.
  - rewrite <- app_assoc. apply Forall_app. split.
    + apply Forall_forall. intros q Hq. eapply page_known_layout; [done|].
      apply free_pages_known; [apply H1|]. rewrite P. set_solver.
    + eapply Forall_impl; [exact H3|]. intros q. by apply page_known_layout.
  - revert H4. apply NoDup_Permutation_proper. rewrite P.
    rewrite (Permutation_app_swap_app (owned (vs_aspaces s)) l), (Permutation_app_swap_app X l). by rewrite <- app_assoc.
Qed.

(** ** Removing a region *)
Lemma filter_ptr l1 r l2 :
  NoDup (r_ptr <$> (l1 ++ r :: l2)) -> filter (fun r' => r_ptr r' <> r_ptr r) (l1 ++ r :: l2) = l1 ++ l2.
Proof.
  intros Hnd. rewrite fmap_app, fmap_cons in Hnd. apply NoDup_app in Hnd as (_ & Hd & [Hn _]%NoDup_cons).
  rewrite filter_app, filter_cons_False by naive_solver. f_equal; apply filter_all; apply Forall_forall; intros q Hq E.
  - apply (Hd (r_ptr q)); [by apply list_elem_of_fmap_2|]. rewrite E. set_solver.
  - apply Hn. rewrite <- E. by apply list_elem_of_fmap_2.
Qed.

Lemma remove_region_run (s : @vmm_state arch_aspace) p b l1 r l2 v :
  vs_aspaces s !! p = Some b -> aspace_wf b -> as_region_list b = l1 ++ r :: l2 -> r_base r <= v < r_end r ->
  exists m, vmm_remove_region_locked p v s =
    Some (NO_ERROR, Some r, put_aspace p (set_as_arch m (set_as_region_list (l1 ++ l2) b)) s).
Proof.
  intros Hb [A1 A2 A3 A4] El Hv. unfold vmm_remove_region_locked, get_aspace. rewrite Hb. cbn [mbind option_bind].
  assert (vmm_find_region (as_region_list b) v = Some r) as ->.
  { apply (find_region_iff (as_base b) (as_base b + as_size b)); [done|lia|done|]. rewrite El. set_solver. }
  rewrite El in *. rewrite filter_ptr by done. destruct (arch_mmu_unmap _ _ _) as [e m]. by exists m.
Qed.

(** The wf state without the region; its pages are left in transit. *)
Lemma wfx_remove X (s : @vmm_state arch_aspace) p b l1 r l2 m :
  vmm_wfx X s -> vs_aspaces s !! p = Some b -> as_region_list b = l1 ++ r :: l2 ->
  let b' := set_as_arch m (set_as_region_list (l1 ++ l2) b) in
  vmm_wfx (r_page_list r ++ X) (put_aspace p b' s) /\
  owned (vs_aspaces s) ≡ₚ r_page_list r ++ owned (<[p := b']> (vs_aspaces s)).
Proof.
  intros [H1 H2 H3 H4 H5 H6] Hb El b'. pose proof (H2 _ _ Hb) as [A1 A2 A3 A4].
  assert (owned (vs_aspaces s) ≡ₚ r_page_list r ++ owned (<[p := b']> (vs_aspaces s))) as Ho.
  { destruct (owned_insert (vs_aspaces s) p b b' Hb) as (rest & -> & ->).
    rewrite app_assoc. f_equiv. change (aspace_pages b') with (aspace_pages (set_as_region_list (l1 ++ l2) b)).
    rewrite <- aspace_pages_split. unfold aspace_pages. cbn. by rewrite El. }
  split; [|done]. split; cbn; try done.
  - apply aspaces_update; [done|]. rewrite El in *. split; cbn; try done; [by eapply regions_wf_delete|].
    rewrite fmap_app, fmap_cons, <- Permutation_middle, <- fmap_app in A4. by apply NoDup_cons in A4 as [_ ?].
  - rewrite Ho in H3. rewrite <- app_assoc. by rewrite Permutation_app_swap_app.
  - revert H4. rewrite Ho. apply NoDup_Permutation_proper. rewrite <- !app_assoc. apply Permutation_app_swap_app.
  - rewrite Forall_forall in *. intros o Hin. apply fresh_update; [by apply H5|]. intros x -> Hx.
    apply (H5 _ Hin x eq_refl p b Hb). rewrite El. cbn in Hx. rewrite fmap_app in *. set_solver.
Qed.

Lemma put_aspace_twice (s : @vmm_state arch_aspace) p a b : put_aspace p b (put_aspace p a s) = put_aspace p b s.
Proof. unfold put_aspace, set_vs_aspaces. cbn. by rewrite insert_insert_eq. Qed.

Lemma put_aspace_same (s : @vmm_state arch_aspace) p a : vs_aspaces s !! p = Some a -> put_aspace p a s = s.
Proof. intros E. unfold put_aspace, set_vs_aspaces. destruct s; cbn in *. by rewrite insert_id. Qed.

Lemma set_as_arch_same (a : @vmm_aspace arch_aspace) : set_as_arch (as_arch a) a = a.
Proof. by destruct a. Qed.

(** ** The error exit: the region just added is taken out again *)
Lemma undo_region_run X (s : @vmm_state arch_aspace) p b l1 r l2 :
  vmm_wfx X s -> vs_aspaces s !! p = Some b -> as_region_list b = l1 ++ r :: l2 -> r_page_list r = [] ->
  exists m, let b' := set_as_arch m (set_as_region_list (l1 ++ l2) b) in
    undo_region p r s = Some (put_aspace p b' s) /\ vmm_wfx X (put_aspace p b' s) /\
    owned (<[p := b']> (vs_aspaces s)) ≡ₚ owned (vs_aspaces s).
Proof.
  intros W Hb El Hp. pose proof (vw_aspaces _ _ W _ _ Hb) as Wb.
  destruct (regions_wf_bounds _ _ _ r (asw_regions _ Wb)) as (? & ? & ?); [rewrite El; set_solver|].
  destruct (remove_region_run s p b l1 r l2 (r_base r) Hb Wb El) as [m E]; [unfold r_end in *; lia|].
  exists m. cbn zeta. destruct (wfx_remove X s p b l1 r l2 m W Hb El) as [W' Ho]. rewrite Hp in *.
  split_and!; [|done|by rewrite Ho]. unfold undo_region. rewrite E. cbn [mbind option_bind].
  rewrite bool_decide_true by done. done.
Qed.

(** ** Mapping page by page *)
Lemma map_pages_run p r b flags pages mapped va (s : @vmm_state arch_aspace) :
  pmm_wf (vs_arenas s) -> vs_aspaces s !! p = Some b -> Forall (page_known (vs_arenas s)) pages ->
  r_last r = r_end r - 1 -> r_end r <= 2 ^ 64 -> 0 <= va -> va + Z.of_nat (length pages) * PAGE_SIZE <= r_end r ->
  exists failed mapped' rest m,
    map_pages p r va mapped pages flags s = Some (failed, mapped', rest, put_aspace p (set_as_arch m b) s) /\
    mapped' ++ rest ≡ₚ mapped ++ pages /\
    match failed with None => rest = [] /\ mapped' = mapped ++ pages | Some e => e < 0 end.
Proof.
  intros Wp. revert mapped va b s Wp. induction pages as [|pg pages IH]; intros mapped va b s Wp Hb Hk Hl He Hva Hend; cbn [map_pages].
  { exists None, mapped, [], (as_arch b). rewrite set_as_arch_same, put_aspace_same by done. by rewrite app_nil_r. }
  apply Forall_cons in Hk as [Hpg Hk]. cbn [length] in Hend. unfold PAGE_SIZE in Hend.
  rewrite (proj2 (Z.leb_le _ _)) by lia. cbn [oguard mbind option_bind].
  destruct (page_to_paddr_run (vs_arenas s) pg Wp Hpg) as (ar & i & Har & Hi & _ & Epa).
  pose proof (proj1 (Forall_forall _ _) (pw_each _ Wp) ar Har) as War.
  assert (IS_PAGE_ALIGNED (vm_page_to_paddr (vs_arenas s) pg) = true) as ->.
  { rewrite Epa, IS_PAGE_ALIGNED_mod. apply Z.eqb_eq. pose proof (aw_base _ War). unfold PAGE_SIZE in *. Z.div_mod_to_equations. lia. }
  cbn [oguard mbind option_bind]. unfold get_aspace. rewrite Hb. cbn [mbind option_bind].
  destruct (arch_mmu_map _ _ _ _ _) as [err m]. destruct (Z.ltb_spec err NO_ERROR) as [Herr|Hok].
  { eexists (Some err), mapped, (pages ++ [pg]), m. split_and!; [done| |done]. by rewrite <- Permutation_cons_append. }
  destruct (IH (mapped ++ [pg]) (u64 (va + PAGE_SIZE)) (set_as_arch m b) (put_aspace p (set_as_arch m b) s))
    as (f & mapped' & rest & m' & E & P & Hf); try done.
  { cbn. by rewrite lookup_insert_eq. } { by apply wrap_range. }
  { destruct (decide (va + PAGE_SIZE < 2 ^ 64)) as [|Hw]; [rewrite wrap_small; unfold PAGE_SIZE in *; lia|].
    assert (va + PAGE_SIZE = 2 ^ 64 /\ Z.of_nat (length pages) = 0) as [-> ->] by (unfold PAGE_SIZE in *; lia).
    replace (u64 (2 ^ 64)) with 0 by done. lia. }
  exists f, mapped', rest, m'. rewrite E, put_aspace_twice. rewrite <- app_assoc in P, Hf. done.
Qed.

(** ** Giving the pages to the region *)
Lemma fmap_all_id {A} (f : A -> A) (l : list A) : (forall x, x ∈ l -> f x = x) -> f <$> l = l.
Proof. induction l as [|x l IH]; [done|]. intros Hf. rewrite fmap_cons, IH, Hf by set_solver. done. Qed.

Lemma set_region_pages_run X (s : @vmm_state arch_aspace) p b l1 r l2 :
  vmm_wfx X s -> vs_aspaces s !! p = Some b -> as_region_list b = l1 ++ r :: l2 -> r_page_list r = [] ->
  let b' := set_as_region_list (l1 ++ set_r_page_list X r :: l2) b in
  set_region_pages p r X s = Some (put_aspace p b' s) /\ vmm_wf (put_aspace p b' s) /\
  owned (<[p := b']> (vs_aspaces s)) ≡ₚ X ++ owned (vs_aspaces s).
Proof.
  intros [H1 H2 H3 H4 H5 H6] Hb El Hp b'. pose proof (H2 _ _ Hb) as [A1 A2 A3 A4].
  assert (owned (<[p := b']> (vs_aspaces s)) ≡ₚ X ++ owned (vs_aspaces s)) as Ho.
  { destruct (owned_insert (vs_aspaces s) p b b' Hb) as (rest & -> & ->). unfold b'. rewrite aspace_pages_split. cbn.
    rewrite <- app_assoc. do 2 f_equiv. trans (aspace_pages (set_as_region_list (l1 ++ r :: l2) b)).
    - by rewrite aspace_pages_split, Hp.
    - unfold aspace_pages. cbn. by rewrite El. }
  assert ((fun r' => if r_ptr r' =? r_ptr r then set_r_page_list X r' else r') <$> (l1 ++ r :: l2) =
          l1 ++ set_r_page_list X r :: l2) as Emap.
  { rewrite El, fmap_app, fmap_cons in A4. apply NoDup_app in A4 as (_ & Hd & [Hn _]%NoDup_cons).
    rewrite fmap_app, fmap_cons, Z.eqb_refl. f_equal; [|f_equal];
      apply fmap_all_id; intros q Hq; rewrite (proj2 (Z.eqb_neq _ _)); try done; intros E.
    - apply (Hd (r_ptr q)); [by apply list_elem_of_fmap_2|rewrite E; set_solver].
    - apply Hn. rewrite <- E. by apply list_elem_of_fmap_2. }
  split_and!; [|split; cbn; try done|done].
  - unfold set_region_pages, get_aspace. rewrite Hb. cbn [mbind option_bind]. by rewrite El, Emap.
  - apply aspaces_update; [done|]. split; cbn; try done.
    + rewrite El in A3. rewrite <- Emap. apply regions_wf_map; [|done]. intros q. by destruct (_ =? _).
    + rewrite El in A4. by rewrite fmap_app, fmap_cons in *.
  - by rewrite Ho.
  - by rewrite Ho, <- app_assoc.
  - rewrite Forall_forall in *. intros o Hin. apply fresh_update; [by apply H5|]. intros x ->. cbn.
    specialize (H5 _ Hin x eq_refl p b Hb). rewrite El, fmap_app, fmap_cons in H5. by rewrite fmap_app, fmap_cons.
Qed.

(** ** Allocating and freeing regions *)

(** The arguments are sane: the size is a [size_t], an address asked for is page
    aligned, and the alignment is below the width of an address. *)
Definition alloc_args_ok (size : Z) (ptr : option Z) (al vf : Z) : Prop :=
  0 <= size < 2 ^ 64 /\ 0 <= al < 64 /\
  (has_flag vf VMM_FLAG_VALLOC_SPECIFIC = true -> forall v, ptr = Some v -> 0 <= v < 2 ^ 64 /\ IS_PAGE_ALIGNED v = true).

(** A region [r] backed by its own pages is new in the space [p]. *)
Definition region_backed (s : @vmm_state arch_aspace) (p : Z) (a : @vmm_aspace arch_aspace) (size : Z)
  (r : vmm_region) (s' : @vmm_state arch_aspace) : Prop :=
  exists l1 l2 m, as_region_list a = l1 ++ l2 /\
    vs_aspaces s' = <[p := set_as_arch m (set_as_region_list (l1 ++ r :: l2) a)]> (vs_aspaces s) /\
    r_size r = ROUNDUP size PAGE_SIZE /\
    Z.of_nat (length (r_page_list r)) = ROUNDUP size PAGE_SIZE / PAGE_SIZE /\
    owned (vs_aspaces s') ≡ₚ r_page_list r ++ owned (vs_aspaces s) /\
    free_pages (vs_arenas s) ≡ₚ r_page_list r ++ free_pages (vs_arenas s').

(** Nothing changed but what the architecture's code did to the space [p]. *)
Definition unchanged (s : @vmm_state arch_aspace) (p : Z) (a : @vmm_aspace arch_aspace)
  (s' : @vmm_state arch_aspace) : Prop :=
  (exists m, vs_aspaces s' = <[p := set_as_arch m a]> (vs_aspaces s)) /\
  free_pages (vs_arenas s') ≡ₚ free_pages (vs_arenas s).

Lemma set_as_region_list_same (a : @vmm_aspace arch_aspace) l : as_region_list a = l -> set_as_region_list l a = a.
Proof. intros <-. by destruct a. Qed.

Lemma unchanged_same s p a s' :
  vs_aspaces s !! p = Some a -> vs_aspaces s' = vs_aspaces s -> free_pages (vs_arenas s') ≡ₚ free_pages (vs_arenas s) ->
  unchanged s p a s'.
Proof. intros Ha E P. split; [|done]. exists (as_arch a). by rewrite set_as_arch_same, insert_id. Qed.

Lemma pages_of_size size :
  0 <= size < 2 ^ 64 -> ROUNDUP size PAGE_SIZE <> 0 ->
  0 < ROUNDUP size PAGE_SIZE < 2 ^ 64 /\ IS_PAGE_ALIGNED (ROUNDUP size PAGE_SIZE) = true /\
  0 < ROUNDUP size PAGE_SIZE / PAGE_SIZE <= ROUNDUP size PAGE_SIZE.
Proof.
  intros Hs Hn. change PAGE_SIZE with (2 ^ 12) in *.
  assert (size + 2 ^ 12 - 1 < 2 ^ 64) as Hov.
  { destruct (decide (size + 2 ^ 12 - 1 < 2 ^ 64)); [done|]. rewrite ROUNDUP_wraps in Hn by lia. done. }
  destruct (ROUNDUP_spec size 12 ltac:(lia) ltac:(lia) Hov) as [Hr Hm].
  assert (ROUNDUP size (2 ^ 12) < 2 ^ 64).
  { unfold ROUNDUP in *. rewrite (wrap_small 64), ldiff_ones in * by lia. Z.div_mod_to_equations. lia. }
  rewrite IS_PAGE_ALIGNED_mod. change PAGE_SIZE with (2 ^ 12). rewrite Hm. split_and!; [lia..|done| |];
    Z.div_mod_to_equations; lia.
Qed.

(** The region of [vmm_alloc] once the pages are there. *)
Lemma vmm_alloc_mapped X (s s1 : @vmm_state arch_aspace) p a size r flags (ptr : option Z) :
  vmm_wfx X s -> vs_aspaces s !! p = Some a -> region_added X s p a size r s1 -> vs_arenas s1 = vs_arenas s ->
  size = Z.of_nat (length X) * PAGE_SIZE -> IS_PAGE_ALIGNED (r_base r) = true ->
  exists err ptr' s', vmm_alloc_map p r ptr X flags s1 = Some (err, ptr', s') /\ vmm_wf s' /\
    ((err = NO_ERROR /\ (exists l1 l2 m, as_region_list a = l1 ++ l2 /\
        vs_aspaces s' = <[p := set_as_arch m (set_as_region_list (l1 ++ set_r_page_list X r :: l2) a)]> (vs_aspaces s)) /\
        ptr' = (fun _ => r_base r) <$> ptr /\ owned (vs_aspaces s') ≡ₚ X ++ owned (vs_aspaces s) /\ vs_arenas s' = vs_arenas s) \/
     (err < 0 /\ ptr' = ptr /\ (exists m, vs_aspaces s' = <[p := set_as_arch m a]> (vs_aspaces s)) /\
        free_pages (vs_arenas s') ≡ₚ X ++ free_pages (vs_arenas s))).
Proof.
  intros W Ha (W1 & Hrs & Hrp & l1 & l2 & El & E1 & Hw & Ho) Ear Hsz Hal. unfold vmm_alloc_map. rewrite Hal. cbn [oguard mbind option_bind].
  pose proof (vw_aspaces _ _ W _ _ Ha) as [A1 A2 _ _].
  destruct (regions_wf_bounds _ _ _ r Hw) as (? & ? & ?); [set_solver|].
  set (b := set_as_region_list (l1 ++ r :: l2) a) in *.
  assert (vs_aspaces s1 !! p = Some b) as Hb by (rewrite E1; apply lookup_insert_eq).
  destruct (map_pages_run p r b flags X [] (r_base r) s1) as (f & mapped & rest & m & -> & P & Hf).
  { apply W1. } { done. } { pose proof (vw_known _ _ W1) as Hk. by apply Forall_app in Hk as [? _]. }
  { apply r_last_eq; lia. } { lia. } { lia. } { unfold r_end. lia. }
  cbn [mbind option_bind]. destruct (wfx_arch X s1 p b m W1 Hb) as [W2 Ho2].
  assert (vs_aspaces (put_aspace p (set_as_arch m b) s1) !! p = Some (set_as_arch m b)) as Hb2 by (cbn; apply lookup_insert_eq).
  destruct f as [e|].
  - destruct (undo_region_run X _ p (set_as_arch m b) l1 r l2 W2 Hb2 eq_refl Hrp) as (m2 & -> & W3 & Ho3).
    cbn [mbind option_bind]. rewrite put_aspace_twice in *. cbn in P.
    set (s3 := put_aspace p (set_as_arch m2 _) s1) in *.
    assert (vmm_wfx (mapped ++ rest ++ []) s3) as W3'.
    { rewrite app_nil_r. by apply (wfx_perm X). }
    destruct (vm_pmm_free_run mapped (rest ++ []) s3 W3') as (ar1 & -> & W4 & F4). cbn [mbind option_bind].
    destruct (vm_pmm_free_run rest [] (set_vs_arenas ar1 s3) W4) as (ar2 & -> & W5 & F5). cbn [mbind option_bind].
    eexists _, _, _. split; [done|]. split; [done|]. right. split_and!; [done|done| |].
    + exists m2. cbn. rewrite E1, insert_insert_eq. f_equal.
      unfold b, set_as_arch, set_as_region_list. cbn. by rewrite <- El.
    + cbn in F4, F5 |- *. rewrite F5, F4, Ear, app_assoc. rewrite (Permutation_app_comm rest mapped). by rewrite P.
  - destruct Hf as [-> ->]. cbn [app].
    destruct (set_region_pages_run X _ p (set_as_arch m b) l1 r l2 W2 Hb2 eq_refl Hrp) as (-> & W3 & Ho3).
    cbn [mbind option_bind]. rewrite put_aspace_twice in *. eexists _, _, _. split; [done|]. split; [done|]. left.
    split_and!; [done| |done| |done].
    + exists l1, l2, m. split; [done|]. cbn. rewrite E1, insert_insert_eq. done.
    + cbn in Ho3 |- *. rewrite insert_insert_eq in Ho3. by rewrite Ho3, Ho2, Ho.
Qed.

Lemma vmm_take_pages (s : @vmm_state arch_aspace) count :
  vmm_wf s -> 0 <= count ->
  exists arenas' l, pmm_alloc_pages (vs_arenas s) count [] = Some (Z.of_nat (length l), arenas', l) /\
    Z.of_nat (length l) <= count /\ vmm_wfx l (set_vs_arenas arenas' s) /\
    free_pages (vs_arenas s) ≡ₚ l ++ free_pages arenas'.
Proof.
  intros W Hc. destruct (pmm_alloc_pages_run (vs_arenas s) count [] (vw_pmm _ _ W) Hc) as (ar' & E & W' & L & F).
  set (m := (_ `min` _)%nat) in *. exists ar', (take m (free_pages (vs_arenas s))). cbn in E.
  assert (length (take m (free_pages (vs_arenas s))) = m) as Em by (rewrite length_take; lia).
  assert (free_pages (vs_arenas s) ≡ₚ take m (free_pages (vs_arenas s)) ++ free_pages ar') as P by (by rewrite F, take_drop).
  rewrite Em, E. split_and!; [done|unfold m; lia| |done].
  rewrite <- (app_nil_r (take m _)). by apply wfx_take.
Qed.

(** [alloc_args_ok] gives an address that can be used. *)
Lemma wanted_vaddr_ok size ptr al vf v :
  alloc_args_ok size ptr al vf -> wanted_vaddr vf ptr = Some v -> 0 <= v < 2 ^ 64 /\ IS_PAGE_ALIGNED v = true.
Proof.
  intros (_ & _ & Hsp) E. unfold wanted_vaddr in E. destruct (has_flag vf VMM_FLAG_VALLOC_SPECIFIC); [by apply Hsp|].
  by simplify_eq.
Qed.

Lemma aligned_page_aligned x al : 0 <= al < 64 -> x mod 2 ^ Z.max al PAGE_SIZE_SHIFT = 0 -> IS_PAGE_ALIGNED x = true.
Proof.
  intros Hal Hm. rewrite IS_PAGE_ALIGNED_mod. apply Z.eqb_eq. unfold PAGE_SIZE_SHIFT in Hm.
  apply Z.mod_divide in Hm as [q ->]; [|lia]. rewrite (pow2_page (Z.max al 12)) by lia.
  rewrite (Z.mul_comm PAGE_SIZE), Z.mul_assoc. by apply Z.mod_mul.
Qed.

Lemma vmm_alloc_run (s : @vmm_state arch_aspace) p a name size ptr al vf af :
  vmm_wf s -> vs_aspaces s !! p = Some a -> alloc_args_ok size ptr al vf ->
  exists err ptr' s', vmm_alloc p name size ptr al vf af s = Some (err, ptr', s') /\ vmm_wf s' /\
    ((err = NO_ERROR /\ exists r, region_backed s p a size r s' /\ ptr' = (fun _ => r_base r) <$> ptr) \/
     (err < 0 /\ ptr' = ptr /\ unchanged s p a s')).
Proof.
  intros W Ha Hok. pose proof Hok as (Hs & Hal & Hsp). unfold vmm_alloc.
  destruct (Z.eqb_spec (ROUNDUP size PAGE_SIZE) 0) as [E0|Hn].
  { eexists _, _, _. split; [done|]. split; [done|]. right. split_and!; [done|done|by apply unchanged_same]. }
  destruct (pages_of_size size Hs Hn) as (Hr & Hra & Hc). set (n := ROUNDUP size PAGE_SIZE) in *.
  destruct (wanted_vaddr vf ptr) as [v|] eqn:Ew.
  2:{ eexists _, _, _. split; [done|]. split; [done|]. right. split_and!; [done|done|by apply unchanged_same]. }
  destruct (wanted_vaddr_ok _ _ _ _ _ Hok Ew) as [Hv Hva].
  assert (u32 (n / PAGE_SIZE) <= n / PAGE_SIZE) as Hu by (apply Z.mod_le; lia).
  destruct (vmm_take_pages s (u32 (n / PAGE_SIZE)) W) as (ar1 & X & -> & Hlen & W1 & P1); [by apply wrap_range|].
  cbn [mbind option_bind]. rewrite (proj2 (Z.leb_le _ n)) by lia. cbn [oguard mbind option_bind].
  assert (forall s2, vmm_wfx X s2 -> vs_aspaces s2 = vs_aspaces s -> vs_arenas s2 = ar1 ->
    exists s3, vm_pmm_free X s2 = Some s3 /\ vmm_wf s3 /\ unchanged s p a s3) as Hgiveback.
  { intros s2 W2 E2 E3. rewrite <- (app_nil_r X) in W2. destruct (vm_pmm_free_run X [] s2 W2) as (ar2 & Ef & W3 & F3).
    eexists. split; [exact Ef|]. split; [done|]. apply unchanged_same; [done..|]. cbn. by rewrite F3, E3, <- P1. }
  destruct (Z.ltb_spec (Z.of_nat (length X)) (n / PAGE_SIZE)) as [Hlt|Hge].
  { destruct (Hgiveback _ W1 eq_refl eq_refl) as (s3 & -> & W3 & Hun). cbn [mbind option_bind].
    eexists _, _, _. split; [done|]. split; [done|]. right. done. }
  destruct (alloc_region_run X (set_vs_arenas ar1 s) p a (default EmptyString name) n v al vf VMM_REGION_FLAG_PHYSICAL af W1 Ha Hr Hra Hal Hv)
    as (r & s1 & -> & Ear & Hres). cbn [mbind option_bind]. destruct r as [r|].
  2:{ destruct Hres as [W2 E2]. destruct (Hgiveback s1 W2 E2 Ear) as (s3 & -> & W3 & Hun). cbn [mbind option_bind].
      eexists _, _, _. split; [done|]. split; [done|]. right. done. }
  destruct Hres as [Hadd Hbase].
  assert (IS_PAGE_ALIGNED (r_base r) = true) as Hral.
  { destruct (has_flag vf VMM_FLAG_VALLOC_SPECIFIC); [by rewrite Hbase|by eapply aligned_page_aligned]. }
  assert (n = Z.of_nat (length X) * PAGE_SIZE) as Hsz.
  { rewrite IS_PAGE_ALIGNED_mod in Hra. apply Z.eqb_eq in Hra. unfold PAGE_SIZE in *. Z.div_mod_to_equations. lia. }
  destruct (vmm_alloc_mapped X (set_vs_arenas ar1 s) s1 p a n r af ptr W1 Ha Hadd Ear Hsz Hral)
    as (err & ptr' & s' & -> & W' & [(-> & (l1 & l2 & m & El & Es) & -> & Ho & Ear')|(He & -> & Hm & Hf)]).
  - eexists _, _, _. split; [done|]. split; [done|]. left. split; [done|].
    exists (set_r_page_list X r). split; [|done]. exists l1, l2, m. cbn. destruct Hadd as (_ & Ers & _).
    split_and!; [done|done|done|fold n; lia|done|by rewrite Ear'].
  - eexists _, _, _. split; [done|]. split; [done|]. right. split_and!; [done|done|].
    split; [exact Hm|]. cbn in Hf. by rewrite Hf, <- P1.
Qed.


Lemma free_region_run (s : @vmm_state arch_aspace) p a l1 r l2 v :
  vmm_wf s -> vs_aspaces s !! p = Some a -> as_region_list a = l1 ++ r :: l2 -> r_base r <= v < r_end r ->
  exists m s', vmm_free_region p v s = Some (NO_ERROR, s') /\ vmm_wf s' /\
    vs_aspaces s' = <[p := set_as_arch m (set_as_region_list (l1 ++ l2) a)]> (vs_aspaces s) /\
    free_pages (vs_arenas s') ≡ₚ r_page_list r ++ free_pages (vs_arenas s).
Proof.
  intros W Ha El Hv. pose proof (vw_aspaces _ _ W _ _ Ha) as Wa.
  destruct (remove_region_run s p a l1 r l2 v Ha Wa El Hv) as [m E].
  destruct (wfx_remove [] s p a l1 r l2 m W Ha El) as [W1 _].
  destruct (vm_pmm_free_run (r_page_list r) [] _ W1) as (ar & Ef & W2 & F2).
  exists m. unfold vmm_free_region. rewrite E. cbn [mbind option_bind]. cbn [Z.ltb]. cbn [mbind option_bind].
  rewrite Ef. cbn [mbind option_bind]. eexists. by split_and!.
Qed.

(** [vmm_free_region] removes the region that contains the address, and no
    other, and makes all of its pages free; for an address in no region it
    returns [ERR_NOT_FOUND] and changes nothing. *)
Theorem vmm_free_region_correct (s : @vmm_state arch_aspace) p a v :
  vmm_wf s -> vs_aspaces s !! p = Some a ->
  match vmm_find_region (as_region_list a) v with
  | None => vmm_free_region p v s = Some (ERR_NOT_FOUND, s)
  | Some r => exists l1 l2 m s', as_region_list a = l1 ++ r :: l2 /\
      vmm_free_region p v s = Some (NO_ERROR, s') /\ vmm_wf s' /\
      vs_aspaces s' = <[p := set_as_arch m (set_as_region_list (l1 ++ l2) a)]> (vs_aspaces s) /\
      free_pages (vs_arenas s') ≡ₚ r_page_list r ++ free_pages (vs_arenas s)
  end.
Proof.
  intros W Ha. destruct (vmm_find_region (as_region_list a) v) as [r|] eqn:Ef.
  - destruct (vw_aspaces _ _ W _ _ Ha) as [A1 A2 A3 _].
    apply (find_region_iff (as_base a) (as_base a + as_size a)) in Ef as [Hr Hv]; [|done|lia|done].
    apply list_elem_of_split in Hr as (l1 & l2 & El).
    destruct (free_region_run s p a l1 r l2 v W Ha El Hv) as (m & s' & ?). exists l1, l2, m, s'. done.
  - unfold vmm_free_region, vmm_remove_region_locked, get_aspace. rewrite Ha. cbn [mbind option_bind]. by rewrite Ef.
Qed.

(** A region allocated with [vmm_alloc] and freed again with
    [vmm_free_region] leaves the region list and the set of free pages as they
    were. *)
Theorem vmm_alloc_free_roundtrip (s s1 : @vmm_state arch_aspace) p a name size v al vf af base :
  vmm_wf s -> vs_aspaces s !! p = Some a -> alloc_args_ok size (Some v) al vf ->
  vmm_alloc p name size (Some v) al vf af s = Some (NO_ERROR, Some base, s1) ->
  exists m s2, vmm_free_region p base s1 = Some (NO_ERROR, s2) /\ vmm_wf s2 /\
    vs_aspaces s2 = <[p := set_as_arch m a]> (vs_aspaces s) /\
    free_pages (vs_arenas s2) ≡ₚ free_pages (vs_arenas s).
Proof.
  intros W Ha Hok E. destruct (vmm_alloc_run s p a name size (Some v) al vf af W Ha Hok)
    as (err & ptr' & s' & E' & W1 & [[-> (r & Hb & ->)]|[He _]]); rewrite E in E'; cbn in E'; simplify_eq; [|done].
  destruct Hb as (l1 & l2 & m & El & Es & Hsz & Hlen & _ & Hf).
  set (b := set_as_arch m (set_as_region_list (l1 ++ r :: l2) a)) in *.
  assert (vs_aspaces s' !! p = Some b) as Hb by (rewrite Es; apply lookup_insert_eq).
  destruct (regions_wf_bounds _ _ _ r (asw_regions _ (vw_aspaces _ _ W1 _ _ Hb))) as (? & ? & ?); [cbn; set_solver|].
  destruct (free_region_run s' p b l1 r l2 (r_base r) W1 Hb eq_refl) as (m2 & s2 & E2 & W2 & Es2 & F2); [unfold r_end; lia|].
  exists m2, s2. split_and!; [done|done| |by rewrite F2, Hf].
  rewrite Es2, Es, insert_insert_eq. f_equal. unfold b, set_as_arch, set_as_region_list. cbn. by rewrite <- El.
Qed.

(** ** Whole address spaces *)
Lemma free_regions_run l (s : @vmm_state arch_aspace) Y :
  vmm_wfx (concat (r_page_list <$> l) ++ Y) s ->
  exists arenas', free_regions l s = Some (set_vs_arenas arenas' s) /\ vmm_wfx Y (set_vs_arenas arenas' s) /\
    free_pages arenas' ≡ₚ concat (r_page_list <$> l) ++ free_pages (vs_arenas s).
Proof.
  revert s. induction l as [|r l IH]; intros s; cbn [free_regions]; rewrite ?fmap_cons; cbn [concat].
  { intros W. exists (vs_arenas s). replace (set_vs_arenas (vs_arenas s) s) with s by (by destruct s). done. }
  rewrite <- app_assoc. intros W. destruct (vm_pmm_free_run (r_page_list r) _ s W) as (ar1 & -> & W1 & F1).
  cbn [mbind option_bind]. destruct (IH _ W1) as (ar2 & -> & W2 & F2).
  exists ar2. split_and!; [done|done|]. cbn in F2. rewrite F2, F1. rewrite Permutation_app_swap_app. by rewrite <- app_assoc.
Qed.

(** [vmm_free_aspace] of a live address space frees the pages of all its
    regions, takes the structure out of the list and frees it, and never leaves
    it loaded as the address space of the current thread; a space that is not
    on the list is refused with [ERR_INVALID_ARGS]. *)
Theorem vmm_free_aspace_correct (s : @vmm_state arch_aspace) p a :
  vmm_wf s -> vs_aspaces s !! p = Some a ->
  if decide (p ∈ vs_aspace_list s) then
    exists s', vmm_free_aspace p s = Some (NO_ERROR, s') /\ vmm_wf s' /\
      vs_aspaces s' = delete p (vs_aspaces s) /\ vs_aspace_list s' = remove_elt p (vs_aspace_list s) /\
      free_pages (vs_arenas s') ≡ₚ aspace_pages a ++ free_pages (vs_arenas s) /\
      (p <> 0 -> vs_cur_aspace s' <> p)
  else vmm_free_aspace p s = Some (ERR_INVALID_ARGS, s).
Proof.
  intros W Ha. unfold vmm_free_aspace, get_aspace. rewrite Ha. cbn [mbind option_bind].
  destruct (decide (p ∈ vs_aspace_list s)) as [Hin|Hout]; [rewrite bool_decide_true by done|by rewrite bool_decide_false].
  cbn [negb]. set (m := unmap_regions _ _). set (b := set_as_arch m (set_as_region_list [] a)).
  set (s1 := put_aspace p b _).
  assert (owned (vs_aspaces s) ≡ₚ aspace_pages a ++ owned (vs_aspaces s1)) as Ho.
  { change (vs_aspaces s1) with (<[p := b]> (vs_aspaces s)).
    by destruct (owned_insert (vs_aspaces s) p a b Ha) as (rest & -> & ->). }
  destruct W as [H1 H2 H3 H4 H5 H6]. pose proof (H2 _ _ Ha) as [A1 A2 A3 A4].
  assert (vmm_wfx (concat (r_page_list <$> as_region_list a) ++ []) s1) as W1.
  { fold (aspace_pages a). rewrite app_nil_r. split; cbn; try done.
    - apply aspaces_update; [done|]. split; cbn; try done; [lia|constructor].
    - cbn in H3. by rewrite Ho in H3.
    - cbn in H4. by rewrite Ho, <- app_assoc in H4.
    - eapply Forall_impl; [exact H5|]. intros o Hfo. apply fresh_update; [done|]. set_solver. }
  destruct (free_regions_run (as_region_list a) s1 [] W1) as (ar & -> & W2 & F2). cbn [mbind option_bind].
  set (s2 := if vs_cur_aspace (set_vs_arenas ar s1) =? p then _ else _).
  assert (vs_aspaces s2 = <[p := b]> (vs_aspaces s) /\ vs_arenas s2 = ar /\ vs_allocs s2 = vs_allocs s /\
          vs_aspace_list s2 = remove_elt p (vs_aspace_list s)) as (E1 & E2 & E3 & E4) by (unfold s2; by destruct (_ =? _)).
  eexists. split; [done|]. cbn. rewrite E1, E2, delete_insert_eq. split_and!; [|done|done|done|].
  - destruct W2 as [B1 B2 B3 B4 B5 B6]. cbn in *.
    assert (owned (delete p (vs_aspaces s)) ≡ₚ owned (<[p:=b]> (vs_aspaces s))) as Hd.
    { rewrite <- insert_delete_eq. unfold owned at 2. rewrite map_to_list_insert by apply lookup_delete_eq. done. }
    split; cbn; rewrite ?E1, ?E2, ?E3, ?delete_insert_eq, ?Hd; try done.
    + intros q c [_ Hq]%lookup_delete_Some. by eapply H2.
    + eapply Forall_impl; [exact H5|]. intros o Hfo x Hx q c [_ Hq]%lookup_delete_Some. by eapply Hfo.
  - intros Hp. unfold s2. destruct (Z.eqb_spec (vs_cur_aspace (set_vs_arenas ar s1)) p); cbn; [lia|done].
Qed.
End vmm_inv.

(** ** A concrete machine, for the examples: a page table that maps page by page *)
#[local] Instance demo_mmu : ArchMmu (list (Z * Z)) := {|
  arch_aspace_zero := [];
  arch_mmu_init_aspace _ _ _ := (NO_ERROR, []);
  arch_mmu_map t va pa count _ :=
    (NO_ERROR, ((fun i => (va + Z.of_nat i * PAGE_SIZE, pa + Z.of_nat i * PAGE_SIZE)) <$> seq 0 (Z.to_nat count)) ++ t);
  arch_mmu_unmap t va count :=
    (NO_ERROR, filter (fun e => ~ (va <= fst e < va + count * PAGE_SIZE)) t);
  arch_mmu_query t va :=
    match find (fun e => fst e =? va) t with Some e => (NO_ERROR, snd e, 0) | None => (ERR_NOT_FOUND, 0, 0) end;
|}.

Definition demo_aspace : @vmm_aspace (list (Z * Z)) := Aspace "user" 0 0x10000 0x10000 demo_regions [].
Definition demo_vmm : @vmm_state (list (Z * Z)) :=
  VmmState {[ 0x100 := demo_aspace ]} [0x100] demo_arenas [Some 0x500] 0x100 0x100.

Lemma demo_vmm_lookup q b : vs_aspaces demo_vmm !! q = Some b -> b = demo_aspace.
Proof.
  change (vs_aspaces demo_vmm) with ({[ 0x100 := demo_aspace ]} : gmap Z _).
  by intros [_ <-]%lookup_singleton_Some.
Qed.

Lemma demo_vmm_wf : vmm_wf demo_vmm.
Proof.
  assert (owned (vs_aspaces demo_vmm) = []) as Ho by reflexivity.
  split.
  - apply demo_arenas_wf.
  - intros q b ->%demo_vmm_lookup. split; cbn; try lia.
    + apply demo_regions_wf.
    + apply (bool_decide_unpack _). vm_compute. exact I.
  - rewrite Ho. constructor.
  - rewrite Ho. cbn [app]. apply free_pages_nodup, demo_arenas_wf.
  - repeat constructor. intros x [= <-] q b ->%demo_vmm_lookup.
    apply (bool_decide_unpack _). vm_compute. exact I.
  - apply (bool_decide_unpack _). vm_compute. exact I.
Qed.

Lemma demo_args_ok : alloc_args_ok 0x1800 (Some 0) 0 0.
Proof. split_and!; [lia..|]. done. Qed.


Lemma vmm_free_region_correct_witness :
  exists s', vmm_free_region 0x100 0x13abc demo_vmm = Some (NO_ERROR, s') /\ vmm_wf s'.
Proof.
  destruct (vmm_free_region_correct demo_vmm 0x100 demo_aspace 0x13abc demo_vmm_wf eq_refl)
    as (l1 & l2 & m & s' & _ & E & W & _).
  exists s'. split; [exact E|exact W].
Defined.

Lemma vmm_alloc_free_roundtrip_witness :
  exists s1, vmm_alloc 0x100 None 0x1800 (Some 0) 0 0 0 demo_vmm = Some (NO_ERROR, Some 0x14000, s1) /\
    exists s2, vmm_free_region 0x100 0x14000 s1 = Some (NO_ERROR, s2) /\
      free_pages (vs_arenas s2) ≡ₚ free_pages demo_arenas.
Proof.
  destruct (vmm_alloc 0x100 None 0x1800 (Some 0) 0 0 0 demo_vmm) as [[[err ptr'] s1]|] eqn:E.
  2:{ exfalso. revert E. vm_compute. discriminate. }
  assert (fst <$> vmm_alloc 0x100 None 0x1800 (Some 0) 0 0 0 demo_vmm = Some (NO_ERROR, Some 0x14000)) as E2
    by (vm_compute; reflexivity).
  rewrite E in E2. cbn in E2. injection E2 as -> ->. exists s1. split; [reflexivity|].
  destruct (vmm_alloc_free_roundtrip demo_vmm s1 0x100 demo_aspace None 0x1800 0 0 0 0 0x14000 demo_vmm_wf eq_refl
              demo_args_ok E) as (m & s2 & E3 & _ & _ & P).
  exists s2. split; [exact E3|exact P].
Defined.

Lemma vmm_free_aspace_correct_witness :
  exists s', vmm_free_aspace 0x100 demo_vmm = Some (NO_ERROR, s') /\ vs_cur_aspace s' <> 0x100.
Proof.
  pose proof (vmm_free_aspace_correct demo_vmm 0x100 demo_aspace demo_vmm_wf eq_refl) as Hc.
  rewrite decide_True in Hc by (vm_compute; left). destruct Hc as (s' & E & _ & _ & _ & _ & Hn).
  exists s'. split; [exact E|]. apply Hn. lia.
Defined.
