(* ===== verification/Heap.v ===== *)
(** * The kernel heap: the code of [lib/heap/miniheap/miniheap.c] and [lib/heap/heap_wrapper.c]

    A first fit allocator over a list of free chunks in address order.  Each
    allocation has a header in front of it, which [free] finds from the pointer.
    The pages it grows by come from an interface, [PageAllocator], which
    [lib/heap/page_alloc.c] provides (see HeapPages).

    The model keeps the free list as the list of its chunks, the headers of the
    blocks not freed yet by the pointer given to the caller, and the bytes of
    memory, [h_mem], where no entry is an unknown value.  [None] is a failed
    assertion or an access outside the memory of the heap.  The sections under
    the heap's mutex run from end to end. *)
From S2P Require Import Prelude Align KState Pmm.

(** ** Bytes *)
Abbreviation memory := (gmap Z Z).

(** Structures written at [a] leave bytes the model does not know. *)
Definition clobber (a n : Z) (m : memory) : memory := filter (fun '(k, _) => ~ (a <= k < a + n)) m.
(** [memcpy] and [memset]; the copy reads all before it writes, the ranges being disjoint. *)
Definition memcpy (dst src n : Z) (m : memory) : memory :=
  foldr (fun i acc => match m !! (src + i) with Some v => <[dst + i := v]> acc | None => delete (dst + i) acc end)
    m (seqZ 0 n).
Definition memset (dst v n : Z) (m : memory) : memory :=
  foldr (fun i acc => <[dst + i := v]> acc) m (seqZ 0 n).

(** ** Data *)
Definition HEAP_MAGIC : Z := 0x48454150.
Definition sizeof_ptr : Z := 8.
(** [sizeof(struct free_heap_chunk)]: a list node and a length *)
Definition sizeof_free_heap_chunk : Z := 24.

Record free_heap_chunk := Chunk { ch_addr : Z; ch_len : Z }.
Record alloc_struct_begin := AllocStruct { as_magic : Z; as_ptr : Z; as_size : Z }.

Record heap := Heap {
  h_base : Z;
  h_len : Z;
  h_remaining : Z;
  h_low_watermark : Z;
  h_free_list : list free_heap_chunk;
  h_as : gmap Z alloc_struct_begin;   (* by the pointer returned *)
  h_mem : memory;
}.
Definition set_h_range (b l : Z) (h : heap) : heap :=
  Heap b l (h_remaining h) (h_low_watermark h) (h_free_list h) (h_as h) (h_mem h).
Definition set_h_remaining (v : Z) (h : heap) : heap :=
  Heap (h_base h) (h_len h) v (h_low_watermark h) (h_free_list h) (h_as h) (h_mem h).
Definition set_h_low_watermark (v : Z) (h : heap) : heap :=
  Heap (h_base h) (h_len h) (h_remaining h) v (h_free_list h) (h_as h) (h_mem h).
Definition set_h_free_list (v : list free_heap_chunk) (h : heap) : heap :=
  Heap (h_base h) (h_len h) (h_remaining h) (h_low_watermark h) v (h_as h) (h_mem h).
Definition set_h_as (v : gmap Z alloc_struct_begin) (h : heap) : heap :=
  Heap (h_base h) (h_len h) (h_remaining h) (h_low_watermark h) (h_free_list h) v (h_mem h).
Definition set_h_mem (v : memory) (h : heap) : heap :=
  Heap (h_base h) (h_len h) (h_remaining h) (h_low_watermark h) (h_free_list h) (h_as h) v.

(** ** The page allocator, as the heap sees it: 0 is NULL *)
Class PageAllocator (P : Type) := {
  page_alloc : Z -> P -> option (Z * P);
  page_free : Z -> Z -> P -> option P;
}.

Section heap.
Context `{KConfig}.
(** [&theheap.free_list] *)
Context (free_list_addr : Z).

Definition dassert (b : bool) : option unit := oguard (negb (1 <? LK_DEBUGLEVEL) || b).

(** [sizeof(struct alloc_struct_begin)]: the magic is there above debug level 1 *)
Definition sizeof_alloc_struct_begin : Z := if 1 <? LK_DEBUGLEVEL then 24 else 16.

(** ** The free list *)

(** The walk to the node to insert before: the list up to it and from it on. *)
Fixpoint insert_walk (chunk : free_heap_chunk) (l : list free_heap_chunk)
  : option (list free_heap_chunk * list free_heap_chunk) :=
  match l with
  | [] => Some ([], [])
  | next_chunk :: l' =>
      if ch_addr chunk <? ch_addr next_chunk then
        dassert (u64 (ch_addr chunk + ch_len chunk) <=? ch_addr next_chunk);; Some ([], l)
      else '(before, after) ← insert_walk chunk l'; Some (next_chunk :: before, after)
  end.

(** The merge with the previous chunk: what stays in front, and the chunk. *)
Definition merge_last (before : list free_heap_chunk) (chunk : free_heap_chunk)
  : list free_heap_chunk * free_heap_chunk :=
  match last before with
  | Some last_chunk =>
      if u64 (ch_addr last_chunk + ch_len last_chunk) =? ch_addr chunk
      then (take (length before - 1) before,
            Chunk (ch_addr last_chunk) (u64 (ch_len last_chunk + ch_len chunk)))
      else (before, chunk)
  | None => (before, chunk)
  end.

(** The merge with the next chunk.  When the walk ran off the end, [next_chunk]
    is what the loop left in it: the list head taken for a chunk. *)
Definition merge_next (chunk : free_heap_chunk) (after : list free_heap_chunk)
  : option (free_heap_chunk * list free_heap_chunk) :=
  match after with
  | next_chunk :: after' =>
      Some (if u64 (ch_addr chunk + ch_len chunk) =? ch_addr next_chunk
            then (Chunk (ch_addr chunk) (u64 (ch_len chunk + ch_len next_chunk)), after')
            else (chunk, after))
  | [] => oguard (negb (u64 (ch_addr chunk + ch_len chunk) =? free_list_addr));; Some (chunk, [])
  end.

(** The address of the chunk it became, and the heap. *)
Definition heap_insert_free_chunk (chunk : free_heap_chunk) (h : heap) : option (Z * heap) :=
  let h := set_h_remaining (u64 (h_remaining h + ch_len chunk)) h in
  '(before, after) ← insert_walk chunk (h_free_list h);
  let '(before, chunk) := merge_last before chunk in
  '(chunk, after) ← merge_next chunk after;
  Some (ch_addr chunk, set_h_free_list (before ++ chunk :: after) h).

(** The chunk, and the heap with its structure written. *)
Definition heap_create_free_chunk (ptr len : Z) (h : heap) : option (free_heap_chunk * heap) :=
  dassert (len mod sizeof_ptr =? 0);;
  dassert (sizeof_free_heap_chunk <=? len);;
  Some (Chunk ptr len, set_h_mem (clobber ptr sizeof_free_heap_chunk (h_mem h)) h).

(** ** Allocation *)

(** The size to look for, and the alignment. *)
Definition alloc_size (size alignment : Z) : Z * Z :=
  let size := u64 (size + sizeof_alloc_struct_begin) in
  let size := if size <? sizeof_free_heap_chunk then sizeof_free_heap_chunk else size in
  let size := ROUNDUP size sizeof_ptr in
  if 0 <? alignment then
    let alignment := if alignment <? 16 then 16 else alignment in
    (u64 (size + alignment), alignment)
  else (size, alignment).

(** The walk to the first chunk that is big enough: the list in front of it, the
    chunk, and the list behind. *)
Fixpoint alloc_walk (size : Z) (l : list free_heap_chunk)
  : option (option (list free_heap_chunk * free_heap_chunk * list free_heap_chunk)) :=
  match l with
  | [] => Some None
  | chunk :: l' =>
      dassert (ch_len chunk mod sizeof_ptr =? 0);;
      if size <=? ch_len chunk then Some (Some ([], chunk, l'))
      else
        r ← alloc_walk size l';
        Some (match r with
              | Some (before, found, after) => Some (chunk :: before, found, after)
              | None => None
              end)
  end.

(** The chunk taken off the list, its end given back where it is big enough. *)
Definition split_chunk (size : Z) (before : list free_heap_chunk) (chunk : free_heap_chunk)
  (after : list free_heap_chunk) (h : heap) : option (free_heap_chunk * heap) :=
  if u64 (size + sizeof_free_heap_chunk) <? ch_len chunk then
    '(newchunk, h) ← heap_create_free_chunk (u64 (ch_addr chunk + size)) (u64 (ch_len chunk - size)) h;
    Some (Chunk (ch_addr chunk) size, set_h_free_list (before ++ newchunk :: after) h)
  else Some (chunk, set_h_free_list (before ++ after) h).

(** The section under the mutex: the pointer, 0 for NULL. *)
Definition alloc_locked (size alignment : Z) (h : heap) : option (Z * heap) :=
  found ← alloc_walk size (h_free_list h);
  match found with
  | None => Some (0, h)
  | Some (before, chunk, after) =>
      '(chunk, h) ← split_chunk size before chunk after h;
      dassert (size <=? ch_len chunk);;
      (* the allocated size is the length of the chunk, not the size requested *)
      let size := ch_len chunk in
      let ptr := u64 (ch_addr chunk + sizeof_alloc_struct_begin) in
      let ptr := if 0 <? alignment then ROUNDUP ptr alignment else ptr in
      let as_ := AllocStruct HEAP_MAGIC (ch_addr chunk) size in
      let h := set_h_as (<[ptr := as_]> (h_as h))
                 (set_h_mem (clobber (ptr - sizeof_alloc_struct_begin) sizeof_alloc_struct_begin (h_mem h)) h) in
      let h := set_h_remaining (u64 (h_remaining h - size)) h in
      let h := if h_remaining h <? h_low_watermark h then set_h_low_watermark (h_remaining h) h else h in
      Some (ptr, h)
  end.

(** ** Freeing *)
Definition miniheap_free (ptr : Z) (h : heap) : option heap :=
  if ptr =? 0 then Some h
  else
    as_ ← h_as h !! ptr;
    dassert (as_magic as_ =? HEAP_MAGIC);;
    '(chunk, h) ← heap_create_free_chunk (as_ptr as_) (as_size as_) h;
    '(_, h) ← heap_insert_free_chunk chunk (set_h_as (delete ptr (h_as h)) h);
    Some h.

(** ** Initialisation and statistics *)
Definition miniheap_init (ptr len : Z) (h : heap) : option heap :=
  '(ptr, len) ← (if 0 <? ptr mod sizeof_ptr then
                   let aligned_ptr := ROUNDUP ptr sizeof_ptr in
                   dassert (aligned_ptr - ptr <? len);;
                   Some (aligned_ptr, u64 (len - (aligned_ptr - ptr)))
                 else Some (ptr, len));
  let h := Heap ptr len 0 0 [] ∅ (h_mem h) in
  if 0 <? len then
    '(chunk, h) ← heap_create_free_chunk ptr len h;
    '(_, h) ← heap_insert_free_chunk chunk h;
    Some h
  else Some h.

Record miniheap_stats := Stats {
  ms_heap_start : Z; ms_heap_len : Z; ms_heap_free : Z; ms_heap_max_chunk : Z; ms_heap_low_watermark : Z;
}.
Definition miniheap_get_stats (h : heap) : miniheap_stats :=
  let '(free, max) := foldl (fun '(free, max) chunk =>
    (u64 (free + ch_len chunk), if max <? ch_len chunk then ch_len chunk else max)) (0, 0) (h_free_list h) in
  Stats (h_base h) (h_len h) free max (h_low_watermark h).

(** ** Growing and trimming *)
Context {P : Type} `{!PageAllocator P}.

(** The size the heap grew by, or an error. *)
Definition heap_grow (size : Z) (h : heap) (s : P) : option (Z * heap * P) :=
  let size := ROUNDUP size PAGE_SIZE in
  '(ptr, s) ← page_alloc (size / PAGE_SIZE) s;
  if ptr =? 0 then Some (ERR_NO_MEMORY, h, s)
  else
    '(chunk, h) ← heap_create_free_chunk ptr size h;
    '(_, h) ← heap_insert_free_chunk chunk h;
    (* change the heap start and end variables *)
    let base := if (ptr <? h_base h) || (h_base h =? 0) then ptr else h_base h in
    let endptr := u64 (ptr + size) in
    let len := if u64 (base + h_len h) <? endptr then u64 (endptr - base) else h_len h in
    Some (size, set_h_range base len h, s).

Definition miniheap_alloc (size alignment : Z) (h : heap) (s : P) : option (Z * heap * P) :=
  (* alignment must be power of 2 *)
  if negb (Z.land alignment (u32 (alignment - 1)) =? 0) then Some (0, h, s)
  else
    let '(size, alignment) := alloc_size size alignment in
    '(ptr, h) ← alloc_locked size alignment h;
    if ptr =? 0 then
      (* try to grow the heap if we can *)
      '(err, h, s) ← heap_grow size h s;
      if 0 <=? err then '(ptr, h) ← alloc_locked size alignment h; Some (ptr, h, s)
      else Some (ptr, h, s)
    else Some (ptr, h, s).

Definition miniheap_realloc (ptr size : Z) (h : heap) (s : P) : option (Z * heap * P) :=
  if ptr =? 0 then miniheap_alloc size 0 h s
  else if size =? 0 then h ← miniheap_free ptr h; Some (0, h, s)
  else
    '(p, h, s) ← miniheap_alloc size 0 h s;
    if p =? 0 then Some (0, h, s)
    else
      h ← miniheap_free ptr (set_h_mem (memcpy p ptr size (h_mem h)) h);
      Some (p, h, s).

(** One chunk of the trim: the chunks it becomes, and the pages to give back if
    any.  The fuel bounds the jumps to [retry]. *)
Fixpoint trim_chunk (fuel : nat) (start end_ start_page end_page : Z)
  : option (list free_heap_chunk * option (Z * Z)) :=
  if start_page <? end_page then
    let tail := u64 (end_ - end_page) in
    if (start_page =? start) && (end_page =? end_) then
      (* the free chunk completely covers page(s) *)
      Some ([], Some (start_page, end_page))
    else if negb (start_page =? start) && (u64 (start_page - start) <? sizeof_free_heap_chunk) then
      (* not enough space for free chunk before *)
      match fuel with
      | O => None
      | S fuel => trim_chunk fuel start end_ (u64 (start_page + PAGE_SIZE)) end_page
      end
    else if (end_page <? end_) && (tail <? sizeof_free_heap_chunk) then
      (* not enough space for a free chunk afterwards, can't free the last page *)
      match fuel with
      | O => None
      | S fuel => trim_chunk fuel start end_ start_page (u64 (end_page - PAGE_SIZE))
      end
    else
      (* trim the new space off the end, and create a new chunk there *)
      new ← (if end_page <? end_ then
               dassert (tail mod sizeof_ptr =? 0);; dassert (sizeof_free_heap_chunk <=? tail);;
               Some [Chunk end_page tail]
             else Some []);
      if start_page =? start then Some (new, Some (start_page, end_page))
      else
        let len := u64 (u64 (end_page - start) - (end_page - start_page)) in
        Some (Chunk start len :: new, Some (start_page, end_page))
  else Some ([Chunk start (u64 (end_ - start))], None).

(** The loop over the list: the new list and what [remaining] went down to. *)
Fixpoint trim_walk (l : list free_heap_chunk) (remaining : Z) (m : memory) (s : P)
  : option (list free_heap_chunk * Z * memory * P) :=
  match l with
  | [] => Some ([], remaining, m, s)
  | chunk :: l' =>
      let start := ch_addr chunk in
      let end_ := u64 (start + ch_len chunk) in
      dassert (start <? end_);;
      let start_page := ROUNDUP start PAGE_SIZE in
      let end_page := ROUNDDOWN end_ PAGE_SIZE in
      dassert (end_page <=? end_);;
      dassert (start <=? start_page);;
      '(pieces, pages) ← trim_chunk 2 start end_ start_page end_page;
      let m := foldl (fun m c => clobber (ch_addr c) sizeof_free_heap_chunk m) m pieces in
      '(remaining, s) ← match pages with
                        | Some (start_page, end_page) =>
                            (* return it to the allocator *)
                            s ← page_free start_page ((end_page - start_page) / PAGE_SIZE) s;
                            Some (u64 (remaining - (end_page - start_page)), s)
                        | None => Some (remaining, s)
                        end;
      '(rest, remaining, m, s) ← trim_walk l' remaining m s;
      Some (pieces ++ rest, remaining, m, s)
  end.

Definition miniheap_trim (h : heap) (s : P) : option (heap * P) :=
  '(l, remaining, m, s) ← trim_walk (h_free_list h) (h_remaining h) (h_mem h) s;
  Some (set_h_mem m (set_h_remaining remaining (set_h_free_list l h)), s).

(** ** The interface of the heap, [lib/heap/heap_wrapper.c] with the miniheap *)
Record kheap := KHeap { kh_heap : heap; kh_delayed : list Z; kh_pages : P }.

(** The nodes go to a list of its own, last first, and are freed from there. *)
Fixpoint free_nodes (l : list Z) (h : heap) : option heap :=
  match l with
  | [] => Some h
  | node :: l => h ← miniheap_free node h; free_nodes l h
  end.
Definition heap_free_delayed_list (k : kheap) : option kheap :=
  h ← free_nodes (reverse (kh_delayed k)) (kh_heap k);
  Some (KHeap h [] (kh_pages k)).
Definition deal_with_pending (k : kheap) : option kheap :=
  if bool_decide (kh_delayed k = []) then Some k else heap_free_delayed_list k.

Definition page_first_alloc (s : P) : option (Z * Z * P) :=
  '(ptr, s) ← page_alloc 1 s; Some (ptr, PAGE_SIZE, s).
Definition heap_init (k : kheap) : option kheap :=
  '(ptr, len, s) ← page_first_alloc (kh_pages k);
  h ← miniheap_init ptr len (kh_heap k);
  Some (KHeap h (kh_delayed k) s).

Definition heap_trim (k : kheap) : option kheap :=
  k ← deal_with_pending k;
  '(h, s) ← miniheap_trim (kh_heap k) (kh_pages k);
  Some (KHeap h (kh_delayed k) s).

(** [HEAP_MEMALIGN]: the boundary becomes an [unsigned int]. *)
Definition memalign (boundary size : Z) (k : kheap) : option (Z * kheap) :=
  k ← deal_with_pending k;
  '(ptr, h, s) ← miniheap_alloc size (u32 boundary) (kh_heap k) (kh_pages k);
  Some (ptr, KHeap h (kh_delayed k) s).

Definition malloc (size : Z) (k : kheap) : option (Z * kheap) :=
  k ← deal_with_pending k;
  '(ptr, h, s) ← miniheap_alloc size 0 (kh_heap k) (kh_pages k);
  Some (ptr, KHeap h (kh_delayed k) s).

Definition calloc (count size : Z) (k : kheap) : option (Z * kheap) :=
  k ← deal_with_pending k;
  let realsize := u64 (count * size) in
  '(ptr, h, s) ← miniheap_alloc realsize 0 (kh_heap k) (kh_pages k);
  let h := if ptr =? 0 then h else set_h_mem (memset ptr 0 realsize (h_mem h)) h in
  Some (ptr, KHeap h (kh_delayed k) s).

Definition realloc (ptr size : Z) (k : kheap) : option (Z * kheap) :=
  k ← deal_with_pending k;
  '(ptr, h, s) ← miniheap_realloc ptr size (kh_heap k) (kh_pages k);
  Some (ptr, KHeap h (kh_delayed k) s).

Definition free (ptr : Z) (k : kheap) : option kheap :=
  h ← miniheap_free ptr (kh_heap k); Some (KHeap h (kh_delayed k) (kh_pages k)).

(** The list node is thrown down on the block, which must be large enough. *)
Definition heap_delayed_free (ptr : Z) (k : kheap) : option kheap :=
  as_ ← h_as (kh_heap k) !! ptr;
  oguard (ptr + 16 <=? as_ptr as_ + as_size as_);;
  Some (KHeap (set_h_mem (clobber ptr 16 (h_mem (kh_heap k))) (kh_heap k)) (ptr :: kh_delayed k) (kh_pages k)).
End heap.
Arguments kheap P : clear implicits.
