(* ===== verification/HeapInv.v ===== *)
(** * What the heap guarantees

    The free list is in address order and fully merged: between two free chunks
    there is memory that is not free.  Such a list is determined by the set of
    free bytes, so each operation is described by what it does to that set.
    Free chunks and blocks never overlap, and their bytes only change hands. *)
From stdpp Require Import sorting.
From S2P Require Import Prelude Align KState Pmm Heap.

(** The fields of an updated heap. *)
Ltac hcbn := cbn [h_base h_len h_remaining h_low_watermark h_free_list h_as h_mem
  set_h_range set_h_remaining set_h_low_watermark set_h_free_list set_h_as set_h_mem].

(** ** Chunks *)
Definition ch_end (c : free_heap_chunk) : Z := ch_addr c + ch_len c.
Definition inside (c : free_heap_chunk) (x : Z) : Prop := ch_addr c <= x < ch_end c.
Definition apart (c d : free_heap_chunk) : Prop := ch_end c <= ch_addr d \/ ch_end d <= ch_addr c.

Record chunk_ok (c : free_heap_chunk) : Prop := {
  co_addr : 0 < ch_addr c /\ ch_addr c mod 8 = 0;
  co_len : 24 <= ch_len c /\ ch_len c mod 8 = 0;
  co_end : ch_end c <= 2 ^ 64 - 4096;   (* not in the last page of the address space *)
}.

Lemma apart_inside c d : chunk_ok c -> chunk_ok d -> (forall x, inside c x -> ~ inside d x) -> apart c d.
Proof.
  intros [_ [] _] [_ [] _] Hx. pose proof (Hx (ch_addr c)). pose proof (Hx (ch_addr d)).
  unfold apart, inside, ch_end in *. lia.
Qed.
Lemma apart_not_inside c d x : apart c d -> inside c x -> ~ inside d x.
Proof. unfold apart, inside. lia. Qed.

(** ** Lists of chunks *)
Definition gap (c d : free_heap_chunk) : Prop := ch_end c < ch_addr d.
Definition coalesced (l : list free_heap_chunk) : Prop := StronglySorted gap l /\ Forall chunk_ok l.
Definition free_at (l : list free_heap_chunk) (x : Z) : Prop := Exists (fun c => inside c x) l.
Definition sum_len (l : list free_heap_chunk) : Z := foldr (fun c n => ch_len c + n) 0 l.

Lemma free_at_cons c l x : free_at (c :: l) x <-> inside c x \/ free_at l x.
Proof. apply Exists_cons. Qed.
Lemma free_at_app l1 l2 x : free_at (l1 ++ l2) x <-> free_at l1 x \/ free_at l2 x.
Proof. apply Exists_app. Qed.
Lemma free_at_nil x : free_at [] x <-> False.
Proof. apply Exists_nil. Qed.
Lemma free_at_in l c x : c ∈ l -> inside c x -> free_at l x.
Proof. intros. apply Exists_exists. eauto. Qed.
Lemma sum_len_app l1 l2 : sum_len (l1 ++ l2) = sum_len l1 + sum_len l2.
Proof. unfold sum_len. induction l1 as [|c l1 IH]; cbn; [done|]. rewrite IH. lia. Qed.

Lemma sum_len_cons c l : sum_len (c :: l) = ch_len c + sum_len l.
Proof. done. Qed.

Lemma coalesced_nil : coalesced [].
Proof. split; constructor. Qed.

Lemma coalesced_app l1 l2 :
  coalesced (l1 ++ l2) <-> coalesced l1 /\ coalesced l2 /\ (forall c d, c ∈ l1 -> d ∈ l2 -> gap c d).
Proof. unfold coalesced. rewrite StronglySorted_app, Forall_app. naive_solver. Qed.

Lemma coalesced_cons c l :
  coalesced (c :: l) <-> chunk_ok c /\ coalesced l /\ (forall d, d ∈ l -> gap c d).
Proof.
  unfold coalesced. rewrite StronglySorted_cons, !Forall_cons, (Forall_forall _ l). naive_solver.
Qed.

Lemma coalesced_single c : chunk_ok c -> coalesced [c].
Proof. intros. apply coalesced_cons. split_and!; [done|apply coalesced_nil|set_solver]. Qed.

Lemma coalesced_ok l c : coalesced l -> c ∈ l -> chunk_ok c.
Proof. intros [_ Hl] Hc. by apply (proj1 (Forall_forall _ _) Hl). Qed.

(** The lengths add up to less than the address space. *)
Lemma sum_len_range_from l lo :
  coalesced l -> 0 <= lo < 2 ^ 64 -> (forall c, c ∈ l -> lo <= ch_addr c) -> 0 <= sum_len l /\ lo + sum_len l < 2 ^ 64.
Proof.
  revert lo. induction l as [|c l IH]; intros lo Hl Hlo Hc; cbn; [lia|].
  apply coalesced_cons in Hl as ([[]  [] Hce] & Hl & Hg). pose proof (Hc c ltac:(left)) as Hlc.
  destruct (IH (ch_end c)) as [? ?]; [done|unfold ch_end in *; lia| |].
  - intros d Hd. specialize (Hg d Hd). unfold gap in Hg. lia.
  - unfold sum_len, ch_end in *. lia.
Qed.
Lemma sum_len_range l : coalesced l -> 0 <= sum_len l < 2 ^ 64.
Proof.
  intros Hl. destruct (sum_len_range_from l 0 Hl) as [? ?]; [lia| |lia].
  intros c Hc. by destruct (coalesced_ok l c Hl Hc) as [[] _ _]; lia.
Qed.

(** The list is determined by its bytes. *)
Lemma coalesced_head c l x : coalesced (c :: l) -> free_at (c :: l) x -> inside c x \/ ch_end c < x.
Proof.
  intros (_ & _ & Hg)%coalesced_cons [?|Hx]%free_at_cons; [by left|right].
  apply Exists_exists in Hx as (d & Hd & Hx). specialize (Hg d Hd). unfold gap, inside in *. lia.
Qed.

Lemma coalesced_ext l1 l2 : coalesced l1 -> coalesced l2 -> (forall x, free_at l1 x <-> free_at l2 x) -> l1 = l2.
Proof.
  revert l2. induction l1 as [|c l1 IH]; intros [|d l2] H1 H2 Hx; [done|..].
  - pose proof (coalesced_ok _ d H2 ltac:(left)) as [_ [] _]. specialize (Hx (ch_addr d)).
    rewrite free_at_nil, free_at_cons in Hx. unfold inside, ch_end in Hx. lia.
  - pose proof (coalesced_ok _ c H1 ltac:(left)) as [_ [] _]. specialize (Hx (ch_addr c)).
    rewrite free_at_nil, free_at_cons in Hx. unfold inside, ch_end in Hx. lia.
  - pose proof (coalesced_ok _ c H1 ltac:(left)) as [_ [] _]. pose proof (coalesced_ok _ d H2 ltac:(left)) as [_ [] _].
    assert (forall x, free_at (c :: l1) x -> inside d x \/ ch_end d < x) as Hd.
    { intros x Hf. by apply (coalesced_head d l2), Hx. }
    assert (forall x, free_at (d :: l2) x -> inside c x \/ ch_end c < x) as Hc.
    { intros x Hf. by apply (coalesced_head c l1), Hx. }
    assert (forall x, inside c x -> free_at (c :: l1) x) as Ic by (intros; by apply free_at_cons; left).
    assert (forall x, inside d x -> free_at (d :: l2) x) as Id by (intros; by apply free_at_cons; left).
    assert (ch_addr c = ch_addr d) as Ea.
    { pose proof (Hd _ (Ic (ch_addr c) ltac:(unfold inside, ch_end; lia))). pose proof (Hc _ (Id (ch_addr d) ltac:(unfold inside, ch_end; lia))).
      unfold inside, ch_end in *. lia. }
    assert (ch_end c = ch_end d) as Ee.
    { destruct (Z.lt_total (ch_end c) (ch_end d)) as [E|[E|E]]; [|done|].
      - pose proof (Hc _ (Id (ch_end c) ltac:(unfold inside, ch_end in *; lia))). unfold inside in *. lia.
      - pose proof (Hd _ (Ic (ch_end d) ltac:(unfold inside, ch_end in *; lia))). unfold inside in *. lia. }
    assert (c = d) as -> by (destruct c, d; unfold ch_end in *; cbn in *; f_equal; lia).
    f_equal. apply coalesced_cons in H1 as (_ & H1 & G1). apply coalesced_cons in H2 as (_ & H2 & G2).
    apply IH; [done..|]. intros x. specialize (Hx x). rewrite !free_at_cons in Hx.
    assert (free_at l1 x -> ~ inside d x) by (intros Hf; apply Exists_exists in Hf as (e & He & Hi); specialize (G1 e He); unfold gap, inside in *; lia).
    assert (free_at l2 x -> ~ inside d x) by (intros Hf; apply Exists_exists in Hf as (e & He & Hi); specialize (G2 e He); unfold gap, inside in *; lia).
    tauto.
Qed.

(** ** The invariant *)
Definition extent (a : alloc_struct_begin) : free_heap_chunk := Chunk (as_ptr a) (as_size a).
Definition in_block (m : gmap Z alloc_struct_begin) (x : Z) : Prop := exists p a, m !! p = Some a /\ inside (extent a) x.
Definition owned (h : heap) (x : Z) : Prop := free_at (h_free_list h) x \/ in_block (h_as h) x.

Section inv.
Context `{KConfig} (free_list_addr : Z).

Record block_ok (p : Z) (a : alloc_struct_begin) : Prop := {
  bo_magic : as_magic a = HEAP_MAGIC;
  bo_extent : chunk_ok (extent a);
  bo_ptr : as_ptr a + sizeof_alloc_struct_begin <= p <= ch_end (extent a);
}.

Record blocks_ok (m : gmap Z alloc_struct_begin) : Prop := {
  bs_each : forall p a, m !! p = Some a -> block_ok p a;
  bs_apart : forall p q a b, p <> q -> m !! p = Some a -> m !! q = Some b -> apart (extent a) (extent b);
}.

Record heap_wf (h : heap) : Prop := {
  hw_free : coalesced (h_free_list h);
  hw_blocks : blocks_ok (h_as h);
  hw_apart : forall x, free_at (h_free_list h) x -> ~ in_block (h_as h) x;
  hw_remaining : h_remaining h = sum_len (h_free_list h);
  hw_self : ~ owned h (free_list_addr - 1);   (* the byte of [theheap] in front of the list head *)
}.

Lemma dassert_true b : b = true -> dassert b = Some ().
Proof. intros ->. unfold dassert. by rewrite orb_true_r. Qed.

(** ** Insertion *)
Lemma insert_walk_run c l :
  coalesced l -> chunk_ok c -> (forall d, d ∈ l -> apart c d) ->
  exists before after, insert_walk c l = Some (before, after) /\ l = before ++ after /\
    (forall d, d ∈ before -> ch_end d <= ch_addr c) /\ (forall d, d ∈ after -> ch_end c <= ch_addr d).
Proof.
  intros Hl Hc. induction l as [|d l IH]; intros Ha; cbn.
  - exists [], []. split_and!; [done..|set_solver|set_solver].
  - pose proof Hl as (Hd & Hl' & Hg)%coalesced_cons. pose proof (Ha d ltac:(left)) as Had.
    destruct (Z.ltb_spec (ch_addr c) (ch_addr d)) as [Hlt|Hge].
    + assert (ch_end c <= ch_addr d) as Hcd by (destruct Hd as [_ [] _]; unfold apart, ch_end in *; lia).
      rewrite dassert_true by (rewrite wrap_small; [apply Z.leb_le, Hcd|destruct Hc as [[] [] Hce]; unfold ch_end in *; lia]).
      cbn. exists [], (d :: l). split_and!; [done..|set_solver|]. intros e [->|He]%elem_of_cons; [done|].
      specialize (Hg e He). unfold gap, ch_end in *. destruct Hd as [_ [] _]. lia.
    + destruct IH as (before & after & E & -> & Hb & Haf); [done|intros; apply Ha; by right|]. rewrite E. cbn.
      exists (d :: before), after. split_and!; [done..| |done]. intros e [->|He]%elem_of_cons; [|by apply Hb].
      destruct Hc as [_ [] _]. unfold apart, ch_end in *. lia.
Qed.

Lemma merge_last_run before c :
  coalesced before -> chunk_ok c -> (forall d, d ∈ before -> ch_end d <= ch_addr c) ->
  exists before' c', merge_last before c = (before', c') /\ coalesced (before' ++ [c']) /\ ch_end c' = ch_end c /\
    (forall x, free_at (before' ++ [c']) x <-> free_at before x \/ inside c x) /\
    sum_len (before' ++ [c']) = sum_len before + ch_len c.
Proof.
  intros Hl Hc Hb. destruct before as [|d before _] using rev_ind.
  - exists [], c. unfold merge_last. cbn. split_and!; [done|by apply coalesced_single|done| |lia].
    intros x. rewrite free_at_cons, free_at_nil. tauto.
  - unfold merge_last. rewrite last_snoc, length_app, Nat.add_sub, take_app_length.
    pose proof Hl as (Hl' & Hd & Hg)%coalesced_app. apply coalesced_cons in Hd as (Hd & _ & _).
    pose proof (Hb d ltac:(set_solver)) as Hbd. pose proof Hd as [[] [] Hde]. pose proof Hc as [[] [] Hce].
    rewrite (wrap_small 64) by (unfold ch_end in *; lia).
    destruct (Z.eqb_spec (ch_addr d + ch_len d) (ch_addr c)) as [E|E].
    + rewrite wrap_small by (unfold ch_end in *; lia). eexists _, _. split; [done|].
      assert (chunk_ok (Chunk (ch_addr d) (ch_len d + ch_len c))) as Hok.
      { split; unfold ch_end in *; cbn; [done|split; [lia|Z.div_mod_to_equations; lia]|lia]. }
      split_and!.
      * apply coalesced_app. split_and!; [done|by apply coalesced_single|].
        intros e e' He ->%list_elem_of_singleton. by apply (Hg e d); [|left].
      * unfold ch_end in *. cbn. lia.
      * intros x. rewrite !free_at_app, !free_at_cons, !free_at_nil. unfold inside, ch_end in *. cbn. intuition lia.
      * rewrite !sum_len_app. cbn. lia.
    + exists (before ++ [d]), c. split_and!; try done.
      * apply coalesced_app. split_and!; [done|by apply coalesced_single|].
        intros e e' He ->%list_elem_of_singleton. unfold gap. apply elem_of_app in He as [He|He].
        -- specialize (Hg e d He ltac:(left)). unfold gap, ch_end in *. lia.
        -- apply list_elem_of_singleton in He as ->. unfold ch_end in *. lia.
      * intros x. rewrite !free_at_app, !free_at_cons, !free_at_nil. tauto.
      * rewrite !sum_len_app. cbn. lia.
Qed.

Lemma merge_next_run c after :
  coalesced after -> chunk_ok c -> (forall d, d ∈ after -> ch_end c <= ch_addr d) -> ch_end c <> free_list_addr ->
  exists c' after', merge_next free_list_addr c after = Some (c', after') /\ coalesced (c' :: after') /\ ch_addr c' = ch_addr c /\
    (forall x, free_at (c' :: after') x <-> inside c x \/ free_at after x) /\
    sum_len (c' :: after') = ch_len c + sum_len after.
Proof.
  intros Hl Hc Ha Hf. pose proof Hc as [[] [] Hce]. unfold merge_next. rewrite (wrap_small 64) by (unfold ch_end in *; lia).
  destruct after as [|d after].
  - rewrite (proj2 (Z.eqb_neq _ _)) by done. cbn. exists c, []. split_and!; [done|by apply coalesced_single|done| |done].
    intros x. by rewrite free_at_cons.
  - pose proof Hl as (Hd & Hl' & Hg)%coalesced_cons. pose proof Hd as [[] [] Hde]. pose proof (Ha d ltac:(left)) as Hcd.
    destruct (Z.eqb_spec (ch_addr c + ch_len c) (ch_addr d)) as [E|E]; eexists _, _; (split; [done|]).
    + rewrite (wrap_small 64) by (unfold ch_end in *; lia). split_and!; [|done| |cbn; lia].
      * apply coalesced_cons. split_and!; [|done|].
        -- split; unfold ch_end in *; cbn; [done|split; [lia|Z.div_mod_to_equations; lia]|lia].
        -- intros e He. specialize (Hg e He). unfold gap, ch_end in *. cbn. lia.
      * intros x. rewrite !free_at_cons. unfold inside, ch_end in *. cbn. intuition lia.
    + split_and!; [|done| |cbn; lia].
      * apply coalesced_cons. split_and!; [done..|]. intros e [->|He]%elem_of_cons; unfold gap, ch_end in *; [lia|].
        specialize (Hg e He). unfold gap, ch_end in *. lia.
      * intros x. rewrite !free_at_cons. tauto.
Qed.

Lemma coalesced_glue before c after :
  coalesced (before ++ [c]) -> forall c', ch_addr c' = ch_addr c -> coalesced (c' :: after) -> coalesced (before ++ c' :: after).
Proof.
  intros (Hb & _ & Hg)%coalesced_app c' Ea Hc. apply coalesced_app. split_and!; [done..|].
  intros e d He Hd. specialize (Hg e c He ltac:(left)). unfold gap in *. rewrite <- Ea in Hg.
  apply elem_of_cons in Hd as [->|Hd]; [done|]. apply coalesced_cons in Hc as ([_ [] _] & _ & Hgc).
  specialize (Hgc d Hd). unfold gap, ch_end in *. lia.
Qed.

(** The bytes of the chunk become free. *)
Lemma heap_insert_run c h :
  heap_wf h -> chunk_ok c -> (forall x, inside c x -> ~ owned h x) -> ~ inside c (free_list_addr - 1) ->
  exists r h', heap_insert_free_chunk free_list_addr c h = Some (r, h') /\ heap_wf h' /\
    h' = set_h_free_list (h_free_list h') (set_h_remaining (h_remaining h') h) /\
    (forall x, free_at (h_free_list h') x <-> free_at (h_free_list h) x \/ inside c x).
Proof.
  intros [Hl Hb Hap Hr Hs] Hc Hx Hself.
  assert (forall d, d ∈ h_free_list h -> apart c d) as Ha.
  { intros d Hd. apply apart_inside; [done|by eapply coalesced_ok|]. intros x Hi Hi'. apply (Hx x Hi). left. by eapply free_at_in. }
  destruct (insert_walk_run c (h_free_list h) Hl Hc Ha) as (before & after & E & El & Hbe & Haf).
  rewrite El in Hl. apply coalesced_app in Hl as (Hlb & Hla & Hg).
  destruct (merge_last_run before c Hlb Hc Hbe) as (before' & c1 & E1 & Hl1 & Ee & Hx1 & Hs1).
  assert (chunk_ok c1) as Hc1 by (eapply coalesced_ok; [exact Hl1|set_solver]).
  destruct (merge_next_run c1 after Hla Hc1) as (c2 & after' & E2 & Hl2 & Ea & Hx2 & Hs2).
  { intros d Hd. rewrite Ee. by apply Haf. }
  { rewrite Ee. intros E'. apply Hself. destruct Hc as [_ [] _]. unfold inside, ch_end in *. lia. }
  unfold heap_insert_free_chunk. cbn [h_free_list set_h_remaining]. rewrite E. cbn [mbind option_bind]. rewrite E1, E2. cbn [mbind option_bind].
  assert (coalesced (before' ++ c2 :: after')) as Hl' by (by eapply coalesced_glue).
  assert (forall x, free_at (before' ++ c2 :: after') x <-> free_at (h_free_list h) x \/ inside c x) as Hx'.
  { intros x. rewrite El. specialize (Hx1 x). specialize (Hx2 x). rewrite !free_at_app, free_at_cons, free_at_nil in *. tauto. }
  assert (sum_len (before' ++ c2 :: after') = sum_len (h_free_list h) + ch_len c) as Hsum.
  { rewrite El. rewrite !sum_len_app in *. cbn in *. lia. }
  eexists _, _. split; [done|]. split_and!; [|done|done]. split; unfold owned; hcbn; [done|done| | |].
  - intros x [Hf|Hi]%Hx'; [by apply Hap|]. intros Hin. apply (Hx x Hi). by right.
  - rewrite Hr, <- Hsum. by apply wrap_small, sum_len_range.
  - intros [Hf%Hx'|Hin]; [|apply Hs; by right]. destruct Hf as [Hf|Hi]; [apply Hs; by left|done].
Qed.

(** ** Freeing *)
Lemma heap_wf_mem h m : heap_wf h -> heap_wf (set_h_mem m h).
Proof. intros []. by split. Qed.

Lemma in_block_delete h p x : in_block (delete p h) x -> in_block h x.
Proof. intros (q & a & Hq & Hi). apply lookup_delete_Some in Hq as [_ Hq]. by exists q, a. Qed.

Lemma heap_wf_delete h p : heap_wf h -> heap_wf (set_h_as (delete p (h_as h)) h).
Proof.
  intros [Hl [Hb Hba] Hap Hr Hs]. split; cbn; [done| | |done|].
  - split.
    + intros q a [_ Hq]%lookup_delete_Some. by apply Hb.
    + intros q q' a b Hne [_ Hq]%lookup_delete_Some [_ Hq']%lookup_delete_Some. by apply (Hba q q').
  - intros x Hf Hin%in_block_delete. by apply (Hap x).
  - intros [Hf|Hin%in_block_delete]; apply Hs; [by left|by right].
Qed.

Lemma lookup_clobber a n m x : ~ (a <= x < a + n) -> clobber a n m !! x = m !! x.
Proof.
  intros Hx. unfold clobber. destruct (m !! x) as [v|] eqn:E.
  - by apply map_lookup_filter_Some.
  - apply map_lookup_filter_None. by left.
Qed.

Lemma block_not_owned h p a x :
  heap_wf h -> h_as h !! p = Some a -> inside (extent a) x -> ~ owned (set_h_as (delete p (h_as h)) h) x.
Proof.
  intros [Hl [Hb Hba] Hap _ _] Hp Hi [Hf|(q & b & Hq & Hiq)]; cbn in *.
  - apply (Hap x Hf). by exists p, a.
  - apply lookup_delete_Some in Hq as [Hne Hq]. by apply (apart_not_inside (extent a) (extent b) x); [eapply Hba|..].
Qed.

Lemma create_chunk_run ptr len h :
  chunk_ok (Chunk ptr len) ->
  heap_create_free_chunk ptr len h = Some (Chunk ptr len, set_h_mem (clobber ptr sizeof_free_heap_chunk (h_mem h)) h).
Proof.
  intros [_ [? Hm] _]. cbn in *. unfold heap_create_free_chunk. 
  rewrite (dassert_true (len mod sizeof_ptr =? 0)) by (by apply Z.eqb_eq).
  by rewrite (dassert_true (sizeof_free_heap_chunk <=? len)) by (by apply Z.leb_le).
Qed.

(** What freeing the block [a] at [p] does. *)
Record freed (p : Z) (a : alloc_struct_begin) (h h' : heap) : Prop := {
  fd_as : h_as h' = delete p (h_as h);
  fd_free : forall x, free_at (h_free_list h') x <-> free_at (h_free_list h) x \/ inside (extent a) x;
  fd_mem : forall x, ~ inside (extent a) x -> h_mem h' !! x = h_mem h !! x;
  fd_rest : (h_base h', h_len h', h_low_watermark h') = (h_base h, h_len h, h_low_watermark h);
}.

Lemma miniheap_free_run p a h :
  heap_wf h -> h_as h !! p = Some a ->
  exists h', miniheap_free free_list_addr p h = Some h' /\ heap_wf h' /\ freed p a h h'.
Proof.
  intros W Hp. destruct (bs_each _ (hw_blocks _ W) p a Hp) as [Hm Hx Hptr].
  assert (p <> 0) as Hp0.
  { destruct Hx as [[] _ _]. unfold sizeof_alloc_struct_begin in Hptr. cbn in *. destruct (1 <? LK_DEBUGLEVEL); lia. }
  unfold miniheap_free. rewrite (proj2 (Z.eqb_neq p 0)) by done. rewrite Hp. cbn [mbind option_bind].
  rewrite dassert_true by (by apply Z.eqb_eq). cbn [mbind option_bind]. rewrite create_chunk_run by done. cbn [mbind option_bind].
  set (h1 := set_h_as _ _).
  destruct (heap_insert_run (extent a) h1) as (r & h' & E & W' & Eh & Hf).
  - apply heap_wf_delete, heap_wf_mem, W.
  - done.
  - intros x Hi. by apply (block_not_owned h p a x).
  - intros Hi. apply (hw_self _ W). right. by exists p, a.
  - change (Chunk (as_ptr a) (as_size a)) with (extent a). rewrite E. exists h'. split_and!; [done..|].
    rewrite Eh. split; cbn; [done| | |done].
    + intros x. apply Hf.
    + intros x Hi. apply lookup_clobber. destruct Hx as [_ [] _]. unfold inside, ch_end in *. cbn in *. unfold sizeof_free_heap_chunk. lia.
Qed.

(** ** Allocation *)
Lemma alloc_walk_run size l :
  Forall chunk_ok l ->
  (exists before c after, alloc_walk size l = Some (Some (before, c, after)) /\ l = before ++ c :: after /\ size <= ch_len c /\
     forall d, d ∈ before -> ch_len d < size) \/
  (alloc_walk size l = Some None /\ forall d, d ∈ l -> ch_len d < size).
Proof.
  induction 1 as [|c l [_ [_ Hm] _] _ IH]; cbn; [right; split; [done|set_solver]|].
  rewrite dassert_true by (by apply Z.eqb_eq). cbn.
  destruct (Z.leb_spec size (ch_len c)).
  - left. exists [], c, l. split_and!; [done..|set_solver].
  - destruct IH as [(before & d & after & -> & -> & Hd & Hb)|[-> Hl]]; cbn.
    + left. exists (c :: before), d, after. split_and!; [done..|]. intros e [->|He]%elem_of_cons; [lia|by apply Hb].
    + right. split; [done|]. intros e [->|He]%elem_of_cons; [lia|by apply Hl].
Qed.

(** The alignments [alloc_size] leaves. *)
Definition align_ok (al : Z) : Prop := al = 0 \/ exists k, 4 <= k < 32 /\ al = 2 ^ k.

Lemma hdr_range : 16 <= sizeof_alloc_struct_begin <= 24 /\ sizeof_alloc_struct_begin mod 8 = 0.
Proof. unfold sizeof_alloc_struct_begin. by destruct (1 <? LK_DEBUGLEVEL). Qed.

Lemma alloc_size_run n al :
  0 <= n < 2 ^ 62 -> al = 0 \/ (exists k, 0 <= k < 32 /\ al = 2 ^ k) ->
  exists sz al', alloc_size n al = (sz, al') /\ align_ok al' /\ (al = 0 <-> al' = 0) /\ (0 < al -> al' mod al = 0) /\
    24 <= sz < 2 ^ 63 /\ sz mod 8 = 0 /\ sizeof_alloc_struct_begin + n + al' <= sz < n + 2 ^ 33.
Proof.
  intros Hn Hal. pose proof hdr_range as [Hh Hh8]. unfold alloc_size. rewrite (wrap_small 64 (n + _)) by lia.
  set (hdr := sizeof_alloc_struct_begin) in *.
  set (s1 := if n + hdr <? sizeof_free_heap_chunk then _ else _).
  assert (24 <= s1 <= n + 48 /\ n + hdr <= s1) as Hs1.
  { unfold s1, sizeof_free_heap_chunk. destruct (Z.ltb_spec (n + hdr) 24); lia. }
  destruct (ROUNDUP_spec s1 3) as [Hr Hr8]; [lia..|]. change (2 ^ 3) with 8 in *. unfold sizeof_ptr.
  destruct Hal as [->|(k & Hk & ->)].
  - cbn. eexists _, _. split; [done|]. split_and!; try done; try lia. by left.
  - assert (0 < 2 ^ k) by lia. rewrite (proj2 (Z.ltb_lt _ _)) by done.
    assert (2 ^ k < 2 ^ 32) by (apply Z.pow_lt_mono_r; lia).
    destruct (Z.ltb_spec (2 ^ k) 16) as [Hlt|Hge].
    + assert (k < 4) by (apply (Z.pow_lt_mono_r_iff 2); lia). rewrite wrap_small by lia. eexists _, _. split; [done|].
      split_and!; try lia.
      * right. by exists 4.
      * intros _. replace 16 with (2 ^ (4 - k) * 2 ^ k) by (rewrite <- Z.pow_add_r by lia; by replace (4 - k + k) with 4 by lia).
        apply Z.mod_mul. lia.
      * Z.div_mod_to_equations. lia.
    + assert (4 <= k) by (apply (Z.pow_le_mono_r_iff 2); lia). rewrite wrap_small by lia. eexists _, _. split; [done|].
      split_and!; try lia.
      * right. exists k. split; [lia|done].
      * intros _. apply Z.mod_same. lia.
      * replace k with (k - 3 + 3) by lia. rewrite Z.pow_add_r by lia. change (2 ^ 3) with 8. by rewrite Z.mod_add.
Qed.

(** The pointer given out for a chunk that starts at [addr]. *)
Lemma alloc_ptr_run addr n al sz :
  0 <= n -> 0 < addr /\ addr mod 8 = 0 -> align_ok al -> sizeof_alloc_struct_begin + n + al <= sz -> addr + sz < 2 ^ 64 ->
  let ptr := u64 (addr + sizeof_alloc_struct_begin) in
  let ptr := if 0 <? al then ROUNDUP ptr al else ptr in
  addr + sizeof_alloc_struct_begin <= ptr /\ ptr + n <= addr + sz /\ ptr mod 8 = 0 /\ (0 < al -> ptr mod al = 0).
Proof.
  intros Hn [Ha Ha8] Hal Hsz He. pose proof hdr_range as [Hh Hh8]. cbv zeta. destruct Hal as [->|(k & Hk & ->)].
  - cbn. rewrite wrap_small by lia. split_and!; [lia|lia|Z.div_mod_to_equations; lia|lia].
  - assert (0 < 2 ^ k) by lia. rewrite (proj2 (Z.ltb_lt _ _)), wrap_small by lia.
    destruct (ROUNDUP_spec (addr + sizeof_alloc_struct_begin) k) as [Hr Hm]; [lia..|].
    split_and!; [lia|lia| |done]. apply Z.mod_divide in Hm as [x ->]; [|lia].
    replace k with (k - 3 + 3) by lia. rewrite Z.pow_add_r, Z.mul_assoc by lia. by apply Z.mod_mul.
Qed.

(** The chunk taken is free no more; nothing else changes. *)
Lemma coalesced_mid before c after x :
  coalesced (before ++ c :: after) -> inside c x -> ~ free_at (before ++ after) x.
Proof.
  intros (_ & (_ & _ & Ha)%coalesced_cons & Hb)%coalesced_app Hi [Hf|Hf]%free_at_app; apply Exists_exists in Hf as (d & Hd & Hid).
  - specialize (Hb d c Hd ltac:(left)). unfold gap, inside in *. lia.
  - specialize (Ha d Hd). unfold gap, inside in *. lia.
Qed.

Lemma split_chunk_run size before c after h :
  coalesced (before ++ c :: after) -> 24 <= size <= ch_len c -> size mod 8 = 0 -> size < 2 ^ 63 ->
  exists c' l' m', split_chunk size before c after h = Some (c', set_h_free_list l' (set_h_mem m' h)) /\
    coalesced l' /\ chunk_ok c' /\ ch_addr c' = ch_addr c /\ size <= ch_len c' <= size + 24 /\
    (forall x, inside c' x -> inside c x) /\
    (forall x, free_at l' x <-> free_at (before ++ c :: after) x /\ ~ inside c' x) /\
    sum_len l' = sum_len (before ++ c :: after) - ch_len c' /\
    (forall x, ~ inside c x -> m' !! x = h_mem h !! x).
Proof.
  intros Hl Hs Hs8 Hs63. pose proof (fun x => coalesced_mid before c after x Hl) as Hmid.
  pose proof Hl as (Hb & (Hc & Ha & Hga)%coalesced_cons & Hg)%coalesced_app.
  pose proof Hc as [[] [] Hce]. unfold split_chunk, sizeof_free_heap_chunk. rewrite (wrap_small 64 (size + 24)) by lia.
  destruct (Z.ltb_spec (size + 24) (ch_len c)) as [Hlt|Hge].
  - rewrite !(wrap_small 64) by (unfold ch_end in *; lia).
    assert (chunk_ok (Chunk (ch_addr c + size) (ch_len c - size))) as Hn.
    { split; unfold ch_end in *; cbn; [split; [lia|Z.div_mod_to_equations; lia]..|lia]. }
    rewrite create_chunk_run by done. eexists _, _, _. split; [reflexivity|].
    split_and!; cbn [ch_addr ch_len]; try done; try lia.
    + apply coalesced_app. split_and!; [done| |].
      * apply coalesced_cons. split_and!; [done..|]. intros d Hd. specialize (Hga d Hd). unfold gap, ch_end in *. cbn. lia.
      * intros d e Hd [->|He]%elem_of_cons; [|apply Hg; [done|by right]].
        specialize (Hg d c Hd ltac:(left)). unfold gap, ch_end in *. cbn. lia.
    + split; unfold ch_end in *; cbn; [done|split; [lia|done]|lia].
    + unfold inside, ch_end. cbn. lia.
    + intros x. specialize (Hmid x). rewrite free_at_app in Hmid. rewrite !free_at_app, !free_at_cons. unfold inside, ch_end in *. cbn.
      split; [|intuition lia]. intros [Hf|[Hf|Hf]]; [|intuition lia|]; (split; [tauto|]); intros ?; apply Hmid; (lia || tauto).
    + rewrite !sum_len_app, !sum_len_cons. cbn. lia.
    + intros x Hx. apply lookup_clobber. unfold inside, ch_end, sizeof_free_heap_chunk in *. lia.
  - exists c, (before ++ after), (h_mem h). split; [by destruct h|]. split_and!; try done; try lia.
    + apply coalesced_app. split_and!; [done..|]. intros d e Hd He. apply Hg; [done|by right].
    + intros x. specialize (Hmid x). rewrite free_at_app in Hmid. rewrite !free_at_app, !free_at_cons. tauto.
    + rewrite !sum_len_app, sum_len_cons. lia.
Qed.

(** What allocating [n] bytes with alignment [al] does when it gives out [p]. *)
Record allocated (n al p : Z) (a : alloc_struct_begin) (h h' : heap) : Prop := {
  al_as : h_as h' = <[p := a]> (h_as h);
  al_fresh : h_as h !! p = None;
  al_ptr : as_ptr a + sizeof_alloc_struct_begin <= p /\ p + n <= ch_end (extent a);
  al_align : p mod 8 = 0 /\ (0 < al -> p mod al = 0);
  al_from : forall x, inside (extent a) x -> free_at (h_free_list h) x;
  al_free : forall x, free_at (h_free_list h') x <-> free_at (h_free_list h) x /\ ~ inside (extent a) x;
  al_mem : forall x, ~ free_at (h_free_list h) x -> h_mem h' !! x = h_mem h !! x;
  al_range : (h_base h', h_len h') = (h_base h, h_len h);
  al_low : h_low_watermark h' = Z.min (h_low_watermark h) (h_remaining h');
}.

(** A header lies in its block, so blocks at the same pointer would overlap. *)
Lemma block_header p a : block_ok p a -> inside (extent a) (p - sizeof_alloc_struct_begin).
Proof. intros [_ _ Hp]. pose proof hdr_range as [? _]. unfold inside in *. cbn in *. lia. Qed.

(** A block carved out of the free bytes joins the blocks. *)
Lemma blocks_ok_insert m p a (free : Z -> Prop) :
  blocks_ok m -> block_ok p a -> (forall x, inside (extent a) x -> free x) -> (forall x, free x -> ~ in_block m x) ->
  m !! p = None /\ blocks_ok (<[p := a]> m).
Proof.
  intros [Hb Hba] Ha Hfr Hap.
  assert (forall q b, m !! q = Some b -> apart (extent a) (extent b)) as Hnew.
  { intros q b Hq. apply apart_inside; [apply Ha|by apply (Hb q)|]. intros x Hx Hxb. apply (Hap x (Hfr x Hx)). by exists q, b. }
  split.
  - destruct (m !! p) as [b|] eqn:E; [|done]. destruct (apart_not_inside _ _ _ (Hnew p b E) (block_header p a Ha)).
    apply block_header. by apply Hb.
  - split.
    + intros q b [[<- <-]|[_ Hq]]%lookup_insert_Some; [done|by apply Hb].
    + intros q q' b b' Hne [[<- <-]|[Hq1 Hq]]%lookup_insert_Some [[<- <-]|[Hq2 Hq']]%lookup_insert_Some.
      * done.
      * by eapply Hnew.
      * destruct (Hnew q b Hq); [by right|by left].
      * by apply (Hba q q').
Qed.

Lemma in_block_insert m p a x : m !! p = None -> in_block (<[p := a]> m) x <-> inside (extent a) x \/ in_block m x.
Proof.
  intros Hp. split.
  - intros (q & b & [[<- <-]|[_ Hq]]%lookup_insert_Some & Hi); [by left|right; by exists q, b].
  - intros [Hi|(q & b & Hq & Hi)]; [exists p, a; by rewrite lookup_insert_eq|]. exists q, b. split; [|done].
    rewrite lookup_insert_ne; [done|congruence].
Qed.

Lemma alloc_locked_run n sz al h :
  heap_wf h -> 0 <= n -> align_ok al -> 24 <= sz < 2 ^ 63 -> sz mod 8 = 0 -> sizeof_alloc_struct_begin + n + al <= sz ->
  (exists p a h', alloc_locked sz al h = Some (p, h') /\ p <> 0 /\ heap_wf h' /\ allocated n al p a h h') \/
  (alloc_locked sz al h = Some (0, h) /\ forall c, c ∈ h_free_list h -> ch_len c < sz).
Proof.
  intros W Hn Hal Hsz Hsz8 Hfit. pose proof W as [Hl Hb Hap Hr Hs]. pose proof hdr_range as [Hh _]. unfold alloc_locked.
  destruct (alloc_walk_run sz (h_free_list h) (proj2 Hl)) as [(before & c & after & -> & El & Hc & _)|[-> Hno]]; [left|by right].
  cbn [mbind option_bind]. rewrite El in Hl.
  destruct (split_chunk_run sz before c after h) as (c' & l' & m' & -> & Hl' & Hc' & Ea & Hlen & Hin & Hfree & Hsum & Hmem); [done|lia|done|lia|].
  cbn [mbind option_bind]. rewrite dassert_true by (apply Z.leb_le; lia). cbn [mbind option_bind].
  rewrite <- El in Hfree, Hsum.
  assert (forall x, inside c' x -> free_at (h_free_list h) x) as Hfrom.
  { intros x Hx. rewrite El. apply free_at_app. right. apply free_at_cons. left. by apply Hin. }
  destruct (alloc_ptr_run (ch_addr c') n al (ch_len c')) as (Hp1 & Hp2 & Hp3);
    [done|apply Hc'|done|lia|destruct Hc' as [_ _ Hce]; unfold ch_end in Hce; lia|]. cbv zeta in Hp1, Hp2, Hp3.
  set (p := if 0 <? al then _ else _) in *. set (a := AllocStruct HEAP_MAGIC (ch_addr c') (ch_len c')).
  assert (block_ok p a) as Hba by (split; [done|by destruct c'|unfold ch_end; cbn; lia]).
  assert (extent a = c') as Ex by (by destruct c').
  destruct (blocks_ok_insert (h_as h) p a (free_at (h_free_list h))) as [Hp Hb']; [done|done|by rewrite Ex|done|].
  assert (0 <= ch_len c' <= sum_len (h_free_list h) /\ sum_len (h_free_list h) < 2 ^ 64) as Hrange.
  { rewrite <- El in Hl. pose proof (sum_len_range _ Hl). pose proof (sum_len_range _ Hl'). lia. }
  hcbn.
  rewrite (wrap_small 64 (h_remaining h - _)) by lia. set (h1 := set_h_remaining _ _). set (h2 := if _ <? _ then _ else _).
  assert (h2 = set_h_low_watermark (Z.min (h_low_watermark h) (h_remaining h - ch_len c')) h1) as E2.
  { unfold h2. destruct (Z.ltb_spec (h_remaining h - ch_len c') (h_low_watermark h)).
    - by rewrite Z.min_r by lia.
    - rewrite Z.min_l by lia. by destruct h. }
  exists p, a, h2. split; [done|]. split; [destruct Hc' as [[] _ _]; lia|]. rewrite E2. clear E2 h2. split.
  - split; unfold owned, h1; hcbn; [done|done| |lia|].
    + intros x [Hf Hni]%Hfree. rewrite in_block_insert, Ex by done. intros [|]; [done|by apply (Hap x)].
    + rewrite in_block_insert, Ex, Hfree by done. intros [[Hf _]|[Hi|Hi]]; apply Hs; [by left|left; by apply Hfrom|by right].
  - split; unfold h1; hcbn; try done.
    intros x Hx. rewrite lookup_clobber, Hmem.
    + done.
    + intros Hi. apply Hx. rewrite El. apply free_at_app. right. apply free_at_cons. by left.
    + intros Hi. apply Hx, Hfrom. unfold inside, ch_end. lia.
Qed.
End inv.
