(* ===== verification/HeapOps.v ===== *)
(** * The heap and the page allocator

    What the heap relies on from the page allocator, and what its operations do
    to both: the bytes of the heap are on pages it was given, and trimming gives
    whole pages back. *)
From stdpp Require Import sorting.
From S2P Require Import Prelude Align KState Pmm Heap HeapInv.

(** A page allocator hands out runs of pages at kernel addresses.  [pa_free] are
    the bytes it can hand out, [pa_given] those it has. *)
Class PageAllocatorLaws (P : Type) `{!PageAllocator P} := {
  pa_inv : P -> Prop;
  pa_free : P -> Z -> Prop;
  pa_given : P -> Z -> Prop;
  pa_disjoint s x : pa_inv s -> pa_free s x -> ~ pa_given s x;
  page_alloc_law n s : pa_inv s -> 0 <= n < 2 ^ 31 ->
    exists p s', page_alloc n s = Some (p, s') /\ pa_inv s' /\
      ((p = 0 /\ forall x, (pa_free s' x <-> pa_free s x) /\ (pa_given s' x <-> pa_given s x)) \/
       (0 < n /\ 0 < p /\ p mod PAGE_SIZE = 0 /\ p + n * PAGE_SIZE <= 2 ^ 64 - 4096 /\
        forall x, (p <= x < p + n * PAGE_SIZE -> pa_free s x) /\
          (pa_free s' x <-> pa_free s x /\ ~ p <= x < p + n * PAGE_SIZE) /\
          (pa_given s' x <-> pa_given s x \/ p <= x < p + n * PAGE_SIZE)));
  page_free_law p n s : pa_inv s -> 0 < n -> p mod PAGE_SIZE = 0 ->
    (forall x, p <= x < p + n * PAGE_SIZE -> pa_given s x) ->
    exists s', page_free p n s = Some s' /\ pa_inv s' /\
      forall x, (pa_free s' x <-> pa_free s x \/ p <= x < p + n * PAGE_SIZE) /\
        (pa_given s' x <-> pa_given s x /\ ~ p <= x < p + n * PAGE_SIZE);
}.

(** Free bytes in a row are in one chunk. *)
Lemma coalesced_order l c d : coalesced l -> c ∈ l -> d ∈ l -> c = d \/ gap c d \/ gap d c.
Proof.
  intros Hl. induction l as [|e l IH]; [set_solver|]. apply coalesced_cons in Hl as (_ & Hl & Hg).
  intros [->|Hc]%elem_of_cons [->|Hd]%elem_of_cons; auto.
Qed.

Lemma coalesced_range l a b :
  coalesced l -> a < b -> (forall x, a <= x < b -> free_at l x) -> exists c, c ∈ l /\ ch_addr c <= a /\ b <= ch_end c.
Proof.
  intros Hl Hab Hx. pose proof (Hx a ltac:(lia)) as Ha. apply Exists_exists in Ha as (c & Hc & Hi).
  exists c. split; [done|]. unfold inside in Hi. split; [lia|]. destruct (decide (b <= ch_end c)); [done|exfalso].
  pose proof (Hx (ch_end c) ltac:(lia)) as He. apply Exists_exists in He as (d & Hd & Hid). unfold inside in Hid.
  pose proof (coalesced_ok l c Hl Hc) as [_ [] _]. pose proof (coalesced_ok l d Hl Hd) as [_ [] _].
  destruct (coalesced_order l c d Hl Hc Hd) as [->|[|]]; unfold gap, ch_end in *; lia.
Qed.

Section ops.
Context `{KConfig} (free_list_addr : Z) {P : Type} `{!PageAllocator P} `{!PageAllocatorLaws P}.

Notation heap_wf := (heap_wf free_list_addr).

(** The heap lives on pages it was given. *)
Record heap_pages (h : heap) (s : P) : Prop := {
  hp_wf : heap_wf h;
  hp_inv : pa_inv s;
  hp_given : forall x, owned h x -> pa_given s x;
  hp_self : ~ pa_free s (free_list_addr - 1);
}.

(** ** Growing *)
Record grown (p size : Z) (h h' : heap) (s s' : P) : Prop := {
  gr_as : h_as h' = h_as h;
  gr_free : forall x, free_at (h_free_list h') x <-> free_at (h_free_list h) x \/ p <= x < p + size;
  gr_new : forall x, p <= x < p + size -> pa_free s x;
  gr_given : forall x, pa_given s' x <-> pa_given s x \/ p <= x < p + size;
  gr_mem : forall x, ~ p <= x < p + size -> h_mem h' !! x = h_mem h !! x;
  gr_low : h_low_watermark h' = h_low_watermark h;
}.

Lemma heap_grow_run size h s :
  heap_pages h s -> 0 < size < 2 ^ 42 ->
  exists err h' s', heap_grow free_list_addr size h s = Some (err, h', s') /\ heap_pages h' s' /\
    ((err = ERR_NO_MEMORY /\ h' = h /\ page_alloc (ROUNDUP size PAGE_SIZE / PAGE_SIZE) s = Some (0, s')) \/
     (0 <= err /\ exists p, grown p err h h' s s' /\ size <= err)).
Proof.
  intros [W I Hg Hself] Hsz. unfold heap_grow. destruct (ROUNDUP_spec size 12) as [Hr Hm]; [lia..|].
  change (2 ^ 12) with PAGE_SIZE in *. set (sz := ROUNDUP size PAGE_SIZE) in *.
  assert (sz / PAGE_SIZE * PAGE_SIZE = sz) as Esz by (unfold PAGE_SIZE in *; Z.div_mod_to_equations; lia).
  destruct (page_alloc_law (sz / PAGE_SIZE) s I) as (p & s' & E & I' & Hp); [unfold PAGE_SIZE in *; Z.div_mod_to_equations; lia|].
  rewrite E. cbn [mbind option_bind].
  destruct Hp as [[-> Hsame]|(Hn & Hp0 & Hp8 & Hend & Hx)].
  - rewrite Z.eqb_refl. eexists _, h, s'. split; [done|]. split; [|by left].
    split; [done|done|intros x Hx; by apply Hsame, Hg|]. by intros Hf%Hsame.
  - rewrite (proj2 (Z.eqb_neq p 0)) by lia. rewrite Esz in Hend, Hx.
    assert (chunk_ok (Chunk p sz)) as Hc.
    { split; unfold ch_end; cbn; [split; [lia|]|split; [unfold PAGE_SIZE in *; Z.div_mod_to_equations; lia|]|lia];
        unfold PAGE_SIZE in *; Z.div_mod_to_equations; lia. }
    rewrite create_chunk_run by done. cbn [mbind option_bind]. set (h1 := set_h_mem _ h).
    assert (forall x, inside (Chunk p sz) x <-> p <= x < p + sz) as Hin by (intros; unfold inside, ch_end; cbn; lia).
    destruct (heap_insert_run free_list_addr (Chunk p sz) h1) as (r & h' & E' & W' & Eh & Hf).
    + by apply heap_wf_mem.
    + done.
    + intros x Hi%Hin Ho. apply (pa_disjoint s x I); [by apply (proj1 (Hx x))|by apply Hg].
    + intros Hi%Hin. apply Hself. by apply (proj1 (Hx _)).
    + rewrite E'. cbn [mbind option_bind]. eexists _, _, s'. split; [done|].
      set (h2 := set_h_range _ _ h'). split.
      * split; [by destruct W'|done| |by intros [Hfr _]%(proj1 (proj2 (Hx _)))].
        intros x Ho. apply (proj2 (proj2 (Hx x))). destruct Ho as [Hfr|Hb].
        -- apply Hf in Hfr as [Hfr|Hi%Hin]; [left; apply Hg; by left|by right].
        -- left. apply Hg. right. change (h_as h2) with (h_as h') in Hb. by rewrite Eh in Hb.
      * right. split; [lia|]. exists p. split; [|lia]. split; unfold h2; hcbn.
        -- by rewrite Eh.
        -- intros x. rewrite Hf, Hin. done.
        -- intros x. apply (Hx x).
        -- intros x. apply (Hx x).
        -- intros x Hni. rewrite Eh. hcbn. apply lookup_clobber. unfold sizeof_free_heap_chunk, PAGE_SIZE in *. lia.
        -- by rewrite Eh.
Qed.

(** ** Allocation *)
Record given_out (n al p : Z) (a : alloc_struct_begin) (h h' : heap) (s : P) : Prop := {
  go_as : h_as h' = <[p := a]> (h_as h);
  go_fresh : h_as h !! p = None;
  go_ptr : as_ptr a + sizeof_alloc_struct_begin <= p /\ p + n <= ch_end (extent a);
  go_align : p mod 8 = 0 /\ (0 < al -> p mod al = 0);
  go_block : forall x, inside (extent a) x -> ~ in_block (h_as h) x;
  go_kept : forall x, owned h x -> owned h' x;
  go_new : forall x, owned h' x -> owned h x \/ pa_free s x;
  go_mem : forall x, in_block (h_as h) x -> h_mem h' !! x = h_mem h !! x;
}.

Lemma owned_allocated n al p a h h' x : allocated n al p a h h' -> owned h' x <-> owned h x.
Proof.
  intros A. unfold owned. rewrite (al_free _ _ _ _ _ _ A), (al_as _ _ _ _ _ _ A), in_block_insert by apply A.
  pose proof (al_from _ _ _ _ _ _ A x). destruct (decide (as_ptr a <= x < as_ptr a + as_size a)) as [Hi|Hi].
  - assert (inside (extent a) x) by done. tauto.
  - assert (~ inside (extent a) x) by done. tauto.
Qed.

(** [h1] is the heap the block is taken from: [h] itself, or [h] grown. *)
Definition grown_from (h h1 : heap) (s : P) : Prop := h1 = h \/ exists q size s1, grown q size h h1 s s1.

Lemma allocated_given_out n al al' p a h h1 h' s :
  heap_pages h s -> heap_wf h1 -> grown_from h h1 s -> allocated n al' p a h1 h' -> (0 < al -> 0 < al' /\ al' mod al = 0) ->
  given_out n al p a h h' s.
Proof.
  intros HP W1 G A Hal. pose proof (fun x => owned_allocated n al' p a h1 h' x A) as Ho'. destruct A as [Has Hfr Hptr [Hm8 Hm] Hfrom _ Hmem _ _].
  assert (h_as h1 = h_as h /\ (forall x, owned h1 x <-> owned h x \/ owned h1 x /\ pa_free s x) /\
          (forall x, in_block (h_as h) x -> h_mem h1 !! x = h_mem h !! x)) as (Ea & Ho & Hmem1).
  { destruct G as [->|(q & size & s1 & G)]; [naive_solver|]. pose proof (gr_as _ _ _ _ _ _ G) as Ea. split_and!; [done|..].
    - intros x. unfold owned. rewrite Ea, (gr_free _ _ _ _ _ _ G). pose proof (gr_new _ _ _ _ _ _ G x). tauto.
    - intros x Hb. apply (gr_mem _ _ _ _ _ _ G). intros Hr. apply (pa_disjoint s x); [apply HP|by apply (gr_new _ _ _ _ _ _ G)|].
      apply HP. by right. }
  rewrite Ea in *. split; try done.
  - split; [done|]. intros Hp. destruct (Hal Hp) as [Hp' Hd]. specialize (Hm Hp'). apply Z.mod_divide in Hm, Hd; [|lia..].
    apply Z.mod_divide; [lia|]. by etransitivity.
  - intros x Hi Hb. apply (hw_apart _ _ W1 x (Hfrom x Hi)). by rewrite Ea.
  - intros x Hx. apply Ho', Ho. by left.
  - intros x Hx%Ho'%Ho. tauto.
  - intros x Hb. rewrite Hmem; [by apply Hmem1|]. intros Hf. apply (hw_apart _ _ W1 x Hf). by rewrite Ea.
Qed.

Lemma heap_pages_allocated n al p a h h' s : heap_pages h s -> heap_wf h' -> allocated n al p a h h' -> heap_pages h' s.
Proof. intros [W I Hg Hs] W' A. split; [done|done| |done]. intros x Ho. apply Hg. by apply (owned_allocated _ _ _ _ _ _ _ A). Qed.

(** When it gives out nothing, no chunk is big enough and no pages are to be had. *)
Definition no_memory (n al : Z) (h h' : heap) (s s' : P) : Prop :=
  h' = h /\ (forall c, c ∈ h_free_list h -> ch_len c < (alloc_size n al).1) /\
  page_alloc (ROUNDUP (alloc_size n al).1 PAGE_SIZE / PAGE_SIZE) s = Some (0, s').

Lemma miniheap_alloc_run n al h s :
  heap_pages h s -> 0 <= n < 2 ^ 41 -> al = 0 \/ (exists k, 0 <= k < 32 /\ al = 2 ^ k) ->
  exists p h' s', miniheap_alloc free_list_addr n al h s = Some (p, h', s') /\ heap_pages h' s' /\
    ((p = 0 /\ no_memory n al h h' s s') \/ (p <> 0 /\ exists a, given_out n al p a h h' s)).
Proof.
  intros HP Hn Hal. pose proof (hp_wf _ _ HP) as W. unfold miniheap_alloc.
  assert (Z.land al (u32 (al - 1)) = 0) as ->.
  { assert (0 <= al < 2 ^ 32) as Hr.
    { destruct Hal as [->|(k & Hk & ->)]; [lia|]. split; [lia|]. apply Z.pow_lt_mono_r; lia. }
    pose proof (proj2 (ispow2_correct al Hr) Hal) as Hp. unfold ispow2 in Hp. rewrite Z.land_comm. by apply Z.eqb_eq. }
  rewrite Z.eqb_refl. cbn [negb].
  destruct (alloc_size_run n al) as (sz & al' & Esz & Hal' & Hz & Hd & Hsz & Hsz8 & Hfit); [lia|done|].
  assert (0 < al -> 0 < al' /\ al' mod al = 0) as Hdiv.
  { intros Hp. split; [|by apply Hd]. destruct Hal' as [->|(k & _ & ->)]; [|lia]. lia. }
  rewrite Esz. destruct (alloc_locked_run free_list_addr n sz al' h W ltac:(lia) Hal' ltac:(lia) Hsz8 (proj1 Hfit))
    as [(p & a & h' & E & Hp & W' & A)|[E Hno]]; rewrite E; cbn [mbind option_bind].
  - rewrite (proj2 (Z.eqb_neq p 0)) by done. exists p, h', s. split_and!; [done|by eapply heap_pages_allocated|].
    right. split; [done|]. exists a. eapply allocated_given_out; [done|exact W|by left|done..].
  - rewrite Z.eqb_refl. destruct (heap_grow_run sz h s HP) as (err & h1 & s1 & E1 & HP1 & Hcase); [lia|].
    pose proof E1 as Egrow. rewrite E1. cbn [mbind option_bind].
    destruct Hcase as [(-> & -> & Enull)|(Herr & q & G & Hle)].
    + exists 0, h, s1. split_and!; [done..|]. left. split; [done|]. split_and!; [done|..]; by rewrite Esz.
    + rewrite (proj2 (Z.leb_le 0 err)) by done. pose proof (hp_wf _ _ HP1) as W1.
      destruct (alloc_locked_run free_list_addr n sz al' h1 W1 ltac:(lia) Hal' ltac:(lia) Hsz8 (proj1 Hfit))
        as [(p & a & h' & E2 & Hp & W' & A)|[E2 Hno2]].
      * rewrite E2. cbn [mbind option_bind]. exists p, h', s1. split_and!; [done|by eapply heap_pages_allocated|].
        right. split; [done|]. exists a. eapply allocated_given_out; [done|exact W1|right; by eauto|done..].
      * exfalso. destruct (coalesced_range (h_free_list h1) q (q + err)) as (c & Hc & Hc1 & Hc2); [apply W1|lia| |].
        -- intros x Hx. apply (gr_free _ _ _ _ _ _ G). by right.
        -- specialize (Hno2 c Hc). unfold ch_end in Hc2. lia.
Qed.

(** ** Freeing *)
Lemma owned_freed p a h h' x : h_as h !! p = Some a -> freed p a h h' -> blocks_ok (h_as h) -> owned h' x <-> owned h x.
Proof.
  intros Hp [Has Hf _ _] B. unfold owned. rewrite Has, Hf.
  assert (in_block (h_as h) x <-> inside (extent a) x \/ in_block (delete p (h_as h)) x) as ->; [|tauto].
  rewrite <- in_block_insert by apply lookup_delete_eq. by rewrite insert_delete_id.
Qed.

Lemma miniheap_free_pages p a h s :
  heap_pages h s -> h_as h !! p = Some a ->
  exists h', miniheap_free free_list_addr p h = Some h' /\ heap_pages h' s /\ freed p a h h'.
Proof.
  intros [W I Hg Hs] Hp. destruct (miniheap_free_run free_list_addr p a h W Hp) as (h' & E & W' & F).
  exists h'. split_and!; [done| |done]. split; [done|done| |done]. intros x Ho. apply Hg.
  by apply (owned_freed p a h h' x Hp F), Ho; apply W.
Qed.

(** ** Trimming *)

(** The places where a chunk that starts, ends there may be cut for a page. *)
Definition cut_from (start q : Z) : Prop := q mod PAGE_SIZE = 0 /\ (q = start \/ start + sizeof_free_heap_chunk <= q).
Definition cut_to (end_ q : Z) : Prop := q mod PAGE_SIZE = 0 /\ (q = end_ \/ q + sizeof_free_heap_chunk <= end_).

(** What trimming leaves of a chunk. *)
Record trimmed (c : free_heap_chunk) (pieces : list free_heap_chunk) (sp ep : Z) : Prop := {
  tr_pieces : coalesced pieces;
  tr_free : forall x, free_at pieces x <-> inside c x /\ ~ sp <= x < ep;
  tr_sum : sum_len pieces = ch_len c - (ep - sp);
  tr_from : cut_from (ch_addr c) sp /\ ch_addr c <= sp;
  tr_to : cut_to (ch_end c) ep /\ ep <= ch_end c;
}.

Lemma chunk_ok_sub c a b :
  chunk_ok c -> ch_addr c <= a -> b <= ch_end c -> a + 24 <= b -> a mod 8 = 0 -> b mod 8 = 0 -> chunk_ok (Chunk a (b - a)).
Proof. intros [[] [] ?] ? ? ? ? ?. split; unfold ch_end in *; cbn; (split_and!; [lia..|Z.div_mod_to_equations; lia]) || lia. Qed.

Lemma page_mod8 q : q mod PAGE_SIZE = 0 -> q mod 8 = 0.
Proof. unfold PAGE_SIZE. intros. Z.div_mod_to_equations. lia. Qed.

Lemma ch_end_mod8 c : chunk_ok c -> ch_end c mod 8 = 0.
Proof. intros [[] [] _]. unfold ch_end. Z.div_mod_to_equations. lia. Qed.

(** Where both ends may be cut, [trim_chunk] cuts there. *)
Definition cut_pieces (start end_ sp ep : Z) : list free_heap_chunk :=
  (if sp =? start then [] else [Chunk start (sp - start)]) ++ (if ep =? end_ then [] else [Chunk ep (end_ - ep)]).

Lemma trim_chunk_cut fuel c sp ep :
  chunk_ok c -> cut_from (ch_addr c) sp -> ch_addr c <= sp -> cut_to (ch_end c) ep -> ep <= ch_end c -> sp < ep ->
  trim_chunk fuel (ch_addr c) (ch_end c) sp ep = Some (cut_pieces (ch_addr c) (ch_end c) sp ep, Some (sp, ep)).
Proof.
  intros Hc [Hfm Hfc] Hf1 [Htm Htc] Ht1 Hlt. pose proof Hc as [[] [] Hce].
  pose proof (page_mod8 _ Htm). pose proof (ch_end_mod8 c Hc). set (start := ch_addr c) in *. set (end_ := ch_end c) in *.
  assert ((end_ - ep) mod 8 = 0) as Ht8 by (Z.div_mod_to_equations; lia).
  unfold cut_pieces. unfold sizeof_free_heap_chunk in *.
  assert (u64 (u64 (ep - start) - (ep - sp)) = sp - start) as Elen by (rewrite !(wrap_small 64) by (rewrite ?(wrap_small 64) by lia; lia); lia).
  destruct fuel; cbn [trim_chunk]; unfold sizeof_free_heap_chunk.
  all: rewrite (proj2 (Z.ltb_lt sp ep)), (wrap_small 64 (end_ - ep)), (wrap_small 64 (sp - start)), Elen by lia.
  all: destruct (Z.eqb_spec sp start), (Z.eqb_spec ep end_); cbn [andb negb].
  all: rewrite ?(proj2 (Z.ltb_ge (sp - start) 24)) by lia.
  all: try done.
  all: try (rewrite (proj2 (Z.ltb_ge ep end_)) by lia; done).
  all: rewrite (proj2 (Z.ltb_lt ep end_)), (proj2 (Z.ltb_ge (end_ - ep) 24)) by lia; cbn [andb].
  all: rewrite (dassert_true ((end_ - ep) mod sizeof_ptr =? 0)) by (by apply Z.eqb_eq).
  all: rewrite (dassert_true (24 <=? end_ - ep)) by (apply Z.leb_le; lia).
  all: done.
Qed.

Lemma trim_cut c sp ep :
  chunk_ok c -> cut_from (ch_addr c) sp -> ch_addr c <= sp -> cut_to (ch_end c) ep -> ep <= ch_end c -> sp < ep ->
  trimmed c (cut_pieces (ch_addr c) (ch_end c) sp ep) sp ep.
Proof.
  intros Hc Hf Hf1 Ht Ht1 Hlt. pose proof Hf as [Hfm Hfc]. pose proof Ht as [Htm Htc]. pose proof Hc as [[] [] Hce].
  pose proof (page_mod8 _ Hfm). pose proof (page_mod8 _ Htm). pose proof (ch_end_mod8 c Hc).
  unfold sizeof_free_heap_chunk, cut_pieces in *.
  assert (forall a b, ch_addr c <= a -> b <= ch_end c -> a + 24 <= b -> a mod 8 = 0 -> b mod 8 = 0 -> chunk_ok (Chunk a (b - a)))
    as Hsub by (intros; by apply (chunk_ok_sub c)).
  split; [| | |done..].
  - destruct (Z.eqb_spec sp (ch_addr c)), (Z.eqb_spec ep (ch_end c)); cbn [app].
    + apply coalesced_nil.
    + apply coalesced_single. apply Hsub; lia.
    + apply coalesced_single. apply Hsub; lia.
    + apply coalesced_cons. split_and!; [apply Hsub; lia|apply coalesced_single; apply Hsub; lia|].
      intros d ->%list_elem_of_singleton. unfold gap, ch_end. cbn. lia.
  - intros x. destruct (Z.eqb_spec sp (ch_addr c)), (Z.eqb_spec ep (ch_end c)); cbn [app];
      rewrite ?free_at_cons, ?free_at_nil; unfold inside, ch_end in *; cbn; lia.
  - destruct (Z.eqb_spec sp (ch_addr c)), (Z.eqb_spec ep (ch_end c)); cbn; unfold ch_end in *; lia.
Qed.

Definition first_cut (c : free_heap_chunk) (sp : Z) : Prop :=
  cut_from (ch_addr c) sp /\ ch_addr c <= sp /\ forall q, cut_from (ch_addr c) q -> ch_addr c <= q -> sp <= q.
Definition last_cut (c : free_heap_chunk) (ep : Z) : Prop :=
  cut_to (ch_end c) ep /\ ep <= ch_end c /\ forall q, cut_to (ch_end c) q -> q <= ch_end c -> q <= ep.

Lemma trim_chunk_none fuel c sp ep :
  chunk_ok c -> ep <= sp -> trim_chunk fuel (ch_addr c) (ch_end c) sp ep = Some ([c], None).
Proof.
  intros [[] [] ?] Hle. destruct fuel; cbn [trim_chunk]; rewrite (proj2 (Z.ltb_ge sp ep)), wrap_small by (done || unfold ch_end in *; lia).
  all: destruct c; unfold ch_end; cbn; do 4 f_equal; lia.
Qed.

Lemma page_multiple q : q mod PAGE_SIZE = 0 -> exists k, q = k * 4096.
Proof. intros Hq. exists (q / PAGE_SIZE). unfold PAGE_SIZE in *. Z.div_mod_to_equations. lia. Qed.

(** The outcome for a chunk: what is between the first and the last cut goes. *)
Definition trim_outcome (c : free_heap_chunk) (r : option (list free_heap_chunk * option (Z * Z))) : Prop :=
  exists sp ep, first_cut c sp /\ last_cut c ep /\
    r = if sp <? ep then Some (cut_pieces (ch_addr c) (ch_end c) sp ep, Some (sp, ep)) else Some ([c], None).

Lemma trim_outcome_cut fuel c sp ep :
  chunk_ok c -> first_cut c sp -> last_cut c ep -> trim_outcome c (trim_chunk fuel (ch_addr c) (ch_end c) sp ep).
Proof.
  intros Hc F L. exists sp, ep. split_and!; [done..|]. destruct (Z.ltb_spec sp ep).
  - by apply trim_chunk_cut; try apply F; try apply L.
  - by apply trim_chunk_none.
Qed.

(** From the first cut, and the last page boundary in the chunk. *)
Lemma trim_outcome_from fuel c sp ep0 :
  chunk_ok c -> first_cut c sp -> ep0 mod PAGE_SIZE = 0 -> ep0 <= ch_end c < ep0 + PAGE_SIZE -> 0 <= ep0 ->
  trim_outcome c (trim_chunk (S fuel) (ch_addr c) (ch_end c) sp ep0).
Proof.
  intros Hc F Hm He He0. pose proof F as [[Hfm Hfc] [Hf1 Hf2]]. pose proof Hc as [[] [] Hce].
  apply page_multiple in Hm as Hk. destruct Hk as [k Hk]. unfold PAGE_SIZE in He.
  destruct (decide (ep0 = ch_end c \/ ep0 + sizeof_free_heap_chunk <= ch_end c)) as [Hg|Hg].
  - apply trim_outcome_cut; [done..|]. split; [by split|]. split; [lia|]. intros q [Hqm _] Hq.
    apply page_multiple in Hqm as [j ->]. lia.
  - unfold sizeof_free_heap_chunk in *. assert (last_cut c (ep0 - PAGE_SIZE)) as L.
    { unfold last_cut, cut_to, sizeof_free_heap_chunk, PAGE_SIZE in *. split_and!; [Z.div_mod_to_equations; lia|lia..|].
      intros q [Hqm Hqc] Hq. apply page_multiple in Hqm as [j ->]. lia. }
    destruct (decide (ep0 <= sp)) as [Hle|Hgt].
    + rewrite trim_chunk_none by done. exists sp, (ep0 - PAGE_SIZE). split_and!; [done..|].
      rewrite (proj2 (Z.ltb_ge _ _)) by (unfold PAGE_SIZE; lia). done.
    + cbn [trim_chunk]. rewrite (proj2 (Z.ltb_lt sp ep0)) by lia. rewrite (proj2 (Z.eqb_neq ep0 (ch_end c))), andb_false_r by lia.
      rewrite !(wrap_small 64) by (unfold PAGE_SIZE; lia). unfold sizeof_free_heap_chunk in *.
      assert (negb (sp =? ch_addr c) && (sp - ch_addr c <? 24) = false) as ->.
      { destruct (Z.eqb_spec sp (ch_addr c)); cbn [negb andb]; [done|]. apply Z.ltb_ge. lia. }
      rewrite (proj2 (Z.ltb_lt ep0 (ch_end c))), (proj2 (Z.ltb_lt (ch_end c - ep0) 24)) by lia. cbn [andb].
      by apply trim_outcome_cut.
Qed.

Lemma trim_chunk_run c :
  chunk_ok c -> trim_outcome c (trim_chunk 2 (ch_addr c) (ch_end c) (ROUNDUP (ch_addr c) PAGE_SIZE) (ROUNDDOWN (ch_end c) PAGE_SIZE)).
Proof.
  intros Hc. pose proof Hc as [[] [] Hce]. destruct (ROUNDUP_spec (ch_addr c) 12) as [Hr Hm]; [lia|lia|unfold ch_end in *; lia|].
  pose proof (ROUNDDOWN_div (ch_end c) 12 ltac:(lia)) as Hd. change (2 ^ 12) with PAGE_SIZE in *.
  set (sp0 := ROUNDUP _ _) in *. set (ep0 := ROUNDDOWN _ _) in *.
  assert (ep0 mod PAGE_SIZE = 0 /\ ep0 <= ch_end c < ep0 + PAGE_SIZE /\ 0 <= ep0) as (Hem & He1 & He2).
  { rewrite Hd. unfold PAGE_SIZE, ch_end in *. split; [apply Z.mod_mul; lia|]. Z.div_mod_to_equations. lia. }
  apply page_multiple in Hm as Hk. destruct Hk as [k Hk].
  destruct (decide (sp0 = ch_addr c \/ ch_addr c + sizeof_free_heap_chunk <= sp0)) as [Hg|Hg].
  - apply trim_outcome_from; [done| |done..]. split; [by split|]. split; [lia|]. intros q [Hqm _] Hq.
    apply page_multiple in Hqm as [j ->]. unfold PAGE_SIZE in *. lia.
  - assert (first_cut c (sp0 + PAGE_SIZE)) as F.
    { unfold first_cut, cut_from, sizeof_free_heap_chunk, PAGE_SIZE in *. split_and!; [Z.div_mod_to_equations; lia|lia..|].
      intros q [Hqm Hqc] Hq. apply page_multiple in Hqm as [j ->]. lia. }
    destruct (decide (ep0 <= sp0)) as [Hle|Hgt].
    + rewrite trim_chunk_none by done. apply (trim_outcome_from 0) with (ep0 := ep0) in F as O; [|done..].
      by rewrite trim_chunk_none in O by (done || unfold PAGE_SIZE; lia).
    + cbn [trim_chunk]. rewrite (proj2 (Z.ltb_lt sp0 ep0)) by lia. unfold sizeof_free_heap_chunk in *.
      rewrite (proj2 (Z.eqb_neq sp0 (ch_addr c))) by lia. cbn [andb negb].
      rewrite (wrap_small 64 (sp0 - _)) by lia. rewrite (proj2 (Z.ltb_lt (sp0 - ch_addr c) 24)) by lia.
      rewrite (wrap_small 64) by (unfold PAGE_SIZE in *; lia). by apply (trim_outcome_from 0).
Qed.

(** [x] went back to the page allocator. *)
Definition returned (l l' : list free_heap_chunk) (x : Z) : Prop := free_at l x /\ ~ free_at l' x.
(** The page at [q] lies in the chunk, with nothing or enough for a chunk on each side. *)
Definition whole_page (c : free_heap_chunk) (q : Z) : Prop :=
  cut_from (ch_addr c) q /\ ch_addr c <= q /\ cut_to (ch_end c) (q + PAGE_SIZE) /\ q + PAGE_SIZE <= ch_end c.

Record list_trimmed (l l' : list free_heap_chunk) (m m' : memory) (s s' : P) : Prop := {
  lt_list : coalesced l';
  lt_inv : pa_inv s';
  lt_sum : sum_len l' <= sum_len l;
  lt_sub : forall x, free_at l' x -> free_at l x;
  lt_free : forall x, pa_free s' x <-> pa_free s x \/ returned l l' x;
  lt_given : forall x, pa_given s' x <-> pa_given s x /\ ~ returned l l' x;
  lt_mem : forall x, ~ free_at l x -> m' !! x = m !! x;
  lt_all : forall c q x, c ∈ l -> whole_page c q -> q <= x < q + PAGE_SIZE -> ~ free_at l' x;
}.

Lemma clobber_pieces c pieces (m : memory) x :
  coalesced pieces -> (forall x, free_at pieces x -> inside c x) -> ~ inside c x ->
  foldl (fun m c => clobber (ch_addr c) sizeof_free_heap_chunk m) m pieces !! x = m !! x.
Proof.
  revert m. induction pieces as [|d pieces IH]; intros m Hl Hin Hx; [done|]. cbn.
  apply coalesced_cons in Hl as ([_ [] _] & Hl & _). rewrite IH; [|done| |done].
  - apply lookup_clobber. intros Hi. apply Hx, Hin. apply free_at_cons. left. unfold inside, ch_end, sizeof_free_heap_chunk in *. lia.
  - intros y Hy. apply Hin, free_at_cons. by right.
Qed.

(** One chunk: the pages go back, and the pieces stay. *)
Lemma trim_one c l rem (m : memory) (s : P) :
  chunk_ok c -> pa_inv s -> (forall x, inside c x -> pa_given s x) -> ch_len c <= rem < 2 ^ 64 ->
  exists pieces m1 s1,
    trim_walk (c :: l) rem m s =
      ('(rest, remaining, m, s) ← trim_walk l (rem - (ch_len c - sum_len pieces)) m1 s1; Some (pieces ++ rest, remaining, m, s)) /\
    list_trimmed [c] pieces m m1 s s1.
Proof.
  intros Hc I Hg Hrem. pose proof Hc as [[] [] Hce]. cbn [trim_walk].
  rewrite (wrap_small 64 (ch_addr c + ch_len c)) by (unfold ch_end in *; lia). change (ch_addr c + ch_len c) with (ch_end c).
  destruct (ROUNDUP_spec (ch_addr c) 12) as [Hr _]; [lia|lia|unfold ch_end in *; lia|].
  pose proof (ROUNDDOWN_div (ch_end c) 12 ltac:(lia)) as Hd. change (2 ^ 12) with PAGE_SIZE in *.
  rewrite !dassert_true by (first [apply Z.ltb_lt|apply Z.leb_le]; unfold ch_end, PAGE_SIZE in *; Z.div_mod_to_equations; lia).
  cbn [mbind option_bind]. destruct (trim_chunk_run c Hc) as (sp & ep & F & L & E). rewrite E. clear E.
  destruct (Z.ltb_spec sp ep) as [Hlt|Hge]; cbn [mbind option_bind].
  - pose proof F as (Hf & Hf1 & Hf2). pose proof L as (Hl & Hl1 & Hl2). pose proof (trim_cut c sp ep Hc Hf Hf1 Hl Hl1 Hlt) as [Tp Tf Ts _ _].
    set (pieces := cut_pieces _ _ _ _) in *. destruct (page_multiple _ (proj1 Hf)) as [i Hi]. destruct (page_multiple _ (proj1 Hl)) as [j Hj].
    assert ((ep - sp) / PAGE_SIZE * PAGE_SIZE = ep - sp) as En by (unfold PAGE_SIZE; Z.div_mod_to_equations; lia).
    destruct (page_free_law sp ((ep - sp) / PAGE_SIZE) s I) as (s1 & E1 & I1 & Hx1).
    { unfold PAGE_SIZE in *. lia. }
    { apply Hf. }
    { intros x Hx. apply Hg. unfold inside. lia. }
    rewrite En in Hx1. replace (sp + (ep - sp)) with ep in Hx1 by lia.
    rewrite E1. cbn [mbind option_bind]. rewrite (wrap_small 64) by (unfold ch_end in *; lia). replace (rem - (ep - sp)) with (rem - (ch_len c - sum_len pieces)) by lia.
    eexists pieces, _, s1. split; [reflexivity|].
    assert (forall x, returned [c] pieces x <-> sp <= x < ep) as Hret.
    { intros x. unfold returned. rewrite free_at_cons, free_at_nil, Tf. unfold inside. lia. }
    split; try done.
    + cbn. lia.
    + intros x Hx%Tf. apply free_at_cons. left. apply Hx.
    + intros x. rewrite Hret. apply Hx1.
    + intros x. rewrite Hret. apply Hx1.
    + intros x Hx. apply (clobber_pieces c); [done|intros y Hy%Tf; apply Hy|]. intros Hi'. apply Hx, free_at_cons. by left.
    + intros d q x ->%list_elem_of_singleton (Q1 & Q2 & Q3 & Q4) Hx Hfr%Tf. specialize (Hf2 q Q1 Q2). specialize (Hl2 _ Q3 Q4). lia.
  - exists [c], (clobber (ch_addr c) sizeof_free_heap_chunk m), s. split; [|split; try done].
    + replace (rem - (ch_len c - sum_len [c])) with rem by (cbn; lia). reflexivity.
    + by apply coalesced_single.
    + intros x. unfold returned. tauto.
    + intros x. unfold returned. tauto.
    + intros x Hx. apply (clobber_pieces c [c]); [by apply coalesced_single|intros y; rewrite free_at_cons, free_at_nil; tauto|].
      intros Hi'. apply Hx, free_at_cons. by left.
    + intros d q x ->%list_elem_of_singleton (Q1 & Q2 & Q3 & Q4) Hx. pose proof (proj2 (proj2 F) q Q1 Q2). pose proof (proj2 (proj2 L) _ Q3 Q4).
      unfold PAGE_SIZE in *. lia.
Qed.

(** Trimming the head of the list, then the rest. *)
Lemma list_trimmed_cons c l pieces rest m m1 m2 s s1 s2 :
  coalesced (c :: l) -> list_trimmed [c] pieces m m1 s s1 -> list_trimmed l rest m1 m2 s1 s2 ->
  list_trimmed (c :: l) (pieces ++ rest) m m2 s s2.
Proof.
  intros (Hc & Hl & Hg)%coalesced_cons T1 T2.
  assert (forall x, inside c x -> ~ free_at l x) as Hdis.
  { intros x Hi Hf. apply Exists_exists in Hf as (d & Hd & Hid). specialize (Hg d Hd). unfold gap, inside in *. lia. }
  assert (forall x, free_at pieces x -> inside c x) as Hp.
  { intros x Hx%(lt_sub _ _ _ _ _ _ T1). by apply free_at_cons in Hx as [|[]%free_at_nil]. }
  pose proof (lt_sub _ _ _ _ _ _ T2) as Hrl.
  assert (forall x, returned (c :: l) (pieces ++ rest) x <-> returned [c] pieces x \/ returned l rest x) as Hret.
  { intros x. unfold returned. rewrite free_at_app, !free_at_cons, free_at_nil. specialize (Hp x). specialize (Hrl x). specialize (Hdis x). tauto. }
  split.
  - apply coalesced_app. split_and!; [apply T1|apply T2|]. intros d e Hd He.
    assert (ch_end d <= ch_end c) as Hde.
    { pose proof (coalesced_ok _ d (lt_list _ _ _ _ _ _ T1) Hd) as [_ [] _].
      assert (inside c (ch_end d - 1)) as Hi; [|unfold inside in Hi; lia]. apply Hp, (free_at_in _ d); [done|]. unfold inside, ch_end. lia. }
    pose proof (coalesced_ok _ e (lt_list _ _ _ _ _ _ T2) He) as [_ [] _].
    assert (free_at l (ch_addr e)) as Hf by (apply Hrl, (free_at_in _ e); [done|unfold inside, ch_end; lia]).
    apply Exists_exists in Hf as (f & Hf & Hif). specialize (Hg f Hf). unfold gap, inside in *. lia.
  - apply T2.
  - rewrite sum_len_app, sum_len_cons. pose proof (lt_sum _ _ _ _ _ _ T1) as S1. rewrite sum_len_cons in S1. pose proof (lt_sum _ _ _ _ _ _ T2). cbn in S1. lia.
  - intros x. rewrite free_at_app, free_at_cons. intros [Hx|Hx]; [left; by apply Hp|right; by apply Hrl].
  - intros x. rewrite Hret, (lt_free _ _ _ _ _ _ T2), (lt_free _ _ _ _ _ _ T1). tauto.
  - intros x. rewrite Hret, (lt_given _ _ _ _ _ _ T2), (lt_given _ _ _ _ _ _ T1). tauto.
  - intros x Hx. rewrite free_at_cons in Hx. rewrite (lt_mem _ _ _ _ _ _ T2), (lt_mem _ _ _ _ _ _ T1); [done|rewrite free_at_cons, free_at_nil; tauto|tauto].
  - intros d q x [->|Hd]%elem_of_cons Hq Hx [Hf|Hf]%free_at_app.
    + by apply (lt_all _ _ _ _ _ _ T1 c q x); [left|..].
    + apply Hrl in Hf. apply (Hdis x); [|done]. destruct Hq as (_ & ? & _ & ?). unfold inside. lia.
    + apply Hp in Hf. apply (Hdis x Hf), (free_at_in _ d); [done|]. destruct Hq as (_ & ? & _ & ?). unfold inside. lia.
    + by apply (lt_all _ _ _ _ _ _ T2 d q x).
Qed.

Lemma trim_walk_run l rem m s :
  coalesced l -> pa_inv s -> (forall x, free_at l x -> pa_given s x) -> sum_len l <= rem < 2 ^ 64 ->
  exists l' m' s', trim_walk l rem m s = Some (l', rem - (sum_len l - sum_len l'), m', s') /\ list_trimmed l l' m m' s s'.
Proof.
  revert rem m s. induction l as [|c l IH]; intros rem m s Hl I Hg Hrem.
  - exists [], m, s. cbn. rewrite Z.sub_0_r. split; [done|]. split; try done; [..|set_solver].
    + intros x. unfold returned. rewrite free_at_nil. tauto.
    + intros x. unfold returned. rewrite free_at_nil. tauto.
  - pose proof Hl as (Hc & Hl' & Hgap)%coalesced_cons. pose proof (sum_len_range l Hl') as Hs0. rewrite sum_len_cons in Hrem.
    destruct (trim_one c l rem m s Hc I) as (pieces & m1 & s1 & E & T1).
    { intros x Hx. apply Hg, free_at_cons. by left. }
    { lia. }
    pose proof (lt_sum _ _ _ _ _ _ T1) as S1. rewrite sum_len_cons in S1. cbn in S1.
    pose proof (sum_len_range _ (lt_list _ _ _ _ _ _ T1)) as Hs1.
    destruct (IH (rem - (ch_len c - sum_len pieces)) m1 s1) as (rest & m2 & s2 & E2 & T2); [done|apply T1| |lia|].
    { intros x Hx. apply (lt_given _ _ _ _ _ _ T1). split; [apply Hg, free_at_cons; by right|].
      intros [Hc' _]. apply free_at_cons in Hc' as [Hi|[]%free_at_nil].
      apply Exists_exists in Hx as (d & Hd & Hid). specialize (Hgap d Hd). unfold gap, inside in *. lia. }
    rewrite E, E2. cbn [mbind option_bind]. exists (pieces ++ rest), m2, s2. split.
    + do 4 f_equal. rewrite sum_len_app, sum_len_cons. lia.
    + by eapply list_trimmed_cons.
Qed.

Lemma miniheap_trim_run h s :
  heap_pages h s ->
  exists h' s', miniheap_trim h s = Some (h', s') /\ heap_pages h' s' /\ h_as h' = h_as h /\
    list_trimmed (h_free_list h) (h_free_list h') (h_mem h) (h_mem h') s s'.
Proof.
  intros [[Hl Hb Hap Hr Hs] I Hg Hself]. unfold miniheap_trim.
  destruct (trim_walk_run (h_free_list h) (h_remaining h) (h_mem h) s) as (l' & m' & s' & E & T); [done|done| | |].
  { intros x Hx. apply Hg. by left. }
  { rewrite Hr. pose proof (sum_len_range _ Hl). lia. }
  rewrite E. cbn [mbind option_bind]. eexists _, s'. split; [done|]. hcbn. split_and!; [|done|done].
  pose proof (lt_sub _ _ _ _ _ _ T) as Hsub. split.
  - split; unfold owned; hcbn; [apply T|done| |lia|].
    + intros x Hx. by apply Hap, Hsub.
    + intros [Hx|Hx]; apply Hs; [left; by apply Hsub|by right].
  - apply T.
  - unfold owned. hcbn. intros x Hx. apply (lt_given _ _ _ _ _ _ T). split.
    + apply Hg. destruct Hx as [Hx|Hx]; [left; by apply Hsub|by right].
    + intros [Hf Hnf]. destruct Hx as [|Hx]; [done|]. by apply (Hap x).
  - intros [Hx|[Hx _]]%(lt_free _ _ _ _ _ _ T); [done|]. apply Hs. by left.
Qed.

(** ** Reallocation *)
Lemma lookup_memcpy dst src n m k :
  memcpy dst src n m !! k = if decide (dst <= k < dst + n) then m !! (src + (k - dst)) else m !! k.
Proof.
  assert (forall l : list Z, foldr (fun i acc => match m !! (src + i) with Some v => <[dst + i := v]> acc | None => delete (dst + i) acc end) m l !! k
    = if decide (k - dst ∈ l) then m !! (src + (k - dst)) else m !! k) as Hl.
  { induction l as [|i l IH]; cbn; [done|]. destruct (decide (k = dst + i)) as [->|Hne].
    - rewrite decide_True by (apply elem_of_cons; left; lia). replace (dst + i - dst) with i by lia. destruct (m !! (src + i)); [by rewrite lookup_insert_eq|by rewrite lookup_delete_eq].
    - transitivity (foldr (fun i acc => match m !! (src + i) with Some v => <[dst + i := v]> acc | None => delete (dst + i) acc end) m l !! k).
      + destruct (m !! (src + i)); [by rewrite lookup_insert_ne|by rewrite lookup_delete_ne].
      + rewrite IH. apply decide_ext. rewrite elem_of_cons. split; [tauto|]. intros [|]; [lia|done]. }
  unfold memcpy. rewrite Hl. apply decide_ext. rewrite elem_of_seqZ. lia.
Qed.

Lemma lookup_memset dst v n m k : memset dst v n m !! k = if decide (dst <= k < dst + n) then Some v else m !! k.
Proof.
  assert (forall l : list Z, foldr (fun i acc => <[dst + i := v]> acc) m l !! k = if decide (k - dst ∈ l) then Some v else m !! k) as Hl.
  { induction l as [|i l IH]; cbn; [done|]. destruct (decide (k = dst + i)) as [->|Hne].
    - rewrite decide_True by (apply elem_of_cons; left; lia). by rewrite lookup_insert_eq.
    - rewrite lookup_insert_ne, IH by done. apply decide_ext. rewrite elem_of_cons. split; [tauto|]. intros [|]; [lia|done]. }
  unfold memset. rewrite Hl. apply decide_ext. rewrite elem_of_seqZ. lia.
Qed.

Lemma heap_pages_mem h s m : heap_pages h s -> heap_pages (set_h_mem m h) s.
Proof. intros [W I Hg Hs]. split; [by apply heap_wf_mem|done..]. Qed.

(** The block moves, with as much of its contents as both blocks hold. *)
Record moved (p p' n : Z) (a b : alloc_struct_begin) (h h' : heap) : Prop := {
  mv_as : h_as h' = delete p (<[p' := b]> (h_as h));
  mv_fresh : h_as h !! p' = None;
  mv_ptr : p' mod 8 = 0 /\ p' + n <= ch_end (extent b);
  mv_apart : forall x, inside (extent b) x -> ~ in_block (h_as h) x;
  mv_data : forall i, 0 <= i < n -> p + i < ch_end (extent a) -> h_mem h' !! (p' + i) = h_mem h !! (p + i);
  mv_others : forall x, in_block (delete p (h_as h)) x -> h_mem h' !! x = h_mem h !! x;
}.

Lemma miniheap_realloc_run p a n h s :
  heap_pages h s -> h_as h !! p = Some a -> 0 < n < 2 ^ 41 ->
  exists p' h' s', miniheap_realloc free_list_addr p n h s = Some (p', h', s') /\ heap_pages h' s' /\
    ((p' = 0 /\ no_memory n 0 h h' s s') \/ (p' <> 0 /\ exists b, moved p p' n a b h h')).
Proof.
  intros HP Hp Hn. pose proof (hp_wf _ _ HP) as W. pose proof (bs_each _ (hw_blocks _ _ W) p a Hp) as [_ Hx Hptr]. pose proof hdr_range as [Hhdr _].
  unfold miniheap_realloc. rewrite (proj2 (Z.eqb_neq p 0)), (proj2 (Z.eqb_neq n 0)) by (destruct Hx as [[] _ _]; cbn in *; lia).
  destruct (miniheap_alloc_run n 0 h s HP) as (p' & h1 & s' & E & HP1 & Hc); [lia|by left|]. rewrite E. cbn [mbind option_bind].
  destruct Hc as [[-> Hno]|[Hp' [b [Has Hfr Hbp [Hp8 _] Hbl _ _ Hmem]]]].
  - rewrite Z.eqb_refl. exists 0, h1, s'. split_and!; [done..|]. by left.
  - rewrite (proj2 (Z.eqb_neq p' 0)) by done. set (h2 := set_h_mem _ h1).
    assert (p <> p') as Hne by congruence.
    destruct (miniheap_free_pages p a h2 s') as (h3 & E3 & HP3 & [Has3 _ Hmem3 _]).
    { by apply heap_pages_mem. }
    { unfold h2. hcbn. by rewrite Has, lookup_insert_ne. }
    rewrite E3. cbn [mbind option_bind]. exists p', h3, s'. split_and!; [done..|]. right. split; [done|]. exists b.
    assert (forall x, inside (extent b) x -> ~ inside (extent a) x) as Hba by (intros x Hi Hi'; apply (Hbl x Hi); by exists p, a).
    split; try done.
    + by rewrite Has3, <- Has.
    + split; [done|apply Hbp].
    + intros i Hi Hia. rewrite Hmem3 by (apply Hba; unfold inside; cbn; lia). unfold h2. hcbn.
      rewrite lookup_memcpy, decide_True by lia. replace (p + (p' + i - p')) with (p + i) by lia. apply Hmem.
      exists p, a. split; [done|]. unfold inside. cbn in *. lia.
    + intros x (q & d & [Hq1 Hq]%lookup_delete_Some & Hi). rewrite Hmem3.
      * unfold h2. hcbn. rewrite lookup_memcpy, decide_False; [apply Hmem; by exists q, d|].
        intros Hr. apply (Hbl x); [unfold inside; cbn in *; lia|by exists q, d].
      * intros Hia. eapply (apart_not_inside (extent a) (extent d) x); [|done|done]. by eapply (bs_apart _ (hw_blocks _ _ W) p q).
Qed.
End ops.
