(* ===== verification/HeapSys.v ===== *)
(** * The kernel heap and its clients

    What [malloc] and the other functions of [lib/heap/heap_wrapper.c] promise a
    client that frees only what it was given: no call faults, the blocks it
    holds never overlap and keep their contents. *)
From stdpp Require Import sorting.
From S2P Require Import Prelude Align KState Pmm Heap HeapInv HeapOps.

(** ** What a client calls *)
Inductive heap_call :=
  | HMalloc (size : Z) | HCalloc (count size : Z) | HMemalign (boundary size : Z) | HRealloc (ptr size : Z)
  | HFree (ptr : Z) | HDelayedFree (ptr : Z) | HTrim.

(** The blocks the client holds, with the sizes it asked for. *)
Abbreviation holding := (gmap Z Z).

Definition heap_allowed (c : heap_call) (live : holding) : Prop :=
  match c with
  | HMalloc size => 0 <= size < 2 ^ 41
  | HCalloc count size => 0 <= count * size < 2 ^ 41
  | HMemalign boundary size => 0 <= boundary < 2 ^ 32 /\ 0 <= size < 2 ^ 41
  | HRealloc ptr size => (ptr = 0 \/ is_Some (live !! ptr)) /\ 0 <= size < 2 ^ 41
  | HFree ptr => ptr = 0 \/ is_Some (live !! ptr)
  | HDelayedFree ptr => exists size, live !! ptr = Some size /\ 16 <= size
  | HTrim => True
  end.

Definition hold (p size : Z) (live : holding) : holding := if p =? 0 then live else <[p := size]> live.
Definition heap_after (c : heap_call) (r : Z) (live : holding) : holding :=
  match c with
  | HMalloc size | HMemalign _ size => hold r size live
  | HCalloc count size => hold r (count * size) live
  | HRealloc ptr size => if ptr =? 0 then hold r size live else if size =? 0 then delete ptr live
                         else if r =? 0 then live else <[r := size]> (delete ptr live)
  | HFree ptr | HDelayedFree ptr => delete ptr live
  | HTrim => live
  end.

Section sys.
Context `{KConfig} (free_list_addr : Z) {P : Type} `{!PageAllocator P} `{!PageAllocatorLaws P}.

Definition run_heap_call (c : heap_call) (k : kheap P) : option (Z * kheap P) :=
  match c with
  | HMalloc size => malloc free_list_addr size k
  | HCalloc count size => calloc free_list_addr count size k
  | HMemalign boundary size => memalign free_list_addr boundary size k
  | HRealloc ptr size => realloc free_list_addr ptr size k
  | HFree ptr => k ← free free_list_addr ptr k; Some (0, k)
  | HDelayedFree ptr => k ← heap_delayed_free ptr k; Some (0, k)
  | HTrim => k ← heap_trim free_list_addr k; Some (0, k)
  end.

(** ** The invariant *)
Definition holds_block (h : heap) (p size : Z) : Prop :=
  p mod 8 = 0 /\ exists a, h_as h !! p = Some a /\ 0 <= size /\ p + size <= ch_end (extent a).

Record kheap_ok (k : kheap P) (live : holding) : Prop := {
  kk_heap : heap_pages free_list_addr (kh_heap k) (kh_pages k);
  kk_live : forall p size, live !! p = Some size -> holds_block (kh_heap k) p size /\ p ∉ kh_delayed k;
  kk_nodup : NoDup (kh_delayed k);
  kk_delayed : forall p, p ∈ kh_delayed k -> is_Some (h_as (kh_heap k) !! p);
}.

(** The blocks of [live] stay where they are, with what is in them. *)
Definition undisturbed (live : holding) (h h' : heap) : Prop :=
  forall p size, live !! p = Some size -> h_as h' !! p = h_as h !! p /\
    forall i, 0 <= i < size -> h_mem h' !! (p + i) = h_mem h !! (p + i).

#[global] Instance undisturbed_preorder live : PreOrder (undisturbed live).
Proof.
  split; [by intros h p size Hp|]. intros h1 h2 h3 H1 H2 p size Hp. destruct (H1 p size Hp) as [A1 M1], (H2 p size Hp) as [A2 M2].
  split; [congruence|]. intros i Hi. by rewrite M2, M1.
Qed.

Lemma holds_block_inside h p size i :
  heap_wf free_list_addr h -> holds_block h p size -> 0 <= i < size -> exists a, h_as h !! p = Some a /\ inside (extent a) (p + i).
Proof.
  intros W (_ & a & Ha & Hs & He) Hi. exists a. split; [done|]. destruct (bs_each _ (hw_blocks _ _ W) p a Ha) as [_ _ Hp].
  pose proof hdr_range as [? _]. unfold inside. cbn in *. lia.
Qed.

Lemma undisturbed_intro live h h' :
  heap_wf free_list_addr h -> (forall p size, live !! p = Some size -> holds_block h p size) ->
  (forall p size, live !! p = Some size -> h_as h' !! p = h_as h !! p) ->
  (forall x p size a, live !! p = Some size -> h_as h !! p = Some a -> inside (extent a) x -> h_mem h' !! x = h_mem h !! x) ->
  undisturbed live h h'.
Proof.
  intros W Hl Ha Hm p size Hp. split; [by eapply Ha|]. intros i Hi.
  destruct (holds_block_inside h p size i W (Hl p size Hp) Hi) as (a & Hpa & Hin). by eapply Hm.
Qed.

Lemma holds_block_same h h' p size : h_as h' !! p = h_as h !! p -> holds_block h p size -> holds_block h' p size.
Proof. intros E (? & a & Ha & ?). split; [done|]. exists a. by rewrite E. Qed.

(** ** The pending list *)
Lemma free_nodes_run l h s :
  heap_pages free_list_addr h s -> NoDup l -> (forall p, p ∈ l -> is_Some (h_as h !! p)) ->
  exists h', free_nodes free_list_addr l h = Some h' /\ heap_pages free_list_addr h' s /\
    (forall p, p ∉ l -> h_as h' !! p = h_as h !! p) /\
    (forall x p a, p ∉ l -> h_as h !! p = Some a -> inside (extent a) x -> h_mem h' !! x = h_mem h !! x).
Proof.
  revert h. induction l as [|q l IH]; intros h HP Hnd Hl; cbn; [by exists h|].
  apply NoDup_cons in Hnd as [Hq Hnd]. destruct (Hl q ltac:(left)) as [b Hb].
  destruct (miniheap_free_pages free_list_addr q b h s HP Hb) as (h1 & -> & HP1 & [Has _ Hm _]). cbn [mbind option_bind].
  destruct (IH h1 HP1 Hnd) as (h' & E & HP' & Ha' & Hm').
  { intros p Hp. rewrite Has, lookup_delete_ne by set_solver. apply Hl. by right. }
  exists h'. split_and!; [done..| |].
  - intros p Hp. rewrite Ha', Has, lookup_delete_ne by set_solver. done.
  - intros x p a Hp Hpa Hx. rewrite (Hm' x p a), Hm; [done| |set_solver| |done].
    + intros Hxb. assert (p <> q) as Hne by set_solver.
      eapply (apart_not_inside (extent a) (extent b) x); [|done|done]. by eapply (bs_apart _ (hw_blocks _ _ (hp_wf _ _ _ HP)) p q).
    + by rewrite Has, lookup_delete_ne by set_solver.
Qed.

Lemma deal_with_pending_run k live :
  kheap_ok k live ->
  exists k', deal_with_pending free_list_addr k = Some k' /\ kheap_ok k' live /\ kh_delayed k' = [] /\
    undisturbed live (kh_heap k) (kh_heap k').
Proof.
  intros [HP Hl Hnd Hd]. unfold deal_with_pending. case_bool_decide as Ed; [by exists k|]. unfold heap_free_delayed_list.
  destruct (free_nodes_run (reverse (kh_delayed k)) (kh_heap k) (kh_pages k) HP) as (h' & -> & HP' & Ha & Hm).
  { by rewrite reverse_Permutation. }
  { intros p Hp. rewrite elem_of_reverse in Hp. by apply Hd. }
  cbn [mbind option_bind]. eexists. split; [done|].
  assert (forall p size, live !! p = Some size -> h_as h' !! p = h_as (kh_heap k) !! p) as Hsame.
  { intros p size Hp. apply Ha. rewrite elem_of_reverse. by eapply Hl. }
  split_and!; [|done|].
  - split; cbn; [done| |constructor|set_solver]. intros p size Hp. split; [|set_solver].
    eapply holds_block_same; [by eapply Hsame|by apply Hl].
  - cbn. apply undisturbed_intro; [apply HP|by apply Hl|done|]. intros x p size a Hp Hpa Hx.
    eapply Hm; [|done|done]. rewrite elem_of_reverse. by eapply Hl.
Qed.

(** ** The calls *)
Lemma alloc_step n al k live :
  kheap_ok k live -> kh_delayed k = [] -> 0 <= n < 2 ^ 41 -> 0 <= al < 2 ^ 32 ->
  exists p h' s', miniheap_alloc free_list_addr n al (kh_heap k) (kh_pages k) = Some (p, h', s') /\
    kheap_ok (KHeap h' [] s') (hold p n live) /\ undisturbed live (kh_heap k) h' /\
    (p <> 0 -> live !! p = None /\ (0 < al -> p mod al = 0) /\ forall q size, live !! q = Some size -> p + n <= q \/ q + size <= p).
Proof.
  intros K Ed Hn Hal. pose proof K as [HP Hl _ _].
  destruct (decide (Z.land al (u32 (al - 1)) = 0)) as [Hpow|Hpow]; cycle 1.
  { unfold miniheap_alloc. rewrite (proj2 (Z.eqb_neq _ 0)) by done. exists 0, (kh_heap k), (kh_pages k). split; [done|].
    split_and!; [|done|done]. cbn. destruct k. cbn in *. by subst. }
  destruct (miniheap_alloc_run free_list_addr n al (kh_heap k) (kh_pages k) HP Hn) as (p & h' & s' & E & HP' & Hc).
  { apply ispow2_correct; [done|]. unfold ispow2. rewrite Z.land_comm. by apply Z.eqb_eq. }
  exists p, h', s'. split; [done|]. destruct Hc as [[-> Hno]|[Hp [a [Has Hfr Hptr [Ha8 Hal'] Hbl _ _ Hmem]]]].
  - destruct Hno as [-> _]. split_and!; [|done|done]. split; cbn; [done| |constructor|set_solver].
    intros p size Hp. split; [by apply Hl|set_solver].
  - assert (live !! p = None) as Hpl.
    { destruct (live !! p) eqn:Hp'; [|done]. destruct (Hl p _ Hp') as [(_ & b & Hb & _) _]. congruence. }
    assert (undisturbed live (kh_heap k) h') as U.
    { apply undisturbed_intro; [apply HP|by apply Hl| |].
      - intros q size Hq. rewrite Has, lookup_insert_ne by congruence. done.
      - intros x q size b _ Hq Hx. apply Hmem. by exists q, b. }
    unfold hold. rewrite (proj2 (Z.eqb_neq p 0)) by done. split_and!; [|done|].
    + split; cbn; [done| |constructor|set_solver]. intros q size [[<- <-]|[Hne Hq]]%lookup_insert_Some; (split; [|set_solver]).
      * split; [done|]. exists a. rewrite Has, lookup_insert_eq. split; [done|]. lia.
      * eapply holds_block_same; [by eapply U|by apply Hl].
    + intros _. split_and!; [done..|]. intros q size Hq. destruct (Hl q size Hq) as [(_ & b & Hb & Hs & Hbe) _].
      pose proof (bs_each _ (hw_blocks _ _ (hp_wf _ _ _ HP)) q b Hb) as [_ Hbx Hqp]. pose proof hdr_range as [Hh _].
      assert (as_ptr a + 24 <= ch_end (extent a)) as Hlen.
      { pose proof (bs_each _ (hw_blocks _ _ (hp_wf _ _ _ HP')) p a) as Ba. rewrite Has, lookup_insert_eq in Ba.
        destruct (Ba eq_refl) as [_ [_ [? _] _] _]. unfold ch_end in *. cbn in *. lia. }
      assert (apart (extent a) (extent b)) as Hap.
      { pose proof (bs_apart _ (hw_blocks _ _ (hp_wf _ _ _ HP')) p q a b) as Ba. rewrite Has, lookup_insert_eq, lookup_insert_ne in Ba by congruence.
        apply Ba; [congruence|done..]. }
      unfold apart in Hap. cbn in *. lia.
Qed.

Lemma memalign_step b n k live :
  kheap_ok k live -> 0 <= b < 2 ^ 32 -> 0 <= n < 2 ^ 41 ->
  exists p k', memalign free_list_addr b n k = Some (p, k') /\ kheap_ok k' (hold p n live) /\ undisturbed live (kh_heap k) (kh_heap k') /\
    (p <> 0 -> 0 < b -> p mod b = 0).
Proof.
  intros K Hb Hn. destruct (deal_with_pending_run k live K) as (k1 & E1 & K1 & D1 & U1). unfold memalign. rewrite E1. cbn [mbind option_bind].
  rewrite (wrap_small 32) by lia. destruct (alloc_step n b k1 live K1 D1 Hn Hb) as (p & h' & s' & E & K' & U & Hp).
  rewrite E, D1. cbn [mbind option_bind]. eexists _, _. split; [done|]. split_and!; [done|by etransitivity|]. intros. by apply Hp.
Qed.

Lemma malloc_memalign n k : malloc free_list_addr n k = memalign free_list_addr 0 n k.
Proof. done. Qed.

(** New contents for a block the client has just got. *)
Lemma kheap_ok_mem k live m : kheap_ok k live -> kheap_ok (KHeap (set_h_mem m (kh_heap k)) (kh_delayed k) (kh_pages k)) live.
Proof. intros [HP Hl Hn Hd]. split; cbn; [by apply heap_pages_mem|done..]. Qed.

Lemma undisturbed_mem live h h' m p n :
  undisturbed live h h' -> (forall q size, live !! q = Some size -> p + n <= q \/ q + size <= p) ->
  (forall x, ~ p <= x < p + n -> m !! x = h_mem h' !! x) -> undisturbed live h (set_h_mem m h').
Proof.
  intros U Hd Hm q size Hq. destruct (U q size Hq) as [Ha Hx]. split; [done|]. intros i Hi. hcbn. rewrite Hm; [by apply Hx|].
  specialize (Hd q size Hq). lia.
Qed.

Lemma calloc_step count size k live :
  kheap_ok k live -> 0 <= count * size < 2 ^ 41 ->
  exists p k', calloc free_list_addr count size k = Some (p, k') /\ kheap_ok k' (hold p (count * size) live) /\
    undisturbed live (kh_heap k) (kh_heap k') /\ (p <> 0 -> forall i, 0 <= i < count * size -> h_mem (kh_heap k') !! (p + i) = Some 0).
Proof.
  intros K Hn. destruct (deal_with_pending_run k live K) as (k1 & E1 & K1 & D1 & U1). unfold calloc. rewrite E1. cbn [mbind option_bind].
  rewrite (wrap_small 64) by lia. destruct (alloc_step (count * size) 0 k1 live K1 D1 Hn) as (p & h' & s' & E & K' & U & Hp); [lia|].
  rewrite E, D1. cbn [mbind option_bind]. eexists _, _. split; [done|]. destruct (Z.eqb_spec p 0) as [->|Hne]; cbn [kh_heap].
  - split_and!; [done|by etransitivity|done].
  - destruct (Hp Hne) as (_ & _ & Hd). split_and!.
    + by apply (kheap_ok_mem (KHeap h' [] s')).
    + etransitivity; [exact U1|]. eapply undisturbed_mem; [exact U|exact Hd|]. intros x Hx. by rewrite lookup_memset, decide_False.
    + intros _ i Hi. hcbn. rewrite lookup_memset, decide_True by lia. done.
Qed.

(** Removing a block from what the client holds. *)
Lemma free_step p k live :
  kheap_ok k live -> is_Some (live !! p) ->
  exists h', miniheap_free free_list_addr p (kh_heap k) = Some h' /\ kheap_ok (KHeap h' (kh_delayed k) (kh_pages k)) (delete p live) /\
    undisturbed (delete p live) (kh_heap k) h'.
Proof.
  intros [HP Hl Hnd Hd] [n Hp]. destruct (Hl p n Hp) as [(_ & a & Ha & _) Hpd].
  destruct (miniheap_free_pages free_list_addr p a _ _ HP Ha) as (h' & E & HP' & [Has _ Hm _]). exists h'. split; [done|].
  assert (undisturbed (delete p live) (kh_heap k) h') as U.
  { apply undisturbed_intro; [apply HP| | |].
    - intros q size [_ Hq]%lookup_delete_Some. by apply Hl.
    - intros q size [Hne _]%lookup_delete_Some. by rewrite Has, lookup_delete_ne.
    - intros x q size b [Hne _]%lookup_delete_Some Hq Hx. apply Hm. intros Hxa.
      eapply (apart_not_inside (extent a) (extent b) x); [|done|done]. by eapply (bs_apart _ (hw_blocks _ _ (hp_wf _ _ _ HP)) p q). }
  split; [|done]. split; cbn; [done| |done|].
  - intros q size Hq. split; [eapply holds_block_same; [by eapply U|]|]; apply lookup_delete_Some in Hq as [_ Hq]; by eapply Hl.
  - intros q Hq. rewrite Has, lookup_delete_ne by congruence. by apply Hd.
Qed.

Lemma delayed_free_step p size k live :
  kheap_ok k live -> live !! p = Some size -> 16 <= size ->
  exists k', heap_delayed_free p k = Some k' /\ kheap_ok k' (delete p live) /\ undisturbed (delete p live) (kh_heap k) (kh_heap k').
Proof.
  intros [HP Hl Hnd Hd] Hp Hsz. destruct (Hl p size Hp) as [(_ & a & Ha & _ & He) Hpd]. pose proof (hp_wf _ _ _ HP) as W.
  unfold heap_delayed_free. rewrite Ha. cbn [mbind option_bind]. unfold ch_end in He. cbn in He.
  rewrite (proj2 (Z.leb_le _ _)) by lia. cbn. eexists. split; [done|]. split; cbn.
  - split; cbn; [by apply heap_pages_mem| |by constructor|].
    + intros q n [Hne Hq]%lookup_delete_Some. destruct (Hl q n Hq) as [Hb Hn]. split; [done|]. by apply not_elem_of_cons.
    + intros q [->|Hq]%elem_of_cons; [by exists a|by apply Hd].
  - apply undisturbed_intro; [done| |done|].
    + intros q n [_ Hq]%lookup_delete_Some. by apply Hl.
    + intros x q n b [Hne Hq]%lookup_delete_Some Hb Hx. hcbn. apply lookup_clobber. intros Hr.
      destruct (bs_each _ (hw_blocks _ _ W) p a Ha) as [_ _ Hptr]. pose proof hdr_range as [? _].
      eapply (apart_not_inside (extent a) (extent b) x); [by eapply (bs_apart _ (hw_blocks _ _ W) p q)| |done].
      unfold inside, ch_end in *. cbn in *. lia.
Qed.

Lemma trim_step k live :
  kheap_ok k live -> exists k', heap_trim free_list_addr k = Some k' /\ kheap_ok k' live /\ undisturbed live (kh_heap k) (kh_heap k').
Proof.
  intros K. destruct (deal_with_pending_run k live K) as (k1 & E1 & K1 & D1 & U1). unfold heap_trim. rewrite E1. cbn [mbind option_bind].
  pose proof K1 as [HP Hl Hnd Hd]. destruct (miniheap_trim_run free_list_addr _ _ HP) as (h' & s' & -> & HP' & Ha & T). cbn [mbind option_bind].
  eexists. split; [done|]. split; cbn.
  - split; cbn; [done| |done|by rewrite Ha]. intros p n Hp. split; [|by eapply Hl].
    eapply holds_block_same; [by rewrite Ha|by apply Hl].
  - etransitivity; [exact U1|]. apply undisturbed_intro; [apply HP|by apply Hl|by rewrite Ha|].
    intros x p n a Hp Hpa Hx. apply (lt_mem _ _ _ _ _ _ T). intros Hf. apply (hw_apart _ _ (hp_wf _ _ _ HP) x Hf). by exists p, a.
Qed.

(** Blocks held before and after keep their contents. *)
Definition stays (live live' : holding) (h h' : heap) : Prop :=
  forall p size, live !! p = Some size -> live' !! p = Some size -> forall i, 0 <= i < size -> h_mem h' !! (p + i) = h_mem h !! (p + i).

Lemma stays_undisturbed live0 live live' h h' :
  undisturbed live0 h h' -> (forall p size, live !! p = Some size -> live' !! p = Some size -> live0 !! p = Some size) -> stays live live' h h'.
Proof. intros U Hs p size Hp Hp' i Hi. by apply (U p size); [apply Hs|]. Qed.

Lemma live_nonzero k live : kheap_ok k live -> live !! 0 = None.
Proof.
  intros [HP Hl _ _]. destruct (live !! 0) as [n|] eqn:E; [|done]. destruct (Hl 0 n E) as [(_ & a & Ha & _) _].
  destruct (bs_each _ (hw_blocks _ _ (hp_wf _ _ _ HP)) 0 a Ha) as [_ [[? _] _ _] Hp]. pose proof hdr_range as [? _]. cbn in *. lia.
Qed.

(** The block moved by [realloc] replaces the old one in what the client holds. *)
Lemma realloc_moved p r n old a b (k k1 : kheap P) live h' s' :
  kheap_ok k1 live -> undisturbed live (kh_heap k) (kh_heap k1) -> heap_pages free_list_addr h' s' ->
  live !! p = Some old -> h_as (kh_heap k1) !! p = Some a -> p + old <= ch_end (extent a) -> 0 <= n ->
  moved p r n a b (kh_heap k1) h' ->
  kheap_ok (KHeap h' [] s') (<[r := n]> (delete p live)) /\ stays live (<[r := n]> (delete p live)) (kh_heap k) h' /\
  (forall old i, live !! p = Some old -> 0 <= i < old -> i < n -> h_mem h' !! (r + i) = h_mem (kh_heap k) !! (p + i)).
Proof.
  intros [HP Hl _ _] U1 HP' Hp Ha Hae Hn [Has Hfr [Hr8 Hre] Hap Hdata Hoth].
  assert (live !! r = None) as Hrl.
  { destruct (live !! r) eqn:E; [|done]. destruct (Hl r _ E) as [(_ & d & Hd & _) _]. congruence. }
  assert (forall q size, delete p live !! q = Some size -> h_as h' !! q = h_as (kh_heap k1) !! q) as Hsame.
  { intros q size [Hne Hq]%lookup_delete_Some. rewrite Has, lookup_delete_ne, lookup_insert_ne by congruence. done. }
  split_and!.
  - split; cbn; [done| |constructor|set_solver]. intros q size [[<- <-]|[Hne Hq]]%lookup_insert_Some; (split; [|set_solver]).
    + split; [done|]. exists b. rewrite Has, lookup_delete_ne, lookup_insert_eq by congruence. done.
    + eapply holds_block_same; [by eapply Hsame|]. apply lookup_delete_Some in Hq as [_ Hq]. by apply Hl.
  - apply (stays_undisturbed (delete p live)).
    + intros q size Hq. pose proof Hq as [Hne Hq']%lookup_delete_Some. destruct (U1 q size Hq') as [Ea Em].
      rewrite (Hsame q size Hq). split; [done|]. intros i Hi. rewrite <- Em by done. apply Hoth.
      destruct (holds_block_inside (kh_heap k1) q size i (hp_wf _ _ _ HP) (proj1 (Hl q size Hq')) Hi) as (d & Hd & Hin).
      exists q, d. by rewrite lookup_delete_ne by congruence.
    + intros q size Hq [[<- <-]|[_ Hq']]%lookup_insert_Some; [congruence|done].
  - intros old' i Hp' Hi Hin. assert (old' = old) as -> by congruence. rewrite Hdata by lia. by apply (U1 p old Hp).
Qed.

Lemma realloc_step p n k live :
  kheap_ok k live -> (p = 0 \/ is_Some (live !! p)) -> 0 <= n < 2 ^ 41 ->
  exists r k', realloc free_list_addr p n k = Some (r, k') /\ kheap_ok k' (heap_after (HRealloc p n) r live) /\
    stays live (heap_after (HRealloc p n) r live) (kh_heap k) (kh_heap k') /\
    (r <> 0 -> forall old i, live !! p = Some old -> 0 <= i < old -> i < n -> h_mem (kh_heap k') !! (r + i) = h_mem (kh_heap k) !! (p + i)).
Proof.
  intros K Hp Hn. pose proof (live_nonzero k live K) as H0.
  destruct (deal_with_pending_run k live K) as (k1 & E1 & K1 & D1 & U1). unfold realloc. rewrite E1. cbn [mbind option_bind].
  unfold miniheap_realloc. cbn [heap_after]. destruct (Z.eqb_spec p 0) as [->|Hp0].
  { destruct (alloc_step n 0 k1 live K1 D1 Hn) as (r & h' & s' & E & K' & U & _); [lia|]. rewrite E, D1. cbn [mbind option_bind].
    eexists _, _. split; [done|]. split_and!; [done|eapply stays_undisturbed; [etransitivity; [exact U1|exact U]|done]|congruence]. }
  destruct Hp as [|Hp]; [done|]. destruct (Z.eqb_spec n 0) as [->|Hn0].
  { destruct (free_step p k1 live K1 Hp) as (h' & E & K' & U). rewrite E. cbn [mbind option_bind]. rewrite D1 in *.
    eexists _, _. split; [done|]. split_and!; [done| |done]. eapply stays_undisturbed; [etransitivity; [|exact U]|done].
    intros q size Hq. apply U1. by apply lookup_delete_Some in Hq as [_ Hq]. }
  destruct Hp as [old Hp]. pose proof K1 as [HP Hl Hnd Hd]. destruct (Hl p old Hp) as [(_ & a & Ha & Hold & Hae) _].
  destruct (miniheap_realloc_run free_list_addr p a n (kh_heap k1) (kh_pages k1) HP Ha) as (r & h' & s' & E & HP' & Hc); [lia|].
  unfold miniheap_realloc in E. rewrite (proj2 (Z.eqb_neq p 0)), (proj2 (Z.eqb_neq n 0)) in E by done. rewrite E. cbn [mbind option_bind].
  rewrite D1. eexists _, _. split; [done|]. cbn [kh_heap]. destruct Hc as [[-> [-> _]]|[Hr [b M]]].
  - rewrite Z.eqb_refl. split_and!; [|by eapply stays_undisturbed|done]. split; cbn; [done| |constructor|set_solver].
    intros q size Hq. split; [by apply Hl|set_solver].
  - rewrite (proj2 (Z.eqb_neq r 0)) by done. 
    destruct (realloc_moved p r n old a b k k1 live h' s') as (? & ? & ?); [done..|lia|done|]. done.
Qed.

(** What the caller learns from the result. *)
Definition heap_result (c : heap_call) (r : Z) (live : holding) (h h' : heap) : Prop :=
  r <> 0 ->
  match c with
  | HMemalign boundary _ => 0 < boundary -> r mod boundary = 0
  | HCalloc count size => forall i, 0 <= i < count * size -> h_mem h' !! (r + i) = Some 0
  | HRealloc ptr size => forall old i, live !! ptr = Some old -> 0 <= i < old -> i < size -> h_mem h' !! (r + i) = h_mem h !! (ptr + i)
  | _ => True
  end.

Lemma heap_step c k live :
  kheap_ok k live -> heap_allowed c live ->
  exists r k', run_heap_call c k = Some (r, k') /\ kheap_ok k' (heap_after c r live) /\
    stays live (heap_after c r live) (kh_heap k) (kh_heap k') /\ heap_result c r live (kh_heap k) (kh_heap k').
Proof.
  intros K Hc. destruct c as [size|count size|b size|p size|p|p|]; cbn [run_heap_call heap_allowed heap_after] in *; unfold heap_result.
  - rewrite malloc_memalign. destruct (memalign_step 0 size k live K) as (r & k' & E & K' & U & _); [lia|done|].
    exists r, k'. split_and!; [done..|by eapply stays_undisturbed|done].
  - destruct (calloc_step count size k live K Hc) as (r & k' & E & K' & U & Hz).
    exists r, k'. split_and!; [done..|by eapply stays_undisturbed|done].
  - destruct Hc as [Hb Hs]. destruct (memalign_step b size k live K Hb Hs) as (r & k' & E & K' & U & Hm).
    exists r, k'. split_and!; [done..|by eapply stays_undisturbed|done].
  - destruct Hc as [Hp Hs]. destruct (realloc_step p size k live K Hp Hs) as (r & k' & ? & ? & ? & ?). exists r, k'. done.
  - unfold free. destruct Hc as [->|Hp].
    + cbn. pose proof (live_nonzero k live K) as H0. destruct k as [h d s]. eexists _, _. split; [done|].
      rewrite delete_id by done. split_and!; [done|by eapply stays_undisturbed|done].
    + destruct (free_step p k live K Hp) as (h' & -> & K' & U). cbn. eexists _, _. split_and!; [done..|by eapply stays_undisturbed|done].
  - destruct Hc as (size & Hp & Hs). destruct (delayed_free_step p size k live K Hp Hs) as (k' & -> & K' & U). cbn.
    eexists _, _. split_and!; [done..|by eapply stays_undisturbed|done].
  - destruct (trim_step k live K) as (k' & -> & K' & U). cbn. eexists _, _. split_and!; [done..|by eapply stays_undisturbed|done].
Qed.

(** ** Runs of a client *)
Inductive heap_reach (k0 : kheap P) : kheap P -> holding -> Prop :=
  | reach_init : heap_reach k0 k0 ∅
  | reach_call c r k k' live :
      heap_reach k0 k live -> heap_allowed c live -> run_heap_call c k = Some (r, k') -> heap_reach k0 k' (heap_after c r live).

Lemma heap_reach_ok k0 k live : kheap_ok k0 ∅ -> heap_reach k0 k live -> kheap_ok k live.
Proof.
  intros K0. induction 1 as [|c r k k' live Hk IH Hc E]; [done|].
  destruct (heap_step c k live IH Hc) as (r1 & k1 & E1 & K1 & _). by simplify_eq.
Qed.

Lemma holding_apart k live p q n m :
  kheap_ok k live -> live !! p = Some n -> live !! q = Some m -> p <> q -> p + n <= q \/ q + m <= p.
Proof.
  intros [HP Hl _ _] Hp Hq Hne. destruct (Hl p n Hp) as [(_ & a & Ha & ? & Hae) _], (Hl q m Hq) as [(_ & b & Hb & ? & Hbe) _].
  pose proof (hw_blocks _ _ (hp_wf _ _ _ HP)) as [Hbe' Hba]. destruct (Hbe' p a Ha) as [_ _ Hpp], (Hbe' q b Hb) as [_ _ Hqp].
  pose proof hdr_range as [? _]. specialize (Hba p q a b Hne Ha Hb). unfold apart in Hba. cbn in *. lia.
Qed.

(** ** The first page *)
Lemma miniheap_init_run p n h s :
  0 < n < 2 ^ 31 -> pa_inv s -> 0 < p -> p mod PAGE_SIZE = 0 -> p + n * PAGE_SIZE <= 2 ^ 64 - 4096 ->
  (forall x, p <= x < p + n * PAGE_SIZE -> pa_given s x) -> ~ p <= free_list_addr - 1 < p + n * PAGE_SIZE -> ~ pa_free s (free_list_addr - 1) ->
  exists h', miniheap_init free_list_addr p (n * PAGE_SIZE) h = Some h' /\ kheap_ok (KHeap h' [] s) ∅.
Proof.
  intros Hn I Hp Hp8 He Hg Hself Hf. unfold miniheap_init.
  assert (p mod 8 = 0) as Hm by (by apply page_mod8).
  rewrite (proj2 (Z.ltb_ge 0 (p mod sizeof_ptr))) by (unfold sizeof_ptr; lia). cbn [mbind option_bind].
  rewrite (proj2 (Z.ltb_lt 0 (n * PAGE_SIZE))) by (unfold PAGE_SIZE; lia).
  assert (chunk_ok (Chunk p (n * PAGE_SIZE))) as Hc.
  { split; unfold ch_end, PAGE_SIZE in *; cbn; [done|split; [lia|Z.div_mod_to_equations; lia]|lia]. }
  rewrite create_chunk_run by done. cbn [mbind option_bind]. set (h0 := set_h_mem _ _).
  assert (forall x, ~ owned h0 x) as Ho.
  { intros x [[]%free_at_nil|(q & a & Hq & _)]. unfold h0 in Hq. cbn in Hq. by rewrite lookup_empty in Hq. }
  destruct (heap_insert_run free_list_addr (Chunk p (n * PAGE_SIZE)) h0) as (r & h' & E & W & Eh & Hx).
  - split; unfold h0; hcbn; [apply coalesced_nil|split; intros; by rewrite lookup_empty in *|by intros x []%free_at_nil|done|apply Ho].
  - done.
  - intros x _. apply Ho.
  - unfold inside, ch_end. cbn. lia.
  - rewrite E. cbn [mbind option_bind]. exists h'. split; [done|]. split; cbn; [|by intros ? ? []%lookup_empty_Some|constructor|set_solver].
    split; [done|done| |done]. intros x [Hf'|(q & a & Hq & _)].
    + apply Hx in Hf' as [[]%free_at_nil|Hi]. apply Hg. unfold inside, ch_end in Hi. cbn in Hi. lia.
    + rewrite Eh in Hq. cbn in Hq. by rewrite lookup_empty in Hq.
Qed.

Lemma heap_init_run k :
  pa_inv (kh_pages k) -> kh_delayed k = [] -> ~ pa_free (kh_pages k) (free_list_addr - 1) ->
  (forall p s', page_alloc 1 (kh_pages k) = Some (p, s') -> p <> 0) ->
  exists k', heap_init free_list_addr k = Some k' /\ kheap_ok k' ∅.
Proof.
  intros I Ed Hself Hsome. unfold heap_init, page_first_alloc.
  destruct (page_alloc_law 1 (kh_pages k) I) as (p & s' & E & I' & Hc); [lia|]. rewrite E. cbn [mbind option_bind].
  destruct Hc as [[-> _]|(_ & Hp & Hp8 & He & Hx)]; [by destruct (Hsome 0 s' E)|].
  destruct (miniheap_init_run p 1 (kh_heap k) s') as (h' & E' & K'); try done.
  - intros x Hr. apply (Hx x). by right.
  - intros Hr. apply Hself. by apply (proj1 (Hx _)).
  - intros Hf. apply (proj1 (proj2 (Hx _))) in Hf. apply Hself, Hf.
  - change (1 * PAGE_SIZE) with PAGE_SIZE in E'. rewrite E'. cbn. eexists. split; [done|]. by rewrite Ed.
Qed.
End sys.
