(* ===== verification/HeapPages.v ===== *)
(** * The pages of the heap: [lib/heap/page_alloc.c] over the physical memory manager

    The page allocator the heap uses hands out pages of the physical memory
    manager at their kernel addresses.  With the arenas mapped at a fixed offset
    it satisfies the laws the heap relies on. *)
From S2P Require Import Prelude Align KState Pmm PmmInv Heap HeapInv HeapOps.

Section pages.
Context `{KConfig}.
(** [paddr_to_kvaddr] and [vaddr_to_paddr] of [kernel/vm/vm.c] *)
Context (paddr_to_kvaddr vaddr_to_paddr : Z -> Z).

(** The number of pages is passed on as a [uint]. *)
Definition pmm_page_alloc (pages : Z) (arenas : list pmm_arena) : option (Z * list pmm_arena) :=
  '(result, arenas, _) ← pmm_alloc_kpages paddr_to_kvaddr arenas (u32 pages) None;
  Some (result, arenas).
Definition pmm_page_free (ptr pages : Z) (arenas : list pmm_arena) : option (list pmm_arena) :=
  dassert (IS_PAGE_ALIGNED ptr);;
  '(_, arenas) ← pmm_free_kpages vaddr_to_paddr arenas ptr (u32 pages);
  Some arenas.

#[local] Instance pmm_page_allocator : PageAllocator (list pmm_arena) :=
  {| page_alloc := pmm_page_alloc; page_free := pmm_page_free |}.

(** ** Pages at kernel addresses *)
Context (koff : Z).   (* the kernel address of physical address 0 *)

Definition on_page (arenas : list pmm_arena) (p x : Z) : Prop :=
  vm_page_to_paddr arenas p + koff <= x < vm_page_to_paddr arenas p + koff + PAGE_SIZE.
Definition page_free_at (arenas : list pmm_arena) (x : Z) : Prop :=
  exists p, p ∈ free_pages arenas /\ on_page arenas p x.
Definition page_given_at (arenas : list pmm_arena) (x : Z) : Prop :=
  exists p, page_known arenas p /\ p ∉ free_pages arenas /\ on_page arenas p x.

(** The kernel maps every arena at the offset, in a window of [2 ^ 43] bytes. *)
Definition mapped (lo : Z) (l : Z * Z * Z * Z * Z) : Prop :=
  let '(_, _, base, size, _) := l in
  size / PAGE_SIZE < 2 ^ 31 /\ 0 < base + koff /\ base + size + koff <= 2 ^ 64 - 4096 /\ lo <= base /\ base + size <= lo + 2 ^ 43 /\
  forall pa, base <= pa < base + size -> paddr_to_kvaddr pa = pa + koff /\ vaddr_to_paddr (pa + koff) = pa.
Record kernel_arenas (arenas : list pmm_arena) : Prop := {
  ka_wf : pmm_wf arenas;
  ka_koff : koff mod PAGE_SIZE = 0;
  ka_map : exists lo, Forall (mapped lo) (layout <$> arenas);
}.

Lemma kernel_arenas_layout arenas arenas' :
  kernel_arenas arenas -> pmm_wf arenas' -> same_layout arenas arenas' -> kernel_arenas arenas'.
Proof. intros [_ Hk Hm] W L. split; [done|done|]. by rewrite L. Qed.

Lemma page_paddr_layout arenas arenas' p : same_layout arenas arenas' -> vm_page_to_paddr arenas' p = vm_page_to_paddr arenas p.
Proof.
  revert arenas'. induction arenas as [|a l IH]; intros [|a' l'] L; try done. unfold same_layout in L. rewrite !fmap_cons in L.
  assert (layout a' = layout a /\ same_layout l l') as [Ea El] by (split; [|unfold same_layout]; congruence).
  cbn. rewrite (IH l' El). unfold layout in Ea. unfold PAGE_BELONGS_TO_ARENA, PAGE_ADDRESS_FROM_ARENA, page_index.
  by replace (ar_page_array a') with (ar_page_array a) by congruence; replace (ar_size a') with (ar_size a) by congruence;
    replace (ar_base a') with (ar_base a) by congruence.
Qed.

Lemma on_page_layout arenas arenas' p x : same_layout arenas arenas' -> on_page arenas' p x <-> on_page arenas p x.
Proof. intros L. unfold on_page. by rewrite (page_paddr_layout arenas arenas'). Qed.

(** A known page, where it is. *)
Lemma known_page arenas p :
  kernel_arenas arenas -> page_known arenas p ->
  let pa := vm_page_to_paddr arenas p in
  pa mod PAGE_SIZE = 0 /\ 0 < pa + koff /\ pa + koff + PAGE_SIZE <= 2 ^ 64 - 4096 /\
  forall off, 0 <= off < PAGE_SIZE ->
    paddr_to_kvaddr (pa + off) = pa + off + koff /\ vaddr_to_paddr (pa + off + koff) = pa + off /\ paddr_to_vm_page arenas (pa + off) = p.
Proof.
  intros [W Hk [lo Hm]] Hp. destruct (page_of_address arenas p W Hp) as [Ha Hpp].
  destruct (page_to_paddr_run arenas p W Hp) as (a & i & Hin & Hi & _ & E). cbv zeta. rewrite E in *.
  pose proof (proj1 (Forall_forall _ _) (pw_each _ W) a Hin) as Wa. pose proof (aw_size _ Wa) as [? ?].
  apply (Forall_forall _ _) with (x := layout a) in Hm; [|by apply list_elem_of_fmap_2].
  destruct Hm as (_ & Hlo & Hhi & _ & _ & Hmap).
  assert (i * PAGE_SIZE + PAGE_SIZE <= ar_size a) by (unfold npages, PAGE_SIZE in *; Z.div_mod_to_equations; lia).
  split_and!; [done|unfold PAGE_SIZE in *; lia|lia|]. intros off Hoff.
  destruct (Hmap (ar_base a + i * PAGE_SIZE + off)) as [E1 E2]; [unfold PAGE_SIZE in *; lia|]. split_and!; [done..|by apply Hpp].
Qed.

Lemma on_page_inj arenas p q x :
  kernel_arenas arenas -> page_known arenas p -> page_known arenas q -> on_page arenas p x -> on_page arenas q x -> p = q.
Proof.
  intros K Hp Hq Hx Hy. destruct (known_page arenas p K Hp) as (_ & _ & _ & Hpp), (known_page arenas q K Hq) as (_ & _ & _ & Hqq).
  unfold on_page in *. destruct (Hpp (x - koff - vm_page_to_paddr arenas p)) as (_ & _ & E1); [lia|].
  destruct (Hqq (x - koff - vm_page_to_paddr arenas q)) as (_ & _ & E2); [lia|]. rewrite <- E1, <- E2. f_equal. lia.
Qed.

(** Pages that change hands: [pages] are those at [lo], [lo + n). *)
Lemma pages_taken arenas arenas' pages lo hi :
  kernel_arenas arenas -> pmm_wf arenas' -> same_layout arenas arenas' -> free_pages arenas ≡ₚ pages ++ free_pages arenas' ->
  (forall x, (exists p, p ∈ pages /\ on_page arenas p x) <-> lo <= x < hi) ->
  forall x, (lo <= x < hi -> page_free_at arenas x) /\
    (page_free_at arenas' x <-> page_free_at arenas x /\ ~ lo <= x < hi) /\
    (page_given_at arenas' x <-> page_given_at arenas x \/ lo <= x < hi).
Proof.
  intros K W' L HP Hr x. pose proof (free_pages_nodup _ (ka_wf _ K)) as Hnd. rewrite HP in Hnd. apply NoDup_app in Hnd as (_ & Hdis & _).
  assert (forall p, p ∈ free_pages arenas <-> p ∈ pages \/ p ∈ free_pages arenas') as Hin by (intros p; by rewrite HP, elem_of_app).
  assert (forall p, p ∈ free_pages arenas -> page_known arenas p) as Hkn.
  { intros p. apply free_pages_known, (pw_each _ (ka_wf _ K)). }
  assert (forall p q, p ∈ free_pages arenas -> on_page arenas p x -> page_known arenas q -> on_page arenas q x -> q = p) as Hinj.
  { intros p q Hp Hpx Hq Hqx. eapply on_page_inj; eauto. }
  split_and!.
  - intros (p & Hp & Hpx)%Hr. exists p. split; [apply Hin; by left|done].
  - split.
    + intros (p & Hp & Hpx). apply (on_page_layout arenas arenas') in Hpx; [|done]. assert (p ∈ free_pages arenas) as Hpf by (apply Hin; by right).
      split; [by exists p|]. intros (q & Hq & Hqx)%Hr.
      assert (q = p) as -> by (eapply Hinj; eauto; apply Hkn, Hin; by left). by apply (Hdis p).
    + intros [(p & Hp & Hpx) Hno]. exists p. apply Hin in Hp as [Hp|Hp]; [destruct Hno; apply Hr; by exists p|].
      split; [done|]. by apply (on_page_layout arenas arenas').
  - split.
    + intros (p & Hk & Hp & Hpx). apply (on_page_layout arenas arenas') in Hpx; [|done].
      assert (page_known arenas p) as Hk' by (eapply page_known_layout; [|done]; by symmetry).
      destruct (decide (p ∈ pages)) as [Hpp|Hpp]; [right; apply Hr; by exists p|left]. exists p. split_and!; [done| |done].
      intros [|]%Hin; done.
    + intros [(p & Hk & Hp & Hpx)|(p & Hp & Hpx)%Hr]; exists p.
      * split_and!; [by eapply page_known_layout| |by apply (on_page_layout arenas arenas')]. intros Hp'. apply Hp, Hin. by right.
      * split_and!; [eapply page_known_layout; [done|]; apply Hkn, Hin; by left| |by apply (on_page_layout arenas arenas')]. by apply Hdis.
Qed.

Lemma run_pages_range arenas a s count x :
  kernel_arenas arenas -> a ∈ arenas -> 0 <= s -> 0 < count -> s + count <= npages a ->
  (exists p, p ∈ run_pages a s count /\ on_page arenas p x) <->
  ar_base a + s * PAGE_SIZE + koff <= x < ar_base a + s * PAGE_SIZE + koff + count * PAGE_SIZE.
Proof.
  intros K Ha Hs Hc He. pose proof (ka_wf _ K) as W. pose proof (proj1 (Forall_forall _ _) (pw_each _ W) a Ha) as Wa.
  pose proof (fun i => page_ptr_paddr arenas a i W Ha) as Hpa. unfold run_pages, on_page. split.
  - intros (p & Hp & Hx). apply list_elem_of_fmap in Hp as (k & -> & Hk). apply elem_of_seq in Hk. rewrite Hpa in Hx by lia. unfold PAGE_SIZE in *. lia.
  - intros Hx. set (k := (x - (ar_base a + s * PAGE_SIZE + koff)) / PAGE_SIZE).
    assert (0 <= k < count /\ k * PAGE_SIZE <= x - (ar_base a + s * PAGE_SIZE + koff) < k * PAGE_SIZE + PAGE_SIZE) as [Hk Hkx].
    { unfold k, PAGE_SIZE in *. Z.div_mod_to_equations. lia. }
    exists (page_ptr a (s + k)). split.
    + apply list_elem_of_fmap. exists (Z.to_nat k). split; [f_equal; lia|]. apply elem_of_seq. lia.
    + rewrite Hpa by lia. unfold PAGE_SIZE in *. lia.
Qed.

(** ** The laws *)
Lemma nothing_taken arenas arenas' :
  kernel_arenas arenas -> pmm_wf arenas' -> same_layout arenas arenas' -> free_pages arenas ≡ₚ free_pages arenas' ->
  forall x, (page_free_at arenas' x <-> page_free_at arenas x) /\ (page_given_at arenas' x <-> page_given_at arenas x).
Proof.
  intros K W' L HP x. destruct (pages_taken arenas arenas' [] 0 0 K W' L HP) with (x := x) as (_ & H1 & H2).
  - intros y. split; [intros (p & []%elem_of_nil & _)|lia].
  - rewrite H1, H2. split; [intuition lia|]. intuition lia.
Qed.

(** What an allocation of [n] pages does to the arenas when it gives out [p]. *)
Definition pages_given (n p : Z) (arenas arenas' : list pmm_arena) : Prop :=
  0 < n /\ 0 < p /\ p mod PAGE_SIZE = 0 /\ p + n * PAGE_SIZE <= 2 ^ 64 - 4096 /\
  forall x, (p <= x < p + n * PAGE_SIZE -> page_free_at arenas x) /\
    (page_free_at arenas' x <-> page_free_at arenas x /\ ~ p <= x < p + n * PAGE_SIZE) /\
    (page_given_at arenas' x <-> page_given_at arenas x \/ p <= x < p + n * PAGE_SIZE).

Lemma alloc_one_page arenas :
  kernel_arenas arenas ->
  exists p arenas', pmm_page_alloc 1 arenas = Some (p, arenas') /\ kernel_arenas arenas' /\
    ((p = 0 /\ forall x, (page_free_at arenas' x <-> page_free_at arenas x) /\ (page_given_at arenas' x <-> page_given_at arenas x)) \/
     pages_given 1 p arenas arenas').
Proof.
  intros K. pose proof (ka_wf _ K) as W. unfold pmm_page_alloc, pmm_alloc_kpages, pmm_alloc_page. cbn [Z.eqb].
  change (u32 1 =? 1) with true. cbn match.
  destruct (pmm_alloc_pages_run arenas 1 [] W) as (arenas' & E & W' & L & F); [lia|]. rewrite E. cbn [mbind option_bind].
  change (Z.to_nat 1) with 1%nat in *. destruct (free_pages arenas) as [|p rest] eqn:Ef.
  - cbn. exists 0, arenas'. split; [done|]. split; [by eapply kernel_arenas_layout|]. left. split; [done|].
    apply nothing_taken; [done..|]. by rewrite F, Ef.
  - cbn in E, F |- *. assert (page_known arenas p) as Hk by (apply free_pages_known; [apply W|rewrite Ef; left]).
    destruct (known_page arenas p K Hk) as (Ha & Hlo & Hhi & Hpp).
    assert (p <> 0) as Hp0.
    { apply Exists_exists in Hk as (a & Hin & i & Hi & ->). pose proof (aw_array _ (proj1 (Forall_forall _ _) (pw_each _ W) a Hin)).
      unfold page_ptr, sizeof_vm_page. lia. }
    change (Z.of_nat 1) with 1. cbn [Z.eqb Pos.eqb oguard mbind option_bind]. rewrite (proj2 (Z.eqb_neq p 0)) by done. rewrite (page_paddr_layout arenas arenas') by done.
    destruct (Hpp 0) as (Ekv & _); [unfold PAGE_SIZE; lia|]. rewrite !Z.add_0_r in Ekv. rewrite Ekv.
    eexists _, arenas'. split; [done|]. split; [by eapply kernel_arenas_layout|]. right. split_and!; [lia|lia| |lia|].
    + pose proof (ka_koff _ K). unfold PAGE_SIZE in *. Z.div_mod_to_equations. lia.
    + apply (pages_taken arenas arenas' [p]); [done..| |].
      * by rewrite Ef, F, drop_0.
      * intros x. unfold on_page. split; [intros (q & ->%list_elem_of_singleton & Hx); lia|]. intros Hx. exists p. split; [left|lia].
Qed.

Lemma page_alloc_run n arenas :
  kernel_arenas arenas -> 0 <= n < 2 ^ 31 ->
  exists p arenas', pmm_page_alloc n arenas = Some (p, arenas') /\ kernel_arenas arenas' /\
    ((p = 0 /\ forall x, (page_free_at arenas' x <-> page_free_at arenas x) /\ (page_given_at arenas' x <-> page_given_at arenas x)) \/
     pages_given n p arenas arenas').
Proof.
  intros K Hn. pose proof (ka_wf _ K) as W. destruct (decide (n = 1)) as [->|Hn1]; [by apply alloc_one_page|].
  unfold pmm_page_alloc, pmm_alloc_kpages. rewrite (wrap_small 32) by lia. rewrite (proj2 (Z.eqb_neq n 1)) by done.
  unfold pmm_alloc_contiguous. destruct (Z.eqb_spec n 0) as [->|Hn0]; [exists 0, arenas; split_and!; [done..|by left]|].
  change (if PAGE_SIZE_SHIFT <? PAGE_SIZE_SHIFT then PAGE_SIZE_SHIFT else PAGE_SIZE_SHIFT) with 12.
  destruct (contiguous_walk_run arenas n 12 (pw_each _ W)) as (r & E & Hr); [|lia|lia|].
  { destruct K as [_ _ [lo Hm]]. rewrite Forall_fmap in Hm. eapply Forall_impl; [exact Hm|]. intros a (Hs & _). exact Hs. }
  rewrite E. cbn [mbind option_bind]. destruct r as [[[arenas' pages] pa]|]; [|exists 0, arenas; split_and!; [done..|by left]].
  destruct (contiguous_done_wf _ _ _ _ _ _ W Hr) as (W' & L & HP).
  destruct Hr as (l1 & a & a' & l2 & El & _ & _ & s & [Hs He Hal _] & _ & -> & -> & _).
  assert (a ∈ arenas) as Ha by (rewrite El; set_solver). cbn [mbind option_bind default]. rewrite (proj2 (Z.eqb_neq n 0)) by done.
  assert (page_known arenas (page_ptr a s)) as Hk by (apply Exists_exists; exists a; split; [done|]; exists s; split; [lia|done]).
  assert (page_known arenas (page_ptr a (s + n - 1))) as Hk2 by (apply Exists_exists; exists a; split; [done|]; exists (s + n - 1); split; [lia|done]).
  destruct (known_page arenas _ K Hk) as (Hm & Hlo & _ & Hpp). destruct (known_page arenas _ K Hk2) as (_ & _ & Hhi & _).
  rewrite (page_ptr_paddr arenas a s W Ha) in * by lia. rewrite (page_ptr_paddr arenas a (s + n - 1) W Ha) in Hhi by lia.
  destruct (Hpp 0) as (Ekv & _); [unfold PAGE_SIZE; lia|]. rewrite !Z.add_0_r in Ekv. cbn. rewrite Ekv.
  eexists _, arenas'. split; [done|]. split; [by eapply kernel_arenas_layout|]. right. split_and!; [lia|lia| |unfold PAGE_SIZE in *; lia|].
  - pose proof (ka_koff _ K). unfold PAGE_SIZE in *. Z.div_mod_to_equations. lia.
  - eapply pages_taken; [done..|]. intros x. apply run_pages_range; [done..|lia|done].
Qed.

(** The page structures found from kernel addresses. *)
Lemma kpages_list_run n ptr arenas :
  kernel_arenas arenas -> ptr mod PAGE_SIZE = 0 -> (forall x, ptr <= x < ptr + Z.of_nat n * PAGE_SIZE -> page_given_at arenas x) ->
  let l := kpages_list vaddr_to_paddr arenas n ptr in
  (forall p, p ∈ l -> page_known arenas p /\ p ∉ free_pages arenas) /\ NoDup l /\
  (forall x, (exists p, p ∈ l /\ on_page arenas p x) <-> ptr <= x < ptr + Z.of_nat n * PAGE_SIZE).
Proof.
  intros K. revert ptr. induction n as [|n IH]; intros ptr Hp8 Hg; cbn [kpages_list].
  { split_and!; [set_solver|constructor|]. intros x. split; [intros (p & []%elem_of_nil & _)|lia]. }
  destruct (Hg ptr) as (p & Hk & Hnf & Hx); [unfold PAGE_SIZE; lia|].
  destruct (known_page arenas p K Hk) as (Ha & Hlo & Hhi & Hpp). pose proof (ka_koff _ K) as Hko. pose proof (ka_wf _ K) as W.
  assert (ptr = vm_page_to_paddr arenas p + koff) as Ep by (unfold on_page, PAGE_SIZE in *; Z.div_mod_to_equations; lia).
  destruct (Hpp 0) as (_ & Evp & Epg); [unfold PAGE_SIZE; lia|]. rewrite !Z.add_0_r in Evp, Epg.
  assert (p <> 0) as Hp0.
  { apply Exists_exists in Hk as (a & Hin & i & Hi & ->). pose proof (aw_array _ (proj1 (Forall_forall _ _) (pw_each _ W) a Hin)).
    unfold page_ptr, sizeof_vm_page. lia. }
  rewrite Ep, Evp, Epg, <- Ep, (proj2 (Z.eqb_neq p 0)), (wrap_small 64) by (done || unfold PAGE_SIZE in *; lia). cbn [app].
  destruct (IH (ptr + PAGE_SIZE)) as (Hl & Hnd & Hr).
  { unfold PAGE_SIZE in *. Z.div_mod_to_equations. lia. }
  { intros x Hx'. apply Hg. unfold PAGE_SIZE in *. lia. }
  set (l := kpages_list _ _ _ _) in *. split_and!.
  - intros q [->|Hq]%elem_of_cons; [done|by apply Hl].
  - constructor; [|done]. intros Hin. destruct (proj1 (Hr ptr)) as [? ?]; [by exists p|unfold PAGE_SIZE in *; lia].
  - intros x. split.
    + intros (q & [->|Hq]%elem_of_cons & Hqx); [unfold on_page, PAGE_SIZE in *; lia|].
      pose proof (proj1 (Hr x) (ex_intro _ q (conj Hq Hqx))). unfold PAGE_SIZE in *. lia.
    + intros Hx'. destruct (decide (x < ptr + PAGE_SIZE)).
      * exists p. split; [left|]. unfold on_page. lia.
      * destruct (proj2 (Hr x)) as (q & Hq & Hqx); [unfold PAGE_SIZE in *; lia|]. exists q. split; [by right|done].
Qed.

Lemma given_window arenas :
  kernel_arenas arenas -> exists lo, forall x, page_given_at arenas x -> lo <= x < lo + 2 ^ 43.
Proof.
  intros K. pose proof K as [W _ [lo Hm]]. exists (lo + koff). intros x (p & Hk & _ & Hx). unfold on_page in Hx.
  destruct (page_to_paddr_run arenas p W Hk) as (a & i & Hin & Hi & _ & E). rewrite E in Hx.
  pose proof (proj1 (Forall_forall _ _) (pw_each _ W) a Hin) as Wa. pose proof (aw_size _ Wa) as [? ?].
  apply (Forall_forall _ _) with (x := layout a) in Hm; [|by apply list_elem_of_fmap_2]. destruct Hm as (_ & _ & _ & ? & ? & _).
  unfold npages, PAGE_SIZE in *. Z.div_mod_to_equations. lia.
Qed.

Lemma page_free_run ptr n arenas :
  kernel_arenas arenas -> 0 < n -> ptr mod PAGE_SIZE = 0 -> (forall x, ptr <= x < ptr + n * PAGE_SIZE -> page_given_at arenas x) ->
  exists arenas', pmm_page_free ptr n arenas = Some arenas' /\ kernel_arenas arenas' /\
    forall x, (page_free_at arenas' x <-> page_free_at arenas x \/ ptr <= x < ptr + n * PAGE_SIZE) /\
      (page_given_at arenas' x <-> page_given_at arenas x /\ ~ ptr <= x < ptr + n * PAGE_SIZE).
Proof.
  intros K Hn Hp Hg. unfold pmm_page_free. rewrite dassert_true by (rewrite IS_PAGE_ALIGNED_mod; by apply Z.eqb_eq). cbn [mbind option_bind].
  assert (n < 2 ^ 32) as Hn32.
  { destruct (given_window arenas K) as [lo Hlo]. pose proof (Hlo ptr (Hg ptr ltac:(unfold PAGE_SIZE; lia))).
    pose proof (Hlo (ptr + n * PAGE_SIZE - 1) (Hg (ptr + n * PAGE_SIZE - 1) ltac:(unfold PAGE_SIZE; lia))). unfold PAGE_SIZE in *. lia. }
  rewrite (wrap_small 32) by lia. unfold pmm_free_kpages.
  destruct (kpages_list_run (Z.to_nat n) ptr arenas K Hp) as (Hl & Hnd & Hr); [by rewrite Z2Nat.id by lia|]. rewrite Z2Nat.id in Hr by lia.
  set (l := kpages_list _ _ _ _) in *.
  destruct (pmm_free_run arenas l (ka_wf _ K) Hnd) as (arenas' & E & W' & L & HP).
  { apply Forall_forall. intros p Hp'. by apply Hl. }
  { intros p Hp'. by apply Hl. }
  rewrite E. cbn [mbind option_bind]. exists arenas'. split; [done|]. pose proof (kernel_arenas_layout _ _ K W' L) as K'. split; [done|].
  assert (same_layout arenas' arenas) as L' by (by symmetry).
  intros x. destruct (pages_taken arenas' arenas l ptr (ptr + n * PAGE_SIZE) K' (ka_wf _ K) L' HP) with (x := x) as (H1 & H2 & H3).
  { intros y. rewrite <- Hr. split; intros (p & Hp' & Hy); exists p; (split; [done|]); by apply (on_page_layout arenas arenas'). }
  destruct (decide (ptr <= x < ptr + n * PAGE_SIZE)) as [Hx|Hx].
  - specialize (Hg x Hx). split; [split; [by right|by intros _; apply H1]|]. split; [|tauto].
    intros (p & Hk & Hpf & Hpx). destruct (H1 Hx) as (q & Hq & Hqx).
    assert (p = q) as -> by (eapply on_page_inj; [exact K'|done|apply free_pages_known; [apply W'|done]|done|done]). done.
  - rewrite H2, H3. tauto.
Qed.

#[local] Instance pmm_page_allocator_laws : PageAllocatorLaws (list pmm_arena).
Proof using All.
  refine {| pa_inv := kernel_arenas; pa_free := page_free_at; pa_given := page_given_at |}.
  - intros s x K (p & Hp & Hpx) (q & Hk & Hq & Hqx). apply Hq.
    assert (q = p) as ->; [|done]. eapply on_page_inj; [exact K|done|apply free_pages_known; [apply (ka_wf _ K)|done]|done|done].
  - intros n s K Hn. exact (page_alloc_run n s K Hn).
  - intros p n s K Hn Hp Hg. exact (page_free_run p n s K Hn Hp Hg).
Defined.
End pages.
