(* ===== verification/HeapClaims.v ===== *)
(** * The heap's contracts

    The properties of the miniheap, of the kernel's interface to it and of the
    page allocator below, each with an example: a heap on an arena of eight
    pages. *)
From stdpp Require Import sorting.
From S2P Require Import Prelude Align KState Pmm PmmInv Heap HeapInv HeapOps HeapSys HeapPages.

Section claims.
Context `{KConfig} (free_list_addr : Z) {P : Type} `{!PageAllocator P} `{!PageAllocatorLaws P}.



(** [miniheap_free] undoes an allocation.  The bytes of the block are free
    again and merged with their neighbours: when the block was taken from a free
    chunk, the free list and its length are what they were before the
    allocation. *)
Theorem miniheap_free_undoes n sz al p h h' :
  heap_wf free_list_addr h -> 0 <= n -> align_ok al -> 24 <= sz < 2 ^ 63 -> sz mod 8 = 0 -> sizeof_alloc_struct_begin + n + al <= sz ->
  alloc_locked sz al h = Some (p, h') -> p <> 0 ->
  exists h'', miniheap_free free_list_addr p h' = Some h'' /\
    h_free_list h'' = h_free_list h /\ h_as h'' = h_as h /\ h_remaining h'' = h_remaining h.
Proof.
  intros W Hn Hal Hsz Hsz8 Hfit E Hp.
  destruct (alloc_locked_run free_list_addr n sz al h W Hn Hal Hsz Hsz8 Hfit) as [(q & a & h1 & E1 & _ & W' & A)|[E1 _]]; [|congruence].
  assert (q = p /\ h1 = h') as [-> ->] by (split; congruence).
  destruct (miniheap_free_run free_list_addr p a h' W') as (h'' & E2 & W'' & F).
  { by rewrite (al_as _ _ _ _ _ _ A), lookup_insert_eq. }
  assert (h_free_list h'' = h_free_list h) as El.
  { apply coalesced_ext; [apply W''|apply W|]. intros x. rewrite (fd_free _ _ _ _ F), (al_free _ _ _ _ _ _ A).
    pose proof (al_from _ _ _ _ _ _ A x). destruct (decide (as_ptr a <= x < as_ptr a + as_size a)) as [Hi|Hi].
    - assert (inside (extent a) x) by done. tauto.
    - assert (~ inside (extent a) x) by done. tauto. }
  exists h''. split_and!; [done..| |].
  - rewrite (fd_as _ _ _ _ F), (al_as _ _ _ _ _ _ A). apply delete_insert_id, A.
  - by rewrite (hw_remaining _ _ W''), El, (hw_remaining _ _ W).
Qed.

(** [miniheap_trim] gives back exactly whole free pages.  It faults nowhere,
    ends, and touches no block; the bytes that leave the free list are those the
    page allocator gets, and they include every page of a free chunk that leaves
    nothing, or enough for a chunk, on either side. *)
Theorem miniheap_trim_correct h (s : P) :
  heap_pages free_list_addr h s ->
  exists h' s', miniheap_trim h s = Some (h', s') /\ heap_pages free_list_addr h' s' /\ h_as h' = h_as h /\
    let gone x := free_at (h_free_list h) x /\ ~ free_at (h_free_list h') x in
    (forall x, free_at (h_free_list h') x -> free_at (h_free_list h) x) /\
    (forall x, pa_free s' x <-> pa_free s x \/ gone x) /\ (forall x, pa_given s' x <-> pa_given s x /\ ~ gone x) /\
    (forall x, in_block (h_as h) x -> h_mem h' !! x = h_mem h !! x) /\
    (forall c q x, c ∈ h_free_list h -> whole_page c q -> q <= x < q + PAGE_SIZE -> gone x).
Proof.
  intros HP. destruct (miniheap_trim_run free_list_addr h s HP) as (h' & s' & E & HP' & Ha & T). exists h', s'. split_and!; [done..|].
  cbv zeta. split_and!; [apply T|apply (lt_free _ _ _ _ _ _ T)|apply (lt_given _ _ _ _ _ _ T)| |].
  - intros x Hb. apply (lt_mem _ _ _ _ _ _ T). intros Hf. by apply (hw_apart _ _ (hp_wf _ _ _ HP) x Hf).
  - intros c q x Hc Hq Hx. split; [|by eapply (lt_all _ _ _ _ _ _ T)]. apply (free_at_in _ c); [done|].
    destruct Hq as (_ & ? & _ & ?). unfold inside. lia.
Qed.
End claims.

(** C30: the physical memory manager is a page allocator for the heap.  With every
    arena mapped at one offset in the kernel, [page_alloc] returns either NULL,
    with the same pages free, or the address of a run of pages that were free, are
    now given out, and nothing else changes; [page_free] of pages that were given
    out makes exactly these free again.  Neither faults. *)
Theorem pmm_page_allocator_correct `{KConfig} kv vp koff arenas :
  kernel_arenas kv vp koff arenas ->
  (forall x, page_free_at koff arenas x -> ~ page_given_at koff arenas x) /\
  (forall n, 0 <= n < 2 ^ 31 -> exists p arenas', pmm_page_alloc kv n arenas = Some (p, arenas') /\ kernel_arenas kv vp koff arenas' /\
    ((p = 0 /\ forall x, (page_free_at koff arenas' x <-> page_free_at koff arenas x) /\ (page_given_at koff arenas' x <-> page_given_at koff arenas x)) \/
     pages_given koff n p arenas arenas')) /\
  (forall ptr n, 0 < n -> ptr mod PAGE_SIZE = 0 -> (forall x, ptr <= x < ptr + n * PAGE_SIZE -> page_given_at koff arenas x) ->
    exists arenas', pmm_page_free vp ptr n arenas = Some arenas' /\ kernel_arenas kv vp koff arenas' /\
      forall x, (page_free_at koff arenas' x <-> page_free_at koff arenas x \/ ptr <= x < ptr + n * PAGE_SIZE) /\
        (page_given_at koff arenas' x <-> page_given_at koff arenas x /\ ~ ptr <= x < ptr + n * PAGE_SIZE)).
Proof.
  intros K. split_and!.
  - intros x. by apply (@pa_disjoint _ _ (pmm_page_allocator_laws kv vp koff) arenas x).
  - intros n. by apply page_alloc_run.
  - intros ptr n. by apply page_free_run.
Qed.

(** ** An example *)
#[local] Instance heap_config : KConfig := {| LK_DEBUGLEVEL := 2 |}.
Definition ex_koff : Z := 2 ^ 46.
Definition ex_kv (pa : Z) : Z := pa + ex_koff.
Definition ex_vp (va : Z) : Z := va - ex_koff.
Definition ex_arena : pmm_arena :=
  Arena 1 0 0x100000 0x8000 8 0x8000 (replicate 8 0) ((fun i => 0x8000 + 24 * Z.of_nat i) <$> seq 0 8).
#[local] Instance ex_pages : PageAllocator (list pmm_arena) := pmm_page_allocator ex_kv ex_vp.
#[local] Instance ex_laws : PageAllocatorLaws (list pmm_arena) := pmm_page_allocator_laws ex_kv ex_vp ex_koff.
(** [&theheap.free_list], in the image of the kernel *)
Definition ex_list : Z := 0x9040.
Definition ex_boot : kheap (list pmm_arena) := KHeap (Heap 0 0 0 0 [] ∅ ∅) [] [ex_arena].

Lemma ex_arenas : kernel_arenas ex_kv ex_vp ex_koff [ex_arena].
Proof.
  split.
  - split; [|done]. apply Forall_cons; split; [|by apply Forall_nil]. apply arena_wf_intro; apply (bool_decide_unpack _); vm_compute; exact I.
  - done.
  - exists 0. apply Forall_cons; split; [|by apply Forall_nil]. cbn. unfold ex_koff. split_and!; try lia; [done|].
    intros pa _. unfold ex_kv, ex_vp, ex_koff. lia.
Qed.

Lemma ex_self : ~ page_free_at ex_koff [ex_arena] (ex_list - 1).
Proof.
  intros (p & Hp & Hx). assert (page_known [ex_arena] p) as Hk by (apply free_pages_known; [apply ex_arenas|done]).
  destruct (page_to_paddr_run [ex_arena] p (ka_wf _ _ _ _ ex_arenas) Hk) as (a & i & Ha & Hi & _ & E).
  apply list_elem_of_singleton in Ha as ->. unfold on_page in Hx. rewrite E in Hx. unfold ex_list, ex_koff, PAGE_SIZE in Hx. cbn in Hx. lia.
Qed.

(** What [heap_init] leaves, and the heap after one and two allocations. *)
Definition the_state {A} (o : option (A * kheap (list pmm_arena))) : kheap (list pmm_arena) := default ex_boot (snd <$> o).
Definition ex_heap : kheap (list pmm_arena) := default ex_boot (heap_init ex_list ex_boot).
Definition ex_heap1 : kheap (list pmm_arena) := the_state (run_heap_call ex_list (HMalloc 100) ex_heap).
Definition ex_heap2 : kheap (list pmm_arena) := the_state (run_heap_call ex_list (HMemalign 64 5000) ex_heap1).
Definition ex_p1 : Z := ex_koff + 0x100000 + 24.
Definition ex_p2 : Z := ex_koff + 0x100000 + 192.

Lemma ex_reach : heap_reach ex_list ex_heap ex_heap2 (<[ex_p2 := 5000]> {[ex_p1 := 100]}).
Proof.
  eapply (reach_call _ _ (HMemalign 64 5000) ex_p2 ex_heap1 _ {[ex_p1 := 100]}).
  - eapply (reach_call _ _ (HMalloc 100) ex_p1 ex_heap _ ∅); [constructor|cbn; lia|vm_compute; reflexivity].
  - cbn. lia.
  - vm_compute. reflexivity.
Qed.

Lemma ex_init : heap_init ex_list ex_boot = Some ex_heap.
Proof. vm_compute. reflexivity. Qed.
Lemma ex_first_page p s' : page_alloc 1 (kh_pages ex_boot) = Some (p, s') -> p <> 0.
Proof.
  assert (fst <$> page_alloc 1 (kh_pages ex_boot) = Some (ex_koff + 0x100000)) as E by (vm_compute; reflexivity).
  intros E'. rewrite E' in E. cbn in E. injection E as ->. unfold ex_koff. lia.
Qed.


Lemma ex_heap_ok : kheap_ok ex_list ex_heap2 (<[ex_p2 := 5000]> {[ex_p1 := 100]}).
Proof.
  eapply heap_reach_ok; [|apply ex_reach]. destruct (heap_init_run ex_list ex_boot) as (k0 & E & K).
  - exact ex_arenas.
  - reflexivity.
  - exact ex_self.
  - exact ex_first_page.
  - rewrite ex_init in E. by injection E as <-.
Qed.


Definition ex_taken : heap := default (kh_heap ex_heap) (snd <$> alloc_locked 128 0 (kh_heap ex_heap)).
Lemma ex_heap_wf : heap_wf ex_list (kh_heap ex_heap).
Proof.
  destruct (heap_init_run ex_list ex_boot) as (k0 & E & K).
  - exact ex_arenas.
  - reflexivity.
  - exact ex_self.
  - exact ex_first_page.
  - rewrite ex_init in E. injection E as <-. apply K.
Qed.

Lemma miniheap_free_undoes_witness : exists h'',
  miniheap_free ex_list ex_p1 ex_taken = Some h'' /\ h_free_list h'' = [Chunk (ex_koff + 0x100000) 4096].
Proof.
  destruct (miniheap_free_undoes ex_list 100 128 0 ex_p1 (kh_heap ex_heap) ex_taken) as (h'' & E & El & _).
  - exact ex_heap_wf.
  - lia.
  - by left.
  - lia.
  - reflexivity.
  - done.
  - vm_compute. reflexivity.
  - done.
  - exists h''. split; [exact E|]. rewrite El. vm_compute. reflexivity.
Defined.

Lemma miniheap_trim_correct_witness : exists h' s',
  miniheap_trim (kh_heap ex_heap2) (kh_pages ex_heap2) = Some (h', s') /\
  forall x, free_at (h_free_list h') x -> free_at (h_free_list (kh_heap ex_heap2)) x.
Proof.
  destruct (miniheap_trim_correct ex_list (kh_heap ex_heap2) (kh_pages ex_heap2)) as (h' & s' & E & _ & _ & Hsub & _).
  - apply ex_heap_ok.
  - exists h', s'. split; [exact E|exact Hsub].
Defined.

Lemma pmm_page_allocator_correct_witness : exists p arenas', pmm_page_alloc ex_kv 3 [ex_arena] = Some (p, arenas') /\ kernel_arenas ex_kv ex_vp ex_koff arenas'.
Proof.
  destruct (pmm_page_allocator_correct ex_kv ex_vp ex_koff [ex_arena] ex_arenas) as (_ & Ha & _).
  destruct (Ha 3 ltac:(lia)) as (p & arenas' & E & K & _). by exists p, arenas'.
Defined.

(** Sizes wrap around.  Asked for nearly all of the address space, or for
    [2 ^ 32] times [2 ^ 32] bytes, the heap adds its header, or multiplies, without
    a check, and returns a block of 24 bytes. *)
Theorem malloc_overflow :
  (exists p k a, malloc ex_list (2 ^ 64 - 8) ex_heap = Some (p, k) /\ p <> 0 /\ h_as (kh_heap k) !! p = Some a /\ as_size a = 24) /\
  (exists p k a, calloc ex_list (2 ^ 32) (2 ^ 32) ex_heap = Some (p, k) /\ p <> 0 /\ h_as (kh_heap k) !! p = Some a /\ as_size a = 24).
Proof.
  split; eexists _, _, _; (split; [vm_compute; reflexivity|]); (split; [done|]); split; vm_compute; reflexivity.
Qed.

(** The low water mark of the free memory is never recorded: it starts at zero. *)
Lemma low_watermark_zero n al p a h h' : h_low_watermark h = 0 -> 0 <= h_remaining h' -> allocated n al p a h h' -> h_low_watermark h' = 0.
Proof. intros H0 Hr A. rewrite (al_low _ _ _ _ _ _ A), H0. lia. Qed.
