(* ===== verification/Bio.v ===== *)
(** * Block devices: the code of [lib/bio/bio.c], [lib/bio/mem.c] and [lib/bio/subdev.c]

    A driver gives a device its hooks; the layer checks ranges, and turns reads
    and writes at byte offsets into transfers of whole blocks where the driver
    has hooks for these only.  [BlockDevice D] are the hooks of a device with
    state [D]; memory devices and sub devices are instances.

    A call is in the monad [io]: it returns a negative error code or a value,
    with the state of the device, or fails an assertion ([None]). *)
From S2P Require Import Prelude Align KState Pmm Heap.

Section io.
Context {D : Type}.
Definition io (A : Type) : Type := D -> option ((Z + A) * D).
Definition io_ret {A} (a : A) : io A := fun d => Some (inr a, d).
Definition io_bind {A B} (f : A -> io B) (m : io A) : io B := fun d =>
  match m d with
  | Some (inr a, d) => f a d
  | Some (inl e, d) => Some (inl e, d)
  | None => None
  end.
Definition ioerr {A} (e : Z) : io A := fun d => Some (inl e, d).
Definition iofault {A} : io A := fun _ => None.
Definition ioget : io D := fun d => Some (inr d, d).
Definition ioassert `{KConfig} (b : bool) : io unit := fun d => _ ← dassert b; Some (inr (), d).
End io.
Arguments io : clear implicits.
#[export] Instance io_mret D : MRet (io D) := @io_ret D.
#[export] Instance io_mbind D : MBind (io D) := @io_bind D.

(** ** The device *)
Definition BIO_FLAG_CACHE_ALIGNED_READS : Z := Z.shiftl 1 0.
Definition BIO_FLAG_CACHE_ALIGNED_WRITES : Z := Z.shiftl 1 1.

Record bdev := Bdev {
  bd_ref : Z;
  bd_name : string;
  bd_total_size : Z;
  bd_block_size : Z;
  bd_block_shift : Z;
  bd_block_count : Z;
  bd_erase_byte : Z;
  bd_flags : Z;
}.

Definition bio_initialize_bdev `{KConfig} (name : string) (block_size block_count flags : Z) : option bdev :=
  dassert (negb (block_size =? 0) && ispow2 (u32 block_size));;
  let block_shift := log2_uint (u32 block_size) in
  Some (Bdev 0 name (Z.shiftl block_count block_shift) block_size block_shift block_count 0 flags).

(** The bytes at [offset], and their replacement. *)
Definition get_bytes (offset len : Z) (l : list Z) : list Z := take (Z.to_nat len) (drop (Z.to_nat offset) l).
Definition put_bytes (offset : Z) (data l : list Z) : list Z :=
  take (Z.to_nat offset) l ++ data ++ drop (Z.to_nat offset + length data) l.

(** ** Ranges *)
Definition bio_trim_range (dev : bdev) (offset len : Z) : Z :=
  if offset <? 0 then 0
  else if bd_total_size dev <=? offset then 0
  else if len =? 0 then 0
  else if bd_total_size dev <? to_signed 64 (offset + len) then u64 (bd_total_size dev - offset)
  else len.

Definition bio_trim_block_range (dev : bdev) (block count : Z) : Z :=
  if bd_block_count dev <? block then 0
  else if count =? 0 then 0
  else if bd_block_count dev <? u32 (block + count) then u32 (bd_block_count dev - block)
  else count.

(** ** Whole blocks, with the hooks of the driver *)
Class BlockHooks (D : Type) := {
  dev_info : D -> bdev;
  dev_read_block : Z -> Z -> Z -> io D (Z * list Z);     (* buffer, block, count *)
  dev_write_block : Z -> list Z -> Z -> Z -> io D Z;
}.

Section blocks.
Context `{KConfig} {D : Type} `{!BlockHooks D}.

(** What is stored in the buffer comes with the result. *)
Definition bio_read_block (buf block count : Z) : io D (Z * list Z) :=
  d ← ioget;
  ioassert (0 <? bd_ref (dev_info d));;
  ioassert (negb (buf =? 0));;
  let count := bio_trim_block_range (dev_info d) block count in
  if count =? 0 then mret (0, []) else dev_read_block buf block count.

Definition bio_write_block (buf : Z) (data : list Z) (block count : Z) : io D Z :=
  d ← ioget;
  ioassert (0 <? bd_ref (dev_info d));;
  ioassert (negb (buf =? 0));;
  let count := bio_trim_block_range (dev_info d) block count in
  if count =? 0 then mret 0 else dev_write_block buf data block count.

(** ** The default hooks: deblocking *)
Context (CACHE_LINE : Z).
(** the address of the temporary buffer for partial transfers, on the stack *)
Context (temp : Z).

Definition read_whole_block (block : Z) : io D (list Z) :=
  d ← ioget;
  '(err, data) ← bio_read_block temp block 1;
  if negb (err =? bd_block_size (dev_info d)) then ioerr ERR_IO else mret data.
Definition write_whole_block (data : list Z) (block : Z) : io D unit :=
  d ← ioget;
  err ← bio_write_block temp data block 1;
  if negb (err =? bd_block_size (dev_info d)) then ioerr ERR_IO else mret ().

(** The loop over the middle blocks, through the temporary buffer; what is read,
    and the remaining length and the block after. *)
Fixpoint read_middle_loop (fuel : nat) (block len : Z) : io D (list Z * Z * Z) :=
  d ← ioget;
  let block_size := bd_block_size (dev_info d) in
  if block_size <=? len then
    match fuel with
    | O => iofault
    | S fuel =>
        data ← read_whole_block block;
        '(rest, len, block) ← read_middle_loop fuel (u32 (block + 1)) (len - block_size);
        mret (data ++ rest, len, block)
    end
  else mret ([], len, block).

Definition read_first (offset len block : Z) : io D (list Z * Z * Z) :=
  d ← ioget;
  let block_offset := offset mod bd_block_size (dev_info d) in
  if negb (block_offset =? 0) then
    data ← read_whole_block block;
    let tocopy := Z.min (bd_block_size (dev_info d) - block_offset) len in
    mret (get_bytes block_offset tocopy data, len - tocopy, u32 (block + 1))
  else mret ([], len, block).

Definition read_middle (buf block len : Z) : io D (list Z * Z * Z) :=
  d ← ioget;
  let dev := dev_info d in
  if has_flag (bd_flags dev) BIO_FLAG_CACHE_ALIGNED_READS && negb (IS_ALIGNED buf CACHE_LINE) then
    read_middle_loop (Z.to_nat (len / bd_block_size dev)) block len
  else
    let num_blocks := divpow2 (u32 len) (bd_block_shift dev) in
    '(err, data) ← bio_read_block buf block num_blocks;
    if negb (err =? bd_block_size dev * num_blocks) then ioerr ERR_IO
    else mret (data, len - err, u32 (block + num_blocks)).

Definition bio_default_read (buf offset len : Z) : io D (Z * list Z) :=
  d ← ioget;
  (* find the starting block *)
  let block := divpow2 (u32 offset) (bd_block_shift (dev_info d)) in
  '(first, len1, block) ← read_first offset len block;
  '(middle, len2, block) ← read_middle (buf + Z.of_nat (length first)) block len1;
  (* handle partial last block *)
  if 0 <? len2 then
    data ← read_whole_block block;
    mret ((len - len1) + (len1 - len2) + len2, first ++ middle ++ get_bytes 0 len2 data)
  else mret ((len - len1) + (len1 - len2), first ++ middle).

(** Writing: what is left of the data, and the block after. *)
Definition write_first (data : list Z) (offset len block : Z) : io D (list Z * Z * Z) :=
  d ← ioget;
  let block_offset := offset mod bd_block_size (dev_info d) in
  if negb (block_offset =? 0) then
    old ← read_whole_block block;
    let tocopy := Z.min (bd_block_size (dev_info d) - block_offset) len in
    write_whole_block (put_bytes block_offset (take (Z.to_nat tocopy) data) old) block;;
    mret (drop (Z.to_nat tocopy) data, len - tocopy, u32 (block + 1))
  else mret (data, len, block).

Fixpoint write_middle_loop (fuel : nat) (data : list Z) (block len : Z) : io D (list Z * Z * Z) :=
  d ← ioget;
  let block_size := bd_block_size (dev_info d) in
  if block_size <=? len then
    match fuel with
    | O => iofault
    | S fuel =>
        write_whole_block (take (Z.to_nat block_size) data) block;;
        write_middle_loop fuel (drop (Z.to_nat block_size) data) (u32 (block + 1)) (len - block_size)
    end
  else mret (data, len, block).

Definition write_middle (buf : Z) (data : list Z) (block len : Z) : io D (list Z * Z * Z) :=
  d ← ioget;
  let dev := dev_info d in
  if has_flag (bd_flags dev) BIO_FLAG_CACHE_ALIGNED_WRITES && negb (IS_ALIGNED buf CACHE_LINE) then
    write_middle_loop (Z.to_nat (len / bd_block_size dev)) data block len
  else
    let block_count := divpow2 (u32 len) (bd_block_shift dev) in
    err ← bio_write_block buf (take (Z.to_nat (bd_block_size dev * block_count)) data) block block_count;
    if negb (err =? bd_block_size dev * block_count) then ioerr ERR_IO
    else mret (drop (Z.to_nat err) data, len - err, u32 (block + block_count)).

Definition bio_default_write (buf : Z) (data : list Z) (offset len : Z) : io D Z :=
  d ← ioget;
  let block := divpow2 (u32 offset) (bd_block_shift (dev_info d)) in
  '(data1, len1, block) ← write_first data offset len block;
  '(data2, len2, block) ← write_middle (buf + (len - len1)) data1 block len1;
  (* handle partial last block *)
  if 0 <? len2 then
    old ← read_whole_block block;
    write_whole_block (put_bytes 0 (take (Z.to_nat len2) data2) old) block;;
    mret ((len - len1) + (len1 - len2) + len2)
  else mret ((len - len1) + (len1 - len2)).
End blocks.

(** ** Bytes, with the hooks of the device *)
Class BlockBytes (D : Type) := {
  bd_hooks :: BlockHooks D;
  dev_read : Z -> Z -> Z -> io D (Z * list Z);            (* buffer, offset, length *)
  dev_write : Z -> list Z -> Z -> Z -> io D Z;
}.

Section bytes.
Context `{KConfig} {D : Type} `{!BlockBytes D}.

Definition bio_read (buf offset len : Z) : io D (Z * list Z) :=
  d ← ioget;
  ioassert (0 <? bd_ref (dev_info d));;
  ioassert (negb (buf =? 0));;
  let len := bio_trim_range (dev_info d) offset len in
  if len =? 0 then mret (0, []) else dev_read buf offset len.

Definition bio_write (buf : Z) (data : list Z) (offset len : Z) : io D Z :=
  d ← ioget;
  ioassert (0 <? bd_ref (dev_info d));;
  ioassert (negb (buf =? 0));;
  let len := bio_trim_range (dev_info d) offset len in
  if len =? 0 then mret 0 else dev_write buf (take (Z.to_nat len) data) offset len.

(** The default erase hook writes the erase byte block by block. *)
Fixpoint default_erase_loop (fuel : nat) (erase_buf pos remaining erased : Z) : io D Z :=
  if 0 <? remaining then
    match fuel with
    | O => iofault
    | S fuel =>
        d ← ioget;
        let towrite := Z.min remaining (bd_block_size (dev_info d)) in
        written ← bio_write erase_buf (replicate (Z.to_nat towrite) (bd_erase_byte (dev_info d))) pos towrite;
        if written <? towrite then mret (erased + written)
        else default_erase_loop fuel erase_buf (pos + written) (remaining - written) (erased + written)
    end
  else mret erased.
Definition bio_default_erase (erase_buf offset len : Z) : io D Z :=
  default_erase_loop (S (Z.to_nat len)) erase_buf offset len 0.
End bytes.

Class BlockDevice (D : Type) := {
  bd_bytes :: BlockBytes D;
  dev_erase : Z -> Z -> io D Z;
}.

Definition bio_erase `{KConfig} {D : Type} `{!BlockDevice D} (offset len : Z) : io D Z :=
  d ← ioget;
  ioassert (0 <? bd_ref (dev_info d));;
  let len := bio_trim_range (dev_info d) offset len in
  if len =? 0 then mret 0 else dev_erase offset len.

(** A driver with the hooks for whole blocks only: [bio_initialize_bdev] gives it
    the default ones. *)
Definition default_bytes `{KConfig} {D : Type} `{!BlockHooks D} (CACHE_LINE temp : Z) : BlockBytes D :=
  {| dev_read := bio_default_read CACHE_LINE temp; dev_write := bio_default_write CACHE_LINE temp |}.
Definition default_device `{KConfig} {D : Type} `{!BlockHooks D} (CACHE_LINE temp erase_buf : Z) : BlockDevice D :=
  let _ := default_bytes CACHE_LINE temp in {| dev_erase := bio_default_erase erase_buf |}.

(** ** Memory devices *)
Module mem.
Definition BLOCKSIZE : Z := 512.

(** The device, and the bytes [ptr] points to. *)
Record mem_bdev := MemBdev { mem_dev : bdev; mem_ptr : list Z }.

Definition memcpy_from (offset len : Z) : io mem_bdev (Z * list Z) := fun m =>
  if (0 <=? offset) && (offset + len <=? Z.of_nat (length (mem_ptr m))) then Some (inr (len, get_bytes offset len (mem_ptr m)), m) else None.
Definition memcpy_to (data : list Z) (offset len : Z) : io mem_bdev Z := fun m =>
  if (0 <=? offset) && (offset + len <=? Z.of_nat (length (mem_ptr m)))
  then Some (inr len, MemBdev (mem_dev m) (put_bytes offset (take (Z.to_nat len) data) (mem_ptr m))) else None.

Definition mem_bdev_read (buf offset len : Z) : io mem_bdev (Z * list Z) := memcpy_from offset len.
Definition mem_bdev_read_block (buf block count : Z) : io mem_bdev (Z * list Z) := memcpy_from (u32 (block * BLOCKSIZE)) (u32 (count * BLOCKSIZE)).
Definition mem_bdev_write (buf : Z) (data : list Z) (offset len : Z) : io mem_bdev Z := memcpy_to data offset len.
Definition mem_bdev_write_block (buf : Z) (data : list Z) (block count : Z) : io mem_bdev Z :=
  memcpy_to data (u32 (block * BLOCKSIZE)) (u32 (count * BLOCKSIZE)).

(** Registering it takes the first reference. *)
Definition create_membdev `{KConfig} (name : string) (ptr : list Z) (len : Z) : option mem_bdev :=
  dev ← bio_initialize_bdev name BLOCKSIZE (u32 (len / BLOCKSIZE)) 0;
  Some (MemBdev (Bdev (bd_ref dev + 1) (bd_name dev) (bd_total_size dev) (bd_block_size dev) (bd_block_shift dev)
    (bd_block_count dev) (bd_erase_byte dev) (bd_flags dev)) ptr).
End mem.

#[export] Instance mem_hooks : BlockHooks mem.mem_bdev :=
  {| dev_info := mem.mem_dev; dev_read_block := mem.mem_bdev_read_block; dev_write_block := mem.mem_bdev_write_block |}.
#[export] Instance mem_bytes : BlockBytes mem.mem_bdev := {| dev_read := mem.mem_bdev_read; dev_write := mem.mem_bdev_write |}.
Definition mem_device `{KConfig} (erase_buf : Z) : BlockDevice mem.mem_bdev := {| dev_erase := bio_default_erase erase_buf |}.

(** ** Sub devices *)
Section subdev.
Context `{KConfig} {P : Type}.

Record subdev_t := Subdev { sub_dev : bdev; sub_parent : P; sub_offset : Z }.

(** A call on the parent. *)
Definition on_parent {A} (m : io P A) : io subdev_t A := fun s =>
  '(r, p) ← m (sub_parent s); Some (r, Subdev (sub_dev s) p (sub_offset s)).
Definition sub_base (s : subdev_t) : Z := u64 (sub_offset s * bd_block_size (sub_dev s)).

Section hooks.
Context `{!BlockBytes P}.
Definition subdev_read (buf offset len : Z) : io subdev_t (Z * list Z) :=
  s ← ioget; on_parent (bio_read buf (to_signed 64 (offset + sub_base s)) len).
Definition subdev_read_block (buf block count : Z) : io subdev_t (Z * list Z) :=
  s ← ioget; on_parent (bio_read_block buf (u32 (block + sub_offset s)) count).
Definition subdev_write (buf : Z) (data : list Z) (offset len : Z) : io subdev_t Z :=
  s ← ioget; on_parent (bio_write buf data (to_signed 64 (offset + sub_base s)) len).
Definition subdev_write_block (buf : Z) (data : list Z) (block count : Z) : io subdev_t Z :=
  s ← ioget; on_parent (bio_write_block buf data (u32 (block + sub_offset s)) count).
End hooks.
Definition subdev_erase `{!BlockDevice P} (offset len : Z) : io subdev_t Z :=
  s ← ioget; on_parent (bio_erase (to_signed 64 (offset + sub_base s)) len).
End subdev.
Arguments subdev_t : clear implicits.

#[export] Instance subdev_hooks `{KConfig} P `{!BlockBytes P} : BlockHooks (subdev_t P) :=
  {| dev_info := sub_dev; dev_read_block := subdev_read_block; dev_write_block := subdev_write_block |}.
#[export] Instance subdev_bytes `{KConfig} P `{!BlockBytes P} : BlockBytes (subdev_t P) :=
  {| dev_read := subdev_read; dev_write := subdev_write |}.
#[export] Instance subdev_device `{KConfig} P `{!BlockDevice P} : BlockDevice (subdev_t P) := {| dev_erase := subdev_erase |}.
