(* ===== verification/BioOps.v ===== *)
(** * What block devices promise

    The laws the hooks of a driver satisfy, and what the deblocking of [bio.c]
    makes of them: reads and writes at any offset see the device as one array of
    bytes. *)
From S2P Require Import Prelude Align KState Pmm Heap HeapInv Bio.

(** ** Bytes *)
Section bytes.
Implicit Types (l d : list Z).

Lemma length_get_bytes off len l :
  0 <= off -> 0 <= len -> off + len <= Z.of_nat (length l) -> Z.of_nat (length (get_bytes off len l)) = len.
Proof. intros. unfold get_bytes. rewrite length_take, length_drop. lia. Qed.

Lemma lookup_put_bytes off d l (i : nat) :
  0 <= off -> off + Z.of_nat (length d) <= Z.of_nat (length l) ->
  put_bytes off d l !! i = if decide (off <= Z.of_nat i < off + Z.of_nat (length d)) then d !! Z.to_nat (Z.of_nat i - off) else l !! i.
Proof.
  intros Ho Hl. unfold put_bytes. destruct (decide (Z.of_nat i < off)).
  - rewrite lookup_app_l, lookup_take_lt, decide_False by (rewrite ?length_take; lia). done.
  - rewrite lookup_app_r by (rewrite length_take; lia). rewrite length_take. case_decide as Hd.
    + rewrite lookup_app_l by lia. f_equal. lia.
    + rewrite lookup_app_r, lookup_drop by lia. f_equal. lia.
Qed.

Lemma lookup_get_bytes off len l (i : nat) :
  0 <= off -> 0 <= len -> get_bytes off len l !! i = if decide (Z.of_nat i < len) then l !! Z.to_nat (off + Z.of_nat i) else None.
Proof.
  intros Ho Hl. unfold get_bytes. case_decide.
  - rewrite lookup_take_lt, lookup_drop by lia. f_equal. lia.
  - apply lookup_take_ge. lia.
Qed.

Lemma length_put_bytes off d l :
  0 <= off -> off + Z.of_nat (length d) <= Z.of_nat (length l) -> length (put_bytes off d l) = length l.
Proof. intros. unfold put_bytes. rewrite !length_app, length_take, length_drop. lia. Qed.

Lemma get_bytes_app off a b l : 0 <= off -> 0 <= a -> 0 <= b -> get_bytes off (a + b) l = get_bytes off a l ++ get_bytes (off + a) b l.
Proof.
  intros. unfold get_bytes. rewrite !Z2Nat.inj_add, <- drop_drop by done. by rewrite take_take_drop.
Qed.

Lemma get_bytes_get o1 n1 o2 n2 l :
  0 <= o1 -> 0 <= n1 -> 0 <= o2 -> o1 + n1 <= n2 -> get_bytes o1 n1 (get_bytes o2 n2 l) = get_bytes (o2 + o1) n1 l.
Proof.
  intros. apply list_eq. intros i. rewrite !lookup_get_bytes by lia. repeat case_decide; try lia; try done.
  f_equal. lia.
Qed.

Lemma put_bytes_app off d1 d2 l :
  0 <= off -> off + Z.of_nat (length (d1 ++ d2)) <= Z.of_nat (length l) ->
  put_bytes off (d1 ++ d2) l = put_bytes (off + Z.of_nat (length d1)) d2 (put_bytes off d1 l).
Proof.
  rewrite length_app. intros Ho Hl. apply list_eq. intros i.
  rewrite !lookup_put_bytes by (rewrite ?length_put_bytes, ?length_app; lia). rewrite length_app.
  repeat case_decide; try lia; try done.
  - rewrite lookup_app_r by lia. f_equal. lia.
  - rewrite lookup_app_l by lia. done.
Qed.

(** Writing part of a block back through a copy of the block. *)
Lemma put_bytes_block base size off d l :
  0 <= base -> 0 <= off -> off + Z.of_nat (length d) <= size -> base + size <= Z.of_nat (length l) ->
  put_bytes base (put_bytes off d (get_bytes base size l)) l = put_bytes (base + off) d l.
Proof.
  intros Hb Ho Hd Hl. pose proof (length_get_bytes base size l ltac:(lia) ltac:(lia) ltac:(lia)) as Hg.
  assert (length (put_bytes off d (get_bytes base size l)) = length (get_bytes base size l)) as Hp by (apply length_put_bytes; lia).
  apply list_eq. intros i. rewrite !lookup_put_bytes by lia. rewrite Hp, Hg. repeat case_decide; try lia; try done.
  - f_equal. lia.
  - rewrite lookup_get_bytes, decide_True by lia. f_equal. lia.
Qed.

Lemma put_bytes_whole d l : length d = length l -> put_bytes 0 d l = d.
Proof. intros E. unfold put_bytes. cbn. by rewrite drop_ge, app_nil_r by lia. Qed.

Lemma put_bytes_nil off l : put_bytes off [] l = l.
Proof. unfold put_bytes. cbn. by rewrite Nat.add_0_r, take_drop. Qed.
(** Reading what was written, and what was not. *)
Lemma get_put_same off d l : 0 <= off -> off + Z.of_nat (length d) <= Z.of_nat (length l) -> get_bytes off (Z.of_nat (length d)) (put_bytes off d l) = d.
Proof.
  intros Ho Hl. apply list_eq. intros i. rewrite lookup_get_bytes, lookup_put_bytes by lia. repeat case_decide; try lia.
  - f_equal. lia.
  - symmetry. apply lookup_ge_None_2. lia.
Qed.
Lemma get_put_other o n off d l : 0 <= o -> 0 <= n -> 0 <= off -> off + Z.of_nat (length d) <= Z.of_nat (length l) ->
  o + n <= off \/ off + Z.of_nat (length d) <= o -> get_bytes o n (put_bytes off d l) = get_bytes o n l.
Proof. intros Ho Hn Hoff Hl Hd. apply list_eq. intros i. rewrite !lookup_get_bytes, lookup_put_bytes by lia. repeat case_decide; try lia; done. Qed.
End bytes.

(** ** Specifications of calls *)
Section spec.
Context {D : Type}.

(** The call returns, with [Q] of its value and the state, or with an error and [E]. *)
Definition iospec {A} (m : io D A) (d : D) (Q : A -> D -> Prop) (E : D -> Prop) : Prop :=
  exists r d', m d = Some (r, d') /\ match r with inr a => Q a d' | inl e => e < 0 /\ E d' end.

Lemma iospec_ret {A} (a : A) d Q E : Q a d -> iospec (mret a) d Q E.
Proof. intros HQ. by exists (inr a), d. Qed.
Lemma iospec_err {A} e d (Q : A -> D -> Prop) E : e < 0 -> E d -> iospec (ioerr e) d Q E.
Proof. intros ? HE. by exists (inl e), d. Qed.
Lemma iospec_get d (Q : D -> D -> Prop) E : Q d d -> iospec ioget d Q E.
Proof. intros HQ. by exists (inr d), d. Qed.
Lemma iospec_bind {A B} (m : io D A) (f : A -> io D B) d Q E :
  iospec m d (fun a d' => iospec (f a) d' Q E) E -> iospec (m ≫= f) d Q E.
Proof.
  intros (r & d' & Em & Hr). unfold iospec, mbind, io_mbind, io_bind. rewrite Em. destruct r as [e|a]; [by exists (inl e), d'|done].
Qed.
Lemma iospec_assert `{KConfig} b d (Q : unit -> D -> Prop) E : b = true -> Q () d -> iospec (ioassert b) d Q E.
Proof. intros -> HQ. exists (inr ()), d. unfold ioassert. by rewrite dassert_true. Qed.
Lemma iospec_mono {A} (m : io D A) d (Q Q' : A -> D -> Prop) (E E' : D -> Prop) :
  iospec m d Q E -> (forall a d', Q a d' -> Q' a d') -> (forall d', E d' -> E' d') -> iospec m d Q' E'.
Proof. intros (r & d' & Em & Hr) HQ HE. exists r, d'. split; [done|]. destruct r; naive_solver. Qed.
End spec.

Ltac iostep := first [apply iospec_get | apply iospec_ret | apply iospec_bind | apply iospec_assert].

(** ** The laws of a device *)
(** The geometry of a device of [size] bytes. *)
Record info_ok (dev : bdev) (size : Z) : Prop := {
  io_ref : 0 < bd_ref dev;
  io_shift : 0 <= bd_block_shift dev < 32;
  io_size : bd_block_size dev = 2 ^ bd_block_shift dev;
  io_count : 0 <= bd_block_count dev < 2 ^ 32;
  io_total : bd_total_size dev = bd_block_count dev * bd_block_size dev;
  io_bytes : size = bd_total_size dev;
}.

Class BlockHooksLaws (D : Type) `{!BlockHooks D} := {
  bl_ok : D -> Prop;
  bl_content : D -> list Z;
  bl_info d : bl_ok d -> info_ok (dev_info d) (Z.of_nat (length (bl_content d)));
  (** what else no call changes *)
  bl_steady : D -> D -> Prop;
  bl_steady_preorder :: PreOrder bl_steady;
  (** A state a call that writes nothing leaves. *)
  bl_same d d' := bl_ok d' /\ dev_info d' = dev_info d /\ bl_content d' = bl_content d /\ bl_steady d d';
  (** A state a call that writes leaves, also when it fails. *)
  bl_kept d d' := bl_ok d' /\ dev_info d' = dev_info d /\ length (bl_content d') = length (bl_content d) /\ bl_steady d d';
  bl_read_block d buf block count :
    bl_ok d -> 0 < buf -> 0 <= block -> 0 < count -> block + count <= bd_block_count (dev_info d) ->
    iospec (dev_read_block buf block count) d
      (fun '(n, data) d' => n = count * bd_block_size (dev_info d) /\ bl_same d d' /\
         data = get_bytes (block * bd_block_size (dev_info d)) (count * bd_block_size (dev_info d)) (bl_content d))
      (bl_same d);
  bl_write_block d buf data block count :
    bl_ok d -> 0 < buf -> 0 <= block -> 0 < count -> block + count <= bd_block_count (dev_info d) ->
    Z.of_nat (length data) = count * bd_block_size (dev_info d) ->
    iospec (dev_write_block buf data block count) d
      (fun n d' => n = count * bd_block_size (dev_info d) /\ bl_kept d d' /\
         bl_content d' = put_bytes (block * bd_block_size (dev_info d)) data (bl_content d))
      (bl_kept d);
}.

(** The hooks for bytes work up to an offset that may be below the size of the
    device. *)
Class BlockBytesLaws (D : Type) `{!BlockBytes D} := {
  bl_hooks :: BlockHooksLaws D;
  bl_limit : D -> Z;
  bl_limit_kept d d' : bl_kept d d' -> bl_limit d' = bl_limit d;
  bl_read d buf offset len :
    bl_ok d -> 0 < buf -> 0 <= offset -> 0 < len -> offset + len <= Z.of_nat (length (bl_content d)) -> offset + len <= bl_limit d ->
    iospec (dev_read buf offset len) d
      (fun '(n, data) d' => n = len /\ bl_same d d' /\ data = get_bytes offset len (bl_content d)) (bl_same d);
  bl_write d buf data offset :
    bl_ok d -> 0 < buf -> 0 <= offset -> 0 < Z.of_nat (length data) -> offset + Z.of_nat (length data) <= Z.of_nat (length (bl_content d)) ->
    offset + Z.of_nat (length data) <= bl_limit d ->
    iospec (dev_write buf data offset (Z.of_nat (length data))) d
      (fun n d' => n = Z.of_nat (length data) /\ bl_kept d d' /\ bl_content d' = put_bytes offset data (bl_content d)) (bl_kept d);
}.

Class BlockDeviceLaws (D : Type) `{!BlockDevice D} := {
  bl_bytes :: BlockBytesLaws D;
  bl_erase d offset len :
    bl_ok d -> 0 <= offset -> 0 < len -> offset + len <= Z.of_nat (length (bl_content d)) -> offset + len <= bl_limit d ->
    iospec (dev_erase offset len) d
      (fun n d' => n = len /\ bl_kept d d' /\
         bl_content d' = put_bytes offset (replicate (Z.to_nat len) (bd_erase_byte (dev_info d))) (bl_content d)) (bl_kept d);
}.

#[export] Hint Resolve bl_info : bio.

(** ** Whole blocks *)
Section blocks.
Context `{KConfig} {D : Type} `{!BlockHooks D} `{!BlockHooksLaws D}.
Implicit Types (d : D).

Lemma bl_same_refl d : bl_ok d -> bl_same d d.
Proof. by unfold bl_same. Qed.
Lemma bl_kept_refl d : bl_ok d -> bl_kept d d.
Proof. by unfold bl_kept. Qed.
Lemma bl_same_trans d1 d2 d3 : bl_same d1 d2 -> bl_same d2 d3 -> bl_same d1 d3.
Proof. unfold bl_same. intros (? & ? & ? & ?) (? & ? & ? & ?). split_and!; try congruence. by etrans. Qed.
Lemma bl_same_kept d d' : bl_same d d' -> bl_kept d d'.
Proof. unfold bl_same, bl_kept. intros (? & ? & -> & ?). done. Qed.
Lemma bl_kept_trans d1 d2 d3 : bl_kept d1 d2 -> bl_kept d2 d3 -> bl_kept d1 d3.
Proof. unfold bl_kept. intros (? & ? & ? & ?) (? & ? & ? & ?). split_and!; try congruence. by etrans. Qed.

Lemma info_size_pos dev size : info_ok dev size -> 0 < bd_block_size dev.
Proof. intros [_ ? -> _ _ _]. apply Z.pow_pos_nonneg; lia. Qed.

Lemma trim_block_in dev size block count :
  info_ok dev size -> 0 <= block -> 0 <= count -> block + count <= bd_block_count dev \/ count = 0 ->
  bio_trim_block_range dev block count = count.
Proof.
  intros [_ _ _ Hc _ _] Hb Hn Hr. unfold bio_trim_block_range. destruct (Z.ltb_spec (bd_block_count dev) block); [lia|].
  destruct (Z.eqb_spec count 0); [done|]. rewrite (wrap_small 32 (block + count)) by lia.
  destruct (Z.ltb_spec (bd_block_count dev) (block + count)); [lia|done].
Qed.

Lemma bio_read_block_run d buf block count :
  bl_ok d -> 0 < buf -> 0 <= block -> 0 <= count -> block + count <= bd_block_count (dev_info d) \/ count = 0 ->
  iospec (bio_read_block buf block count) d
    (fun '(n, data) d' => n = count * bd_block_size (dev_info d) /\ bl_same d d' /\
       data = get_bytes (block * bd_block_size (dev_info d)) (count * bd_block_size (dev_info d)) (bl_content d)) (bl_same d).
Proof.
  intros Hok Hbuf Hb Hc Hr. pose proof (bl_info d Hok) as Hi. unfold bio_read_block. do 2 iostep. iostep. iostep; [apply Z.ltb_lt, Hi|].
  iostep. iostep; [by destruct buf|]. rewrite (trim_block_in _ _ _ _ Hi) by done.
  destruct (Z.eqb_spec count 0) as [->|]; [iostep; rewrite Z.mul_0_l; split_and!; [done|by apply bl_same_refl|done]|].
  destruct Hr as [Hr|]; [|done]. by apply bl_read_block; [..|lia|].
Qed.

Lemma bio_write_block_run d buf data block count :
  bl_ok d -> 0 < buf -> 0 <= block -> 0 <= count -> block + count <= bd_block_count (dev_info d) \/ count = 0 ->
  Z.of_nat (length data) = count * bd_block_size (dev_info d) ->
  iospec (bio_write_block buf data block count) d
    (fun n d' => n = count * bd_block_size (dev_info d) /\ bl_kept d d' /\
       bl_content d' = put_bytes (block * bd_block_size (dev_info d)) data (bl_content d)) (bl_kept d).
Proof.
  intros Hok Hbuf Hb Hc Hr Hl. pose proof (bl_info d Hok) as Hi. unfold bio_write_block. do 2 iostep. iostep. iostep; [apply Z.ltb_lt, Hi|].
  iostep. iostep; [by destruct buf|]. rewrite (trim_block_in _ _ _ _ Hi) by done.
  destruct (Z.eqb_spec count 0) as [->|].
  { iostep. rewrite Z.mul_0_l in *. destruct data; [|done]. rewrite put_bytes_nil. split_and!; [done|by apply bl_kept_refl|done]. }
  destruct Hr as [Hr|]; [|done]. by apply bl_write_block; [..|lia| |].
Qed.

(** ** Deblocking *)
Context (CACHE_LINE temp : Z) (Htemp : 0 < temp).
Let size d := bd_block_size (dev_info d).

Lemma read_whole_block_run d block :
  bl_ok d -> 0 <= block < bd_block_count (dev_info d) ->
  iospec (read_whole_block temp block) d (fun data d' => bl_same d d' /\ data = get_bytes (block * size d) (size d) (bl_content d)) (bl_same d).
Proof using All.
  intros Hok Hb. unfold read_whole_block. do 2 iostep. iostep.
  eapply iospec_mono; [apply bio_read_block_run; [done..|lia|lia|left; lia]| |done].
  intros [n data] d' (-> & Hs & ->). rewrite Z.mul_1_l, Z.eqb_refl. by iostep.
Qed.

Lemma write_whole_block_run d data block :
  bl_ok d -> 0 <= block < bd_block_count (dev_info d) -> Z.of_nat (length data) = size d ->
  iospec (write_whole_block temp data block) d
    (fun _ d' => bl_kept d d' /\ bl_content d' = put_bytes (block * size d) data (bl_content d)) (bl_kept d).
Proof using All.
  intros Hok Hb Hl. unfold write_whole_block. do 2 iostep. iostep.
  eapply iospec_mono; [apply bio_write_block_run; [done..|lia|lia|left; lia|unfold size in Hl; lia]| |done].
  intros n d' (-> & Hs & Hc). rewrite Z.mul_1_l, Z.eqb_refl. by iostep.
Qed.

(** The blocks a range of bytes is in. *)
Lemma block_of_offset d offset :
  bl_ok d -> 0 <= offset -> u32 offset = offset -> divpow2 (u32 offset) (bd_block_shift (dev_info d)) = offset / size d.
Proof using All.
  intros Hok Ho Hu. destruct (bl_info d Hok) as [_ ? Hs _ _ _]. unfold size, divpow2. rewrite Hs, Hu, Z.shiftr_div_pow2 by lia. done.
Qed.

(** The next block after the bytes up to [pos], when bytes are left. *)
Definition at_block d (block pos len : Z) : Prop :=
  0 <= block < 2 ^ 32 /\ 0 <= len /\ 0 <= pos /\ pos + len <= Z.of_nat (length (bl_content d)) /\ (len = 0 \/ block * size d = pos).

Lemma at_block_in d block pos len : bl_ok d -> at_block d block pos len -> 0 < len -> 0 <= block < bd_block_count (dev_info d).
Proof.
  intros Hok (Hb & _ & _ & Hl & Hp) Hn. destruct (bl_info d Hok) as [_ _ _ _ Ht Hs]. pose proof (info_size_pos _ _ (bl_info d Hok)).
  unfold size in Hp. destruct Hp; [lia|]. split; [lia|]. nia.
Qed.

Lemma at_block_blocks d block pos len n :
  bl_ok d -> at_block d block pos len -> 0 <= n -> n * size d <= len -> block + n <= bd_block_count (dev_info d) \/ n = 0.
Proof.
  intros Hok (Hb & _ & _ & Hl & Hp) Hn Hnl. destruct (bl_info d Hok) as [_ _ _ _ Ht Hs]. pose proof (info_size_pos _ _ (bl_info d Hok)).
  unfold size in *. destruct (decide (n = 0)); [by right|left]. destruct Hp; nia.
Qed.

Lemma at_block_next d block pos len n :
  bl_ok d -> at_block d block pos len -> 0 < n -> n * size d <= len ->
  at_block d (u32 (block + n)) (pos + n * size d) (len - n * size d).
Proof.
  intros Hok Ha Hn Hnl. pose proof (at_block_blocks _ _ _ _ n Hok Ha ltac:(lia) Hnl) as Hin.
  destruct Ha as (Hb & Hl0 & Hp0 & Hl & Hp). destruct (bl_info d Hok) as [_ _ _ Hc Ht Hs]. pose proof (info_size_pos _ _ (bl_info d Hok)).
  rewrite (wrap_small 32 (block + n)) by lia. unfold at_block, size in *. split_and!; try nia.
Qed.

Lemma at_block_same d d' block pos len : bl_kept d d' -> at_block d block pos len -> at_block d' block pos len.
Proof. intros (_ & Hi & Hc & _). unfold at_block, size. by rewrite Hi, Hc. Qed.

Lemma read_first_run d offset len :
  bl_ok d -> 0 <= offset -> 0 < len -> offset + len <= Z.of_nat (length (bl_content d)) ->
  iospec (read_first temp offset len (offset / size d)) d
    (fun '(data, len1, block) d' => bl_same d d' /\ len1 <= len /\ data = get_bytes offset (len - len1) (bl_content d) /\
       at_block d block (offset + (len - len1)) len1) (bl_same d).
Proof using All.
  intros Hok Ho Hl Hr. pose proof (info_size_pos _ _ (bl_info d Hok)) as Hz. destruct (bl_info d Hok) as [_ _ _ Hc Ht Hs].
  pose proof (Z.div_mod offset (size d) ltac:(unfold size; lia)) as Hdm. pose proof (Z.mod_pos_bound offset (size d) Hz) as Hm.
  pose proof (Z.div_pos offset (size d) Ho Hz) as Hq. unfold read_first. do 2 iostep. unfold size in *.
  set (bs := bd_block_size (dev_info d)) in *. assert (offset / bs < bd_block_count (dev_info d)) as Hin by nia.
  destruct (Z.eqb_spec (offset mod bs) 0) as [E|E]; cbn.
  { iostep. rewrite Z.sub_diag. split_and!; [by apply bl_same_refl|lia|done|]. unfold at_block, size. fold bs. split_and!; lia. }
  iostep. eapply iospec_mono; [apply read_whole_block_run; [done|lia]| |done].
  intros data d' (Hs' & ->). iostep. unfold size. fold bs. set (n := Z.min (bs - offset mod bs) len).
  rewrite (wrap_small 32 (offset / bs + 1)) by lia. rewrite get_bytes_get by lia.
  split_and!; try done; [lia|f_equal; lia|]. unfold at_block, size. fold bs. split_and!; lia.
Qed.

Lemma read_middle_loop_run fuel : forall d block pos len,
  bl_ok d -> at_block d block pos len -> len / size d <= Z.of_nat fuel ->
  iospec (read_middle_loop temp fuel block len) d
    (fun '(data, len2, block2) d' => bl_same d d' /\ len2 < size d /\ len2 <= len /\ data = get_bytes pos (len - len2) (bl_content d) /\
       at_block d block2 (pos + (len - len2)) len2) (bl_same d).
Proof using All.
  induction fuel as [|fuel IH]; intros d block pos len Hok Ha Hf; pose proof (info_size_pos _ _ (bl_info d Hok)) as Hz; pose proof Ha as (Hb & Hl0 & Hp0 & Hl & Hp); cbn [read_middle_loop]; do 2 iostep;
    unfold size in *; set (bs := bd_block_size (dev_info d)) in *; (destruct (Z.leb_spec bs len) as [Hle|]; [|iostep; rewrite Z.sub_diag, Z.add_0_r; split_and!; [by apply bl_same_refl|done..]]).
  { pose proof (Z.div_le_lower_bound len bs 1 ltac:(lia) ltac:(lia)). lia. }
  iostep. eapply iospec_mono; [apply read_whole_block_run; [done|eapply at_block_in; [done|done|lia]]| |done].
  intros data d' (Hs & ->). iostep. pose proof (at_block_next d block pos len 1 Hok Ha ltac:(lia) ltac:(unfold size; fold bs; lia)) as Hn.
  pose proof Hs as (Hok' & Hi' & Hc' & _). unfold size in Hn. fold bs in Hn. rewrite Z.mul_1_l in Hn.
  eapply iospec_mono; [apply (IH d' _ _ _ Hok' (at_block_same _ _ _ _ _ (bl_same_kept _ _ Hs) Hn))| |intros; by eapply bl_same_trans].
  { rewrite Hi'. fold bs. replace len with ((len - bs) + 1 * bs) in Hf by lia. rewrite Z.div_add in Hf by lia. lia. }
  intros [[rest len2] block2] d'' (Hs2 & Hlt & Hle2 & -> & Ha2). iostep. rewrite Hi' in Hlt. rewrite Hc'. unfold size. fold bs.
  pose proof Ha2 as (_ & ? & _).
  split_and!; try done; [by eapply bl_same_trans|lia| |].
  - destruct Hp as [?|Hp]; [lia|]. rewrite Hp. replace (len - len2) with (bs + (len - bs - len2)) by lia. by rewrite get_bytes_app by lia.
  - replace (pos + (len - len2)) with (pos + bs + (len - bs - len2)) by lia. unfold at_block, size in *. by rewrite Hi', Hc' in Ha2.
Qed.

Lemma read_middle_run d buf block pos len :
  bl_ok d -> 0 < buf -> at_block d block pos len -> len < 2 ^ 32 ->
  iospec (read_middle CACHE_LINE temp buf block len) d
    (fun '(data, len2, block2) d' => bl_same d d' /\ len2 < size d /\ len2 <= len /\ data = get_bytes pos (len - len2) (bl_content d) /\
       at_block d block2 (pos + (len - len2)) len2) (bl_same d).
Proof using All.
  intros Hok Hbuf Ha Hl32. pose proof (info_size_pos _ _ (bl_info d Hok)) as Hz. pose proof Ha as (Hb & Hl0 & Hp0 & Hl & Hp).
  unfold read_middle. do 2 iostep. case_match.
  { apply read_middle_loop_run; try done. pose proof (Z.div_pos len (size d) Hl0 Hz). unfold size in *. lia. }
  rewrite block_of_offset by (try done; apply wrap_small; lia). set (n := len / size d).
  pose proof (Z.div_pos len (size d) Hl0 Hz) as Hn. fold n in Hn.
  pose proof (Z.mul_div_le len (size d) Hz) as Hnl. fold n in Hnl. pose proof (Z.mod_pos_bound len (size d) Hz) as Hm. rewrite Z.mod_eq in Hm by (unfold size; lia). fold n in Hm.
  iostep. eapply iospec_mono; [apply bio_read_block_run; [done|done|lia|done|eapply at_block_blocks; [done|done|done|lia]]| |done].
  intros [k data] d' (-> & Hs & ->). rewrite Z.mul_comm, Z.eqb_refl. cbn [negb]. iostep. fold (size d).
  split_and!; try done; [lia|nia| |].
  - destruct Hp as [->|Hp].
    + assert (n = 0) as -> by (unfold n; apply Z.div_0_l; unfold size; lia). by rewrite Z.mul_0_r.
    + rewrite Hp. f_equal. lia.
  - destruct (decide (n = 0)) as [E|E].
    + rewrite E, Z.mul_0_r, Z.sub_0_r, Z.sub_diag, !Z.add_0_r. rewrite (wrap_small 32 block); [done|lia].
    + replace (pos + (len - (len - size d * n))) with (pos + n * size d) by lia. replace (len - size d * n) with (len - n * size d) by lia.
      apply at_block_next; [done..|lia|lia].
Qed.

Lemma bio_default_read_run d buf offset len :
  bl_ok d -> 0 < buf -> 0 <= offset < 2 ^ 32 -> 0 < len < 2 ^ 32 -> offset + len <= Z.of_nat (length (bl_content d)) ->
  iospec (bio_default_read CACHE_LINE temp buf offset len) d
    (fun '(n, data) d' => n = len /\ bl_same d d' /\ data = get_bytes offset len (bl_content d)) (bl_same d).
Proof using All.
  intros Hok Hbuf Ho Hl Hr. unfold bio_default_read. do 2 iostep. iostep.
  rewrite block_of_offset by first [done | lia | apply wrap_small; lia].
  eapply iospec_mono; [apply read_first_run; [done|lia..]| |done].
  intros [[first len1] block1] d1 (Hs1 & Hl1 & Hf & Ha1). iostep. pose proof Hs1 as (Hok1 & Hi1 & Hc1 & _).
  pose proof (at_block_same _ _ _ _ _ (bl_same_kept _ _ Hs1) Ha1) as Ha1'.
  eapply iospec_mono; [refine (read_middle_run d1 _ _ _ _ Hok1 _ Ha1' _); [|lia]| |intros; by eapply bl_same_trans].
  { lia. }
  intros [[middle len2] block2] d2 (Hs2 & Hz2 & Hl2 & Hm & Ha2). pose proof Hs2 as (Hok2 & Hi2 & Hc2 & _).
  pose proof (bl_same_trans _ _ _ Hs1 Hs2) as Hs. rewrite Hc1 in Hm. pose proof Ha2 as (_ & ? & _). pose proof Ha1 as (_ & ? & _).
  assert (first ++ middle = get_bytes offset (len - len2) (bl_content d)) as Hfm.
  { rewrite Hf, Hm, <- get_bytes_app by lia. f_equal. lia. }
  destruct (Z.ltb_spec 0 len2) as [Hlt|Hge].
  - iostep. pose proof (at_block_same _ _ _ _ _ (bl_same_kept _ _ Hs2) Ha2) as Ha2'.
    eapply iospec_mono; [apply read_whole_block_run; [done|eapply at_block_in; [done|done|lia]]| |intros; by eapply bl_same_trans].
    intros data d3 (Hs3 & ->). iostep. split_and!; [lia|by eapply bl_same_trans|].
    destruct Ha2' as (_ & _ & _ & _ & [?|Hp]); [lia|]. pose proof (info_size_pos _ _ (bl_info d2 Hok2)). unfold size in *.
    rewrite app_assoc, Hfm, Hp, get_bytes_get, Z.add_0_r by (rewrite ?Hi2; lia).
    replace (get_bytes offset len) with (get_bytes offset ((len - len2) + len2)) by (f_equal; lia). rewrite Hc2, Hc1, get_bytes_app by lia.
    do 2 f_equal. lia.
  - iostep. assert (len2 = 0) as -> by lia. rewrite Hfm, !Z.sub_0_r. split_and!; [lia|done|done].
Qed.

(** Writing. *)
Lemma write_first_run d data offset :
  bl_ok d -> 0 <= offset -> 0 < Z.of_nat (length data) -> offset + Z.of_nat (length data) <= Z.of_nat (length (bl_content d)) ->
  iospec (write_first temp data offset (Z.of_nat (length data)) (offset / size d)) d
    (fun '(data1, len1, block) d' => exists data0, data = data0 ++ data1 /\ len1 = Z.of_nat (length data1) /\ bl_kept d d' /\
       bl_content d' = put_bytes offset data0 (bl_content d) /\ at_block d block (offset + Z.of_nat (length data0)) len1) (bl_kept d).
Proof using All.
  intros Hok Ho Hl Hr. pose proof (info_size_pos _ _ (bl_info d Hok)) as Hz. destruct (bl_info d Hok) as [_ _ _ Hc Ht Hs].
  pose proof (Z.div_mod offset (size d) ltac:(unfold size; lia)) as Hdm. pose proof (Z.mod_pos_bound offset (size d) Hz) as Hm.
  pose proof (Z.div_pos offset (size d) Ho Hz) as Hq. unfold write_first. do 2 iostep. unfold size in *.
  set (bs := bd_block_size (dev_info d)) in *. set (len := Z.of_nat (length data)) in *.
  assert (offset / bs < bd_block_count (dev_info d)) as Hin by nia. assert (0 <= offset / bs * bs /\ offset / bs * bs + bs <= Z.of_nat (length (bl_content d))) as [Hin1 Hin2] by nia.
  destruct (Z.eqb_spec (offset mod bs) 0) as [E|E]; cbn.
  { iostep. exists []. rewrite put_bytes_nil. cbn. rewrite Z.add_0_r. split_and!; [done|done|by apply bl_kept_refl|done|].
    unfold at_block, size. fold bs. split_and!; lia. }
  iostep. eapply iospec_mono; [apply read_whole_block_run; [done|lia]| |intros; by apply bl_same_kept].
  intros old d' (Hs' & ->). unfold size. fold bs. set (n := Z.min (bs - offset mod bs) len).
  pose proof Hs' as (Hok' & Hi' & Hc' & _). set (part := take (Z.to_nat n) data).
  assert (Z.of_nat (length part) = n) as Hpl by (unfold part; rewrite length_take; lia).
  pose proof (length_get_bytes (offset / bs * bs) bs (bl_content d) Hin1 ltac:(lia) Hin2) as Hgl.
  iostep. eapply iospec_mono; [apply write_whole_block_run; [done|rewrite Hi'; lia|]| |intros; by eapply bl_kept_trans; [apply bl_same_kept|]].
  { unfold size. rewrite Hi', length_put_bytes by (fold bs; lia). fold bs. lia. }
  intros _ d2 (Hk & Hc2). iostep. exists part. rewrite (wrap_small 32 (offset / bs + 1)) by lia.
  split_and!; [symmetry; apply take_drop|rewrite length_drop; lia|by eapply bl_kept_trans; [apply bl_same_kept|]| |].
  - rewrite Hc2, Hc'. unfold size. rewrite Hi'. fold bs. rewrite put_bytes_block by first [assumption | lia]. f_equal. lia.
  - unfold at_block, size. fold bs. split_and!; lia.
Qed.

Lemma write_middle_loop_run fuel : forall d data block pos,
  bl_ok d -> at_block d block pos (Z.of_nat (length data)) -> Z.of_nat (length data) / size d <= Z.of_nat fuel ->
  iospec (write_middle_loop temp fuel data block (Z.of_nat (length data))) d
    (fun '(data2, len2, block2) d' => exists data1, data = data1 ++ data2 /\ len2 = Z.of_nat (length data2) /\ len2 < size d /\ bl_kept d d' /\
       bl_content d' = put_bytes pos data1 (bl_content d) /\ at_block d block2 (pos + Z.of_nat (length data1)) len2) (bl_kept d).
Proof using All.
  induction fuel as [|fuel IH]; intros d data block pos Hok Ha Hf; pose proof (info_size_pos _ _ (bl_info d Hok)) as Hz; pose proof Ha as (Hb & Hl0 & Hp0 & Hl & Hp); cbn [write_middle_loop]; do 2 iostep;
    unfold size in *; set (bs := bd_block_size (dev_info d)) in *;
    (destruct (Z.leb_spec bs (Z.of_nat (length data))) as [Hle|]; [|iostep; exists []; rewrite put_bytes_nil; cbn; rewrite Z.add_0_r; split_and!; [done..|by apply bl_kept_refl|done|done]]).
  { pose proof (Z.div_le_lower_bound (Z.of_nat (length data)) bs 1 ltac:(lia) ltac:(lia)). lia. }
  set (part := take (Z.to_nat bs) data). assert (Z.of_nat (length part) = bs) as Hpl by (unfold part; rewrite length_take; lia).
  destruct Hp as [?|Hp]; [lia|].
  iostep. eapply iospec_mono; [apply write_whole_block_run; [done|eapply at_block_in; [done|done|lia]|done]| |done].
  intros _ d' (Hk & Hc). pose proof (at_block_next d block pos _ 1 Hok Ha ltac:(lia) ltac:(unfold size; fold bs; lia)) as Hn.
  pose proof Hk as (Hok' & Hi' & Hc' & _). unfold size in Hn. fold bs in Hn. rewrite Z.mul_1_l in Hn.
  assert (Z.of_nat (length data) - bs = Z.of_nat (length (drop (Z.to_nat bs) data))) as El by (rewrite length_drop; lia). rewrite El in *.
  eapply iospec_mono; [apply (IH d' _ _ _ Hok' (at_block_same _ _ _ _ _ Hk Hn))| |intros; by eapply bl_kept_trans].
  { rewrite Hi'. fold bs. replace (Z.of_nat (length data)) with (Z.of_nat (length (drop (Z.to_nat bs) data)) + 1 * bs) in Hf by lia.
    rewrite Z.div_add in Hf by lia. lia. }
  intros [[data2 len2] block2] d'' (data1 & Hd & -> & Hlt & Hk2 & Hc2 & Ha2). exists (part ++ data1). rewrite Hi' in Hlt. fold bs in Hlt.
  rewrite length_app, Nat2Z.inj_add, Hpl, Z.add_assoc. split_and!; try done.
  - rewrite <- app_assoc, <- Hd. symmetry. apply take_drop.
  - by eapply bl_kept_trans.
  - rewrite Hc2, Hc. unfold size. fold bs. rewrite Hp, put_bytes_app, Hpl; [done|lia|].
    apply (f_equal length) in Hd. rewrite length_app in *. lia.
  - unfold at_block, size in *. by rewrite Hi', Hc' in Ha2.
Qed.

Lemma write_middle_run d buf data block pos :
  bl_ok d -> 0 < buf -> at_block d block pos (Z.of_nat (length data)) -> Z.of_nat (length data) < 2 ^ 32 ->
  iospec (write_middle CACHE_LINE temp buf data block (Z.of_nat (length data))) d
    (fun '(data2, len2, block2) d' => exists data1, data = data1 ++ data2 /\ len2 = Z.of_nat (length data2) /\ len2 < size d /\ bl_kept d d' /\
       bl_content d' = put_bytes pos data1 (bl_content d) /\ at_block d block2 (pos + Z.of_nat (length data1)) len2) (bl_kept d).
Proof using All.
  intros Hok Hbuf Ha Hl32. pose proof (info_size_pos _ _ (bl_info d Hok)) as Hz. pose proof Ha as (Hb & Hl0 & Hp0 & Hl & Hp).
  unfold write_middle. do 2 iostep. set (len := Z.of_nat (length data)) in *. case_match.
  { apply write_middle_loop_run; try done. pose proof (Z.div_pos len (size d) Hl0 Hz). unfold size, len in *. lia. }
  rewrite block_of_offset by (try done; apply wrap_small; lia). set (n := len / size d).
  pose proof (Z.div_pos len (size d) Hl0 Hz) as Hn. fold n in Hn.
  pose proof (Z.mul_div_le len (size d) Hz) as Hnl. fold n in Hnl. pose proof (Z.mod_pos_bound len (size d) Hz) as Hm. rewrite Z.mod_eq in Hm by (unfold size; lia). fold n in Hm.
  assert (0 <= n * size d) by (apply Z.mul_nonneg_nonneg; unfold size in *; lia).
  fold (size d). assert (Z.of_nat (length (take (Z.to_nat (size d * n)) data)) = n * size d) as Hpl by (rewrite length_take; lia).
  iostep. eapply iospec_mono; [apply bio_write_block_run; [done|done|lia|done|eapply at_block_blocks; [done|done|done|lia]|done]| |done].
  intros k d' (-> & Hk & Hc). fold (size d). rewrite (Z.mul_comm (size d) n) in *. rewrite Z.eqb_refl. cbn [negb]. iostep.
  exists (take (Z.to_nat (n * size d)) data). rewrite Hpl.
  split_and!; [by rewrite take_drop|rewrite length_drop; lia|lia|done| |].
  - rewrite Hc. fold (size d). destruct Hp as [Hp|Hp]; [|by rewrite Hp].
    assert (data = []) as -> by (by destruct data). by rewrite take_nil, !put_bytes_nil.
  - destruct (decide (n = 0)) as [E|E].
    + rewrite E, !Z.add_0_r, Z.sub_0_r. rewrite (wrap_small 32 block); [done|lia].
    + apply at_block_next; [done..|lia|lia].
Qed.

Lemma bio_default_write_run d buf data offset :
  bl_ok d -> 0 < buf -> 0 <= offset < 2 ^ 32 -> 0 < Z.of_nat (length data) < 2 ^ 32 ->
  offset + Z.of_nat (length data) <= Z.of_nat (length (bl_content d)) ->
  iospec (bio_default_write CACHE_LINE temp buf data offset (Z.of_nat (length data))) d
    (fun n d' => n = Z.of_nat (length data) /\ bl_kept d d' /\ bl_content d' = put_bytes offset data (bl_content d)) (bl_kept d).
Proof using All.
  intros Hok Hbuf Ho Hl Hr. unfold bio_default_write. do 2 iostep. iostep.
  rewrite block_of_offset by first [done | lia | apply wrap_small; lia].
  eapply iospec_mono; [apply write_first_run; [done|lia..]| |done].
  intros [[data1 len1] block1] d1 (data0 & -> & -> & Hk1 & Hc1 & Ha1). iostep. pose proof Hk1 as (Hok1 & Hi1 & Hlc1 & _). rewrite length_app in *.
  pose proof (at_block_same _ _ _ _ _ Hk1 Ha1) as Ha1'.
  eapply iospec_mono; [refine (write_middle_run d1 _ _ _ _ Hok1 _ Ha1' _); lia| |intros; by eapply bl_kept_trans].
  intros [[data2 len2] block2] d2 (mid & -> & -> & Hz2 & Hk2 & Hc2 & Ha2). pose proof Hk2 as (Hok2 & Hi2 & Hlc2 & _).
  pose proof (bl_kept_trans _ _ _ Hk1 Hk2) as Hk. rewrite length_app in *.
  assert (bl_content d2 = put_bytes offset (data0 ++ mid) (bl_content d)) as Hc by (rewrite Hc2, Hc1, put_bytes_app; [done|lia|rewrite length_app; lia]).
  destruct (Z.ltb_spec 0 (Z.of_nat (length data2))) as [Hlt|Hge].
  - iostep. pose proof (at_block_same _ _ _ _ _ Hk2 Ha2) as Ha2'. pose proof (at_block_in _ _ _ _ Hok2 Ha2' Hlt) as Hin.
    eapply iospec_mono; [apply read_whole_block_run; done| |intros; by eapply bl_kept_trans, bl_same_kept].
    intros old d3 (Hs3 & ->). pose proof Hs3 as (Hok3 & Hi3 & Hc3 & _). pose proof (bl_kept_trans _ _ _ Hk (bl_same_kept _ _ Hs3)) as Hk3.
    destruct Ha2' as (_ & _ & Hq & _ & [?|Hp]); [lia|]. pose proof (info_size_pos _ _ (bl_info d2 Hok2)) as Hz. destruct (bl_info d2 Hok2) as [_ _ _ _ Ht Hb].
    unfold size in *. rewrite <- Hi2 in Hz2. set (bs := bd_block_size (dev_info d2)) in *.
    assert (0 <= block2 * bs /\ block2 * bs + bs <= Z.of_nat (length (bl_content d2))) as [Hb1 Hb2] by nia.
    pose proof (length_get_bytes (block2 * bs) bs (bl_content d2) Hb1 ltac:(lia) Hb2) as Hgl. rewrite (take_ge data2) by lia.
    iostep. eapply iospec_mono; [apply write_whole_block_run; [done|by rewrite Hi3|]| |intros; by eapply bl_kept_trans].
    { unfold size. rewrite Hi3, length_put_bytes; fold bs; lia. }
    intros _ d4 (Hk4 & Hc4). iostep. split_and!; [lia|by eapply bl_kept_trans|].
    rewrite Hc4, Hc3. unfold size. rewrite Hi3. fold bs. rewrite put_bytes_block, Z.add_0_r, Hp, Hc by first [assumption | lia].
    rewrite (app_assoc data0), (put_bytes_app offset (data0 ++ mid)), length_app by (rewrite ?length_app; lia). f_equal. lia.
  - iostep. destruct data2; [|cbn in Hge; lia]. rewrite app_nil_r. split_and!; [cbn; lia|done|done].
Qed.
End blocks.
