(* ===== verification/BioDev.v ===== *)
(** * Devices that keep the laws

    Reads, writes and erases at byte offsets through the public entry points,
    against the laws of a device; and the laws of devices with the default hooks,
    of memory devices, and of sub devices over a lawful parent. *)
From S2P Require Import Prelude Align KState Pmm Heap HeapInv Bio BioOps.

(** ** The public entry points *)
(** The part of a request that is on a device of [size] bytes. *)
Definition trimmed (size offset len : Z) : Z :=
  if decide (0 <= offset < size) then Z.min len (size - offset) else 0.

Section public.
Context `{KConfig} {D : Type}.
Implicit Types (d : D).

Lemma bio_trim_range_spec dev size offset len :
  info_ok dev size -> 0 <= len -> offset + len < 2 ^ 63 -> bio_trim_range dev offset len = trimmed size offset len.
Proof.
  intros [_ Hsh Hs Hc Ht ->] Hl Hw. unfold bio_trim_range, trimmed. destruct (Z.ltb_spec offset 0); [by rewrite decide_False by lia|].
  destruct (Z.leb_spec (bd_total_size dev) offset); [by rewrite decide_False by lia|]. rewrite decide_True by lia.
  destruct (Z.eqb_spec len 0) as [->|]; [lia|]. rewrite to_signed_small by lia.
  assert (bd_total_size dev < 2 ^ 64).
  { rewrite Ht, Hs. assert (2 ^ bd_block_shift dev <= 2 ^ 31) by (apply Z.pow_le_mono_r; lia).
    assert (0 < 2 ^ bd_block_shift dev) by (apply Z.pow_pos_nonneg; lia). nia. }
  destruct (Z.ltb_spec (bd_total_size dev) (offset + len)); [|lia]. rewrite (wrap_small 64 (bd_total_size dev - offset)); lia.
Qed.

Lemma bio_read_run `{!BlockBytes D, !BlockBytesLaws D} d buf offset len (n := trimmed (Z.of_nat (length (bl_content d))) offset len) :
  bl_ok d -> 0 < buf -> 0 <= len -> offset + len < 2 ^ 63 -> offset + n <= bl_limit d ->
  iospec (bio_read buf offset len) d
    (fun '(k, data) d' => k = n /\ bl_same d d' /\ data = get_bytes offset n (bl_content d)) (bl_same d).
Proof.
  intros Hok Hbuf Hl Hw Hr. pose proof (bl_info d Hok) as Hi. unfold bio_read. do 2 iostep. iostep. iostep; [apply Z.ltb_lt, Hi|].
  iostep. iostep; [by destruct buf|]. rewrite (bio_trim_range_spec _ _ _ _ Hi) by lia. fold n.
  destruct (Z.eqb_spec n 0) as [E|E]; [iostep; rewrite E; split_and!; [done|by apply bl_same_refl|done]|].
  unfold n, trimmed in *. case_decide; [|done]. apply bl_read; lia || done.
Qed.

Lemma bio_write_run `{!BlockBytes D, !BlockBytesLaws D} d buf data offset (n := trimmed (Z.of_nat (length (bl_content d))) offset (Z.of_nat (length data))) :
  bl_ok d -> 0 < buf -> offset + Z.of_nat (length data) < 2 ^ 63 -> offset + n <= bl_limit d ->
  iospec (bio_write buf data offset (Z.of_nat (length data))) d
    (fun k d' => k = n /\ bl_kept d d' /\ bl_content d' = put_bytes offset (take (Z.to_nat n) data) (bl_content d)) (bl_kept d).
Proof.
  intros Hok Hbuf Hw Hr. pose proof (bl_info d Hok) as Hi. unfold bio_write. do 2 iostep. iostep. iostep; [apply Z.ltb_lt, Hi|].
  iostep. iostep; [by destruct buf|]. rewrite (bio_trim_range_spec _ _ _ _ Hi) by lia. fold n.
  destruct (Z.eqb_spec n 0) as [E|E]; [iostep; rewrite E; cbn; rewrite put_bytes_nil; split_and!; [done|by apply bl_kept_refl|done]|].
  assert (Z.of_nat (length (take (Z.to_nat n) data)) = n) as El by (rewrite length_take; unfold n, trimmed in *; case_decide; lia).
  rewrite <- El at 2. eapply iospec_mono; [apply bl_write; try done; rewrite ?El; unfold n, trimmed in *; case_decide; lia| |done].
  rewrite El. done.
Qed.

(** Writing all of the data, when it is on the device. *)
Lemma bio_write_all `{!BlockBytes D, !BlockBytesLaws D} d buf data offset :
  bl_ok d -> 0 < buf -> 0 <= offset -> offset + Z.of_nat (length data) <= Z.of_nat (length (bl_content d)) ->
  offset + Z.of_nat (length data) < 2 ^ 63 -> offset + Z.of_nat (length data) <= bl_limit d ->
  iospec (bio_write buf data offset (Z.of_nat (length data))) d
    (fun k d' => k = Z.of_nat (length data) /\ bl_kept d d' /\ bl_content d' = put_bytes offset data (bl_content d)) (bl_kept d).
Proof.
  intros Hok Hbuf Ho Hl Hw Hr.
  assert (trimmed (Z.of_nat (length (bl_content d))) offset (Z.of_nat (length data)) = Z.of_nat (length data)) as En
    by (unfold trimmed; case_decide; lia).
  eapply iospec_mono; [apply bio_write_run; [done..|rewrite En; lia]| |done].
  intros k d' (-> & Hk & ->). rewrite En, take_ge by lia. done.
Qed.

Lemma bio_erase_run `{!BlockDevice D, !BlockDeviceLaws D} d offset len (n := trimmed (Z.of_nat (length (bl_content d))) offset len) :
  bl_ok d -> 0 <= len -> offset + len < 2 ^ 63 -> offset + n <= bl_limit d ->
  iospec (bio_erase offset len) d
    (fun k d' => k = n /\ bl_kept d d' /\
       bl_content d' = put_bytes offset (replicate (Z.to_nat n) (bd_erase_byte (dev_info d))) (bl_content d)) (bl_kept d).
Proof.
  intros Hok Hl Hw Hr. pose proof (bl_info d Hok) as Hi. unfold bio_erase. do 2 iostep. iostep. iostep; [apply Z.ltb_lt, Hi|].
  rewrite (bio_trim_range_spec _ _ _ _ Hi) by lia. fold n.
  destruct (Z.eqb_spec n 0) as [E|E]; [iostep; rewrite E; cbn; rewrite put_bytes_nil; split_and!; [done|by apply bl_kept_refl|done]|].
  unfold n, trimmed in *. case_decide; [|done]. apply bl_erase; lia || done.
Qed.

(** ** Erasing with writes *)
Lemma default_erase_loop_run `{!BlockBytes D, !BlockBytesLaws D} fuel erase_buf : forall d pos remaining erased,
  bl_ok d -> 0 < erase_buf -> 0 <= pos -> 0 <= remaining -> pos + remaining <= Z.of_nat (length (bl_content d)) -> pos + remaining <= bl_limit d ->
  pos + remaining < 2 ^ 63 -> remaining < Z.of_nat fuel ->
  iospec (default_erase_loop fuel erase_buf pos remaining erased) d
    (fun n d' => n = erased + remaining /\ bl_kept d d' /\
       bl_content d' = put_bytes pos (replicate (Z.to_nat remaining) (bd_erase_byte (dev_info d))) (bl_content d)) (bl_kept d).
Proof.
  induction fuel as [|fuel IH]; intros d pos remaining erased Hok Hb Hp Hr Hl Hlim Hw Hf; [lia|]. cbn [default_erase_loop].
  destruct (Z.ltb_spec 0 remaining) as [Hlt|]; [|iostep; assert (remaining = 0) as -> by lia; cbn; rewrite Z.add_0_r, put_bytes_nil; split_and!; [done|by apply bl_kept_refl|done]].
  do 2 iostep. pose proof (info_size_pos _ _ (bl_info d Hok)) as Hz. set (n := Z.min remaining (bd_block_size (dev_info d))).
  set (e := bd_erase_byte (dev_info d)). iostep.
  assert (Z.of_nat (length (replicate (Z.to_nat n) e)) = n) as El by (rewrite length_replicate; lia). rewrite <- El at 2.
  eapply iospec_mono; [apply bio_write_all; rewrite ?El; lia || done| |done].
  intros k d' (-> & Hk & Hc). rewrite El, Z.ltb_irrefl. pose proof Hk as (Hok' & Hi' & Hc' & _).
  eapply iospec_mono; [apply IH; rewrite ?Hc', ?(bl_limit_kept _ _ Hk); lia || done| |intros; by eapply bl_kept_trans].
  intros k d2 (-> & Hk2 & Hc2). split_and!; [lia|by eapply bl_kept_trans|]. rewrite Hc2, Hc, Hi'. fold e.
  rewrite <- El at 1. rewrite <- put_bytes_app by (rewrite ?length_app, ?length_replicate; lia).
  rewrite <- replicate_add. do 2 f_equal. lia.
Qed.
End public.

(** ** The default hooks *)
Section default.
Context `{KConfig} {D : Type} `{!BlockHooks D} `{!BlockHooksLaws D} (CACHE_LINE temp erase_buf : Z) (Htemp : 0 < temp) (Herase : 0 < erase_buf).

#[local] Instance default_bytes_inst : BlockBytes D := default_bytes CACHE_LINE temp.
#[local] Instance default_device_inst : BlockDevice D := default_device CACHE_LINE temp erase_buf.

(** The block of an offset of 4 GiB and more does not fit the 32 bits it is
    computed with, and these devices work up to there. *)
Definition default_limit : Z := 2 ^ 32 - 1.

#[program] Definition default_bytes_laws : @BlockBytesLaws D (default_bytes CACHE_LINE temp) :=
  {| bl_hooks := _; bl_limit _ := default_limit |}.
Next Obligation. done. Qed.
Next Obligation. intros d buf offset len. unfold default_limit. intros. apply bio_default_read_run; lia || done. Qed.
Next Obligation. intros d buf data offset. unfold default_limit. intros. apply bio_default_write_run; lia || done. Qed.

#[program] Definition default_device_laws : @BlockDeviceLaws D (default_device CACHE_LINE temp erase_buf) :=
  {| bl_bytes := default_bytes_laws |}.
Next Obligation.
  intros d offset len Hok Ho Hl Hr Hlim. unfold default_device, dev_erase, bio_default_erase.
  apply (default_erase_loop_run (BlockBytesLaws0 := default_bytes_laws)); try done; try lia. cbn in *. unfold default_limit in *. lia.
Qed.
End default.

(** ** Windows on bytes *)
Lemma get_bytes_take off len n l : 0 <= off -> 0 <= len -> off + len <= n -> get_bytes off len (take (Z.to_nat n) l) = get_bytes off len l.
Proof.
  intros. replace (take (Z.to_nat n) l) with (get_bytes 0 n l) by (unfold get_bytes; by rewrite drop_0). by rewrite get_bytes_get by lia.
Qed.

(** A write inside a window, seen through it. *)
Lemma get_bytes_put base size off d l :
  0 <= base -> 0 <= off -> off + Z.of_nat (length d) <= size -> base + size <= Z.of_nat (length l) ->
  get_bytes base size (put_bytes (base + off) d l) = put_bytes off d (get_bytes base size l).
Proof.
  intros Hb Ho Hd Hl. pose proof (length_get_bytes base size l ltac:(lia) ltac:(lia) Hl) as Hg.
  apply list_eq. intros i. rewrite lookup_get_bytes, !lookup_put_bytes by lia. rewrite lookup_get_bytes by lia.
  repeat case_decide; try lia; try done. f_equal. lia.
Qed.

(** ** Memory devices *)
Section memdev.
Import mem.

(** The memory has the bytes of all blocks, and fewer than 4 GiB. *)
Record mem_ok (m : mem_bdev) : Prop := {
  mo_info : info_ok (mem_dev m) (bd_total_size (mem_dev m));
  mo_size : bd_block_size (mem_dev m) = BLOCKSIZE;
  mo_ptr : bd_total_size (mem_dev m) <= Z.of_nat (length (mem_ptr m));
  mo_small : bd_total_size (mem_dev m) < 2 ^ 32;
}.
Definition mem_content (m : mem_bdev) : list Z := take (Z.to_nat (bd_total_size (mem_dev m))) (mem_ptr m).

Lemma info_total_nonneg dev size : info_ok dev size -> 0 <= bd_total_size dev.
Proof. intros Hi. pose proof (info_size_pos _ _ Hi). destruct Hi as [_ _ _ ? -> _]. nia. Qed.

Lemma mem_content_length m : mem_ok m -> Z.of_nat (length (mem_content m)) = bd_total_size (mem_dev m).
Proof. intros [Hi _ Hp _]. pose proof (info_total_nonneg _ _ Hi). unfold mem_content. rewrite length_take. lia. Qed.

Lemma mem_length_kept m m' : mem_ok m -> mem_ok m' -> mem_dev m' = mem_dev m -> length (mem_content m') = length (mem_content m).
Proof. intros Hok Hok' Ed. apply Nat2Z.inj. by rewrite !mem_content_length, Ed. Qed.

Lemma memcpy_from_run m offset len (Q : Z * list Z -> mem_bdev -> Prop) E :
  mem_ok m -> 0 <= offset -> 0 <= len -> offset + len <= bd_total_size (mem_dev m) ->
  Q (len, get_bytes offset len (mem_content m)) m -> iospec (memcpy_from offset len) m Q E.
Proof.
  intros [_ _ Hp _] Ho Hl Hr HQ. unfold memcpy_from. exists (inr (len, get_bytes offset len (mem_ptr m))), m.
  rewrite (proj2 (Z.leb_le 0 offset)), (proj2 (Z.leb_le (offset + len) _)) by lia. split; [done|].
  unfold mem_content in HQ. by rewrite get_bytes_take in HQ by lia.
Qed.

Lemma memcpy_to_run m data offset (Q : Z -> mem_bdev -> Prop) E :
  mem_ok m -> 0 <= offset -> offset + Z.of_nat (length data) <= bd_total_size (mem_dev m) ->
  (forall m', mem_ok m' -> mem_dev m' = mem_dev m -> mem_content m' = put_bytes offset data (mem_content m) -> Q (Z.of_nat (length data)) m') ->
  iospec (memcpy_to data offset (Z.of_nat (length data))) m Q E.
Proof.
  intros [Hi Hs Hp Hsm] Ho Hr HQ. unfold memcpy_to. rewrite Nat2Z.id, take_ge by lia.
  eexists _, _. rewrite (proj2 (Z.leb_le 0 offset)), (proj2 (Z.leb_le (offset + _) _)) by lia. split; [done|].
  apply HQ; [constructor; cbn; try done; rewrite length_put_bytes; lia|done|]. unfold mem_content. cbn.
  pose proof (get_bytes_put 0 (bd_total_size (mem_dev m)) offset data (mem_ptr m) ltac:(lia) ltac:(lia) ltac:(lia) ltac:(lia)) as Hg.
  unfold get_bytes in Hg. cbn in Hg. by rewrite drop_0 in Hg.
Qed.

Lemma mem_blocks m block count : mem_ok m -> 0 <= block -> 0 < count -> block + count <= bd_block_count (mem_dev m) ->
  u32 (block * BLOCKSIZE) = block * bd_block_size (mem_dev m) /\ u32 (count * BLOCKSIZE) = count * bd_block_size (mem_dev m) /\
  block * bd_block_size (mem_dev m) + count * bd_block_size (mem_dev m) <= bd_total_size (mem_dev m) /\
  0 <= block * bd_block_size (mem_dev m) /\ 0 <= count * bd_block_size (mem_dev m).
Proof.
  intros [[_ _ _ _ Ht _] Hs _ Hsm] Hb Hc Hr. rewrite Ht, !Hs in *. unfold BLOCKSIZE in *. rewrite !wrap_small by lia. lia.
Qed.

#[export] #[program] Instance mem_hooks_laws : BlockHooksLaws mem_bdev := {| bl_ok := mem_ok; bl_content := mem_content; bl_steady _ _ := True |}.
Next Obligation. intros m Hok. rewrite mem_content_length by done. apply Hok. Qed.
Next Obligation. by split. Qed.
Next Obligation.
  intros m buf block count Hok Hbuf Hb Hc Hr. cbn in *. destruct (mem_blocks m block count Hok Hb Hc Hr) as (Eb & Ec & Hl & ? & ?).
  unfold mem_bdev_read_block. rewrite Eb, Ec. by apply memcpy_from_run.
Qed.
Next Obligation.
  intros m buf data block count Hok Hbuf Hb Hc Hr Hd. cbn in *. destruct (mem_blocks m block count Hok Hb Hc Hr) as (Eb & Ec & Hl & ? & ?).
  unfold mem_bdev_write_block. rewrite Eb, Ec, <- Hd. apply memcpy_to_run; [done|lia|lia|].
  intros m' Hok' Ed Ec'. split; [done|]. split; [|done]. split; [done|]. split; [done|]. split; [|done]. by apply mem_length_kept.
Qed.

#[export] #[program] Instance mem_bytes_laws : BlockBytesLaws mem_bdev := {| bl_limit _ := 2 ^ 32 |}.
Next Obligation. done. Qed.
Next Obligation.
  intros m buf offset len Hok Hbuf Ho Hl Hr _. cbn in *. rewrite mem_content_length in Hr by done. apply memcpy_from_run; try done; lia.
Qed.
Next Obligation.
  intros m buf data offset Hok Hbuf Ho Hl Hr _. cbn in *. rewrite mem_content_length in Hr by done. apply memcpy_to_run; try done.
  intros m' Hok' Ed Ec'. split; [done|]. split; [|done]. split; [done|]. split; [done|]. split; [|done]. by apply mem_length_kept.
Qed.

#[program] Definition mem_device_laws `{KConfig} (erase_buf : Z) (Herase : 0 < erase_buf) : @BlockDeviceLaws mem_bdev (mem_device erase_buf) :=
  {| bl_bytes := mem_bytes_laws |}.
Next Obligation.
  intros ? erase_buf Herase m offset len Hok Ho Hl Hr Hlim. unfold mem_device, dev_erase, bio_default_erase.
  apply default_erase_loop_run; try done; try lia. cbn in *. lia.
Qed.
End memdev.

(** ** Sub devices *)
Section subdev.
Context `{KConfig} {P : Type}.
Implicit Types (s : subdev_t P).

Section bytes.
Context `{!BlockBytes P} `{!BlockBytesLaws P}.

(** The blocks of the sub device are blocks of the parent. *)
Record sub_ok s : Prop := {
  so_parent : bl_ok (sub_parent s);
  so_info : info_ok (sub_dev s) (bd_total_size (sub_dev s));
  so_size : bd_block_size (sub_dev s) = bd_block_size (dev_info (sub_parent s));
  so_erase : bd_erase_byte (sub_dev s) = bd_erase_byte (dev_info (sub_parent s));
  so_offset : 0 <= sub_offset s;
  so_blocks : sub_offset s + bd_block_count (sub_dev s) <= bd_block_count (dev_info (sub_parent s));
}.
Definition base s : Z := sub_offset s * bd_block_size (sub_dev s).
Definition sub_content s : list Z := get_bytes (base s) (bd_total_size (sub_dev s)) (bl_content (sub_parent s)).

(** The window is in the parent, and its start fits 63 bits. *)
Lemma sub_window s : sub_ok s ->
  0 <= base s /\ 0 <= bd_total_size (sub_dev s) /\ base s + bd_total_size (sub_dev s) <= Z.of_nat (length (bl_content (sub_parent s))) /\
  Z.of_nat (length (bl_content (sub_parent s))) < 2 ^ 63 /\ sub_base s = base s.
Proof.
  intros [Hp Hi Hs _ Ho Hb]. pose proof (info_total_nonneg _ _ Hi) as Ht0. pose proof (info_size_pos _ _ (bl_info _ Hp)) as Hz.
  destruct (bl_info _ Hp) as [_ Hsh Hsz Hc Ht ->]. destruct Hi as [_ _ _ Hc' Ht' _]. unfold sub_base, base. rewrite Ht, Ht', Hs in *.
  assert (bd_block_size (dev_info (sub_parent s)) <= 2 ^ 31) by (rewrite Hsz; apply Z.pow_le_mono_r; lia).
  rewrite (wrap_small 64 (sub_offset s * _)) by nia. split_and!; nia.
Qed.

Lemma sub_content_length s : sub_ok s -> Z.of_nat (length (sub_content s)) = bd_total_size (sub_dev s).
Proof. intros Hok. destruct (sub_window s Hok) as (? & ? & ? & _). by apply length_get_bytes. Qed.

(** What the parent's calls mean for the sub device. *)
(** The sub device stays where it is on its parent. *)
Definition sub_steady s s' : Prop :=
  sub_dev s' = sub_dev s /\ (bl_kept (sub_parent s) (sub_parent s') \/ sub_parent s' = sub_parent s) /\ sub_offset s' = sub_offset s.
#[export] Instance sub_steady_preorder : PreOrder sub_steady.
Proof.
  split; [intros s; split; [done|]; by split; [right|]|]. intros s1 s2 s3 (Ed1 & Hp1 & Eo1) (Ed2 & Hp2 & Eo2). split_and!; try congruence.
  destruct Hp1 as [Hp1|E1], Hp2 as [Hp2|E2]; rewrite ?E1, ?E2 in *; auto. left. by eapply bl_kept_trans.
Qed.

Definition with_parent s (p : P) : subdev_t P := Subdev (sub_dev s) p (sub_offset s).

Lemma sub_ok_parent s p : sub_ok s -> bl_kept (sub_parent s) p -> sub_ok (with_parent s p).
Proof. intros [Hp Hi Hs He Ho Hb] (Hok & Hi' & Hl & _). constructor; cbn; rewrite ?Hi'; done. Qed.

Lemma sub_same s p : sub_ok s -> bl_same (sub_parent s) p ->
  sub_ok (with_parent s p) /\ sub_dev (with_parent s p) = sub_dev s /\ sub_content (with_parent s p) = sub_content s /\
  sub_steady s (with_parent s p).
Proof.
  intros Hok Hs. split; [by apply sub_ok_parent, bl_same_kept|]. split; [done|]. 
  split; [unfold sub_content, base; cbn; by destruct Hs as (_ & _ & -> & _)|]. split; [done|]. split; [|done].
  by left; apply bl_same_kept.
Qed.

Lemma sub_kept s p : sub_ok s -> bl_kept (sub_parent s) p ->
  sub_ok (with_parent s p) /\ sub_dev (with_parent s p) = sub_dev s /\ length (sub_content (with_parent s p)) = length (sub_content s) /\
  sub_steady s (with_parent s p).
Proof.
  intros Hok Hk. pose proof (sub_ok_parent _ _ Hok Hk) as Hok'. split; [done|]. split; [done|].
  split; [apply Nat2Z.inj; by rewrite !sub_content_length|]. split; [done|]. split; [by left|done].
Qed.

Lemma sub_put s p offset data : sub_ok s -> bl_content p = put_bytes (base s + offset) data (bl_content (sub_parent s)) ->
  0 <= offset -> offset + Z.of_nat (length data) <= bd_total_size (sub_dev s) -> sub_content (with_parent s p) = put_bytes offset data (sub_content s).
Proof.
  intros Hok Hc Ho Hl. destruct (sub_window s Hok) as (? & ? & ? & _). unfold sub_content, base. cbn. fold (base s). rewrite Hc. by apply get_bytes_put.
Qed.

Lemma on_parent_run {A} (m : io P A) s Q E :
  iospec m (sub_parent s) (fun a p => Q a (with_parent s p)) (fun p => E (with_parent s p)) ->
  iospec (on_parent m) s Q E.
Proof. intros (r & p & Em & Hr). unfold on_parent. exists r. eexists. rewrite Em. done. Qed.

Lemma sub_block_in s block count : sub_ok s -> 0 <= block -> 0 < count -> block + count <= bd_block_count (sub_dev s) ->
  0 <= base s /\ u32 (block + sub_offset s) = block + sub_offset s /\ 0 <= block + sub_offset s /\ block + sub_offset s + count <= bd_block_count (dev_info (sub_parent s)) /\
  0 <= block * bd_block_size (sub_dev s) /\ 0 <= count * bd_block_size (sub_dev s) /\
  block * bd_block_size (sub_dev s) + count * bd_block_size (sub_dev s) <= bd_total_size (sub_dev s) /\
  (block + sub_offset s) * bd_block_size (sub_dev s) = base s + block * bd_block_size (sub_dev s).
Proof.
  intros [Hp Hi Hs _ Ho Hb] Hb0 Hc Hr. pose proof (info_size_pos _ _ Hi). destruct (bl_info _ Hp) as [_ _ _ Hc' _ _].
  destruct Hi as [_ _ _ _ -> _]. unfold base. rewrite wrap_small by lia. split_and!; nia.
Qed.

#[export] #[program] Instance subdev_hooks_laws : BlockHooksLaws (subdev_t P) := 
  {| bl_ok := sub_ok; bl_content := sub_content; bl_steady := sub_steady |}.
Next Obligation. intros s Hok. rewrite sub_content_length by done. apply Hok. Qed.
Next Obligation.
  intros s buf block count Hok Hbuf Hb Hc Hr. cbn in *. destruct (sub_block_in s block count Hok Hb Hc Hr) as (Hb1 & Eb & Hb0 & Hin & ? & ? & Hl & Eo).
  unfold subdev_read_block. do 2 iostep. apply on_parent_run. rewrite Eb.
  eapply iospec_mono; [apply bio_read_block_run; [apply Hok|done|done|lia|by left]| |].
  - intros [n data] p (-> & Hs & ->). rewrite <- (so_size s Hok), Eo. unfold sub_content. rewrite get_bytes_get by lia.
    split; [done|]. split; [|done]. by apply sub_same.
  - intros p Hs. by apply sub_same.
Qed.
Next Obligation.
  intros s buf data block count Hok Hbuf Hb Hc Hr Hd. cbn in *. destruct (sub_block_in s block count Hok Hb Hc Hr) as (Hb1 & Eb & Hb0 & Hin & ? & ? & Hl & Eo).
  unfold subdev_write_block. do 2 iostep. apply on_parent_run. rewrite Eb.
  eapply iospec_mono; [apply bio_write_block_run; [apply Hok|done|done|lia|by left|by rewrite <- (so_size s Hok)]| |].
  - intros n p (-> & Hk & Ec). rewrite <- (so_size s Hok), Eo in *. split; [done|]. split; [by apply sub_kept|]. apply sub_put; try done. lia.
  - intros p Hk. by apply sub_kept.
Qed.

(** A request on the sub device is one on the parent, at the start of the window. *)
Lemma sub_request s offset len : sub_ok s -> 0 <= offset -> 0 < len -> offset + len <= Z.of_nat (length (sub_content s)) ->
  to_signed 64 (offset + sub_base s) = base s + offset /\ base s + offset + len < 2 ^ 63 /\ 0 <= base s + offset /\
  offset + len <= bd_total_size (sub_dev s) /\ 0 <= base s /\
  base s + offset + len <= Z.of_nat (length (bl_content (sub_parent s))) /\
  trimmed (Z.of_nat (length (bl_content (sub_parent s)))) (base s + offset) len = len.
Proof.
  intros Hok Ho Hl Hr. rewrite sub_content_length in Hr by done. destruct (sub_window s Hok) as (? & ? & ? & ? & ->).
  rewrite to_signed_small by lia. unfold trimmed. rewrite decide_True by lia. split_and!; lia.
Qed.

#[export] #[program] Instance subdev_bytes_laws : BlockBytesLaws (subdev_t P) := {| bl_limit s := bl_limit (sub_parent s) - base s |}.
Next Obligation.
  intros s s' (_ & _ & _ & Hd & Hp & Ho). unfold base. rewrite Hd, Ho. destruct Hp as [Hk| ->]; [|done]. by rewrite (bl_limit_kept _ _ Hk).
Qed.
Next Obligation.
  intros s buf offset len Hok Hbuf Ho Hl Hr Hlim. cbn in *. destruct (sub_request s offset len Hok Ho Hl Hr) as (Eo & ? & ? & ? & ? & ? & Et).
  unfold subdev_read. do 2 iostep. apply on_parent_run. rewrite Eo.
  eapply iospec_mono; [apply bio_read_run; [apply Hok|done|lia|done|rewrite Et; lia]| |].
  - rewrite Et. intros [n data] p (-> & Hs & ->). split; [done|]. split; [by apply sub_same|]. unfold sub_content. by rewrite get_bytes_get by lia.
  - intros p Hs. by apply sub_same.
Qed.
Next Obligation.
  intros s buf data offset Hok Hbuf Ho Hl Hr Hlim. cbn in *. destruct (sub_request s offset _ Hok Ho Hl Hr) as (Eo & ? & ? & ? & ? & ? & Et).
  unfold subdev_write. do 2 iostep. apply on_parent_run. rewrite Eo.
  eapply iospec_mono; [apply bio_write_all; [apply Hok|done|done|done|done|lia]| |].
  - intros n p (-> & Hk & Ec). split; [done|]. split; [by apply sub_kept|]. by apply sub_put.
  - intros p Hs. by apply sub_kept.
Qed.
End bytes.

#[export] #[program] Instance subdev_device_laws `{!BlockDevice P} `{!BlockDeviceLaws P} : BlockDeviceLaws (subdev_t P) := {| bl_bytes := subdev_bytes_laws |}.
Next Obligation.
  intros ?? s offset len Hok Ho Hl Hr Hlim. cbn in *. destruct (sub_request s offset len Hok Ho Hl Hr) as (Eo & ? & ? & ? & ? & ? & Et).
  unfold subdev_erase. do 2 iostep. apply on_parent_run. rewrite Eo.
  eapply iospec_mono; [apply bio_erase_run; [apply Hok|lia|done|rewrite Et; lia]| |].
  - rewrite Et. intros n p (-> & Hk & Ec). split; [done|]. split; [exact (sub_kept s p Hok Hk)|]. rewrite <- (so_erase s Hok) in Ec.
    apply sub_put; [done..|]. rewrite length_replicate. lia.
  - intros p Hk. exact (sub_kept s p Hok Hk).
Qed.
End subdev.
