(* ===== verification/BioReg.v ===== *)
(** * The devices of the system: [lib/bio/bio.c], [lib/bio/subdev.c] and [lib/partition/partition.c]

    The list of registered devices and their reference counts; sub devices, which
    hold a reference to their parent; and the partitions of a device with a boot
    record.

    A device is named by the order in which it was set up.  [None] is a failed
    assertion or an access to a device that is gone. *)
From stdpp Require Import pretty.
From S2P Require Import Prelude Align KState Pmm Heap Bio.

(** ** The state *)
Record erase_geometry := EraseGeometry { eg_start : Z; eg_size : Z; eg_erase_size : Z; eg_erase_shift : Z }.

Record rdev := RDev {
  rd_info : bdev;
  rd_geometry : list erase_geometry;
  rd_subdev : bool;                   (* the close hook is [subdev_close] *)
  rd_parent : option Z;
  rd_offset : Z;
  rd_closed : bool;                   (* the name is freed *)
}.

Record bios := Bios { bs_devs : gmap Z rdev; bs_list : list Z; bs_next : Z }.

Definition set_devs (f : gmap Z rdev -> gmap Z rdev) (s : bios) : bios := Bios (f (bs_devs s)) (bs_list s) (bs_next s).
Definition set_list (f : list Z -> list Z) (s : bios) : bios := Bios (bs_devs s) (f (bs_list s)) (bs_next s).
Definition with_ref (f : Z -> Z) (d : rdev) : rdev :=
  let i := rd_info d in
  RDev (Bdev (f (bd_ref i)) (bd_name i) (bd_total_size i) (bd_block_size i) (bd_block_shift i) (bd_block_count i) (bd_erase_byte i) (bd_flags i))
    (rd_geometry d) (rd_subdev d) (rd_parent d) (rd_offset d) (rd_closed d).
Definition orphan (d : rdev) : rdev := RDev (rd_info d) (rd_geometry d) (rd_subdev d) None (rd_offset d) (rd_closed d).
Definition free_name (d : rdev) : rdev := RDev (rd_info d) (rd_geometry d) (rd_subdev d) (rd_parent d) (rd_offset d) true.

Section registry.
Context `{KConfig}.

(** ** References *)
Definition bdev_inc_ref (dev : Z) (s : bios) : option bios :=
  _ ← bs_devs s !! dev;
  Some (set_devs (alter (with_ref (fun r => to_signed 32 (r + 1))) dev) s).

(** The close hook of a sub device closes the parent. *)
Fixpoint dec_ref_loop (fuel : nat) (dev : Z) (s : bios) : option bios :=
  match fuel with
  | O => None
  | S fuel =>
      d ← bs_devs s !! dev;
      let oldval := bd_ref (rd_info d) in
      let s := set_devs (alter (with_ref (fun r => to_signed 32 (r - 1))) dev) s in
      if oldval =? 1 then
        (* last ref, remove it *)
        dassert (negb (bool_decide (dev ∈ bs_list s)));;
        s ← (if rd_subdev d then
               (* subdev_close *)
               parent ← rd_parent d;
               s ← dec_ref_loop fuel parent s;
               Some (set_devs (alter orphan dev) s)
             else Some s);
        Some (set_devs (alter free_name dev) s)
      else Some s
  end.
Definition bdev_dec_ref (dev : Z) (s : bios) : option bios := dec_ref_loop (S (Z.to_nat dev)) dev s.

(** ** The list *)
Fixpoint open_walk (name : string) (l : list Z) (s : bios) : option (option Z * bios) :=
  match l with
  | [] => Some (None, s)
  | entry :: l =>
      d ← bs_devs s !! entry;
      dassert (0 <? bd_ref (rd_info d));;
      oguard (negb (rd_closed d));;
      if String.eqb (bd_name (rd_info d)) name then
        s ← bdev_inc_ref entry s; Some (Some entry, s)
      else open_walk name l s
  end.
Definition bio_open (name : string) (s : bios) : option (option Z * bios) := open_walk name (bs_list s) s.

Definition bio_close (dev : Z) (s : bios) : option bios := bdev_dec_ref dev s.

(** [list_add_tail] of a node that is in the list, and [list_delete] of one that
    is in none, break the list. *)
Definition bio_register_device (dev : Z) (s : bios) : option bios :=
  s ← bdev_inc_ref dev s;
  oguard (negb (bool_decide (dev ∈ bs_list s)));;
  Some (set_list (fun l => l ++ [dev]) s).

Definition list_delete_dev (dev : Z) (s : bios) : option bios :=
  oguard (bool_decide (dev ∈ bs_list s));;
  Some (set_list (filter (fun e => e <> dev)) s).
Definition bio_unregister_device (dev : Z) (s : bios) : option bios :=
  s ← list_delete_dev dev s;
  bdev_dec_ref dev s.

(** A driver sets a device up and registers it. *)
Definition add_device (d : rdev) (s : bios) : option (Z * bios) :=
  let dev := bs_next s in
  s ← bio_register_device dev (Bios (<[dev := d]> (bs_devs s)) (bs_list s) (bs_next s + 1));
  Some (dev, s).

(** ** Sub devices *)
Definition bio_contains_range (container_start container_len contained_start contained_len : Z) : option bool :=
  let container_end := u64 (container_start + container_len) in
  let contained_end := u64 (contained_start + contained_len) in
  dassert (container_start <=? container_end);;
  dassert (contained_start <=? contained_end);;
  Some ((container_start <=? contained_start) && (contained_end <=? container_end)).

(** The loop over the regions: [geo] is the one looked at last. *)
Fixpoint find_geometry (byte_start byte_size : Z) (geo : option erase_geometry) (l : list erase_geometry) : option (option erase_geometry) :=
  match l with
  | [] => Some geo
  | g :: l =>
      found ← bio_contains_range (eg_start g) (eg_size g) byte_start byte_size;
      if found : bool then Some (Some g) else find_geometry byte_start byte_size (Some g) l
  end.

(** The geometry of the sub device, or the error. *)
Definition check_subdevice (parent : rdev) (startblock block_count : Z) : option (Z + list erase_geometry) :=
  match rd_geometry parent with
  | _ :: _ =>
      let byte_start := u64 (Z.shiftl startblock (bd_block_shift (rd_info parent))) in
      let byte_size := u64 (Z.shiftl block_count (bd_block_shift (rd_info parent))) in
      geo ← find_geometry byte_start byte_size None (rd_geometry parent);
      match geo with
      | None => Some (inl ERR_INVALID_ARGS)
      | Some geo =>
          let erase_mask := u64 (u64 (Z.shiftl 1 (eg_erase_shift geo)) - 1) in
          if negb (Z.land byte_start erase_mask =? 0) || negb (Z.land byte_size erase_mask =? 0) then Some (inl ERR_INVALID_ARGS)
          else Some (inr [EraseGeometry 0 byte_size (eg_erase_size geo) (eg_erase_shift geo)])
      end
  | [] =>
      let endblock := u32 (startblock + block_count) in
      if (endblock <? startblock) || (bd_block_count (rd_info parent) <? endblock) then Some (inl ERR_INVALID_ARGS)
      else Some (inr [])
  end.

(** [malloc_ok]: there is memory for the sub device. *)
Definition bio_publish_subdevice (malloc_ok : bool) (parent_dev subdev : string) (startblock block_count : Z) (s : bios) : option (Z * bios) :=
  '(parent, s) ← bio_open parent_dev s;
  match parent with
  | None => Some (ERR_NOT_FOUND, s)
  | Some parent =>
      if negb malloc_ok then
        s ← bio_close parent s; Some (ERR_NO_MEMORY, s)
      else
        p ← bs_devs s !! parent;
        r ← check_subdevice p startblock block_count;
        match r with
        | inl err => s ← bio_close parent s; Some (err, s)
        | inr geometry =>
            i ← bio_initialize_bdev subdev (bd_block_size (rd_info p)) block_count 0;
            let i := Bdev (bd_ref i) (bd_name i) (bd_total_size i) (bd_block_size i) (bd_block_shift i) (bd_block_count i)
              (bd_erase_byte (rd_info p)) (bd_flags i) in
            '(_, s) ← add_device (RDev i geometry true (Some parent) startblock false) s;
            Some (NO_ERROR, s)
        end
  end.

(** ** Partitions *)
Record mbr_part := MbrPart { mp_status : Z; mp_type : Z; mp_lba_start : Z; mp_lba_length : Z }.

Definition byte_at (buf : list Z) (i : Z) : option Z := buf !! Z.to_nat i.
Definition le32 (buf : list Z) (i : Z) : option Z :=
  b0 ← byte_at buf i; b1 ← byte_at buf (i + 1); b2 ← byte_at buf (i + 2); b3 ← byte_at buf (i + 3);
  Some (b0 + 256 * b1 + 65536 * b2 + 16777216 * b3).
(** entry [i] of the table at 446 *)
Definition read_part (buf : list Z) (i : Z) : option mbr_part :=
  let at_ := 446 + 16 * i in
  status ← byte_at buf at_; type ← byte_at buf (at_ + 4); start ← le32 buf (at_ + 8); len ← le32 buf (at_ + 12);
  Some (MbrPart status type start len).

Definition validate_mbr_partition (dev : bdev) (part : mbr_part) : Z :=
  if mp_type part =? 0 then -1
  else if negb (mp_status part =? 128) && negb (mp_status part =? 0) then -1
  else if bd_block_count dev <=? mp_lba_start part then -1
  else if bd_block_count dev <? u32 (mp_lba_start part + mp_lba_length part) then -1
  else 0.

(** [sprintf(buf, "%sp%d", device, i)] with a buffer of [size] bytes *)
Definition part_name (size : Z) (device : string) (i : nat) : option string :=
  let name := (device +:+ "p" +:+ pretty (N.of_nat i))%string in
  oguard (Z.of_nat (String.length name) <? size);;
  Some name.

Fixpoint unpublish_loop (n : nat) (device : string) (i : nat) (count : Z) (s : bios) : option (Z * bios) :=
  match n with
  | O => Some (count, s)
  | S n =>
      devname ← part_name 512 device i;
      '(dev, s) ← bio_open devname s;
      match dev with
      | None => unpublish_loop n device (S i) count s
      | Some dev =>
          s ← bio_unregister_device dev s;
          s ← bio_close dev s;
          unpublish_loop n device (S i) (count + 1) s
      end
  end.
Definition partition_unpublish (device : string) (s : bios) : option (Z * bios) := unpublish_loop 16 device 0 0 s.

(** [malloc_ok i]: there is memory for partition [i]. *)
Fixpoint publish_loop (n : nat) (malloc_ok : nat -> bool) (device : string) (dev : Z) (buf : list Z) (i : nat) (err count : Z) (s : bios) :
    option (Z * Z * bios) :=
  match n with
  | O => Some (err, count, s)
  | S n =>
      part ← read_part buf (Z.of_nat i);
      d ← bs_devs s !! dev;
      if 0 <=? validate_mbr_partition (rd_info d) part then
        subdevice ← part_name 128 device i;
        '(err, s) ← bio_publish_subdevice (malloc_ok i) device subdevice (mp_lba_start part) (mp_lba_length part) s;
        publish_loop n malloc_ok device dev buf (S i) err (if err <? 0 then count else count + 1) s
      else publish_loop n malloc_ok device dev buf (S i) err count s
  end.

(** [read dev offset]: the result of [bio_read] of 512 bytes, and the buffer after it *)
Definition partition_publish (read : Z -> Z -> Z * list Z) (malloc_ok : nat -> bool) (device : string) (offset : Z) (s : bios) : option (Z * bios) :=
  '(_, s) ← partition_unpublish device s;
  '(dev, s) ← bio_open device s;
  match dev with
  | None => Some (-1, s)
  | Some dev =>
      let '(err, buf) := read dev offset in
      if err <? 0 then Some (err, s)
      else
        b510 ← byte_at buf 510;
        b511 ← byte_at buf 511;
        '(err, count, s) ← (if negb (b510 =? 85) || negb (b511 =? 170) then Some (err, 0, s)
                            else publish_loop 4 malloc_ok device dev buf 0 err 0 s);
        s ← bio_close dev s;
        Some (if err <? 0 then err else count, s)
  end.
End registry.

Arguments bio_close : simpl never.
Arguments bdev_dec_ref : simpl never.
Arguments bio_open : simpl never.
Arguments add_device : simpl never.
Arguments check_subdevice : simpl never.
Arguments bio_publish_subdevice : simpl never.
Arguments bio_unregister_device : simpl never.
