(* ===== verification/BioRegInv.v ===== *)
(** * Reference counts of block devices

    The reference count of a device is the number of those that hold it: the list
    of devices, the callers that have it open, and its sub devices.  It is kept
    by opening, closing, registering, unregistering and publishing, and a device
    somebody holds is never torn down. *)
From S2P Require Import Prelude Align KState Pmm Heap HeapInv Bio BioOps BioDev BioReg.

Definition parent_of (s : bios) (k : Z) : option Z := bs_devs s !! k ≫= rd_parent.

(** The sub devices of [dev], other than those that are letting go of it. *)
Definition kids (X : gset Z) (s : bios) (dev : Z) : gset Z :=
  filter (fun k => parent_of s k = Some dev) (dom (bs_devs s) ∖ X).

(** [X]: the devices that are being torn down; [h]: how often callers have a
    device open. *)
Record reg_inv (X : gset Z) (s : bios) (h : Z -> nat) : Prop := {
  ri_next k d : bs_devs s !! k = Some d -> 0 <= k < bs_next s;
  ri_nodup : NoDup (bs_list s);
  ri_list k : k ∈ bs_list s -> is_Some (bs_devs s !! k);
  ri_ref k d : bs_devs s !! k = Some d ->
    bd_ref (rd_info d) = (if decide (k ∈ bs_list s) then 1 else 0) + Z.of_nat (h k) + Z.of_nat (size (kids X s k));
  ri_small k d : bs_devs s !! k = Some d -> bd_ref (rd_info d) < 2 ^ 31;
  ri_held k : (0 < h k)%nat -> is_Some (bs_devs s !! k);
  ri_kid k d p : bs_devs s !! k = Some d -> rd_parent d = Some p -> p < k /\ rd_subdev d = true /\ is_Some (bs_devs s !! p);
  ri_live k d : bs_devs s !! k = Some d -> k ∉ X ->
    rd_closed d = bool_decide (bd_ref (rd_info d) = 0) /\
    (rd_closed d = false -> rd_subdev d = true -> is_Some (rd_parent d)) /\ (rd_closed d = true -> rd_parent d = None);
  ri_dying k : k ∈ X -> exists d, bs_devs s !! k = Some d /\ bd_ref (rd_info d) = 0 /\ rd_closed d = false;
}.

Lemma reg_inv_ext X s h h' : (forall k, h k = h' k) -> reg_inv X s h -> reg_inv X s h'.
Proof. intros E []. constructor; intros *; rewrite <- ?E; eauto. Qed.

Section inv.
Context `{KConfig}.
Implicit Types (s : bios) (X : gset Z) (h : Z -> nat) (d : rdev).

Lemma elem_of_kids X s dev k : k ∈ kids X s dev <-> parent_of s k = Some dev /\ k ∉ X.
Proof.
  unfold kids. rewrite elem_of_filter, elem_of_difference, elem_of_dom. unfold parent_of. split; [tauto|].
  intros [E ?]. split_and!; try done. destruct (bs_devs s !! k); [eauto|done].
Qed.

Lemma kids_ext X s s' dev : (forall k, parent_of s' k = parent_of s k) -> kids X s' dev = kids X s dev.
Proof. intros E. apply set_eq. intros k. by rewrite !elem_of_kids, E. Qed.

Lemma parent_of_alter s dev f k : (forall d, rd_parent (f d) = rd_parent d) -> parent_of (set_devs (alter f dev) s) k = parent_of s k.
Proof.
  intros Hf. unfold parent_of. cbn. destruct (decide (k = dev)) as [->|]; [|by rewrite lookup_alter_ne].
  rewrite lookup_alter_eq. destruct (bs_devs s !! dev); [apply Hf|done].
Qed.

(** A device starts to be torn down: its reference to the parent is for its
    close hook to drop. *)
Lemma kids_dying X s dev p k : parent_of s dev = Some p -> dev ∉ X ->
  Z.of_nat (size (kids X s k)) = Z.of_nat (size (kids ({[dev]} ∪ X) s k)) + (if decide (k = p) then 1 else 0).
Proof.
  intros Hp Hx. case_decide as E.
  - subst k. replace (kids X s p) with ({[dev]} ∪ kids ({[dev]} ∪ X) s p).
    + rewrite size_union, size_singleton; [lia|]. intros i. rewrite elem_of_singleton, elem_of_kids. set_solver.
    + apply set_eq. intros i. rewrite elem_of_union, elem_of_singleton, !elem_of_kids, elem_of_union, elem_of_singleton. destruct (decide (i = dev)); naive_solver.
  - replace (kids ({[dev]} ∪ X) s k) with (kids X s k); [lia|]. apply set_eq. intros i. rewrite !elem_of_kids, elem_of_union, elem_of_singleton.
    split; [|tauto]. intros [Hi ?]. split; [done|]. intros [->|?]; [congruence|done].
Qed.
Lemma kids_dying_none X s dev k : parent_of s dev = None -> kids ({[dev]} ∪ X) s k = kids X s k.
Proof.
  intros Hp. apply set_eq. intros i. rewrite !elem_of_kids, elem_of_union, elem_of_singleton. split; [tauto|]. intros [Hi ?]. split; [done|].
  intros [->|?]; [congruence|done].
Qed.

Lemma not_dying X s h dev : reg_inv X s h -> (0 < h dev)%nat -> dev ∉ X.
Proof. intros Hi Hh Hx. destruct (ri_dying _ _ _ Hi dev Hx) as (d & Ed & Er & _). pose proof (ri_ref _ _ _ Hi dev d Ed). case_decide; lia. Qed.

(** The devices after a reference count has changed. *)
Lemma lookup_with_ref s dev f k d' : bs_devs (set_devs (alter (with_ref f) dev) s) !! k = Some d' ->
  exists d, bs_devs s !! k = Some d /\ d' = (if decide (k = dev) then with_ref f d else d).
Proof.
  cbn. destruct (decide (k = dev)) as [->|]; [|rewrite lookup_alter_ne by done; eauto].
  rewrite lookup_alter_eq. destruct (bs_devs s !! dev) as [d|]; [|done]. intros [= <-]. eauto.
Qed.
Lemma is_Some_with_ref s dev f k : is_Some (bs_devs (set_devs (alter (with_ref f) dev) s) !! k) <-> is_Some (bs_devs s !! k).
Proof. cbn. by rewrite lookup_alter_is_Some. Qed.

(** ** Taking and dropping references *)
Definition set_ref (dev r : Z) s : bios := set_devs (alter (with_ref (fun _ => r)) dev) s.

Lemma set_ref_eq s dev d f r : bs_devs s !! dev = Some d -> f (bd_ref (rd_info d)) = r -> set_devs (alter (with_ref f) dev) s = set_ref dev r s.
Proof.
  intros Ed Er. unfold set_ref, set_devs. f_equal. apply map_eq. intros k. destruct (decide (k = dev)) as [->|]; [|by rewrite !lookup_alter_ne].
  rewrite !lookup_alter_eq, Ed. cbn. unfold with_ref. by rewrite Er.
Qed.

Lemma parent_of_set_ref s dev r k : parent_of (set_ref dev r s) k = parent_of s k.
Proof. by apply parent_of_alter. Qed.
Lemma kids_set_ref X s dev r k : kids X (set_ref dev r s) k = kids X s k.
Proof. apply kids_ext, parent_of_set_ref. Qed.

(** Another reference, or one of several is gone: whoever holds them, [h'] and the
    list account for them. *)
Lemma reg_inv_set_ref X s h h' dev d r :
  reg_inv X s h -> bs_devs s !! dev = Some d -> 0 < bd_ref (rd_info d) -> 0 < r < 2 ^ 31 ->
  r - bd_ref (rd_info d) = Z.of_nat (h' dev) - Z.of_nat (h dev) -> (forall k, k <> dev -> h' k = h k) ->
  reg_inv X (set_ref dev r s) h'.
Proof.
  intros Hi Ed Hd Hr Eh Hh. constructor; unfold set_ref.
  - intros k d' (d0 & E0 & _)%lookup_with_ref. by eapply (ri_next _ _ _ Hi).
  - apply Hi.
  - intros k Hk. apply is_Some_with_ref. by eapply (ri_list _ _ _ Hi).
  - intros k d' (d0 & E0 & ->)%lookup_with_ref. fold (set_ref dev r s). rewrite kids_set_ref. pose proof (ri_ref _ _ _ Hi k d0 E0) as Hk. cbn.
    destruct (decide (k = dev)) as [->|Hne]; [|by rewrite Hh]. simplify_eq. cbn. lia.
  - intros k d' (d0 & E0 & ->)%lookup_with_ref. case_decide; [cbn; lia|by eapply (ri_small _ _ _ Hi)].
  - intros k Hk. apply is_Some_with_ref. destruct (decide (k = dev)) as [->|]; [eauto|]. apply (ri_held _ _ _ Hi). by rewrite <- Hh.
  - intros k d' p (d0 & E0 & ->)%lookup_with_ref Hp. rewrite is_Some_with_ref.
    assert (rd_parent d0 = Some p) as Hd0 by (by case_decide). destruct (ri_kid _ _ _ Hi k d0 p E0 Hd0) as (? & ? & ?). by case_decide.
  - intros k d' (d0 & E0 & ->)%lookup_with_ref Hk. destruct (ri_live _ _ _ Hi k d0 E0 Hk) as (Hc & Hp). destruct (decide (k = dev)); [|exact (conj Hc Hp)]. simplify_eq. cbn.
    rewrite bool_decide_eq_false_2 in * by lia. done.
  - intros k Hk. destruct (ri_dying _ _ _ Hi k Hk) as (d0 & E0 & Hz & Hc). exists d0. split; [|done]. cbn.
    rewrite lookup_alter_ne; [done|]. intros ->. simplify_eq. lia.
Qed.

(** The last reference is gone. *)
Lemma reg_inv_last X s h h' dev d :
  reg_inv X s h -> bs_devs s !! dev = Some d -> bd_ref (rd_info d) = 1 -> (0 < h dev)%nat ->
  (forall k, Z.of_nat (h' k) = Z.of_nat (h k) - (if decide (k = dev) then 1 else 0) + (if decide (rd_parent d = Some k) then 1 else 0)) ->
  reg_inv ({[dev]} ∪ X) (set_ref dev 0 s) h'.
Proof.
  intros Hi Ed Hr Hd Hh. pose proof (not_dying _ _ _ _ Hi Hd) as Hx. pose proof (ri_ref _ _ _ Hi dev d Ed) as Hcount.
  assert (parent_of s dev = rd_parent d) as Hp by (unfold parent_of; by rewrite Ed). constructor; unfold set_ref.
  - intros k d' (d0 & E0 & _)%lookup_with_ref. by eapply (ri_next _ _ _ Hi).
  - apply Hi.
  - intros k Hk. apply is_Some_with_ref. by eapply (ri_list _ _ _ Hi).
  - intros k d' (d0 & E0 & ->)%lookup_with_ref. fold (set_ref dev 0 s). rewrite kids_set_ref. pose proof (ri_ref _ _ _ Hi k d0 E0) as Hk. cbn [bs_list set_devs].
    specialize (Hh k).
    assert (Z.of_nat (size (kids X s k)) = Z.of_nat (size (kids ({[dev]} ∪ X) s k)) + (if decide (rd_parent d = Some k) then 1 else 0)) as Ek.
    { destruct (rd_parent d) as [p|] eqn:Ep; [|rewrite kids_dying_none by done; repeat case_decide; congruence || lia].
      rewrite (kids_dying X s dev p k) by done. repeat case_decide; congruence || lia. }
    destruct (decide (k = dev)) as [->|Hne]; [simplify_eq; cbn in *|change (bs_list (set_ref dev 0 s)) with (bs_list s)]; lia.
  - intros k d' (d0 & E0 & ->)%lookup_with_ref. destruct (decide (k = dev)); [cbn; lia|by eapply (ri_small _ _ _ Hi)].
  - intros k Hk. apply is_Some_with_ref. specialize (Hh k). destruct (decide (rd_parent d = Some k)) as [Hpk|].
    + by destruct (ri_kid _ _ _ Hi dev d k Ed Hpk) as (_ & _ & ?).
    + apply (ri_held _ _ _ Hi). destruct (decide (k = dev)); lia.
  - intros k d' p (d0 & E0 & ->)%lookup_with_ref Hp'. rewrite is_Some_with_ref.
    assert (rd_parent d0 = Some p) as Hd0 by (by destruct (decide (k = dev))). destruct (ri_kid _ _ _ Hi k d0 p E0 Hd0) as (? & ? & ?). by destruct (decide (k = dev)).
  - intros k d' (d0 & E0 & ->)%lookup_with_ref Hk. rewrite decide_False by set_solver. apply (ri_live _ _ _ Hi k); [done|set_solver].
  - intros k [->%elem_of_singleton|Hk]%elem_of_union.
    + cbn. rewrite lookup_alter_eq, Ed. eexists. split; [done|]. cbn. split; [done|].
      destruct (ri_live _ _ _ Hi dev d Ed Hx) as (-> & _). apply bool_decide_eq_false_2. lia.
    + destruct (ri_dying _ _ _ Hi k Hk) as (d0 & E0 & Hz & Hc). exists d0. split; [|done]. cbn.
      rewrite lookup_alter_ne; [done|]. intros ->. done.
Qed.

(** The torn down device is closed. *)
Lemma reg_inv_closed X s h dev d :
  reg_inv ({[dev]} ∪ X) s h -> dev ∉ X -> bs_devs s !! dev = Some d ->
  reg_inv X (set_devs (alter (fun d => free_name (orphan d)) dev) s) h.
Proof.
  intros Hi Hx Ed. set (s' := set_devs _ s).
  destruct (ri_dying _ _ _ Hi dev ltac:(set_solver)) as (d1 & Ed1 & Hz & Hc). simplify_eq.
  assert (forall k d', bs_devs s' !! k = Some d' -> exists d, bs_devs s !! k = Some d /\ d' = (if decide (k = dev) then free_name (orphan d) else d)) as Hl.
  { intros k d'. cbn. destruct (decide (k = dev)) as [->|]; [rewrite lookup_alter_eq, Ed; intros [= <-]; eauto|]. rewrite lookup_alter_ne by done. eauto. }
  assert (forall k, is_Some (bs_devs s' !! k) <-> is_Some (bs_devs s !! k)) as Hs by (intros k; cbn; by rewrite lookup_alter_is_Some).
  assert (forall k, kids X s' k = kids ({[dev]} ∪ X) s k) as Hk.
  { intros k. apply set_eq. intros i. rewrite !elem_of_kids, elem_of_union, elem_of_singleton. unfold parent_of. cbn.
    destruct (decide (i = dev)) as [->|]; [|rewrite lookup_alter_ne by done; tauto]. rewrite lookup_alter_eq, Ed. cbn. split; [by intros []|tauto]. }
  constructor.
  - intros k d' (d0 & E0 & _)%Hl. by eapply (ri_next _ _ _ Hi).
  - apply Hi.
  - intros k Hk'. apply Hs. by eapply (ri_list _ _ _ Hi).
  - intros k d' (d0 & E0 & ->)%Hl. rewrite Hk. pose proof (ri_ref _ _ _ Hi k d0 E0). by destruct (decide (k = dev)).
  - intros k d' (d0 & E0 & ->)%Hl. pose proof (ri_small _ _ _ Hi k d0 E0). by case_decide.
  - intros k Hk'. apply Hs. by eapply (ri_held _ _ _ Hi).
  - intros k d' p (d0 & E0 & ->)%Hl Hp. rewrite Hs. case_decide; [done|]. by eapply (ri_kid _ _ _ Hi).
  - intros k d' (d0 & E0 & ->)%Hl Hk'. case_decide; [|apply (ri_live _ _ _ Hi k); [done|set_solver]]. simplify_eq. cbn.
    by rewrite bool_decide_eq_true_2.
  - intros k Hk'. destruct (ri_dying _ _ _ Hi k ltac:(set_solver)) as (d0 & E0 & ?). exists d0. split; [|done]. cbn.
    rewrite lookup_alter_ne; [done|]. intros ->. done.
Qed.

(** ** The operations *)
Definition hdrop (dev : Z) h : Z -> nat := fun k => if decide (k = dev) then pred (h k) else h k.
Definition htake (dev : Z) h : Z -> nat := fun k => if decide (k = dev) then S (h k) else h k.

Lemma hdrop_at dev h k : Z.of_nat (hdrop dev h k) = if decide (k = dev) then Z.of_nat (pred (h dev)) else Z.of_nat (h k).
Proof. unfold hdrop. case_decide as E; [by rewrite E|done]. Qed.
Lemma htake_at dev h k : Z.of_nat (htake dev h k) = Z.of_nat (h k) + (if decide (k = dev) then 1 else 0).
Proof. unfold htake. case_decide; lia. Qed.

Lemma hdrop_take dev h k : hdrop dev (htake dev h) k = h k.
Proof. unfold hdrop, htake. by case_decide. Qed.

Lemma held X s h dev : reg_inv X s h -> (0 < h dev)%nat -> exists d, bs_devs s !! dev = Some d /\ 0 < bd_ref (rd_info d) < 2 ^ 31 /\ rd_closed d = false.
Proof.
  intros Hi Hh. destruct (ri_held _ _ _ Hi dev Hh) as [d Ed]. exists d. pose proof (ri_ref _ _ _ Hi dev d Ed) as Hr. pose proof (ri_small _ _ _ Hi dev d Ed).
  assert (0 < bd_ref (rd_info d)) by (case_decide; lia). split_and!; [done|lia|lia|].
  destruct (ri_live _ _ _ Hi dev d Ed (not_dying _ _ _ _ Hi Hh)) as (-> & _). apply bool_decide_eq_false_2. lia.
Qed.

Lemma lookup_set_ref_ne s dev r k : k <> dev -> bs_devs (set_ref dev r s) !! k = bs_devs s !! k.
Proof. intros. cbn. by rewrite lookup_alter_ne. Qed.
Lemma lookup_set_ref s dev r d : bs_devs s !! dev = Some d -> bs_devs (set_ref dev r s) !! dev = Some (with_ref (fun _ => r) d).
Proof. intros E. cbn. by rewrite lookup_alter_eq, E. Qed.

(** Dropping a reference changes the device and those above it only. *)
Definition below (dev : Z) s s' : Prop :=
  (forall k, dev < k -> bs_devs s' !! k = bs_devs s !! k) /\ bs_list s' = bs_list s /\ bs_next s' = bs_next s.

(** The end of a tear down. *)
Lemma close_steps X s h dev d : reg_inv ({[dev]} ∪ X) s h -> dev ∉ X -> bs_devs s !! dev = Some d ->
  reg_inv X (set_devs (alter free_name dev) (set_devs (alter orphan dev) s)) h.
Proof.
  intros Hi Hx Ed. replace (set_devs (alter free_name dev) _) with (set_devs (alter (fun d => free_name (orphan d)) dev) s).
  - by eapply reg_inv_closed.
  - unfold set_devs. cbn. f_equal. by rewrite alter_alter_eq.
Qed.
Lemma close_steps_plain X s h dev d : reg_inv ({[dev]} ∪ X) s h -> dev ∉ X -> bs_devs s !! dev = Some d -> rd_parent d = None ->
  reg_inv X (set_devs (alter free_name dev) s) h.
Proof.
  intros Hi Hx Ed Hp. replace (set_devs (alter free_name dev) s) with (set_devs (alter (fun d => free_name (orphan d)) dev) s).
  - by eapply reg_inv_closed.
  - unfold set_devs. f_equal. apply alter_ext. intros d' E. rewrite Ed in E. simplify_eq. unfold free_name, orphan. cbn. by rewrite Hp.
Qed.

Lemma dec_ref_run fuel : forall X s h dev,
  (Z.to_nat dev < fuel)%nat -> reg_inv X s h -> (0 < h dev)%nat ->
  exists s', dec_ref_loop fuel dev s = Some s' /\ reg_inv X s' (hdrop dev h) /\ below dev s s'.
Proof.
  induction fuel as [|fuel IH]; intros X s h dev Hf Hi Hh; [lia|]. destruct (held _ _ _ _ Hi Hh) as (d & Ed & Hr & Hc). cbn [dec_ref_loop].
  rewrite Ed. cbn. rewrite (set_ref_eq s dev d _ (bd_ref (rd_info d) - 1) Ed) by (apply to_signed_small; lia).
  pose proof (ri_next _ _ _ Hi dev d Ed) as Hdev. pose proof (not_dying _ _ _ _ Hi Hh) as Hx. pose proof (ri_ref _ _ _ Hi dev d Ed) as Hcount.
  destruct (Z.eqb_spec (bd_ref (rd_info d)) 1) as [E1|E1].
  2:{ eexists. split; [done|]. split; [|split_and!; try done; intros; by apply lookup_set_ref_ne; lia].
      eapply reg_inv_set_ref; [done|done|lia|lia|rewrite hdrop_at, decide_True by done; lia|].
      intros k Hk. apply Nat2Z.inj. by rewrite hdrop_at, decide_False. }
  rewrite E1. replace (1 - 1) with 0 by lia. rewrite bool_decide_eq_false_2 by (intros Hl; cbn in Hl; rewrite decide_True in Hcount by done; lia).
  rewrite dassert_true by done. cbn. destruct (rd_parent d) as [p|] eqn:Ep.
  - destruct (ri_kid _ _ _ Hi dev d p Ed Ep) as (Hlt & -> & Hpd). cbn.
    assert (reg_inv ({[dev]} ∪ X) (set_ref dev 0 s) (htake p (hdrop dev h))) as Hi1.
    { eapply reg_inv_last; try done. intros k. rewrite htake_at, hdrop_at, Ep. repeat case_decide; simplify_eq; lia. }
    destruct (IH _ _ _ p ltac:(destruct Hpd as [dp Edp]; pose proof (ri_next _ _ _ Hi p dp Edp); lia) Hi1) as (s2 & -> & Hi2 & Hb & Hl & Hn).
    { apply Nat2Z.inj_lt. rewrite htake_at, decide_True by done. lia. }
    cbn. eexists. split; [done|]. assert (bs_devs s2 !! dev = Some (with_ref (fun _ => 0) d)) as E2 by (rewrite Hb by lia; by apply lookup_set_ref).
    split.
    + eapply close_steps; [|done|done]. eapply reg_inv_ext, Hi2. apply hdrop_take.
    + split_and!; [|done|done]. intros k Hk. cbn. rewrite !lookup_alter_ne by lia. rewrite Hb by lia. apply lookup_set_ref_ne. lia.
  - destruct (ri_live _ _ _ Hi dev d Ed Hx) as (_ & Hpar & _). destruct (rd_subdev d); [by destruct (Hpar Hc eq_refl); congruence|]. cbn.
    eexists. split; [done|]. split.
    + eapply close_steps_plain; [|done|by apply lookup_set_ref|done]. eapply reg_inv_last; try done. intros k. rewrite hdrop_at, Ep. repeat case_decide; simplify_eq; lia.
    + split_and!; [|done|done]. intros k Hk. cbn. by rewrite !lookup_alter_ne by lia.
Qed.

Lemma bio_close_run s h dev : reg_inv ∅ s h -> (0 < h dev)%nat ->
  exists s', bio_close dev s = Some s' /\ reg_inv ∅ s' (hdrop dev h) /\ bs_list s' = bs_list s.
Proof.
  intros Hi Hh. destruct (dec_ref_run (S (Z.to_nat dev)) ∅ s h dev ltac:(lia) Hi Hh) as (s' & E & Hi' & _ & Hl & _). by exists s'.
Qed.

(** Counts do not overflow while no device has 2^31 - 1 references. *)
Definition room s : Prop := forall k d, bs_devs s !! k = Some d -> bd_ref (rd_info d) < 2 ^ 31 - 1.

Lemma inc_ref_run X s h dev d : reg_inv X s h -> bs_devs s !! dev = Some d -> 0 < bd_ref (rd_info d) < 2 ^ 31 - 1 ->
  bdev_inc_ref dev s = Some (set_ref dev (bd_ref (rd_info d) + 1) s) /\ reg_inv X (set_ref dev (bd_ref (rd_info d) + 1) s) (htake dev h).
Proof.
  intros Hi Ed Hr. unfold bdev_inc_ref. rewrite Ed. cbn. rewrite (set_ref_eq s dev d _ (bd_ref (rd_info d) + 1) Ed) by (apply to_signed_small; lia).
  split; [done|]. eapply reg_inv_set_ref; [done|done|lia|lia|rewrite htake_at, decide_True by done; lia|].
  intros k Hk. apply Nat2Z.inj. rewrite htake_at, decide_False by done. lia.
Qed.

(** A registered device is in use. *)
Lemma listed s h dev : reg_inv ∅ s h -> dev ∈ bs_list s -> exists d, bs_devs s !! dev = Some d /\ 0 < bd_ref (rd_info d) < 2 ^ 31 /\ rd_closed d = false.
Proof.
  intros Hi Hl. destruct (ri_list _ _ _ Hi dev Hl) as [d Ed]. exists d. pose proof (ri_ref _ _ _ Hi dev d Ed) as Hr. pose proof (ri_small _ _ _ Hi dev d Ed).
  rewrite decide_True in Hr by done. split_and!; [done|lia|lia|].
  destruct (ri_live _ _ _ Hi dev d Ed ltac:(set_solver)) as (-> & _). apply bool_decide_eq_false_2. lia.
Qed.

Definition has_name s (name : string) (dev : Z) : Prop := exists d, bs_devs s !! dev = Some d /\ bd_name (rd_info d) = name.

Lemma open_walk_run s h name : forall l, reg_inv ∅ s h -> room s -> (forall k, k ∈ l -> k ∈ bs_list s) ->
  exists r s', open_walk name l s = Some (r, s') /\
    match r with
    | Some dev => dev ∈ l /\ has_name s name dev /\ bs_list s' = bs_list s /\ reg_inv ∅ s' (htake dev h) /\
        exists d, bs_devs s !! dev = Some d /\ s' = set_ref dev (bd_ref (rd_info d) + 1) s
    | None => s' = s /\ forall dev, dev ∈ l -> ~ has_name s name dev
    end.
Proof.
  induction l as [|e l IH]; intros Hi Hroom Hl; cbn [open_walk].
  { exists None, s. split; [done|]. split; [done|]. intros dev Hin. by apply elem_of_nil in Hin. }
  destruct (listed _ _ _ Hi (Hl e ltac:(left))) as (d & Ed & Hr & Hc). rewrite Ed. cbn. rewrite (proj2 (Z.ltb_lt 0 _)) by lia.
  rewrite dassert_true by done. cbn. rewrite Hc. cbn. destruct (String.eqb_spec (bd_name (rd_info d)) name) as [En|En].
  - pose proof (Hroom e d Ed). destruct (inc_ref_run ∅ s h e d Hi Ed ltac:(lia)) as [-> Hi']. cbn. eexists (Some e), _. split; [done|].
    split_and!; [left|by exists d|done|done|by exists d].
  - destruct (IH Hi Hroom ltac:(set_solver)) as (r & s' & -> & Hr'). exists r, s'. split; [done|]. destruct r as [dev|].
    + destruct Hr' as (? & ?). split; [by right|done].
    + destruct Hr' as (-> & Hno). split; [done|]. intros dev [->|Hin]%elem_of_cons (d' & Ed' & En'); [simplify_eq|]. by eapply Hno; [|exists d'].
Qed.

(** *** Adding a device *)
Lemma fresh s h : reg_inv ∅ s h -> bs_devs s !! bs_next s = None /\ bs_next s ∉ bs_list s /\ h (bs_next s) = 0%nat /\ kids ∅ s (bs_next s) = ∅.
Proof.
  intros Hi. assert (bs_devs s !! bs_next s = None) as Hn.
  { destruct (bs_devs s !! bs_next s) eqn:E; [|done]. pose proof (ri_next _ _ _ Hi _ _ E). lia. }
  split_and!; [done| | |].
  - intros Hl. destruct (ri_list _ _ _ Hi _ Hl). congruence.
  - destruct (h (bs_next s)) eqn:E; [done|]. destruct (ri_held _ _ _ Hi (bs_next s) ltac:(lia)). congruence.
  - apply set_eq. intros k. rewrite elem_of_kids. split; [|set_solver]. intros [Hp _]. unfold parent_of in Hp.
    destruct (bs_devs s !! k) as [d|] eqn:E; [|done]. destruct (ri_kid _ _ _ Hi k d _ E Hp) as (_ & _ & []). congruence.
Qed.

Definition adopt (parent : option Z) h : Z -> nat := match parent with Some p => hdrop p h | None => h end.

Lemma add_device_run s h d :
  reg_inv ∅ s h -> 0 <= bs_next s -> bd_ref (rd_info d) = 0 -> rd_closed d = false ->
  match rd_parent d with Some p => rd_subdev d = true /\ (0 < h p)%nat | None => rd_subdev d = false end ->
  exists s', add_device d s = Some (bs_next s, s') /\ reg_inv ∅ s' (adopt (rd_parent d) h) /\
    s' = Bios (<[bs_next s := with_ref (fun _ => 1) d]> (bs_devs s)) (bs_list s ++ [bs_next s]) (bs_next s + 1).
Proof.
  intros Hi Hn0 Hr Hc Hp. destruct (fresh _ _ Hi) as (Hn & Hnl & Hh & Hk). set (n := bs_next s) in *.
  set (s' := Bios (<[n := with_ref (fun _ => 1) d]> (bs_devs s)) (bs_list s ++ [n]) (n + 1)). exists s'. split; [|split; [|done]].
  { unfold add_device, bio_register_device, bdev_inc_ref. fold n. cbn. rewrite lookup_insert_eq. cbn. rewrite bool_decide_eq_false_2 by done. cbn.
    unfold s', set_list, set_devs. cbn. do 3 f_equal. rewrite alter_insert_eq. unfold with_ref. by rewrite Hr. }
  assert (forall k, parent_of s' k = if decide (k = n) then rd_parent d else parent_of s k) as Hpo.
  { intros k. unfold parent_of. cbn. case_decide as E; [by rewrite E, lookup_insert_eq|by rewrite lookup_insert_ne]. }
  assert (forall k, Z.of_nat (size (kids ∅ s' k)) = Z.of_nat (size (kids ∅ s k)) + (if decide (rd_parent d = Some k) then 1 else 0)) as Hkids.
  { intros k. assert (parent_of s n = None) as Hpn by (unfold parent_of; by rewrite Hn). case_decide as E.
    - replace (kids ∅ s' k) with ({[n]} ∪ kids ∅ s k); [rewrite size_union, size_singleton; [lia|]|].
      + intros i. rewrite elem_of_singleton, elem_of_kids. intros -> [? _]. congruence.
      + apply set_eq. intros i. rewrite elem_of_union, elem_of_singleton, !elem_of_kids, Hpo.
        case_decide; [split; [split; [done|set_solver]|by left]|split; [by intros [?|?]|by right]].
    - replace (kids ∅ s' k) with (kids ∅ s k); [lia|]. apply set_eq. intros i. rewrite !elem_of_kids, Hpo. case_decide; [subst i|done].
      split; intros [? _]; congruence. }
  assert (forall k d', bs_devs s' !! k = Some d' -> k = n /\ d' = with_ref (fun _ => 1) d \/ k <> n /\ bs_devs s !! k = Some d') as Hl.
  { intros k d'. cbn. destruct (decide (k = n)) as [->|]; [rewrite lookup_insert_eq; intros [= <-]; auto|rewrite lookup_insert_ne by done; auto]. }
  assert (forall k, is_Some (bs_devs s !! k) -> is_Some (bs_devs s' !! k)) as Hs.
  { intros k [d' E]. cbn. destruct (decide (k = n)) as [->|]; [rewrite lookup_insert_eq|rewrite lookup_insert_ne by done]; eauto. }
  assert (forall k, (adopt (rd_parent d) h k <= h k)%nat) as Hle.
  { intros k. unfold adopt, hdrop. destruct (rd_parent d); [case_decide|]; lia. }
  constructor.
  - intros k d' [[-> _]|[_ E]]%Hl; cbn; [lia|]. pose proof (ri_next _ _ _ Hi _ _ E) as Hb. fold n in Hb. lia.
  - cbn. apply NoDup_app. split_and!; [apply Hi| |apply NoDup_singleton]. set_solver.
  - intros k [Hk'|Hk']%elem_of_app; [by apply Hs, (ri_list _ _ _ Hi)|]. apply list_elem_of_singleton in Hk' as ->. cbn. rewrite lookup_insert_eq. eauto.
  - intros k d' E. rewrite Hkids. assert (Z.of_nat (adopt (rd_parent d) h k) = Z.of_nat (h k) - (if decide (rd_parent d = Some k) then 1 else 0)) as ->.
    { unfold adopt. destruct (rd_parent d) as [p|]; [|case_decide; [done|lia]]. rewrite hdrop_at. destruct Hp as [_ Hp].
      repeat case_decide; simplify_eq; try done; lia. }
    destruct (Hl k d' E) as [[-> ->]|[Hne E0]]; cbn [bs_list s'].
    + rewrite decide_True by set_solver. rewrite Hk, Hh, size_empty. cbn [rd_info with_ref bd_ref]. lia.
    + rewrite (ri_ref _ _ _ Hi _ _ E0). destruct (decide (k ∈ bs_list s)); [rewrite decide_True by set_solver; lia|].
      rewrite decide_False by (rewrite elem_of_app, list_elem_of_singleton; naive_solver). lia.
  - intros k d' [[_ ->]|[_ E]]%Hl; [cbn; lia|by eapply (ri_small _ _ _ Hi)].
  - intros k Hk'. apply Hs, (ri_held _ _ _ Hi). specialize (Hle k). lia.
  - intros k d' p [[-> ->]|[_ E]]%Hl Hp'.
    + cbn in *. rewrite Hp' in Hp. destruct Hp as [? Hhp]. destruct (ri_held _ _ _ Hi p Hhp) as [dp Edp]. pose proof (ri_next _ _ _ Hi _ _ Edp) as Hb. fold n in Hb.
      split_and!; [lia|done|]. apply (Hs p). eauto.
    + destruct (ri_kid _ _ _ Hi k d' p E Hp') as (? & ? & ?). auto.
  - intros k d' [[-> ->]|[_ E]]%Hl Hx; [|by apply (ri_live _ _ _ Hi k)]. cbn. rewrite Hc. split; [done|]. split; [|done].
    intros _ Hsub. destruct (rd_parent d); [eauto|congruence].
  - intros k Hk'. set_solver.
Qed.

(** *** Removing one from the list *)
Lemma delist s h dev : reg_inv ∅ s h -> dev ∈ bs_list s -> reg_inv ∅ (set_list (filter (fun e => e <> dev)) s) (htake dev h).
Proof.
  intros Hi Hl. constructor; cbn.
  - apply Hi.
  - apply NoDup_filter, Hi.
  - intros k [_ Hk]%list_elem_of_filter. by apply (ri_list _ _ _ Hi).
  - intros k d E. rewrite (ri_ref _ _ _ Hi k d E), htake_at. change (kids ∅ (set_list _ s) k) with (kids ∅ s k).
    destruct (decide (k = dev)) as [->|].
    + rewrite decide_True by done. rewrite decide_False by (rewrite list_elem_of_filter; naive_solver). lia.
    + destruct (decide (k ∈ bs_list s)) as [|Hn]; [rewrite decide_True by (by rewrite list_elem_of_filter); lia|].
      rewrite decide_False by (rewrite list_elem_of_filter; naive_solver). lia.
  - apply Hi.
  - intros k Hk. destruct (decide (k = dev)) as [->|Hne]; [by apply (ri_list _ _ _ Hi)|]. apply (ri_held _ _ _ Hi).
    apply Nat2Z.inj_lt in Hk. rewrite htake_at, decide_False in Hk by done. lia.
  - apply Hi.
  - apply Hi.
  - apply Hi.
Qed.

Lemma bio_unregister_run s h dev : reg_inv ∅ s h -> dev ∈ bs_list s ->
  exists s', bio_unregister_device dev s = Some s' /\ reg_inv ∅ s' h /\ bs_list s' = filter (fun e => e <> dev) (bs_list s).
Proof.
  intros Hi Hl. unfold bio_unregister_device, list_delete_dev. rewrite bool_decide_eq_true_2 by done. cbn.
  destruct (bio_close_run _ _ dev (delist _ _ _ Hi Hl)) as (s' & E & Hi' & El).
  { apply Nat2Z.inj_lt. rewrite htake_at, decide_True by done. lia. }
  exists s'. split; [done|]. split; [|done]. eapply reg_inv_ext, Hi'. intros k. apply hdrop_take.
Qed.
End inv.

(** ** What never changes of a device *)
(** Devices keep what they are; a closed sub device has let go of its parent. *)
Record same_dev (d d' : rdev) : Prop := {
  sd_name : bd_name (rd_info d') = bd_name (rd_info d);
  sd_total : bd_total_size (rd_info d') = bd_total_size (rd_info d);
  sd_size : bd_block_size (rd_info d') = bd_block_size (rd_info d);
  sd_shift : bd_block_shift (rd_info d') = bd_block_shift (rd_info d);
  sd_count : bd_block_count (rd_info d') = bd_block_count (rd_info d);
  sd_erase : bd_erase_byte (rd_info d') = bd_erase_byte (rd_info d);
  sd_geometry : rd_geometry d' = rd_geometry d;
  sd_subdev : rd_subdev d' = rd_subdev d;
  sd_offset : rd_offset d' = rd_offset d;
  sd_parent : rd_parent d' = rd_parent d \/ rd_parent d' = None;
}.
Definition same_devs (s s' : bios) : Prop :=
  bs_next s' = bs_next s /\ dom (bs_devs s') = dom (bs_devs s) /\
  forall k d d', bs_devs s !! k = Some d -> bs_devs s' !! k = Some d' -> same_dev d d'.

#[export] Instance same_dev_preorder : PreOrder same_dev.
Proof.
  split; [by constructor; auto|]. intros d1 d2 d3 [] []. constructor; try congruence. destruct sd_parent1 as [->| ->]; auto.
Qed.
#[export] Instance same_devs_preorder : PreOrder same_devs.
Proof.
  split.
  - intros s. split_and!; [done|done|]. intros k d d' E E'. by simplify_eq.
  - intros s1 s2 s3 (N1 & D1 & H1) (N2 & D2 & H2). split_and!; [congruence|congruence|]. intros k d d' E E'.
    assert (is_Some (bs_devs s2 !! k)) as [d2 E2] by (apply elem_of_dom; rewrite D1; by apply elem_of_dom).
    etrans; [by eapply H1|by eapply H2].
Qed.

Lemma same_devs_alter s dev f : (forall d, same_dev d (f d)) -> same_devs s (set_devs (alter f dev) s).
Proof.
  intros Hf. split_and!; [done|cbn; by rewrite dom_alter_L|]. intros k d d' E. cbn.
  destruct (decide (k = dev)) as [->|]; [rewrite lookup_alter_eq, E; intros [= <-]; apply Hf|rewrite lookup_alter_ne by done; intros E'; by simplify_eq].
Qed.
Lemma same_dev_ref f d : same_dev d (with_ref f d).
Proof. constructor; cbn; auto. Qed.
Lemma same_dev_orphan d : same_dev d (orphan d).
Proof. constructor; cbn; auto. Qed.
Lemma same_dev_free d : same_dev d (free_name d).
Proof. constructor; cbn; auto. Qed.
#[export] Hint Resolve same_dev_ref same_dev_orphan same_dev_free : bio.

Lemma dec_ref_same `{KConfig} fuel : forall dev s s', dec_ref_loop fuel dev s = Some s' -> same_devs s s'.
Proof.
  induction fuel as [|fuel IH]; intros dev s s'; [done|]. cbn [dec_ref_loop]. destruct (bs_devs s !! dev) as [d|]; [|done]. cbn.
  pose proof (same_devs_alter s dev (with_ref (fun r => to_signed 32 (r - 1))) ltac:(auto with bio)) as H1.
  destruct (bd_ref (rd_info d) =? 1); [|by intros [= <-]]. destruct (dassert _); [|done]. cbn. destruct (rd_subdev d); cbn.
  - destruct (rd_parent d) as [p|]; [|done]. cbn. destruct (dec_ref_loop fuel p _) as [s2|] eqn:E2; [|done]. cbn. intros [= <-].
    etrans; [exact H1|]. etrans; [by eapply IH|]. etrans; [apply (same_devs_alter _ dev orphan); auto with bio|apply (same_devs_alter _ dev free_name); auto with bio].
  - intros [= <-]. etrans; [exact H1|]. apply (same_devs_alter _ dev free_name). auto with bio.
Qed.
