(* ===== verification/BioRegSys.v ===== *)
(** * The system of block devices

    Publishing sub devices keeps the reference counts and puts the new device in
    the range of its parent; clients and drivers that open, close, register,
    unregister and publish in any order never reach a device that is gone. *)
From S2P Require Import Prelude Align KState Pmm Heap HeapInv Bio BioOps BioDev BioReg BioRegInv.

(** ** Shapes *)
Record dev_ok (i : bdev) : Prop := {
  do_shift : 0 <= bd_block_shift i < 32;
  do_size : bd_block_size i = 2 ^ bd_block_shift i;
  do_count : 0 <= bd_block_count i < 2 ^ 32;
  do_total : bd_total_size i = bd_block_count i * bd_block_size i;
}.
Definition geo_ok (g : erase_geometry) : Prop := 0 <= eg_start g /\ 0 <= eg_size g /\ eg_start g + eg_size g < 2 ^ 64.

(** [d] is a sub device of [p]: its blocks are blocks of the parent, where the
    parent has no erase geometry. *)
Record in_window (d p : rdev) : Prop := {
  iw_size : bd_block_size (rd_info d) = bd_block_size (rd_info p);
  iw_erase : bd_erase_byte (rd_info d) = bd_erase_byte (rd_info p);
  iw_offset : 0 <= rd_offset d;
  iw_blocks : rd_geometry p = [] -> rd_offset d + bd_block_count (rd_info d) <= bd_block_count (rd_info p);
}.

Record shapes (s : bios) : Prop := {
  sh_next : 0 <= bs_next s;
  sh_dev k d : bs_devs s !! k = Some d -> dev_ok (rd_info d) /\ Forall geo_ok (rd_geometry d);
  sh_window k d p dp : bs_devs s !! k = Some d -> rd_parent d = Some p -> bs_devs s !! p = Some dp -> in_window d dp;
}.

Lemma dev_ok_same d d' : same_dev d d' -> dev_ok (rd_info d) -> dev_ok (rd_info d').
Proof. intros [] []. constructor; congruence. Qed.

Lemma shapes_same s s' : same_devs s s' -> shapes s -> shapes s'.
Proof.
  intros (Hn & Hd & Hs) [Hnext Hdev Hwin].
  assert (forall k d', bs_devs s' !! k = Some d' -> exists d, bs_devs s !! k = Some d /\ same_dev d d') as Hl.
  { intros k d' E. assert (is_Some (bs_devs s !! k)) as [d E0] by (apply elem_of_dom; rewrite <- Hd; by apply elem_of_dom). eauto. }
  constructor; [by rewrite Hn| |].
  - intros k d' (d & E & Hsame)%Hl. destruct (Hdev k d E). split; [by eapply dev_ok_same|]. by rewrite (sd_geometry _ _ Hsame).
  - intros k d' p dp' (d & E & S1)%Hl Hp (dp & Ep & S2)%Hl.
    assert (rd_parent d = Some p) as Hp0 by (destruct (sd_parent _ _ S1); congruence).
    destruct (Hwin k d p dp E Hp0 Ep) as [W1 W2 W3 W4]. destruct S1, S2. constructor; try congruence.
    intros Hg. rewrite sd_offset, sd_count, sd_count0. apply W4. congruence.
Qed.

Section sys.
Context `{KConfig}.
Implicit Types (s : bios) (h : Z -> nat).

Lemma bio_initialize_run name size shift count flags :
  0 <= shift < 32 -> size = 2 ^ shift -> 0 <= count < 2 ^ 32 ->
  bio_initialize_bdev name size count flags = Some (Bdev 0 name (count * size) size shift count 0 flags).
Proof.
  intros Hs -> Hc. unfold bio_initialize_bdev. assert (2 ^ shift <= 2 ^ 31) by (apply Z.pow_le_mono_r; lia).
  assert (0 < 2 ^ shift) by (apply Z.pow_pos_nonneg; lia). rewrite (wrap_small 32 (2 ^ shift)) by lia.
  rewrite dassert_true.
  - cbn. rewrite log2_uint_log2, Z.log2_pow2, Z.shiftl_mul_pow2 by lia. done.
  - apply andb_true_iff. split; [apply negb_true_iff, Z.eqb_neq; lia|]. apply ispow2_correct; [lia|]. right. exists shift. split; [lia|done].
Qed.

Definition sys_inv s h : Prop := reg_inv ∅ s h /\ shapes s.

Lemma close_sys s h dev : sys_inv s h -> (0 < h dev)%nat -> exists s', bio_close dev s = Some s' /\ sys_inv s' (hdrop dev h) /\ same_devs s s'.
Proof.
  intros [Hi Hs] Hh. destruct (bio_close_run s h dev Hi Hh) as (s' & E & Hi' & _). exists s'. pose proof (dec_ref_same _ _ _ _ E).
  split; [done|]. split; [|done]. split; [done|]. by eapply shapes_same.
Qed.

Lemma open_sys s h name : sys_inv s h -> room s ->
  exists r s', bio_open name s = Some (r, s') /\
    match r with
    | Some dev => dev ∈ bs_list s /\ has_name s name dev /\ sys_inv s' (htake dev h) /\ same_devs s s' /\ bs_list s' = bs_list s
    | None => s' = s /\ forall dev, dev ∈ bs_list s -> ~ has_name s name dev
    end.
Proof.
  intros [Hi Hs] Hroom. destruct (open_walk_run s h name (bs_list s) Hi Hroom ltac:(done)) as (r & s' & E & Hr). exists r, s'. split; [done|].
  destruct r as [dev|]; [|done]. destruct Hr as (? & ? & ? & ? & d & Ed & ->).
  assert (same_devs s (set_ref dev (bd_ref (rd_info d) + 1) s)) by (apply same_devs_alter; auto with bio).
  split_and!; try done. split; [done|]. by eapply shapes_same.
Qed.

Lemma add_sys s h d :
  sys_inv s h -> bd_ref (rd_info d) = 0 -> rd_closed d = false -> dev_ok (rd_info d) -> Forall geo_ok (rd_geometry d) ->
  match rd_parent d with
  | Some p => rd_subdev d = true /\ (0 < h p)%nat /\ forall dp, bs_devs s !! p = Some dp -> in_window d dp
  | None => rd_subdev d = false
  end ->
  exists s', add_device d s = Some (bs_next s, s') /\ sys_inv s' (adopt (rd_parent d) h) /\
    bs_devs s' = <[bs_next s := with_ref (fun _ => 1) d]> (bs_devs s) /\ bs_list s' = bs_list s ++ [bs_next s].
Proof.
  intros [Hi [Hn Hdev Hwin]] Hr Hc Hok Hg Hp. destruct (add_device_run s h d Hi Hn Hr Hc) as (s' & E & Hi' & ->).
  { destruct (rd_parent d); [|done]. by destruct Hp as (? & ? & _). }
  eexists. split; [done|]. split; [|done]. split; [done|]. destruct (fresh _ _ Hi) as (Hfresh & _). set (n := bs_next s) in *. constructor; cbn.
  - lia.
  - intros k d'. destruct (decide (k = n)) as [->|]; [rewrite lookup_insert_eq|rewrite lookup_insert_ne by done; apply Hdev]. intros [= <-].
    split; [|done]. eapply dev_ok_same; [apply same_dev_ref|done].
  - intros k d' p dp'. assert (forall p d0, bs_devs s !! p = Some d0 -> p <> n) as Hne by (intros ??? ->; congruence).
    destruct (decide (k = n)) as [->|]; [rewrite lookup_insert_eq; intros [= <-]; cbn|rewrite lookup_insert_ne by done].
    + intros Ep. rewrite Ep in Hp. destruct Hp as (_ & Hh & Hw). destruct (ri_held _ _ _ Hi p Hh) as [dp Edp].
      rewrite lookup_insert_ne by (intros <-; by eapply Hne). intros E'. destruct (Hw dp' E') as [W1 W2 W3 W4]. by constructor.
    + intros E' Ep. destruct (ri_kid _ _ _ Hi k d' p E' Ep) as (_ & _ & dp & Edp). rewrite lookup_insert_ne by (intros <-; by eapply Hne). by apply Hwin with k.
Qed.

(** Closing what was just opened. *)
Lemma close_taken s h dev : sys_inv s (htake dev h) -> exists s', bio_close dev s = Some s' /\ sys_inv s' h /\ bs_list s' = bs_list s /\ same_devs s s'.
Proof.
  intros [Hi Hs]. destruct (bio_close_run s _ dev Hi) as (s' & E & Hi' & El).
  { apply Nat2Z.inj_lt. rewrite htake_at, decide_True by done. lia. }
  exists s'. pose proof (dec_ref_same _ _ _ _ E) as Hsame. split; [done|]. split; [|done].
  split; [eapply reg_inv_ext, Hi'; intros k; apply hdrop_take|by eapply shapes_same].
Qed.

(** ** Publishing *)
Lemma find_geometry_run start size : 0 <= start < 2 ^ 63 -> 0 <= size < 2 ^ 63 -> forall l geo,
  Forall geo_ok l -> exists r, find_geometry start size geo l = Some r.
Proof.
  intros Hs Hz. induction l as [|g l IH]; intros geo; cbn [find_geometry]; [eauto|]. intros [(? & ? & ?) Hl]%Forall_cons.
  unfold bio_contains_range. rewrite (wrap_small 64 (eg_start g + _)), (wrap_small 64 (start + size)) by lia.
  rewrite !dassert_true by (apply Z.leb_le; lia). cbn. case_match; eauto.
Qed.

Lemma shift_bytes i n : dev_ok i -> 0 <= n < 2 ^ 32 -> u64 (Z.shiftl n (bd_block_shift i)) = n * bd_block_size i /\ 0 <= n * bd_block_size i < 2 ^ 63.
Proof.
  intros [Hs Hz _ _] Hn. rewrite Z.shiftl_mul_pow2, <- Hz by lia. assert (0 < bd_block_size i <= 2 ^ 31).
  { rewrite Hz. split; [apply Z.pow_pos_nonneg; lia|apply Z.pow_le_mono_r; lia]. }
  assert (0 <= n * bd_block_size i < 2 ^ 63) by nia. split; [|done]. apply wrap_small. lia.
Qed.

Lemma check_subdevice_run p start count :
  dev_ok (rd_info p) -> Forall geo_ok (rd_geometry p) -> 0 <= start < 2 ^ 32 -> 0 <= count < 2 ^ 32 ->
  exists r, check_subdevice p start count = Some r /\
    match r with
    | inl err => err = ERR_INVALID_ARGS
    | inr g => Forall geo_ok g /\ (rd_geometry p = [] -> g = [] /\ start + count <= bd_block_count (rd_info p))
    end.
Proof.
  intros Hok Hg Hs Hc. unfold check_subdevice. destruct (rd_geometry p) as [|g0 l] eqn:Eg.
  - destruct (do_count _ Hok). case_match eqn:E; [by eexists|]. exists (inr []). split; [done|]. split; [done|]. intros _. split; [done|].
    apply orb_false_iff in E as [E1%Z.ltb_ge E2%Z.ltb_ge]. destruct (decide (start + count < 2 ^ 32)); [rewrite wrap_small in E2; lia|].
    unfold wrap in E1. rewrite <- (Z.mod_unique_pos (start + count) (2 ^ 32) 1 (start + count - 2 ^ 32)) in E1; lia.
  - destruct (shift_bytes _ start Hok Hs) as [-> Hb]. destruct (shift_bytes _ count Hok Hc) as [-> Hb2].
    destruct (find_geometry_run _ _ Hb Hb2 (g0 :: l) None Hg) as (r & ->). cbn. destruct r as [geo|]; [|by eexists].
    case_match; [by eexists|]. eexists. split; [done|]. split; [|done]. apply Forall_singleton. unfold geo_ok. cbn. lia.
Qed.

(** A sub device of [p] with the given range. *)
Definition is_subdevice s (name : string) (start count : Z) (dev : Z) : Prop := exists d p dp,
  bs_devs s !! dev = Some d /\ rd_parent d = Some p /\ bs_devs s !! p = Some dp /\ in_window d dp /\ dev_ok (rd_info d) /\
  rd_offset d = start /\ bd_block_count (rd_info d) = count /\ bd_name (rd_info d) = name /\ rd_closed d = false.

Lemma publish_sys s h malloc_ok parent name start count :
  sys_inv s h -> room s -> 0 <= start < 2 ^ 32 -> 0 <= count < 2 ^ 32 ->
  exists err s', bio_publish_subdevice malloc_ok parent name start count s = Some (err, s') /\ sys_inv s' h /\
    (err = NO_ERROR /\ bs_list s' = bs_list s ++ [bs_next s] /\ is_subdevice s' name start count (bs_next s) \/
     err < 0 /\ bs_list s' = bs_list s /\ same_devs s s').
Proof.
  intros Hsys Hroom Hs Hc. unfold bio_publish_subdevice. destruct (open_sys s h parent Hsys Hroom) as (r & s1 & -> & Hr). cbn.
  destruct r as [dev|]; [|destruct Hr as [-> _]; eexists _, _; split; [done|]; split; [done|]; right; done].
  destruct Hr as (Hl & _ & Hsys1 & Hsame & Hlist).
  assert (0 < htake dev h dev)%nat as Hheld by (apply Nat2Z.inj_lt; rewrite htake_at, decide_True by done; lia).
  destruct (close_taken s1 h dev Hsys1) as (s' & Eclose & Hsys' & Hlist' & Hsame').
  destruct malloc_ok; cbn; [|rewrite Eclose; cbn; eexists _, s'; split; [done|]; split; [done|]; right; split_and!; [done|congruence|by etrans]].
  destruct (held _ _ _ _ (proj1 Hsys1) Hheld) as (d & Ed & _). rewrite Ed. cbn. destruct (sh_dev _ (proj2 Hsys1) dev d Ed) as [Hok Hg].
  destruct (check_subdevice_run d start count Hok Hg Hs Hc) as (r & -> & Hr). cbn. destruct r as [err|g].
  { subst err. rewrite Eclose. cbn. eexists _, s'. split; [done|]. split; [done|]. right. split_and!; [done|congruence|by etrans]. }
  rewrite (bio_initialize_run name _ (bd_block_shift (rd_info d)) count 0) by (done || apply Hok). cbn.
  match goal with |- context [add_device ?nd s1] => set (new := nd) end. destruct Hr as [Hg' Hwin].
  assert (in_window new d) as Hin by (constructor; cbn; try done; [lia|]; intros E; by destruct (Hwin E)).
  assert (dev_ok (rd_info new)) as Hok' by (constructor; cbn; done || apply Hok).
  destruct (add_sys s1 (htake dev h) new Hsys1 eq_refl eq_refl Hok' Hg') as (s2 & -> & [Hi2 Hs2] & Ed2 & El2).
  { cbn. split_and!; [done|done|]. intros dp E. rewrite Ed in E. by simplify_eq. }
  cbn. eexists _, s2. split; [done|]. split; [split; [|done]; eapply reg_inv_ext, Hi2; intros k; apply hdrop_take|]. left.
  destruct Hsame as (<- & _). split; [done|]. split; [congruence|]. destruct (fresh _ _ (proj1 Hsys1)) as (Hfresh & _).
  exists (with_ref (fun _ => 1) new), dev, d. rewrite Ed2, lookup_insert_eq, lookup_insert_ne by congruence. split_and!; try done.
  - by destruct Hin.
  - by eapply dev_ok_same; [apply same_dev_ref|].
Qed.
End sys.
