(* ===== verification/BioClaims.v ===== *)
(** * What the block layer guarantees *)
From S2P Require Import Prelude Align KState Pmm Heap HeapInv Bio BioOps BioDev BioReg BioRegInv BioRegSys.

(** ** Clients and drivers *)
(** A device as a driver registers it. *)
Record new_device (d : rdev) : Prop := {
  nd_ref : bd_ref (rd_info d) = 0;
  nd_closed : rd_closed d = false;
  nd_parent : rd_parent d = None;
  nd_subdev : rd_subdev d = false;
  nd_ok : dev_ok (rd_info d);
  nd_geometry : Forall geo_ok (rd_geometry d);
}.

Inductive reg_reach `{KConfig} : bios -> (Z -> nat) -> Prop :=
  | rr_init : reg_reach (Bios ∅ [] 0) (fun _ => O)
  | rr_add s h d dev s' : reg_reach s h -> new_device d -> add_device d s = Some (dev, s') -> reg_reach s' h
  | rr_open s h name r s' : reg_reach s h -> room s -> bio_open name s = Some (r, s') ->
      reg_reach s' (match r with Some dev => htake dev h | None => h end)
  | rr_close s h dev s' : reg_reach s h -> (0 < h dev)%nat -> bio_close dev s = Some s' -> reg_reach s' (hdrop dev h)
  | rr_unregister s h dev s' : reg_reach s h -> dev ∈ bs_list s -> bio_unregister_device dev s = Some s' -> reg_reach s' h
  | rr_publish s h malloc_ok parent name start count err s' : reg_reach s h -> room s -> 0 <= start < 2 ^ 32 -> 0 <= count < 2 ^ 32 ->
      bio_publish_subdevice malloc_ok parent name start count s = Some (err, s') -> reg_reach s' h.

(** The device is there, and so are those it is on. *)
Inductive live (s : bios) : Z -> Prop :=
  | live_dev dev d : bs_devs s !! dev = Some d -> 0 < bd_ref (rd_info d) -> rd_closed d = false ->
      (rd_subdev d = true -> exists p dp, rd_parent d = Some p /\ bs_devs s !! p = Some dp /\ in_window d dp) ->
      (forall p, rd_parent d = Some p -> live s p) -> live s dev.

Section reach.
Context `{KConfig}.

Lemma reg_reach_inv s h : reg_reach s h -> sys_inv s h.
Proof.
  induction 1 as [|s h d dev s' _ IH Hd E|s h name r s' _ IH Hroom E|s h dev s' _ IH Hh E|s h dev s' _ IH Hl E|s h ok parent name start count err s' _ IH Hroom Hs Hc E].
  - split; [constructor; cbn; try set_solver; intros; try (by rewrite lookup_empty in *); [apply NoDup_nil_2|lia]|].
    constructor; cbn; [lia|intros *; by rewrite lookup_empty..].
  - destruct Hd as [Hr Hc Hp Hsub Hok Hg]. destruct (add_sys s h d IH Hr Hc Hok Hg) as (s2 & E2 & Hsys & _); [by rewrite Hp|]. rewrite E in E2. simplify_eq. by rewrite Hp in Hsys.
  - destruct (open_sys s h name IH Hroom) as (r2 & s2 & E2 & Hr). rewrite E in E2. simplify_eq. destruct r2; [by destruct Hr as (_ & _ & ? & _)|by destruct Hr as [-> _]].
  - destruct (close_sys s h dev IH Hh) as (s2 & E2 & ? & _). by simplify_eq.
  - destruct IH as [Hi Hs]. destruct (bio_unregister_run s h dev Hi Hl) as (s2 & E2 & Hi2 & _). simplify_eq. split; [done|].
    unfold bio_unregister_device, list_delete_dev in E. rewrite bool_decide_eq_true_2 in E by done. cbn in E.
    eapply shapes_same; [by eapply (dec_ref_same _ dev)|]. by destruct Hs.
  - destruct (publish_sys s h ok parent name start count IH Hroom Hs Hc) as (err2 & s2 & E2 & ? & _). by simplify_eq.
Qed.

(** Devices in use are live, by induction on their number. *)
Lemma in_use_live s h : sys_inv s h -> forall n dev d, Z.to_nat dev = n -> bs_devs s !! dev = Some d -> 0 < bd_ref (rd_info d) -> live s dev.
Proof.
  intros [Hi Hs] n. induction n as [n IH] using lt_wf_ind. intros dev d En Ed Hr.
  destruct (ri_live _ _ _ Hi dev d Ed ltac:(set_solver)) as (Hc & Hp & _). rewrite bool_decide_eq_false_2 in Hc by lia. econstructor; try done.
  - intros Hsub. destruct (Hp Hc Hsub) as [p Ep]. destruct (ri_kid _ _ _ Hi dev d p Ed Ep) as (_ & _ & dp & Edp). exists p, dp. split_and!; try done.
    by eapply (sh_window _ Hs dev).
  - intros p Ep. destruct (ri_kid _ _ _ Hi dev d p Ed Ep) as (Hlt & _ & dp & Edp). pose proof (ri_next _ _ _ Hi p dp Edp).
    eapply (IH (Z.to_nat p)); [lia|done|done|]. rewrite (ri_ref _ _ _ Hi p dp Edp). assert (dev ∈ kids ∅ s p) as Hk.
    { apply elem_of_kids. unfold parent_of. rewrite Ed. split; [done|set_solver]. }
    assert (size (kids ∅ s p) <> 0%nat) by (intros E%size_empty_inv; set_solver). case_decide; lia.
Qed.
End reach.


(** *** A disk with a sub device that is open while both are unregistered *)
Module registry_demo.
Definition cfg : KConfig := {| LK_DEBUGLEVEL := 2 |}.
#[export] Existing Instance cfg.
Definition disk : rdev := RDev (Bdev 0 "disk" 8192 512 9 16 0 0) [] false None 0 false.
Definition s0 : bios := Bios ∅ [] 0.
Definition s1 : bios := default s0 (snd <$> add_device disk s0).
Definition s2 : bios := default s0 (snd <$> bio_publish_subdevice true "disk" "part" 4 8 s1).
Definition s3 : bios := default s0 (snd <$> bio_open "part" s2).
Definition s4 : bios := default s0 (bio_unregister_device 0 s3).
Definition s5 : bios := default s0 (bio_unregister_device 1 s4).
End registry_demo.

Lemma room_decide s : bool_decide (map_Forall (fun _ d => bd_ref (rd_info d) < 2 ^ 31 - 1) (bs_devs s)) = true -> room s.
Proof. intros E k d Ed. by apply (bool_decide_eq_true_1 _ E k). Qed.

Lemma registry_demo_reach : reg_reach (H := registry_demo.cfg) registry_demo.s5 (htake 1 (fun _ => 0%nat)).
Proof.
  apply (rr_unregister registry_demo.s4 _ 1); [|by left|by vm_compute].
  apply (rr_unregister registry_demo.s3 _ 0); [|by left|by vm_compute].
  apply (rr_open registry_demo.s2 _ "part" (Some 1)); [|by apply room_decide; vm_compute|by vm_compute].
  apply (rr_publish registry_demo.s1 _ true "disk" "part" 4 8 0); [|by apply room_decide; vm_compute|lia|lia|by vm_compute].
  apply (rr_add registry_demo.s0 _ registry_demo.disk 0); [constructor| |by vm_compute].
  by constructor.
Qed.


(** ** Devices as arrays of bytes *)


(** A memory of four blocks. *)
Module mem_demo.
Definition m0 : mem.mem_bdev := mem.MemBdev (Bdev 1 "mem" 2048 512 9 4 0 0) (replicate 2048 7).
End mem_demo.
Lemma mem_demo_ok : bl_ok mem_demo.m0.
Proof. by constructor. Qed.


(** ** Sub devices *)


Module sub_demo.
Definition s0 : subdev_t mem.mem_bdev := Subdev (Bdev 1 "part" 1024 512 9 2 0 0) mem_demo.m0 1.
End sub_demo.
Lemma sub_demo_ok : bl_ok (BlockHooksLaws := subdev_hooks_laws (H := registry_demo.cfg)) sub_demo.s0.
Proof. constructor; first [exact mem_demo_ok | by constructor | done]. Qed.


(** ** Where the layer does not do what it says *)

(** The starting block of a request on a device with the default hooks is
    computed with the low 32 bits of the offset: a read or a write 4 GiB further
    on does to the device what the one at the offset does, whatever the size of
    the device. *)
Theorem bio_default_offset_wraps `{KConfig} {D : Type} `{!BlockHooks D} CACHE_LINE temp (d : D) buf data offset len :
  0 <= bd_block_shift (dev_info d) <= 32 -> bd_block_size (dev_info d) = 2 ^ bd_block_shift (dev_info d) ->
  bio_default_read CACHE_LINE temp buf (offset + 2 ^ 32) len d = bio_default_read CACHE_LINE temp buf offset len d /\
  bio_default_write CACHE_LINE temp buf data (offset + 2 ^ 32) len d = bio_default_write CACHE_LINE temp buf data offset len d.
Proof.
  intros Hs Hz. assert (u32 (offset + 2 ^ 32) = u32 offset) as E by (unfold wrap; by rewrite <- (Z.mul_1_l (2 ^ 32)) at 1; rewrite Z.mod_add by lia).
  assert ((offset + 2 ^ 32) mod bd_block_size (dev_info d) = offset mod bd_block_size (dev_info d)) as Em.
  { rewrite Hz. replace (2 ^ 32) with (2 ^ (32 - bd_block_shift (dev_info d)) * 2 ^ bd_block_shift (dev_info d)) by (rewrite <- Z.pow_add_r by lia; f_equal; lia).
    apply Z.mod_add. pose proof (Z.pow_pos_nonneg 2 (bd_block_shift (dev_info d))). lia. }
  split.
  - unfold bio_default_read, read_first. unfold mbind, io_mbind, io_bind, ioget. by rewrite E, Em.
  - unfold bio_default_write, write_first. unfold mbind, io_mbind, io_bind, ioget. by rewrite E, Em.
Qed.

(** A device of 8 GiB, each block of which reads as its number. *)
Module big_demo.
Definition info : bdev := Bdev 1 "big" 8589934592 512 9 16777216 0 0.
#[export] Instance hooks : BlockHooks unit :=
  {| dev_info _ := info;
     dev_read_block _ block count d := Some (inr (count * 512, replicate (Z.to_nat (count * 512)) block), d);
     dev_write_block _ _ _ count d := Some (inr (count * 512), d) |}.
End big_demo.
Lemma bio_default_offset_wraps_witness :
  bio_default_read (H := registry_demo.cfg) (BlockHooks0 := big_demo.hooks) 64 4096 8192 (10 * 512 + 2 ^ 32) 2 tt = Some (inr (2, [10; 10]), tt).
Proof.
  destruct (bio_default_offset_wraps (H := registry_demo.cfg) (BlockHooks0 := big_demo.hooks) 64 4096 tt 8192 [] (10 * 512) 2) as [-> _];
    [cbn; lia|reflexivity|vm_compute; reflexivity].
Defined.

(** On a parent with erase geometry, the search for the region that contains
    the requested range always ends with some region, so that publishing a sub
    device checks the alignment of the range only: blocks that lie beyond the end
    of the parent pass. *)
Theorem subdevice_range_unchecked `{KConfig} p g start count :
  dev_ok (rd_info p) -> rd_geometry p = [g] -> geo_ok g -> 0 <= eg_erase_shift g < 64 ->
  0 <= start < 2 ^ 32 -> 0 <= count < 2 ^ 32 ->
  (start * bd_block_size (rd_info p)) mod 2 ^ eg_erase_shift g = 0 -> (count * bd_block_size (rd_info p)) mod 2 ^ eg_erase_shift g = 0 ->
  check_subdevice p start count = Some (inr [EraseGeometry 0 (count * bd_block_size (rd_info p)) (eg_erase_size g) (eg_erase_shift g)]).
Proof.
  intros Hok Eg Hg He Hs Hc Hms Hmc. unfold check_subdevice. rewrite Eg. destruct (shift_bytes _ start Hok Hs) as [-> Hb]. destruct (shift_bytes _ count Hok Hc) as [-> Hb2].
  assert (find_geometry (start * bd_block_size (rd_info p)) (count * bd_block_size (rd_info p)) None [g] = Some (Some g)) as ->.
  { cbn [find_geometry]. destruct Hg as (? & ? & ?). unfold bio_contains_range.
    rewrite (wrap_small 64 (eg_start g + _)), (wrap_small 64 (start * _ + _)) by lia. rewrite !dassert_true by (apply Z.leb_le; lia). cbn. by case_match. }
  cbn. assert (2 ^ eg_erase_shift g < 2 ^ 64) by (apply Z.pow_lt_mono_r; lia). pose proof (Z.pow_pos_nonneg 2 (eg_erase_shift g)).
  rewrite Z.shiftl_1_l, (wrap_small 64 (2 ^ eg_erase_shift g)), (wrap_small 64 (2 ^ eg_erase_shift g - 1)) by lia.
  rewrite Z.sub_1_r, <- Z.ones_equiv, !Z.land_ones, Hms, Hmc by lia. done.
Qed.

Module flash_demo.
Definition flash : rdev := RDev (Bdev 1 "flash" 8192 512 9 16 255 0) [EraseGeometry 0 8192 1024 10] false None 0 false.
End flash_demo.
Lemma subdevice_range_unchecked_witness :
  check_subdevice (H := registry_demo.cfg) flash_demo.flash 1000 64 = Some (inr [EraseGeometry 0 32768 1024 10]) /\
  bd_block_count (rd_info flash_demo.flash) < 1000.
Proof.
  split; [|reflexivity].
  apply (subdevice_range_unchecked (H := registry_demo.cfg) flash_demo.flash (EraseGeometry 0 8192 1024 10) 1000 64);
    first [by constructor | reflexivity | (unfold geo_ok; cbn; lia)].
Defined.
