(* ===== verification/Cbuf.v ===== *)
(** * Circular buffers: the code of [lib/cbuf/cbuf.c]

    A buffer of a power of two bytes with a head and a tail, and an event that is
    signalled while there is something to read.  The code between taking and
    releasing the spin lock of the buffer is one operation; [cbuf_read] with
    [block] waits for the event before it, and again when another reader was
    faster.  Of the event, the operations see whether it is signalled. *)
From S2P Require Import Prelude Align KState Pmm Heap Bio.

Record cbuf_t := Cbuf { cb_head : Z; cb_tail : Z; cb_len_pow2 : Z; cb_buf : list Z; cb_signaled : bool }.

Definition set_cb_head (v : Z) (c : cbuf_t) : cbuf_t := Cbuf v (cb_tail c) (cb_len_pow2 c) (cb_buf c) (cb_signaled c).
Definition set_cb_tail (v : Z) (c : cbuf_t) : cbuf_t := Cbuf (cb_head c) v (cb_len_pow2 c) (cb_buf c) (cb_signaled c).
Definition set_cb_buf (v : list Z) (c : cbuf_t) : cbuf_t := Cbuf (cb_head c) (cb_tail c) (cb_len_pow2 c) v (cb_signaled c).
(** [event_signal] and [event_unsignal] *)
Definition set_cb_signaled (v : bool) (c : cbuf_t) : cbuf_t := Cbuf (cb_head c) (cb_tail c) (cb_len_pow2 c) (cb_buf c) v.

Section cbuf.
Context `{KConfig}.
Implicit Types (c : cbuf_t).

Definition INC_POINTER c (ptr inc : Z) : Z := modpow2 (u32 (ptr + inc)) (cb_len_pow2 c).

(** [buf]: what the memory holds; [None] for a null pointer *)
Definition cbuf_initialize_etc (len : Z) (buf : option (list Z)) : option cbuf_t :=
  dassert (bool_decide (is_Some buf));;
  dassert (0 <? len);;
  dassert (ispow2 (u32 len));;
  buf ← buf;
  Some (Cbuf 0 0 (log2_uint (u32 len)) buf false).
Definition cbuf_initialize (malloc : Z -> option (list Z)) (len : Z) : option cbuf_t := cbuf_initialize_etc len (malloc len).

Definition cbuf_size c : Z := u64 (Z.shiftl 1 (cb_len_pow2 c)).
Definition cbuf_space_used c : Z := modpow2 (u32 (cb_head c - cb_tail c)) (cb_len_pow2 c).
Definition cbuf_space_avail c : Z :=
  let consumed := modpow2 (u32 (cb_head c - cb_tail c)) (cb_len_pow2 c) in
  u32 (u32 (valpow2 (cb_len_pow2 c) - consumed) - 1).
Definition cbuf_is_full c : bool := INC_POINTER c (cb_head c) 1 =? cb_tail c.

(** [memcpy] and [memset] into the buffer, and [memcpy] out of it *)
Definition cbuf_store (offset : Z) (data : list Z) c : option cbuf_t :=
  oguard (offset + Z.of_nat (length data) <=? Z.of_nat (length (cb_buf c)));;
  Some (set_cb_buf (put_bytes offset data (cb_buf c)) c).
Definition cbuf_load (offset len : Z) c : option (list Z) :=
  oguard (offset + len <=? Z.of_nat (length (cb_buf c)));;
  Some (get_bytes offset len (cb_buf c)).

(** ** Writing *)
Definition write_chunk (len pos : Z) c : Z :=
  if cb_tail c <=? cb_head c then
    if cb_tail c =? 0 then
      (* if tail is at position 0, we can't write all the way to the end *)
      Z.min (u32 (u32 (valpow2 (cb_len_pow2 c) - cb_head c) - 1)) (len - pos)
    else
      (* write to the end of the buffer *)
      Z.min (u32 (valpow2 (cb_len_pow2 c) - cb_head c)) (len - pos)
  else
    (* write from head to tail-1 *)
    Z.min (u32 (u32 (cb_tail c - cb_head c) - 1)) (len - pos).

(** [data] is [None] for a null pointer: zeros are written. *)
Fixpoint write_loop (fuel : nat) (data : option (list Z)) (len pos : Z) c : option (Z * cbuf_t) :=
  if (pos <? len) && (0 <? cbuf_space_avail c) then
    match fuel with
    | O => None
    | S fuel =>
        let write_len := write_chunk len pos c in
        if write_len =? 0 then Some (pos, c)
        else
          let bytes := match data with
                       | None => replicate (Z.to_nat write_len) 0
                       | Some data => get_bytes pos write_len data
                       end in
          c ← cbuf_store (cb_head c) bytes c;
          write_loop fuel data len (pos + write_len) (set_cb_head (INC_POINTER c (cb_head c) write_len) c)
    end
  else Some (pos, c).

Definition cbuf_write (data : option (list Z)) (len : Z) c : option (Z * cbuf_t) :=
  dassert (len <? valpow2 (cb_len_pow2 c));;
  '(pos, c) ← write_loop (Z.to_nat len) data len 0 c;
  Some (pos, if negb (cb_head c =? cb_tail c) then set_cb_signaled true c else c).

Definition cbuf_write_char (ch : Z) c : option (Z * cbuf_t) :=
  if negb (cbuf_is_full c) then
    c ← cbuf_store (cb_head c) [ch] c;
    Some (1, set_cb_signaled true (set_cb_head (INC_POINTER c (cb_head c) 1) c))
  else Some (0, c).

(** ** Reading: under the lock *)
Definition read_chunk (buflen pos : Z) c : Z :=
  if cb_tail c <? cb_head c then Z.min (u32 (cb_head c - cb_tail c)) (buflen - pos)
  else Z.min (u32 (valpow2 (cb_len_pow2 c) - cb_tail c)) (buflen - pos).

(** What is copied out comes with the result; [buf] tells whether a buffer was
    supplied. *)
Fixpoint read_loop (fuel : nat) (buf : bool) (buflen pos : Z) (out : list Z) c : option (Z * list Z * cbuf_t) :=
  if (pos <? buflen) && negb (cb_tail c =? cb_head c) then
    match fuel with
    | O => None
    | S fuel =>
        let read_len := read_chunk buflen pos c in
        bytes ← (if buf then cbuf_load (cb_tail c) read_len c else Some []);
        read_loop fuel buf buflen (pos + read_len) (out ++ bytes) (set_cb_tail (INC_POINTER c (cb_tail c) read_len) c)
    end
  else Some (pos, out, c).

Definition read_locked (buf : bool) (buflen : Z) c : option (Z * list Z * cbuf_t) :=
  if negb (cb_tail c =? cb_head c) then
    '(pos, out, c) ← read_loop (Z.to_nat buflen) buf buflen 0 [] c;
    if cb_tail c =? cb_head c then
      dassert (0 <? pos);;
      (* we've emptied the buffer, unsignal the event *)
      Some (pos, out, set_cb_signaled false c)
    else Some (pos, out, c)
  else Some (0, [], c).

Definition cbuf_reset c : option cbuf_t := '(_, _, c) ← read_locked false (cbuf_size c) c; Some c.

Definition read_char_locked c : option (Z * list Z * cbuf_t) :=
  if negb (cb_tail c =? cb_head c) then
    ch ← cbuf_load (cb_tail c) 1 c;
    let c := set_cb_tail (INC_POINTER c (cb_tail c) 1) c in
    Some (1, ch, if cb_tail c =? cb_head c then set_cb_signaled false c else c)
  else Some (0, [], c).

(** The regions, as offset, if any, and length. *)
Definition cbuf_peek c : option (Z * (option Z * Z) * (option Z * Z)) :=
  let ret := cbuf_space_used c in
  let sz := cbuf_size c in
  dassert (cb_tail c <? sz);;
  dassert (ret <=? sz);;
  let base := if negb (ret =? 0) then Some (cb_tail c) else None in
  if sz <? u64 (ret + cb_tail c) then
    let len := u64 (sz - cb_tail c) in Some (ret, (base, len), (Some 0, u64 (ret - len)))
  else Some (ret, (base, ret), (None, 0)).

(** ** Blocking reads
    A reader waits for the event, then takes the lock, and goes back to waiting
    when it found nothing. *)
Inductive reader := RWait (buf : bool) (buflen : Z) | RReady (buf : bool) (buflen : Z) | RDone (ret : Z) (out : list Z).

Definition read_entry (buf : bool) (buflen : Z) (block : bool) : reader := if block then RWait buf buflen else RReady buf buflen.

(** One step of a reader, if it is not waiting. *)
Definition read_step (block : bool) (r : reader) c : option (option (reader * cbuf_t)) :=
  match r with
  | RWait buf buflen => Some (if cb_signaled c then Some (RReady buf buflen, c) else None)
  | RReady buf buflen =>
      '(ret, out, c) ← read_locked buf buflen c;
      Some (Some (if block && (ret =? 0) then RWait buf buflen else RDone ret out, c))
  | RDone ret out => Some None
  end.
End cbuf.
