(* ===== verification/CbufOps.v ===== *)
(** * Circular buffers are queues of bytes *)
From S2P Require Import Prelude Align KState Pmm Heap HeapInv Bio BioOps Cbuf.

Section ops.
Context `{KConfig}.
Implicit Types (c : cbuf_t).

(** ** The contents *)
Definition cap c : Z := 2 ^ cb_len_pow2 c.
Definition used c : Z := if cb_tail c <=? cb_head c then cb_head c - cb_tail c else cap c - cb_tail c + cb_head c.
Definition contents c : list Z :=
  if cb_tail c <=? cb_head c then get_bytes (cb_tail c) (cb_head c - cb_tail c) (cb_buf c)
  else get_bytes (cb_tail c) (cap c - cb_tail c) (cb_buf c) ++ get_bytes 0 (cb_head c) (cb_buf c).

Record cb_shape c : Prop := {
  cs_pow2 : 0 <= cb_len_pow2 c < 32;
  cs_buf : Z.of_nat (length (cb_buf c)) = cap c;
  cs_head : 0 <= cb_head c < cap c;
  cs_tail : 0 <= cb_tail c < cap c;
}.
(** The event is signalled exactly while there is something to read. *)
Record cb_ok c : Prop := { co_shape : cb_shape c; co_event : cb_signaled c = negb (cb_head c =? cb_tail c) }.

Lemma cap_range c : cb_shape c -> 0 < cap c <= 2 ^ 31.
Proof. intros [Hp _ _ _]. unfold cap. split; [apply Z.pow_pos_nonneg; lia|apply Z.pow_le_mono_r; lia]. Qed.

Lemma cbuf_contents_length c : cb_shape c -> Z.of_nat (length (contents c)) = used c.
Proof.
  intros [Hp Hb Hh Ht]. unfold contents, used. destruct (Z.leb_spec (cb_tail c) (cb_head c)).
  - rewrite length_get_bytes; lia.
  - rewrite length_app, Nat2Z.inj_add, !length_get_bytes; lia.
Qed.

Lemma used_range c : cb_shape c -> 0 <= used c < cap c.
Proof. intros [Hp Hb Hh Ht]. unfold used. destruct (Z.leb_spec (cb_tail c) (cb_head c)); lia. Qed.

(** The arithmetic of the code. *)
Lemma mod_sub x n : 0 <= x < 2 * n -> x mod n = if x <? n then x else x - n.
Proof.
  intros Hx. destruct (Z.ltb_spec x n); [apply Z.mod_small; lia|]. rewrite <- (Z.mod_unique_pos x n 1 (x - n)); lia.
Qed.

Lemma INC_POINTER_spec c ptr inc : cb_shape c -> 0 <= ptr < cap c -> 0 <= inc <= cap c ->
  INC_POINTER c ptr inc = if ptr + inc <? cap c then ptr + inc else ptr + inc - cap c.
Proof.
  intros Hs Hp Hi. pose proof (cap_range c Hs). destruct Hs as [Hk _ _ _]. unfold INC_POINTER. rewrite (wrap_small 32 (ptr + inc)) by lia.
  rewrite modpow2_mod by lia. fold (cap c). apply mod_sub. lia.
Qed.

Lemma space_used_spec c : cb_shape c -> cbuf_space_used c = used c.
Proof.
  intros Hs. pose proof (cap_range c Hs) as Hc. destruct Hs as [Hk Hb Hh Ht]. unfold cbuf_space_used, used.
  rewrite modpow2_mod by (try lia; unfold wrap; apply Z.mod_pos_bound; lia). fold (cap c). destruct (Z.leb_spec (cb_tail c) (cb_head c)).
  - rewrite wrap_small by lia. apply Z.mod_small. lia.
  - unfold wrap. rewrite Z.mod_mod_divide.
    + rewrite <- (Z.mod_unique_pos (cb_head c - cb_tail c) (cap c) (-1) (cap c - cb_tail c + cb_head c)); lia.
    + exists (2 ^ (32 - cb_len_pow2 c)). unfold cap. rewrite <- Z.pow_add_r by lia. f_equal. lia.
Qed.

Lemma space_avail_spec c : cb_shape c -> cbuf_space_avail c = cap c - 1 - used c.
Proof.
  intros Hs. pose proof (cap_range c Hs) as Hc. pose proof (used_range c Hs). unfold cbuf_space_avail. fold (cbuf_space_used c). rewrite space_used_spec by done.
  rewrite valpow2_small by apply Hs. fold (cap c). rewrite (wrap_small 32 (cap c - used c)) by lia. rewrite wrap_small; lia.
Qed.

Lemma is_full_spec c : cb_shape c -> cbuf_is_full c = (used c =? cap c - 1).
Proof.
  intros Hs. pose proof (cap_range c Hs). unfold cbuf_is_full. rewrite INC_POINTER_spec by first [done | apply Hs | lia]. destruct Hs as [Hk Hb Hh Ht].
  unfold used. destruct (Z.leb_spec (cb_tail c) (cb_head c)), (Z.ltb_spec (cb_head c + 1) (cap c));
    match goal with |- (?a =? ?b) = (?x =? ?y) => destruct (Z.eqb_spec a b), (Z.eqb_spec x y); lia end.
Qed.

(** ** Chunks *)
Definition stored (data : list Z) c : cbuf_t :=
  set_cb_head (INC_POINTER c (cb_head c) (Z.of_nat (length data))) (set_cb_buf (put_bytes (cb_head c) data (cb_buf c)) c).
Definition loaded (n : Z) c : cbuf_t := set_cb_tail (INC_POINTER c (cb_tail c) n) c.

(** Bytes that fit before the end of the buffer and leave one place free. *)
Lemma stored_contents data c : cb_shape c -> cb_head c + Z.of_nat (length data) <= cap c -> Z.of_nat (length data) <= cap c - 1 - used c ->
  cb_shape (stored data c) /\ contents (stored data c) = contents c ++ data /\ cap (stored data c) = cap c.
Proof.
  intros Hs Hl Ha. pose proof (cap_range c Hs) as Hc. pose proof (used_range c Hs). pose proof (INC_POINTER_spec c (cb_head c) (Z.of_nat (length data)) Hs (cs_head c Hs) ltac:(lia)) as Hinc.
  destruct Hs as [Hk Hb Hh Ht]. assert (length (put_bytes (cb_head c) data (cb_buf c)) = length (cb_buf c)) as Hlen by (apply length_put_bytes; lia).
  split_and!; [|unfold stored, contents; change (cap (set_cb_head _ _)) with (cap c); cbn|done].
  { constructor; unfold stored; change (cap (set_cb_head _ _)) with (cap c); cbn; [done|by rewrite Hlen|rewrite Hinc; case_match; lia|lia]. }
  unfold used in Ha. rewrite Hinc. set (n := Z.of_nat (length data)) in *.
  destruct (Z.leb_spec (cb_tail c) (cb_head c)) as [Hle|Hgt].
  - assert (get_bytes (cb_tail c) (cb_head c + n - cb_tail c) (put_bytes (cb_head c) data (cb_buf c)) =
      get_bytes (cb_tail c) (cb_head c - cb_tail c) (cb_buf c) ++ data) as E.
    { replace (cb_head c + n - cb_tail c) with ((cb_head c - cb_tail c) + n) by lia. rewrite get_bytes_app by lia.
      replace (cb_tail c + (cb_head c - cb_tail c)) with (cb_head c) by lia. unfold n. by rewrite get_put_same, get_put_other by lia. }
    destruct (Z.ltb_spec (cb_head c + n) (cap c)).
    + by rewrite (proj2 (Z.leb_le (cb_tail c) (cb_head c + n))) by lia.
    + replace (cb_head c + n - cap c) with 0 by lia. rewrite (proj2 (Z.leb_gt (cb_tail c) 0)) by lia.
      rewrite app_nil_r. by replace (cap c - cb_tail c) with (cb_head c + n - cb_tail c) by lia.
  - rewrite (proj2 (Z.ltb_lt (cb_head c + n) (cap c))) by lia. rewrite (proj2 (Z.leb_gt (cb_tail c) (cb_head c + n))) by lia.
    rewrite (get_bytes_app 0 (cb_head c) n) by lia. cbn [Z.add]. unfold n. by rewrite get_put_same, !get_put_other, app_assoc by lia.
Qed.

Lemma loaded_contents n c : cb_shape c -> 0 <= n <= used c -> cb_tail c + n <= cap c ->
  cb_shape (loaded n c) /\ contents c = get_bytes (cb_tail c) n (cb_buf c) ++ contents (loaded n c) /\ cap (loaded n c) = cap c.
Proof.
  intros Hs Hn Hl. pose proof (cap_range c Hs) as Hc. pose proof (used_range c Hs). pose proof (INC_POINTER_spec c (cb_tail c) n Hs (cs_tail c Hs) ltac:(lia)) as Hinc.
  destruct Hs as [Hk Hb Hh Ht]. split_and!; [|unfold loaded, contents; change (cap (set_cb_tail _ _)) with (cap c); cbn|done].
  { constructor; unfold loaded; change (cap (set_cb_tail _ _)) with (cap c); cbn; [done|done|lia|rewrite Hinc; case_match; lia]. }
  unfold used in Hn. rewrite Hinc. destruct (Z.leb_spec (cb_tail c) (cb_head c)) as [Hle|Hgt].
  - rewrite (proj2 (Z.ltb_lt (cb_tail c + n) (cap c))), (proj2 (Z.leb_le (cb_tail c + n) (cb_head c))) by lia.
    rewrite <- get_bytes_app by lia. f_equal. lia.
  - destruct (Z.ltb_spec (cb_tail c + n) (cap c)).
    + rewrite (proj2 (Z.leb_gt (cb_tail c + n) (cb_head c))) by lia. rewrite app_assoc, <- get_bytes_app by lia. do 2 f_equal. lia.
    + replace (cb_tail c + n - cap c) with 0 by lia. rewrite (proj2 (Z.leb_le 0 (cb_head c))) by lia. rewrite Z.sub_0_r. do 2 f_equal. lia.
Qed.

Lemma contents_nil c : cb_shape c -> (cb_tail c =? cb_head c) = bool_decide (contents c = []).
Proof.
  intros Hs. pose proof (cbuf_contents_length c Hs) as Hl. destruct Hs as [Hk Hb Hh Ht]. unfold used in Hl. destruct (Z.eqb_spec (cb_tail c) (cb_head c)) as [E|E].
  - rewrite E, Z.leb_refl in Hl. symmetry. apply bool_decide_eq_true_2. destruct (contents c); [done|cbn in Hl; lia].
  - symmetry. apply bool_decide_eq_false_2. intros En. rewrite En in Hl. cbn in Hl. destruct (Z.leb_spec (cb_tail c) (cb_head c)); lia.
Qed.

(** ** Writing *)
Lemma write_chunk_spec len pos c : cb_shape c -> 0 <= pos < len -> 0 < cap c - 1 - used c ->
  0 < write_chunk len pos c <= len - pos /\ write_chunk len pos c <= cap c - 1 - used c /\ cb_head c + write_chunk len pos c <= cap c.
Proof.
  intros Hs Hp Ha. pose proof (cap_range c Hs) as Hc. unfold write_chunk. rewrite valpow2_small by apply Hs. fold (cap c). destruct Hs as [Hk Hb Hh Ht].
  unfold used in *. destruct (Z.leb_spec (cb_tail c) (cb_head c)).
  - destruct (Z.eqb_spec (cb_tail c) 0); rewrite !wrap_small; rewrite ?wrap_small; lia.
  - rewrite !wrap_small; rewrite ?wrap_small; lia.
Qed.

(** What is written: the data, or zeros. *)
Definition source (data : option (list Z)) (len : Z) : list Z := default (replicate (Z.to_nat len) 0) data.

Lemma chunk_bytes data len pos n : 0 <= pos -> 0 < n <= len - pos -> Z.of_nat (length (source data len)) = len ->
  match data with None => replicate (Z.to_nat n) 0 | Some d => get_bytes pos n d end = get_bytes pos n (source data len).
Proof.
  intros Hp Hn Hl. destruct data as [d|]; [done|]. unfold get_bytes. cbn. rewrite drop_replicate, take_replicate. f_equal. lia.
Qed.

Lemma write_loop_run data len fuel : forall pos c,
  cb_shape c -> 0 <= pos <= len -> Z.of_nat (length (source data len)) = len -> len - pos <= Z.of_nat fuel ->
  exists c', write_loop fuel data len pos c = Some (pos + Z.min (len - pos) (cap c - 1 - used c), c') /\ cb_shape c' /\ cap c' = cap c /\
    cb_signaled c' = cb_signaled c /\
    contents c' = contents c ++ get_bytes pos (Z.min (len - pos) (cap c - 1 - used c)) (source data len).
Proof.
  induction fuel as [|fuel IH]; intros pos c Hs Hp Hl Hf; cbn [write_loop]; rewrite space_avail_spec by done; pose proof (used_range c Hs) as Hu.
  { rewrite (proj2 (Z.ltb_ge pos len)) by lia. cbn. exists c. replace (len - pos) with 0 by lia. rewrite Z.min_l, Z.add_0_r, app_nil_r by lia. done. }
  destruct (Z.ltb_spec pos len) as [Hlt|]; cbn.
  2:{ exists c. replace (len - pos) with 0 by lia. rewrite Z.min_l, Z.add_0_r, app_nil_r by lia. done. }
  destruct (Z.ltb_spec 0 (cap c - 1 - used c)) as [Ha|].
  2:{ exists c. replace (cap c - 1 - used c) with 0 by lia. rewrite Z.min_r, Z.add_0_r, app_nil_r by lia. done. }
  destruct (write_chunk_spec len pos c Hs ltac:(lia) Ha) as (Hn & Hn2 & Hn3). set (n := write_chunk len pos c) in *.
  rewrite (proj2 (Z.eqb_neq n 0)) by lia. rewrite (chunk_bytes data len pos n) by lia || done. set (d := get_bytes pos n (source data len)).
  assert (Z.of_nat (length d) = n) as Hd by (apply length_get_bytes; lia).
  destruct (stored_contents d c Hs ltac:(lia) ltac:(lia)) as (Hs' & Hc' & Hcap).
  unfold cbuf_store. rewrite (proj2 (Z.leb_le _ _)) by (rewrite (cs_buf c Hs); lia). cbn.
  assert (used (stored d c) = used c + n) as Hu' by (rewrite <- !cbuf_contents_length, Hc', length_app by done; lia).
  unfold stored in *. rewrite Hd in *. destruct (IH (pos + n) _ Hs' ltac:(lia) Hl ltac:(lia)) as (c' & Eq & ? & Hcap' & ? & Hc2).
  exists c'. rewrite Hcap, Hu' in *. split_and!; try done.
  - change (INC_POINTER (set_cb_buf _ c) (cb_head c) n) with (INC_POINTER c (cb_head c) n). rewrite Eq. do 2 f_equal. lia.
  - rewrite Hc2, Hc', <- app_assoc. f_equal. unfold d. rewrite <- get_bytes_app by lia. f_equal. lia.
Qed.

Lemma cbuf_write_run data len c : cb_ok c -> 0 <= len < cap c -> Z.of_nat (length (source data len)) = len ->
  exists c', cbuf_write data len c = Some (Z.min len (cap c - 1 - used c), c') /\ cb_ok c' /\ cap c' = cap c /\
    contents c' = contents c ++ take (Z.to_nat (Z.min len (cap c - 1 - used c))) (source data len).
Proof.
  intros [Hs He] Hl Hd. unfold cbuf_write. rewrite valpow2_small by apply Hs. fold (cap c). rewrite (proj2 (Z.ltb_lt len (cap c))), dassert_true by lia || done. cbn.
  destruct (write_loop_run data len (Z.to_nat len) 0 c Hs ltac:(lia) Hd ltac:(lia)) as (c' & -> & Hs' & Hcap & Hsig & Hc). cbn. rewrite Z.sub_0_r in *.
  eexists. split; [done|]. unfold get_bytes in Hc. cbn in Hc. rewrite drop_0 in Hc.
  destruct (Z.eqb_spec (cb_head c') (cb_tail c')) as [E|E]; cbn.
  - split_and!; try done. split; [done|]. rewrite E, Z.eqb_refl, Hsig, He. apply negb_false_iff.
    pose proof (contents_nil c' Hs') as Hn. rewrite E, Z.eqb_refl in Hn. symmetry in Hn. apply bool_decide_eq_true_1 in Hn. rewrite Hc in Hn.
    apply app_nil in Hn as [Hn _]. rewrite Z.eqb_sym, contents_nil by done. by apply bool_decide_eq_true_2.
  - split_and!; try done. split; [by destruct Hs'|]. cbn. symmetry. by apply negb_true_iff, Z.eqb_neq.
Qed.

Lemma cbuf_write_char_run ch c : cb_ok c ->
  exists c', cbuf_write_char ch c = Some (if decide (used c < cap c - 1) then 1 else 0, c') /\ cb_ok c' /\ cap c' = cap c /\
    contents c' = contents c ++ (if decide (used c < cap c - 1) then [ch] else []).
Proof.
  intros [Hs He]. pose proof (used_range c Hs). unfold cbuf_write_char. rewrite is_full_spec by done. destruct (Z.eqb_spec (used c) (cap c - 1)) as [E|E]; cbn.
  { exists c. rewrite !decide_False by lia. rewrite app_nil_r. done. }
  rewrite !decide_True by lia. pose proof (cs_head c Hs). destruct (stored_contents [ch] c Hs) as (Hs' & Hc' & Hcap); [cbn; lia..|].
  unfold cbuf_store. rewrite (proj2 (Z.leb_le _ _)) by (rewrite (cs_buf c Hs); cbn; lia). cbn. eexists. split; [done|]. split; [|done]. split; [by destruct Hs'; constructor|].
  pose proof (contents_nil _ Hs') as Hn. rewrite Hc', (bool_decide_eq_false_2 (contents c ++ [ch] = [])) in Hn by (by destruct (contents c)).
  cbn. symmetry. apply negb_true_iff. rewrite Z.eqb_sym. exact Hn.
Qed.

(** ** Reading *)
Lemma read_chunk_spec buflen pos c : cb_shape c -> 0 <= pos < buflen -> cb_tail c <> cb_head c ->
  0 < read_chunk buflen pos c <= buflen - pos /\ read_chunk buflen pos c <= used c /\ cb_tail c + read_chunk buflen pos c <= cap c.
Proof.
  intros Hs Hp Hne. pose proof (cap_range c Hs) as Hc. unfold read_chunk. rewrite valpow2_small by apply Hs. fold (cap c). destruct Hs as [Hk Hb Hh Ht].
  unfold used. destruct (Z.ltb_spec (cb_tail c) (cb_head c)), (Z.leb_spec (cb_tail c) (cb_head c)); rewrite wrap_small; lia.
Qed.

Definition out_of (buf : bool) (l : list Z) : list Z := if buf then l else [].

Lemma read_loop_run buf buflen fuel : forall pos out c,
  cb_shape c -> 0 <= pos <= buflen -> buflen - pos <= Z.of_nat fuel ->
  let n := Z.min (buflen - pos) (used c) in
  exists c', read_loop fuel buf buflen pos out c = Some (pos + n, out ++ out_of buf (take (Z.to_nat n) (contents c)), c') /\ cb_shape c' /\ cap c' = cap c /\
    cb_signaled c' = cb_signaled c /\ contents c' = drop (Z.to_nat n) (contents c).
Proof.
  induction fuel as [|fuel IH]; intros pos out c Hs Hp Hf n; cbn [read_loop]; pose proof (used_range c Hs) as Hu.
  { rewrite (proj2 (Z.ltb_ge pos buflen)) by lia. cbn. exists c. replace n with 0 by lia. rewrite Z.add_0_r, drop_0. destruct buf; cbn; by rewrite app_nil_r. }
  destruct (Z.ltb_spec pos buflen) as [Hlt|]; cbn.
  2:{ exists c. replace n with 0 by lia. rewrite Z.add_0_r, drop_0. destruct buf; cbn; by rewrite app_nil_r. }
  destruct (Z.eqb_spec (cb_tail c) (cb_head c)) as [E|E]; cbn.
  { exists c. assert (used c = 0) by (unfold used; rewrite E, Z.leb_refl; lia). replace n with 0 by lia. rewrite Z.add_0_r, drop_0.
    destruct buf; cbn; by rewrite app_nil_r. }
  destruct (read_chunk_spec buflen pos c Hs ltac:(lia) E) as (Hn & Hn2 & Hn3). set (k := read_chunk buflen pos c) in *.
  destruct (loaded_contents k c Hs ltac:(lia) Hn3) as (Hs' & Hc' & Hcap). set (d := get_bytes (cb_tail c) k (cb_buf c)) in *.
  assert (Z.of_nat (length d) = k) as Hd by (apply length_get_bytes; [apply Hs|lia|rewrite (cs_buf c Hs); lia]).
  assert ((if buf then cbuf_load (cb_tail c) k c else Some []) = Some (out_of buf d)) as ->.
  { destruct buf; [|done]. unfold cbuf_load. by rewrite (proj2 (Z.leb_le _ _)) by (rewrite (cs_buf c Hs); lia). }
  cbn. fold (loaded k c). assert (used (loaded k c) = used c - k) as Hu' by (rewrite <- !cbuf_contents_length, Hc', length_app by done; lia).
  destruct (IH (pos + k) (out ++ out_of buf d) (loaded k c) Hs' ltac:(lia) ltac:(lia)) as (c' & -> & ? & Hcap' & ? & Hc2). exists c'. rewrite Hu' in *.
  set (n' := Z.min (buflen - (pos + k)) (used c - k)) in *. assert (n = k + n') as -> by lia.
  assert (Z.to_nat (k + n') = length d + Z.to_nat n')%nat as -> by lia. rewrite Hc', take_app_add, drop_app_add. split; [|done].
  do 3 f_equal; [lia|]. rewrite <- app_assoc. by destruct buf.
Qed.

Lemma read_locked_run buf buflen c : cb_ok c -> 0 <= buflen ->
  let n := Z.min buflen (used c) in
  exists c', read_locked buf buflen c = Some (n, out_of buf (take (Z.to_nat n) (contents c)), c') /\ cb_ok c' /\ cap c' = cap c /\
    contents c' = drop (Z.to_nat n) (contents c).
Proof.
  intros [Hs He] Hl n. unfold read_locked. destruct (Z.eqb_spec (cb_tail c) (cb_head c)) as [E|E]; cbn.
  { exists c. assert (used c = 0) by (unfold used; rewrite E, Z.leb_refl; lia). replace n with 0 by lia. rewrite drop_0. by destruct buf. }
  destruct (read_loop_run buf buflen (Z.to_nat buflen) 0 [] c Hs ltac:(lia) ltac:(lia)) as (c' & -> & Hs' & Hcap & Hsig & Hc). rewrite Z.sub_0_r in *. rewrite Z.add_0_l. fold n in Hc |- *. cbn [mbind option_bind fst snd].
  rewrite contents_nil by done. case_bool_decide as Hn.
  - pose proof (cbuf_contents_length c Hs) as Hlen. rewrite Hc in Hn. apply (f_equal length) in Hn. rewrite length_drop in Hn. cbn in Hn.
    assert (0 < used c) by (unfold used; destruct Hs; destruct (Z.leb_spec (cb_tail c) (cb_head c)); lia).
    rewrite (proj2 (Z.ltb_lt 0 n)), dassert_true by (done || lia). cbn. eexists. split; [done|]. split; [|done].
    split; [by destruct Hs'|]. cbn. symmetry. apply negb_false_iff. rewrite Z.eqb_sym, contents_nil by done. apply bool_decide_eq_true_2.
    apply nil_length_inv. rewrite Hc, length_drop. lia.
  - eexists. split; [done|]. split; [|done]. split; [done|]. rewrite Hsig, He, (Z.eqb_sym (cb_head c')), (contents_nil c') by done.
    rewrite (bool_decide_eq_false_2 (contents c' = [])) by done. by apply negb_true_iff, Z.eqb_neq.
Qed.

Lemma read_char_run c : cb_ok c ->
  exists c', read_char_locked c = Some (if decide (contents c = []) then 0 else 1, take 1 (contents c), c') /\ cb_ok c' /\ cap c' = cap c /\
    contents c' = drop 1 (contents c).
Proof.
  intros [Hs He]. unfold read_char_locked. rewrite contents_nil by done. case_bool_decide as Hn; cbn.
  { exists c. by rewrite decide_True, Hn by done. }
  rewrite decide_False by done. pose proof (contents_nil c Hs) as Hne. rewrite bool_decide_eq_false_2 in Hne by done. apply Z.eqb_neq in Hne.
  assert (1 <= used c) by (unfold used; destruct Hs; destruct (Z.leb_spec (cb_tail c) (cb_head c)); lia).
  pose proof (cs_tail c Hs). destruct (loaded_contents 1 c Hs ltac:(lia) ltac:(lia)) as (Hs' & Hc' & Hcap).
  unfold cbuf_load. rewrite (proj2 (Z.leb_le _ _)) by (rewrite (cs_buf c Hs); lia). cbn. fold (loaded 1 c). set (d := get_bytes (cb_tail c) 1 (cb_buf c)) in *.
  assert (Z.of_nat (length d) = 1) as Hd by (apply length_get_bytes; [lia|lia|rewrite (cs_buf c Hs); lia]).
  assert (take 1 (contents c) = d /\ drop 1 (contents c) = contents (loaded 1 c)) as [-> ->].
  { rewrite Hc'. replace 1%nat with (length d) by lia. by rewrite take_app_length, drop_app_length. }
  eexists. split; [done|]. pose proof (contents_nil _ Hs') as Hn'. change (INC_POINTER c (cb_tail c) 1) with (cb_tail (loaded 1 c)). change (cb_head c) with (cb_head (loaded 1 c)).
  rewrite Hn'. case_bool_decide as Hb; (split; [|done]).
  - split; [by destruct Hs'|]. cbn. symmetry. apply negb_false_iff. rewrite Z.eqb_sym. exact Hn'.
  - split; [done|]. rewrite (Z.eqb_sym (cb_head _)), Hn'. cbn. rewrite He. by apply negb_true_iff, Z.eqb_neq.
Qed.
End ops.

(** ** Writers and readers on one buffer *)
(** The state with what has been written and read so far, in the order of the
    spin lock, and the readers, each with whether it blocks. *)
Record cb_sys := CbSys { sy_c : cbuf_t; sy_sent : list Z; sy_got : list Z; sy_readers : gmap Z (bool * reader) }.

Section system.
Context `{KConfig}.

Inductive cb_step : cb_sys -> cb_sys -> Prop :=
  | cb_write c sent got rs data n c' :
      Z.of_nat (length data) < cap c -> cbuf_write (Some data) (Z.of_nat (length data)) c = Some (n, c') ->
      cb_step (CbSys c sent got rs) (CbSys c' (sent ++ take (Z.to_nat n) data) got rs)
  | cb_write_char c sent got rs ch n c' :
      cbuf_write_char ch c = Some (n, c') -> cb_step (CbSys c sent got rs) (CbSys c' (sent ++ take (Z.to_nat n) [ch]) got rs)
  | cb_read c sent got rs k buflen block :
      0 < buflen -> cb_step (CbSys c sent got rs) (CbSys c sent got (<[k := (block, read_entry true buflen block)]> rs))
  | cb_reader c sent got rs k block r r' c' :
      rs !! k = Some (block, r) -> read_step block r c = Some (Some (r', c')) ->
      cb_step (CbSys c sent got rs) (CbSys c' sent (got ++ match r' with RDone _ out => out | _ => [] end) (<[k := (block, r')]> rs))
  | cb_read_char c sent got rs n out c' :
      read_char_locked c = Some (n, out, c') -> cb_step (CbSys c sent got rs) (CbSys c' sent (got ++ out) rs).

Definition cb_init (c : cbuf_t) : cb_sys := CbSys c [] [] ∅.

Definition reader_ok (br : bool * reader) : Prop :=
  match br.2 with RWait buf buflen => buf = true /\ 0 < buflen | RReady buf buflen => buf = true /\ 0 < buflen | RDone _ _ => True end.
Definition cb_inv (y : cb_sys) : Prop :=
  cb_ok (sy_c y) /\ sy_sent y = sy_got y ++ contents (sy_c y) /\ map_Forall (fun _ => reader_ok) (sy_readers y).

Lemma read_step_run block r c : cb_ok c -> reader_ok (block, r) ->
  exists o, read_step block r c = Some o /\
    match o with
    | Some (r', c') => cb_ok c' /\ cap c' = cap c /\ reader_ok (block, r') /\
        contents c = match r' with RDone _ out => out | _ => [] end ++ contents c'
    | None => match r with RWait _ _ => contents c = [] | RReady _ _ => False | RDone _ _ => True end
    end.
Proof.
  intros Hok Hr. pose proof Hok as [Hs He]. destruct r as [buf buflen|buf buflen|ret out]; cbn in *.
  - eexists. split; [done|]. rewrite He, Z.eqb_sym, contents_nil by done. case_bool_decide; cbn; [done|]. split_and!; done || apply Hr.
  - destruct Hr as [-> Hb]. destruct (read_locked_run true buflen c Hok ltac:(lia)) as (c' & -> & Hok' & Hcap & Hc). cbn. eexists. split; [done|]. cbn.
    split_and!; try done; [by case_match|]. destruct (Z.eqb_spec (Z.min buflen (used c)) 0) as [E|E].
    + rewrite Hc, E. cbn. rewrite drop_0. by destruct block.
    + rewrite andb_false_r, Hc. by rewrite take_drop.
  - eexists. split; [done|]. done.
Qed.

Lemma cb_step_inv y y' : cb_inv y -> cb_step y y' -> cb_inv y' /\ cap (sy_c y') = cap (sy_c y).
Proof.
  intros (Hok & Hq & Hr) Hst. destruct Hst as [c sent got rs data n c' Hl E|c sent got rs ch n c' E|c sent got rs k buflen block Hl|c sent got rs k block r r' c' Ek E|c sent got rs n out c' E]; cbn in *.
  - destruct (cbuf_write_run (Some data) (Z.of_nat (length data)) c Hok ltac:(lia) ltac:(done)) as (c2 & E2 & Hok2 & Hcap & Hc). rewrite E in E2. simplify_eq.
    split; [|done]. split_and!; [done| |done]. cbn. by rewrite Hc, app_assoc.
  - destruct (cbuf_write_char_run ch c Hok) as (c2 & E2 & Hok2 & Hcap & Hc). rewrite E in E2. simplify_eq.
    split; [|done]. split_and!; [done| |done]. cbn. rewrite Hc, app_assoc. by case_decide.
  - split; [|done]. split_and!; [done|done|]. cbn. apply map_Forall_insert_2; [|done]. by destruct block.
  - destruct (read_step_run block r c Hok (Hr k _ Ek)) as (o & E2 & Ho). rewrite E in E2. simplify_eq. destruct Ho as (? & ? & ? & Hc).
    split; [|done]. split_and!; [done| |by apply map_Forall_insert_2]. cbn. by rewrite <- app_assoc, <- Hc.
  - destruct (read_char_run c Hok) as (c2 & E2 & Hok2 & Hcap & Hc). rewrite E in E2. simplify_eq.
    split; [|done]. split_and!; [done| |done]. cbn. rewrite Hc, <- app_assoc. by rewrite take_drop.
Qed.

Lemma cb_reach_inv c y : cb_ok c -> contents c = [] -> rtc cb_step (cb_init c) y -> cb_inv y /\ cap (sy_c y) = cap c.
Proof.
  intros Hok Hc Hy. assert (cb_inv (cb_init c)) as H0 by (split_and!; [done|cbn; by rewrite Hc|apply map_Forall_empty]).
  change (cap c) with (cap (sy_c (cb_init c))). revert H0. clear Hok Hc. induction Hy as [y|y1 y2 y3 Hst _ IH]; intros Hi; [done|].
  destruct (cb_step_inv _ _ Hi Hst) as [Hi2 Hcap]. destruct (IH Hi2) as [? ?]. split; [done|congruence].
Qed.
End system.

(** A buffer as [cbuf_initialize_etc] sets it up. *)
Lemma cbuf_initialize_run `{KConfig} len buf k : 0 <= k < 32 -> len = 2 ^ k -> Z.of_nat (length buf) = len ->
  exists c, cbuf_initialize_etc len (Some buf) = Some c /\ cb_ok c /\ contents c = [] /\ cap c = len.
Proof.
  intros Hk -> Hb. unfold cbuf_initialize_etc. assert (0 < 2 ^ k <= 2 ^ 31) by (split; [apply Z.pow_pos_nonneg|apply Z.pow_le_mono_r]; lia).
  rewrite (wrap_small 32 (2 ^ k)) by lia. rewrite !dassert_true; [cbn|..].
  - rewrite log2_uint_log2, Z.log2_pow2 by lia. eexists. split; [done|]. split_and!; [|done|done].
    split; [|done]. constructor; cbn; unfold cap; cbn; lia.
  - done.
  - apply Z.ltb_lt. lia.
  - apply ispow2_correct; [lia|]. right. exists k. split; [lia|done].
Qed.


Module cbuf_demo.
Definition cfg : KConfig := {| LK_DEBUGLEVEL := 2 |}.
#[export] Existing Instance cfg.
Definition c0 : cbuf_t := Cbuf 0 0 2 [0; 0; 0; 0] false.
Definition c1 : cbuf_t := Cbuf 3 0 2 [5; 6; 7; 0] true.
Definition y1 : cb_sys := CbSys c1 [5; 6; 7] [] {[7 := (true, RWait true 2)]}.
End cbuf_demo.
Lemma cbuf_demo_reach : rtc (cb_step (H := cbuf_demo.cfg)) (cb_init cbuf_demo.c0) cbuf_demo.y1.
Proof.
  eapply rtc_l; [apply (cb_read _ _ _ _ 7 2 true); lia|]. apply rtc_once. apply (cb_write cbuf_demo.c0 [] [] _ [5; 6; 7] 3 cbuf_demo.c1); [done|]. by vm_compute.
Qed.

Section more.
Context `{KConfig}.
Implicit Types (c : cbuf_t).

(** The regions [cbuf_peek] fills out hold the contents, in order. *)
Definition region (r : option Z * Z) c : list Z := match r.1 with Some base => get_bytes base r.2 (cb_buf c) | None => [] end.
Lemma cbuf_peek_run c : cb_shape c -> exists r1 r2, cbuf_peek c = Some (used c, r1, r2) /\ contents c = region r1 c ++ region r2 c /\ r1.2 + r2.2 = used c.
Proof.
  intros Hs. pose proof (cap_range c Hs) as Hc. pose proof (used_range c Hs) as Hu. unfold cbuf_peek. rewrite space_used_spec by done.
  assert (cbuf_size c = cap c) as -> by (unfold cbuf_size; rewrite Z.shiftl_1_l; apply wrap_small; fold (cap c); lia).
  destruct Hs as [Hk Hb Hh Ht]. rewrite !dassert_true by (apply Z.ltb_lt || apply Z.leb_le; lia). cbn. rewrite (wrap_small 64 (used c + _)) by lia.
  unfold contents. destruct (Z.ltb_spec (cap c) (used c + cb_tail c)) as [Hlt|Hge].
  - eexists _, _. split; [done|]. cbn. rewrite (wrap_small 64 (cap c - _)), (wrap_small 64 (used c - _)) by lia. rewrite (proj2 (Z.eqb_neq (used c) 0)) by lia.
    cbn. unfold used in *. destruct (Z.leb_spec (cb_tail c) (cb_head c)); [lia|]. split; [|lia]. unfold region. cbn. f_equal. f_equal. lia.
  - eexists _, _. split; [done|]. cbn. split; [|lia]. unfold region, used in *. cbn. rewrite app_nil_r. destruct (Z.leb_spec (cb_tail c) (cb_head c)); cbn.
    + destruct (Z.eqb_spec (cb_head c - cb_tail c) 0) as [->|]; done.
    + rewrite (proj2 (Z.eqb_neq _ 0)) by lia. cbn. assert (cb_head c = 0) as -> by lia. rewrite app_nil_r. f_equal. lia.
Qed.

Lemma cbuf_reset_run c : cb_ok c -> exists c', cbuf_reset c = Some c' /\ cb_ok c' /\ contents c' = [].
Proof.
  intros Hok. pose proof (co_shape c Hok) as Hs. pose proof (cap_range c Hs) as Hc. pose proof (used_range c Hs) as Hu. unfold cbuf_reset.
  assert (cbuf_size c = cap c) as -> by (unfold cbuf_size; rewrite Z.shiftl_1_l; apply wrap_small; fold (cap c); lia).
  destruct (read_locked_run false (cap c) c Hok ltac:(lia)) as (c' & -> & Hok' & _ & Hc'). exists c'. split; [done|]. split; [done|].
  rewrite Hc'. apply drop_ge. pose proof (cbuf_contents_length c Hs). lia.
Qed.

(** A blocking read of no bytes goes back to waiting each time it has the lock. *)
Lemma cbuf_read_nothing buf c : cb_ok c -> exists c', read_step true (RReady buf 0) c = Some (Some (RWait buf 0, c')) /\ contents c' = contents c.
Proof.
  intros Hok. pose proof (used_range c (co_shape c Hok)). destruct (read_locked_run buf 0 c Hok ltac:(lia)) as (c' & E & _ & _ & Hc). exists c'.
  cbn [read_step]. rewrite E. cbn. rewrite Z.min_l in * by lia. cbn in *. done.
Qed.
End more.

(** ** Types *)
(** Indices within the buffer, 32-bit fields, and bytes in the buffer. *)
Definition bytes (l : list Z) : Prop := Forall (fun b => 0 <= b < 256) l.
Record cb_typed (c : cbuf_t) : Prop := { ct_ok : cb_ok c; ct_bytes : bytes (cb_buf c) }.

Lemma bytes_get off len l : bytes l -> bytes (get_bytes off len l).
Proof. intros Hb. unfold bytes, get_bytes. by apply Forall_take, Forall_drop. Qed.
Lemma bytes_put off d l : bytes d -> bytes l -> bytes (put_bytes off d l).
Proof. intros Hd Hl. unfold bytes, put_bytes. rewrite !Forall_app. split_and!; [by apply Forall_take|done|by apply Forall_drop]. Qed.
Lemma bytes_zeros n : bytes (replicate n 0).
Proof. apply Forall_replicate. lia. Qed.

Section typed.
Context `{KConfig}.
Implicit Types (c : cbuf_t).

Lemma cbuf_store_bytes off d c c' : cbuf_store off d c = Some c' -> bytes d -> bytes (cb_buf c) -> bytes (cb_buf c').
Proof. unfold cbuf_store, oguard. case_match; [|done]. cbn. intros [= <-] Hd Hc. cbn. by apply bytes_put. Qed.

Lemma write_loop_bytes data len : bytes (default [] data) -> forall fuel pos c n c',
  write_loop fuel data len pos c = Some (n, c') -> bytes (cb_buf c) -> bytes (cb_buf c').
Proof.
  intros Hd. induction fuel as [|fuel IH]; intros pos c n c'; cbn [write_loop]; case_match; try done; [by intros [= _ <-]| |by intros [= _ <-]].
  case_match; [by intros [= _ <-]|]. destruct (cbuf_store _ _ c) as [c1|] eqn:E; [|done]. cbn. intros Hw Hc. eapply IH; [done|]. cbn. eapply cbuf_store_bytes; [done| |done].
  destruct data; [by apply bytes_get|apply bytes_zeros].
Qed.

Lemma read_loop_buf buf buflen : forall fuel pos out c n out' c', read_loop fuel buf buflen pos out c = Some (n, out', c') -> cb_buf c' = cb_buf c.
Proof.
  induction fuel as [|fuel IH]; intros pos out c n out' c'; cbn [read_loop]; case_match; try done; [by intros [= _ _ <-]| |by intros [= _ _ <-]].
  destruct (if buf then _ else _); [|done]. cbn. intros E. by apply IH in E.
Qed.
Lemma read_locked_buf buf buflen c n out c' : read_locked buf buflen c = Some (n, out, c') -> cb_buf c' = cb_buf c.
Proof.
  unfold read_locked. case_match; [|by intros [= _ _ <-]]. destruct (read_loop _ _ _ _ _ _) as [[[pos o] c1]|] eqn:E; [|done]. cbn. apply read_loop_buf in E.
  case_match; [|by intros [= _ _ <-]]. destruct (dassert _); [|done]. cbn. by intros [= _ _ <-].
Qed.
Lemma contents_bytes c : bytes (cb_buf c) -> bytes (contents c).
Proof. intros Hb. unfold contents. case_match; [by apply bytes_get|]. apply Forall_app. split; by apply bytes_get. Qed.
End typed.


