(* ===== verification/Bcache.v ===== *)
(** * The block cache: the code of [lib/bcache/bcache.c]

    A fixed number of blocks of memory in front of a block device: those in use
    are on the lru list, most recently used last, the others on the free list.
    A caller holds a block between [bcache_get_block] and [bcache_put_block] and
    may change its bytes through the pointer.

    A block is named by its index.  The code is in the monad of the device layer:
    it returns, or [iofault]s at a failed assertion, a null pointer or a node that
    is linked into two lists. *)
From S2P Require Import Prelude Align KState Pmm Heap Bio.

Record bcache_block := BcacheBlock { bb_blocknum : Z; bb_ref_count : Z; bb_is_dirty : bool; bb_ptr : Z; bb_data : list Z }.
Record bcache_stats := BcacheStats { bs_hits : Z; bs_depth : Z; bs_misses : Z; bs_reads : Z; bs_writes : Z }.
Record bcache (D : Type) := Bcache {
  bc_dev : D; bc_block_size : Z; bc_count : Z; bc_stats : bcache_stats;
  bc_free_list : list nat; bc_lru_list : list nat; bc_blocks : list bcache_block;
}.
Arguments Bcache {_}. Arguments bc_dev {_}. Arguments bc_block_size {_}. Arguments bc_count {_}. Arguments bc_stats {_}.
Arguments bc_free_list {_}. Arguments bc_lru_list {_}. Arguments bc_blocks {_}.

Definition set_blocknum (v : Z) (b : bcache_block) : bcache_block := BcacheBlock v (bb_ref_count b) (bb_is_dirty b) (bb_ptr b) (bb_data b).
Definition set_ref_count (v : Z) (b : bcache_block) : bcache_block := BcacheBlock (bb_blocknum b) v (bb_is_dirty b) (bb_ptr b) (bb_data b).
Definition set_is_dirty (v : bool) (b : bcache_block) : bcache_block := BcacheBlock (bb_blocknum b) (bb_ref_count b) v (bb_ptr b) (bb_data b).
Definition set_data (v : list Z) (b : bcache_block) : bcache_block := BcacheBlock (bb_blocknum b) (bb_ref_count b) (bb_is_dirty b) (bb_ptr b) v.

Section bcache.
Context `{KConfig} {D : Type} `{!BlockBytes D}.
Implicit Types (c : bcache D).

(** ** Access *)
Definition bcm (f : bcache D -> bcache D) : io (bcache D) unit := fun c => Some (inr (), f c).
Definition set_bc_dev (v : D) c : bcache D := Bcache v (bc_block_size c) (bc_count c) (bc_stats c) (bc_free_list c) (bc_lru_list c) (bc_blocks c).
Definition set_bc_stats (f : bcache_stats -> bcache_stats) c : bcache D :=
  Bcache (bc_dev c) (bc_block_size c) (bc_count c) (f (bc_stats c)) (bc_free_list c) (bc_lru_list c) (bc_blocks c).
Definition set_bc_lists (free lru : list nat) c : bcache D := Bcache (bc_dev c) (bc_block_size c) (bc_count c) (bc_stats c) free lru (bc_blocks c).
Definition mod_block (i : nat) (f : bcache_block -> bcache_block) c : bcache D :=
  Bcache (bc_dev c) (bc_block_size c) (bc_count c) (bc_stats c) (bc_free_list c) (bc_lru_list c) (alter f i (bc_blocks c)).
Definition get_block (i : nat) : io (bcache D) bcache_block :=
  c ← ioget; match bc_blocks c !! i with Some b => mret b | None => iofault end.

(** A call of the device layer; its result or the error as a value. *)
Definition on_dev {A} (m : io D A) : io (bcache D) (Z + A) := fun c =>
  '(r, d) ← m (bc_dev c); Some (inr r, set_bc_dev d c).

Definition inc_hits (depth : Z) (s : bcache_stats) : bcache_stats := BcacheStats (u32 (bs_hits s + 1)) (u32 (bs_depth s + depth)) (bs_misses s) (bs_reads s) (bs_writes s).
Definition inc_misses (s : bcache_stats) : bcache_stats := BcacheStats (bs_hits s) (bs_depth s) (u32 (bs_misses s + 1)) (bs_reads s) (bs_writes s).
Definition inc_reads (s : bcache_stats) : bcache_stats := BcacheStats (bs_hits s) (bs_depth s) (bs_misses s) (u32 (bs_reads s + 1)) (bs_writes s).
Definition inc_writes (s : bcache_stats) : bcache_stats := BcacheStats (bs_hits s) (bs_depth s) (bs_misses s) (bs_reads s) (u32 (bs_writes s + 1)).

(** [list_delete] and [list_add_tail] of a block on the lru list *)
Definition to_lru_tail (i : nat) : io (bcache D) unit :=
  bcm (fun c => set_bc_lists (bc_free_list c) (filter (fun j => j <> i) (bc_lru_list c) ++ [i]) c).

(** ** Set up: [blocks], what the memory of the blocks holds *)
Definition bcache_create (dev : D) (block_size : Z) (blocks : list (Z * Z * list Z)) : bcache D :=
  Bcache dev block_size (Z.of_nat (length blocks)) (BcacheStats 0 0 0 0 0) (reverse (seq 0 (length blocks))) []
    ((fun '(blocknum, ptr, data) => BcacheBlock blocknum 0 false ptr data) <$> blocks).

(** ** Blocks *)
Definition flush_block (i : nat) : io (bcache D) Z :=
  c ← ioget;
  block ← get_block i;
  r ← on_dev (bio_write (bb_ptr block) (bb_data block) (to_signed 64 (bb_blocknum block * bc_block_size c)) (bc_block_size c));
  match r with
  | inl rc => mret (s32 rc)
  | inr rc =>
      if s32 rc <? 0 then mret (s32 rc)
      else
        bcm (mod_block i (set_is_dirty false));;
        bcm (set_bc_stats inc_writes);;
        mret 0
  end.

Fixpoint find_walk (l : list nat) (blocknum depth : Z) : io (bcache D) (option (nat * Z)) :=
  match l with
  | [] => mret None
  | i :: l =>
      block ← get_block i;
      let depth := u32 (depth + 1) in
      if bb_blocknum block =? blocknum then mret (Some (i, depth)) else find_walk l blocknum depth
  end.
Definition find_block (blocknum : Z) : io (bcache D) (option nat) :=
  c ← ioget;
  r ← find_walk (bc_lru_list c) blocknum 0;
  match r with
  | Some (i, depth) =>
      to_lru_tail i;;
      bcm (set_bc_stats (inc_hits depth));;
      mret (Some i)
  | None => bcm (set_bc_stats inc_misses);; mret None
  end.

Fixpoint alloc_walk (l : list nat) : io (bcache D) (option nat) :=
  match l with
  | [] => mret None
  | i :: l =>
      block ← get_block i;
      if bb_ref_count block =? 0 then
        err ← (if bb_is_dirty block then flush_block i else mret 0);
        if negb (err =? 0) then mret None
        else
          (* add it to the tail of the lru *)
          to_lru_tail i;;
          mret (Some i)
      else alloc_walk l
  end.
Definition alloc_block : io (bcache D) (option nat) :=
  c ← ioget;
  (* pop one off the free list if it's present *)
  match bc_free_list c with
  | i :: free =>
      bcm (set_bc_lists free (bc_lru_list c));;
      bcm (mod_block i (set_ref_count 0));;
      bcm (fun c => set_bc_lists (bc_free_list c) (bc_lru_list c ++ [i]) c);;
      mret (Some i)
  | [] => alloc_walk (bc_lru_list c)
  end.

(** The bytes [bio_read] returns replace the start of the block's memory. *)
Definition fill (data : list Z) (b : bcache_block) : bcache_block := set_data (put_bytes 0 data (bb_data b)) b.

Definition fill_new_block (blocknum : Z) : io (bcache D) (option nat) :=
  block ← alloc_block;
  ioassert (bool_decide (is_Some block));;
  match block with
  | None => iofault
  | Some i =>
      bcm (mod_block i (set_blocknum blocknum));;
      c ← ioget;
      b ← get_block i;
      r ← on_dev (bio_read (bb_ptr b) (to_signed 64 (blocknum * bc_block_size c)) (bc_block_size c));
      match r with
      | inl _ =>
          (* the block goes to the free list, and is on the lru list *)
          iofault
      | inr (err, data) =>
          if s32 err <? 0 then iofault
          else
            bcm (mod_block i (fill data));;
            bcm (set_bc_stats inc_reads);;
            mret (Some i)
      end
  end.

Definition find_or_fill_block (blocknum : Z) : io (bcache D) (option nat) :=
  found ← find_block blocknum;
  i ← (match found with Some i => mret (Some i) | None => fill_new_block blocknum end);
  match i with
  | None => mret None
  | Some i =>
      b ← get_block i;
      ioassert (bb_blocknum b =? blocknum);;
      mret (Some i)
  end.

(** ** The interface *)
Definition bcache_read_block (blocknum : Z) : io (bcache D) (Z * list Z) :=
  block ← find_or_fill_block blocknum;
  match block with
  | None => mret (-1, [])
  | Some i => c ← ioget; b ← get_block i; mret (0, get_bytes 0 (bc_block_size c) (bb_data b))
  end.

Definition bcache_get_block (blocknum : Z) : io (bcache D) (Z * option nat) :=
  block ← find_or_fill_block blocknum;
  match block with
  | None => mret (-1, None)
  | Some i => bcm (mod_block i (fun b => set_ref_count (s32 (bb_ref_count b + 1)) b));; mret (0, Some i)
  end.

Definition bcache_put_block (blocknum : Z) : io (bcache D) Z :=
  block ← find_block blocknum;
  ioassert (bool_decide (is_Some block));;
  match block with
  | None => iofault
  | Some i =>
      b ← get_block i;
      ioassert (0 <? bb_ref_count b);;
      bcm (mod_block i (fun b => set_ref_count (s32 (bb_ref_count b - 1)) b));;
      mret 0
  end.

Definition bcache_mark_block_dirty (blocknum : Z) : io (bcache D) Z :=
  block ← find_block blocknum;
  match block with
  | None => mret (-1)
  | Some i => bcm (mod_block i (set_is_dirty true));; mret 0
  end.

Definition zero_fill (size : Z) (b : bcache_block) : bcache_block := set_data (put_bytes 0 (replicate (Z.to_nat size) 0) (bb_data b)) b.
Definition bcache_zero_block (blocknum : Z) : io (bcache D) Z :=
  found ← find_block blocknum;
  block ← (match found with
           | Some i => mret (Some i)
           | None =>
               block ← alloc_block;
               match block with
               | None => mret None
               | Some i => bcm (mod_block i (set_blocknum blocknum));; mret (Some i)
               end
           end);
  match block with
  | None => mret (-1)
  | Some i =>
      bcm (fun c => mod_block i (zero_fill (bc_block_size c)) c);;
      bcm (mod_block i (set_is_dirty true));;
      mret 0
  end.

Fixpoint flush_walk (l : list nat) : io (bcache D) Z :=
  match l with
  | [] => mret 0
  | i :: l =>
      block ← get_block i;
      if bb_is_dirty block then
        err ← flush_block i;
        if negb (err =? 0) then mret err else flush_walk l
      else flush_walk l
  end.
Definition bcache_flush : io (bcache D) Z := c ← ioget; flush_walk (bc_lru_list c).

(** The pointers that are freed. *)
Definition bcache_destroy (c : bcache D) : option (list Z) :=
  foldr (fun b r => dassert (bb_ref_count b =? 0);; l ← r; Some (bb_ptr b :: l)) (Some []) (bc_blocks c).

(** The holder of a block writes through the pointer. *)
Definition poke (i : nat) (offset : Z) (data : list Z) : io (bcache D) unit :=
  b ← get_block i;
  if (0 <=? offset) && (offset + Z.of_nat (length data) <=? Z.of_nat (length (bb_data b)))
  then bcm (mod_block i (set_data (put_bytes offset data (bb_data b)))) else iofault.
End bcache.
