(* ===== verification/BcacheOps.v ===== *)
(** * The block cache shows the device

    What a cache stands for: the bytes of every block of the device as its
    callers see them, whether the block is in the cache or not, and how often each
    is held.  The invariant, and what the internal operations of the cache do to
    this view. *)
From S2P Require Import Prelude Align KState Pmm Heap HeapInv Bio BioOps BioDev Bcache.

(** ** Devices that do not fail *)
Class ReliableDevice (D : Type) `{!BlockBytes D} `{!BlockBytesLaws D} := {
  rel_read (d : D) buf offset len :
    bl_ok d -> 0 < buf -> 0 <= offset -> 0 < len -> offset + len <= Z.of_nat (length (bl_content d)) -> offset + len <= bl_limit d ->
    exists a d', dev_read buf offset len d = Some (inr a, d');
  rel_write (d : D) buf data offset :
    bl_ok d -> 0 < buf -> 0 <= offset -> 0 < Z.of_nat (length data) -> offset + Z.of_nat (length data) <= Z.of_nat (length (bl_content d)) ->
    offset + Z.of_nat (length data) <= bl_limit d ->
    exists n d', dev_write buf data offset (Z.of_nat (length data)) d = Some (inr n, d');
}.

#[export] Instance mem_reliable : ReliableDevice mem.mem_bdev.
Proof.
  split.
  - intros m buf offset len Hok Hb Ho Hl Hr _. cbn in *. unfold mem.mem_bdev_read, mem.memcpy_from. rewrite mem_content_length in Hr by done.
    destruct Hok as [_ _ Hp _]. rewrite (proj2 (Z.leb_le 0 offset)), (proj2 (Z.leb_le (offset + len) _)) by lia. eauto.
  - intros m buf data offset Hok Hb Ho Hl Hr _. cbn in *. unfold mem.mem_bdev_write, mem.memcpy_to. rewrite mem_content_length in Hr by done.
    destruct Hok as [_ _ Hp _]. rewrite (proj2 (Z.leb_le 0 offset)), (proj2 (Z.leb_le (offset + _) _)) by lia. eauto.
Qed.

Section reliable.
Context `{KConfig} {D : Type} `{!BlockBytes D} `{!BlockBytesLaws D} `{!ReliableDevice D}.

Lemma in_range_trim (d : D) offset len : bl_ok d -> 0 <= offset -> 0 < len -> offset + len <= Z.of_nat (length (bl_content d)) ->
  offset + len < 2 ^ 63 /\ bio_trim_range (dev_info d) offset len = len.
Proof.
  intros Hok Ho Hl Hr. pose proof (bl_info d Hok) as Hi. assert (Z.of_nat (length (bl_content d)) < 2 ^ 63) as Hw.
  { pose proof (info_size_pos _ _ Hi). destruct Hi as [_ Hsh Hs Hc Ht ->]. rewrite Ht. assert (bd_block_size (dev_info d) <= 2 ^ 31) by (rewrite Hs; apply Z.pow_le_mono_r; lia). nia. }
  split; [lia|]. rewrite (bio_trim_range_spec _ _ _ _ Hi) by lia. unfold trimmed. case_decide; lia.
Qed.

Lemma reliable_read (d : D) buf offset len :
  bl_ok d -> 0 < buf -> 0 <= offset -> 0 < len -> offset + len <= Z.of_nat (length (bl_content d)) -> offset + len <= bl_limit d ->
  exists d', bio_read buf offset len d = Some (inr (len, get_bytes offset len (bl_content d)), d') /\ bl_same d d'.
Proof using All.
  intros Hok Hb Ho Hl Hr Hlim. destruct (in_range_trim d offset len Hok Ho Hl Hr) as [Hw Ht].
  assert (bio_read buf offset len d = dev_read buf offset len d) as ->.
  { pose proof (bl_info d Hok) as Hi. unfold bio_read, mbind, io_mbind, io_bind, ioget, ioassert. rewrite (proj2 (Z.ltb_lt 0 _)), dassert_true by (done || apply Hi).
    cbn. rewrite dassert_true by (by destruct buf). cbn. rewrite Ht. by rewrite (proj2 (Z.eqb_neq len 0)) by lia. }
  destruct (rel_read d buf offset len Hok Hb Ho Hl Hr Hlim) as (a & d' & E). destruct (bl_read d buf offset len Hok Hb Ho Hl Hr Hlim) as (r & d2 & E2 & Hres).
  rewrite E in E2. simplify_eq. destruct a as [n data], Hres as (-> & ? & ->). by exists d2.
Qed.

Lemma reliable_write (d : D) buf data offset len :
  bl_ok d -> 0 < buf -> 0 <= offset -> 0 < len -> len = Z.of_nat (length data) -> offset + len <= Z.of_nat (length (bl_content d)) ->
  offset + len <= bl_limit d ->
  exists d', bio_write buf data offset len d = Some (inr len, d') /\ bl_kept d d' /\ bl_content d' = put_bytes offset data (bl_content d).
Proof using All.
  intros Hok Hb Ho Hl -> Hr Hlim. destruct (in_range_trim d offset _ Hok Ho Hl Hr) as [Hw Ht].
  assert (bio_write buf data offset (Z.of_nat (length data)) d = dev_write buf data offset (Z.of_nat (length data)) d) as ->.
  { pose proof (bl_info d Hok) as Hi. unfold bio_write, mbind, io_mbind, io_bind, ioget, ioassert. rewrite (proj2 (Z.ltb_lt 0 _)), dassert_true by (done || apply Hi).
    cbn. rewrite dassert_true by (by destruct buf). cbn. rewrite Ht. rewrite (proj2 (Z.eqb_neq _ 0)) by lia. by rewrite take_ge by lia. }
  destruct (rel_write d buf data offset Hok Hb Ho Hl Hr Hlim) as (n & d' & E). destruct (bl_write d buf data offset Hok Hb Ho Hl Hr Hlim) as (r & d2 & E2 & Hres).
  rewrite E in E2. simplify_eq. destruct Hres as (-> & ? & ?). by exists d2.
Qed.
End reliable.

(** ** The view *)
Section view.
Context {D : Type} `{!BlockBytes D} `{!BlockBytesLaws D}.
Implicit Types (c : bcache D).

(** Block [n] of the device. *)
Definition disk c (n : Z) : list Z := get_bytes (n * bc_block_size c) (bc_block_size c) (bl_content (bc_dev c)).
Definition on_disk c (n : Z) : Prop :=
  0 <= n < 2 ^ 32 /\ (n + 1) * bc_block_size c <= Z.of_nat (length (bl_content (bc_dev c))) /\ (n + 1) * bc_block_size c <= bl_limit (bc_dev c).

(** The index of the cached block [n]. *)
Definition numbered c (n : Z) (i : nat) : Prop := bb_blocknum <$> bc_blocks c !! i = Some n.
#[global] Instance numbered_dec c n i : Decision (numbered c n i).
Proof. unfold numbered. apply _. Defined.
Definition idx c (n : Z) : option nat := head (filter (numbered c n) (bc_lru_list c)).
Definition blk c (n : Z) : option bcache_block := i ← idx c n; bc_blocks c !! i.

Definition bview c (n : Z) : list Z := match blk c n with Some b => bb_data b | None => disk c n end.
Definition brefs c (n : Z) : Z := match blk c n with Some b => bb_ref_count b | None => 0 end.

(** A block of the device is cached once. *)
Definition uniq c : Prop := forall i j n, i ∈ bc_lru_list c -> j ∈ bc_lru_list c -> numbered c n i -> numbered c n j -> i = j.

Record block_ok c (b : bcache_block) : Prop := {
  bo_ptr : 0 < bb_ptr b;
  bo_data : Z.of_nat (length (bb_data b)) = bc_block_size c;
}.

(** [M]: the held blocks that were changed and not marked dirty yet. *)
Record bc_inv c (M : gset Z) : Prop := {
  bi_dev : bl_ok (bc_dev c);
  bi_size : 0 < bc_block_size c < 2 ^ 31;
  bi_nodup : NoDup (bc_free_list c ++ bc_lru_list c);
  bi_index i : i ∈ bc_free_list c ++ bc_lru_list c -> is_Some (bc_blocks c !! i);
  bi_block i b : bc_blocks c !! i = Some b -> block_ok c b;
  bi_free i b : i ∈ bc_free_list c -> bc_blocks c !! i = Some b -> bb_is_dirty b = false;
  bi_lru i b : i ∈ bc_lru_list c -> bc_blocks c !! i = Some b -> on_disk c (bb_blocknum b) /\ 0 <= bb_ref_count b < 2 ^ 31;
  bi_unique : uniq c;
  bi_clean i b : i ∈ bc_lru_list c -> bc_blocks c !! i = Some b -> bb_is_dirty b = false -> bb_blocknum b ∉ M -> bb_data b = disk c (bb_blocknum b);
  bi_held n : n ∈ M -> 0 < brefs c n;
}.

Lemma idx_Some c n i : uniq c -> idx c n = Some i <-> i ∈ bc_lru_list c /\ numbered c n i.
Proof.
  intros Hi. unfold idx. split.
  - intros E. assert (i ∈ filter (numbered c n) (bc_lru_list c)) as Hin by (destruct (filter _ _); [done|]; cbn in E; simplify_eq; left).
    by apply list_elem_of_filter in Hin as [? ?].
  - intros [Hin Hn]. assert (i ∈ filter (numbered c n) (bc_lru_list c)) as Hf by (by apply list_elem_of_filter).
    destruct (filter (numbered c n) (bc_lru_list c)) as [|j l] eqn:E; [by apply elem_of_nil in Hf|]. cbn. f_equal.
    assert (j ∈ filter (numbered c n) (bc_lru_list c)) as [Hj ?]%list_elem_of_filter by (rewrite E; left). by apply (Hi j i n).
Qed.

Lemma idx_None c n : idx c n = None <-> forall i, i ∈ bc_lru_list c -> ~ numbered c n i.
Proof.
  unfold idx. destruct (filter (numbered c n) (bc_lru_list c)) as [|j l] eqn:E; cbn.
  - split; [|done]. intros _ i Hi Hn. assert (i ∈ filter (numbered c n) (bc_lru_list c)) as Hf by (by apply list_elem_of_filter). rewrite E in Hf. by apply elem_of_nil in Hf.
  - split; [done|]. intros Hno. assert (j ∈ filter (numbered c n) (bc_lru_list c)) as [Hj ?]%list_elem_of_filter by (rewrite E; left). by destruct (Hno j).
Qed.

Lemma blk_Some c n b : uniq c -> blk c n = Some b <-> exists i, i ∈ bc_lru_list c /\ bc_blocks c !! i = Some b /\ bb_blocknum b = n.
Proof.
  intros Hi. unfold blk. split.
  - destruct (idx c n) as [i|] eqn:E; [|done]. cbn. intros Eb. apply (idx_Some c n i Hi) in E as [Hin Hn]. exists i. split_and!; try done.
    unfold numbered in Hn. rewrite Eb in Hn. by injection Hn.
  - intros (i & Hin & Eb & En). assert (idx c n = Some i) as -> by (apply (idx_Some c n i Hi); split; [done|]; unfold numbered; rewrite Eb; cbn; congruence). done.
Qed.

(** The same cache to its callers. *)
Record bc_same c c' : Prop := {
  bs_view n : on_disk c n -> bview c' n = bview c n;
  bs_refs n : brefs c' n = brefs c n;
  bs_idx n : 0 < brefs c n -> idx c' n = idx c n;
  bs_size : bc_block_size c' = bc_block_size c;
  bs_disk n : on_disk c' n <-> on_disk c n;
}.
#[export] Instance bc_same_preorder : PreOrder bc_same.
Proof.
  split; [done|]. intros c1 c2 c3 [] []. constructor; try congruence.
  - intros n Hn. rewrite bs_view1 by (by apply bs_disk0). by apply bs_view0.
  - intros n Hr. rewrite bs_idx1 by (by rewrite bs_refs0). by apply bs_idx0.
  - intros n. by rewrite bs_disk1.
Qed.
End view.

(** * What the operations of the block cache do *)

Lemma io_bind_run {S A B} (m : io S A) (f : A -> io S B) c a c' : m c = Some (inr a, c') -> (m ≫= f) c = f a c'.
Proof. intros E. unfold mbind, io_mbind, io_bind. by rewrite E. Qed.

Section ops.
Context `{KConfig} {D : Type} `{!BlockBytes D} `{!BlockBytesLaws D}.
Implicit Types (c : bcache D) (M : gset Z).

(** ** States that differ in one respect *)
(** The lists in another order, and the statistics. *)
Record reorder c c' : Prop := {
  ro_dev : bc_dev c' = bc_dev c;
  ro_size : bc_block_size c' = bc_block_size c;
  ro_blocks : bc_blocks c' = bc_blocks c;
  ro_free : bc_free_list c' = bc_free_list c;
  ro_lru : bc_lru_list c' ≡ₚ bc_lru_list c;
}.

Lemma reorder_uniq c c' : uniq c -> reorder c c' -> uniq c'.
Proof. intros Hu [_ _ Hb _ Hl] i j n. unfold numbered. rewrite Hb, Hl. apply Hu. Qed.

Lemma reorder_idx c c' n : uniq c -> reorder c c' -> idx c' n = idx c n.
Proof.
  intros Hu Hr. pose proof (reorder_uniq _ _ Hu Hr) as Hu'. destruct Hr as [_ _ Hb _ Hl]. destruct (idx c n) as [i|] eqn:E.
  - apply (idx_Some c n i Hu) in E as [Hin Hn]. apply (idx_Some c' n i Hu'). unfold numbered. by rewrite Hl, Hb.
  - apply idx_None. intros i. rewrite Hl. unfold numbered. rewrite Hb. by apply (idx_None c n).
Qed.

Lemma reorder_inv c c' M : bc_inv c M -> reorder c c' -> bc_inv c' M /\ bc_same c c' /\ (forall n, idx c' n = idx c n).
Proof.
  intros Hi Hr. assert (forall n, idx c' n = idx c n) as Hidx by (intros; eapply reorder_idx; [apply Hi|done]). pose proof (reorder_uniq _ _ (bi_unique _ _ Hi) Hr) as Hu.
  destruct Hr as [Hd Hs Hb Hf Hl].
  assert (forall n, blk c' n = blk c n) as Hblk by (intros; unfold blk; by rewrite Hidx, Hb).
  assert (forall n, disk c' n = disk c n) as Hdisk by (intros; unfold disk; by rewrite Hd, Hs).
  assert (forall n, on_disk c' n <-> on_disk c n) as Hon by (intros; unfold on_disk; by rewrite Hd, Hs).
  assert (forall n, brefs c' n = brefs c n) as Hrefs by (intros; unfold brefs; by rewrite Hblk).
  split_and!; [|split; try done; intros; unfold bview; by rewrite Hblk, Hdisk|done]. destruct Hi as [I1 I2 I3 I4 I5 I6 I7 I8 I9 I10].
  constructor; try done; rewrite ?Hd, ?Hs, ?Hb, ?Hf; try done.
  - by rewrite Hl.
  - intros i. rewrite Hl. apply I4.
  - intros i b E. destruct (I5 i b E). constructor; [done|by rewrite Hs].
  - intros i b. rewrite Hl, Hon. apply I7.
  - intros i b. rewrite Hl, Hdisk. apply I9.
  - intros n. rewrite Hrefs. apply I10.
Qed.

(** The device after a call that wrote nothing. *)
Lemma redev_inv c M d' : bc_inv c M -> bl_same (bc_dev c) d' -> bc_inv (set_bc_dev d' c) M /\ bc_same c (set_bc_dev d' c).
Proof.
  intros Hi Hs. pose proof (bl_limit_kept _ _ (bl_same_kept _ _ Hs)) as Hlim. destruct Hs as (Hok & _ & Hc & _).
  assert (forall n, disk (set_bc_dev d' c) n = disk c n) as Hdisk by (intros; unfold disk; cbn; by rewrite Hc).
  assert (forall n, on_disk (set_bc_dev d' c) n <-> on_disk c n) as Hon by (intros; unfold on_disk; cbn; by rewrite Hc, Hlim).
  split; [|split; try done; intros n _; unfold bview; by rewrite Hdisk]. destruct Hi as [I1 I2 I3 I4 I5 I6 I7 I8 I9 I10]. constructor; try done.
  - intros i b E. by destruct (I5 i b E).
  - intros i b. rewrite Hon. apply I7.
  - intros i b. rewrite Hdisk. apply I9.
Qed.

(** One cached block is changed, and with it perhaps the device. *)
Record changed c c' (n : Z) (i : nat) (b b' : bcache_block) : Prop := {
  ch_idx : idx c n = Some i;
  ch_block : bc_blocks c !! i = Some b;
  ch_block' : bc_blocks c' !! i = Some b';
  ch_num : bb_blocknum b' = bb_blocknum b;
  ch_others j : j <> i -> bc_blocks c' !! j = bc_blocks c !! j;
  ch_size : bc_block_size c' = bc_block_size c;
  ch_free : bc_free_list c' = bc_free_list c;
  ch_lru : bc_lru_list c' = bc_lru_list c;
  ch_dev : bl_kept (bc_dev c) (bc_dev c');
  ch_disk m : m <> n -> on_disk c m -> disk c' m = disk c m;
}.

Lemma changed_numbered c c' n i b b' m j : changed c c' n i b b' -> numbered c' m j <-> numbered c m j.
Proof.
  intros [_ Hb Hb' Hn Ho _ _ _ _ _]. unfold numbered. destruct (decide (j = i)) as [->|]; [|by rewrite Ho]. rewrite Hb, Hb'. cbn. by rewrite Hn.
Qed.
Lemma changed_idx c c' n i b b' m : changed c c' n i b b' -> idx c' m = idx c m.
Proof.
  intros Hc. unfold idx. rewrite (ch_lru _ _ _ _ _ _ Hc). f_equal. apply list_filter_iff. intros j. by eapply changed_numbered.
Qed.
Lemma changed_on_disk c c' n i b b' m : changed c c' n i b b' -> on_disk c' m <-> on_disk c m.
Proof.
  intros Hc. pose proof (ch_dev _ _ _ _ _ _ Hc) as Hk. pose proof (bl_limit_kept _ _ Hk) as Hlim. destruct Hk as (_ & _ & Hl & _).
  unfold on_disk. by rewrite Hl, Hlim, (ch_size _ _ _ _ _ _ Hc).
Qed.
Lemma changed_blk c c' n i b b' m : uniq c -> changed c c' n i b b' -> blk c' m = if decide (m = n) then Some b' else blk c m.
Proof.
  intros Hu Hc. unfold blk. rewrite (changed_idx _ _ _ _ _ _ m Hc). destruct Hc as [Hi Hb Hb' _ Ho _ _ _ _ _]. case_decide as E.
  - subst m. by rewrite Hi.
  - destruct (idx c m) as [j|] eqn:Ej; [|done]. cbn. apply Ho. intros ->. apply (idx_Some c m i Hu) in Ej as [_ E1]. apply (idx_Some c n i Hu) in Hi as [_ E2].
    unfold numbered in *. congruence.
Qed.

Lemma changed_inv c c' n i b b' M M' :
  bc_inv c M -> changed c c' n i b b' -> block_ok c b' -> 0 <= bb_ref_count b' < 2 ^ 31 ->
  (bb_is_dirty b' = false -> n ∉ M' -> bb_data b' = disk c' n) -> (forall m, m <> n -> m ∈ M' <-> m ∈ M) -> (n ∈ M' -> 0 < bb_ref_count b') ->
  bc_inv c' M'.
Proof.
  intros Hi Hc Hok Href Hclean HM Hheld. pose proof Hi as [I1 I2 I3 I4 I5 I6 I7 I8 I9 I10]. pose proof Hc as [Ei Eb Eb' Enum Ho Es Ef El Hdev Hdisk].
  pose proof (idx_Some c n i I8) as [Hin _]. destruct (Hin Ei) as [Hlru Hnum]. assert (bb_blocknum b = n) as Hn by (unfold numbered in Hnum; rewrite Eb in Hnum; by injection Hnum).
  constructor; rewrite ?Es, ?Ef, ?El; try done.
  - by destruct Hdev.
  - intros j Hj. destruct (decide (j = i)) as [->|]; [eauto|]. rewrite Ho by done. by apply I4.
  - intros j bj Ej. destruct (decide (j = i)) as [->|Hne]; [rewrite Eb' in Ej; simplify_eq; destruct Hok; by constructor; rewrite ?Es|].
    rewrite Ho in Ej by done. destruct (I5 j bj Ej). constructor; [done|by rewrite Es].
  - intros j bj Hj Ej. destruct (decide (j = i)) as [->|]; [|rewrite Ho in Ej by done; by apply (I6 j)].
    apply NoDup_app in I3 as (_ & Hdisj & _). by destruct (Hdisj i Hj).
  - intros j bj Hj Ej. destruct (decide (j = i)) as [->|]; [|rewrite Ho in Ej by done; rewrite (changed_on_disk _ _ _ _ _ _ _ Hc); by apply (I7 j)].
    rewrite Eb' in Ej. simplify_eq. rewrite (changed_on_disk _ _ _ _ _ _ _ Hc), Enum. split; [|done]. by apply (I7 i b).
  - intros j k m. rewrite El, !(changed_numbered _ _ _ _ _ _ _ _ Hc). apply I8.
  - intros j bj Hj Ej Hd HnM. destruct (decide (j = i)) as [->|Hne]; [rewrite Eb' in Ej; simplify_eq; rewrite Enum in *; auto|].
    rewrite Ho in Ej by done. assert (bb_blocknum bj <> n) as Hbn.
    { intros E. apply Hne. apply (I8 j i n); try done. unfold numbered. rewrite Ej. cbn. by rewrite E. }
    rewrite Hdisk; [|done|by apply (I7 j bj)]. apply (I9 j); try done. by rewrite <- HM.
  - intros m Hm. unfold brefs. rewrite (changed_blk _ _ _ _ _ _ m I8 Hc). case_decide as E; [subst m; auto|]. apply I10. by apply HM.
Qed.

(** What the callers see of a change. *)
Lemma changed_view c c' n i b b' M m : bc_inv c M -> changed c c' n i b b' -> on_disk c m ->
  bview c' m = if decide (m = n) then bb_data b' else bview c m.
Proof.
  intros Hi Hc Hm. unfold bview. rewrite (changed_blk _ _ _ _ _ _ m (bi_unique _ _ Hi) Hc). case_decide as E; [done|]. destruct (blk c m); [done|]. by apply Hc.
Qed.
Lemma changed_refs c c' n i b b' M m : bc_inv c M -> changed c c' n i b b' -> brefs c' m = if decide (m = n) then bb_ref_count b' else brefs c m.
Proof. intros Hi Hc. unfold brefs. rewrite (changed_blk _ _ _ _ _ _ m (bi_unique _ _ Hi) Hc). by case_decide. Qed.

(** A clean block that nobody holds leaves the cache. *)
Definition hide (i : nat) c : bcache D := set_bc_lists (bc_free_list c) (filter (fun j => j <> i) (bc_lru_list c)) c.

Lemma elem_of_hide i c j : j ∈ bc_lru_list (hide i c) <-> j <> i /\ j ∈ bc_lru_list c.
Proof. cbn. apply (list_elem_of_filter (fun j => j <> i)). Qed.
Lemma hide_uniq i c : uniq c -> uniq (hide i c).
Proof. intros Hu j k n [_ Hj]%elem_of_hide [_ Hk]%elem_of_hide. by apply Hu. Qed.
Lemma hide_blk i c n : uniq c -> ~ numbered c n i -> blk (hide i c) n = blk c n.
Proof.
  intros Hu Hn. unfold blk. assert (idx (hide i c) n = idx c n) as ->; [|done]. destruct (idx c n) as [j|] eqn:E.
  - apply (idx_Some c n j Hu) in E as [Hj Hjn]. apply (idx_Some _ n j (hide_uniq i c Hu)). rewrite elem_of_hide. split; [split; [|done]; by intros ->|done].
  - apply idx_None. intros j [_ Hj]%elem_of_hide. by apply (idx_None c n).
Qed.

Lemma hide_inv c M i b : bc_inv c M -> i ∈ bc_lru_list c -> bc_blocks c !! i = Some b -> bb_ref_count b = 0 -> bb_is_dirty b = false ->
  bc_inv (hide i c) M /\ bc_same c (hide i c).
Proof.
  intros Hi Hin Eb Hr Hd. pose proof Hi as [I1 I2 I3 I4 I5 I6 I7 I8 I9 I10]. set (n := bb_blocknum b).
  assert (numbered c n i) as Hn by (unfold numbered; by rewrite Eb). assert (blk c n = Some b) as Hbn by (apply (blk_Some c n b I8); eauto).
  assert (n ∉ M) as HnM by (intros HM%I10; unfold brefs in HM; rewrite Hbn in HM; lia).
  assert (blk (hide i c) n = None) as Hno.
  { unfold blk. assert (idx (hide i c) n = None) as ->; [|done]. apply idx_None. intros j [Hne Hj]%elem_of_hide Hjn. by apply Hne, (I8 j i n). }
  assert (forall m, m <> n -> blk (hide i c) m = blk c m) as Hot.
  { intros m Hm. apply hide_blk; [done|]. unfold numbered in *. rewrite Eb. cbn. intros [= ?]. done. }
  assert (forall m, brefs (hide i c) m = brefs c m) as Hrefs.
  { intros m. unfold brefs. destruct (decide (m = n)) as [->|]; [by rewrite Hno, Hbn|by rewrite Hot]. }
  split; [constructor; try done|constructor; try done].
  - cbn. apply NoDup_app in I3 as (? & Hdisj & ?). apply NoDup_app. split_and!; [done| |by apply NoDup_filter]. intros j Hj [_ Hl]%list_elem_of_filter. by apply (Hdisj j).
  - intros j [Hj|[_ Hj]%elem_of_hide]%elem_of_app; apply I4; set_solver.
  - intros j bj E. by destruct (I5 j bj E); constructor.
  - intros j bj [_ Hj]%elem_of_hide. by apply I7.
  - by apply hide_uniq.
  - intros j bj [_ Hj]%elem_of_hide. by apply I9.
  - intros m Hm. rewrite Hrefs. by apply I10.
  - intros m _. unfold bview. destruct (decide (m = n)) as [->|]; [|by rewrite Hot]. rewrite Hno, Hbn. symmetry. by apply (I9 i b).
  - intros m Hm. destruct (idx c m) as [j|] eqn:E; [|unfold brefs, blk in Hm; rewrite E in Hm; cbn in Hm; lia].
    apply (idx_Some c m j I8) in E as [Hj Hjn]. apply (idx_Some _ m j (hide_uniq i c I8)). rewrite elem_of_hide. split; [split; [|done]|done].
    intros ->. assert (m = n) as -> by (unfold numbered in *; congruence). unfold brefs in Hm. rewrite Hbn in Hm. lia.
Qed.

(** The same cache, with changes to a block that is not in it. *)
Lemma spare_inv c c' M i :
  bc_inv c M -> bc_dev c' = bc_dev c -> bc_block_size c' = bc_block_size c -> bc_lru_list c' = bc_lru_list c ->
  i ∉ bc_lru_list c -> (forall j, j <> i -> bc_blocks c' !! j = bc_blocks c !! j) -> (forall b, bc_blocks c' !! i = Some b -> block_ok c b) ->
  bc_free_list c = bc_free_list c' \/ bc_free_list c = i :: bc_free_list c' -> i ∉ bc_free_list c' ->
  bc_inv c' M /\ bc_same c c' /\ (forall n, idx c' n = idx c n).
Proof.
  intros Hi Hd Hs Hl Hni Ho Hbi Hf Hnf. pose proof Hi as [I1 I2 I3 I4 I5 I6 I7 I8 I9 I10].
  assert (forall j, j ∈ bc_lru_list c -> bc_blocks c' !! j = bc_blocks c !! j) as Hlb by (intros j Hj; apply Ho; by intros ->).
  assert (forall n j, j ∈ bc_lru_list c -> numbered c' n j <-> numbered c n j) as Hn by (intros; unfold numbered; by rewrite Hlb).
  assert (uniq c') as Hu by (intros j k n; rewrite Hl; intros Hj Hk; rewrite !Hn by done; by apply I8).
  assert (forall n, idx c' n = idx c n) as Hidx.
  { intros n. destruct (idx c n) as [j|] eqn:E; [apply (idx_Some c n j I8) in E as [Hj ?]; apply (idx_Some c' n j Hu); by rewrite Hl, Hn|].
    apply idx_None. intros j. rewrite Hl. intros Hj. rewrite Hn by done. by apply (idx_None c n). }
  assert (forall n, blk c' n = blk c n) as Hblk.
  { intros n. unfold blk. rewrite Hidx. destruct (idx c n) as [j|] eqn:E; [|done]. cbn. apply Hlb. by apply (idx_Some c n j I8) in E as [? _]. }
  assert (forall n, disk c' n = disk c n) as Hdisk by (intros; unfold disk; by rewrite Hd, Hs).
  assert (forall n, on_disk c' n <-> on_disk c n) as Hon by (intros; unfold on_disk; by rewrite Hd, Hs).
  assert (forall j, j ∈ bc_free_list c' -> j <> i /\ j ∈ bc_free_list c) as Hff by (intros j Hj; split; [by intros ->|]; destruct Hf as [->| ->]; [done|by right]).
  split_and!; [|split; try done; intros; unfold bview, brefs; by rewrite Hblk, ?Hdisk|done]. constructor; try done; rewrite ?Hd, ?Hs, ?Hl; try done.
  - destruct Hf as [<-|E]; [done|]. rewrite E in I3. cbn in I3. by apply NoDup_cons in I3 as [_ ?].
  - intros j Hj. destruct (decide (j = i)) as [->|Hne]; [set_solver|]. rewrite Ho by done. apply I4. apply elem_of_app in Hj as [Hj|Hj]; [apply Hff in Hj|]; set_solver.
  - intros j b E. assert (block_ok c b) as [] by (destruct (decide (j = i)) as [->|]; [auto|rewrite Ho in E by done; by apply (I5 j)]). constructor; [done|by rewrite Hs].
  - intros j b [Hne Hj]%Hff E. rewrite Ho in E by done. by apply (I6 j).
  - intros j b Hj E. rewrite Hlb in E by done. rewrite Hon. by apply (I7 j).
  - intros j b Hj E. rewrite Hlb in E by done. rewrite Hdisk. by apply (I9 j).
  - intros n. unfold brefs. rewrite Hblk. apply I10.
Qed.

(** A block of the device that is not in the cache enters it. *)
Lemma enter_inv c c' M n i b :
  bc_inv c M -> bc_dev c' = bc_dev c -> bc_block_size c' = bc_block_size c -> bc_free_list c' = bc_free_list c -> bc_lru_list c' = bc_lru_list c ++ [i] ->
  i ∉ bc_free_list c ++ bc_lru_list c -> (forall j, j <> i -> bc_blocks c' !! j = bc_blocks c !! j) -> bc_blocks c' !! i = Some b ->
  idx c n = None -> on_disk c n -> block_ok c b -> bb_blocknum b = n -> bb_ref_count b = 0 -> (bb_is_dirty b = false -> bb_data b = disk c n) ->
  bc_inv c' M /\ idx c' n = Some i /\ (forall m, m <> n -> idx c' m = idx c m) /\ (forall m, brefs c' m = brefs c m) /\
  (forall m, bview c' m = if decide (m = n) then bb_data b else bview c m).
Proof.
  intros Hi Hd Hs Hf Hl Hni Ho Eb Hno Hon Hok Hnum Href Hclean. pose proof Hi as [I1 I2 I3 I4 I5 I6 I7 I8 I9 I10]. rewrite elem_of_app in Hni.
  assert (forall j, j ∈ bc_lru_list c' <-> j ∈ bc_lru_list c \/ j = i) as Hlru by (intros j; rewrite Hl, elem_of_app, list_elem_of_singleton; done).
  assert (forall m j, j <> i -> numbered c' m j <-> numbered c m j) as Hn by (intros; unfold numbered; by rewrite Ho).
  assert (forall m, numbered c' m i <-> m = n) as Hni' by (intros m; unfold numbered; rewrite Eb; cbn; rewrite Hnum; split; [by intros [= ->]|by intros ->]).
  assert (forall j, j ∈ bc_lru_list c -> j <> i) as Hne by (intros j Hj ->; tauto).
  pose proof (proj1 (idx_None c n) Hno) as Hnone.
  assert (uniq c') as Hu.
  { intros j k m [Hj| ->]%Hlru [Hk| ->]%Hlru; rewrite ?Hni', ?(Hn _ j), ?(Hn _ k) by auto; [by apply I8| | |done].
    - intros Hj' ->. by destruct (Hnone j).
    - intros -> Hk'. by destruct (Hnone k). }
  assert (idx c' n = Some i) as Hidx by (apply (idx_Some c' n i Hu); split; [apply Hlru; by right|by apply Hni']).
  assert (forall m, m <> n -> idx c' m = idx c m) as Hidx'.
  { intros m Hm. destruct (idx c m) as [j|] eqn:E.
    - apply (idx_Some c m j I8) in E as [Hj Hj']. apply (idx_Some c' m j Hu). split; [apply Hlru; by left|]. apply Hn; auto.
    - apply idx_None. intros j [Hj| ->]%Hlru; [rewrite Hn by auto; by apply (idx_None c m)|by rewrite Hni']. }
  assert (forall m, blk c' m = if decide (m = n) then Some b else blk c m) as Hblk.
  { intros m. unfold blk. case_decide as E; [subst m; by rewrite Hidx|]. rewrite Hidx' by done. destruct (idx c m) as [j|] eqn:Ej; [|done]. cbn. apply Ho, Hne.
    by apply (idx_Some c m j I8) in Ej as [? _]. }
  assert (blk c n = None) as Hbn by (unfold blk; by rewrite Hno).
  assert (forall m, disk c' m = disk c m) as Hdisk by (intros; unfold disk; by rewrite Hd, Hs).
  assert (forall m, on_disk c' m <-> on_disk c m) as Hon' by (intros; unfold on_disk; by rewrite Hd, Hs).
  assert (forall m, brefs c' m = brefs c m) as Hrefs by (intros m; unfold brefs; rewrite Hblk; case_decide; [subst m; by rewrite Hbn|done]).
  split_and!; try done; [|intros m; unfold bview; rewrite Hblk, Hdisk; by case_decide]. constructor; try done; rewrite ?Hd, ?Hs, ?Hf; try done.
  - rewrite Hl, app_assoc. apply NoDup_app. split_and!; [done|set_solver|apply NoDup_singleton].
  - intros j Hj. destruct (decide (j = i)) as [->|]; [eauto|]. rewrite Ho by done. apply I4. set_solver.
  - intros j bj E. assert (block_ok c bj) as [] by (destruct (decide (j = i)) as [->|]; [congruence|rewrite Ho in E by done; by apply (I5 j)]). constructor; [done|by rewrite Hs].
  - intros j bj Hj E. rewrite Ho in E by (intros ->; tauto). by apply (I6 j).
  - intros j bj [Hj| ->]%Hlru E; rewrite Hon'; [rewrite Ho in E by auto; by apply (I7 j)|]. rewrite Eb in E. simplify_eq. split; [done|lia].
  - intros j bj [Hj| ->]%Hlru E; rewrite Hdisk; [rewrite Ho in E by auto; by apply (I9 j)|]. rewrite Eb in E. simplify_eq. auto.
  - intros m Hm. rewrite Hrefs. by apply I10.
Qed.

(** ** Running the code *)
Lemma get_block_run i c b : bc_blocks c !! i = Some b -> get_block i c = Some (inr b, c).
Proof. intros E. unfold get_block, mbind, io_mbind, io_bind, ioget. by rewrite E. Qed.

Lemma find_walk_run c n : forall l depth, (forall i, i ∈ l -> is_Some (bc_blocks c !! i)) ->
  exists r, find_walk l n depth c = Some (inr r, c) /\ (fst <$> r) = head (filter (numbered c n) l).
Proof.
  induction l as [|i l IH]; intros depth Hl; cbn [find_walk]; [by exists None|]. destruct (Hl i ltac:(left)) as [b Eb].
  rewrite (io_bind_run _ _ _ _ _ (get_block_run i c b Eb)). rewrite filter_cons. destruct (Z.eqb_spec (bb_blocknum b) n) as [E|E].
  - eexists. split; [done|]. rewrite decide_True; [done|]. unfold numbered. rewrite Eb. cbn. by rewrite E.
  - rewrite decide_False; [apply IH; intros j Hj; apply Hl; by right|]. unfold numbered. rewrite Eb. cbn. by intros [= ?].
Qed.

Lemma tail_permutation (l : list nat) i : NoDup l -> i ∈ l -> filter (fun j => j <> i) l ++ [i] ≡ₚ l.
Proof.
  intros Hd Hi. apply NoDup_Permutation; [|done|].
  - apply NoDup_app. split_and!; [by apply NoDup_filter| |apply NoDup_singleton]. intros j [? _]%list_elem_of_filter. by rewrite list_elem_of_singleton.
  - intros j. rewrite elem_of_app, list_elem_of_singleton, (list_elem_of_filter (fun j => j <> i)). destruct (decide (j = i)) as [->|]; tauto.
Qed.

Lemma lru_nodup c M : bc_inv c M -> NoDup (bc_lru_list c).
Proof. intros Hi. by destruct (proj1 (NoDup_app _ _) (bi_nodup _ _ Hi)) as (_ & _ & ?). Qed.

Lemma find_block_run c M n : bc_inv c M -> exists c', find_block n c = Some (inr (idx c n), c') /\ reorder c c'.
Proof.
  intros Hi. unfold find_block. rewrite (io_bind_run ioget _ c c c eq_refl).
  destruct (find_walk_run c n (bc_lru_list c) 0) as (r & Er & Hr); [intros i Hl; apply (bi_index _ _ Hi); set_solver|].
  rewrite (io_bind_run _ _ _ _ _ Er). fold (idx c n) in Hr. destruct r as [[i depth]|]; cbn in Hr.
  - eexists. rewrite <- Hr. split; [done|]. symmetry in Hr. apply (idx_Some c n i (bi_unique _ _ Hi)) in Hr as [Hl _].
    constructor; try done. cbn. apply tail_permutation; [by eapply lru_nodup|done].
  - eexists. rewrite <- Hr. split; [done|]. by constructor.
Qed.
End ops.

Section run.
Context `{KConfig} {D : Type} `{!BlockBytes D} `{!BlockBytesLaws D} `{!ReliableDevice D}.
Implicit Types (c : bcache D) (M : gset Z).

Lemma disk_range c M n : bc_inv c M -> on_disk c n ->
  to_signed 64 (n * bc_block_size c) = n * bc_block_size c /\ 0 <= n * bc_block_size c /\
  n * bc_block_size c + bc_block_size c <= Z.of_nat (length (bl_content (bc_dev c))) /\ n * bc_block_size c + bc_block_size c <= bl_limit (bc_dev c).
Proof. intros Hi (Hn & Hl & Hlim). pose proof (bi_size _ _ Hi). rewrite to_signed_small by nia. split_and!; [done|nia..]. Qed.

Lemma flush_block_run c M n i b :
  bc_inv c M -> idx c n = Some i -> bc_blocks c !! i = Some b ->
  exists c', flush_block i c = Some (inr 0, c') /\ changed c c' n i b (set_is_dirty false b) /\ bc_inv c' M /\ bc_same c c'.
Proof using All.
  intros Hi Ei Eb. pose proof Ei as [Hl Hn]%(idx_Some c n i (bi_unique _ _ Hi)). assert (bb_blocknum b = n) as Hbn by (unfold numbered in Hn; rewrite Eb in Hn; by injection Hn).
  destruct (bi_lru _ _ Hi i b Hl Eb) as [Hon Href]. rewrite Hbn in Hon. destruct (bi_block _ _ Hi i b Eb) as [Hptr Hlen].
  destruct (disk_range c M n Hi Hon) as (Es & H0 & Hr & Hlim). pose proof (bi_size _ _ Hi) as Hsz.
  destruct (reliable_write (bc_dev c) (bb_ptr b) (bb_data b) (n * bc_block_size c) (bc_block_size c)) as (d' & Ew & Hk & Hc); [apply Hi|lia..|].
  unfold flush_block. rewrite (io_bind_run ioget _ c c c eq_refl), (io_bind_run _ _ _ _ _ (get_block_run i c b Eb)). rewrite Hbn, Es.
  assert (on_dev (bio_write (bb_ptr b) (bb_data b) (n * bc_block_size c) (bc_block_size c)) c = Some (inr (inr (bc_block_size c)), set_bc_dev d' c)) as Eo.
  { unfold on_dev. by rewrite Ew. }
  rewrite (io_bind_run _ _ _ _ _ Eo). rewrite (to_signed_small 32 (bc_block_size c)) by lia. rewrite (proj2 (Z.ltb_ge _ 0)) by lia.
  eexists. split; [done|]. set (c' := set_bc_stats _ _).
  assert (changed c c' n i b (set_is_dirty false b)) as Hch.
  { constructor; try done; [cbn; by rewrite list_lookup_alter_eq, Eb|intros j Hj; cbn; by rewrite list_lookup_alter_ne|].
    intros m Hm Honm. destruct (disk_range c M m Hi Honm) as (_ & ? & ? & _). unfold disk. cbn. rewrite Hc. apply get_put_other; try lia. rewrite <- Hlen. nia. }
  assert (disk c' n = bb_data b) as Hdisk.
  { unfold disk. cbn. rewrite Hc. rewrite <- Hlen. rewrite Hlen. rewrite <- Hlen at 2. apply get_put_same; lia. }
  split; [done|]. split.
  - eapply changed_inv; try done. intros HM. pose proof (bi_held _ _ Hi n HM) as Hh. unfold brefs, blk in Hh. rewrite Ei in Hh. cbn in Hh. by rewrite Eb in Hh.
  - assert (blk c n = Some b) as Hblk by (unfold blk; by rewrite Ei). constructor; try done.
    + intros m Honm. rewrite (changed_view _ _ _ _ _ _ _ _ Hi Hch Honm). case_decide; [subst m|done]. unfold bview. by rewrite Hblk.
    + intros m. rewrite (changed_refs _ _ _ _ _ _ _ m Hi Hch). case_decide; [subst m|done]. unfold brefs. by rewrite Hblk.
    + intros m _. by eapply changed_idx.
    + intros m. by eapply changed_on_disk.
Qed.

(** There is a block to use: a free one, or one that nobody holds. *)
Definition broom c : Prop := bc_free_list c <> [] \/ exists i b, i ∈ bc_lru_list c /\ bc_blocks c !! i = Some b /\ bb_ref_count b = 0.

Lemma broom_reorder c c' : reorder c c' -> broom c -> broom c'.
Proof.
  intros Hro [Hf|(i & b & Hl & Eb & Hr)]; [left; by rewrite (ro_free _ _ Hro)|right; exists i, b; rewrite (ro_lru _ _ Hro), (ro_blocks _ _ Hro); done].
Qed.

Lemma cached_idx c M i b : bc_inv c M -> i ∈ bc_lru_list c -> bc_blocks c !! i = Some b -> idx c (bb_blocknum b) = Some i.
Proof. intros Hi Hl Eb. apply (idx_Some c _ i (bi_unique _ _ Hi)). split; [done|]. unfold numbered. by rewrite Eb. Qed.

(** The result of [alloc_block]: a block at the end of the list, and the cache
    without it. *)
Record allocated c c0 c' M (i : nat) (b : bcache_block) : Prop := {
  al_inv : bc_inv c0 M;
  al_same : bc_same c c0;
  al_none n : idx c n = None -> idx c0 n = None;
  al_dev : bc_dev c' = bc_dev c0;
  al_size : bc_block_size c' = bc_block_size c0;
  al_free : bc_free_list c' = bc_free_list c0;
  al_lru : bc_lru_list c' = bc_lru_list c0 ++ [i];
  al_blocks : bc_blocks c' = bc_blocks c0;
  al_fresh : i ∉ bc_free_list c0 ++ bc_lru_list c0;
  al_block : bc_blocks c' !! i = Some b;
  al_refs : bb_ref_count b = 0;
  al_clean : bb_is_dirty b = false;
}.

Lemma evict c M i b : bc_inv c M -> i ∈ bc_lru_list c -> bc_blocks c !! i = Some b -> bb_ref_count b = 0 -> bb_is_dirty b = false ->
  exists c', to_lru_tail i c = Some (inr (), c') /\ allocated c (hide i c) c' M i b.
Proof.
  intros Hi Hl Eb Hr Hd. eexists. split; [done|]. destruct (hide_inv c M i b Hi Hl Eb Hr Hd) as [Hi0 Hs]. constructor; try done.
  - intros n Hn. apply idx_None. intros j [_ Hj]%elem_of_hide. by apply (idx_None c n).
  - intros [Hf|[? _]%elem_of_hide]%elem_of_app; [|done]. destruct (proj1 (NoDup_app _ _) (bi_nodup _ _ Hi)) as (_ & Hdisj & _). by apply (Hdisj i).
Qed.

Lemma bcache_alloc_walk_run c M : bc_inv c M -> forall l, (forall i, i ∈ l -> i ∈ bc_lru_list c) ->
  (exists i b, i ∈ l /\ bc_blocks c !! i = Some b /\ bb_ref_count b = 0) ->
  exists i b c0 c', alloc_walk l c = Some (inr (Some i), c') /\ allocated c c0 c' M i b.
Proof using All.
  intros Hi. induction l as [|i l IH]; intros Hl (k & bk & Hk & Ek & Hrk); [by apply elem_of_nil in Hk|]. cbn [alloc_walk].
  pose proof (Hl i ltac:(left)) as Hil. destruct (bi_index _ _ Hi i ltac:(set_solver)) as [b Eb]. rewrite (io_bind_run _ _ _ _ _ (get_block_run i c b Eb)).
  destruct (Z.eqb_spec (bb_ref_count b) 0) as [Hr|Hr].
  2:{ apply IH; [set_solver|]. apply elem_of_cons in Hk as [->|Hk]; [congruence|]. eauto. }
  destruct (bb_is_dirty b) eqn:Hd.
  - destruct (flush_block_run c M _ i b Hi (cached_idx c M i b Hi Hil Eb) Eb) as (c1 & E1 & Hch & Hi1 & Hs1). rewrite (io_bind_run _ _ _ _ _ E1). cbn.
    pose proof (ch_block' _ _ _ _ _ _ Hch) as Eb1.
    destruct (evict c1 M i _ Hi1 ltac:(rewrite (ch_lru _ _ _ _ _ _ Hch); done) Eb1 Hr eq_refl) as (c' & E' & Ha). rewrite (io_bind_run _ _ _ _ _ E').
    eexists i, _, _, c'. split; [done|]. destruct Ha. constructor; try done; [by etrans|]. intros n Hn. apply al_none0. by rewrite (changed_idx _ _ _ _ _ _ n Hch).
  - rewrite (io_bind_run (mret 0) _ c 0 c eq_refl). cbn. destruct (evict c M i b Hi Hil Eb Hr Hd) as (c' & E' & Ha). rewrite (io_bind_run _ _ _ _ _ E'). by eexists i, _, _, c'.
Qed.

Lemma alloc_block_run c M : bc_inv c M -> broom c -> exists i b c0 c', alloc_block c = Some (inr (Some i), c') /\ allocated c c0 c' M i b.
Proof using All.
  intros Hi Hroom. unfold alloc_block. rewrite (io_bind_run ioget _ c c c eq_refl). destruct (bc_free_list c) as [|i free] eqn:Ef.
  { apply bcache_alloc_walk_run; [done|done|]. by destruct Hroom as [?|?]. }
  pose proof (bi_nodup _ _ Hi) as Hnd. rewrite Ef in Hnd. cbn in Hnd. apply NoDup_cons in Hnd as [Hni Hnd]. destruct (bi_index _ _ Hi i) as [b Eb]; [rewrite Ef; left|].
  pose proof (bi_block _ _ Hi i b Eb) as Hok. pose proof (bi_free _ _ Hi i b ltac:(rewrite Ef; left) Eb) as Hd.
  set (c0 := mod_block i (set_ref_count 0) (set_bc_lists free (bc_lru_list c) c)).
  destruct (spare_inv c c0 M i) as (Hi0 & Hs0 & Hidx0); try done.
  - set_solver.
  - intros j Hj. cbn. by rewrite list_lookup_alter_ne.
  - intros b'. cbn. rewrite list_lookup_alter_eq, Eb. cbn. intros [= <-]. by destruct Hok.
  - right. done.
  - cbn. set_solver.
  - eexists i, (set_ref_count 0 b), c0, _. split; [done|]. constructor; try done; cbn; [by intros n; rewrite Hidx0|by rewrite list_lookup_alter_eq, Eb].
Qed.

(** ** Finding or filling *)
Lemma ioassert_run {S} b (c : S) : b = true -> ioassert b c = Some (inr (), c).
Proof. intros ->. unfold ioassert. by rewrite dassert_true. Qed.

(** A block enters the cache with the bytes of the device. *)
Lemma enter_same c c' M n i b :
  bc_inv c M -> bc_dev c' = bc_dev c -> bc_block_size c' = bc_block_size c -> bc_free_list c' = bc_free_list c -> bc_lru_list c' = bc_lru_list c ++ [i] ->
  i ∉ bc_free_list c ++ bc_lru_list c -> (forall j, j <> i -> bc_blocks c' !! j = bc_blocks c !! j) -> bc_blocks c' !! i = Some b ->
  idx c n = None -> on_disk c n -> block_ok c b -> bb_blocknum b = n -> bb_ref_count b = 0 -> bb_data b = disk c n ->
  bc_inv c' M /\ idx c' n = Some i /\ bc_same c c'.
Proof.
  intros Hi Hd Hs Hf Hl Hni Ho Eb Hno Hon Hok Hnum Href Hdata.
  destruct (enter_inv c c' M n i b Hi Hd Hs Hf Hl Hni Ho Eb Hno Hon Hok Hnum Href (fun _ => Hdata)) as (Hi' & Hidx & Hidx' & Hrefs & Hview).
  assert (blk c n = None) as Hbn by (unfold blk; by rewrite Hno). split; [done|]. split; [done|]. constructor; try done.
  - intros m _. rewrite Hview. case_decide; [subst m|done]. unfold bview. by rewrite Hbn, Hdata.
  - intros m Hm. apply Hidx'. intros ->. unfold brefs in Hm. rewrite Hbn in Hm. lia.
  - intros m. unfold on_disk. by rewrite Hd, Hs.
Qed.

Lemma fill_new_block_run c M n : bc_inv c M -> on_disk c n -> idx c n = None -> broom c ->
  exists i b c', fill_new_block n c = Some (inr (Some i), c') /\ bc_inv c' M /\ bc_same c c' /\ idx c' n = Some i /\ bc_blocks c' !! i = Some b /\ bb_blocknum b = n.
Proof using All.
  intros Hi Hon Hno Hroom. destruct (alloc_block_run c M Hi Hroom) as (i & b & c0 & c2 & E2 & [Hi0 Hs0 Hnone Ed Es Ef El Ebl Hfr Eb Hr0 Hcl]).
  assert (on_disk c0 n) as Hon0 by (by apply Hs0). destruct (disk_range c0 M n Hi0 Hon0) as (Esg & H0 & Hr & Hlim). pose proof (bi_size _ _ Hi0) as Hsz.
  assert (bc_blocks c0 !! i = Some b) as Eb0 by (by rewrite <- Ebl). destruct (bi_block _ _ Hi0 i b Eb0) as [Hptr Hlen].
  destruct (reliable_read (bc_dev c0) (bb_ptr b) (n * bc_block_size c0) (bc_block_size c0)) as (d' & Erd & Hsd); [apply Hi0|lia..|]. fold (disk c0 n) in Erd.
  destruct (redev_inv c0 M d' Hi0 Hsd) as [Hid Hsd']. assert (disk (set_bc_dev d' c0) n = disk c0 n) as Hdn by (unfold disk; cbn; by destruct Hsd as (_ & _ & -> & _)).
  set (c1 := mod_block i (set_blocknum n) c2). set (c3 := set_bc_stats inc_reads (mod_block i (fill (disk c0 n)) (set_bc_dev d' c1))).
  assert (bc_blocks c1 !! i = Some (set_blocknum n b)) as Eb1 by (cbn; by rewrite list_lookup_alter_eq, Eb).
  assert (bc_blocks c3 !! i = Some (fill (disk c0 n) (set_blocknum n b))) as Eb3 by (cbn; by rewrite !list_lookup_alter_eq, Eb).
  assert (Z.of_nat (length (disk c0 n)) = bc_block_size c0) as Hdl by (unfold disk; rewrite length_get_bytes; lia).
  assert (bb_data (fill (disk c0 n) (set_blocknum n b)) = disk c0 n) as Hdata by (cbn; apply put_bytes_whole; lia).
  exists i, (fill (disk c0 n) (set_blocknum n b)), c3. split.
  { unfold fill_new_block. rewrite (io_bind_run _ _ _ _ _ E2), (io_bind_run _ _ _ _ _ (ioassert_run _ c2 eq_refl)), (io_bind_run (bcm (mod_block i (set_blocknum n))) _ c2 () c1 eq_refl).
    rewrite (io_bind_run ioget _ _ _ _ eq_refl), (io_bind_run _ _ _ _ _ (get_block_run i c1 _ Eb1)). cbn [bb_ptr set_blocknum]. change (bc_block_size c1) with (bc_block_size c2). rewrite Es, Esg.
    rewrite (io_bind_run (on_dev _) _ _ (inr (bc_block_size c0, disk c0 n)) (set_bc_dev d' c1)); [|unfold on_dev; cbn [bc_dev mod_block c1]; by rewrite Ed, Erd].
    rewrite to_signed_small by lia. by rewrite (proj2 (Z.ltb_ge _ 0)) by lia. }
  destruct (enter_same (set_bc_dev d' c0) c3 M n i (fill (disk c0 n) (set_blocknum n b)) Hid) as (Hi3 & Hidx3 & Hs3); try done.
  - intros j Hj. cbn. rewrite !list_lookup_alter_ne by done. by rewrite Ebl.
  - by apply Hnone.
  - by apply Hsd'.
  - constructor; [done|]. by rewrite Hdata, Hdl.
  - by rewrite Hdata, Hdn.
  - split; [done|]. split; [|done]. by etrans; [|etrans].
Qed.

Lemma find_or_fill_run c M n : bc_inv c M -> on_disk c n -> idx c n <> None \/ broom c ->
  exists i c', find_or_fill_block n c = Some (inr (Some i), c') /\ bc_inv c' M /\ bc_same c c' /\ idx c' n = Some i.
Proof using All.
  intros Hi Hon Hroom. unfold find_or_fill_block. destruct (find_block_run c M n Hi) as (c1 & E1 & Hro). rewrite (io_bind_run _ _ _ _ _ E1).
  destruct (reorder_inv c c1 M Hi Hro) as (Hi1 & Hs1 & Hidx1).
  assert (exists i b c2, (match idx c n with Some i => mret (Some i) | None => fill_new_block n end) c1 = Some (inr (Some i), c2) /\ bc_inv c2 M /\ bc_same c c2 /\
    idx c2 n = Some i /\ bc_blocks c2 !! i = Some b /\ bb_blocknum b = n) as (i & b & c2 & E2 & Hi2 & Hs2 & Ei2 & Eb2 & Hn2).
  { destruct (idx c n) as [i|] eqn:Ei.
    - rewrite <- Hidx1 in Ei. pose proof Ei as [Hl Hn]%(idx_Some c1 n i (bi_unique _ _ Hi1)). destruct (bi_index _ _ Hi1 i ltac:(set_solver)) as [b Eb].
      unfold numbered in Hn. rewrite Eb in Hn. injection Hn as Hn. by exists i, b, c1.
    - destruct Hroom as [?|Hroom]; [done|]. destruct (fill_new_block_run c1 M n Hi1) as (i & b & c2 & ? & ? & ? & ?).
      + by apply Hs1.
      + by rewrite Hidx1.
      + by eapply broom_reorder.
      + exists i, b, c2. split_and!; try done; [by etrans|tauto..]. }
  rewrite (io_bind_run _ _ _ _ _ E2), (io_bind_run _ _ _ _ _ (get_block_run i c2 b Eb2)).
  rewrite (io_bind_run _ _ _ _ _ (ioassert_run _ c2 (proj2 (Z.eqb_eq _ _) Hn2))). by exists i, c2.
Qed.
End run.
