(* ===== verification/BcacheClaims.v ===== *)
(** * The block cache refines the device

    What callers see through the cache is an array of blocks: reading, holding,
    changing, zeroing and flushing blocks acts on it as if every change was made on
    the device at once, whatever is evicted in between, and after a flush the
    device holds it. *)
From S2P Require Import Prelude Align KState Pmm Heap HeapInv Bio BioOps BioDev BioClaims Bcache BcacheOps.

Definition upd {A} (f : Z -> A) (n : Z) (x : A) : Z -> A := fun m => if decide (m = n) then x else f m.

Section public.
Context `{KConfig} {D : Type} `{!BlockBytes D} `{!BlockBytesLaws D} `{!ReliableDevice D}.
Implicit Types (c : bcache D) (M : gset Z).

Definition available c (n : Z) : Prop := on_disk c n /\ (idx c n <> None \/ broom c).

Lemma idx_block c M n i : bc_inv c M -> idx c n = Some i ->
  exists b, bc_blocks c !! i = Some b /\ blk c n = Some b /\ bb_blocknum b = n /\ on_disk c n /\ block_ok c b /\ 0 <= bb_ref_count b < 2 ^ 31.
Proof using All.
  intros Hi Ei. pose proof Ei as [Hl Hn]%(idx_Some c n i (bi_unique _ _ Hi)). destruct (bi_index _ _ Hi i ltac:(set_solver)) as [b Eb].
  assert (bb_blocknum b = n) as Hbn by (unfold numbered in Hn; rewrite Eb in Hn; by injection Hn). exists b. destruct (bi_lru _ _ Hi i b Hl Eb). rewrite Hbn in *.
  split_and!; try done; [unfold blk; by rewrite Ei|by apply (bi_block _ _ Hi i)|tauto..].
Qed.

Lemma held_idx c n : 0 < brefs c n -> exists i, idx c n = Some i.
Proof using All. unfold brefs, blk. destruct (idx c n); [eauto|cbn; lia]. Qed.

(** A change of the cached block [n] that leaves the device. *)
Lemma mod_changed c M n i b f : bc_inv c M -> idx c n = Some i -> bc_blocks c !! i = Some b -> bb_blocknum (f b) = bb_blocknum b ->
  changed c (mod_block i f c) n i b (f b).
Proof using All.
  intros Hi Ei Eb Hn. constructor; try done; [cbn; by rewrite list_lookup_alter_eq, Eb|intros j Hj; cbn; by rewrite list_lookup_alter_ne|].
  cbn. apply bl_kept_refl, Hi.
Qed.

(** [c'] is [c] with the block [n] as in [b']. *)
Definition becomes c c' (n : Z) (b' : bcache_block) : Prop :=
  (forall m, on_disk c' m <-> on_disk c m) /\ bc_block_size c' = bc_block_size c /\
  (forall m, on_disk c m -> bview c' m = upd (bview c) n (bb_data b') m) /\ (forall m, brefs c' m = upd (brefs c) n (bb_ref_count b') m) /\
  (forall m, 0 < brefs c m -> idx c' m = idx c m).

Lemma becomes_run c0 c M M' n i b f :
  bc_same c0 c -> bc_inv c M -> idx c n = Some i -> bc_blocks c !! i = Some b -> bb_blocknum (f b) = bb_blocknum b -> block_ok c (f b) ->
  0 <= bb_ref_count (f b) < 2 ^ 31 -> (bb_is_dirty (f b) = false -> n ∉ M' -> bb_data (f b) = disk c n) ->
  (forall m, m <> n -> m ∈ M' <-> m ∈ M) -> (n ∈ M' -> 0 < bb_ref_count (f b)) ->
  bc_inv (mod_block i f c) M' /\ becomes c0 (mod_block i f c) n (f b) /\ idx (mod_block i f c) n = Some i.
Proof using All.
  intros Hs Hi Ei Eb Hn Hok Hr Hcl HM Hh. pose proof (mod_changed c M n i b f Hi Ei Eb Hn) as Hc. split; [by eapply changed_inv|]. split.
  - split_and!.
    + intros m. rewrite (changed_on_disk _ _ _ _ _ _ m Hc). apply Hs.
    + apply Hs.
    + intros m Hm. rewrite (changed_view _ _ _ _ _ _ M m Hi Hc) by (by apply Hs). unfold upd. case_decide; [done|]. by apply Hs.
    + intros m. rewrite (changed_refs _ _ _ _ _ _ M m Hi Hc). unfold upd. case_decide; [done|]. by apply Hs.
    + intros m Hm. rewrite (changed_idx _ _ _ _ _ _ m Hc). by apply Hs.
  - by rewrite (changed_idx _ _ _ _ _ _ n Hc).
Qed.

(** *** Each operation *)
Lemma bcache_read_block_run c M n : bc_inv c M -> available c n ->
  exists c', bcache_read_block n c = Some (inr (0, bview c n), c') /\ bc_inv c' M /\ bc_same c c'.
Proof using All.
  intros Hi [Hon Hroom]. destruct (find_or_fill_run c M n Hi Hon Hroom) as (i & c' & E & Hi' & Hs & Ei). exists c'.
  destruct (idx_block c' M n i Hi' Ei) as (b & Eb & Hblk & _ & _ & [_ Hl] & _). split; [|done]. unfold bcache_read_block. rewrite (io_bind_run _ _ _ _ _ E).
  rewrite (io_bind_run ioget _ _ _ _ eq_refl), (io_bind_run _ _ _ _ _ (get_block_run i c' b Eb)). rewrite <- (bs_view _ _ Hs n Hon). unfold bview. rewrite Hblk.
  unfold get_bytes. rewrite drop_0, take_ge by lia. done.
Qed.

Lemma bcache_get_block_run c M n : bc_inv c M -> available c n -> brefs c n < 2 ^ 31 - 1 ->
  exists i b c', bcache_get_block n c = Some (inr (0, Some i), c') /\ bc_inv c' M /\ becomes c c' n b /\ idx c' n = Some i /\
    bb_data b = bview c n /\ bb_ref_count b = brefs c n + 1.
Proof using All.
  intros Hi [Hon Hroom] Hr. destruct (find_or_fill_run c M n Hi Hon Hroom) as (i & c1 & E & Hi1 & Hs & Ei).
  destruct (idx_block c1 M n i Hi1 Ei) as (b & Eb & Hblk & Hbn & _ & Hok & Href). set (f := fun b => set_ref_count (s32 (bb_ref_count b + 1)) b).
  assert (brefs c n = bb_ref_count b) as Hrc by (rewrite <- (bs_refs _ _ Hs n); unfold brefs; by rewrite Hblk).
  assert (s32 (bb_ref_count b + 1) = bb_ref_count b + 1) as Ew by (apply to_signed_small; lia).
  destruct (becomes_run c c1 M M n i b f Hs Hi1 Ei Eb) as (Hi2 & Hbec & Ei2); cbn; try done; [by destruct Hok|lia| |lia|].
  { intros Hd HM. rewrite <- Hbn. apply (bi_clean _ _ Hi1 i); try done; [|by rewrite Hbn]. by apply (idx_Some c1 n i (bi_unique _ _ Hi1)). }
  exists i, (f b), (mod_block i f c1). unfold bcache_get_block. rewrite (io_bind_run _ _ _ _ _ E). split_and!; try done; cbn; [|lia].
  rewrite <- (bs_view _ _ Hs n Hon). unfold bview. by rewrite Hblk.
Qed.

Lemma bcache_put_block_run c M n : bc_inv c M -> 0 < brefs c n -> n ∉ M \/ 1 < brefs c n ->
  exists b c', bcache_put_block n c = Some (inr 0, c') /\ bc_inv c' M /\ becomes c c' n b /\ bb_data b = bview c n /\ bb_ref_count b = brefs c n - 1.
Proof using All.
  intros Hi Hr HM. destruct (find_block_run c M n Hi) as (c1 & E1 & Hro). destruct (reorder_inv c c1 M Hi Hro) as (Hi1 & Hs & Hidx).
  destruct (held_idx c n Hr) as [i Ei]. rewrite Ei in E1. rewrite <- Hidx in Ei.
  destruct (idx_block c1 M n i Hi1 Ei) as (b & Eb & Hblk & Hbn & Hon & Hok & Href). set (f := fun b => set_ref_count (s32 (bb_ref_count b - 1)) b).
  assert (brefs c n = bb_ref_count b) as Hrc by (rewrite <- (bs_refs _ _ Hs n); unfold brefs; by rewrite Hblk).
  assert (s32 (bb_ref_count b - 1) = bb_ref_count b - 1) as Ew by (apply to_signed_small; lia).
  destruct (becomes_run c c1 M M n i b f Hs Hi1 Ei Eb) as (Hi2 & Hbec & Ei2); cbn; try done; [by destruct Hok|lia| |destruct HM; [done|lia]|].
  { intros Hd HnM. rewrite <- Hbn. apply (bi_clean _ _ Hi1 i); try done; [|by rewrite Hbn]. by apply (idx_Some c1 n i (bi_unique _ _ Hi1)). }
  exists (f b), (mod_block i f c1). unfold bcache_put_block. rewrite (io_bind_run _ _ _ _ _ E1), (io_bind_run _ _ _ _ _ (ioassert_run _ c1 eq_refl)).
  rewrite (io_bind_run _ _ _ _ _ (get_block_run i c1 b Eb)), (io_bind_run _ _ _ _ _ (ioassert_run _ c1 (proj2 (Z.ltb_lt 0 (bb_ref_count b)) ltac:(lia)))).
  split_and!; try done; cbn; [|lia]. rewrite <- (bs_view _ _ Hs n) by (by apply Hs). unfold bview. by rewrite Hblk.
Qed.

Lemma bcache_mark_dirty_run c M n : bc_inv c M -> 0 < brefs c n ->
  exists b c', bcache_mark_block_dirty n c = Some (inr 0, c') /\ bc_inv c' (M ∖ {[n]}) /\ becomes c c' n b /\ bb_data b = bview c n /\ bb_ref_count b = brefs c n.
Proof using All.
  intros Hi Hr. destruct (find_block_run c M n Hi) as (c1 & E1 & Hro). destruct (reorder_inv c c1 M Hi Hro) as (Hi1 & Hs & Hidx).
  destruct (held_idx c n Hr) as [i Ei]. rewrite Ei in E1. rewrite <- Hidx in Ei.
  destruct (idx_block c1 M n i Hi1 Ei) as (b & Eb & Hblk & Hbn & Hon & Hok & Href).
  destruct (becomes_run c c1 M (M ∖ {[n]}) n i b (set_is_dirty true) Hs Hi1 Ei Eb) as (Hi2 & Hbec & Ei2); cbn; try done; [by destruct Hok|set_solver|set_solver|].
  exists (set_is_dirty true b), (mod_block i (set_is_dirty true) c1). unfold bcache_mark_block_dirty. rewrite (io_bind_run _ _ _ _ _ E1).
  split_and!; try done; cbn; [rewrite <- (bs_view _ _ Hs n) by (by apply Hs); unfold bview|rewrite <- (bs_refs _ _ Hs n); unfold brefs]; by rewrite Hblk.
Qed.

Lemma poke_run c M n i offset data : bc_inv c M -> 0 < brefs c n -> idx c n = Some i -> 0 <= offset -> offset + Z.of_nat (length data) <= bc_block_size c ->
  exists b c', poke i offset data c = Some (inr (), c') /\ bc_inv c' ({[n]} ∪ M) /\ becomes c c' n b /\ bb_data b = put_bytes offset data (bview c n) /\ bb_ref_count b = brefs c n.
Proof using All.
  intros Hi Hr Ei Ho Hl. destruct (idx_block c M n i Hi Ei) as (b & Eb & Hblk & Hbn & Hon & Hok & Href). set (f := set_data (put_bytes offset data (bb_data b))).
  assert (brefs c n = bb_ref_count b) as Hrc by (unfold brefs; by rewrite Hblk). pose proof (bo_data _ _ Hok) as Hlen.
  destruct (becomes_run c c M ({[n]} ∪ M) n i b f) as (Hi2 & Hbec & Ei2); cbn; try done; [|set_solver..|intros _; lia|].
  { constructor; [by destruct Hok|]. cbn. rewrite length_put_bytes by lia. done. }
  exists (f b), (mod_block i f c). unfold poke. rewrite (io_bind_run _ _ _ _ _ (get_block_run i c b Eb)).
  rewrite (proj2 (Z.leb_le 0 offset)), (proj2 (Z.leb_le (offset + _) _)) by lia. split_and!; try done. cbn. unfold bview. by rewrite Hblk.
Qed.

(** *** Flushing *)
Lemma flush_walk_run c0 M : forall l c, bc_inv c M -> bc_same c0 c -> NoDup l -> (forall i, i ∈ l -> i ∈ bc_lru_list c) ->
  (forall i b, i ∈ bc_lru_list c -> i ∉ l -> bc_blocks c !! i = Some b -> bb_is_dirty b = false) ->
  exists c', flush_walk l c = Some (inr 0, c') /\ bc_inv c' M /\ bc_same c0 c' /\ (forall i b, i ∈ bc_lru_list c' -> bc_blocks c' !! i = Some b -> bb_is_dirty b = false).
Proof using All.
  induction l as [|i l IH]; intros c Hi Hs Hnd Hl Hrest; cbn [flush_walk].
  { exists c. split_and!; try done. intros j b Hj. apply Hrest; [done|]. apply not_elem_of_nil. }
  apply NoDup_cons in Hnd as [Hni Hnd]. pose proof (Hl i ltac:(left)) as Hil. destruct (bi_index _ _ Hi i ltac:(set_solver)) as [b Eb].
  rewrite (io_bind_run _ _ _ _ _ (get_block_run i c b Eb)). destruct (bb_is_dirty b) eqn:Hd.
  - destruct (flush_block_run c M _ i b Hi (cached_idx c M i b Hi Hil Eb) Eb) as (c1 & E1 & Hch & Hi1 & Hs1). rewrite (io_bind_run _ _ _ _ _ E1). cbn.
    pose proof (ch_lru _ _ _ _ _ _ Hch) as El. apply IH; [done|by etrans|done|rewrite El; set_solver|].
    intros j bj. rewrite El. intros Hj Hjl Ej. destruct (decide (j = i)) as [->|]; [rewrite (ch_block' _ _ _ _ _ _ Hch) in Ej; by simplify_eq|].
    rewrite (ch_others _ _ _ _ _ _ Hch) in Ej by done. apply (Hrest j); set_solver.
  - apply IH; [done|done|done|set_solver|]. intros j bj Hj Hjl Ej. destruct (decide (j = i)) as [->|]; [congruence|]. apply (Hrest j); set_solver.
Qed.

Lemma bcache_flush_run c M : bc_inv c M ->
  exists c', bcache_flush c = Some (inr 0, c') /\ bc_inv c' M /\ bc_same c c' /\ (forall n, on_disk c n -> n ∉ M -> disk c' n = bview c n).
Proof using All.
  intros Hi. unfold bcache_flush. rewrite (io_bind_run ioget _ _ _ _ eq_refl).
  destruct (flush_walk_run c M (bc_lru_list c) c Hi (reflexivity c) (lru_nodup c M Hi) ltac:(done) ltac:(done)) as (c' & E & Hi' & Hs & Hcl). exists c'. split_and!; try done.
  intros n Hon HM. rewrite <- (bs_view _ _ Hs n Hon). unfold bview. destruct (blk c' n) as [b|] eqn:Eb; [|done]. apply (blk_Some c' n b (bi_unique _ _ Hi')) in Eb as (i & Hl & Eb & <-).
  symmetry. apply (bi_clean _ _ Hi' i); try done. by apply (Hcl i).
Qed.

(** *** Zeroing *)
Lemma bcache_zero_block_run c M n : bc_inv c M -> available c n ->
  exists c', bcache_zero_block n c = Some (inr 0, c') /\ bc_inv c' (M ∖ {[n]}) /\ (forall m, on_disk c' m <-> on_disk c m) /\ bc_block_size c' = bc_block_size c /\
    (forall m, on_disk c m -> bview c' m = upd (bview c) n (replicate (Z.to_nat (bc_block_size c)) 0) m) /\ (forall m, brefs c' m = brefs c m) /\
    (forall m, 0 < brefs c m -> idx c' m = idx c m).
Proof using All.
  intros Hi [Hon Hroom]. destruct (find_block_run c M n Hi) as (c1 & E1 & Hro). destruct (reorder_inv c c1 M Hi Hro) as (Hi1 & Hs1 & Hidx1).
  unfold bcache_zero_block. rewrite (io_bind_run _ _ _ _ _ E1). set (z := replicate (Z.to_nat (bc_block_size c)) 0).
  pose proof (bi_size _ _ Hi) as Hsz. assert (Z.of_nat (length z) = bc_block_size c) as Hz by (unfold z; rewrite length_replicate; lia).
  assert (forall b sz, sz = bc_block_size c -> Z.of_nat (length (bb_data b)) = sz -> bb_data (zero_fill sz b) = z) as Hzf.
  { intros b sz -> Hb. cbn. fold z. apply put_bytes_whole. lia. }
  destruct (idx c n) as [i|] eqn:Ei.
  - rewrite (io_bind_run (mret (Some i)) _ _ _ _ eq_refl). rewrite <- Hidx1 in Ei. destruct (idx_block c1 M n i Hi1 Ei) as (b & Eb & Hblk & Hbn & _ & Hok & Href).
    set (f := fun b => set_is_dirty true (zero_fill (bc_block_size c1) b)). pose proof (Hzf b (bc_block_size c1) (bs_size _ _ Hs1) (bo_data _ _ Hok)) as Hfd.
    destruct (becomes_run c c1 M (M ∖ {[n]}) n i b f Hs1 Hi1 Ei Eb) as (Hi2 & (Hb1 & Hb2 & Hb3 & Hb4 & Hb5) & _); try done; [|set_solver|set_solver|].
    { constructor; [by destruct Hok|]. change (bb_data (f b)) with (bb_data (zero_fill (bc_block_size c1) b)). rewrite Hfd, Hz. symmetry. apply Hs1. }
    exists (mod_block i f c1). split; [|split_and!; try done].
    + rewrite (io_bind_run (bcm (fun c => mod_block i (zero_fill (bc_block_size c)) c)) _ _ () (mod_block i (zero_fill (bc_block_size c1)) c1) eq_refl).
      unfold mbind, io_mbind, io_bind, bcm, mod_block. cbn. by rewrite list_alter_alter_eq.
    + intros m Hm. rewrite Hb3 by done. unfold upd. case_decide; [exact Hfd|done].
    + intros m. rewrite Hb4. unfold upd. case_decide; [subst m|done]. cbn. rewrite <- (bs_refs _ _ Hs1 n). unfold brefs. by rewrite Hblk.
  - destruct Hroom as [?|Hroom]; [done|]. destruct (alloc_block_run c1 M Hi1 (broom_reorder _ _ Hro Hroom)) as (i & b & c0 & c2 & E2 & [Hi0 Hs0 Hnone Ed Es Ef El Ebl Hfr Eb Hr0 Hcl]).
    set (b3 := set_is_dirty true (zero_fill (bc_block_size c2) (set_blocknum n b))).
    set (c3 := mod_block i (set_is_dirty true) (mod_block i (zero_fill (bc_block_size c2)) (mod_block i (set_blocknum n) c2))).
    assert (bc_blocks c0 !! i = Some b) as Eb0 by (by rewrite <- Ebl). pose proof (bi_block _ _ Hi0 i b Eb0) as Hok. assert (bc_block_size c2 = bc_block_size c) as Es2.
    { rewrite Es, (bs_size _ _ Hs0). apply Hs1. }
    pose proof (Hzf (set_blocknum n b) (bc_block_size c2) Es2 ltac:(rewrite Es; apply Hok)) as Hfd.
    destruct (enter_inv c0 c3 M n i b3 Hi0) as (Hi3 & _ & Hidx' & Hrefs & Hview); try done.
    + intros j Hj. cbn. rewrite !list_lookup_alter_ne by done. by rewrite Ebl.
    + cbn. by rewrite !list_lookup_alter_eq, Eb.
    + apply Hnone. by rewrite Hidx1.
    + by apply Hs0, Hs1.
    + constructor; [by destruct Hok|]. change (bb_data b3) with (bb_data (zero_fill (bc_block_size c2) (set_blocknum n b))). rewrite Hfd, Hz, <- Es2. done.
    + assert (brefs c n = 0) as Hn0 by (unfold brefs, blk; by rewrite Ei). assert (M ∖ {[n]} = M) as ->.
      { apply set_eq. intros m. rewrite elem_of_difference, elem_of_singleton. split; [tauto|]. intros Hm. split; [done|]. intros ->. pose proof (bi_held _ _ Hi n Hm). lia. }
      exists c3. split; [|split_and!; try done].
      * rewrite (io_bind_run _ _ c1 (Some i) (mod_block i (set_blocknum n) c2)); [done|]. rewrite (io_bind_run _ _ _ _ _ E2). done.
      * intros m. rewrite <- (bs_disk _ _ Hs1), <- (bs_disk _ _ Hs0). unfold on_disk. cbn. by rewrite Ed, Es.
      * intros m Hm. rewrite Hview. unfold upd. case_decide; [exact Hfd|]. rewrite (bs_view _ _ Hs0) by (by apply Hs1). by apply Hs1.
      * intros m. rewrite Hrefs, (bs_refs _ _ Hs0). apply Hs1.
      * intros m Hm. rewrite Hidx' by (intros ->; lia). rewrite (bs_idx _ _ Hs0) by (by rewrite (bs_refs _ _ Hs1)). by apply Hs1.
Qed.
End public.

(** ** Callers *)
Section callers.
Context `{KConfig} {D : Type} `{!BlockBytes D} `{!BlockBytesLaws D} `{!ReliableDevice D}.
Implicit Types (c : bcache D) (V : Z -> list Z) (R : Z -> Z) (M : gset Z).

(** A new cache: its memory is as large as it should be. *)
Definition fresh_memory (block_size : Z) (blocks : list (Z * Z * list Z)) : Prop :=
  Forall (fun '(_, ptr, data) => 0 < ptr /\ Z.of_nat (length data) = block_size) blocks.

(** [V]: the blocks as their callers have left them; [R]: how often each is held;
    [M]: those changed since they were last marked dirty. *)
Inductive bc_reach : bcache D -> (Z -> list Z) -> (Z -> Z) -> gset Z -> Prop :=
  | br_create (dev : D) block_size blocks :
      bl_ok dev -> 0 < block_size < 2 ^ 31 -> fresh_memory block_size blocks ->
      bc_reach (bcache_create dev block_size blocks) (disk (bcache_create dev block_size blocks)) (fun _ => 0) ∅
  | br_read c V R M n r c' : bc_reach c V R M -> available c n -> bcache_read_block n c = Some (inr r, c') -> bc_reach c' V R M
  | br_get c V R M n r c' : bc_reach c V R M -> available c n -> R n < 2 ^ 31 - 1 -> bcache_get_block n c = Some (inr r, c') ->
      bc_reach c' V (upd R n (R n + 1)) M
  | br_put c V R M n r c' : bc_reach c V R M -> 0 < R n -> n ∉ M \/ 1 < R n -> bcache_put_block n c = Some (inr r, c') ->
      bc_reach c' V (upd R n (R n - 1)) M
  | br_poke c V R M n i offset data c' : bc_reach c V R M -> 0 < R n -> idx c n = Some i -> 0 <= offset -> offset + Z.of_nat (length data) <= bc_block_size c ->
      poke i offset data c = Some (inr (), c') -> bc_reach c' (upd V n (put_bytes offset data (V n))) R ({[n]} ∪ M)
  | br_mark c V R M n r c' : bc_reach c V R M -> 0 < R n -> bcache_mark_block_dirty n c = Some (inr r, c') -> bc_reach c' V R (M ∖ {[n]})
  | br_zero c V R M n r c' : bc_reach c V R M -> available c n -> bcache_zero_block n c = Some (inr r, c') ->
      bc_reach c' (upd V n (replicate (Z.to_nat (bc_block_size c)) 0)) R (M ∖ {[n]})
  | br_flush c V R M r c' : bc_reach c V R M -> bcache_flush c = Some (inr r, c') -> bc_reach c' V R M.

Definition shows c V R M : Prop := bc_inv c M /\ (forall n, on_disk c n -> bview c n = V n) /\ (forall n, brefs c n = R n).

Lemma create_inv (dev : D) block_size blocks : bl_ok dev -> 0 < block_size < 2 ^ 31 -> fresh_memory block_size blocks -> bc_inv (bcache_create dev block_size blocks) ∅.
Proof.
  intros Hok Hs Hm. assert (forall i b, bc_blocks (bcache_create dev block_size blocks) !! i = Some b -> exists n p d, blocks !! i = Some (n, p, d) /\ b = BcacheBlock n 0 false p d) as Hl.
  { intros i b. cbn. rewrite list_lookup_fmap. destruct (blocks !! i) as [[[n p] d]|]; [|done]. intros [= <-]. eauto. }
  constructor; cbn; try done.
  - rewrite app_nil_r. rewrite reverse_Permutation; apply NoDup_seq.
  - intros i. rewrite app_nil_r, elem_of_reverse, elem_of_seq, list_lookup_fmap. intros [_ Hi]. destruct (lookup_lt_is_Some_2 blocks i Hi) as [x ->]. eauto.
  - intros i b (n & p & d & E & ->)%Hl. unfold fresh_memory in Hm. rewrite Forall_lookup in Hm. destruct (Hm i _ E). by constructor.
  - intros i b _ (n & p & d & E & ->)%Hl. done.
  - intros i b Hi. by apply elem_of_nil in Hi.
  - intros i j n Hi. by apply elem_of_nil in Hi.
  - intros i b Hi. by apply elem_of_nil in Hi.
Qed.

Lemma shows_becomes c c' V V' R R' M' n b : (forall m, on_disk c m -> bview c m = V m) -> (forall m, brefs c m = R m) -> bc_inv c' M' -> becomes c c' n b ->
  (on_disk c n -> bb_data b = V' n) -> (forall m, m <> n -> V' m = V m) -> (forall m, R' m = upd R n (bb_ref_count b) m) -> shows c' V' R' M'.
Proof.
  intros HV HR Hi' (B1 & B2 & B3 & B4 & B5) Hd HV' HR'. split; [done|]. split.
  - intros m Hm%B1. rewrite B3 by done. unfold upd. case_decide; [subst m; auto|]. rewrite HV' by done. auto.
  - intros m. rewrite B4, HR'. unfold upd. by case_decide.
Qed.
Lemma shows_same c c' V R M : shows c V R M -> bc_inv c' M -> bc_same c c' -> shows c' V R M.
Proof.
  intros (_ & HV & HR) Hi Hs. split; [done|]. split; [intros n Hn; rewrite (bs_view _ _ Hs) by (by apply Hs); by apply HV, Hs|intros n; by rewrite (bs_refs _ _ Hs)].
Qed.

Lemma bc_reach_shows c V R M : bc_reach c V R M -> shows c V R M.
Proof using All.
  induction 1 as [dev bs blocks Hok Hbs Hm|c V R M n r c' _ IH Ha E|c V R M n r c' _ IH Ha Hr E|c V R M n r c' _ IH Hr HM E|c V R M n i off data c' _ IH Hr Ei Ho Hl E|c V R M n r c' _ IH Hr E|c V R M n r c' _ IH Ha E|c V R M r c' _ IH E].
  - split; [by apply create_inv|]. done.
  - destruct (bcache_read_block_run c M n (proj1 IH) Ha) as (c2 & E2 & Hi2 & Hs2). rewrite E in E2. simplify_eq. by eapply shows_same.
  - destruct IH as (Hi & HV & HR). rewrite <- HR in Hr. destruct (bcache_get_block_run c M n Hi Ha Hr) as (i & b & c2 & E2 & Hi2 & Hb & _ & Hd & Hrc). rewrite E in E2. simplify_eq.
    eapply shows_becomes; try done; [by intros Hn; rewrite Hd, HV|]. intros m. by rewrite Hrc, HR.
  - destruct IH as (Hi & HV & HR). rewrite <- HR in Hr, HM. destruct (bcache_put_block_run c M n Hi Hr HM) as (b & c2 & E2 & Hi2 & Hb & Hd & Hrc). rewrite E in E2. simplify_eq.
    eapply shows_becomes; try done; [by intros Hn; rewrite Hd, HV|]. intros m. by rewrite Hrc, HR.
  - destruct IH as (Hi & HV & HR). rewrite <- HR in Hr. destruct (poke_run c M n i off data Hi Hr Ei Ho Hl) as (b & c2 & E2 & Hi2 & Hb & Hd & Hrc). rewrite E in E2. simplify_eq.
    eapply shows_becomes; try done; [|intros m Hne; unfold upd; by rewrite decide_False|intros m; rewrite Hrc, HR; unfold upd; by case_decide; [subst|]].
    intros Hn. unfold upd. by rewrite decide_True, Hd, HV.
  - destruct IH as (Hi & HV & HR). rewrite <- HR in Hr. destruct (bcache_mark_dirty_run c M n Hi Hr) as (b & c2 & E2 & Hi2 & Hb & Hd & Hrc). rewrite E in E2. simplify_eq.
    eapply shows_becomes; try done; [by intros Hn; rewrite Hd, HV|]. intros m. rewrite Hrc, HR. unfold upd. by case_decide; [subst|].
  - destruct IH as (Hi & HV & HR). destruct (bcache_zero_block_run c M n Hi Ha) as (c2 & E2 & Hi2 & Z1 & Z2 & Z3 & Z4 & _). rewrite E in E2. simplify_eq.
    split; [done|]. split; [|intros m; by rewrite Z4]. intros m Hm%Z1. rewrite Z3 by done. unfold upd. case_decide; auto.
  - destruct (bcache_flush_run c M (proj1 IH)) as (c2 & E2 & Hi2 & Hs2 & _). rewrite E in E2. simplify_eq. by eapply shows_same.
Qed.
End callers.

(** C5: over a device that does not fail, the cache refines an array of blocks, in
    whatever order its callers read, hold, change, mark, release, zero and flush
    blocks and whatever it evicts for them: reading a block returns it as its
    callers have left it; the calls a caller may make return and leave the
    assertions of the cache true; and a flush puts every block on the device as
    its callers have left it, but for those changed and not marked dirty yet. *)
Theorem bcache_refines `{KConfig} {D : Type} `{!BlockBytes D} `{!BlockBytesLaws D} `{!ReliableDevice D} (c : bcache D) V R M :
  bc_reach c V R M ->
  (forall n, available c n -> exists c', bcache_read_block n c = Some (inr (0, V n), c')) /\
  (forall n, available c n -> R n < 2 ^ 31 - 1 -> exists i c', bcache_get_block n c = Some (inr (0, Some i), c') /\ idx c' n = Some i) /\
  (forall n, 0 < R n -> n ∉ M \/ 1 < R n -> exists c', bcache_put_block n c = Some (inr 0, c')) /\
  (forall n, 0 < R n -> exists c', bcache_mark_block_dirty n c = Some (inr 0, c')) /\
  (forall n, available c n -> exists c', bcache_zero_block n c = Some (inr 0, c')) /\
  (exists c', bcache_flush c = Some (inr 0, c') /\
     forall n, on_disk c n -> n ∉ M -> get_bytes (n * bc_block_size c) (bc_block_size c) (bl_content (bc_dev c')) = V n).
Proof.
  intros (Hi & HV & HR)%bc_reach_shows. split_and!.
  - intros n Ha. destruct (bcache_read_block_run c M n Hi Ha) as (c' & E & _). exists c'. rewrite <- HV by apply Ha. done.
  - intros n Ha Hr. rewrite <- HR in Hr. destruct (bcache_get_block_run c M n Hi Ha Hr) as (i & b & c' & E & _ & _ & Ei & _). by exists i, c'.
  - intros n Hr HM. rewrite <- HR in Hr, HM. destruct (bcache_put_block_run c M n Hi Hr HM) as (b & c' & E & _). by exists c'.
  - intros n Hr. rewrite <- HR in Hr. destruct (bcache_mark_dirty_run c M n Hi Hr) as (b & c' & E & _). by exists c'.
  - intros n Ha. destruct (bcache_zero_block_run c M n Hi Ha) as (c' & E & _). by exists c'.
  - destruct (bcache_flush_run c M Hi) as (c' & E & _ & Hs & Hd). exists c'. split; [done|]. intros n Hn HM. rewrite <- HV by done.
    rewrite <- (Hd n Hn HM). unfold disk. by rewrite (bs_size _ _ Hs).
Qed.

(** A cache of one block over a memory of four: reading the third block evicts the
    second one, which was zeroed. *)
Module bcache_demo.
#[local] Existing Instance registry_demo.cfg.
Definition c0 : bcache mem.mem_bdev := bcache_create mem_demo.m0 512 [(0, 4096, replicate 512 9)].
Definition state {A} (r : option ((Z + A) * bcache mem.mem_bdev)) : bcache mem.mem_bdev := match r with Some (_, c) => c | None => c0 end.
Definition c1 : bcache mem.mem_bdev := state (bcache_zero_block 1 c0).
Definition c2 : bcache mem.mem_bdev := state (bcache_read_block 2 c1).
End bcache_demo.

Lemma bcache_demo_reach :
  bc_reach (H := registry_demo.cfg) bcache_demo.c2 (upd (disk bcache_demo.c0) 1 (replicate 512 0)) (fun _ => 0) (∅ ∖ {[1]}).
Proof.
  apply (br_read (H := registry_demo.cfg) bcache_demo.c1 _ _ _ 2 (0, replicate 512 7)); [| |vm_compute; reflexivity].
  - apply (br_zero (H := registry_demo.cfg) bcache_demo.c0 _ _ _ 1 0); [| |vm_compute; reflexivity].
    + apply br_create; [exact mem_demo_ok|lia|]. by constructor.
    + split; [split_and!; vm_compute; done|]. right. left. vm_compute. done.
  - split; [split_and!; vm_compute; done|]. right. right. eexists 0%nat, _. split_and!; [vm_compute; left|vm_compute; reflexivity|reflexivity].
Qed.

Lemma bcache_demo_disk : on_disk bcache_demo.c2 1 /\ on_disk bcache_demo.c2 2.
Proof. split; split_and!; vm_compute; done. Qed.
Lemma bcache_demo_marked (n : Z) : n ∉ (∅ ∖ {[1]} : gset Z).
Proof. set_solver. Qed.

Lemma bcache_refines_witness : exists c', bcache_flush (H := registry_demo.cfg) bcache_demo.c2 = Some (inr 0, c') /\
  get_bytes 512 512 (mem_content (bc_dev c')) = replicate 512 0 /\ get_bytes 1024 512 (mem_content (bc_dev c')) = replicate 512 7.
Proof.
  destruct (bcache_refines (H := registry_demo.cfg) bcache_demo.c2 _ _ _ bcache_demo_reach) as (_ & _ & _ & _ & _ & c' & E & Hd). exists c'. split; [exact E|].
  split; [exact (Hd 1 (proj1 bcache_demo_disk) (bcache_demo_marked 1))|].
  etrans; [exact (Hd 2 (proj2 bcache_demo_disk) (bcache_demo_marked 2))|vm_compute; reflexivity].
Defined.
