(* ===== verification/Cstring.v ===== *)
(** * Memory as C code sees it, for the models of [lib/libc]

    Memory is a finite map from addresses to bytes; an address without an entry
    is not mapped, and an access to it is a fault ([None]).  Accesses of a whole
    [long] need an aligned address.  The value of a [long] is the list of its
    eight bytes, in the order of their addresses.

    [rd] and [wr] are reading and writing of whole ranges: the functions of the
    library are proved equal to their use, which says in one equation what they
    store and that they change nothing else. *)
From S2P Require Import Prelude.

Abbreviation cmem := (gmap Z Z).

Definition cm (A : Type) : Type := cmem -> option (A * cmem).
Definition cm_ret {A} (x : A) : cm A := fun m => Some (x, m).
Definition cm_bind {A B} (f : A -> cm B) (c : cm A) : cm B := fun m =>
  match c m with Some (x, m) => f x m | None => None end.
#[export] Instance cm_mret : MRet cm := @cm_ret.
#[export] Instance cm_mbind : MBind cm := @cm_bind.

Definition fault {A} : cm A := fun _ => None.
Definition ld (a : Z) : cm Z := fun m => v ← m !! a; Some (v, m).
Definition st (a v : Z) : cm unit := fun m => _ ← m !! a; Some ((), <[a := u8 v]> m).

(** ** Ranges *)
Definition rd (m : cmem) (a n : Z) : list Z := (fun i => default 0 (m !! (a + i))) <$> seqZ 0 n.
Fixpoint wr (a : Z) (l : list Z) (m : cmem) : cmem :=
  match l with
  | [] => m
  | v :: l => <[a := v]> (wr (a + 1) l m)
  end.
#[global] Arguments rd : simpl never.
Definition mapped (m : cmem) (a n : Z) : Prop := forall x, a <= x < a + n -> is_Some (m !! x).
(** The entries are bytes. *)
Definition bytes (m : cmem) : Prop := map_Forall (fun _ v => 0 <= v < 256) m.

#[export] Instance mapped_dec m a n : Decision (mapped m a n).
Proof.
  refine (cast_if (decide (Forall (fun x => is_Some (m !! x)) (seqZ a n)))).
  - intros x Hx. apply (proj1 (Forall_forall _ _) f), elem_of_seqZ. lia.
  - intros Hm. apply n0, Forall_forall. intros x Hx. apply elem_of_seqZ in Hx. apply Hm. lia.
Defined.

#[export] Instance bytes_dec m : Decision (bytes m).
Proof. unfold bytes. apply _. Defined.

(** A decidable fact about a concrete memory, by computation *)
Ltac decide_now :=
  match goal with |- ?P => refine (proj1 (bool_decide_eq_true P) _); vm_compute; reflexivity end.

(** ** Words: [*(long * )a] *)
Definition sizeof_long : Z := 8.
Definition ldw (a : Z) : cm (list Z) := fun m =>
  if bool_decide (a mod sizeof_long = 0 /\ mapped m a sizeof_long) then Some (rd m a sizeof_long, m) else None.
Definition stw (a : Z) (w : list Z) : cm unit := fun m =>
  if bool_decide (a mod sizeof_long = 0 /\ mapped m a sizeof_long) then Some ((), wr a w m) else None.

(** Loops that end on what they find in memory are cut after more rounds than
    there are bytes. *)
Definition with_fuel {A} (f : nat -> cm A) : cm A := fun m => f (S (size m)) m.

(** ** Lemmas *)
Lemma length_rd m a n : length (rd m a n) = Z.to_nat n.
Proof. unfold rd. by rewrite length_fmap, length_seqZ. Qed.

Lemma lookup_rd m a n i :
  rd m a n !! i = if decide (Z.of_nat i < n) then Some (default 0 (m !! (a + Z.of_nat i))) else None.
Proof.
  unfold rd. rewrite list_lookup_fmap. case_decide.
  - rewrite lookup_seqZ_lt by lia. simpl. by rewrite Z.add_0_l.
  - rewrite lookup_seqZ_ge by lia. done.
Qed.

Lemma lookup_wr a l m x :
  wr a l m !! x = if decide (a <= x < a + Z.of_nat (length l)) then l !! Z.to_nat (x - a) else m !! x.
Proof.
  revert a. induction l as [|v l IH]; intros a; simpl.
  - case_decide; [lia|done].
  - destruct (decide (x = a)) as [->|Hne].
    + rewrite lookup_insert_eq. rewrite Z.sub_diag. case_decide; [done|lia].
    + rewrite lookup_insert_ne, IH by done. repeat case_decide; try lia; [|done].
      replace (Z.to_nat (x - a)) with (S (Z.to_nat (x - (a + 1)))) by lia. done.
Qed.

Lemma rd_0 m a n : n <= 0 -> rd m a n = [].
Proof. intros. unfold rd. rewrite seqZ_nil by lia. done. Qed.

Lemma rd_succ m a n : 0 < n -> rd m a n = default 0 (m !! a) :: rd m (a + 1) (n - 1).
Proof.
  intros Hn. apply list_eq. intros [|i]; rewrite lookup_rd; simpl.
  - case_decide; [|lia]. by rewrite Z.add_0_r.
  - rewrite lookup_rd. repeat case_decide; try lia; [|done]. do 3 f_equal. lia.
Qed.

Lemma rd_app m a n k : 0 <= n -> 0 <= k -> rd m a (n + k) = rd m a n ++ rd m (a + n) k.
Proof.
  intros. apply list_eq. intros i. rewrite lookup_app, !lookup_rd, length_rd.
  repeat case_decide; simpl; try done; try lia. do 3 f_equal. lia.
Qed.

Lemma rd_ext m m' a n : (forall x, a <= x < a + n -> m' !! x = m !! x) -> rd m' a n = rd m a n.
Proof.
  intros He. apply list_eq. intros i. rewrite !lookup_rd. case_decide; [|done]. rewrite He by lia. done.
Qed.

Lemma wr_app a l1 l2 m : wr a (l1 ++ l2) m = wr a l1 (wr (a + Z.of_nat (length l1)) l2 m).
Proof.
  revert a. induction l1 as [|v l1 IH]; intros a; simpl.
  - by rewrite Z.add_0_r.
  - rewrite IH. do 3 f_equal. lia.
Qed.

Lemma wr_wr_comm a l b k m :
  a + Z.of_nat (length l) <= b \/ b + Z.of_nat (length k) <= a -> wr a l (wr b k m) = wr b k (wr a l m).
Proof.
  intros. apply map_eq. intros x. rewrite !lookup_wr. repeat case_decide; try done; lia.
Qed.

Lemma mapped_sub m a n b k : mapped m a n -> a <= b -> b + k <= a + n -> mapped m b k.
Proof. intros Hm ?? x ?. apply Hm. lia. Qed.

Lemma mapped_wr m a l b n : mapped m b n -> mapped (wr a l m) b n.
Proof.
  intros Hm x Hx. rewrite lookup_wr. case_decide; [|by apply Hm].
  apply lookup_lt_is_Some. lia.
Qed.

Lemma mapped_lookup m a n : mapped m a n -> 0 < n -> m !! a = Some (default 0 (m !! a)).
Proof. intros Hm ?. destruct (Hm a) as [v ->]; [lia|done]. Qed.

Lemma rd_wr_same a l m : rd (wr a l m) a (Z.of_nat (length l)) = l.
Proof.
  apply list_eq. intros i. rewrite lookup_rd, lookup_wr. case_decide.
  - case_decide; [|lia]. replace (Z.to_nat (a + Z.of_nat i - a)) with i by lia.
    destruct (l !! i) eqn:E; [done|]. apply lookup_ge_None in E. lia.
  - symmetry. apply lookup_ge_None. lia.
Qed.

Lemma rd_wr_other a l m b n :
  b + n <= a \/ a + Z.of_nat (length l) <= b -> rd (wr a l m) b n = rd m b n.
Proof. intros. apply rd_ext. intros x Hx. rewrite lookup_wr. case_decide; [lia|done]. Qed.

Lemma wr_rd_id m a n : mapped m a n -> wr a (rd m a n) m = m.
Proof.
  intros Hm. apply map_eq. intros x. rewrite lookup_wr. case_decide as Hx; [|done].
  rewrite length_rd in Hx. rewrite lookup_rd, decide_True by lia.
  destruct (Hm x) as [v Hv]; [lia|]. replace (a + Z.of_nat (Z.to_nat (x - a))) with x by lia. by rewrite Hv.
Qed.

Lemma bytes_default m x : bytes m -> 0 <= default 0 (m !! x) < 256.
Proof. intros Hb. destruct (m !! x) as [v|] eqn:E; simpl; [by apply (Hb x)|lia]. Qed.

Lemma bytes_insert m a v : bytes m -> 0 <= v < 256 -> bytes (<[a := v]> m).
Proof. intros. by apply map_Forall_insert_2. Qed.

Lemma bytes_wr m a l : bytes m -> Forall (fun v => 0 <= v < 256) l -> bytes (wr a l m).
Proof.
  intros Hb Hl x v. rewrite lookup_wr. case_decide; [|apply Hb].
  intros Hv. by apply (proj1 (Forall_lookup _ l) Hl) in Hv.
Qed.

Lemma bytes_rd m a n : bytes m -> Forall (fun v => 0 <= v < 256) (rd m a n).
Proof.
  intros Hb. apply Forall_lookup. intros i v. rewrite lookup_rd. case_decide; [|done].
  intros [= <-]. by apply bytes_default.
Qed.

(** The steps of the monad, as equations *)
Lemma bind_ret {A B} (x : A) (f : A -> cm B) m : (mret x ≫= f) m = f x m.
Proof. done. Qed.
Lemma bind_run {A B} (c : cm A) (f : A -> cm B) m x m' : c m = Some (x, m') -> (c ≫= f) m = f x m'.
Proof. intros E. unfold mbind, cm_mbind, cm_bind. by rewrite E. Qed.
Lemma bind_fault {A B} (c : cm A) (f : A -> cm B) m : c m = None -> (c ≫= f) m = None.
Proof. intros E. unfold mbind, cm_mbind, cm_bind. by rewrite E. Qed.
Lemma bind_ld {B} a (f : Z -> cm B) m v : m !! a = Some v -> (ld a ≫= f) m = f v m.
Proof. intros E. apply bind_run. unfold ld. by rewrite E. Qed.
Lemma bind_st {B} a v (f : unit -> cm B) m : is_Some (m !! a) -> 0 <= v < 256 -> (st a v ≫= f) m = f () (<[a := v]> m).
Proof. intros [w E] ?. apply bind_run. unfold st. rewrite E. simpl. by rewrite wrap_small by lia. Qed.
Lemma bind_ldw {B} a (f : list Z -> cm B) m :
  a mod 8 = 0 -> mapped m a 8 -> (ldw a ≫= f) m = f (rd m a 8) m.
Proof. intros. apply bind_run. unfold ldw. by rewrite bool_decide_true. Qed.
Lemma bind_stw {B} a w (f : unit -> cm B) m :
  a mod 8 = 0 -> mapped m a 8 -> (stw a w ≫= f) m = f () (wr a w m).
Proof. intros. apply bind_run. unfold stw. by rewrite bool_decide_true. Qed.

Lemma stw_unaligned a w m : a mod 8 <> 0 -> stw a w m = None.
Proof. intros Ha. unfold stw. rewrite bool_decide_false; [done|]. by intros [? _]. Qed.

#[global] Opaque ldw stw.

(** More bytes are mapped than a range has. *)
Lemma mapped_size m a n : mapped m a n -> n <= Z.of_nat (size m).
Proof.
  intros Hm. destruct (decide (n < 0)); [lia|].
  assert (list_to_set (seqZ a n) ⊆ (dom m : gset Z)) as Hs.
  { intros x Hx. apply elem_of_list_to_set, elem_of_seqZ in Hx. apply elem_of_dom, Hm. lia. }
  apply subseteq_size in Hs. rewrite size_list_to_set in Hs by apply NoDup_seqZ.
  rewrite length_seqZ, size_dom in Hs. lia.
Qed.

(** ** Strings: the bytes of [l] and a zero behind them *)
Definition is_char (v : Z) : Prop := 0 < v < 256.
Record cstr (m : cmem) (s : Z) (l : list Z) : Prop := CStr {
  cs_chars : Forall is_char l;
  cs_bytes : forall i v, l !! i = Some v -> m !! (s + Z.of_nat i) = Some v;
  cs_end : m !! (s + Z.of_nat (length l)) = Some 0;
}.

Lemma cstr_mapped m s l : cstr m s l -> mapped m s (Z.of_nat (length l) + 1).
Proof.
  intros [_ Hb He] x Hx. destruct (decide (x = s + Z.of_nat (length l))) as [->|]; [eauto|].
  destruct (lookup_lt_is_Some_2 l (Z.to_nat (x - s))) as [v Hv]; [lia|].
  apply Hb in Hv. replace (s + Z.of_nat (Z.to_nat (x - s))) with x in Hv by lia. eauto.
Qed.

Lemma cstr_fuel m s l : cstr m s l -> (length l < S (size m))%nat.
Proof. intros Hc. apply cstr_mapped, mapped_size in Hc. lia. Qed.

Lemma cstr_cons m s c l : cstr m s (c :: l) <-> is_char c /\ m !! s = Some c /\ cstr m (s + 1) l.
Proof.
  split.
  - intros [Hc Hb He]. inversion Hc; subst. split; [done|]. split.
    + specialize (Hb 0%nat c eq_refl). by rewrite Z.add_0_r in Hb.
    + split; [done| |].
      * intros i v Hi. specialize (Hb (S i) v Hi). rewrite <- Hb. f_equal. lia.
      * rewrite <- He. f_equal. simpl. lia.
  - intros (Hc & Hs & [Hcs Hb He]). split; [by constructor| |].
    + intros [|i] v Hi; simpl in Hi; [injection Hi as <-; by rewrite Z.add_0_r|].
      apply Hb in Hi. rewrite <- Hi. f_equal. lia.
    + rewrite <- He. f_equal. simpl. lia.
Qed.

Lemma cstr_nil m s : cstr m s [] <-> m !! s = Some 0.
Proof.
  split; [intros [_ _ He]; by rewrite Z.add_0_r in He|].
  intros He. split; [done|done|]. by rewrite Z.add_0_r.
Qed.

Lemma cstr_app m s l1 l2 : cstr m s (l1 ++ l2) -> cstr m (s + Z.of_nat (length l1)) l2.
Proof.
  revert s. induction l1 as [|c l1 IH]; intros s; simpl; [by rewrite Z.add_0_r|].
  intros (_ & _ & Hc)%cstr_cons. apply IH in Hc. by replace (s + Z.of_nat (S (length l1))) with (s + 1 + Z.of_nat (length l1)) by lia.
Qed.

Lemma cstr_ext m m' s l :
  (forall x, s <= x <= s + Z.of_nat (length l) -> m' !! x = m !! x) -> cstr m s l -> cstr m' s l.
Proof.
  intros He [Hc Hb Hz]. split; [done| |].
  - intros i v Hi. rewrite He; [by apply Hb|]. apply lookup_lt_Some in Hi. lia.
  - rewrite He by lia. done.
Qed.

Lemma cstr_wr m s l : Forall is_char l -> cstr (wr s (l ++ [0]) m) s l.
Proof.
  intros Hl. split; [done| |].
  - intros i v Hi. pose proof (lookup_lt_Some _ _ _ Hi).
    rewrite lookup_wr, length_app, decide_True by (simpl; lia).
    replace (Z.to_nat (s + Z.of_nat i - s)) with i by lia. by apply lookup_app_l_Some.
  - rewrite lookup_wr, length_app, decide_True by (simpl; lia).
    replace (Z.to_nat (s + Z.of_nat (length l) - s)) with (length l) by lia.
    by rewrite lookup_app_r, Nat.sub_diag by lia.
Qed.

(** A string has one contents. *)
Lemma cstr_unique m s l1 l2 : cstr m s l1 -> cstr m s l2 -> l1 = l2.
Proof.
  revert s l2. induction l1 as [|c l1 IH]; intros s [|c' l2]; rewrite ?cstr_cons, ?cstr_nil; try done.
  - intros H0 (Hc & Hs & _). rewrite H0 in Hs. injection Hs as <-. destruct Hc. lia.
  - intros (Hc & Hs & _) H0. rewrite H0 in Hs. injection Hs as <-. destruct Hc. lia.
  - intros (_ & Hs & Ht) (_ & Hs' & Ht'). rewrite Hs in Hs'. injection Hs' as <-. f_equal. eauto.
Qed.

#[export] Instance cstr_dec m s l : Decision (cstr m s l).
Proof.
  refine (cast_if (decide (Forall is_char l /\ Forall (fun i => m !! (s + Z.of_nat i) = l !! i) (seq 0 (length l)) /\
    m !! (s + Z.of_nat (length l)) = Some 0))).
  - destruct a as (Hc & Hb & He). split; [done| |done]. intros i v Hi.
    rewrite <- Hi. apply (proj1 (Forall_forall _ _) Hb i), elem_of_seq. apply lookup_lt_Some in Hi. lia.
  - intros [Hc Hb He]. apply n. split; [done|]. split; [|done]. apply Forall_forall. intros i Hi.
    apply elem_of_seq in Hi. destruct (lookup_lt_is_Some_2 l i) as [v Hv]; [lia|]. rewrite Hv. by apply Hb.
Defined.

(** * Strings and memory blocks: the code of [lib/libc/ctype.c] and [lib/libc/string]

    The portable C versions, on the memory above.  Pointers are addresses, 0 is
    [NULL].  Whether plain [char] is signed depends on the processor
    ([char_signed]).  The state of [strtok] is passed along. *)

(** ** Characters, [ctype.c] *)
Definition isblank (c : Z) : bool := (c =? 32) || (c =? 9).
Definition isspace (c : Z) : bool :=
  (c =? 32) || (c =? 12) || (c =? 10) || (c =? 13) || (c =? 9) || (c =? 11).
Definition islower (c : Z) : bool := (97 <=? c) && (c <=? 122).
Definition isupper (c : Z) : bool := (65 <=? c) && (c <=? 90).
Definition isdigit (c : Z) : bool := (48 <=? c) && (c <=? 57).
Definition isalpha (c : Z) : bool := isupper c || islower c.
Definition isalnum (c : Z) : bool := isalpha c || isdigit c.
Definition isxdigit (c : Z) : bool :=
  isdigit c || ((97 <=? c) && (c <=? 102)) || ((65 <=? c) && (c <=? 70)).
Definition isgraph (c : Z) : bool := (32 <? c) && (c <? 127).
Definition iscntrl (c : Z) : bool := (c <? 32) || (c =? 127).
Definition isprint (c : Z) : bool := (32 <=? c) && (c <? 127).
Definition ispunct (c : Z) : bool := isgraph c && negb (isalnum c).
Definition tolower (c : Z) : Z := if (65 <=? c) && (c <=? 90) then c + (97 - 65) else c.
Definition toupper (c : Z) : Z := if (97 <=? c) && (c <=? 122) then c + (65 - 97) else c.

(** ** Blocks of memory *)
Definition lsize : Z := sizeof_long.
Definition lmask : Z := lsize - 1.

(** [for (; len > 0; len--) *d++ = *s++;] *)
Fixpoint bytes_up (len : nat) (d s : Z) : cm (Z * Z) :=
  match len with
  | O => mret (d, s)
  | S len => c ← ld s; st d c;; bytes_up len (d + 1) (s + 1)
  end.
Fixpoint words_up (len : nat) (d s : Z) : cm (Z * Z) :=
  match len with
  | O => mret (d, s)
  | S len => w ← ldw s; stw d w;; words_up len (d + lsize) (s + lsize)
  end.
(** [for (; len > 0; len--) *--d = *--s;] *)
Fixpoint bytes_down (len : nat) (d s : Z) : cm (Z * Z) :=
  match len with
  | O => mret (d, s)
  | S len => c ← ld (s - 1); st (d - 1) c;; bytes_down len (d - 1) (s - 1)
  end.
Fixpoint words_down (len : nat) (d s : Z) : cm (Z * Z) :=
  match len with
  | O => mret (d, s)
  | S len => w ← ldw (s - lsize); stw (d - lsize) w;; words_down len (d - lsize) (s - lsize)
  end.

(** The copy from the lower end: bytes up to where both pointers are aligned, or
    all when they never are; words; the bytes left. *)
Definition copy_up (d s count : Z) : cm unit :=
  '(d, s, count) ←
    (if negb (Z.land (Z.lor d s) lmask =? 0) then
       let len := s32 (if negb (Z.land (Z.lxor d s) lmask =? 0) || (count <? lsize)
                       then count else lsize - Z.land d lmask) in
       let count := u64 (count - len) in
       '(d, s) ← bytes_up (Z.to_nat len) d s; mret (d, s, count)
     else mret (d, s, count));
  '(d, s) ← words_up (Z.to_nat (s32 (count / lsize))) d s;
  bytes_up (Z.to_nat (s32 (Z.land count lmask))) d s;; mret ().

(** The copy from the upper end. *)
Definition copy_down (d s count : Z) : cm unit :=
  let d := d + count in
  let s := s + count in
  '(d, s, count) ←
    (if negb (Z.land (Z.lor d s) lmask =? 0) then
       let len := s32 (if negb (Z.land (Z.lxor d s) lmask =? 0) || (count <=? lsize)
                       then count else Z.land d lmask) in
       let count := u64 (count - len) in
       '(d, s) ← bytes_down (Z.to_nat len) d s; mret (d, s, count)
     else mret (d, s, count));
  '(d, s) ← words_down (Z.to_nat (s32 (count / lsize))) d s;
  bytes_down (Z.to_nat (s32 (Z.land count lmask))) d s;; mret ().

Definition memcpy (dest src count : Z) : cm Z :=
  if (count =? 0) || (dest =? src) then mret dest
  else copy_up dest src count;; mret dest.

Definition memmove (dest src count : Z) : cm Z :=
  if (count =? 0) || (dest =? src) then mret dest
  else if to_signed 64 dest <? to_signed 64 src
  then copy_up dest src count;; mret dest
  else copy_down dest src count;; mret dest.

Definition bcopy (src dest count : Z) : cm unit := memcpy dest src count;; mret ().

(** The bytes of a [size_t], the lowest first. *)
Definition word_bytes (v : Z) : list Z := (fun i => u8 (Z.shiftr v (8 * i))) <$> seqZ 0 sizeof_long.

Fixpoint fill_bytes (len : nat) (xs c : Z) : cm Z :=
  match len with
  | O => mret xs
  | S len => st xs c;; fill_bytes len (xs + 1) c
  end.
Fixpoint fill_words (len : nat) (xs cc : Z) : cm Z :=
  match len with
  | O => mret xs
  | S len => stw xs (word_bytes cc);; fill_words len (xs + sizeof_long) cc
  end.

Definition memset (s c count : Z) : cm Z :=
  let len := Z.land (u64 (- s)) (sizeof_long - 1) in
  let cc := Z.land c 255 in
  '(xs, count) ←
    (if len <? count then
       let count := u64 (count - len) in
       let cc := u64 (Z.lor cc (Z.shiftl cc 8)) in
       let cc := u64 (Z.lor cc (Z.shiftl cc 16)) in
       let cc := u64 (Z.lor cc (Z.shiftl cc 32)) in
       xs ← fill_bytes (Z.to_nat len) s c;
       xs ← fill_words (Z.to_nat (count / sizeof_long)) xs cc;
       mret (xs, Z.land count (sizeof_long - 1))
     else mret (s, count));
  fill_bytes (Z.to_nat count) xs c;; mret s.

Definition bzero (dst count : Z) : cm unit := memset dst 0 count;; mret ().

Fixpoint memchr_loop (fuel : nat) (b x i len : Z) : cm Z :=
  match fuel with
  | O => fault
  | S fuel =>
      if i <? len then
        v ← ld (b + i);
        if v =? x then mret (b + i) else memchr_loop fuel b x (i + 1) len
      else mret 0
  end.
Definition memchr (buf c len : Z) : cm Z := with_fuel (fun fuel => memchr_loop fuel buf (Z.land c 255) 0 len).

Fixpoint memscan_loop (fuel : nat) (p c size : Z) : cm Z :=
  match fuel with
  | O => fault
  | S fuel =>
      if size =? 0 then mret p
      else v ← ld p; if v =? c then mret p else memscan_loop fuel (p + 1) c (size - 1)
  end.
Definition memscan (addr c size : Z) : cm Z := with_fuel (fun fuel => memscan_loop fuel addr c size).

(** [res] is a [signed char]. *)
Fixpoint memcmp_loop (fuel : nat) (su1 su2 count res : Z) : cm Z :=
  match fuel with
  | O => fault
  | S fuel =>
      if 0 <? count then
        a ← ld su1; b ← ld su2;
        let res := to_signed 8 (a - b) in
        if negb (res =? 0) then mret res else memcmp_loop fuel (su1 + 1) (su2 + 1) (count - 1) res
      else mret res
  end.
Definition memcmp (cs ct count : Z) : cm Z := with_fuel (fun fuel => memcmp_loop fuel cs ct count 0).
Definition bcmp (cs ct count : Z) : cm Z := memcmp cs ct count.

(** ** Strings *)
Fixpoint strlen_loop (fuel : nat) (s i : Z) : cm Z :=
  match fuel with
  | O => fault
  | S fuel => c ← ld (s + i); if c =? 0 then mret i else strlen_loop fuel s (i + 1)
  end.
Definition strlen (s : Z) : cm Z := with_fuel (fun fuel => strlen_loop fuel s 0).

Fixpoint strnlen_loop (fuel : nat) (sc count : Z) : cm Z :=
  match fuel with
  | O => fault
  | S fuel =>
      if count =? 0 then mret sc
      else c ← ld sc; if c =? 0 then mret sc else strnlen_loop fuel (sc + 1) (count - 1)
  end.
Definition strnlen (s count : Z) : cm Z :=
  sc ← with_fuel (fun fuel => strnlen_loop fuel s count); mret (sc - s).

(** [while (( *dest++ = *src++) != 0);] *)
Fixpoint strcpy_loop (fuel : nat) (dest src : Z) : cm unit :=
  match fuel with
  | O => fault
  | S fuel => c ← ld src; st dest c;; if c =? 0 then mret () else strcpy_loop fuel (dest + 1) (src + 1)
  end.
Definition strcpy (dest src : Z) : cm Z := with_fuel (fun fuel => strcpy_loop fuel dest src);; mret dest.

(** [while ( *dest) dest++;] *)
Fixpoint str_end (fuel : nat) (dest : Z) : cm Z :=
  match fuel with
  | O => fault
  | S fuel => c ← ld dest; if c =? 0 then mret dest else str_end fuel (dest + 1)
  end.
Definition strcat (dest src : Z) : cm Z :=
  e ← with_fuel (fun fuel => str_end fuel dest);
  with_fuel (fun fuel => strcpy_loop fuel e src);; mret dest.

(** The first loop of [strncpy]: where it leaves [dest] and [i]. *)
Fixpoint strncpy_loop (fuel : nat) (dest src i count : Z) : cm (Z * Z) :=
  match fuel with
  | O => fault
  | S fuel =>
      if i <? count then
        c ← ld src; st dest c;;
        if c =? 0 then mret (dest + 1, i + 1) else strncpy_loop fuel (dest + 1) (src + 1) (i + 1) count
      else mret (dest, i + 1)
  end.
Definition strncpy (dest src count : Z) : cm Z :=
  '(d, i) ← with_fuel (fun fuel => strncpy_loop fuel dest src 0 count);
  fill_bytes (Z.to_nat (count - i)) d 0;; mret dest.

Fixpoint strncat_loop (fuel : nat) (dest src count : Z) : cm unit :=
  match fuel with
  | O => fault
  | S fuel =>
      c ← ld src; st dest c;;
      if c =? 0 then mret ()
      else if count - 1 =? 0 then st (dest + 1) 0
      else strncat_loop fuel (dest + 1) (src + 1) (count - 1)
  end.
Definition strncat (dest src count : Z) : cm Z :=
  if 0 <? count then
    e ← with_fuel (fun fuel => str_end fuel dest);
    with_fuel (fun fuel => strncat_loop fuel e src count);; mret dest
  else mret dest.

(** The copying loop of [strlcpy] and [strlcat]: the final [i]. *)
Fixpoint strl_loop (fuel : nat) (dst src s i : Z) : cm Z :=
  match fuel with
  | O => fault
  | S fuel =>
      if i <? s - 1 then
        c ← ld (src + i);
        if c =? 0 then mret i else st (dst + i) c;; strl_loop fuel dst src s (i + 1)
      else mret i
  end.
Definition strlcpy (dst src s : Z) : cm Z :=
  if s =? 0 then strlen src
  else
    i ← with_fuel (fun fuel => strl_loop fuel dst src s 0);
    st (dst + i) 0;;
    n ← strlen (src + i); mret (i + n).
Definition strlcat (dst src s : Z) : cm Z :=
  j ← strnlen dst s;
  if s =? 0 then n ← strlen src; mret (j + n)
  else
    let dst := dst + j in
    i ← with_fuel (fun fuel => strl_loop fuel dst src s 0);
    st (dst + i) 0;;
    n ← strlen (src + i); mret (j + i + n).

Fixpoint strchr_loop (fuel : nat) (s c : Z) : cm Z :=
  match fuel with
  | O => fault
  | S fuel => v ← ld s; if v =? c then mret s else if v =? 0 then mret 0 else strchr_loop fuel (s + 1) c
  end.
Definition strchr (s c : Z) : cm Z := with_fuel (fun fuel => strchr_loop fuel s (u8 c)).

Definition strstr_step (s1 s2 l2 : Z) : cm bool := r ← memcmp s1 s2 (u64 l2); mret (r =? 0).
Fixpoint strstr_loop (fuel : nat) (s1 s2 l1 l2 : Z) : cm Z :=
  match fuel with
  | O => fault
  | S fuel =>
      if l2 <=? l1 then
        b ← strstr_step s1 s2 l2;
        if (b : bool) then mret s1 else strstr_loop fuel (s1 + 1) s2 (l1 - 1) l2
      else mret 0
  end.
Definition strstr (s1 s2 : Z) : cm Z :=
  n2 ← strlen s2;
  let l2 := s32 n2 in
  if l2 =? 0 then mret s1
  else
    n1 ← strlen s1;
    let l1 := s32 n1 in
    with_fuel (fun fuel => strstr_loop fuel s1 s2 l1 l2).

(** The inner loop of [strspn] and [strpbrk]: whether [v] is in the string. *)
Fixpoint in_set (fuel : nat) (a v : Z) : cm bool :=
  match fuel with
  | O => fault
  | S fuel => w ← ld a; if w =? 0 then mret false else if v =? w then mret true else in_set fuel (a + 1) v
  end.
Fixpoint strspn_loop (fuel : nat) (p accept count : Z) : cm Z :=
  match fuel with
  | O => fault
  | S fuel =>
      v ← ld p;
      if v =? 0 then mret count
      else
        b ← with_fuel (fun f => in_set f accept v);
        if (b : bool) then strspn_loop fuel (p + 1) accept (count + 1) else mret count
  end.
Definition strspn (s accept : Z) : cm Z := with_fuel (fun fuel => strspn_loop fuel s accept 0).

Fixpoint strpbrk_loop (fuel : nat) (sc1 ct : Z) : cm Z :=
  match fuel with
  | O => fault
  | S fuel =>
      v ← ld sc1;
      if v =? 0 then mret 0
      else
        b ← with_fuel (fun f => in_set f ct v);
        if (b : bool) then mret sc1 else strpbrk_loop fuel (sc1 + 1) ct
  end.
Definition strpbrk (cs ct : Z) : cm Z := with_fuel (fun fuel => strpbrk_loop fuel cs ct).

(** The token, and what [___strtok] becomes. *)
Definition strtok (saved s ct : Z) : cm (Z * Z) :=
  let sbegin := if negb (s =? 0) then s else saved in
  if sbegin =? 0 then mret (0, saved)
  else
    n ← strspn sbegin ct;
    let sbegin := sbegin + n in
    v ← ld sbegin;
    if v =? 0 then mret (0, 0)
    else
      send ← strpbrk sbegin ct;
      send ← (if negb (send =? 0) then
                w ← ld send;
                if negb (w =? 0) then st send 0;; mret (send + 1) else mret send
              else mret send);
      mret (sbegin, send).

Definition strxfrm (dest src n : Z) : cm Z :=
  len ← strlen src;
  if negb (n =? 0) then
    let copy_len := if len <? n then len else n - 1 in
    memcpy dest src copy_len;;
    st (dest + copy_len) 0;; mret len
  else mret len.

Definition strerror (errnum : Z) : string := if errnum <? 0 then "General Error" else "No Error".

Definition strdup (malloc : Z -> cm Z) (str : Z) : cm Z :=
  n ← strlen str;
  let len := u64 (n + 1) in
  copy ← malloc len;
  if copy =? 0 then mret 0 else memcpy copy str len;; mret copy.

Section chars.
Context (char_signed : bool).

(** The value of a plain [char]. *)
Definition char_val (b : Z) : Z := if char_signed then to_signed 8 b else b.

(** The results are kept in a [signed char]. *)
Fixpoint strcmp_loop (fuel : nat) (cs ct : Z) : cm Z :=
  match fuel with
  | O => fault
  | S fuel =>
      a ← ld cs; b ← ld ct;
      let res := to_signed 8 (char_val a - char_val b) in
      if negb (res =? 0) || (a =? 0) then mret res else strcmp_loop fuel (cs + 1) (ct + 1)
  end.
Definition strcmp (cs ct : Z) : cm Z := with_fuel (fun fuel => strcmp_loop fuel cs ct).
Definition strcoll (s1 s2 : Z) : cm Z := strcmp s1 s2.

Fixpoint strncmp_loop (fuel : nat) (cs ct count res : Z) : cm Z :=
  match fuel with
  | O => fault
  | S fuel =>
      if 0 <? count then
        a ← ld cs; b ← ld ct;
        let res := to_signed 8 (char_val a - char_val b) in
        if negb (res =? 0) || (a =? 0) then mret res else strncmp_loop fuel (cs + 1) (ct + 1) (count - 1) res
      else mret res
  end.
Definition strncmp (cs ct count : Z) : cm Z := with_fuel (fun fuel => strncmp_loop fuel cs ct count 0).

Fixpoint strcasecmp_loop (fuel : nat) (cs ct : Z) : cm Z :=
  match fuel with
  | O => fault
  | S fuel =>
      a ← ld cs; b ← ld ct;
      let res := to_signed 8 (tolower (char_val a) - tolower (char_val b)) in
      if negb (res =? 0) || (a =? 0) then mret res else strcasecmp_loop fuel (cs + 1) (ct + 1)
  end.
Definition strcasecmp (cs ct : Z) : cm Z := with_fuel (fun fuel => strcasecmp_loop fuel cs ct).

(** [c1] and [c2] are what the loop left in the variables. *)
Fixpoint strnicmp_loop (fuel : nat) (s1 s2 len : Z) : cm (Z * Z) :=
  match fuel with
  | O => fault
  | S fuel =>
      c1 ← ld s1; c2 ← ld s2;
      if (c1 =? 0) || (c2 =? 0) then mret (c1, c2)
      else
        let d1 := if c1 =? c2 then c1 else tolower c1 in
        let d2 := if c1 =? c2 then c2 else tolower c2 in
        if negb (d1 =? d2) then mret (d1, d2)
        else if len - 1 =? 0 then mret (d1, d2)
        else strnicmp_loop fuel (s1 + 1) (s2 + 1) (len - 1)
  end.
Definition strnicmp (s1 s2 len : Z) : cm Z :=
  if 0 <? len then '(c1, c2) ← with_fuel (fun fuel => strnicmp_loop fuel s1 s2 len); mret (c1 - c2)
  else mret 0.

Fixpoint strrchr_loop (fuel : nat) (s c last : Z) : cm Z :=
  match fuel with
  | O => fault
  | S fuel =>
      v ← ld s;
      if v =? 0 then mret last
      else strrchr_loop fuel (s + 1) c (if char_val v =? c then s else last)
  end.
Definition strrchr (s c : Z) : cm Z :=
  with_fuel (fun fuel => strrchr_loop fuel s c (if negb (c =? 0) then 0 else s)).
End chars.

(** ** Pseudo random numbers, [rand.c]: the seed is passed along *)
Definition srand (seed : Z) : Z := seed.
Definition rand_add_entropy (buf : list Z) (randseed : Z) : Z :=
  if (length buf =? 0)%nat then randseed
  else Z.lxor randseed
    (foldl (fun enp c => Z.lxor (Z.lor (u32 (Z.shiftl enp 8)) (Z.shiftr enp 24)) c) 0 buf).
Definition rand (randseed : Z) : Z * Z :=
  let seed := u32 (randseed * 1664525 + 1013904223) in (s32 seed, seed).
