(* ===== verification/CstringMem.v ===== *)
(** * Blocks of memory: what the functions of [lib/libc/string] on blocks do

    Each function is proved equal to reading and writing of whole ranges. *)
From S2P Require Import Prelude Cstring.

#[local] Ltac Zify.zify_post_hook ::= Z.div_mod_to_equations.

Ltac mapped_tac :=
  repeat apply mapped_wr;
  first [ done | lia | match goal with H : mapped _ _ _ |- mapped _ _ _ => apply (mapped_sub _ _ _ _ _ H); lia end ].

(** ** Alignment *)
Lemma land_lmask x : Z.land x lmask = x mod 8.
Proof. change lmask with (Z.ones 3). by rewrite Z.land_ones by lia. Qed.

Lemma aligned_both d s : (Z.land (Z.lor d s) lmask =? 0) = true <-> d mod 8 = 0 /\ s mod 8 = 0.
Proof. rewrite Z.eqb_eq, Z.land_lor_distr_l, Z.lor_eq_0_iff, !land_lmask. done. Qed.

Lemma aligned_alike d s : (Z.land (Z.lxor d s) lmask =? 0) = true <-> d mod 8 = s mod 8.
Proof.
  assert (Z.land (Z.lxor d s) lmask = Z.lxor (Z.land d lmask) (Z.land s lmask)) as ->.
  { apply Z.bits_inj'. intros n _. rewrite !Z.land_spec, !Z.lxor_spec, !Z.land_spec.
    by destruct (Z.testbit d n), (Z.testbit s n), (Z.testbit lmask n). }
  rewrite Z.eqb_eq, !land_lmask. split; [apply Z.lxor_eq|intros ->; apply Z.lxor_nilpotent].
Qed.

(** ** Copies, from the lower end *)
Section up.

Lemma wr_insert a l b v m :
  b < a \/ a + Z.of_nat (length l) <= b -> wr a l (<[b := v]> m) = <[b := v]> (wr a l m).
Proof.
  intros. apply (wr_wr_comm a l b [v] m). simpl. lia.
Qed.

(** Two copies one behind the other are one. *)
Lemma copy_copy_up d s k j m :
  0 <= k -> 0 <= j -> d <= s \/ s + k + j <= d ->
  wr (d + k) (rd (wr d (rd m s k) m) (s + k) j) (wr d (rd m s k) m) = wr d (rd m s (k + j)) m.
Proof.
  intros. rewrite rd_wr_other by (rewrite length_rd; lia).
  rewrite rd_app, wr_app, length_rd by lia. rewrite Z2Nat.id by lia.
  apply wr_wr_comm. rewrite !length_rd. lia.
Qed.

Lemma bytes_up_run n d s m :
  bytes m -> mapped m s (Z.of_nat n) -> mapped m d (Z.of_nat n) -> d <= s \/ s + Z.of_nat n <= d ->
  bytes_up n d s m = Some ((d + Z.of_nat n, s + Z.of_nat n), wr d (rd m s (Z.of_nat n)) m).
Proof.
  revert d s m. induction n as [|n IH]; intros d s m Hb Hs Hd Hds; simpl.
  - by rewrite !Z.add_0_r.
  - rewrite (bind_ld _ _ _ (default 0 (m !! s))) by (apply (mapped_lookup _ _ _ Hs); lia).
    rewrite bind_st by (first [apply Hd; lia | by apply bytes_default]).
    rewrite IH; [|by apply bytes_insert, bytes_default|..].
    + f_equal. rewrite (rd_succ m s) by lia. simpl. f_equal; [f_equal; lia|].
      rewrite wr_insert by lia. f_equal. replace (Z.of_nat (S n) - 1) with (Z.of_nat n) by lia.
      f_equal. apply rd_ext. intros x Hx. apply lookup_insert_ne. lia.
    + intros x Hx. apply lookup_insert_is_Some'. right. apply Hs. lia.
    + intros x Hx. apply lookup_insert_is_Some'. right. apply Hd. lia.
    + lia.
Qed.

Lemma words_up_run n d s m :
  mapped m s (8 * Z.of_nat n) -> mapped m d (8 * Z.of_nat n) -> d mod 8 = 0 -> s mod 8 = 0 ->
  d <= s \/ s + 8 * Z.of_nat n <= d ->
  words_up n d s m = Some ((d + 8 * Z.of_nat n, s + 8 * Z.of_nat n), wr d (rd m s (8 * Z.of_nat n)) m).
Proof.
  revert d s m. induction n as [|n IH]; intros d s m Hs Hd Hd8 Hs8 Hds; simpl words_up.
  - rewrite rd_0 by lia. by rewrite !Z.add_0_r.
  - rewrite bind_ldw by mapped_tac.
    rewrite bind_stw by mapped_tac.
    change lsize with 8. rewrite IH.
    + f_equal. f_equal; [f_equal; lia|]. rewrite copy_copy_up by lia. do 2 f_equal. lia.
    + mapped_tac.
    + mapped_tac.
    + lia.
    + lia.
    + lia.
Qed.
End up.

(** The bytes copied one by one before the words *)
Definition head_len (d s count : Z) : Z :=
  if bool_decide (d mod 8 = 0 /\ s mod 8 = 0) then 0
  else if bool_decide (d mod 8 = s mod 8 /\ 8 <= count) then 8 - d mod 8 else count.

Lemma head_len_range d s count : 0 <= count -> 0 <= head_len d s count <= count.
Proof.
  intros. unfold head_len. repeat case_bool_decide; try lia.
Qed.

(** Behind them the pointers are aligned, or nothing is left. *)
Lemma head_len_aligned d s count :
  head_len d s count = count \/ (d + head_len d s count) mod 8 = 0 /\ (s + head_len d s count) mod 8 = 0.
Proof.
  unfold head_len. repeat case_bool_decide; [right|right|by left].
  - by rewrite !Z.add_0_r.
  - assert (d mod 8 = s mod 8) as E by tauto.
    split; [|rewrite E]; rewrite <- Zplus_mod_idemp_l; [|rewrite <- E];
      replace (d mod 8 + (8 - d mod 8)) with 8 by lia; done.
Qed.

Lemma s32_small x : 0 <= x < 2 ^ 31 -> s32 x = x.
Proof. intros. apply to_signed_small; lia. Qed.

(** The bytes copied before the words *)
Lemma copy_up_head d s count m :
  0 <= count < 2 ^ 31 -> bytes m -> mapped m s count -> mapped m d count -> d <= s \/ s + count <= d ->
  (if negb (Z.land (Z.lor d s) lmask =? 0) then
     let len := s32 (if negb (Z.land (Z.lxor d s) lmask =? 0) || (count <? lsize)
                     then count else lsize - Z.land d lmask) in
     let count := u64 (count - len) in
     '(d, s) ← bytes_up (Z.to_nat len) d s; mret (d, s, count)
   else mret (d, s, count)) m =
  Some ((d + head_len d s count, s + head_len d s count, count - head_len d s count),
    wr d (rd m s (head_len d s count)) m).
Proof.
  intros Hc Hb Hs Hd Hds. pose proof (head_len_range d s count ltac:(lia)) as Hh. unfold head_len in *.
  destruct (Z.land (Z.lor d s) lmask =? 0) eqn:E.
  - apply aligned_both in E. rewrite bool_decide_true by done. simpl. by rewrite !Z.add_0_r, Z.sub_0_r.
  - rewrite bool_decide_false in * by (rewrite <- aligned_both; congruence).
    change (negb false) with true. cbv iota zeta. set (k := if bool_decide _ then _ else _) in *.
    assert ((if negb (Z.land (Z.lxor d s) lmask =? 0) || (count <? lsize) then count
             else lsize - Z.land d lmask) = k) as ->.
    { subst k. rewrite (land_lmask d). destruct (Z.land (Z.lxor d s) lmask =? 0) eqn:E2; simpl.
      - apply aligned_alike in E2. change lsize with 8. destruct (Z.ltb_spec count 8).
        + by rewrite bool_decide_false by lia.
        + by rewrite bool_decide_true by lia.
      - rewrite bool_decide_false; [done|]. intros [E3 _]. apply aligned_alike in E3. congruence. }
    rewrite s32_small, wrap_small by lia.
    erewrite bind_run by (apply bytes_up_run; rewrite ?Z2Nat.id by lia; mapped_tac).
    by rewrite !Z2Nat.id by lia.
Qed.

Lemma copy_up_run d s count m :
  0 <= count < 2 ^ 31 -> bytes m -> mapped m s count -> mapped m d count -> d <= s \/ s + count <= d ->
  copy_up d s count m = Some ((), wr d (rd m s count) m).
Proof.
  intros Hc Hb Hs Hd Hds. unfold copy_up. erewrite bind_run by (by apply copy_up_head).
  pose proof (head_len_range d s count ltac:(lia)) as Hh.
  destruct (head_len_aligned d s count) as [->|[Ad As]].
  { rewrite Z.sub_diag. simpl. done. }
  set (h := head_len d s count) in *. set (w := (count - h) / 8).
  assert (0 <= 8 * w <= count - h /\ count - h - 8 * w = (count - h) mod 8) as [Hw Hr] by (subst w; lia).
  rewrite land_lmask. rewrite !s32_small by (change lsize with 8; lia).
  change lsize with 8. fold w.
  erewrite bind_run by (apply words_up_run; rewrite ?Z2Nat.id by lia; mapped_tac).
  rewrite !Z2Nat.id, copy_copy_up by lia.
  erewrite bind_run by (apply bytes_up_run; rewrite ?Z2Nat.id by lia;
    [by apply bytes_wr, bytes_rd|mapped_tac..]).
  rewrite Z2Nat.id by lia. rewrite <- !Z.add_assoc, copy_copy_up by lia.
  unfold mret, cm_mret, cm_ret. do 4 f_equal. lia.
Qed.

(** ** Copies, from the upper end *)
Lemma copy_copy_down d s k j m :
  0 <= k -> 0 <= j -> s <= d \/ d + k + j <= s ->
  wr d (rd (wr (d + j) (rd m (s + j) k) m) s j) (wr (d + j) (rd m (s + j) k) m) = wr d (rd m s (j + k)) m.
Proof.
  intros. rewrite rd_wr_other by (rewrite length_rd; lia).
  rewrite rd_app, wr_app, length_rd by lia. rewrite Z2Nat.id by lia. done.
Qed.

Lemma bytes_down_run n d s m :
  bytes m -> mapped m (s - Z.of_nat n) (Z.of_nat n) -> mapped m (d - Z.of_nat n) (Z.of_nat n) ->
  s <= d \/ d <= s - Z.of_nat n ->
  bytes_down n d s m =
    Some ((d - Z.of_nat n, s - Z.of_nat n), wr (d - Z.of_nat n) (rd m (s - Z.of_nat n) (Z.of_nat n)) m).
Proof.
  revert d s m. induction n as [|n IH]; intros d s m Hb Hs Hd Hds; simpl bytes_down.
  - by rewrite rd_0, !Z.sub_0_r by lia.
  - rewrite (bind_ld _ _ _ (default 0 (m !! (s - 1)))) by (apply (mapped_lookup _ _ 1); [mapped_tac|lia]).
    rewrite bind_st by (first [apply Hd; lia | by apply bytes_default]).
    assert (<[d - 1 := default 0 (m !! (s - 1))]> m = wr (d - 1) (rd m (s - 1) 1) m) as ->.
    { rewrite rd_succ, rd_0 by lia. done. }
    rewrite IH; [|by apply bytes_wr, bytes_rd|mapped_tac|mapped_tac|lia].
    f_equal. f_equal; [f_equal; lia|].
    pose proof (copy_copy_down (d - Z.of_nat (S n)) (s - Z.of_nat (S n)) 1 (Z.of_nat n) m
      ltac:(lia) ltac:(lia) ltac:(lia)) as E.
    replace (d - Z.of_nat (S n) + Z.of_nat n) with (d - 1) in E by lia.
    replace (s - Z.of_nat (S n) + Z.of_nat n) with (s - 1) in E by lia.
    replace (d - 1 - Z.of_nat n) with (d - Z.of_nat (S n)) by lia.
    replace (s - 1 - Z.of_nat n) with (s - Z.of_nat (S n)) by lia.
    rewrite E. do 2 f_equal. lia.
Qed.

Lemma words_down_run n d s m :
  mapped m (s - 8 * Z.of_nat n) (8 * Z.of_nat n) -> mapped m (d - 8 * Z.of_nat n) (8 * Z.of_nat n) ->
  d mod 8 = 0 -> s mod 8 = 0 -> s <= d \/ d <= s - 8 * Z.of_nat n ->
  words_down n d s m =
    Some ((d - 8 * Z.of_nat n, s - 8 * Z.of_nat n), wr (d - 8 * Z.of_nat n) (rd m (s - 8 * Z.of_nat n) (8 * Z.of_nat n)) m).
Proof.
  revert d s m. induction n as [|n IH]; intros d s m Hs Hd Hd8 Hs8 Hds; simpl words_down.
  - rewrite rd_0 by lia. by rewrite !Z.sub_0_r.
  - change lsize with 8. rewrite bind_ldw by mapped_tac. rewrite bind_stw by mapped_tac.
    rewrite IH; [|mapped_tac|mapped_tac|lia|lia|lia].
    f_equal. f_equal; [f_equal; lia|].
    pose proof (copy_copy_down (d - 8 * Z.of_nat (S n)) (s - 8 * Z.of_nat (S n)) 8 (8 * Z.of_nat n) m
      ltac:(lia) ltac:(lia) ltac:(lia)) as E.
    replace (d - 8 * Z.of_nat (S n) + 8 * Z.of_nat n) with (d - 8) in E by lia.
    replace (s - 8 * Z.of_nat (S n) + 8 * Z.of_nat n) with (s - 8) in E by lia.
    replace (d - 8 - 8 * Z.of_nat n) with (d - 8 * Z.of_nat (S n)) by lia.
    replace (s - 8 - 8 * Z.of_nat n) with (s - 8 * Z.of_nat (S n)) by lia.
    rewrite E. do 2 f_equal. lia.
Qed.

(** The bytes copied one by one before the words; [d] and [s] are the ends. *)
Definition tail_len (d s count : Z) : Z :=
  if bool_decide (d mod 8 = 0 /\ s mod 8 = 0) then 0
  else if bool_decide (d mod 8 = s mod 8 /\ 8 < count) then d mod 8 else count.

Lemma tail_len_range d s count : 0 <= count -> 0 <= tail_len d s count <= count.
Proof. intros. unfold tail_len. repeat case_bool_decide; lia. Qed.

Lemma tail_len_aligned d s count :
  tail_len d s count = count \/ (d - tail_len d s count) mod 8 = 0 /\ (s - tail_len d s count) mod 8 = 0.
Proof. unfold tail_len. repeat case_bool_decide; [right; lia|right; lia|by left]. Qed.

(** The bytes copied before the words, with the ends of the buffers. *)
Lemma copy_down_head d s count m :
  0 <= count < 2 ^ 31 -> bytes m -> mapped m (s - count) count -> mapped m (d - count) count ->
  s <= d \/ d <= s - count ->
  (if negb (Z.land (Z.lor d s) lmask =? 0) then
     let len := s32 (if negb (Z.land (Z.lxor d s) lmask =? 0) || (count <=? lsize)
                     then count else Z.land d lmask) in
     let count := u64 (count - len) in
     '(d, s) ← bytes_down (Z.to_nat len) d s; mret (d, s, count)
   else mret (d, s, count)) m =
  Some ((d - tail_len d s count, s - tail_len d s count, count - tail_len d s count),
    wr (d - tail_len d s count) (rd m (s - tail_len d s count) (tail_len d s count)) m).
Proof.
  intros Hc Hb Hs Hd Hds. pose proof (tail_len_range d s count ltac:(lia)) as Hh. unfold tail_len in *.
  destruct (Z.land (Z.lor d s) lmask =? 0) eqn:E.
  - apply aligned_both in E. rewrite bool_decide_true by done. simpl. by rewrite !Z.sub_0_r.
  - rewrite bool_decide_false in * by (rewrite <- aligned_both; congruence).
    change (negb false) with true. cbv iota zeta. set (k := if bool_decide _ then _ else _) in *.
    assert ((if negb (Z.land (Z.lxor d s) lmask =? 0) || (count <=? lsize) then count
             else Z.land d lmask) = k) as ->.
    { subst k. rewrite (land_lmask d). destruct (Z.land (Z.lxor d s) lmask =? 0) eqn:E2; simpl.
      - apply aligned_alike in E2. change lsize with 8. destruct (Z.leb_spec count 8).
        + by rewrite bool_decide_false by lia.
        + by rewrite bool_decide_true by lia.
      - rewrite bool_decide_false; [done|]. intros [E3 _]. apply aligned_alike in E3. congruence. }
    rewrite s32_small, wrap_small by lia.
    erewrite bind_run by (apply bytes_down_run; rewrite ?Z2Nat.id by lia; mapped_tac).
    by rewrite !Z2Nat.id by lia.
Qed.

Lemma copy_down_run d s count m :
  0 <= count < 2 ^ 31 -> bytes m -> mapped m s count -> mapped m d count -> s <= d \/ d + count <= s ->
  copy_down d s count m = Some ((), wr d (rd m s count) m).
Proof.
  intros Hc Hb Hs Hd Hds. unfold copy_down. cbv zeta.
  erewrite bind_run by (apply copy_down_head; [lia|done|mapped_tac|mapped_tac|lia]).
  pose proof (tail_len_range (d + count) (s + count) count ltac:(lia)) as Hh.
  destruct (tail_len_aligned (d + count) (s + count) count) as [->|[Ad As]].
  { rewrite Z.sub_diag, !Z.add_simpl_r. simpl. done. }
  set (h := tail_len _ _ _) in *. set (w := (count - h) / 8).
  assert (0 <= 8 * w <= count - h /\ count - h - 8 * w = (count - h) mod 8) as [Hw Hr] by (subst w; lia).
  rewrite land_lmask. rewrite !s32_small by (change lsize with 8; lia).
  change lsize with 8. fold w.
  erewrite bind_run by (apply words_down_run; rewrite ?Z2Nat.id by lia; mapped_tac).
  rewrite !Z2Nat.id by lia.
  pose proof (copy_copy_down (d + count - h - 8 * w) (s + count - h - 8 * w) h (8 * w) m
    ltac:(lia) ltac:(lia) ltac:(lia)) as E.
  rewrite !Z.sub_simpl_r in E. rewrite E. clear E.
  erewrite bind_run by (apply bytes_down_run; rewrite ?Z2Nat.id by lia;
    [by apply bytes_wr, bytes_rd|mapped_tac..]).
  rewrite Z2Nat.id by lia.
  pose proof (copy_copy_down d s (8 * w + h) (count - h - 8 * w) m ltac:(lia) ltac:(lia) ltac:(lia)) as E.
  replace (d + (count - h - 8 * w)) with (d + count - h - 8 * w) in E by lia.
  replace (s + (count - h - 8 * w)) with (s + count - h - 8 * w) in E by lia.
  replace (d + count - h - 8 * w - (count - h) mod 8) with d by lia.
  replace (s + count - h - 8 * w - (count - h) mod 8) with s by lia. rewrite <- Hr, E.
  unfold mret, cm_mret, cm_ret. do 4 f_equal. lia.
Qed.

(** ** [memcpy], [memmove] and [bcopy] *)
Lemma memcpy_run d s count m :
  0 <= count < 2 ^ 31 -> bytes m -> mapped m s count -> mapped m d count -> d <= s \/ s + count <= d ->
  memcpy d s count m = Some (d, wr d (rd m s count) m).
Proof.
  intros. unfold memcpy. destruct (Z.eqb_spec count 0) as [->|]; [by rewrite rd_0 by lia|].
  destruct (Z.eqb_spec d s) as [->|]; [by rewrite wr_rd_id|]. simpl.
  by erewrite bind_run by (apply copy_up_run; done).
Qed.

(** The buffer is on one side of the middle of the address space. *)
Definition one_half (a n : Z) : Prop := 0 <= a /\ a + n <= 2 ^ 63 \/ 2 ^ 63 <= a /\ a + n <= 2 ^ 64.

Lemma to_signed_one_half a n : one_half a n -> 0 < n ->
  to_signed 64 a = if a <? 2 ^ 63 then a else a - 2 ^ 64.
Proof. intros. unfold to_signed. rewrite wrap_small by (destruct H; lia). done. Qed.

Lemma memmove_run d s count m :
  0 <= count < 2 ^ 31 -> bytes m -> mapped m s count -> mapped m d count ->
  one_half d count -> one_half s count ->
  memmove d s count m = Some (d, wr d (rd m s count) m).
Proof.
  intros Hc Hb Hs Hd Hdh Hsh. unfold memmove. destruct (Z.eqb_spec count 0) as [->|]; [by rewrite rd_0 by lia|].
  destruct (Z.eqb_spec d s) as [->|]; [by rewrite wr_rd_id|]. simpl.
  rewrite (to_signed_one_half d count), (to_signed_one_half s count) by (done || lia).
  destruct (_ <? _) eqn:E; bool_cases.
  - erewrite bind_run; [done|]. apply copy_up_run; try done. destruct Hdh, Hsh, (Z.ltb_spec d (2 ^ 63)), (Z.ltb_spec s (2 ^ 63)); lia.
  - erewrite bind_run; [done|]. apply copy_down_run; try done. destruct Hdh, Hsh, (Z.ltb_spec d (2 ^ 63)), (Z.ltb_spec s (2 ^ 63)); lia.
Qed.

Lemma bcopy_run d s count m :
  0 <= count < 2 ^ 31 -> bytes m -> mapped m s count -> mapped m d count -> d <= s \/ s + count <= d ->
  bcopy s d count m = Some ((), wr d (rd m s count) m).
Proof. intros. unfold bcopy. by erewrite bind_run by (by apply memcpy_run). Qed.

(** ** [memset] *)
Lemma fill_bytes_run n a c m :
  mapped m a (Z.of_nat n) -> fill_bytes n a c m = Some (a + Z.of_nat n, wr a (replicate n (u8 c)) m).
Proof.
  revert a m. induction n as [|n IH]; intros a m Hm; simpl.
  - by rewrite Z.add_0_r.
  - destruct (Hm a) as [v Hv]; [lia|].
    erewrite bind_run by (unfold st; rewrite Hv; done). rewrite IH.
    + rewrite wr_insert by lia. do 2 f_equal. lia.
    + intros x Hx. apply lookup_insert_is_Some'. right. apply Hm. lia.
Qed.

Lemma fill_words_run n a cc v m :
  mapped m a (8 * Z.of_nat n) -> a mod 8 = 0 -> word_bytes cc = replicate 8 v ->
  fill_words n a cc m = Some (a + 8 * Z.of_nat n, wr a (replicate (8 * n) v) m).
Proof.
  intros Hm Ha Ew. revert a m Hm Ha. induction n as [|n IH]; intros a m Hm Ha; simpl fill_words.
  - by rewrite Z.mul_0_r, Z.add_0_r.
  - rewrite bind_stw by mapped_tac. change sizeof_long with 8. rewrite IH by (mapped_tac || lia).
    rewrite Ew. f_equal. f_equal; [lia|].
    replace (8 * S n)%nat with (8 + 8 * n)%nat by lia. rewrite replicate_add, wr_app, length_replicate.
    apply wr_wr_comm. rewrite !length_replicate. lia.
Qed.

(** A byte spread over a word *)
Lemma spread_byte c :
  let cc := Z.land c 255 in
  let cc := u64 (Z.lor cc (Z.shiftl cc 8)) in
  let cc := u64 (Z.lor cc (Z.shiftl cc 16)) in
  let cc := u64 (Z.lor cc (Z.shiftl cc 32)) in
  word_bytes cc = replicate 8 (u8 c).
Proof.
  cbv zeta. change 255 with (Z.ones 8). rewrite Z.land_ones by lia. fold (u8 c).
  pose proof (wrap_range 8 c ltac:(lia)) as Hr. generalize (u8 c), Hr. clear.
  intros v Hv.
  assert (forallb (fun v => bool_decide
    (word_bytes (let cc := u64 (Z.lor v (Z.shiftl v 8)) in
      let cc := u64 (Z.lor cc (Z.shiftl cc 16)) in u64 (Z.lor cc (Z.shiftl cc 32))) = replicate 8 v))
    (seqZ 0 256) = true) as Hall by (vm_compute; reflexivity).
  rewrite forallb_forall in Hall. specialize (Hall v).
  apply bool_decide_eq_true in Hall; [exact Hall|]. apply list_elem_of_In, elem_of_seqZ. lia.
Qed.

Lemma memset_run s c count m :
  0 <= s < 2 ^ 64 -> 0 <= count < 2 ^ 64 -> mapped m s count ->
  memset s c count m = Some (s, wr s (replicate (Z.to_nat count) (u8 c)) m).
Proof.
  intros Hs0 Hc Hs. unfold memset. cbv zeta. change (sizeof_long - 1) with lmask. rewrite !land_lmask.
  set (len := u64 (- s) mod 8).
  assert (len = (- s) mod 8) as El.
  { unfold len, wrap. lia. }
  destruct (Z.ltb_spec len count).
  - rewrite wrap_small by lia.
    erewrite (bind_run _ _ m); [|erewrite bind_run by (apply fill_bytes_run; rewrite Z2Nat.id by lia; mapped_tac);
      erewrite bind_run by (apply fill_words_run; [rewrite !Z2Nat.id by (change sizeof_long with 8; lia);
        change sizeof_long with 8; mapped_tac|rewrite Z2Nat.id by lia; lia|apply spread_byte]); reflexivity].
    change sizeof_long with 8. rewrite !Z2Nat.id by lia.
    erewrite bind_run by (apply fill_bytes_run; rewrite Z2Nat.id by lia; mapped_tac).
    unfold mret, cm_mret, cm_ret. f_equal. f_equal.
    replace (Z.to_nat count) with (Z.to_nat len + (8 * Z.to_nat ((count - len) / 8) + Z.to_nat ((count - len) mod 8)))%nat by lia.
    rewrite !replicate_add, !wr_app, !length_replicate.
    rewrite Z2Nat.id by lia. replace (Z.of_nat (8 * Z.to_nat ((count - len) / 8))) with (8 * ((count - len) / 8)) by lia.
    rewrite (wr_wr_comm (s + len) _ s) by (rewrite !length_replicate; lia).
    rewrite (wr_wr_comm (s + len + _) _ s) by (rewrite !length_replicate; lia).
    by rewrite (wr_wr_comm (s + len + _) _ (s + len)) by (rewrite !length_replicate; lia).
  - rewrite bind_ret. by erewrite bind_run by (apply fill_bytes_run; rewrite Z2Nat.id by lia; done).
Qed.
