(* ===== verification/CstringOps.v ===== *)
(** * Strings: what the functions of [lib/libc/string] on strings do

    Against the contents of the strings as lists of characters. *)
From S2P Require Import Prelude Cstring CstringMem.

(** Each iteration of a loop reads a string further on. *)
Lemma with_fuel_run {A} (f : nat -> cm A) m r : f (S (size m)) m = r -> with_fuel f m = r.
Proof. done. Qed.

Lemma char_nonzero c : is_char c -> (c =? 0) = false.
Proof. intros [? ?]. apply Z.eqb_neq. lia. Qed.

(** ** [strlen], [strnlen] and the end of a string *)
Lemma strlen_loop_run fuel s l i m :
  (length l < fuel)%nat -> cstr m (s + i) l -> strlen_loop fuel s i m = Some (i + Z.of_nat (length l), m).
Proof.
  revert l i. induction fuel as [|fuel IH]; intros l i Hf Hc; [lia|]. destruct l as [|c l]; simpl strlen_loop.
  - apply cstr_nil in Hc. rewrite (bind_ld _ _ _ _ Hc). simpl. by rewrite Z.add_0_r.
  - apply cstr_cons in Hc as (Hn & Hl & Hc). rewrite (bind_ld _ _ _ _ Hl), char_nonzero by done.
    rewrite (IH l) by (simpl in Hf; first [lia | by rewrite Z.add_assoc]). do 2 f_equal. simpl. lia.
Qed.

Lemma strlen_run s l m : cstr m s l -> strlen s m = Some (Z.of_nat (length l), m).
Proof.
  intros Hc. apply with_fuel_run. rewrite (strlen_loop_run _ _ l); [done| |by rewrite Z.add_0_r].
  by apply cstr_fuel in Hc.
Qed.

Lemma strnlen_loop_run fuel s l count m :
  (length l < fuel)%nat -> 0 <= count -> cstr m s l ->
  strnlen_loop fuel s count m = Some (s + Z.min count (Z.of_nat (length l)), m).
Proof.
  revert s l count. induction fuel as [|fuel IH]; intros s l count Hf Hc Hs; [lia|]. simpl.
  destruct (Z.eqb_spec count 0) as [->|].
  { rewrite Z.min_l by lia. by rewrite Z.add_0_r. }
  destruct l as [|c l].
  - apply cstr_nil in Hs. rewrite (bind_ld _ _ _ _ Hs). simpl. rewrite Z.min_r by lia. by rewrite Z.add_0_r.
  - apply cstr_cons in Hs as (Hn & Hl & Hs). rewrite (bind_ld _ _ _ _ Hl), char_nonzero by done.
    rewrite (IH _ l) by (simpl in Hf; done || lia). do 2 f_equal. simpl. lia.
Qed.

Lemma strnlen_run s l count m :
  0 <= count -> cstr m s l -> strnlen s count m = Some (Z.min count (Z.of_nat (length l)), m).
Proof.
  intros Hc Hs. unfold strnlen. erewrite bind_run.
  2: { apply with_fuel_run. apply strnlen_loop_run; [by eapply cstr_fuel|done|done]. }
  unfold mret, cm_mret, cm_ret. do 2 f_equal. lia.
Qed.

Lemma str_end_run fuel s l m :
  (length l < fuel)%nat -> cstr m s l -> str_end fuel s m = Some (s + Z.of_nat (length l), m).
Proof.
  revert s l. induction fuel as [|fuel IH]; intros s l Hf Hs; [lia|]. simpl. destruct l as [|c l].
  - apply cstr_nil in Hs. rewrite (bind_ld _ _ _ _ Hs). simpl. by rewrite Z.add_0_r.
  - apply cstr_cons in Hs as (Hn & Hl & Hs). rewrite (bind_ld _ _ _ _ Hl), char_nonzero by done.
    rewrite (IH _ l) by (simpl in Hf; done || lia). do 2 f_equal. simpl. lia.
Qed.

(** ** Copies of strings *)

(** What lies beside [n] bytes at [d] is the same after writing them. *)
Lemma cstr_insert m d v s l :
  d < s \/ s + Z.of_nat (length l) < d -> cstr m s l -> cstr (<[d := v]> m) s l.
Proof. intros Hd. apply cstr_ext. intros x Hx. apply lookup_insert_ne. lia. Qed.

Lemma cstr_wr_other m d k s l :
  d + Z.of_nat (length k) <= s \/ s + Z.of_nat (length l) < d -> cstr m s l -> cstr (wr d k m) s l.
Proof. intros Hd. apply cstr_ext. intros x Hx. rewrite lookup_wr, decide_False by lia. done. Qed.

Lemma mapped_insert m d v a n : mapped m a n -> mapped (<[d := v]> m) a n.
Proof. intros Hm x Hx. apply lookup_insert_is_Some'. right. by apply Hm. Qed.

Lemma strcpy_loop_run fuel dest src l m :
  (length l < fuel)%nat -> cstr m src l -> mapped m dest (Z.of_nat (length l) + 1) ->
  dest < src \/ src + Z.of_nat (length l) < dest ->
  strcpy_loop fuel dest src m = Some ((), wr dest (l ++ [0]) m).
Proof.
  revert dest src l m. induction fuel as [|fuel IH]; intros dest src l m Hf Hs Hd Hds; [lia|]. simpl.
  destruct l as [|c l].
  - apply cstr_nil in Hs. rewrite (bind_ld _ _ _ _ Hs), bind_st by (lia || (apply Hd; lia)). done.
  - apply cstr_cons in Hs as (Hn & Hl & Hs). simpl in *. rewrite (bind_ld _ _ _ _ Hl), char_nonzero by done.
    rewrite bind_st by (first [apply Hd; lia | destruct Hn; lia]).
    rewrite (IH _ _ l); [|lia|apply cstr_insert; [lia|done]|apply mapped_insert; mapped_tac|lia].
    rewrite wr_insert by lia. done.
Qed.

Lemma strcpy_run dest src l m :
  cstr m src l -> mapped m dest (Z.of_nat (length l) + 1) -> dest < src \/ src + Z.of_nat (length l) < dest ->
  strcpy dest src m = Some (dest, wr dest (l ++ [0]) m).
Proof.
  intros Hs Hd Hds. unfold strcpy. erewrite bind_run; [done|]. apply with_fuel_run.
  apply strcpy_loop_run; try done. by eapply cstr_fuel.
Qed.

Lemma strcat_run dest src l1 l2 m :
  let e := dest + Z.of_nat (length l1) in
  cstr m dest l1 -> cstr m src l2 -> mapped m e (Z.of_nat (length l2) + 1) ->
  e < src \/ src + Z.of_nat (length l2) < e ->
  strcat dest src m = Some (dest, wr e (l2 ++ [0]) m).
Proof.
  intros e H1 H2 Hd Hds. unfold strcat.
  erewrite bind_run by (apply with_fuel_run, (str_end_run _ dest l1); [by apply cstr_fuel in H1|done]).
  erewrite bind_run; [done|]. apply with_fuel_run. apply strcpy_loop_run; try done. by eapply cstr_fuel.
Qed.

(** The loop of [strlcpy] and [strlcat] copies what fits, from [i] on. *)
Lemma strl_loop_run fuel dst src s i l m :
  (length l < fuel)%nat -> 0 <= i -> 0 < s -> i <= s - 1 -> cstr m (src + i) l ->
  let k := Z.min (s - 1 - i) (Z.of_nat (length l)) in
  mapped m (dst + i) k -> dst + i < src + i \/ src + i + Z.of_nat (length l) < dst + i ->
  strl_loop fuel dst src s i m = Some (i + k, wr (dst + i) (take (Z.to_nat k) l) m).
Proof.
  revert i l m. induction fuel as [|fuel IH]; intros i l m Hf Hi Hs His Hl k Hd Hds; [lia|]. simpl.
  destruct (Z.ltb_spec i (s - 1)).
  2: { replace k with 0 by lia. by rewrite Z.add_0_r. }
  destruct l as [|c l].
  - apply cstr_nil in Hl. rewrite (bind_ld _ _ _ _ Hl). simpl. subst k. rewrite Z.min_r by (simpl; lia). by rewrite Z.add_0_r.
  - apply cstr_cons in Hl as (Hn & Hl & Hs'). simpl in *. rewrite (bind_ld _ _ _ _ Hl), char_nonzero by done.
    rewrite bind_st by (first [apply Hd; lia | destruct Hn; lia]).
    rewrite (IH _ l); [|lia..|apply cstr_insert; [lia|by rewrite Z.add_assoc]| |lia].
    + replace (Z.to_nat k) with (S (Z.to_nat (Z.min (s - 1 - (i + 1)) (Z.of_nat (length l))))) by lia.
      simpl. rewrite <- wr_insert by lia. rewrite Z.add_assoc. do 2 f_equal. lia.
    + apply mapped_insert. mapped_tac.
Qed.

Lemma take_min {A} (l : list A) n : take (Z.to_nat (Z.min n (Z.of_nat (length l)))) l = take (Z.to_nat n) l.
Proof.
  destruct (decide (n <= Z.of_nat (length l))); [by rewrite Z.min_l by lia|].
  rewrite Z.min_r by lia. rewrite !take_ge by lia. done.
Qed.

(** What is left of the source behind the copied characters has its length
    counted in the memory after the copy. *)
Lemma strl_rest dst src l k m :
  (k <= length l)%nat -> cstr m src l -> dst + Z.of_nat k < src \/ src + Z.of_nat (length l) < dst ->
  strlen (src + Z.of_nat k) (<[dst + Z.of_nat k := 0]> (wr dst (take k l) m)) =
    Some (Z.of_nat (length l - k), <[dst + Z.of_nat k := 0]> (wr dst (take k l) m)).
Proof.
  intros Hk Hs Hd. rewrite (strlen_run _ (drop k l)); [by rewrite length_drop|].
  apply cstr_insert; [rewrite length_drop; lia|]. apply cstr_wr_other; [rewrite length_drop, length_take; lia|].
  rewrite <- (take_drop k l) in Hs. apply cstr_app in Hs. rewrite length_take in Hs.
  by rewrite Nat.min_l in Hs by lia.
Qed.

Lemma wr_snoc a l v m : <[a + Z.of_nat (length l) := v]> (wr a l m) = wr a (l ++ [v]) m.
Proof. rewrite wr_app. simpl. rewrite wr_insert by lia. done. Qed.

(** [strlcpy] stores as much of the string as fits, always with a zero, within
    the [s] bytes of the buffer, and returns the length of the source. *)
Lemma strlcpy_run dst src s l m :
  0 < s -> cstr m src l -> mapped m dst s -> dst + s <= src \/ src + Z.of_nat (length l) < dst ->
  strlcpy dst src s m = Some (Z.of_nat (length l), wr dst (take (Z.to_nat (s - 1)) l ++ [0]) m).
Proof.
  intros Hs0 Hs Hd Hds. unfold strlcpy. rewrite (proj2 (Z.eqb_neq s 0)) by lia.
  erewrite bind_run.
  2: { apply with_fuel_run. apply strl_loop_run with (l := l); rewrite ?Z.add_0_r; try done; try lia; [by eapply cstr_fuel|mapped_tac]. }
  rewrite Z.add_0_r, Z.sub_0_r, Z.add_0_l.
  assert (exists k : nat, Z.min (s - 1) (Z.of_nat (length l)) = Z.of_nat k) as [k Ek]
    by (exists (Z.to_nat (Z.min (s - 1) (Z.of_nat (length l)))); lia).
  pose proof (take_min l (s - 1)) as Et. rewrite Ek, Nat2Z.id in *.
  assert (length (take k l) = k) as Lk by (rewrite length_take; lia).
  rewrite bind_st by (first [lia | apply mapped_wr with (b := dst) (n := s); [done|lia]]).
  erewrite bind_run by (apply strl_rest; [lia|done|lia]).
  unfold mret, cm_mret, cm_ret. f_equal. f_equal; [lia|].
  rewrite <- Et, <- wr_snoc, Lk. done.
Qed.

(** [strlcat] appends up to [s - 1] characters wherever the string it appends to ends. *)
Lemma strlcat_run dst src s l1 l2 m :
  let j := Z.min s (Z.of_nat (length l1)) in
  0 < s -> cstr m dst l1 -> cstr m src l2 -> mapped m (dst + j) (Z.min (s - 1) (Z.of_nat (length l2)) + 1) ->
  dst + j + s <= src \/ src + Z.of_nat (length l2) < dst + j ->
  strlcat dst src s m =
    Some (j + Z.of_nat (length l2), wr (dst + j) (take (Z.to_nat (s - 1)) l2 ++ [0]) m).
Proof.
  intros j Hs0 H1 Hs Hd Hds. unfold strlcat. erewrite bind_run by (apply strnlen_run; [lia|done]).
  rewrite (proj2 (Z.eqb_neq s 0)) by lia. fold j. cbv zeta.
  erewrite bind_run.
  2: { apply with_fuel_run. apply strl_loop_run with (l := l2); rewrite ?Z.add_0_r; try done; try lia; [by eapply cstr_fuel|mapped_tac]. }
  rewrite Z.add_0_r, Z.sub_0_r, Z.add_0_l.
  assert (exists k : nat, Z.min (s - 1) (Z.of_nat (length l2)) = Z.of_nat k) as [k Ek]
    by (exists (Z.to_nat (Z.min (s - 1) (Z.of_nat (length l2)))); lia).
  pose proof (take_min l2 (s - 1)) as Et. rewrite Ek, Nat2Z.id in *.
  assert (length (take k l2) = k) as Lk by (rewrite length_take; lia).
  rewrite bind_st by (first [lia | eapply mapped_wr; [exact Hd|lia]]).
  erewrite bind_run by (apply strl_rest; [lia|done|lia]).
  unfold mret, cm_mret, cm_ret. f_equal. f_equal; [lia|].
  rewrite <- Et, <- wr_snoc, Lk. done.
Qed.

(** So when the strings together do not fit into [s] bytes, it writes past them. *)
Lemma strlcat_overflow dst src s l1 l2 m :
  Z.of_nat (length l1) < s -> s - 1 <= Z.of_nat (length l2) -> l1 <> [] -> cstr m dst l1 -> cstr m src l2 ->
  mapped m (dst + Z.of_nat (length l1)) s ->
  dst + Z.of_nat (length l1) + s <= src \/ src + Z.of_nat (length l2) < dst + Z.of_nat (length l1) ->
  exists r m', strlcat dst src s m = Some (r, m') /\ m' !! (dst + Z.of_nat (length l1) + s - 1) = Some 0 /\
    dst + s <= dst + Z.of_nat (length l1) + s - 1.
Proof.
  intros Hl1 Hl2 Hne H1 H2 Hd Hds. eexists _, _. split.
  - apply (strlcat_run dst src s l1 l2); rewrite ?Z.min_r by lia; try done; [lia|mapped_tac].
  - rewrite Z.min_r by lia. destruct l1 as [|c l1]; [done|]. split; [|simpl; lia].
    rewrite <- wr_snoc. rewrite length_take. rewrite Nat.min_l by lia.
    replace (dst + Z.of_nat (length (c :: l1)) + s - 1) with
      (dst + Z.of_nat (length (c :: l1)) + Z.of_nat (Z.to_nat (s - 1))) by lia.
    by rewrite lookup_insert_eq.
Qed.

Lemma strncpy_loop_run fuel dest src i count l m :
  (length l < fuel)%nat -> cstr m src l -> mapped m dest (count - i) -> i <= count ->
  dest < src \/ src + Z.of_nat (length l) < dest ->
  let n := Z.to_nat (count - i) in
  strncpy_loop fuel dest src i count m =
    Some ((dest + Z.of_nat (length (take n (l ++ [0]))), i + Z.of_nat (length (take n (l ++ [0]))) +
           (if bool_decide (n <= length l)%nat then 1 else 0)), wr dest (take n (l ++ [0])) m).
Proof.
  revert dest src i l m. induction fuel as [|fuel IH]; intros dest src i l m Hf Hs Hd Hi Hds n; [lia|]. simpl.
  destruct (Z.ltb_spec i count).
  2: { replace n with 0%nat by lia. rewrite bool_decide_true by lia. simpl. by rewrite !Z.add_0_r. }
  replace n with (S (Z.to_nat (count - (i + 1)))) by lia. destruct l as [|c l].
  - apply cstr_nil in Hs. rewrite (bind_ld _ _ _ _ Hs), bind_st by (lia || (apply Hd; lia)). simpl.
    rewrite take_nil. simpl. by rewrite Z.add_0_r.
  - apply cstr_cons in Hs as (Hn & Hl & Hs). simpl in *. rewrite (bind_ld _ _ _ _ Hl), char_nonzero by done.
    rewrite bind_st by (first [apply Hd; lia | destruct Hn; lia]).
    rewrite (IH _ _ _ l); [|lia|apply cstr_insert; [lia|done]|apply mapped_insert; mapped_tac|lia|lia].
    rewrite wr_insert by lia. f_equal. f_equal. f_equal; [lia|].
    rewrite (bool_decide_ext (S (Z.to_nat (count - (i + 1))) <= S (length l))%nat
      (Z.to_nat (count - (i + 1)) <= length l)%nat) by lia. lia.
Qed.

(** [strncpy] fills exactly [count] bytes: what fits of the string, then zeros. *)
Lemma strncpy_run dest src count l m :
  0 <= count -> cstr m src l -> mapped m dest count -> dest < src \/ src + Z.of_nat (length l) < dest ->
  strncpy dest src count m = Some (dest, wr dest (resize (Z.to_nat count) 0 l) m).
Proof.
  intros Hc Hs Hd Hds. unfold strncpy.
  erewrite bind_run by (apply with_fuel_run, (strncpy_loop_run _ _ _ _ _ l); try done;
    [by eapply cstr_fuel|by rewrite Z.sub_0_r]).
  rewrite !Z.sub_0_r, !Z.add_0_l. set (n := Z.to_nat count). case_bool_decide.
  - rewrite (resize_le l) by lia. rewrite take_app_le by lia. rewrite length_take.
    replace (count - _) with (-1) by lia. done.
  - rewrite resize_ge by lia. rewrite (take_ge (l ++ [0])) by (rewrite length_app; simpl; lia).
    rewrite length_app, Z.add_0_r. simpl length.
    erewrite bind_run by (apply fill_bytes_run; mapped_tac).
    unfold mret, cm_mret, cm_ret. do 2 f_equal.
    replace (Z.to_nat (count - Z.of_nat (length l + 1))) with (n - length l - 1)%nat by lia.
    change (u8 0) with 0. replace (length l + 1)%nat with (length (l ++ [0])) by (rewrite length_app; done).
    rewrite wr_wr_comm by (rewrite length_replicate; lia). rewrite <- wr_app. f_equal.
    rewrite <- app_assoc. f_equal. destruct (n - length l)%nat eqn:En; [lia|]. simpl. by rewrite Nat.sub_0_r.
Qed.

Lemma strncat_loop_run fuel dest src count l m :
  (length l < fuel)%nat -> 0 < count -> cstr m src l ->
  mapped m dest (Z.min count (Z.of_nat (length l)) + 1) -> dest < src \/ src + Z.of_nat (length l) < dest ->
  (forall x, src <= x <= src + Z.of_nat (length l) -> ~ (dest <= x <= dest + Z.min count (Z.of_nat (length l)))) ->
  strncat_loop fuel dest src count m = Some ((), wr dest (take (Z.to_nat count) l ++ [0]) m).
Proof.
  revert dest src count l m. induction fuel as [|fuel IH]; intros dest src count l m Hf Hc Hs Hd Hds Hx; [lia|]. simpl.
  destruct l as [|c l].
  - apply cstr_nil in Hs. rewrite (bind_ld _ _ _ _ Hs), bind_st by (lia || (apply Hd; simpl; lia)).
    simpl. by rewrite take_nil.
  - apply cstr_cons in Hs as (Hn & Hl & Hs). simpl in *. rewrite (bind_ld _ _ _ _ Hl), char_nonzero by done.
    rewrite bind_st by (first [apply Hd; lia | destruct Hn; lia]).
    replace (Z.to_nat count) with (S (Z.to_nat (count - 1))) by lia. simpl.
    destruct (Z.eqb_spec (count - 1) 0) as [->|].
    + destruct (mapped_insert m dest c _ _ Hd (dest + 1)) as [v Hv]; [lia|].
      unfold st. rewrite Hv. simpl. f_equal. f_equal. apply insert_insert_ne. lia.
    + rewrite (IH _ _ _ l); [|lia|lia|apply cstr_insert; [lia|done]|apply mapped_insert; mapped_tac|lia|].
      * by rewrite wr_insert by lia.
      * intros x Hx'. specialize (Hx x). lia.
Qed.

Lemma strncat_run dest src count l1 l2 m :
  let e := dest + Z.of_nat (length l1) in
  0 < count -> cstr m dest l1 -> cstr m src l2 -> mapped m e (Z.min count (Z.of_nat (length l2)) + 1) ->
  e + Z.min count (Z.of_nat (length l2)) < src \/ src + Z.of_nat (length l2) < e ->
  strncat dest src count m = Some (dest, wr e (take (Z.to_nat count) l2 ++ [0]) m).
Proof.
  intros e Hc H1 H2 Hd Hds. unfold strncat. rewrite (proj2 (Z.ltb_lt 0 count)) by done.
  erewrite bind_run by (apply with_fuel_run, (str_end_run _ dest l1); [by apply cstr_fuel in H1|done]).
  erewrite bind_run; [done|]. apply with_fuel_run. apply strncat_loop_run; try done; [by eapply cstr_fuel|lia|].
  intros x. lia.
Qed.
