(* ===== verification/CstringFind.v ===== *)
(** * Comparing and searching strings, [lib/libc/string] *)
From S2P Require Import Prelude Cstring CstringMem CstringOps.

(** ** Comparisons *)

(** The difference at the first place where the bytes differ, cut to a [signed
    char]: it is 0 only when there is no such place, but its sign is that of the
    difference only while that is below 128. *)
Fixpoint byte_cmp (l1 l2 : list Z) : Z :=
  match l1, l2 with
  | a :: l1, b :: l2 => if to_signed 8 (a - b) =? 0 then byte_cmp l1 l2 else to_signed 8 (a - b)
  | _, _ => 0
  end.

Lemma to_signed_diff a b : 0 <= a < 256 -> 0 <= b < 256 -> (to_signed 8 (a - b) =? 0) = (a =? b).
Proof.
  intros. apply eq_true_iff_eq. rewrite !Z.eqb_eq. unfold to_signed, wrap. change (2 ^ 8) with 256. change (2 ^ (8 - 1)) with 128.
  pose proof (Z.mod_pos_bound (a - b) 256). pose proof (Z.div_mod (a - b) 256).
  destruct (Z.ltb_spec ((a - b) mod 256) 128); [|split; intros; [lia|subst; rewrite Z.sub_diag in *; simpl in *; lia]].
  split; [intros; nia|]. intros ->. by rewrite Z.sub_diag.
Qed.

Lemma to_signed_nonzero a b : 0 <= a < 256 -> 0 <= b < 256 -> a <> b -> to_signed 8 (a - b) <> 0.
Proof. intros Ha Hb Hne E. pose proof (to_signed_diff a b Ha Hb) as D. rewrite E in D. symmetry in D. by apply Z.eqb_eq in D. Qed.

Lemma byte_cmp_zero l1 l2 :
  length l1 = length l2 -> Forall (fun v => 0 <= v < 256) l1 -> Forall (fun v => 0 <= v < 256) l2 ->
  byte_cmp l1 l2 = 0 <-> l1 = l2.
Proof.
  intros Hl H1. revert l2 Hl. induction H1 as [|a l1 Ha H1 IH]; intros [|b l2] Hl H2; try done.
  inversion H2; subst. simpl. rewrite to_signed_diff by done. destruct (Z.eqb_spec a b) as [->|Hne].
  - rewrite IH by (simpl in Hl; done || lia). naive_solver.
  - split; [|naive_solver]. intros E. by apply to_signed_nonzero in E.
Qed.

(** Characters below 128 compare in the order of their codes. *)
Lemma byte_cmp_ascii a b l1 l2 :
  0 <= a < 128 -> 0 <= b < 128 -> a <> b -> byte_cmp (a :: l1) (b :: l2) = a - b.
Proof.
  intros. simpl. rewrite to_signed_diff by lia. rewrite (proj2 (Z.eqb_neq a b)) by done.
  apply to_signed_small; lia.
Qed.

(** Bytes do not: 128 compares below 0. *)
Example byte_cmp_sign : byte_cmp [128] [0] = -128.
Proof. reflexivity. Qed.

Lemma memcmp_loop_run fuel a b n res m :
  bytes m -> mapped m a n -> mapped m b n -> (Z.to_nat n < fuel)%nat -> res = 0 ->
  memcmp_loop fuel a b n res m = Some (byte_cmp (rd m a n) (rd m b n), m).
Proof.
  intros Hb. revert a b n res. induction fuel as [|fuel IH]; intros a b n res Ha Hb' Hf ->; [lia|]. simpl.
  destruct (Z.ltb_spec 0 n); [|by rewrite !rd_0 by lia].
  rewrite !(bind_ld _ _ _ _ (mapped_lookup _ _ _ Ha ltac:(lia))).
  rewrite !(bind_ld _ _ _ _ (mapped_lookup _ _ _ Hb' ltac:(lia))).
  rewrite !(rd_succ _ _ n) by lia. simpl. destruct (_ =? 0) eqn:E; simpl; [|done].
  apply IH; [mapped_tac|mapped_tac|lia|by apply Z.eqb_eq].
Qed.

Lemma memcmp_run a b n m :
  0 <= n -> bytes m -> mapped m a n -> mapped m b n ->
  memcmp a b n m = Some (byte_cmp (rd m a n) (rd m b n), m).
Proof.
  intros Hn Hb Ha Hb'. apply with_fuel_run, memcmp_loop_run; try done.
  apply mapped_size in Ha. lia.
Qed.

(** [memcmp] is 0 exactly when the blocks have the same bytes. *)
Lemma memcmp_equal a b n m r :
  0 <= n -> bytes m -> mapped m a n -> mapped m b n -> memcmp a b n m = Some (r, m) ->
  r = 0 <-> rd m a n = rd m b n.
Proof.
  intros Hn Hb Ha Hb' E. rewrite memcmp_run in E by done. injection E as <-.
  apply byte_cmp_zero; [by rewrite !length_rd|by apply bytes_rd..].
Qed.

Lemma char_val_diff sg a b : to_signed 8 (char_val sg a - char_val sg b) = to_signed 8 (a - b).
Proof.
  unfold to_signed. enough (u8 (char_val sg a - char_val sg b) = u8 (a - b)) as -> by done.
  assert (forall v, char_val sg v mod 256 = v mod 256) as Hv.
  { intros v. destruct sg; [|done]. simpl. unfold to_signed, wrap. change (2 ^ 8) with 256.
    destruct (_ <? _); [apply Zmod_mod|]. rewrite <- (Z_mod_plus_full _ 1 256).
    replace (v mod 256 - 256 + 1 * 256) with (v mod 256) by lia. apply Zmod_mod. }
  unfold wrap. change (2 ^ 8) with 256. by rewrite Zminus_mod, !Hv, <- Zminus_mod.
Qed.

Lemma char_range c : is_char c -> 0 <= c < 256.
Proof. intros [? ?]. lia. Qed.

Ltac char_tac := first [ lia | by apply char_range ].

Lemma strcmp_loop_run sg fuel s1 s2 l1 l2 m :
  (length l1 < fuel)%nat -> cstr m s1 l1 -> cstr m s2 l2 ->
  strcmp_loop sg fuel s1 s2 m = Some (byte_cmp (l1 ++ [0]) (l2 ++ [0]), m).
Proof.
  revert s1 s2 l1 l2. induction fuel as [|fuel IH]; intros s1 s2 l1 l2 Hf H1 H2; [lia|]. simpl.
  destruct l1 as [|a l1].
  - apply cstr_nil in H1. rewrite (bind_ld _ _ _ _ H1). destruct l2 as [|b l2].
    + apply cstr_nil in H2. by rewrite (bind_ld _ _ _ _ H2), char_val_diff.
    + apply cstr_cons in H2 as (Hb & H2 & _). rewrite (bind_ld _ _ _ _ H2), char_val_diff. cbn [app byte_cmp].
      rewrite orb_true_r. rewrite to_signed_diff by char_tac.
      rewrite Z.eqb_sym, char_nonzero by done. done.
  - apply cstr_cons in H1 as (Ha & H1 & Ht). rewrite (bind_ld _ _ _ _ H1). rewrite char_nonzero by done.
    destruct l2 as [|b l2].
    + apply cstr_nil in H2. rewrite (bind_ld _ _ _ _ H2), char_val_diff. cbn [app byte_cmp].
      rewrite orb_false_r, to_signed_diff by char_tac. rewrite char_nonzero by done. done.
    + apply cstr_cons in H2 as (Hb & H2 & Ht2). rewrite (bind_ld _ _ _ _ H2), char_val_diff. cbn [app byte_cmp].
      rewrite orb_false_r. destruct (_ =? 0) eqn:E; simpl; [|done]. apply IH; [simpl in Hf; lia|done|done].
Qed.

Lemma strcmp_run sg s1 s2 l1 l2 m :
  cstr m s1 l1 -> cstr m s2 l2 -> strcmp sg s1 s2 m = Some (byte_cmp (l1 ++ [0]) (l2 ++ [0]), m).
Proof. intros H1 H2. apply with_fuel_run, strcmp_loop_run; [by eapply cstr_fuel|done|done]. Qed.

Lemma byte_cmp_str l1 l2 : Forall is_char l1 -> Forall is_char l2 -> byte_cmp (l1 ++ [0]) (l2 ++ [0]) = 0 <-> l1 = l2.
Proof.
  intros H1. revert l2. induction H1 as [|a l1 Ha H1 IH]; intros [|b l2] H2; inversion H2; subst; cbn [app byte_cmp]; [done|..].
  - rewrite to_signed_diff by char_tac. rewrite Z.eqb_sym, char_nonzero by done. split; [|done].
    intros E. apply to_signed_nonzero in E; [done|char_tac..|]. unfold is_char in *; lia.
  - rewrite to_signed_diff by char_tac. rewrite char_nonzero by done. split; [|done].
    intros E. apply to_signed_nonzero in E; [done|char_tac..|]. unfold is_char in *; lia.
  - rewrite to_signed_diff by char_tac. destruct (Z.eqb_spec a b) as [->|Hne].
    + rewrite IH by done. naive_solver.
    + split; [|naive_solver]. intros E. apply to_signed_nonzero in E; [done|char_tac..|done].
Qed.

(** [strcmp] is 0 exactly on equal strings. *)
Lemma strcmp_equal sg s1 s2 l1 l2 m r :
  cstr m s1 l1 -> cstr m s2 l2 -> strcmp sg s1 s2 m = Some (r, m) -> r = 0 <-> l1 = l2.
Proof.
  intros H1 H2 E. rewrite (strcmp_run _ _ _ l1 l2) in E by done. injection E as <-.
  apply byte_cmp_str; [apply H1|apply H2].
Qed.

(** ** Searches *)
Lemma strchr_loop_run fuel s l c m :
  (length l < fuel)%nat -> cstr m s l ->
  strchr_loop fuel s c m =
    Some (match list_find (fun v => v = c) (l ++ [0]) with Some (i, _) => s + Z.of_nat i | None => 0 end, m).
Proof.
  revert s l. induction fuel as [|fuel IH]; intros s l Hf Hs; [lia|]. simpl. destruct l as [|v l].
  - apply cstr_nil in Hs. rewrite (bind_ld _ _ _ _ Hs). cbn [app list_find].
    destruct (Z.eqb_spec 0 c) as [<-|]; [by rewrite decide_True, Z.add_0_r|by rewrite decide_False].
  - apply cstr_cons in Hs as (Hv & Hl & Hs). rewrite (bind_ld _ _ _ _ Hl). cbn [app list_find].
    destruct (Z.eqb_spec v c) as [<-|]; [by rewrite decide_True, Z.add_0_r|].
    rewrite decide_False, char_nonzero by done. simpl in Hf. rewrite (IH _ l) by (done || lia).
    destruct (list_find _ (l ++ [0])) as [[i w]|]; simpl; [|done]. do 2 f_equal. lia.
Qed.

Lemma strchr_run s l c m :
  cstr m s l ->
  strchr s c m =
    Some (match list_find (fun v => v = u8 c) (l ++ [0]) with Some (i, _) => s + Z.of_nat i | None => 0 end, m).
Proof. intros Hs. apply with_fuel_run, strchr_loop_run; [by eapply cstr_fuel|done]. Qed.

(** The first place where [l2] is in [l1] *)
Definition first_occurrence (l1 l2 : list Z) (i : nat) : Prop :=
  l2 `prefix_of` drop i l1 /\ forall j, (j < i)%nat -> ~ l2 `prefix_of` drop j l1.

Lemma rd_cstr m s l : cstr m s l -> rd m s (Z.of_nat (length l)) = l.
Proof.
  intros [_ Hb _]. apply list_eq. intros i. rewrite lookup_rd. case_decide.
  - destruct (lookup_lt_is_Some_2 l i) as [v Hv]; [lia|]. by rewrite (Hb _ _ Hv), Hv.
  - symmetry. apply lookup_ge_None. lia.
Qed.

Lemma rd_prefix m s l n : cstr m s l -> (n <= length l)%nat -> rd m s (Z.of_nat n) = take n l.
Proof.
  intros Hc Hn. rewrite <- (rd_cstr m s l Hc) at 1. apply list_eq. intros i. rewrite lookup_take, !lookup_rd.
  repeat case_decide; done || lia.
Qed.

Lemma strstr_loop_run fuel s1 s2 l1 l2 m :
  bytes m -> (length l1 < fuel)%nat -> cstr m s1 l1 -> cstr m s2 l2 -> l2 <> [] ->
  Z.of_nat (length l2) < 2 ^ 31 ->
  exists r, strstr_loop fuel s1 s2 (Z.of_nat (length l1)) (Z.of_nat (length l2)) m = Some (r, m) /\
    ((exists i, r = s1 + Z.of_nat i /\ first_occurrence l1 l2 i) \/ r = 0 /\ forall i, ~ l2 `prefix_of` drop i l1).
Proof.
  intros Hb. revert s1 l1. induction fuel as [|fuel IH]; intros s1 l1 Hf H1 H2 Hne Hlen; [lia|]. simpl.
  destruct (Z.leb_spec (Z.of_nat (length l2)) (Z.of_nat (length l1))).
  2: { eexists. split; [done|]. right. split; [done|]. intros i Hp%prefix_length. rewrite length_drop in Hp. lia. }
  pose proof (cstr_mapped _ _ _ H1) as M1. pose proof (cstr_mapped _ _ _ H2) as M2.
  assert (strstr_step s1 s2 (Z.of_nat (length l2)) m =
    Some (byte_cmp (take (length l2) l1) l2 =? 0, m)) as E.
  { unfold strstr_step. rewrite wrap_small by lia.
    erewrite bind_run by (apply memcmp_run; [lia|done|mapped_tac|mapped_tac]).
    by rewrite (rd_prefix m s1 l1), (rd_cstr m s2 l2) by (done || lia). }
  erewrite bind_run by exact E.
  assert (byte_cmp (take (length l2) l1) l2 = 0 <-> l2 `prefix_of` l1) as Hz.
  { rewrite byte_cmp_zero; [|rewrite length_take; lia|..].
    - split; [intros <-; apply prefix_take|]. intros [k ->]. by rewrite take_app_length.
    - apply Forall_take. eapply Forall_impl; [apply H1|]. intros; by apply char_range.
    - eapply Forall_impl; [apply H2|]. intros; by apply char_range. }
  destruct (Z.eqb_spec (byte_cmp (take (length l2) l1) l2) 0) as [E0|E0].
  - eexists. split; [done|]. left. exists 0%nat. rewrite Z.add_0_r. split; [done|]. split; [by apply Hz|lia].
  - rewrite Hz in E0. destruct l1 as [|c l1]; [destruct l2; [done|simpl in *; lia]|].
    apply cstr_cons in H1 as (_ & _ & H1). simpl in Hf.
    destruct (IH (s1 + 1) l1 ltac:(lia) H1 H2 Hne Hlen) as (r & Er & Hr).
    exists r. split; [rewrite <- Er; f_equal; simpl; lia|]. destruct Hr as [(i & -> & Hp & Hfst)|[-> Hno]].
    + left. exists (S i). split; [lia|]. split; [done|]. intros [|j] Hj; [done|]. apply Hfst. lia.
    + right. split; [done|]. intros [|i]; [done|apply Hno].
Qed.

(** [strstr] finds the first occurrence, and [NULL] only when there is none. *)
Lemma strstr_run s1 s2 l1 l2 m :
  bytes m -> cstr m s1 l1 -> cstr m s2 l2 -> Z.of_nat (length l1) < 2 ^ 31 -> Z.of_nat (length l2) < 2 ^ 31 ->
  exists r, strstr s1 s2 m = Some (r, m) /\
    ((exists i, r = s1 + Z.of_nat i /\ first_occurrence l1 l2 i) \/ r = 0 /\ forall i, ~ l2 `prefix_of` drop i l1).
Proof.
  intros Hb H1 H2 Hl1 Hl2. unfold strstr. erewrite bind_run by (by apply strlen_run).
  rewrite s32_small by lia. cbv zeta. destruct (Z.eqb_spec (Z.of_nat (length l2)) 0) as [E|E].
  - eexists. split; [done|]. left. exists 0%nat. rewrite Z.add_0_r. destruct l2; [|simpl in E; lia].
    split; [done|]. split; [apply prefix_nil|lia].
  - erewrite bind_run by (by apply strlen_run). rewrite s32_small by lia.
    apply strstr_loop_run; try done; [by eapply cstr_fuel|]. by intros ->.
Qed.

(** * [strtok]: splitting a string in place, [lib/libc/string/strtok.c] *)

(** ** Splitting, on lists *)
Section span.
Context (p : Z -> bool).
Fixpoint span (l : list Z) : list Z * list Z :=
  match l with
  | [] => ([], [])
  | c :: l' => if p c then (c :: fst (span l'), snd (span l')) else ([], l)
  end.
Lemma span_app l : fst (span l) ++ snd (span l) = l.
Proof. induction l as [|c l IH]; simpl; [done|]. destruct (p c); simpl; [by rewrite IH|done]. Qed.
Lemma span_length l : (length (fst (span l)) + length (snd (span l)) = length l)%nat.
Proof. rewrite <- length_app. by rewrite span_app. Qed.
Lemma span_rest l c l' : snd (span l) = c :: l' -> p c = false.
Proof.
  induction l as [|d l IH]; simpl; [done|]. destruct (p d) eqn:E; simpl; [apply IH|]. by intros [= -> ->].
Qed.
End span.

Section tokens.
Context (D : list Z).
Definition delim (c : Z) : bool := bool_decide (c ∈ D).
Definition other (c : Z) : bool := negb (delim c).

(** The maximal runs of characters that are not delimiters, in order; [cur] is
    the run read so far. *)
Fixpoint fields (cur l : list Z) : list (list Z) :=
  match l with
  | [] => if bool_decide (cur = []) then [] else [cur]
  | c :: l =>
      if delim c then (if bool_decide (cur = []) then fields [] l else cur :: fields [] l)
      else fields (cur ++ [c]) l
  end.
Definition tokens (l : list Z) : list (list Z) := fields [] l.

Lemma fields_run cur l :
  cur <> [] -> fields cur l = (cur ++ fst (span other l)) :: tokens (tail (snd (span other l))).
Proof.
  revert cur. induction l as [|c l IH]; intros cur Hc; simpl.
  - rewrite bool_decide_false by done. by rewrite app_nil_r.
  - unfold other. destruct (delim c); simpl.
    + rewrite bool_decide_false by done. by rewrite app_nil_r.
    + rewrite IH by (by destruct cur). by rewrite <- app_assoc.
Qed.

Lemma tokens_step l :
  tokens l = match snd (span delim l) with
             | [] => []
             | r => fst (span other r) :: tokens (tail (snd (span other r)))
             end.
Proof.
  unfold tokens. induction l as [|c l IH]; simpl; [done|]. destruct (delim c) eqn:E; simpl; [by apply IH|].
  assert (other c = true) as -> by (unfold other; by rewrite E). by rewrite fields_run.
Qed.
End tokens.

(** ** The code *)
Lemma in_set_run fuel a D v m :
  (length D < fuel)%nat -> cstr m a D -> is_char v -> in_set fuel a v m = Some (delim D v, m).
Proof.
  intros Hf Hd Hv. revert a D Hf Hd. induction fuel as [|fuel IH]; intros a D Hf Hd; [lia|]. simpl.
  unfold delim. destruct D as [|w D].
  - apply cstr_nil in Hd. by rewrite (bind_ld _ _ _ _ Hd).
  - apply cstr_cons in Hd as (Hw & Hl & Hd). rewrite (bind_ld _ _ _ _ Hl), char_nonzero by done.
    destruct (Z.eqb_spec v w) as [->|].
    + rewrite bool_decide_true by set_solver. done.
    + simpl in Hf. rewrite (IH _ D) by (done || lia). unfold delim. do 2 f_equal. apply bool_decide_ext. set_solver.
Qed.

Lemma strspn_loop_run fuel p ct l D count m :
  (length l < fuel)%nat -> cstr m p l -> cstr m ct D ->
  strspn_loop fuel p ct count m = Some (count + Z.of_nat (length (fst (span (delim D) l))), m).
Proof.
  revert p l count. induction fuel as [|fuel IH]; intros p l count Hf Hp Hd; [lia|]. simpl. destruct l as [|c l].
  - apply cstr_nil in Hp. rewrite (bind_ld _ _ _ _ Hp). simpl. by rewrite Z.add_0_r.
  - apply cstr_cons in Hp as (Hc & Hl & Hp). rewrite (bind_ld _ _ _ _ Hl), char_nonzero by done. simpl in *.
    erewrite bind_run by (apply with_fuel_run, in_set_run; [by eapply cstr_fuel|done|done]).
    destruct (delim D c); simpl; [|by rewrite Z.add_0_r]. rewrite (IH _ l) by (done || lia). do 2 f_equal. lia.
Qed.

Lemma strspn_run p ct l D m :
  cstr m p l -> cstr m ct D -> strspn p ct m = Some (Z.of_nat (length (fst (span (delim D) l))), m).
Proof. intros Hp Hd. apply with_fuel_run. rewrite (strspn_loop_run _ _ _ l D); [done|by apply cstr_fuel in Hp|done|done]. Qed.

Lemma strpbrk_loop_run fuel p ct l D m :
  (length l < fuel)%nat -> cstr m p l -> cstr m ct D ->
  strpbrk_loop fuel p ct m =
    Some (match snd (span (other D) l) with [] => 0 | _ => p + Z.of_nat (length (fst (span (other D) l))) end, m).
Proof.
  revert p l. induction fuel as [|fuel IH]; intros p l Hf Hp Hd; [lia|]. simpl. destruct l as [|c l].
  - apply cstr_nil in Hp. by rewrite (bind_ld _ _ _ _ Hp).
  - apply cstr_cons in Hp as (Hc & Hl & Hp). rewrite (bind_ld _ _ _ _ Hl), char_nonzero by done. simpl in *.
    erewrite bind_run by (apply with_fuel_run, in_set_run; [by eapply cstr_fuel|done|done]).
    destruct (other D c) eqn:E; unfold other in E; apply (f_equal negb) in E; rewrite negb_involutive in E; rewrite E; simpl; [|by rewrite Z.add_0_r].
    rewrite (IH _ l) by (done || lia). destruct (snd (span (other D) l)); [done|]. do 2 f_equal. lia.
Qed.

Lemma strpbrk_run p ct l D m :
  cstr m p l -> cstr m ct D ->
  strpbrk p ct m =
    Some (match snd (span (other D) l) with [] => 0 | _ => p + Z.of_nat (length (fst (span (other D) l))) end, m).
Proof. intros Hp Hd. apply with_fuel_run, strpbrk_loop_run; [by eapply cstr_fuel|done|done]. Qed.

(** A string cut at one of its characters is two strings. *)
Lemma cstr_cut m p t c u :
  cstr m p (t ++ c :: u) ->
  cstr (<[p + Z.of_nat (length t) := 0]> m) p t /\
  cstr (<[p + Z.of_nat (length t) := 0]> m) (p + Z.of_nat (length t) + 1) u.
Proof.
  intros Hp. split.
  - destruct Hp as [Hc Hb He]. apply Forall_app in Hc as [Hc _]. split; [done| |].
    + intros i v Hi. pose proof (lookup_lt_Some _ _ _ Hi). rewrite lookup_insert_ne by lia.
      apply Hb. by apply lookup_app_l_Some.
    + by rewrite lookup_insert_eq.
  - apply cstr_insert; [lia|]. apply cstr_app in Hp. by apply cstr_cons in Hp as (_ & _ & Hp).
Qed.

(** A call of [strtok] on the string at [q]: given as [s], or saved by the last call. *)
Lemma strtok_run saved s q ct l D m :
  q = (if negb (s =? 0) then s else saved) -> 0 < q -> cstr m q l -> cstr m ct D ->
  let r := snd (span (delim D) l) in
  let b := q + Z.of_nat (length (fst (span (delim D) l))) in
  let t := fst (span (other D) r) in
  let e := b + Z.of_nat (length t) in
  strtok saved s ct m =
    match r, snd (span (other D) r) with
    | [], _ => Some ((0, 0), m)
    | _, [] => Some ((b, 0), m)
    | _, _ => Some ((b, e + 1), <[e := 0]> m)
    end.
Proof.
  intros Eq Hq Hl Hd r b t e. unfold strtok. rewrite <- Eq. cbv zeta. rewrite (proj2 (Z.eqb_neq q 0)) by lia.
  erewrite bind_run by (by apply strspn_run). fold b.
  assert (cstr m b r) as Hb by (apply cstr_app; by rewrite span_app).
  destruct r as [|c r'] eqn:Er.
  { apply cstr_nil in Hb. by rewrite (bind_ld _ _ _ _ Hb). }
  pose proof (proj1 (cstr_cons _ _ _ _) Hb) as (Hc & Hbc & _).
  rewrite (bind_ld _ _ _ _ Hbc), char_nonzero by done.
  erewrite bind_run by (by apply strpbrk_run).
  destruct (snd (span (other D) (c :: r'))) as [|d u] eqn:Eu; [done|].
  fold t e. assert (0 < e) by lia. rewrite (proj2 (Z.eqb_neq e 0)) by lia. simpl negb. cbv iota.
  assert (cstr m e (d :: u)) as He by (apply cstr_app; subst t; rewrite <- Eu; by rewrite span_app).
  apply cstr_cons in He as (Hdc & He & _). rewrite (bind_run _ _ m (e + 1) (<[e := 0]> m)); [done|].
  rewrite (bind_ld _ _ _ _ He), char_nonzero by done. simpl. by rewrite bind_st by (eauto || lia).
Qed.

(** All tokens of a string: [for (t = strtok(s, ct); t; t = strtok(NULL, ct))] *)
Fixpoint strtok_all (fuel : nat) (saved s ct : Z) : cm (list Z) :=
  match fuel with
  | O => fault
  | S fuel =>
      '(t, saved) ← strtok saved s ct;
      if t =? 0 then mret [] else ts ← strtok_all fuel saved 0 ct; mret (t :: ts)
  end.

Lemma strtok_all_run fuel saved s q ct l D m :
  (length l < fuel)%nat -> q = (if negb (s =? 0) then s else saved) -> 0 < q -> cstr m q l -> cstr m ct D ->
  q + Z.of_nat (length l) < ct \/ ct + Z.of_nat (length D) < q ->
  exists ts m', strtok_all fuel saved s ct m = Some (ts, m') /\ Forall2 (cstr m') ts (tokens D l) /\
    forall x, ~ (q <= x < q + Z.of_nat (length l)) -> m' !! x = m !! x.
Proof.
  revert saved s q l m. induction fuel as [|fuel IH]; intros saved s q l m Hf Eq Hq Hl Hd Hx; [lia|]. simpl.
  pose proof (strtok_run saved s q ct l D m Eq Hq Hl Hd) as Hrun. cbv zeta in Hrun.
  rewrite (tokens_step D l). cbv zeta. set (sp := span (delim D) l) in *.
  assert (length (fst sp) + length (snd sp) = length l)%nat as Hlen by apply span_length.
  assert (cstr m (q + Z.of_nat (length (fst sp))) (snd sp)) as Hb by (apply cstr_app; subst sp; by rewrite span_app).
  destruct (snd sp) as [|c r'] eqn:Er.
  { erewrite bind_run by exact Hrun. eexists _, _. split; [done|]. by split; [constructor|]. }
  pose proof (span_app (other D) (c :: r')) as Happ. pose proof (span_length (other D) (c :: r')) as Hlen2.
  set (t := fst (span (other D) (c :: r'))) in *. set (b := q + Z.of_nat (length (fst sp))) in *.
  destruct (snd (span (other D) (c :: r'))) as [|d u] eqn:Eu.
  - erewrite bind_run by exact Hrun. cbv beta iota. rewrite (proj2 (Z.eqb_neq b 0)) by lia.
    destruct fuel as [|fuel]; [simpl in *; lia|]. exists [b], m. split; [done|]. split; [|done].
    constructor; [|constructor]. by rewrite <- Happ, app_nil_r in Hb.
  - erewrite bind_run by exact Hrun. cbv beta iota. rewrite (proj2 (Z.eqb_neq b 0)) by lia.
    rewrite <- Happ in Hb. destruct (cstr_cut _ _ _ _ _ Hb) as [Ht Hu]. cbn [length] in *.
    destruct (IH (b + Z.of_nat (length t) + 1) 0 (b + Z.of_nat (length t) + 1) u
      (<[b + Z.of_nat (length t) := 0]> m)) as (ts & m' & E & Hts & Hout);
      [lia|done|lia|done|apply cstr_insert; [lia|done]|lia|].
    exists (b :: ts), m'. erewrite bind_run by exact E. split; [done|]. split.
    + constructor; [|done]. eapply cstr_ext; [|exact Ht]. intros x Hx'. apply Hout. lia.
    + intros x Hx'. rewrite Hout, lookup_insert_ne by lia. done.
Qed.
