(* ===== verification/Strtol.v ===== *)
(** * Numbers in strings: the code of [lib/libc/strtol.c], [strtoll.c] and [atoi.c]

    [long] and [long long] have 64 bits.  [strtol] and its kin return the value,
    what they store through [endptr], and whether they set [errno] to [ERANGE].
    Signed arithmetic that overflows is a fault. *)
From S2P Require Import Prelude Cstring.

Definition LONG_MAX : Z := 2 ^ 63 - 1.
Definition LONG_MIN : Z := - 2 ^ 63.
Definition LLONG_MAX : Z := 2 ^ 63 - 1.
Definition LLONG_MIN : Z := - 2 ^ 63.

(** A signed value that must fit into 64 bits. *)
Definition signed_long (v : Z) : cm Z := if (LONG_MIN <=? v) && (v <=? LONG_MAX) then mret v else fault.

Record strto_result := StrTo { sr_value : Z; sr_endptr : Z; sr_erange : bool }.

Section strtol.
Context (char_signed : bool).

(** [do { c = (unsigned char) *s++; } while (isspace(c));] *)
Fixpoint skip_space (fuel : nat) (s : Z) : cm (Z * Z) :=
  match fuel with
  | O => fault
  | S fuel => c ← ld s; if isspace c then skip_space fuel (s + 1) else mret (c, s + 1)
  end.

(** The leading white space, sign and base prefix: whether it is negative, [c],
    [s] and the base. *)
Definition strtol_prefix (nptr base : Z) : cm (bool * Z * Z * Z) :=
  '(c, s) ← with_fuel (fun fuel => skip_space fuel nptr);
  '(neg, c, s) ←
    (if c =? 45 then c ← ld s; mret (true, char_val char_signed c, s + 1)
     else if c =? 43 then c ← ld s; mret (false, char_val char_signed c, s + 1)
     else mret (false, c, s));
  '(c, s, base) ←
    (if ((base =? 0) || (base =? 16)) && (c =? 48) then
       x ← ld s;
       if (x =? 120) || (x =? 88) then
         c ← ld (s + 1); mret (char_val char_signed c, s + 2, 16)
       else mret (c, s, base)
     else mret (c, s, base));
  let base := if base =? 0 then (if c =? 48 then 8 else 10) else base in
  mret (neg, c, s, base).

(** The cutoff and the limit of the last digit. *)
Definition strtol_cutoff (min max : Z) (neg : bool) (base : Z) : Z * Z :=
  let cutoff := if neg then min else max in
  let cutlim := Z.rem cutoff base in
  let cutoff := Z.quot cutoff base in
  if neg then
    let '(cutlim, cutoff) := if 0 <? cutlim then (cutlim - base, cutoff + 1) else (cutlim, cutoff) in
    (cutoff, - cutlim)
  else (cutoff, cutlim).

(** The digit that a character stands for *)
Definition digit_of (c : Z) : option Z :=
  if isdigit c then Some (c - 48)
  else if isalpha c then Some (c - (if isupper c then 65 - 10 else 97 - 10))
  else None.

(** The loop over the digits; [any] is -1 after an overflow, 1 after a digit. *)
Fixpoint strtol_loop (fuel : nat) (min max : Z) (neg : bool) (base cutoff cutlim c s acc any : Z)
  (erange : bool) : cm (Z * Z * Z * bool) :=
  match fuel with
  | O => fault
  | S fuel =>
      match digit_of c with
      | None => mret (acc, any, s, erange)
      | Some d =>
          if base <=? d then mret (acc, any, s, erange)
          else
            '(acc, any, erange) ←
              (if any <? 0 then mret (acc, any, erange)
               else if neg then
                 if (acc <? cutoff) || ((acc =? cutoff) && (cutlim <? d)) then mret (min, -1, true)
                 else acc ← signed_long (acc * base); acc ← signed_long (acc - d); mret (acc, 1, erange)
               else
                 if (cutoff <? acc) || ((acc =? cutoff) && (cutlim <? d)) then mret (max, -1, true)
                 else acc ← signed_long (acc * base); acc ← signed_long (acc + d); mret (acc, 1, erange));
            c ← ld s;
            strtol_loop fuel min max neg base cutoff cutlim c (s + 1) acc any erange
      end
  end.

Definition strtol (nptr base : Z) : cm strto_result :=
  '(neg, c, s, base) ← strtol_prefix nptr base;
  let '(cutoff, cutlim) := strtol_cutoff LONG_MIN LONG_MAX neg base in
  '(acc, any, s, erange) ←
    with_fuel (fun fuel => strtol_loop fuel LONG_MIN LONG_MAX neg base cutoff cutlim c s 0 0 false);
  mret (StrTo acc (if negb (any =? 0) then s - 1 else nptr) erange).

Definition strtoll (nptr base : Z) : cm strto_result :=
  '(neg, c, s, base) ← strtol_prefix nptr base;
  let '(cutoff, cutlim) := strtol_cutoff LLONG_MIN LLONG_MAX neg base in
  '(acc, any, s, erange) ←
    with_fuel (fun fuel => strtol_loop fuel LLONG_MIN LLONG_MAX neg base cutoff cutlim c s 0 0 false);
  mret (StrTo acc (if negb (any =? 0) then s - 1 else nptr) erange).

(** ** [atoi.c] *)
Definition hexval (c : Z) : Z :=
  if (48 <=? c) && (c <=? 57) then c - 48
  else if (97 <=? c) && (c <=? 102) then c - 97 + 10
  else if (65 <=? c) && (c <=? 70) then c - 65 + 10
  else 0.

(** [while ( *num && p( *num)) value = ...;] *)
Fixpoint ato_loop (fuel : nat) (p : Z -> bool) (step : Z -> Z -> cm Z) (num value : Z) : cm Z :=
  match fuel with
  | O => fault
  | S fuel =>
      c ← ld num;
      let c := char_val char_signed c in
      if negb (c =? 0) && p c then value ← step value c; ato_loop fuel p step (num + 1) value
      else mret value
  end.

(** [value * 16 + hexval(c)] and [value * 10 + c - '0'], with the arithmetic of
    the type of [value] *)
Definition hex_step (arith : Z -> cm Z) (value c : Z) : cm Z := arith (value * 16 + hexval c).
Definition dec_step (arith : Z -> cm Z) (value c : Z) : cm Z := v ← arith (value * 10 + c); arith (v - 48).

Fixpoint skip_blank (fuel : nat) (num : Z) : cm Z :=
  match fuel with
  | O => fault
  | S fuel => c ← ld num; if isspace (char_val char_signed c) then skip_blank fuel (num + 1) else mret num
  end.

(** Whether the string starts with [0x] *)
Definition hex_prefix (num : Z) : cm bool :=
  c ← ld num; if c =? 48 then x ← ld (num + 1); mret (x =? 120) else mret false.

Definition atol (num : Z) : cm Z :=
  num ← with_fuel (fun fuel => skip_blank fuel num);
  h ← hex_prefix num;
  if (h : bool) then
    with_fuel (fun fuel => ato_loop fuel isxdigit (hex_step signed_long) (num + 2) 0)
  else
    c ← ld num;
    let neg := c =? 45 in
    let num := if neg || (c =? 43) then num + 1 else num in
    value ← with_fuel (fun fuel => ato_loop fuel isdigit (dec_step signed_long) num 0);
    mret (if neg then - value else value).
Definition atoi (num : Z) : cm Z := v ← atol num; mret (s32 v).

(** Unsigned arithmetic wraps around. *)
Definition unsigned_long (v : Z) : cm Z := mret (u64 v).
Definition atoul (num : Z) : cm Z :=
  h ← hex_prefix num;
  if (h : bool)
  then with_fuel (fun fuel => ato_loop fuel isxdigit (hex_step unsigned_long) (num + 2) 0)
  else with_fuel (fun fuel => ato_loop fuel isdigit (dec_step unsigned_long) num 0).
Definition atoui (num : Z) : cm Z := v ← atoul num; mret (u32 v).
Definition atoull (num : Z) : cm Z :=
  h ← hex_prefix num;
  if (h : bool)
  then with_fuel (fun fuel => ato_loop fuel isxdigit (hex_step unsigned_long) (num + 2) 0)
  else with_fuel (fun fuel => ato_loop fuel isdigit (dec_step unsigned_long) num 0).

(** [v] of the loop of [strtoul] *)
Definition strtoul_digit (c : Z) : Z :=
  if (65 <=? c) && (c <=? 90) then c - 65 + 10
  else if (97 <=? c) && (c <=? 122) then c - 97 + 10
  else if (48 <=? c) && (c <=? 57) then c - 48
  else -1.

Fixpoint strtoul_loop (fuel : nat) (base nptr ret : Z) (erange : bool) : cm (Z * Z * bool) :=
  match fuel with
  | O => fault
  | S fuel =>
      c ← ld nptr;
      let v := strtoul_digit (char_val char_signed c) in
      if (v <? 0) || (base <=? v) then mret (ret, nptr, erange)
      else
        let new_ret := u64 (ret * base) in
        if negb (new_ret / base =? ret) || (u64 (new_ret + v) <? new_ret) || (ret =? ULONG_MAX)
        then strtoul_loop fuel base (nptr + 1) ULONG_MAX true
        else strtoul_loop fuel base (nptr + 1) (u64 (new_ret + v)) erange
  end.

(** [endptr] is left alone for a base that is not valid ([None]). *)
Definition strtoul (nptr base : Z) : cm (option strto_result) :=
  if (base <? 0) || (base =? 1) || (36 <? base) then mret None
  else
    nptr ← with_fuel (fun fuel => skip_blank fuel nptr);
    c ← ld nptr;
    let neg := c =? 45 in
    let nptr := if (c =? 43) || neg then nptr + 1 else nptr in
    h ← (if (base =? 0) || (base =? 16) then hex_prefix nptr else mret false);
    z ← (if base =? 0 then c ← ld nptr; mret (c =? 48) else mret false);
    let '(base, nptr) :=
      if (h : bool) then (16, nptr + 2)
      else if (z : bool) then (8, nptr + 1)
      else if base =? 0 then (10, nptr)
      else (base, nptr) in
    '(ret, nptr, erange) ← with_fuel (fun fuel => strtoul_loop fuel base nptr 0 false);
    mret (Some (StrTo (if neg && negb (ret =? ULONG_MAX) then u64 (- ret) else ret) nptr erange)).
End strtol.
