(* ===== verification/StrtolOps.v ===== *)
(** * Reading numbers: [strtol], [strtoll] and [strtoul] against the value of the digits *)
From S2P Require Import Prelude Cstring CstringMem CstringOps Strtol.

(** ** The number a string starts with *)

(** The digits in front, as numbers *)
Fixpoint take_digits (base : Z) (l : list Z) : list Z :=
  match l with
  | [] => []
  | c :: l =>
      match digit_of c with
      | Some d => if d <? base then d :: take_digits base l else []
      | None => []
      end
  end.
Definition digits_value (base : Z) (ds : list Z) : Z := foldl (fun v d => v * base + d) 0 ds.

Fixpoint drop_space (l : list Z) : list Z :=
  match l with
  | c :: l' => if isspace c then drop_space l' else l
  | [] => []
  end.
Definition drop_sign (l : list Z) : bool * list Z :=
  match l with
  | c :: l' => if c =? 45 then (true, l') else if c =? 43 then (false, l') else (false, l)
  | [] => (false, [])
  end.
Definition is_x (c : Z) : bool := (c =? 120) || (c =? 88).
(** The base, and the digits: [0x] stands for 16 and [0] for 8 where the base is
    open, and [0x] may stand in front for 16. *)
Definition drop_base (base : Z) (l : list Z) : Z * list Z :=
  match l with
  | c :: x :: l'' =>
      if ((base =? 0) || (base =? 16)) && (c =? 48) && is_x x then (16, l'')
      else (if base =? 0 then (if c =? 48 then 8 else 10) else base, l)
  | _ => (if base =? 0 then (if default 0 (head l) =? 48 then 8 else 10) else base, l)
  end.

(** The number, cut to the range; how many characters were read; whether it was
    out of range. *)
Definition clamp (min max v : Z) : Z := Z.max min (Z.min max v).
Definition read_number (min max base : Z) (l : list Z) : Z * Z * bool :=
  let '(neg, l2) := drop_sign (drop_space l) in
  let '(base, l3) := drop_base base l2 in
  let ds := take_digits base l3 in
  let v := if neg then - digits_value base ds else digits_value base ds in
  (clamp min max v,
   if bool_decide (ds = []) then 0 else Z.of_nat (length l - length l3 + length ds),
   negb ((min <=? v) && (v <=? max))).

(** ** The loop *)
Lemma digit_of_range c d : digit_of c = Some d -> 0 <= d /\ 0 < c.
Proof.
  unfold digit_of, isdigit, isalpha, isupper, islower.
  destruct ((48 <=? c) && (c <=? 57)) eqn:E1; [intros [= <-]; bool_cases; lia|].
  destruct ((65 <=? c) && (c <=? 90)) eqn:E2; simpl; [intros [= <-]; bool_cases; lia|].
  destruct ((97 <=? c) && (c <=? 122)) eqn:E3; [|done]. intros [= <-]. bool_cases. lia.
Qed.

Lemma digit_of_char sg c : 0 <= c < 256 -> digit_of (char_val sg c) = digit_of c.
Proof.
  intros Hc. destruct sg; [|done]. unfold char_val, to_signed. rewrite wrap_small by lia.
  change (2 ^ (8 - 1)) with 128. change (2 ^ 8) with 256. destruct (Z.ltb_spec c 128); [done|].
  unfold digit_of, isdigit, isalpha, isupper, islower.
  repeat match goal with |- context [?a <=? ?b] => destruct (Z.leb_spec a b); try lia end; done.
Qed.

Lemma char_val_eq sg c k : 0 <= c < 256 -> 0 <= k < 128 -> (char_val sg c =? k) = (c =? k).
Proof.
  intros Hc Hk. destruct sg; [|done]. unfold char_val, to_signed. rewrite wrap_small by lia.
  change (2 ^ (8 - 1)) with 128. change (2 ^ 8) with 256. destruct (Z.ltb_spec c 128); [done|].
  rewrite !(proj2 (Z.eqb_neq _ _)) by lia. done.
Qed.

(** What the loop has in hand: the first character of [l], or the zero behind it. *)
Definition at_char (c : Z) (l : list Z) : Prop :=
  digit_of c = digit_of (default 0 (head l)) /\ (c =? 48) = (default 0 (head l) =? 48).

Lemma take_digits_step base l :
  take_digits base l =
    match digit_of (default 0 (head l)) with
    | Some d => if d <? base then d :: take_digits base (tail l) else []
    | None => []
    end.
Proof. by destruct l. Qed.

Section loop.
Context (min max base : Z) (neg : bool).
Context (Hbase : 0 < base) (Hmin : min < 0) (Hmax : 0 < max) (Hrange : LONG_MIN <= min /\ max <= LONG_MAX).

(** The largest value of the digits *)
Definition limit : Z := if neg then - min else max.
Definition signed (v : Z) : Z := if neg then - v else v.

Lemma limit_pos : 0 < limit.
Proof using Hmin Hmax. unfold limit. destruct neg; lia. Qed.

Lemma strtol_cutoff_run : strtol_cutoff min max neg base = (signed (limit / base), limit mod base).
Proof using All.
  unfold strtol_cutoff, signed, limit. destruct neg.
  - assert (Z.rem min base = - ((- min) mod base)) as ->.
    { rewrite <- (Z.opp_involutive min) at 1. rewrite Z.rem_opp_l, Z.rem_mod_nonneg by lia. done. }
    assert (Z.quot min base = - ((- min) / base)) as ->.
    { rewrite <- (Z.opp_involutive min) at 1. rewrite Z.quot_opp_l, Z.quot_div_nonneg by lia. done. }
    pose proof (Z.mod_pos_bound (- min) base Hbase). rewrite (proj2 (Z.ltb_ge _ _)) by lia.
    by rewrite Z.opp_involutive.
  - by rewrite Z.rem_mod_nonneg, Z.quot_div_nonneg by lia.
Qed.

(** The test for overflow is exact. *)
Lemma cutoff_exact v d :
  0 <= v -> 0 <= d < base ->
  ((limit / base <? v) || ((v =? limit / base) && (limit mod base <? d))) = (limit <? v * base + d).
Proof using Hbase.
  intros Hv Hd. pose proof (Z.div_mod limit base ltac:(lia)) as E. pose proof (Z.mod_pos_bound limit base Hbase).
  apply eq_true_iff_eq. rewrite orb_true_iff, andb_true_iff, !Z.ltb_lt, Z.eqb_eq. nia.
Qed.

Lemma clamp_signed v : 0 <= v ->
  clamp min max (signed v) = if limit <? v then (if neg then min else max) else signed v.
Proof using Hmin Hmax.
  intros. unfold clamp, signed, limit. destruct neg; [destruct (Z.ltb_spec (- min) v)|destruct (Z.ltb_spec max v)]; lia.
Qed.

Lemma out_of_range v : 0 <= v -> negb ((min <=? signed v) && (signed v <=? max)) = (limit <? v).
Proof using Hmin Hmax.
  intros. apply eq_true_iff_eq. rewrite negb_true_iff, andb_false_iff, !Z.leb_gt, Z.ltb_lt.
  unfold signed, limit. destruct neg; lia.
Qed.

(** The variables of the loop after digits of value [v]; [k] of them. *)
Definition acc_of (v : Z) : Z := if limit <? v then (if neg then min else max) else signed v.
Definition any_of (v : Z) (k : nat) : Z := if limit <? v then -1 else if (k =? 0)%nat then 0 else 1.

Lemma signed_long_run v m : LONG_MIN <= v <= LONG_MAX -> signed_long v m = Some (v, m).
Proof. intros. unfold signed_long. by rewrite !(proj2 (Z.leb_le _ _)) by lia. Qed.

Lemma strtol_step v k d m :
  0 <= v -> 0 <= d < base ->
  (if any_of v k <? 0 then mret (acc_of v, any_of v k, limit <? v)
   else if neg then
     if (acc_of v <? signed (limit / base)) || ((acc_of v =? signed (limit / base)) && (limit mod base <? d))
     then mret (min, -1, true)
     else acc ← signed_long (acc_of v * base); acc ← signed_long (acc - d); mret (acc, 1, limit <? v)
   else
     if (signed (limit / base) <? acc_of v) || ((acc_of v =? signed (limit / base)) && (limit mod base <? d))
     then mret (max, -1, true)
     else acc ← signed_long (acc_of v * base); acc ← signed_long (acc + d); mret (acc, 1, limit <? v)) m =
  Some ((acc_of (v * base + d), any_of (v * base + d) (S k), limit <? v * base + d), m).
Proof using All.
  intros Hv Hd. pose proof (cutoff_exact v d Hv Hd) as Hx. unfold any_of, acc_of.
  assert (v <= v * base + d) by nia.
  destruct (Z.ltb_spec limit v) as [Ho|Ho].
  { rewrite (proj2 (Z.ltb_lt limit (v * base + d))) by lia. done. }
  assert (((if (k =? 0)%nat then 0 else 1) <? 0) = false) as -> by (by destruct k).
  assert (limit = if neg then - min else max) as El by done. unfold signed. destruct neg.
  - assert ((- v <? - (limit / base)) = (limit / base <? v)) as -> by (apply eq_true_iff_eq; rewrite !Z.ltb_lt; lia).
    assert ((- v =? - (limit / base)) = (v =? limit / base)) as -> by (apply eq_true_iff_eq; rewrite !Z.eqb_eq; lia).
    rewrite Hx. destruct (Z.ltb_spec limit (v * base + d)) as [Hl|Hl]; [done|].
    erewrite bind_run by (apply signed_long_run; unfold LONG_MIN, LONG_MAX in *; nia).
    erewrite bind_run by (apply signed_long_run; unfold LONG_MIN, LONG_MAX in *; nia).
    unfold mret, cm_mret, cm_ret. do 5 f_equal. lia.
  - rewrite Hx. destruct (Z.ltb_spec limit (v * base + d)) as [Hl|Hl]; [done|].
    erewrite bind_run by (apply signed_long_run; unfold LONG_MIN, LONG_MAX in *; nia).
    by erewrite bind_run by (apply signed_long_run; unfold LONG_MIN, LONG_MAX in *; nia).
Qed.

Lemma strtol_loop_run fuel c s l v k m :
  (length l < fuel)%nat -> 0 <= v -> cstr m (s - 1) l -> at_char c l ->
  let ds := take_digits base l in
  let v' := foldl (fun v d => v * base + d) v ds in
  strtol_loop fuel min max neg base (signed (limit / base)) (limit mod base) c s
    (acc_of v) (any_of v k) (limit <? v) m =
    Some ((acc_of v', any_of v' (k + length ds), s + Z.of_nat (length ds), limit <? v'), m) /\ 0 <= v'.
Proof using All.
  revert c s l v k. induction fuel as [|fuel IH]; intros c s l v k Hf Hv Hl [Hc _]; [lia|].
  cbv zeta. simpl strtol_loop. rewrite Hc, take_digits_step.
  destruct (digit_of (default 0 (head l))) as [d|] eqn:Ed.
  2: { simpl. rewrite Nat.add_0_r, Z.add_0_r. done. }
  apply digit_of_range in Ed as [Hd Hnz]. destruct l as [|c' l]; [simpl in Hnz; lia|].
  apply cstr_cons in Hl as (_ & _ & Hl). replace (s - 1 + 1) with s in Hl by lia. simpl tail.
  destruct (Z.leb_spec base d).
  { rewrite (proj2 (Z.ltb_ge d base)) by lia. simpl. rewrite Nat.add_0_r, Z.add_0_r. done. }
  rewrite (proj2 (Z.ltb_lt d base)) by lia.
  erewrite bind_run by (apply strtol_step; lia).
  assert (m !! s = Some (default 0 (head l))) as Hs.
  { destruct l; [by apply cstr_nil|]. by apply cstr_cons in Hl as (_ & ? & _). }
  cbv beta iota. rewrite (bind_ld _ _ _ _ Hs). simpl in Hf.
  destruct (IH (default 0 (head l)) (s + 1) l (v * base + d) (S k)) as [E Hv'];
    [lia|nia|by rewrite Z.add_simpl_r|done|].
  rewrite E. simpl. split; [|done]. do 4 f_equal; [|lia]. f_equal. f_equal. lia.
Qed.
End loop.

(** ** What is in front of the digits *)
Lemma cstr_head m s l : cstr m s l -> m !! s = Some (default 0 (head l)).
Proof. destruct l; [by intros ?%cstr_nil|]. by intros (_ & ? & _)%cstr_cons. Qed.

Lemma cstr_head_range m s l : cstr m s l -> 0 <= default 0 (head l) < 256.
Proof. destruct l; [simpl; lia|]. intros ((? & ?) & _)%cstr_cons. simpl. lia. Qed.

(** The string from [l'] on, in the middle of [l] *)
Definition suffix_at (m : cmem) (s : Z) (l l' : list Z) : Prop :=
  cstr m (s + Z.of_nat (length l - length l')) l' /\ (length l' <= length l)%nat.

Lemma suffix_tail m s l c l' : suffix_at m s l (c :: l') -> suffix_at m s l l'.
Proof.
  intros [Hc Hl]. apply cstr_cons in Hc as (_ & _ & Hc). simpl in *. split; [|lia].
  by replace (s + Z.of_nat (length l - length l')) with (s + Z.of_nat (length l - S (length l')) + 1) by lia.
Qed.

Lemma drop_space_suffix m s l : cstr m s l -> suffix_at m s l (drop_space l).
Proof.
  revert s. induction l as [|c l IH]; intros s Hs.
  - split; [simpl; by rewrite Z.add_0_r|done].
  - simpl. destruct (isspace c); [|split; [by rewrite Nat.sub_diag, Z.add_0_r|done]].
    apply cstr_cons in Hs as (_ & _ & Hs). destruct (IH _ Hs) as [Hc Hl]. split; simpl; [|lia].
    by replace (s + Z.of_nat (S (length l) - length (drop_space l))) with
      (s + 1 + Z.of_nat (length l - length (drop_space l))) by lia.
Qed.

Lemma skip_space_run fuel s l m :
  (length l < fuel)%nat -> cstr m s l ->
  skip_space fuel s m =
    Some ((default 0 (head (drop_space l)), s + Z.of_nat (length l - length (drop_space l)) + 1), m).
Proof.
  revert s l. induction fuel as [|fuel IH]; intros s l Hf Hs; [lia|]. simpl.
  rewrite (bind_ld _ _ _ _ (cstr_head _ _ _ Hs)). destruct l as [|c l]; simpl.
  - by rewrite Z.add_0_r.
  - destruct (isspace c).
    + apply cstr_cons in Hs as (_ & _ & Hs). simpl in Hf. rewrite (IH _ l) by (done || lia).
      pose proof (drop_space_suffix _ _ _ Hs) as [_ ?]. do 3 f_equal. lia.
    + by rewrite Nat.sub_diag, Z.add_0_r.
Qed.

Lemma drop_sign_suffix m s l l0 : suffix_at m s l l0 -> suffix_at m s l (snd (drop_sign l0)).
Proof.
  intros H0. unfold drop_sign. destruct l0 as [|c l0]; [done|].
  destruct (c =? 45); [by apply suffix_tail in H0|]. by destruct (c =? 43); [apply suffix_tail in H0|].
Qed.

Lemma drop_base_suffix m s l b l0 : suffix_at m s l l0 -> suffix_at m s l (snd (drop_base b l0)).
Proof.
  intros H0. unfold drop_base. destruct l0 as [|c [|x l0]]; [done..|].
  destruct (_ && _); [|done]. by do 2 apply suffix_tail in H0.
Qed.

Lemma at_char_head sg m s l : cstr m s l -> at_char (char_val sg (default 0 (head l))) l.
Proof. intros Hr%cstr_head_range. split; [by apply digit_of_char|by apply char_val_eq]. Qed.

Lemma at_char_refl l : at_char (default 0 (head l)) l.
Proof. done. Qed.

Lemma suffix_load m s l l' : suffix_at m s l l' -> m !! (s + Z.of_nat (length l - length l')) = Some (default 0 (head l')).
Proof. intros [Hc _]. by apply cstr_head in Hc. Qed.

(** The sign: the character behind it is in hand. *)
Lemma strtol_sign_run sg m s l l0 :
  suffix_at m s l l0 ->
  let p := s + Z.of_nat (length l - length l0) + 1 in
  let l2 := snd (drop_sign l0) in
  exists c, (if default 0 (head l0) =? 45 then c ← ld p; mret (true, char_val sg c, p + 1)
   else if default 0 (head l0) =? 43 then c ← ld p; mret (false, char_val sg c, p + 1)
   else mret (false, default 0 (head l0), p)) m =
    Some ((fst (drop_sign l0), c, s + Z.of_nat (length l - length l2) + 1), m) /\ at_char c l2.
Proof.
  intros H0 p l2. destruct l0 as [|c l0]; simpl.
  { eexists. by split. }
  subst l2. simpl. pose proof (suffix_tail _ _ _ _ _ H0) as H1. pose proof (suffix_load _ _ _ _ H1) as Hl.
  replace (s + Z.of_nat (length l - length l0)) with p in Hl by (subst p; destruct H0; simpl in *; lia).
  assert (p = s + Z.of_nat (length l - length l0)) as Ep by (subst p; destruct H0; simpl in *; lia).
  destruct H1 as [H1 _]. rewrite <- Ep in H1.
  destruct (c =? 45); [|destruct (c =? 43)].
  - rewrite (bind_ld _ _ _ _ Hl). eexists. split; [simpl; by rewrite Ep|]. by eapply at_char_head.
  - rewrite (bind_ld _ _ _ _ Hl). eexists. split; [simpl; by rewrite Ep|]. by eapply at_char_head.
  - eexists. by split.
Qed.

(** The base *)
Lemma strtol_base_run sg m s l l2 c base :
  suffix_at m s l l2 -> at_char c l2 ->
  let p := s + Z.of_nat (length l - length l2) + 1 in
  let l3 := snd (drop_base base l2) in
  exists c' b, (if ((base =? 0) || (base =? 16)) && (c =? 48) then
      x ← ld p;
      if (x =? 120) || (x =? 88) then c ← ld (p + 1); mret (char_val sg c, p + 2, 16)
      else mret (c, p, base)
    else mret (c, p, base)) m = Some ((c', s + Z.of_nat (length l - length l3) + 1, b), m) /\ at_char c' l3 /\
    (if b =? 0 then (if c' =? 48 then 8 else 10) else b) = fst (drop_base base l2).
Proof.
  intros H2 Hc p l3. destruct Hc as [Hd H48]. rewrite H48.
  destruct l2 as [|c0 l2]; [|pose proof (suffix_tail _ _ _ _ _ H2) as H3; destruct l2 as [|x l2]].
  - simpl. rewrite andb_false_r. eexists _, _. split; [done|]. split; [done|]. rewrite H48. done.
  - simpl. pose proof (suffix_load _ _ _ _ H3) as Hl.
    replace (s + Z.of_nat (length l - length [])) with p in Hl by (subst p; destruct H2; simpl in *; lia).
    destruct (_ && _); [rewrite (bind_ld _ _ _ _ Hl); simpl|]; (eexists _, _; split; [done|split; [done|by rewrite H48]]).
  - simpl. pose proof (suffix_load _ _ _ _ H3) as Hl.
    assert (p = s + Z.of_nat (length l - length (x :: l2))) as Ep by (subst p; destruct H2; simpl in *; lia).
    rewrite <- Ep in Hl. subst l3. simpl. fold (is_x x).
    destruct (((base =? 0) || (base =? 16)) && (c0 =? 48)) eqn:E; simpl.
    + rewrite (bind_ld _ _ _ _ Hl). simpl. fold (is_x x). destruct (is_x x) eqn:Ex; simpl.
      * pose proof (suffix_tail _ _ _ _ _ H3) as H4. pose proof (suffix_load _ _ _ _ H4) as Hl4.
        assert (p + 1 = s + Z.of_nat (length l - length l2)) as Ep4 by (subst p; destruct H2; simpl in *; lia).
        rewrite <- Ep4 in Hl4. rewrite (bind_ld _ _ _ _ Hl4). eexists _, _.
        split; [by replace (s + Z.of_nat (length l - length l2) + 1) with (p + 2) by lia|].
        split; [|done]. destruct H4 as [H4 _]. by eapply at_char_head.
      * eexists _, _. split; [done|]. split; [done|]. by rewrite H48.
    + eexists _, _. split; [done|]. split; [done|]. by rewrite H48.
Qed.

Lemma strtol_prefix_run sg nptr base l m :
  cstr m nptr l ->
  let s := drop_sign (drop_space l) in
  let b := drop_base base (snd s) in
  exists c, strtol_prefix sg nptr base m =
      Some ((fst s, c, nptr + Z.of_nat (length l - length (snd b)) + 1, fst b), m) /\
    at_char c (snd b) /\ suffix_at m nptr l (snd b).
Proof.
  intros Hl s b. unfold strtol_prefix.
  erewrite bind_run by (apply with_fuel_run, skip_space_run; [by apply cstr_fuel in Hl|done]). cbv beta iota.
  pose proof (drop_space_suffix _ _ _ Hl) as H0.
  destruct (strtol_sign_run sg m nptr l _ H0) as (c1 & E1 & A1). erewrite bind_run by exact E1. cbv beta iota.
  apply drop_sign_suffix in H0. fold s in H0, A1 |- *.
  destruct (strtol_base_run sg m nptr l (snd s) c1 base H0 A1) as (c2 & b2 & E2 & A2 & Eb).
  erewrite bind_run by exact E2. cbv beta iota zeta. rewrite Eb.
  exists c2. split; [done|]. split; [done|]. by apply drop_base_suffix.
Qed.

Lemma drop_base_pos base l : 0 <= base -> 0 < fst (drop_base base l).
Proof.
  intros. unfold drop_base. destruct l as [|c [|x l]]; simpl; destruct (Z.eqb_spec base 0); simpl;
    repeat match goal with |- context [if ?b then _ else _] => destruct b end; simpl; lia.
Qed.

(** ** [strtol] and [strtoll] *)
Lemma strtol_run sg nptr base l m :
  0 <= base -> cstr m nptr l ->
  let '(v, n, e) := read_number LONG_MIN LONG_MAX base l in
  strtol sg nptr base m = Some (StrTo v (nptr + n) e, m).
Proof.
  intros Hb Hl. unfold read_number, strtol.
  destruct (strtol_prefix_run sg nptr base l m Hl) as (c & E & A & Hs). cbv zeta in *.
  destruct (drop_sign (drop_space l)) as [neg l2]. simpl in *.
  pose proof (drop_base_pos base l2 Hb) as Hp. destruct (drop_base base l2) as [b l3]. simpl in *.
  erewrite bind_run by exact E. cbv beta iota.
  rewrite strtol_cutoff_run by (unfold LONG_MIN, LONG_MAX; lia).
  destruct Hs as [Hs Hlen].
  destruct (strtol_loop_run LONG_MIN LONG_MAX b neg Hp ltac:(done) ltac:(done) ltac:(done) (S (size m)) c
    (nptr + Z.of_nat (length l - length l3) + 1) l3 0 0 m) as [E2 Hv];
    [by apply cstr_fuel in Hs|done|by rewrite Z.add_simpl_r|done|].
  fold (digits_value b (take_digits b l3)) in E2, Hv. set (ds := take_digits b l3) in *.
  erewrite bind_run.
  2: { apply with_fuel_run. etrans; [|exact E2]. unfold acc_of, any_of.
       rewrite (proj2 (Z.ltb_ge (limit LONG_MIN LONG_MAX neg) 0)) by (unfold limit; by destruct neg).
       unfold signed. by destruct neg. }
  unfold mret, cm_mret, cm_ret. f_equal. f_equal. f_equal.
  - unfold acc_of. by rewrite <- clamp_signed.
  - rewrite Nat.add_0_l. unfold any_of. destruct ds as [|d ds'] eqn:Eds.
    + change (digits_value b []) with 0.
      rewrite (proj2 (Z.ltb_ge (limit LONG_MIN LONG_MAX neg) 0)) by (unfold limit; by destruct neg).
      simpl. by rewrite Z.add_0_r.
    + rewrite bool_decide_false by done. destruct (_ <? digits_value _ _); simpl; lia.
  - by rewrite <- out_of_range.
Qed.
