(* ===== verification/Printf.v ===== *)
(** * Formatted output: the code of [lib/libc/printf.c.inc], without floating point

    The engine hands what it prints to an output function, an instance of
    [OutputFunc] over the state of the output; [vsnprintf] provides one that
    stores into a buffer.  The bytes an output function is given are read from
    memory before it stores any of them.  The arguments are passed as a list of
    64-bit values, from which [va_arg] takes the next of a type; a missing one is
    a fault. *)
From S2P Require Import Prelude Cstring.

(** ** Output *)

(** The result of the function, and its state. *)
Class OutputFunc (S : Type) := out : list Z -> S -> cm (Z * S).

Record output_args := OutputArgs { oa_outstr : Z; oa_len : Z; oa_pos : Z }.
Fixpoint vsnprintf_output_loop (str : list Z) (args : output_args) : cm output_args :=
  match str with
  | [] => mret args
  | c :: str =>
      if oa_pos args <? oa_len args then
        st (oa_outstr args + oa_pos args) c;;
        vsnprintf_output_loop str (OutputArgs (oa_outstr args) (oa_len args) (oa_pos args + 1))
      else vsnprintf_output_loop str args
  end.
#[export] Instance vsnprintf_output : OutputFunc output_args := fun str args =>
  args ← vsnprintf_output_loop str args; mret (s32 (Z.of_nat (length str)), args).

(** ** Flags *)
Definition LONGFLAG : Z := 0x1.
Definition LONGLONGFLAG : Z := 0x2.
Definition HALFFLAG : Z := 0x4.
Definition HALFHALFFLAG : Z := 0x8.
Definition SIZETFLAG : Z := 0x10.
Definition INTMAXFLAG : Z := 0x20.
Definition PTRDIFFFLAG : Z := 0x40.
Definition ALTFLAG : Z := 0x80.
Definition CAPSFLAG : Z := 0x100.
Definition SHOWSIGNFLAG : Z := 0x200.
Definition SIGNEDFLAG : Z := 0x400.
Definition LEFTFORMATFLAG : Z := 0x800.
Definition LEADZEROFLAG : Z := 0x1000.
Definition BLANKPOSFLAG : Z := 0x2000.

(** ** Numbers, written from the end of a buffer *)
Definition buf_put (pos v : Z) (buf : list Z) : option (list Z) :=
  if (0 <=? pos) && (pos <? Z.of_nat (length buf)) then Some (<[Z.to_nat pos := v]> buf) else None.

Fixpoint dec_loop (fuel : nat) (n pos : Z) (buf : list Z) : option (Z * Z * list Z) :=
  match fuel with
  | O => None
  | S fuel =>
      if 10 <=? n then
        buf ← buf_put (pos - 1) (n mod 10 + 48) buf;
        dec_loop fuel (n / 10) (pos - 1) buf
      else Some (n, pos, buf)
  end.

(** The buffer, where the digits start, and the sign. *)
Definition longlong_to_string (n len flag : Z) (buf : list Z) : option (list Z * Z * Z) :=
  let negative := has_flag flag SIGNEDFLAG && (to_signed 64 n <? 0) in
  let n := if negative then u64 (- n) else n in
  buf ← buf_put (len - 1) 0 buf;
  '(n, pos, buf) ← dec_loop 64 n (len - 1) buf;
  buf ← buf_put (pos - 1) (n + 48) buf;
  let signchar := if negative then 45
                  else if has_flag flag SHOWSIGNFLAG then 43
                  else if has_flag flag BLANKPOSFLAG then 32
                  else 0 in
  Some (buf, pos - 1, signchar).

(** The tables of hexadecimal digits *)
Definition hex_digit (caps : bool) (d : Z) : Z :=
  if d <? 10 then 48 + d else (if caps then 65 else 97) + (d - 10).

Fixpoint hex_loop (fuel : nat) (caps : bool) (u pos : Z) (buf : list Z) : option (Z * list Z) :=
  match fuel with
  | O => None
  | S fuel =>
      buf ← buf_put (pos - 1) (hex_digit caps (u mod 16)) buf;
      if negb (u / 16 =? 0) then hex_loop fuel caps (u / 16) (pos - 1) buf else Some (pos - 1, buf)
  end.
Definition longlong_to_hexstring (u len flag : Z) (buf : list Z) : option (list Z * Z) :=
  buf ← buf_put (len - 1) 0 buf;
  '(pos, buf) ← hex_loop 64 (has_flag flag CAPSFLAG) u (len - 1) buf;
  Some (buf, pos).

(** The string at [pos] of a buffer, up to its zero *)
Fixpoint until_zero (l : list Z) : option (list Z) :=
  match l with
  | [] => None
  | c :: l => if c =? 0 then Some [] else s ← until_zero l; Some (c :: s)
  end.
Definition buf_string (buf : list Z) (pos : Z) : option (list Z) := until_zero (drop (Z.to_nat pos) buf).

Section engine.
Context {S : Type} `{!OutputFunc S}.

(** The state of the engine: that of the output, the arguments left, and the
    characters written.  [inl] is the way to [exit] with an error. *)
Record pstate := PState { ps_out : S; ps_ap : list Z; ps_chars_written : Z }.
Definition pm (A : Type) : Type := pstate -> cm (pstate * (Z + A)).
Definition pm_ret {A} (x : A) : pm A := fun p => mret (p, inr x).
Definition pm_bind {A B} (f : A -> pm B) (c : pm A) : pm B := fun p =>
  '(p, r) ← c p; match r with inr x => f x p | inl e => mret (p, inl e) end.
#[export] Instance pm_mret : MRet pm := @pm_ret.
#[export] Instance pm_mbind : MBind pm := @pm_bind.
Definition lift {A} (c : cm A) : pm A := fun p => x ← c; mret (p, inr x).
Definition lift_option {A} (o : option A) : pm A := lift (match o with Some x => mret x | None => fault end).

(** The next argument, as the bits passed *)
Definition va_arg : pm Z := fun p =>
  match ps_ap p with
  | [] => fault
  | v :: ap => mret (PState (ps_out p) ap (ps_chars_written p), inr v)
  end.
Definition chars_written : pm Z := fun p => mret (p, inr (ps_chars_written p)).

(** [OUTPUT_STRING] and [OUTPUT_CHAR]: [err], where it is not an error *)
Definition OUTPUT_STRING (str : list Z) : pm Z := fun p =>
  '(err, o) ← out str (ps_out p);
  if err <? 0 then mret (PState o (ps_ap p) (ps_chars_written p), inl err)
  else mret (PState o (ps_ap p) (u64 (ps_chars_written p + err)), inr err).
Definition OUTPUT_CHAR (c : Z) : pm unit := OUTPUT_STRING [u8 c];; mret ().
Fixpoint output_pad (n : nat) (c : Z) : pm unit :=
  match n with
  | O => mret ()
  | Datatypes.S n => OUTPUT_CHAR c;; output_pad n c
  end.

(** The characters up to the next [%] or the end: them, the character that ended
    them, and [fmt]. *)
Fixpoint plain_loop (fuel : nat) (fmt : Z) : cm (list Z * Z * Z) :=
  match fuel with
  | O => fault
  | Datatypes.S fuel =>
      c ← ld fmt;
      if (c =? 0) || (c =? 37) then mret ([], c, fmt + 1)
      else '(s, e, fmt) ← plain_loop fuel (fmt + 1); mret (c :: s, e, fmt)
  end.

(** What a character of a format adds: flags and width; [None] when it is the
    conversion. *)
Definition format_char (c flags format_num : Z) : option (Z * Z) :=
  if (48 <=? c) && (c <=? 57) then
    let flags := if (c =? 48) && (format_num =? 0) then Z.lor flags LEADZEROFLAG else flags in
    Some (flags, u32 (u32 (format_num * 10) + (c - 48)))
  else if c =? 46 then Some (flags, format_num)                                     (* . *)
  else if c =? 45 then Some (Z.lor flags LEFTFORMATFLAG, format_num)                (* - *)
  else if c =? 43 then Some (Z.lor flags SHOWSIGNFLAG, format_num)                  (* + *)
  else if c =? 32 then Some (Z.lor flags BLANKPOSFLAG, format_num)
  else if c =? 35 then Some (Z.lor flags ALTFLAG, format_num)                       (* # *)
  else if c =? 108 then                                                             (* l *)
    let flags := if has_flag flags LONGFLAG then Z.lor flags LONGLONGFLAG else flags in
    Some (Z.lor flags LONGFLAG, format_num)
  else if c =? 104 then                                                             (* h *)
    let flags := if has_flag flags HALFFLAG then Z.lor flags HALFHALFFLAG else flags in
    Some (Z.lor flags HALFFLAG, format_num)
  else if c =? 122 then Some (Z.lor flags SIZETFLAG, format_num)                    (* z *)
  else if c =? 106 then Some (Z.lor flags INTMAXFLAG, format_num)                   (* j *)
  else if c =? 116 then Some (Z.lor flags PTRDIFFFLAG, format_num)                  (* t *)
  else None.

Fixpoint next_format (fuel : nat) (fmt flags format_num : Z) : cm (Z * Z * Z * Z) :=
  match fuel with
  | O => fault
  | Datatypes.S fuel =>
      c ← ld fmt;
      match format_char c flags format_num with
      | Some (flags, format_num) => next_format fuel (fmt + 1) flags format_num
      | None => mret (c, fmt + 1, flags, format_num)
      end
  end.

(** The number of a [%d] and of a [%u] or [%x], of the type of the flags *)
Definition signed_arg (flags v : Z) : Z :=
  u64 (if has_flag flags LONGLONGFLAG then to_signed 64 v
       else if has_flag flags LONGFLAG then to_signed 64 v
       else if has_flag flags HALFHALFFLAG then to_signed 8 v
       else if has_flag flags HALFFLAG then to_signed 16 v
       else if has_flag flags SIZETFLAG then to_signed 64 v
       else if has_flag flags INTMAXFLAG then to_signed 64 v
       else if has_flag flags PTRDIFFFLAG then to_signed 64 v
       else s32 v).
Definition unsigned_arg (flags v : Z) : Z :=
  if has_flag flags LONGLONGFLAG then u64 v
  else if has_flag flags LONGFLAG then u64 v
  else if has_flag flags HALFHALFFLAG then u8 v
  else if has_flag flags HALFFLAG then u16 v
  else if has_flag flags SIZETFLAG then u64 v
  else if has_flag flags INTMAXFLAG then u64 v
  else if has_flag flags PTRDIFFFLAG then u64 v
  else u32 v.

(** [_output_string]: the string, with its sign and prefix, padded *)
Definition output_string (hex : bool) (s : list Z) (flags format_num signchar : Z) : pm unit :=
  let string_len := Z.of_nat (length s) in
  if has_flag flags LEFTFORMATFLAG then
    written ← OUTPUT_STRING s;
    output_pad (Z.to_nat (format_num - u32 written)) 32
  else
    let format_num := if negb (signchar =? 0) && (0 <? format_num) then format_num - 1 else format_num in
    (if has_flag flags LEADZEROFLAG && negb (signchar =? 0) then OUTPUT_CHAR signchar else mret ());;
    format_num ←
      (if hex && has_flag flags ALTFLAG then
         OUTPUT_CHAR 48;;
         OUTPUT_CHAR (if has_flag flags CAPSFLAG then 88 else 120);;
         mret (if 2 <=? format_num then format_num - 2 else format_num)
       else mret format_num);
    output_pad (Z.to_nat (format_num - string_len)) (if has_flag flags LEADZEROFLAG then 48 else 32);;
    (if negb (has_flag flags LEADZEROFLAG) && negb (signchar =? 0) then OUTPUT_CHAR signchar else mret ());;
    OUTPUT_STRING s;; mret ().

(** The string at an address, read by [strlen] and by the output *)
Definition ld_string (s : Z) : cm (list Z) := n ← strlen s; ((fun m => Some (rd m s n, m)) : cm (list Z)).
(** ["<null>"] *)
Definition null_string : list Z := [60; 110; 117; 108; 108; 62].

(** Stores of an integer of [n] bytes, the lowest first *)
Fixpoint st_int (n : nat) (a v : Z) : cm unit :=
  match n with
  | O => mret ()
  | Datatypes.S n => st a v;; st_int n (a + 1) (Z.shiftr v 8)
  end.

Definition num_buffer : list Z := replicate 32 0.
Definition sizeof_num_buffer : Z := 32.

(** [hex:] and [case 'x':] *)
Definition conv_hex (flags format_num : Z) : pm unit :=
  v ← va_arg;
  let n := unsigned_arg flags v in
  '(buf, pos) ← lift_option (longlong_to_hexstring n sizeof_num_buffer flags num_buffer);
  let flags := if n =? 0 then clear_flag flags ALTFLAG else flags in
  s ← lift_option (buf_string buf pos);
  output_string true s flags format_num 0.

Definition conv_dec (flags format_num n : Z) : pm unit :=
  '(buf, pos, signchar) ← lift_option (longlong_to_string n sizeof_num_buffer flags num_buffer);
  s ← lift_option (buf_string buf pos);
  output_string false s flags format_num signchar.

(** The conversion [c] *)
Definition conversion (c flags format_num : Z) : pm unit :=
  if c =? 37 then OUTPUT_CHAR 37                                                     (* %% *)
  else if c =? 99 then v ← va_arg; OUTPUT_CHAR v                                     (* c *)
  else if c =? 115 then                                                              (* s *)
    s ← va_arg;
    str ← (if s =? 0 then mret null_string else lift (ld_string s));
    output_string false str (clear_flag flags LEADZEROFLAG) format_num 0
  else if (c =? 105) || (c =? 100) then                                              (* i, d *)
    v ← va_arg; conv_dec (Z.lor flags SIGNEDFLAG) format_num (signed_arg flags v)
  else if c =? 117 then                                                              (* u *)
    v ← va_arg; conv_dec flags format_num (unsigned_arg flags v)
  else if c =? 112 then conv_hex (Z.lor flags (Z.lor SIZETFLAG ALTFLAG)) format_num  (* p *)
  else if c =? 88 then conv_hex (Z.lor flags CAPSFLAG) format_num                    (* X *)
  else if c =? 120 then conv_hex flags format_num                                    (* x *)
  else if c =? 110 then                                                              (* n *)
    ptr ← va_arg;
    w ← chars_written;
    lift (st_int (if has_flag flags LONGLONGFLAG then 8
                  else if has_flag flags LONGFLAG then 8
                  else if has_flag flags HALFHALFFLAG then 1
                  else if has_flag flags HALFFLAG then 2
                  else if has_flag flags SIZETFLAG then 8
                  else 4)%nat ptr w)
  else OUTPUT_CHAR 37;; OUTPUT_CHAR c.

Fixpoint engine_loop (fuel : nat) (fmt : Z) : pm unit :=
  match fuel with
  | O => fun _ => fault
  | Datatypes.S fuel =>
      '(s, c, fmt) ← lift (with_fuel (fun f => plain_loop f fmt));
      OUTPUT_STRING s;;
      if c =? 0 then mret ()
      else
        '(c, fmt, flags, format_num) ← lift (with_fuel (fun f => next_format f fmt 0 0));
        if c =? 0 then mret ()
        else conversion c flags format_num;; engine_loop fuel fmt
  end.

Definition _printf_engine (state : S) (fmt : Z) (ap : list Z) : cm (Z * S) :=
  '(p, r) ← with_fuel (fun fuel => engine_loop fuel fmt (PState state ap 0));
  mret (match r with inl err => err | inr _ => s32 (ps_chars_written p) end, ps_out p).
End engine.
Arguments pstate : clear implicits.
Arguments pm : clear implicits.

(** ** The functions *)
Definition vsnprintf (str len fmt : Z) (ap : list Z) : cm Z :=
  '(wlen, args) ← _printf_engine (OutputArgs str len 0) fmt ap;
  (if len =? 0 then mret ()
   else if len <=? oa_pos args then st (str + (len - 1)) 0
   else st (str + wlen) 0);;
  mret wlen.
Definition INT_MAX : Z := 2 ^ 31 - 1.
Definition vsprintf (str fmt : Z) (ap : list Z) : cm Z := vsnprintf str INT_MAX fmt ap.
Definition snprintf (str len fmt : Z) (ap : list Z) : cm Z := vsnprintf str len fmt ap.
Definition sprintf (str fmt : Z) (ap : list Z) : cm Z := vsprintf str fmt ap.
