(* ===== verification/PrintfOps.v ===== *)
(** * Numbers as text: the conversions of [printf.c.inc] against the digits of a number *)
From S2P Require Import Prelude Cstring CstringMem CstringOps CstringFind Strtol StrtolOps Printf.

(** ** The text of a number *)

(** The digits of [n] to the base [b], the most significant first, without
    leading zeros; [fuel] bounds their number. *)
Fixpoint digits_of (fuel : nat) (b n : Z) : list Z :=
  match fuel with
  | O => []
  | S fuel => if n <? b then [n] else digits_of fuel b (n / b) ++ [n mod b]
  end.
(** The digits of a number of 64 bits *)
Definition dec_digits (n : Z) : list Z := digits_of 20 10 n.
Definition hex_digits (n : Z) : list Z := digits_of 16 16 n.
Definition dec_text (n : Z) : list Z := (fun d => d + 48) <$> dec_digits n.
Definition hex_text (caps : bool) (n : Z) : list Z := hex_digit caps <$> hex_digits n.

Section digits.
Context (b : Z) (Hb : 1 < b).

Lemma div_small_pow fuel n : 0 <= n < b ^ Z.of_nat (S fuel) -> 0 <= n / b < b ^ Z.of_nat fuel.
Proof using Hb.
  intros [H0 Hn]. split; [apply Z.div_pos; lia|]. apply Z.div_lt_upper_bound; [lia|].
  rewrite <- Z.pow_succ_r by lia. by rewrite <- Nat2Z.inj_succ.
Qed.

Lemma digits_of_range fuel n : 0 <= n -> Forall (fun d => 0 <= d < b) (digits_of fuel b n).
Proof using Hb.
  revert n. induction fuel as [|fuel IH]; intros n Hn; simpl; [done|].
  destruct (Z.ltb_spec n b); [repeat constructor; lia|]. apply Forall_app. split.
  - apply IH, Z.div_pos; lia.
  - repeat constructor; apply Z.mod_pos_bound; lia.
Qed.

(** They are the digits of the number. *)
Lemma digits_of_value fuel n :
  0 <= n < b ^ Z.of_nat fuel -> digits_value b (digits_of fuel b n) = n.
Proof using Hb.
  revert n. induction fuel as [|fuel IH]; intros n Hn; simpl digits_of.
  { simpl in Hn. unfold digits_value. simpl. lia. }
  destruct (Z.ltb_spec n b); [done|]. unfold digits_value in *.
  rewrite foldl_app, IH by (by apply div_small_pow). simpl. pose proof (Z.div_mod n b). lia.
Qed.

Lemma digits_of_length fuel n : (length (digits_of fuel b n) <= fuel)%nat.
Proof using Type.
  revert n. induction fuel as [|fuel IH]; intros n; simpl; [lia|]. destruct (n <? b); simpl; [lia|].
  rewrite length_app. simpl. specialize (IH (n / b)). lia.
Qed.

Lemma digits_of_nonempty fuel n : (0 < fuel)%nat -> digits_of fuel b n <> [].
Proof using Type. destruct fuel; [lia|]. simpl. destruct (n <? b); [done|]. intros _ E%app_nil. naive_solver. Qed.

(** A positive number has no leading zero. *)
Lemma digits_of_head fuel n : 0 < n < b ^ Z.of_nat fuel -> exists d l, digits_of fuel b n = d :: l /\ 0 < d.
Proof using Hb.
  revert n. induction fuel as [|fuel IH]; intros n Hn; [simpl in Hn; lia|]. simpl digits_of.
  destruct (Z.ltb_spec n b); [exists n, []; split; [done|lia]|].
  destruct (IH (n / b)) as (d & l & E & Hd).
  { pose proof (div_small_pow fuel n ltac:(lia)). split; [|lia]. apply Z.div_str_pos. lia. }
  rewrite E. exists d, (l ++ [n mod b]). done.
Qed.
End digits.

(** ** The buffer *)
Lemma buf_put_string pos c s buf :
  0 < pos <= Z.of_nat (length buf) -> c <> 0 -> buf_string buf pos = Some s ->
  exists buf', buf_put (pos - 1) c buf = Some buf' /\ length buf' = length buf /\
    buf_string buf' (pos - 1) = Some (c :: s).
Proof.
  intros Hp Hc Hs. unfold buf_put.
  rewrite (proj2 (Z.leb_le 0 (pos - 1))), (proj2 (Z.ltb_lt (pos - 1) _)) by lia. simpl.
  eexists. split; [done|]. split; [by rewrite length_insert|]. unfold buf_string in *.
  assert (Z.to_nat (pos - 1) < length buf)%nat as Hl by lia.
  rewrite (drop_S _ c) by (by apply list_lookup_insert_eq). simpl. rewrite (proj2 (Z.eqb_neq c 0)) by done.
  rewrite drop_insert_lt by lia. replace (S (Z.to_nat (pos - 1))) with (Z.to_nat pos) by lia.
  by rewrite Hs.
Qed.

Lemma buf_put_end buf :
  (0 < length buf)%nat ->
  exists buf', buf_put (Z.of_nat (length buf) - 1) 0 buf = Some buf' /\ length buf' = length buf /\
    buf_string buf' (Z.of_nat (length buf) - 1) = Some [].
Proof.
  intros Hl. unfold buf_put. rewrite (proj2 (Z.leb_le 0 _)), (proj2 (Z.ltb_lt _ _)) by lia. simpl.
  eexists. split; [done|]. split; [by rewrite length_insert|]. unfold buf_string.
  rewrite (drop_S _ 0) by (apply list_lookup_insert_eq; lia). done.
Qed.

(** The loop writes all digits but the first, which it leaves in [n]. *)
Lemma dec_loop_run fuel k n pos buf s :
  (k < fuel)%nat -> 0 <= n < 10 ^ (Z.of_nat k + 1) -> Z.of_nat k < pos <= Z.of_nat (length buf) ->
  buf_string buf pos = Some s ->
  exists d pos' buf' l, dec_loop fuel n pos buf = Some (d, pos', buf') /\ length buf' = length buf /\
    0 <= d < 10 /\ 0 < pos' <= Z.of_nat (length buf) /\
    digits_of (S k) 10 n = d :: l /\ buf_string buf' pos' = Some (((fun d => d + 48) <$> l) ++ s).
Proof.
  revert k n pos buf s. induction fuel as [|fuel IH]; intros k n pos buf s Hk Hn Hp Hs; [lia|].
  simpl dec_loop. cbn [digits_of].
  destruct (Z.ltb_spec n 10) as [Hlt|Hge].
  { rewrite (proj2 (Z.leb_gt 10 n)) by lia. exists n, pos, buf, []. repeat (split; [done || lia|]). done. }
  rewrite (proj2 (Z.leb_le 10 n)) by lia. destruct k as [|k]; [simpl in Hn; lia|].
  pose proof (Z.mod_pos_bound n 10 ltac:(lia)) as Hm.
  destruct (buf_put_string pos (n mod 10 + 48) s buf) as (buf1 & E1 & L1 & S1); [lia|lia|done|].
  rewrite E1. cbn [mbind option_bind].
  assert (0 <= n / 10 < 10 ^ (Z.of_nat k + 1)) as Hn'.
  { pose proof (div_small_pow 10 ltac:(lia) (S k) n) as Hd. rewrite !Nat2Z.inj_succ in Hd.
    rewrite Nat2Z.inj_succ in Hn. replace (Z.of_nat k + 1) with (Z.succ (Z.of_nat k)) by lia. apply Hd.
    by replace (Z.succ (Z.succ (Z.of_nat k))) with (Z.succ (Z.of_nat k) + 1) by lia. }
  destruct (IH k (n / 10) (pos - 1) buf1 ((n mod 10 + 48) :: s)) as (d & pos' & buf' & l & E & L & Hd & Hp' & Hdig & Hstr);
    [lia|done|lia|done|].
  exists d, pos', buf', (l ++ [n mod 10]). rewrite E. split; [done|]. split; [congruence|]. split; [done|].
  split; [lia|]. rewrite Hdig. split; [done|]. rewrite Hstr, fmap_app, <- app_assoc. done.
Qed.

(** The sign a number is printed with *)
Definition sign_char (flags : Z) (negative : bool) : Z :=
  if negative then 45
  else if has_flag flags SHOWSIGNFLAG then 43
  else if has_flag flags BLANKPOSFLAG then 32
  else 0.

(** The buffer of the engine is large enough, and gets the digits. *)
Lemma longlong_to_string_run n flags :
  let negative := has_flag flags SIGNEDFLAG && (to_signed 64 n <? 0) in
  let a := if negative then u64 (- n) else n in
  0 <= n < 2 ^ 64 ->
  exists buf pos, longlong_to_string n sizeof_num_buffer flags num_buffer = Some (buf, pos, sign_char flags negative) /\
    buf_string buf pos = Some (dec_text a).
Proof.
  intros negative a Hn. unfold longlong_to_string. fold negative. cbv zeta. fold a.
  assert (0 <= a < 2 ^ 64) as Ha by (subst a; destruct negative; [apply wrap_range; lia|done]).
  destruct (buf_put_end num_buffer) as (b1 & E1 & L1 & S1); [simpl; lia|].
  change (Z.of_nat (length num_buffer)) with sizeof_num_buffer in *. rewrite E1. cbn [mbind option_bind].
  destruct (dec_loop_run 64 19 a (sizeof_num_buffer - 1) b1 []) as (d & pos & b2 & l & E2 & L2 & Hd & Hp & Hdig & S2);
    [lia|split; [lia|eapply Z.lt_trans; [apply Ha|done]]|rewrite L1; done|done|].
  rewrite E2. cbn [mbind option_bind].
  destruct (buf_put_string pos (d + 48) (((fun d => d + 48) <$> l) ++ []) b2) as (b3 & E3 & L3 & S3);
    [rewrite L2; lia|lia|done|].
  rewrite E3. cbn [mbind option_bind]. exists b3, (pos - 1). split; [done|].
  rewrite S3, app_nil_r. unfold dec_text, dec_digits. by rewrite Hdig.
Qed.

Lemma hex_digit_nonzero caps d : 0 <= d < 16 -> 0 < hex_digit caps d < 256.
Proof. intros. unfold hex_digit. destruct (d <? 10), caps; lia. Qed.

Lemma hex_loop_run fuel k caps u pos buf s :
  (k < fuel)%nat -> 0 <= u < 16 ^ (Z.of_nat k + 1) -> Z.of_nat k < pos <= Z.of_nat (length buf) ->
  buf_string buf pos = Some s ->
  exists pos' buf', hex_loop fuel caps u pos buf = Some (pos', buf') /\
    buf_string buf' pos' = Some ((hex_digit caps <$> digits_of (S k) 16 u) ++ s).
Proof.
  revert k u pos buf s. induction fuel as [|fuel IH]; intros k u pos buf s Hk Hu Hp Hs; [lia|].
  simpl hex_loop. cbn [digits_of]. pose proof (Z.mod_pos_bound u 16 ltac:(lia)) as Hm.
  pose proof (hex_digit_nonzero caps _ Hm).
  destruct (buf_put_string pos (hex_digit caps (u mod 16)) s buf) as (buf1 & E1 & L1 & S1); [lia|lia|done|].
  rewrite E1. cbn [mbind option_bind].
  destruct (Z.ltb_spec u 16) as [Hlt|Hge].
  { rewrite Z.div_small by lia. simpl. eexists _, _. split; [done|]. rewrite S1, Z.mod_small by lia. done. }
  assert (0 < u / 16) by (apply Z.div_str_pos; lia). rewrite (proj2 (Z.eqb_neq (u / 16) 0)) by lia. simpl negb.
  destruct k as [|k]; [simpl in Hu; lia|].
  assert (0 <= u / 16 < 16 ^ (Z.of_nat k + 1)) as Hu'.
  { pose proof (div_small_pow 16 ltac:(lia) (S k) u) as Hd. rewrite !Nat2Z.inj_succ in Hd.
    rewrite Nat2Z.inj_succ in Hu. replace (Z.of_nat k + 1) with (Z.succ (Z.of_nat k)) by lia. apply Hd.
    by replace (Z.succ (Z.succ (Z.of_nat k))) with (Z.succ (Z.of_nat k) + 1) by lia. }
  destruct (IH k (u / 16) (pos - 1) buf1 (hex_digit caps (u mod 16) :: s)) as (pos' & buf' & E & Hstr);
    [lia|done|lia|done|].
  exists pos', buf'. cbv iota. rewrite E. split; [done|]. rewrite Hstr, fmap_app, <- app_assoc. done.
Qed.

Lemma longlong_to_hexstring_run u flags :
  0 <= u < 2 ^ 64 ->
  exists buf pos, longlong_to_hexstring u sizeof_num_buffer flags num_buffer = Some (buf, pos) /\
    buf_string buf pos = Some (hex_text (has_flag flags CAPSFLAG) u).
Proof.
  intros Hu. unfold longlong_to_hexstring.
  destruct (buf_put_end num_buffer) as (b1 & E1 & L1 & S1); [simpl; lia|].
  change (Z.of_nat (length num_buffer)) with sizeof_num_buffer in *. rewrite E1. cbn [mbind option_bind].
  destruct (hex_loop_run 64 15 (has_flag flags CAPSFLAG) u (sizeof_num_buffer - 1) b1 []) as (pos & b2 & E2 & S2);
    [lia|done|rewrite L1; done|done|].
  rewrite E2. cbn [mbind option_bind]. exists b2, pos. split; [done|]. by rewrite S2, app_nil_r.
Qed.

(** ** Reading the text back *)
Lemma digit_of_dec d : 0 <= d < 10 -> digit_of (d + 48) = Some d.
Proof.
  intros. unfold digit_of, isdigit. rewrite (proj2 (Z.leb_le 48 _)), (proj2 (Z.leb_le _ 57)) by lia. simpl. f_equal. lia.
Qed.

Lemma take_digits_dec ds :
  Forall (fun d => 0 <= d < 10) ds -> take_digits 10 ((fun d => d + 48) <$> ds) = ds.
Proof.
  induction 1 as [|d ds Hd _ IH]; [done|]. simpl. rewrite digit_of_dec by done.
  rewrite (proj2 (Z.ltb_lt d 10)) by lia. f_equal. exact IH.
Qed.

Lemma dec_text_value n :
  0 <= n < 2 ^ 64 -> take_digits 10 (dec_text n) = dec_digits n /\ digits_value 10 (dec_digits n) = n.
Proof.
  intros Hn. split.
  - apply take_digits_dec, digits_of_range; lia.
  - apply digits_of_value; [lia|]. split; [lia|]. eapply Z.lt_trans; [apply Hn|done].
Qed.

(** * Formatted output against formats as data

    A format is a sequence of directives with plain text between them; [printed]
    is the text the C standard gives it.  The engine is proved to print it, over
    any output function that appends ([OutputLaws]). *)

(** ** Formats *)
Inductive length_mod := LNone | LHalfHalf | LHalf | LLong | LLongLong | LSize | LIntmax | LPtrdiff.
Inductive conv := CDec | CUns | CHex (caps : bool) | CPtr | CChar | CStr.

Record directive := Directive {
  d_left : bool;      (* - *)
  d_plus : bool;      (* + *)
  d_blank : bool;     (* space *)
  d_alt : bool;       (* # *)
  d_zero : bool;      (* 0 *)
  d_width : Z;
  d_length : length_mod;
  d_conv : conv;
}.
Inductive item := Percent | Dir (d : directive).
(** Directives, each with the text in front of it, and the text at the end *)
Record format := Format { f_items : list (list Z * item); f_last : list Z }.

Definition opt (b : bool) (c : Z) : list Z := if b then [c] else [].
Definition flags_text (d : directive) : list Z :=
  opt (d_left d) 45 ++ opt (d_plus d) 43 ++ opt (d_blank d) 32 ++ opt (d_alt d) 35 ++ opt (d_zero d) 48.
Definition width_text (d : directive) : list Z := if d_width d =? 0 then [] else dec_text (d_width d).
Definition length_text (l : length_mod) : list Z :=
  match l with
  | LNone => []
  | LHalfHalf => [104; 104]
  | LHalf => [104]
  | LLong => [108]
  | LLongLong => [108; 108]
  | LSize => [122]
  | LIntmax => [106]
  | LPtrdiff => [116]
  end.
Definition conv_char (c : conv) : Z :=
  match c with CDec => 100 | CUns => 117 | CHex caps => if caps then 88 else 120 | CPtr => 112 | CChar => 99 | CStr => 115 end.
Definition item_text (i : item) : list Z :=
  match i with
  | Percent => [37]
  | Dir d => flags_text d ++ width_text d ++ length_text (d_length d) ++ [conv_char (d_conv d)]
  end.
(** The format as it is written *)
Fixpoint items_text (l : list (list Z * item)) : list Z :=
  match l with
  | [] => []
  | (s, i) :: l => s ++ 37 :: item_text i ++ items_text l
  end.
Definition format_text (f : format) : list Z := items_text (f_items f) ++ f_last f.

(** ** What they print *)

(** The value of an argument of 64 bits, of the type of the directive *)
Definition signed_value (l : length_mod) (v : Z) : Z :=
  match l with LNone => s32 v | LHalfHalf => to_signed 8 v | LHalf => to_signed 16 v | _ => to_signed 64 v end.
Definition unsigned_value (l : length_mod) (v : Z) : Z :=
  match l with LNone => u32 v | LHalfHalf => u8 v | LHalf => u16 v | _ => u64 v end.

Section printed.
(** The strings in memory *)
Context (str : Z -> list Z).

(** The sign or prefix in front, and the digits or the string *)
Definition dir_sign (d : directive) (negative : bool) : list Z :=
  if negative then [45] else if d_plus d then [43] else if d_blank d then [32] else [].
Definition dir_prefix (caps : bool) (n : Z) : list Z := if n =? 0 then [] else [48; if caps then 88 else 120].
Definition dir_parts (d : directive) (v : Z) : list Z * list Z :=
  match d_conv d with
  | CDec => let n := signed_value (d_length d) v in (dir_sign d (n <? 0), dec_text (Z.abs n))
  | CUns => ([], dec_text (unsigned_value (d_length d) v))
  | CHex caps =>
      let n := unsigned_value (d_length d) v in (if d_alt d then dir_prefix caps n else [], hex_text caps n)
  | CPtr => (dir_prefix false (u64 v), hex_text false (u64 v))
  | CChar => ([], [u8 v])
  | CStr => ([], if v =? 0 then null_string else str v)
  end.
Definition is_number (c : conv) : bool := match c with CDec | CUns | CHex _ | CPtr => true | _ => false end.

(** The parts, padded to the width: with blanks behind, zeros between, or blanks in front *)
Definition dir_printed (d : directive) (v : Z) : list Z :=
  let '(front, body) := dir_parts d v in
  let n := Z.to_nat (d_width d - Z.of_nat (length front) - Z.of_nat (length body)) in
  if d_left d then front ++ body ++ replicate n 32
  else if d_zero d && is_number (d_conv d) then front ++ replicate n 48 ++ body
  else replicate n 32 ++ front ++ body.

(** The text printed, given the arguments *)
Fixpoint items_printed (l : list (list Z * item)) (ap : list Z) : list Z :=
  match l with
  | [] => []
  | (s, Percent) :: l => s ++ 37 :: items_printed l ap
  | (s, Dir d) :: l =>
      match ap with
      | v :: ap => s ++ dir_printed d v ++ items_printed l ap
      | [] => s
      end
  end.
Definition printed (f : format) (ap : list Z) : list Z := items_printed (f_items f) ap ++ f_last f.

(** The directives the engine prints as the standard says.  It forgets sign and
    prefix when it pads behind, puts the blanks between prefix and digits, gives
    unsigned numbers a sign, and does not pad characters. *)
Definition supported (d : directive) (v : Z) : Prop :=
  0 <= d_width d < 2 ^ 32 /\
  (d_left d = true -> fst (dir_parts d v) = []) /\
  (d_conv d = CUns -> d_plus d = false /\ d_blank d = false) /\
  (d_conv d = CChar -> d_width d <= 1) /\
  (match d_conv d with CHex _ | CPtr => True | _ => False end ->
   fst (dir_parts d v) = [] \/ d_zero d = true \/
   d_width d <= Z.of_nat (length (fst (dir_parts d v)) + length (snd (dir_parts d v)))).
End printed.

(** ** Appending output *)

(** An output function that appends: [ol_rep m0 s m t] when it has printed [t]
    since memory was [m0].  It changes memory only where [foot] says. *)
Class OutputLaws {S} `{!OutputFunc S} (foot : Z -> Prop) := {
  ol_rep : cmem -> S -> cmem -> list Z -> Prop;
  ol_out m0 s m t bs :
    ol_rep m0 s m t -> Forall (fun v => 0 <= v < 256) bs -> Z.of_nat (length t + length bs) < 2 ^ 31 ->
    exists s' m', out bs s m = Some ((Z.of_nat (length bs), s'), m') /\ ol_rep m0 s' m' (t ++ bs);
  ol_frame m0 s m t : ol_rep m0 s m t -> forall x, ~ foot x -> m !! x = m0 !! x;
}.

Section prints.
Context {S : Type} `{!OutputFunc S} (foot : Z -> Prop) `{!@OutputLaws S _ foot} (m0 : cmem).

(** [c] prints [txt] and takes the arguments [used]. *)
Definition prints {A} (c : pm S A) (txt used : list Z) (x : A) : Prop := forall p m t ap,
  ol_rep m0 (ps_out p) m t -> ps_chars_written p = Z.of_nat (length t) -> ps_ap p = used ++ ap ->
  Z.of_nat (length t + length txt) < 2 ^ 31 ->
  exists p' m', c p m = Some ((p', inr x), m') /\ ol_rep m0 (ps_out p') m' (t ++ txt) /\
    ps_chars_written p' = Z.of_nat (length t + length txt) /\ ps_ap p' = ap.

Lemma prints_ret {A} (x : A) : prints (mret x) [] [] x.
Proof.
  intros p m t ap Hr Hw Ha Hl. exists p, m. rewrite app_nil_r, Nat.add_0_r. done.
Qed.

Lemma prints_bind {A B} (c : pm S A) (f : A -> pm S B) t1 t2 u1 u2 x y :
  prints c t1 u1 x -> prints (f x) t2 u2 y -> prints (c ≫= f) (t1 ++ t2) (u1 ++ u2) y.
Proof.
  intros H1 H2 p m t ap Hr Hw Ha Hl. rewrite length_app in *.
  destruct (H1 p m t (u2 ++ ap)) as (p1 & m1 & E1 & R1 & W1 & A1); [done|done|by rewrite app_assoc|lia|].
  destruct (H2 p1 m1 (t ++ t1) ap) as (p2 & m2 & E2 & R2 & W2 & A2);
    [done|by rewrite length_app|done|rewrite length_app; lia|].
  exists p2, m2. split; [|split; [by rewrite app_assoc|split; [rewrite W2, length_app; lia|done]]].
  unfold mbind, pm_mbind, pm_bind. erewrite bind_run by exact E1. exact E2.
Qed.

(** The same, for what takes no argument *)
Lemma prints_seq {A B} (c : pm S A) (f : A -> pm S B) t1 t2 x y :
  prints c t1 [] x -> prints (f x) t2 [] y -> prints (c ≫= f) (t1 ++ t2) [] y.
Proof. intros H1 H2. exact (prints_bind c f t1 t2 [] [] x y H1 H2). Qed.

Lemma prints_eq {A} (c : pm S A) t t' u x : prints c t u x -> t = t' -> prints c t' u x.
Proof. by intros ? <-. Qed.

Lemma prints_lift {A} (c : cm A) x :
  (forall m, (forall a, ~ foot a -> m !! a = m0 !! a) -> c m = Some (x, m)) -> prints (lift c) [] [] x.
Proof.
  intros Hc p m t ap Hr Hw Ha Hl. exists p, m. rewrite app_nil_r, Nat.add_0_r. split; [|done].
  unfold lift. erewrite bind_run by (by eapply Hc, ol_frame). done.
Qed.

Lemma prints_option {A} (x : A) : prints (lift_option (Some x)) [] [] x.
Proof. by apply prints_lift. Qed.

Lemma prints_arg v : prints va_arg [] [v] v.
Proof.
  intros p m t ap Hr Hw Ha Hl. unfold va_arg. rewrite Ha. simpl. eexists _, m. split; [done|]. simpl.
  rewrite app_nil_r, Nat.add_0_r. done.
Qed.

Lemma prints_string s :
  Forall (fun v => 0 <= v < 256) s -> prints (OUTPUT_STRING s) s [] (Z.of_nat (length s)).
Proof.
  intros Hs p m t ap Hr Hw Ha Hl. destruct (ol_out m0 _ _ _ s Hr Hs Hl) as (s' & m' & E & R').
  unfold OUTPUT_STRING. eexists _, m'. erewrite bind_run by exact E. cbv beta iota.
  rewrite (proj2 (Z.ltb_ge _ 0)) by lia. split; [done|]. simpl. split; [done|]. split; [|done].
  rewrite wrap_small by lia. lia.
Qed.

Lemma prints_char c : prints (OUTPUT_CHAR c) [u8 c] [] ().
Proof.
  apply (prints_seq (OUTPUT_STRING [u8 c]) _ [u8 c] [] 1 ()); [|apply prints_ret].
  apply (prints_string [u8 c]). repeat constructor; apply wrap_range; lia.
Qed.

Lemma prints_char' c : 0 <= c < 256 -> prints (OUTPUT_CHAR c) [c] [] ().
Proof. intros. eapply prints_eq; [apply prints_char|]. by rewrite wrap_small by lia. Qed.

Lemma prints_pad n c : 0 <= c < 256 -> prints (output_pad n c) (replicate n c) [] ().
Proof.
  intros Hc. induction n as [|n IH]; simpl; [apply prints_ret|].
  apply (prints_seq (OUTPUT_CHAR c) _ [c] _ () ()); [by apply prints_char'|done].
Qed.

Lemma prints_if {A} (b : bool) (c1 c2 : pm S A) t1 t2 u x :
  (b = true -> prints c1 t1 u x) -> (b = false -> prints c2 t2 u x) ->
  prints (if b then c1 else c2) (if b then t1 else t2) u x.
Proof. destruct b; auto. Qed.

(** ** The shared output code *)
Definition sign_text (c : Z) : list Z := if c =? 0 then [] else [c].
Definition prefix_text (hex : bool) (flags : Z) : list Z :=
  if hex && has_flag flags ALTFLAG then [48; if has_flag flags CAPSFLAG then 88 else 120] else [].

Lemma prints_prefix hex flags n :
  prints (if hex && has_flag flags ALTFLAG then
      OUTPUT_CHAR 48;;
      OUTPUT_CHAR (if has_flag flags CAPSFLAG then 88 else 120);;
      mret (if 2 <=? n then n - 2 else n)
    else mret n)
    (prefix_text hex flags) [] (if hex && has_flag flags ALTFLAG then (if 2 <=? n then n - 2 else n) else n).
Proof.
  unfold prefix_text. destruct (hex && has_flag flags ALTFLAG); [|apply prints_ret].
  eapply (prints_seq _ _ [48] [_] () _); [by apply prints_char'|].
  eapply (prints_seq _ _ [_] [] () _); [apply prints_char'; by destruct (has_flag flags CAPSFLAG)|apply prints_ret].
Qed.

Lemma prints_output_string hex s flags n signchar :
  s <> [] \/ sign_text signchar = [] /\ prefix_text hex flags = [] ->
  Forall (fun v => 0 <= v < 256) s -> Z.of_nat (length s) < 2 ^ 32 -> 0 <= n -> 0 <= signchar < 256 ->
  let front := sign_text signchar in
  let pre := prefix_text hex flags in
  let zero := has_flag flags LEADZEROFLAG in
  let k := Z.to_nat (n - Z.of_nat (length front) - Z.of_nat (length pre) - Z.of_nat (length s)) in
  prints (output_string hex s flags n signchar)
    (if has_flag flags LEFTFORMATFLAG then s ++ replicate (Z.to_nat (n - Z.of_nat (length s))) 32
     else (if zero then front else []) ++ pre ++ replicate k (if zero then 48 else 32) ++
          (if zero then [] else front) ++ s) [] ().
Proof.
  intros Hne Hs Hls Hn Hsc front pre zero k. unfold output_string. cbv zeta. apply prints_if; intros _.
  { eapply prints_seq; [by apply prints_string|]. rewrite wrap_small by lia. by apply prints_pad. }
  set (n1 := if negb (signchar =? 0) && (0 <? n) then n - 1 else n).
  set (n2 := if hex && has_flag flags ALTFLAG then (if 2 <=? n1 then n1 - 2 else n1) else n1).
  assert (Z.to_nat (n2 - Z.of_nat (length s)) = k) as Ek.
  { assert (0 < length s \/ sign_text signchar = [] /\ prefix_text hex flags = [])%nat as Hl
      by (destruct Hne; [left; destruct s; [done|simpl; lia]|by right]).
    clear Hne. subst k n2 n1 front pre. unfold sign_text, prefix_text in *. destruct (signchar =? 0), (hex && has_flag flags ALTFLAG); simpl;
      destruct (Z.ltb_spec 0 n); simpl; repeat match goal with |- context [?a <=? ?b] => destruct (Z.leb_spec a b) end; (lia || (destruct Hl as [?|[[=] ?]]; lia) || (destruct Hl as [?|[? [=]]]; lia)). }
  eapply (prints_seq _ _ (if zero then front else []) _ ()).
  { eapply prints_eq; [apply prints_if; intros E; [apply prints_char'; lia|apply prints_ret]|]. subst zero front. unfold sign_text.
    by destruct (has_flag flags LEADZEROFLAG), (signchar =? 0). }
  eapply (prints_seq _ _ pre _ n2).
  { apply prints_prefix. }
  rewrite Ek. eapply prints_seq.
  { subst zero. destruct (has_flag flags LEADZEROFLAG); by apply prints_pad. }
  eapply (prints_seq _ _ (if zero then [] else front) _ ()).
  { eapply prints_eq; [apply prints_if; intros E; [apply prints_char'; lia|apply prints_ret]|]. subst zero front. unfold sign_text.
    by destruct (has_flag flags LEADZEROFLAG), (signchar =? 0). }
  eapply prints_eq; [eapply prints_seq; [by apply prints_string|apply prints_ret]|apply app_nil_r].
Qed.

(** ** Numbers *)
Lemma dec_text_range n : 0 <= n -> Forall (fun v => 0 <= v < 256) (dec_text n).
Proof.
  intros Hn. apply Forall_fmap. eapply Forall_impl; [apply (digits_of_range 10); lia|]. simpl. lia.
Qed.
Lemma dec_text_nonempty n : dec_text n <> [].
Proof. unfold dec_text. intros E%fmap_nil_inv. by apply digits_of_nonempty in E; [|lia]. Qed.
Lemma dec_text_length n : Z.of_nat (length (dec_text n)) < 2 ^ 32.
Proof. unfold dec_text, dec_digits. rewrite length_fmap. pose proof (digits_of_length 10 20 n). lia. Qed.
Lemma hex_text_range caps n : 0 <= n -> Forall (fun v => 0 <= v < 256) (hex_text caps n).
Proof.
  intros Hn. apply Forall_fmap. eapply Forall_impl; [apply (digits_of_range 16); lia|]. simpl. intros d Hd.
  pose proof (hex_digit_nonzero caps d Hd). lia.
Qed.
Lemma hex_text_nonempty caps n : hex_text caps n <> [].
Proof. unfold hex_text. intros E%fmap_nil_inv. by apply digits_of_nonempty in E; [|lia]. Qed.
Lemma hex_text_length caps n : Z.of_nat (length (hex_text caps n)) < 2 ^ 32.
Proof. unfold hex_text, hex_digits. rewrite length_fmap. pose proof (digits_of_length 16 16 n). lia. Qed.

(** What [output_string] prints *)
Definition laid_out (hex : bool) (s : list Z) (flags n signchar : Z) : list Z :=
  let front := sign_text signchar in
  let pre := prefix_text hex flags in
  let zero := has_flag flags LEADZEROFLAG in
  let k := Z.to_nat (n - Z.of_nat (length front) - Z.of_nat (length pre) - Z.of_nat (length s)) in
  if has_flag flags LEFTFORMATFLAG then s ++ replicate (Z.to_nat (n - Z.of_nat (length s))) 32
  else (if zero then front else []) ++ pre ++ replicate k (if zero then 48 else 32) ++ (if zero then [] else front) ++ s.

Lemma sign_char_range flags b : 0 <= sign_char flags b < 256.
Proof. unfold sign_char. destruct b, (has_flag flags SHOWSIGNFLAG), (has_flag flags BLANKPOSFLAG); lia. Qed.

Lemma prints_conv_dec flags n w :
  0 <= n < 2 ^ 64 -> 0 <= w ->
  let negative := has_flag flags SIGNEDFLAG && (to_signed 64 n <? 0) in
  prints (conv_dec flags w n)
    (laid_out false (dec_text (if negative then u64 (- n) else n)) flags w (sign_char flags negative)) [] ().
Proof.
  intros Hn Hw negative. unfold conv_dec.
  destruct (longlong_to_string_run n flags Hn) as (buf & pos & E & Hs). fold negative in E, Hs. rewrite E.
  eapply (prints_seq _ _ [] _); [apply prints_option|]. cbv beta iota. rewrite Hs.
  eapply (prints_seq _ _ [] _); [apply prints_option|].
  assert (0 <= (if negative then u64 (- n) else n)) by (destruct negative; [apply wrap_range; lia|lia]).
  apply prints_output_string; [left; apply dec_text_nonempty|by apply dec_text_range|apply dec_text_length|done|apply sign_char_range].
Qed.

Lemma prints_conv_hex flags v w :
  0 <= w ->
  let n := unsigned_arg flags v in
  let flags' := if n =? 0 then clear_flag flags ALTFLAG else flags in
  prints (conv_hex flags w) (laid_out true (hex_text (has_flag flags CAPSFLAG) n) flags' w 0) [v] ().
Proof.
  intros Hw n flags'. assert (0 <= n < 2 ^ 64) as Hn.
  { subst n. unfold unsigned_arg. repeat match goal with |- context [if ?b then _ else _] => destruct b end;
      try (apply wrap_range; lia); (split; [apply wrap_range; lia|eapply Z.lt_trans; [apply wrap_range; lia|done]]). }
  unfold conv_hex. eapply (prints_bind va_arg _ [] _ [v] []); [apply prints_arg|]. fold n. cbv zeta. fold flags'.
  destruct (longlong_to_hexstring_run n flags Hn) as (buf & pos & E & Hs). rewrite E.
  eapply (prints_seq _ _ [] _); [apply prints_option|]. cbv beta iota. rewrite Hs.
  eapply (prints_seq _ _ [] _); [apply prints_option|].
  apply prints_output_string; [left; apply hex_text_nonempty|apply hex_text_range; lia|apply hex_text_length|done|lia].
Qed.
End prints.
