(* ===== verification/PrintfRun.v ===== *)
(** * Formatted output: parsing formats, and the engine *)
From S2P Require Import Prelude Cstring CstringMem CstringOps CstringFind Strtol StrtolOps Printf PrintfOps.

(** ** The flags of a directive *)
Definition bit (b : bool) (f : Z) : Z := if b then f else 0.
Definition flag_bits (d : directive) : Z :=
  Z.lor (bit (d_left d) LEFTFORMATFLAG) (Z.lor (bit (d_plus d) SHOWSIGNFLAG)
    (Z.lor (bit (d_blank d) BLANKPOSFLAG) (Z.lor (bit (d_alt d) ALTFLAG) (bit (d_zero d) LEADZEROFLAG)))).
Definition length_bits (l : length_mod) : Z :=
  match l with
  | LNone => 0
  | LHalfHalf => Z.lor HALFFLAG HALFHALFFLAG
  | LHalf => HALFFLAG
  | LLong => LONGFLAG
  | LLongLong => Z.lor LONGFLAG LONGLONGFLAG
  | LSize => SIZETFLAG
  | LIntmax => INTMAXFLAG
  | LPtrdiff => PTRDIFFFLAG
  end.
Definition dir_flags (d : directive) : Z := Z.lor (flag_bits d) (length_bits (d_length d)).

Ltac all_flags d :=
  clear; destruct d as [[] [] [] [] [] ? [] ?]; reflexivity.

Fixpoint parse_format (l : list Z) (flags n : Z) : option (Z * Z) :=
  match l with
  | [] => Some (flags, n)
  | c :: l => '(flags, n) ← format_char c flags n; parse_format l flags n
  end.

Lemma parse_app l1 l2 f n :
  parse_format (l1 ++ l2) f n = '(f, n) ← parse_format l1 f n; parse_format l2 f n.
Proof.
  revert f n. induction l1 as [|c l1 IH]; intros f n; simpl; [done|].
  destruct (format_char c f n) as [[f' n']|]; simpl; [apply IH|done].
Qed.

Lemma parse_flags d : parse_format (flags_text d) 0 0 = Some (flag_bits d, 0).
Proof. destruct d as [l p b a z w le co]; destruct l, p, b, a, z; reflexivity. Qed.

Lemma parse_length d n : parse_format (length_text (d_length d)) (flag_bits d) n = Some (dir_flags d, n).
Proof. all_flags d. Qed.

(** More digits make a number larger. *)
Lemma digits_grow ds n : 0 <= n -> Forall (fun d => 0 <= d < 10) ds -> n <= foldl (fun v d => v * 10 + d) n ds.
Proof.
  intros Hn Hd. revert n Hn. induction Hd as [|d ds Hd _ IH]; intros n Hn; simpl; [lia|].
  etrans; [|apply IH; lia]. lia.
Qed.

Lemma parse_digits f ds n :
  0 < n \/ (exists d l, ds = d :: l /\ 0 < d) \/ ds = [] -> 0 <= n -> Forall (fun d => 0 <= d < 10) ds ->
  foldl (fun v d => v * 10 + d) n ds < 2 ^ 32 ->
  parse_format ((fun d => d + 48) <$> ds) f n = Some (f, foldl (fun v d => v * 10 + d) n ds).
Proof.
  intros Hp Hn Hd. revert n Hp Hn. induction Hd as [|d ds Hd Hds IH]; intros n Hp Hn Hlt; simpl; [done|].
  simpl in Hlt. pose proof (digits_grow ds (n * 10 + d) ltac:(lia) Hds) as Hg.
  unfold format_char. rewrite (proj2 (Z.leb_le 48 _)), (proj2 (Z.leb_le _ 57)) by lia. simpl.
  assert ((d + 48 =? 48) && (n =? 0) = false) as ->.
  { apply andb_false_iff. rewrite !Z.eqb_neq. destruct Hp as [?|[(d' & l & [= <- <-] & ?)|[=]]]; lia. }
  rewrite (wrap_small 32 (n * 10)), wrap_small by lia. replace (n * 10 + (d + 48 - 48)) with (n * 10 + d) by lia.
  apply IH; [|lia|done]. destruct ds; [by right; right|]. left.
  destruct Hp as [?|[(d' & l & [= <- <-] & ?)|[=]]]; lia.
Qed.

Lemma parse_width d f :
  0 <= d_width d < 2 ^ 32 -> parse_format (width_text d) f 0 = Some (f, d_width d).
Proof.
  intros Hw. unfold width_text. destruct (Z.eqb_spec (d_width d) 0) as [->|Hne]; [done|].
  assert (0 < d_width d < 10 ^ Z.of_nat 20) as Hr by (split; [lia|eapply Z.lt_trans; [apply Hw|done]]).
  pose proof (digits_of_value 10 ltac:(lia) 20 (d_width d) ltac:(lia)) as Hv. unfold digits_value in Hv.
  unfold dec_text. rewrite parse_digits; [by unfold dec_digits; rewrite Hv| |lia|apply digits_of_range; lia|].
  - right. left. apply (digits_of_head 10); [lia|done].
  - unfold dec_digits. rewrite Hv. lia.
Qed.

Lemma parse_directive d :
  0 <= d_width d < 2 ^ 32 ->
  parse_format (flags_text d ++ width_text d ++ length_text (d_length d)) 0 0 = Some (dir_flags d, d_width d).
Proof.
  intros Hw. rewrite parse_app, parse_flags. simpl. rewrite parse_app, parse_width by done. simpl.
  apply parse_length.
Qed.

(** ** Reading the format *)
Lemma next_format_run fuel fmt l c rest f n f' n' m :
  (length l < fuel)%nat -> cstr m fmt (l ++ c :: rest) -> parse_format l f n = Some (f', n') ->
  format_char c f' n' = None ->
  next_format fuel fmt f n m = Some ((c, fmt + Z.of_nat (length l) + 1, f', n'), m).
Proof.
  revert fmt l f n. induction fuel as [|fuel IH]; intros fmt l f n Hf Hc Hp Hn; [lia|]. simpl.
  destruct l as [|a l]; simpl in *; apply cstr_cons in Hc as (_ & Hl & Hc); rewrite (bind_ld _ _ _ _ Hl).
  - injection Hp as -> ->. rewrite Hn. by rewrite Z.add_0_r.
  - destruct (format_char a f n) as [[f1 n1]|]; [|done]. simpl in Hp. rewrite (IH _ l) by (done || lia).
    do 5 f_equal. lia.
Qed.

Definition plain (l : list Z) : Prop := 37 ∉ l.
#[export] Instance plain_dec l : Decision (plain l).
Proof. unfold plain. apply _. Defined.

Lemma plain_loop_run fuel fmt l e m :
  (length l < fuel)%nat -> plain l -> Forall is_char l ->
  (forall i v, l !! i = Some v -> m !! (fmt + Z.of_nat i) = Some v) ->
  m !! (fmt + Z.of_nat (length l)) = Some e -> e = 0 \/ e = 37 ->
  plain_loop fuel fmt m = Some ((l, e, fmt + Z.of_nat (length l) + 1), m).
Proof.
  revert fmt l. induction fuel as [|fuel IH]; intros fmt l Hf Hp Hc Hb He Hend; [lia|]. simpl.
  destruct l as [|c l].
  - simpl in He. rewrite Z.add_0_r in He. rewrite (bind_ld _ _ _ _ He).
    assert ((e =? 0) || (e =? 37) = true) as -> by (destruct Hend as [-> | ->]; done).
    simpl. by rewrite Z.add_0_r.
  - pose proof (Hb 0%nat c eq_refl) as Hl. rewrite Z.add_0_r in Hl. rewrite (bind_ld _ _ _ _ Hl).
    inversion Hc; subst. rewrite char_nonzero by done. unfold plain in Hp.
    rewrite (proj2 (Z.eqb_neq c 37)) by set_solver. simpl in *.
    erewrite bind_run; [|apply (IH (fmt + 1) l); [lia|unfold plain; set_solver|done| | |done]].
    + cbv beta iota. unfold mret, cm_mret, cm_ret. do 3 f_equal. lia.
    + intros i v Hi. specialize (Hb (S i) v Hi). rewrite <- Hb. f_equal. lia.
    + rewrite <- He. f_equal. lia.
Qed.

(** ** Conversions *)
Section conversion.
Context {S : Type} `{!OutputFunc S} (foot : Z -> Prop) `{!@OutputLaws S _ foot} (m0 : cmem) (str : Z -> list Z).

(** Nothing printed lies over the string at [a]. *)
Definition clear_of (a : Z) (l : list Z) : Prop := forall x, a <= x <= a + Z.of_nat (length l) -> ~ foot x.

Definition string_ok (d : directive) (v : Z) : Prop :=
  d_conv d = CStr -> v <> 0 ->
  cstr m0 v (str v) /\ clear_of v (str v) /\ Z.of_nat (length (str v)) < 2 ^ 32.

Lemma to_signed_u64 v : - 2 ^ 63 <= v < 2 ^ 63 -> to_signed 64 (u64 v) = v.
Proof.
  intros. unfold to_signed. rewrite wrap_wrap. fold (to_signed 64 v). apply to_signed_small; lia.
Qed.

Lemma to_signed_range w v : 0 < w -> - 2 ^ (w - 1) <= to_signed w v < 2 ^ (w - 1).
Proof.
  intros Hw. unfold to_signed. pose proof (wrap_range w v ltac:(lia)).
  assert (2 ^ w = 2 * 2 ^ (w - 1)) by (rewrite <- Z.pow_succ_r by lia; f_equal; lia).
  destruct (Z.ltb_spec (wrap w v) (2 ^ (w - 1))); lia.
Qed.

Lemma signed_value_range l v : - 2 ^ 63 <= signed_value l v < 2 ^ 63.
Proof.
  pose proof (to_signed_range 64 v). pose proof (to_signed_range 32 v).
  pose proof (to_signed_range 16 v). pose proof (to_signed_range 8 v). destruct l; simpl; lia.
Qed.

Lemma signed_arg_value d v : signed_arg (dir_flags d) v = u64 (signed_value (d_length d) v).
Proof. all_flags d. Qed.

Lemma unsigned_arg_value d v : unsigned_arg (dir_flags d) v = unsigned_value (d_length d) v.
Proof. all_flags d. Qed.
Lemma unsigned_arg_caps d v : unsigned_arg (Z.lor (dir_flags d) CAPSFLAG) v = unsigned_value (d_length d) v.
Proof. all_flags d. Qed.
Lemma unsigned_arg_ptr d v :
  d_length d = LNone -> unsigned_arg (Z.lor (dir_flags d) (Z.lor SIZETFLAG ALTFLAG)) v = u64 v.
Proof. destruct d as [l p b a z w le co]; simpl; intros ->; destruct l, p, b, a, z; reflexivity. Qed.

(** The magnitude and the sign of a signed number *)
Lemma prints_dec d v w :
  0 <= w ->
  let n := signed_value (d_length d) v in
  prints foot m0 (conv_dec (Z.lor (dir_flags d) SIGNEDFLAG) w (signed_arg (dir_flags d) v))
    (laid_out false (dec_text (Z.abs n)) (Z.lor (dir_flags d) SIGNEDFLAG) w
      (sign_char (Z.lor (dir_flags d) SIGNEDFLAG) (n <? 0))) [] ().
Proof.
  intros Hw n. rewrite signed_arg_value. fold n. pose proof (signed_value_range (d_length d) v) as Hr. fold n in Hr.
  assert (has_flag (Z.lor (dir_flags d) SIGNEDFLAG) SIGNEDFLAG = true) as Hs by all_flags d.
  pose proof (prints_conv_dec foot m0 (Z.lor (dir_flags d) SIGNEDFLAG) (u64 n) w ltac:(apply wrap_range; lia) Hw) as H0.
  cbv zeta in H0. rewrite Hs, to_signed_u64 in H0 by lia. simpl andb in H0.
  eapply prints_eq; [exact H0|]. f_equal. f_equal. destruct (Z.ltb_spec n 0).
  - rewrite Z.abs_neq by lia. unfold wrap.
    etrans; [|apply (Z.mod_small (- n) (2 ^ 64)); lia].
    rewrite <- (Z.sub_0_l (n mod 2 ^ 64)), Zminus_mod_idemp_r. by rewrite Z.sub_0_l.
  - rewrite Z.abs_eq by lia. by apply wrap_small; lia.
Qed.

(** How the parts of a directive are laid out *)
Lemma laid_out_eq hex s flags n c left zero :
  let front := sign_text c ++ prefix_text hex flags in
  let k := Z.to_nat (n - Z.of_nat (length front) - Z.of_nat (length s)) in
  has_flag flags LEFTFORMATFLAG = left -> has_flag flags LEADZEROFLAG = zero ->
  (left = true -> front = []) ->
  prefix_text hex flags = [] \/ zero = true \/ sign_text c = [] /\ n <= Z.of_nat (length front + length s) ->
  laid_out hex s flags n c =
    if left then front ++ s ++ replicate k 32
    else if zero then front ++ replicate k 48 ++ s
    else replicate k 32 ++ front ++ s.
Proof.
  intros front k El Ez Hl Hp. unfold laid_out. rewrite El, Ez.
  replace (Z.to_nat (n - Z.of_nat (length (sign_text c)) - Z.of_nat (length (prefix_text hex flags)) - Z.of_nat (length s)))
    with k by (subst k front; rewrite length_app; f_equal; lia).
  destruct left.
  - subst k. rewrite (Hl eq_refl). simpl. by rewrite Z.sub_0_r.
  - subst front. destruct zero; [by rewrite <- app_assoc|]. destruct Hp as [Hp|[[=]|[Hs Hn]]].
    + by rewrite Hp, app_nil_r.
    + assert (k = 0%nat) as -> by (subst k; lia). by rewrite Hs.
Qed.

Lemma sign_text_char d b :
  sign_text (sign_char (Z.lor (dir_flags d) SIGNEDFLAG) b) = dir_sign d b.
Proof. destruct b; all_flags d. Qed.

(** The parts, padded *)
Definition padded (d : directive) (zero : bool) (front body : list Z) : list Z :=
  let n := Z.to_nat (d_width d - Z.of_nat (length front) - Z.of_nat (length body)) in
  if d_left d then front ++ body ++ replicate n 32
  else if zero then front ++ replicate n 48 ++ body
  else replicate n 32 ++ front ++ body.

Lemma padded_dir d v :
  dir_printed str d v = padded d (d_zero d && is_number (d_conv d)) (fst (dir_parts str d v)) (snd (dir_parts str d v)).
Proof. unfold dir_printed. by destruct (dir_parts str d v). Qed.

(** A number to the base 16, with the flags the engine has by then *)
Lemma prints_hex d v f n caps alt :
  unsigned_arg f v = n -> has_flag f CAPSFLAG = caps -> has_flag f ALTFLAG = alt ->
  has_flag f LEFTFORMATFLAG = d_left d -> has_flag f LEADZEROFLAG = d_zero d ->
  has_flag (clear_flag f ALTFLAG) ALTFLAG = false ->
  has_flag (clear_flag f ALTFLAG) LEFTFORMATFLAG = d_left d ->
  has_flag (clear_flag f ALTFLAG) LEADZEROFLAG = d_zero d ->
  let front := if alt then dir_prefix caps n else [] in
  0 <= d_width d -> (d_left d = true -> front = []) ->
  front = [] \/ d_zero d = true \/ d_width d <= Z.of_nat (length front + length (hex_text caps n)) ->
  prints foot m0 (conv_hex f (d_width d)) (padded d (d_zero d) front (hex_text caps n)) [v] ().
Proof.
  intros En Ecaps Ealt El Ez Ca Cl Cz front Hw Hl Hp.
  eapply prints_eq; [by apply prints_conv_hex|]. cbv zeta. rewrite En, Ecaps.
  set (f' := if n =? 0 then clear_flag f ALTFLAG else f).
  assert (prefix_text true f' = front) as Ef.
  { subst f' front. unfold prefix_text, dir_prefix. simpl. destruct (n =? 0); [rewrite Ca; by destruct alt|].
    rewrite Ealt, Ecaps. done. }
  rewrite (laid_out_eq _ _ _ _ _ (d_left d) (d_zero d)); rewrite ?Ef; simpl.
  - done.
  - subst f'. by destruct (n =? 0).
  - subst f'. by destruct (n =? 0).
  - done.
  - destruct Hp as [?|[?|?]]; [by left|right; by left|right; right]. done.
Qed.

Lemma prints_dir_dec d v :
  d_conv d = CDec -> supported str d v ->
  prints foot m0 (conversion 100 (dir_flags d) (d_width d)) (dir_printed str d v) [v] ().
Proof.
  intros Ec (Hw & Hleft & _). rewrite padded_dir. unfold dir_parts in *. rewrite Ec in *. simpl in *.
  eapply (prints_bind foot m0 va_arg _ [] _ [v] []); [apply prints_arg|].
  eapply prints_eq; [apply prints_dec; lia|].
  rewrite (laid_out_eq _ _ _ _ _ (d_left d) (d_zero d)); rewrite ?sign_text_char; simpl; rewrite ?app_nil_r;
    [|all_flags d|all_flags d|done|by left].
  by rewrite andb_true_r.
Qed.

Lemma prints_dir_uns d v :
  d_conv d = CUns -> supported str d v ->
  prints foot m0 (conversion 117 (dir_flags d) (d_width d)) (dir_printed str d v) [v] ().
Proof.
  intros Ec (Hw & _ & Hu & _). rewrite padded_dir. unfold dir_parts in *. rewrite Ec in *. simpl in *.
  destruct (Hu eq_refl) as [Hp Hb].
  eapply (prints_bind foot m0 va_arg _ [] _ [v] []); [apply prints_arg|].
  assert (0 <= unsigned_arg (dir_flags d) v < 2 ^ 64) as Hr.
  { rewrite unsigned_arg_value. pose proof (wrap_range 64 v). pose proof (wrap_range 32 v).
    pose proof (wrap_range 16 v). pose proof (wrap_range 8 v). destruct (d_length d); simpl; lia. }
  eapply prints_eq; [apply (prints_conv_dec foot m0 _ _ _ Hr); lia|]. cbv zeta.
  assert (has_flag (dir_flags d) SIGNEDFLAG = false) as -> by all_flags d. simpl andb. cbv iota.
  assert (sign_char (dir_flags d) false = 0) as ->.
  { unfold sign_char. assert (has_flag (dir_flags d) SHOWSIGNFLAG = d_plus d) as -> by all_flags d.
    assert (has_flag (dir_flags d) BLANKPOSFLAG = d_blank d) as -> by all_flags d. by rewrite Hp, Hb. }
  rewrite (laid_out_eq _ _ _ _ _ (d_left d) (d_zero d)); [|all_flags d|all_flags d|done|by left].
  by rewrite andb_true_r, unsigned_arg_value.
Qed.

Lemma prints_dir_hex d v caps :
  d_conv d = CHex caps -> supported str d v ->
  prints foot m0 (conversion (if caps then 88 else 120) (dir_flags d) (d_width d)) (dir_printed str d v) [v] ().
Proof.
  intros Ec (Hw & Hl & _ & _ & Hp). rewrite padded_dir. unfold dir_parts in *. rewrite Ec in *. simpl in *.
  rewrite andb_true_r. destruct caps.
  - apply (prints_hex d v (Z.lor (dir_flags d) CAPSFLAG)); [apply unsigned_arg_caps|all_flags d..|lia|done|auto].
  - apply (prints_hex d v (dir_flags d)); [apply unsigned_arg_value|all_flags d..|lia|done|auto].
Qed.

Lemma prints_dir_ptr d v :
  d_conv d = CPtr -> d_length d = LNone -> supported str d v ->
  prints foot m0 (conversion 112 (dir_flags d) (d_width d)) (dir_printed str d v) [v] ().
Proof.
  intros Ec El (Hw & Hl & _ & _ & Hp). rewrite padded_dir. unfold dir_parts in *. rewrite Ec in *. simpl in *.
  rewrite andb_true_r.
  apply (prints_hex d v (Z.lor (dir_flags d) (Z.lor SIZETFLAG ALTFLAG)) _ false true);
    [by apply unsigned_arg_ptr|all_flags d..|lia|done|auto].
Qed.

Lemma prints_dir_char d v :
  d_conv d = CChar -> supported str d v ->
  prints foot m0 (conversion 99 (dir_flags d) (d_width d)) (dir_printed str d v) [v] ().
Proof.
  intros Ec (Hw & _ & _ & Hc & _). rewrite padded_dir. unfold dir_parts in *. rewrite Ec in *. simpl in *.
  specialize (Hc eq_refl). eapply (prints_bind foot m0 va_arg _ [] _ [v] []); [apply prints_arg|].
  eapply prints_eq; [apply prints_char|]. unfold padded. simpl.
  replace (Z.to_nat (d_width d - Z.of_nat 0 - Z.of_nat 1)) with 0%nat by lia. by destruct (d_left d), (d_zero d).
Qed.

Lemma ld_string_run a l m : cstr m a l -> ld_string a m = Some (l, m).
Proof. intros Hl. unfold ld_string. erewrite bind_run by (by apply strlen_run). by rewrite rd_cstr. Qed.

Lemma prints_dir_str d v :
  d_conv d = CStr -> supported str d v -> string_ok d v ->
  prints foot m0 (conversion 115 (dir_flags d) (d_width d)) (dir_printed str d v) [v] ().
Proof.
  intros Ec (Hw & _) Hs. rewrite padded_dir. unfold dir_parts in *. rewrite Ec in *. simpl in *.
  eapply (prints_bind foot m0 va_arg _ [] _ [v] []); [apply prints_arg|].
  set (s := if v =? 0 then null_string else str v).
  assert (Forall (fun v => 0 <= v < 256) s /\ Z.of_nat (length s) < 2 ^ 32) as [Hr Hl].
  { subst s. destruct (Z.eqb_spec v 0); [split; [repeat constructor; lia|done]|].
    destruct Hs as (Hc & _ & ?); [done|done|]. split; [|done]. eapply Forall_impl; [apply Hc|]. intros; by apply char_range. }
  eapply (prints_seq foot m0 _ _ [] _ s).
  { subst s. destruct (Z.eqb_spec v 0); [apply prints_ret|]. apply prints_lift. intros m Hm.
    destruct Hs as (Hc & Hf & _); [done|done|]. apply ld_string_run. eapply cstr_ext; [|exact Hc].
    intros x Hx. apply Hm, Hf. done. }
  eapply prints_eq; [apply prints_output_string; [by right|done|done|lia|lia]|].
  change (laid_out false s (clear_flag (dir_flags d) LEADZEROFLAG) (d_width d) 0 = padded d (d_zero d && false) [] s).
  rewrite (laid_out_eq _ _ _ _ _ (d_left d) false); [|all_flags d|all_flags d|done|by left].
  by rewrite andb_false_r.
Qed.

(** The directives print what they should. *)
Lemma prints_dir d v :
  supported str d v -> string_ok d v -> (d_conv d = CPtr -> d_length d = LNone) ->
  prints foot m0 (conversion (conv_char (d_conv d)) (dir_flags d) (d_width d)) (dir_printed str d v) [v] ().
Proof.
  intros Hsup Hs Hptr. destruct (d_conv d) eqn:Ec; simpl.
  - by apply prints_dir_dec.
  - by apply prints_dir_uns.
  - by apply prints_dir_hex.
  - by apply prints_dir_ptr; auto.
  - by apply prints_dir_char.
  - by apply prints_dir_str.
Qed.
End conversion.

(** * Formatted output: whole formats, and [vsnprintf] *)

Section engine.
Context {S : Type} `{!OutputFunc S} (foot : Z -> Prop) `{!@OutputLaws S _ foot} (m0 : cmem) (str : Z -> list Z).

(** The arguments fit the directives. *)
Fixpoint args_ok (l : list (list Z * item)) (ap : list Z) : Prop :=
  match l with
  | [] => ap = []
  | (s, i) :: l =>
      plain s /\
      match i with
      | Percent => args_ok l ap
      | Dir d =>
          match ap with
          | v :: ap =>
              supported str d v /\ string_ok foot m0 str d v /\ (d_conv d = CPtr -> d_length d = LNone) /\ args_ok l ap
          | [] => False
          end
      end
  end.

Lemma plain_part l1 e l2 a m :
  cstr m a (l1 ++ e :: l2) -> plain l1 -> e = 37 ->
  with_fuel (fun f => plain_loop f a) m = Some ((l1, 37, a + Z.of_nat (length l1) + 1), m).
Proof.
  intros Hc Hp ->. apply with_fuel_run. pose proof (cstr_fuel _ _ _ Hc) as Hf. rewrite length_app in Hf.
  pose proof Hc as [Hch Hb _]. apply plain_loop_run; [lia|done|by apply Forall_app in Hch as [? _]| | |by right].
  - intros i v Hi. apply Hb. by apply lookup_app_l_Some.
  - apply (Hb (length l1)). by rewrite lookup_app_r, Nat.sub_diag by lia.
Qed.

Lemma plain_end l a m :
  cstr m a l -> plain l -> with_fuel (fun f => plain_loop f a) m = Some ((l, 0, a + Z.of_nat (length l) + 1), m).
Proof.
  intros Hc Hp. apply with_fuel_run. pose proof Hc as [Hch Hb He].
  apply plain_loop_run; [by apply cstr_fuel in Hc|done|done|done|done|by left].
Qed.

Definition item_flags (i : item) : Z * Z := match i with Percent => (0, 0) | Dir d => (dir_flags d, d_width d) end.
Definition item_conv (i : item) : Z := match i with Percent => 37 | Dir d => conv_char (d_conv d) end.

Lemma next_item i rest a m :
  cstr m a (item_text i ++ rest) -> (forall d, i = Dir d -> 0 <= d_width d < 2 ^ 32) ->
  with_fuel (fun f => next_format f a 0 0) m =
    Some ((item_conv i, a + Z.of_nat (length (item_text i)), fst (item_flags i), snd (item_flags i)), m).
Proof.
  intros Hc Hw. apply with_fuel_run. pose proof (cstr_fuel _ _ _ Hc) as Hf. rewrite length_app in Hf.
  destruct i as [|d]; cbn [item_text item_flags item_conv fst snd app length] in *.
  - rewrite (next_format_run _ a [] 37 rest 0 0 0 0 m) by (done || (simpl; lia)). do 5 f_equal. simpl. lia.
  - specialize (Hw d eq_refl). set (l := flags_text d ++ width_text d ++ length_text (d_length d)).
    assert (flags_text d ++ width_text d ++ length_text (d_length d) ++ [conv_char (d_conv d)] =
      l ++ [conv_char (d_conv d)]) as E by (subst l; by rewrite <- !app_assoc).
    rewrite E in *. rewrite length_app in *. simpl in Hf.
    rewrite (next_format_run _ _ l (conv_char (d_conv d)) rest _ _ (dir_flags d) (d_width d)).
    + do 5 f_equal. simpl. lia.
    + lia.
    + by rewrite <- app_assoc in Hc.
    + by apply parse_directive.
    + by destruct (d_conv d) as [| |[]| | |].
Qed.

Lemma agree_cstr a l m : cstr m0 a l -> clear_of foot a l -> (forall x, ~ foot x -> m !! x = m0 !! x) -> cstr m a l.
Proof. intros Hc Hf Hm. eapply cstr_ext; [|exact Hc]. intros x Hx. apply Hm, Hf, Hx. Qed.

Lemma clear_app a l1 l2 : clear_of foot a (l1 ++ l2) -> clear_of foot (a + Z.of_nat (length l1)) l2.
Proof. intros Hc x Hx. apply Hc. rewrite length_app. lia. Qed.

(** One item: the text in front of it and what it prints *)
Lemma prints_item s i rest a fuel txt used txt' used' :
  plain s -> (forall d, i = Dir d -> 0 <= d_width d < 2 ^ 32) ->
  cstr m0 a (s ++ 37 :: item_text i ++ rest) -> clear_of foot a (s ++ 37 :: item_text i ++ rest) ->
  prints foot m0 (conversion (item_conv i) (fst (item_flags i)) (snd (item_flags i))) txt used () ->
  prints foot m0 (engine_loop fuel (a + Z.of_nat (length s) + 1 + Z.of_nat (length (item_text i)))) txt' used' () ->
  prints foot m0 (engine_loop (Datatypes.S fuel) a) (s ++ txt ++ txt') (used ++ used') ().
Proof.
  intros Hp Hw Hc Hf Hconv Hrest. simpl.
  assert (Forall (fun v => 0 <= v < 256) s) as Hs.
  { apply cs_chars in Hc. apply Forall_app in Hc as [Hc _]. eapply Forall_impl; [exact Hc|]. intros; by apply char_range. }
  eapply (prints_bind foot m0 _ _ [] _ [] _ (s, 37, a + Z.of_nat (length s) + 1)).
  { apply prints_lift. intros m Hm. eapply plain_part; [by eapply agree_cstr|done|done]. }
  cbv beta iota. eapply (prints_bind foot m0 _ _ s _ [] _); [by apply prints_string|]. simpl Z.eqb. cbv iota.
  eapply (prints_bind foot m0 _ _ [] _ [] _
    (item_conv i, a + Z.of_nat (length s) + 1 + Z.of_nat (length (item_text i)), fst (item_flags i), snd (item_flags i))).
  { apply prints_lift. intros m Hm. eapply next_item with (rest := rest); [|done].
    apply (agree_cstr _ _ m Hc Hf) in Hm. apply cstr_app in Hm. by apply cstr_cons in Hm as (_ & _ & Hm). }
  cbv beta iota. assert ((item_conv i =? 0) = false) as -> by (destruct i as [|d]; [done|]; simpl; by destruct (d_conv d) as [| |[]| | |]).
  by apply (prints_bind foot m0 _ _ txt txt' used used' () ()).
Qed.

Lemma prints_engine l last ap a fuel :
  (length l < fuel)%nat -> args_ok l ap -> plain last ->
  cstr m0 a (items_text l ++ last) -> clear_of foot a (items_text l ++ last) ->
  prints foot m0 (engine_loop fuel a) (items_printed str l ap ++ last) ap ().
Proof.
  revert l ap a. induction fuel as [|fuel IH]; intros l ap a Hl Hok Hp Hc Hf; [lia|].
  destruct l as [|[s i] l].
  - simpl in *. subst ap.
    eapply (prints_seq foot m0 _ _ [] _ (last, 0, a + Z.of_nat (length last) + 1)).
    { apply prints_lift. intros m Hm. apply plain_end; [by eapply agree_cstr|done]. }
    cbv beta iota. eapply prints_eq; [eapply prints_seq; [|apply prints_ret]|apply app_nil_r].
    apply prints_string. apply cs_chars in Hc. eapply Forall_impl; [exact Hc|]. intros; by apply char_range.
  - simpl in Hok. destruct Hok as [Hs Hi]. simpl items_text in *. rewrite <- app_assoc in Hc, Hf. simpl in Hc, Hf, Hl.
    rewrite <- app_assoc in Hc, Hf.
    assert (cstr m0 (a + Z.of_nat (length s) + 1 + Z.of_nat (length (item_text i))) (items_text l ++ last)) as Hc'.
    { apply cstr_app in Hc. apply cstr_cons in Hc as (_ & _ & Hc). by apply cstr_app in Hc. }
    assert (clear_of foot (a + Z.of_nat (length s) + 1 + Z.of_nat (length (item_text i))) (items_text l ++ last)) as Hf'.
    { intros x Hx. apply Hf. rewrite !length_app in *. simpl. rewrite !length_app. lia. }
    destruct i as [|d]; simpl.
    + rewrite <- app_assoc. change (s ++ (37 :: items_printed str l ap) ++ last) with (s ++ [37] ++ items_printed str l ap ++ last).
      apply (prints_item s Percent (items_text l ++ last) a fuel [37] [] _ ap); [done|done|done|done| |].
      * by apply prints_char'.
      * apply IH; [lia|done|done|done|done].
    + destruct ap as [|v ap]; [done|]. destruct Hi as (Hsup & Hstr & Hptr & Hok). rewrite <- !app_assoc.
      apply (prints_item s (Dir d) (items_text l ++ last) a fuel _ [v] _ ap); [done| |done|done| |].
      * intros ? [= <-]. apply Hsup.
      * by apply prints_dir.
      * apply IH; [lia|done|done|done|done].
Qed.

Lemma items_text_length l : (length l <= length (items_text l))%nat.
Proof. induction l as [|[s i] l IH]; simpl; [lia|]. rewrite length_app. simpl. rewrite length_app. lia. Qed.

(** The engine prints the format, and returns the number of characters. *)
Lemma printf_engine_run f ap a s m :
  args_ok (f_items f) ap -> plain (f_last f) -> cstr m0 a (format_text f) -> clear_of foot a (format_text f) ->
  Z.of_nat (length (printed str f ap)) < 2 ^ 31 -> ol_rep m0 s m [] ->
  exists s' m', _printf_engine s a ap m = Some ((Z.of_nat (length (printed str f ap)), s'), m') /\
    ol_rep m0 s' m' (printed str f ap).
Proof.
  intros Hok Hp Hc Hf Hl Hr. unfold _printf_engine.
  pose proof (agree_cstr a (format_text f) m Hc Hf (ol_frame m0 _ _ _ Hr)) as Hc2.
  pose proof (cstr_fuel _ _ _ Hc2) as Hfuel. unfold format_text in Hfuel. rewrite length_app in Hfuel.
  pose proof (items_text_length (f_items f)).
  destruct (prints_engine (f_items f) (f_last f) ap a (Datatypes.S (size m)) ltac:(lia) Hok Hp Hc Hf
    (PState s ap 0) m [] []) as (p' & m' & E & R & W & A); [done|done|by rewrite app_nil_r|done|].
  erewrite bind_run by (apply with_fuel_run; exact E). cbv beta iota. simpl in *.
  rewrite W, s32_small by (unfold printed in Hl; lia). eexists _, _. by split.
Qed.
End engine.

(** ** The output function of [vsnprintf] appends to the buffer, as far as it goes *)
Section vsnprintf.
Context (str len : Z).

Definition in_buffer (x : Z) : Prop := str <= x < str + len.
Definition buffer_rep (m0 : cmem) (s : output_args) (m : cmem) (t : list Z) : Prop :=
  0 <= len /\ mapped m0 str len /\ s = OutputArgs str len (Z.min len (Z.of_nat (length t))) /\
  m = wr str (take (Z.to_nat len) t) m0.

Lemma vsnprintf_output_loop_run m0 bs t :
  0 <= len -> mapped m0 str len -> Forall (fun v => 0 <= v < 256) bs ->
  vsnprintf_output_loop bs (OutputArgs str len (Z.min len (Z.of_nat (length t)))) (wr str (take (Z.to_nat len) t) m0) =
    Some (OutputArgs str len (Z.min len (Z.of_nat (length (t ++ bs)))), wr str (take (Z.to_nat len) (t ++ bs)) m0).
Proof.
  intros Hlen Hm Hb. revert t. induction Hb as [|c bs Hc Hb IH]; intros t; [by rewrite app_nil_r|]. simpl.
  specialize (IH (t ++ [c])). rewrite <- app_assoc in IH. simpl in IH.
  destruct (Z.ltb_spec (Z.min len (Z.of_nat (length t))) len) as [Hlt|Hge].
  - rewrite Z.min_r in * by lia. rewrite bind_st by (done || (eapply mapped_wr; [exact Hm|lia])).
    rewrite (take_ge t) by lia. rewrite wr_snoc.
    rewrite (take_ge (t ++ [c])) in IH by (rewrite length_app; simpl; lia). rewrite length_app in IH at 1.
    rewrite Z.min_r in IH by (simpl; lia). rewrite <- IH. do 2 f_equal. simpl. lia.
  - rewrite (Z.min_l len (Z.of_nat (length t))) by lia.
    rewrite (Z.min_l len (Z.of_nat (length (t ++ [c])))) in IH by (rewrite length_app; simpl; lia).
    rewrite (take_app_le t [c]) in IH by lia. exact IH.
Qed.

#[export] Instance vsnprintf_laws : OutputLaws in_buffer.
Proof.
  refine {| ol_rep := buffer_rep |}.
  - intros m0 s m t bs (Hl & Hm & -> & ->) Hb Hlen. eexists _, _. split.
    + unfold out, vsnprintf_output. erewrite bind_run by (by apply vsnprintf_output_loop_run).
      rewrite s32_small by lia. reflexivity.
    + done.
  - intros m0 s m t (Hl & Hm & -> & ->) x Hx. unfold in_buffer in Hx. rewrite lookup_wr, decide_False; [done|].
    rewrite length_take. lia.
Defined.

(** The buffer gets what fits of the text, with a zero behind it; the rest of
    memory is as it was, and the length of the whole text is returned. *)
Lemma vsnprintf_run m strs f ap a :
  0 < len -> mapped m str len -> args_ok in_buffer m strs (f_items f) ap -> plain (f_last f) ->
  cstr m a (format_text f) -> clear_of in_buffer a (format_text f) ->
  Z.of_nat (length (printed strs f ap)) < 2 ^ 31 ->
  vsnprintf str len a ap m =
    Some (Z.of_nat (length (printed strs f ap)), wr str (take (Z.to_nat (len - 1)) (printed strs f ap) ++ [0]) m).
Proof.
  intros Hlen Hm Hok Hp Hc Hf Hl. unfold vsnprintf. set (t := printed strs f ap) in *.
  destruct (printf_engine_run in_buffer m strs f ap a (OutputArgs str len 0) m Hok Hp Hc Hf Hl) as (s' & m' & E & R).
  { split; [lia|]. split; [done|]. simpl. rewrite take_nil, Z.min_r by lia. done. }
  erewrite bind_run by exact E. destruct R as (_ & _ & -> & ->). fold t. cbv beta iota. simpl oa_pos.
  rewrite (proj2 (Z.eqb_neq len 0)) by lia. destruct (Z.leb_spec len (Z.min len (Z.of_nat (length t)))).
  - rewrite bind_st by (first [lia | eapply mapped_wr; [exact Hm|lia]]).
    unfold mret, cm_mret, cm_ret. do 2 f_equal.
    assert (exists x l', take (Z.to_nat len) t = l' ++ [x] /\ l' = take (Z.to_nat (len - 1)) t) as (x & l' & E1 & E2).
    { destruct (lookup_lt_is_Some_2 t (Z.to_nat (len - 1))) as [x Hx]; [lia|].
      exists x, (take (Z.to_nat (len - 1)) t). split; [|done].
      replace (Z.to_nat len) with (Datatypes.S (Z.to_nat (len - 1))) by lia. by apply take_S_r. }
    assert (len - 1 = Z.of_nat (length l')) as -> by (rewrite E2, length_take; lia).
    rewrite E1, <- wr_snoc, insert_insert_eq, wr_snoc. by rewrite E2, length_take, Nat2Z.id, Nat.min_l by lia || done.
  - rewrite Z.min_r in * by lia.
    rewrite bind_st by (first [lia | eapply mapped_wr; [exact Hm|lia]]).
    unfold mret, cm_mret, cm_ret. rewrite !take_ge by lia. by rewrite wr_snoc.
Qed.
End vsnprintf.
