(* ===== verification/LibcClaims.v ===== *)
(** * The C library: what its functions promise

    The statements about [lib/libc], with examples at which they apply. *)
From S2P Require Import Prelude Cstring CstringMem CstringOps CstringFind Strtol StrtolOps Printf PrintfOps PrintfRun.

(** The bytes of a text *)
Definition chars (s : string) : list Z := (fun c => Z.of_N (Ascii.N_of_ascii c)) <$> String.list_ascii_of_string s.
Definition cstring (s : string) : list Z := chars s ++ [0].

(** C23: [memmove] copies any two blocks below 2 GiB, overlapping or not: the
    destination gets the bytes the source had before, and no other byte changes.
    It faults nowhere, and its accesses to whole words are aligned.  On blocks of
    which the destination does not lie ahead of the source within it, [memcpy]
    does the same. *)
Theorem memmove_correct (d s count : Z) (m : cmem) :
  0 <= count < 2 ^ 31 -> bytes m -> mapped m s count -> mapped m d count ->
  one_half d count -> one_half s count ->
  memmove d s count m = Some (d, wr d (rd m s count) m) /\
  (d <= s \/ s + count <= d -> memcpy d s count m = memmove d s count m).
Proof.
  intros Hc Hb Hs Hd Hdh Hsh. split; [by apply memmove_run|].
  intros. rewrite memcpy_run by done. by rewrite memmove_run.
Qed.

Definition move_mem : cmem := wr 1003 (seqZ 1 30) ∅.
Lemma move_mem_bytes : bytes move_mem.
Proof. decide_now. Qed.

(** Twenty bytes, three forward within themselves *)
Lemma memmove_correct_witness :
  exists m, memmove 1006 1003 20 move_mem = Some (1006, m) /\ rd m 1003 25 = seqZ 1 3 ++ seqZ 1 20 ++ seqZ 24 2.
Proof.
  destruct (memmove_correct 1006 1003 20 move_mem) as [E _].
  - lia.
  - apply move_mem_bytes.
  - decide_now.
  - decide_now.
  - left. lia.
  - left. lia.
  - exists (wr 1006 (rd move_mem 1003 20) move_mem). split; [exact E|vm_compute; reflexivity].
Defined.

(** Calling [strtok] until it returns [NULL] splits a string into its tokens:
    the maximal runs of characters that are not delimiters, in order, each one
    a string of its own in place.  It ends after at most one call per character
    and one more, changes only bytes of the string, and faults nowhere. *)
Theorem strtok_splits (saved s ct : Z) (l D : list Z) (m : cmem) :
  0 < s -> cstr m s l -> cstr m ct D -> s + Z.of_nat (length l) < ct \/ ct + Z.of_nat (length D) < s ->
  exists ts m', strtok_all (S (length l)) saved s ct m = Some (ts, m') /\ Forall2 (cstr m') ts (tokens D l) /\
    forall x, ~ (s <= x < s + Z.of_nat (length l)) -> m' !! x = m !! x.
Proof.
  intros Hs Hl Hd Hx. apply strtok_all_run; [lia| |lia|done|done|done].
  by rewrite (proj2 (Z.eqb_neq s 0)) by lia.
Qed.

Definition tok_mem : cmem := wr 100 (cstring " mount /data,,fat ") (wr 200 (cstring " ,") ∅).
Lemma strtok_splits_witness :
  exists ts m', strtok_all 19 0 100 200 tok_mem = Some (ts, m') /\
    Forall2 (cstr m') ts [chars "mount"; chars "/data"; chars "fat"].
Proof.
  destruct (strtok_splits 0 100 200 (chars " mount /data,,fat ") (chars " ,") tok_mem) as (ts & m' & E & Hts & _).
  - lia.
  - decide_now.
  - decide_now.
  - left. simpl. lia.
  - exists ts, m'. split; [exact E|]. exact Hts.
Defined.

(** C10: [strtol] and [strtoll] read the number a string starts with: white space, a
    sign, a prefix that may choose the base, and the digits of that base.  They
    return its value, cut to the range of a [long] with the error noted, and
    where the digits end, or the start of the string when there are none.  No
    intermediate value overflows. *)
Theorem strtol_correct (char_signed : bool) (nptr base : Z) (l : list Z) (m : cmem) :
  0 <= base -> cstr m nptr l ->
  let '(v, n, e) := read_number LONG_MIN LONG_MAX base l in
  strtol char_signed nptr base m = Some (StrTo v (nptr + n) e, m) /\
  strtoll char_signed nptr base m = strtol char_signed nptr base m.
Proof.
  intros Hb Hl. pose proof (strtol_run char_signed nptr base l m Hb Hl) as E.
  destruct (read_number LONG_MIN LONG_MAX base l) as [[v n] e]. by split.
Qed.

Definition num_mem : cmem := wr 100 (cstring "  -0x8000000000000000z") ∅.
Lemma strtol_correct_witness :
  strtol true 100 0 num_mem = Some (StrTo LONG_MIN (100 + 21) false, num_mem) /\
  strtoll true 100 0 num_mem = strtol true 100 0 num_mem.
Proof.
  pose proof (strtol_correct true 100 0 (chars "  -0x8000000000000000z") num_mem ltac:(lia)
    ltac:(decide_now)) as E.
  vm_compute in E |- *. exact E.
Defined.

(** C9: [vsnprintf] stores the text that the C standard gives a format, as far as it
    fits the buffer, with a zero at the end; it writes nothing outside the
    buffer, and returns the length of the whole text.  The directives covered
    are the integer, character and string conversions with their flags, widths
    and length modifiers, apart from the combinations [supported] leaves out. *)
Theorem vsnprintf_correct (buf len fmt : Z) (f : format) (ap : list Z) (strs : Z -> list Z) (m : cmem) :
  0 < len -> mapped m buf len -> cstr m fmt (format_text f) -> clear_of (in_buffer buf len) fmt (format_text f) ->
  args_ok (in_buffer buf len) m strs (f_items f) ap -> plain (f_last f) ->
  Z.of_nat (length (printed strs f ap)) < 2 ^ 31 ->
  vsnprintf buf len fmt ap m =
    Some (Z.of_nat (length (printed strs f ap)), wr buf (take (Z.to_nat (len - 1)) (printed strs f ap) ++ [0]) m).
Proof. intros. by apply vsnprintf_run. Qed.

(** ["[%5d] %#x %s"] *)
Definition dir (width : Z) (alt : bool) (l : length_mod) (c : conv) : directive :=
  Directive false false false alt false width l c.
Definition ex_format : format :=
  Format [(chars "[", Dir (dir 5 false LNone CDec)); (chars "] ", Dir (dir 0 true LNone (CHex false)));
          (chars " ", Dir (dir 0 false LNone CStr))] [].
Definition ex_strs (a : Z) : list Z := chars "hey".
Definition print_mem : cmem :=
  wr 100 (cstring "[%5d] %#x %s") (wr 200 (replicate 16 170) (wr 400 (cstring "hey") ∅)).

Lemma ex_args_ok : args_ok (in_buffer 200 16) print_mem ex_strs (f_items ex_format) [-42; 255; 400].
Proof.
  assert (forall w a c v, c <> CUns -> c <> CChar -> 0 <= w < 2 ^ 32 ->
    (match c with CHex _ | CPtr => w = 0 | _ => True end) -> supported ex_strs (dir w a LNone c) v) as Hsup.
  { intros w a c v Hu Hc Hw Hx. split; [done|]. split; [done|]. split; [done|]. split; [done|].
    intros Hp. right. right. destruct c; try done; simpl in *; lia. }
  simpl. split; [decide_now|]. split; [by apply Hsup|]. split; [by intros|]. split; [done|].
  split; [decide_now|]. split; [by apply Hsup|]. split; [by intros|]. split; [done|].
  split; [decide_now|]. split; [by apply Hsup|]. split; [|by split].
  intros _ _. split; [decide_now|]. split; [|done]. intros x Hx. unfold in_buffer. simpl in Hx. lia.
Qed.

(** The text is cut to the 15 characters that fit. *)
Lemma vsnprintf_correct_witness :
  exists m, vsnprintf 200 16 100 [-42; 255; 400] print_mem = Some (16, m) /\ cstr m 200 (chars "[  -42] 0xff he").
Proof.
  eexists. split.
  - exact (vsnprintf_correct 200 16 100 ex_format [-42; 255; 400] ex_strs print_mem eq_refl
      ltac:(decide_now) ltac:(decide_now) ltac:(intros x Hx; unfold in_buffer; simpl in Hx; lia) ex_args_ok
      ltac:(decide_now) eq_refl).
  - decide_now.
Defined.

(** ** What is printed is read back *)
Section roundtrip.
Definition long_format : format := Format [([], Dir (dir 0 false LLong CDec))] [].

Lemma long_printed strs v :
  - 2 ^ 63 <= v < 2 ^ 63 ->
  printed strs long_format [v] = (if v <? 0 then [45] else []) ++ dec_text (Z.abs v).
Proof.
  intros Hv. unfold printed, long_format, dir. cbn [f_items f_last items_printed app].
  unfold dir_printed, dir_parts, dir_sign.
  cbn [d_conv d_length signed_value d_left d_zero d_plus d_blank is_number andb d_width].
  rewrite (to_signed_small 64 v) by lia.
  replace (Z.to_nat _) with 0%nat by (destruct (v <? 0); simpl; lia). simpl. by rewrite !app_nil_r.
Qed.

Lemma dec_text_chars n : 0 <= n -> Forall (fun c => 48 <= c <= 57) (dec_text n).
Proof.
  intros Hn. apply Forall_fmap. eapply Forall_impl; [apply (digits_of_range 10); lia|]. simpl. lia.
Qed.

Lemma read_long_text v :
  - 2 ^ 63 <= v < 2 ^ 63 ->
  let l := (if v <? 0 then [45] else []) ++ dec_text (Z.abs v) in
  read_number LONG_MIN LONG_MAX 10 l = (v, Z.of_nat (length l), false).
Proof.
  intros Hv l. pose proof (dec_text_chars (Z.abs v) ltac:(lia)) as Hc. pose proof (dec_text_nonempty (Z.abs v)) as Hne.
  destruct (dec_text_value (Z.abs v) ltac:(lia)) as [Hd Hval].
  assert (dec_digits (Z.abs v) <> []) as Hdn by (intros E; apply Hne; unfold dec_text; by rewrite E).
  assert (drop_sign (drop_space l) = (v <? 0, dec_text (Z.abs v))) as E1.
  { subst l. destruct (dec_text (Z.abs v)) as [|c t]; [done|]. inversion Hc; subst. destruct (v <? 0); [done|].
    simpl. assert (isspace c = false) as ->
      by (unfold isspace; repeat (apply orb_false_iff; split); apply Z.eqb_neq; lia).
    simpl. rewrite !(proj2 (Z.eqb_neq c _)) by lia. done. }
  unfold read_number. rewrite E1.
  assert (drop_base 10 (dec_text (Z.abs v)) = (10, dec_text (Z.abs v))) as -> by (by destruct (dec_text _) as [|? [|? ?]]).
  rewrite Hd, Hval. rewrite bool_decide_false by done.
  assert (length (dec_digits (Z.abs v)) = length (dec_text (Z.abs v))) as El by (unfold dec_text; by rewrite length_fmap).
  assert ((if v <? 0 then - Z.abs v else Z.abs v) = v) as -> by (destruct (Z.ltb_spec v 0); lia).
  unfold clamp, LONG_MIN, LONG_MAX. f_equal; [f_equal|].
  - lia.
  - subst l. rewrite length_app, El. destruct (v <? 0); simpl; lia.
  - rewrite !(proj2 (Z.leb_le _ _)) by lia. done.
Qed.

(** C21: for every [long] and every buffer large enough, what [vsnprintf] prints for it with
    ["%ld"] is read back by [strtol] in base 10 as the same value, to its end and without
    a range error. *)
Theorem printf_strtol_roundtrip (char_signed : bool) (buf len fmt v : Z) (m : cmem) :
  - 2 ^ 63 <= v < 2 ^ 63 -> 22 <= len -> mapped m buf len -> cstr m fmt (chars "%ld") ->
  buf + len <= fmt \/ fmt + 3 < buf ->
  exists n m', vsnprintf buf len fmt [v] m = Some (n, m') /\
    strtol char_signed buf 10 m' = Some (StrTo v (buf + n) false, m').
Proof.
  intros Hv Hl Hm Hf Hx. set (t := (if v <? 0 then [45] else []) ++ dec_text (Z.abs v)).
  assert (length t <= 21)%nat as Hlt.
  { subst t. rewrite length_app. unfold dec_text, dec_digits. rewrite length_fmap.
    pose proof (digits_of_length 10 20 (Z.abs v)) as Hd. revert Hd. generalize (length (digits_of 20 10 (Z.abs v))).
    intros k Hd. destruct (v <? 0); simpl; lia. }
  exists (Z.of_nat (length t)), (wr buf (t ++ [0]) m). split.
  - rewrite (vsnprintf_run buf len m (fun _ => []) long_format [v] fmt).
    + rewrite long_printed by lia. fold t. by rewrite take_ge by lia.
    + lia.
    + done.
    + simpl. split; [decide_now|]. split; [|done]. split; [done|]. repeat split; done.
    + decide_now.
    + done.
    + intros x Hx'. unfold in_buffer. simpl in Hx'. lia.
    + rewrite long_printed by lia. fold t. lia.
  - pose proof (strtol_run char_signed buf 10 t (wr buf (t ++ [0]) m) ltac:(lia)) as E.
    subst t. rewrite read_long_text in E by done. apply E, cstr_wr.
    apply Forall_app. split; [destruct (v <? 0); repeat constructor; done|].
    eapply Forall_impl; [apply dec_text_chars; lia|]. unfold is_char. simpl. lia.
Qed.
End roundtrip.

Definition long_mem : cmem := wr 100 (cstring "%ld") (wr 200 (replicate 24 0) ∅).
Lemma printf_strtol_roundtrip_witness :
  exists n m', vsnprintf 200 24 100 [-9223372036854775808] long_mem = Some (n, m') /\
    strtol false 200 10 m' = Some (StrTo (-9223372036854775808) (200 + n) false, m').
Proof.
  apply (printf_strtol_roundtrip false 200 24 100 (-9223372036854775808) long_mem); [lia|lia|decide_now|decide_now|].
  right. lia.
Defined.

(** ** Where the code falls short *)

(** What is printed into a buffer of 16 bytes *)
Definition sprint (fmt : string) (ap : list Z) : option (Z * list Z) :=
  '(n, m) ← vsnprintf 200 16 100 ap (wr 100 (cstring fmt) (wr 200 (replicate 16 0) ∅)); Some (n, rd m 200 (n + 1)).

(** The sign is lost when a number is padded behind: ["%-5d"] of -3 prints 3. *)
Example printf_left_loses_sign : sprint "%-5d" [-3] = Some (5, cstring "3    ").
Proof. vm_compute. reflexivity. Qed.

(** The prefix is torn from a number padded in front: ["%#6x"] of 1 prints [0x] first. *)
Example printf_blanks_behind_prefix : sprint "%#6x" [1] = Some (6, cstring "0x   1").
Proof. vm_compute. reflexivity. Qed.

(** [strrchr] of the terminating zero is the start of the string. *)
Example strrchr_zero :
  strrchr false 100 0 (wr 100 (cstring "abc") ∅) = Some (100, wr 100 (cstring "abc") ∅).
Proof. vm_compute. reflexivity. Qed.

(** [memcpy] of 2 GiB between buffers aligned differently takes the length for
    negative: it copies no byte one by one, and goes on with words at addresses
    that are not aligned. *)
Lemma memcpy_truncates d s m :
  0 < d -> 0 < s -> d mod 8 = 1 -> s mod 8 = 0 -> memcpy d s (2 ^ 31) m = None.
Proof.
  intros Hd Hs Hd8 Hs8. unfold memcpy. simpl. rewrite (proj2 (Z.eqb_neq d s)) by (intros ->; lia).
  apply bind_fault. unfold copy_up.
  assert ((Z.land (Z.lor d s) lmask =? 0) = false) as -> by (apply not_true_iff_false; rewrite aligned_both; lia).
  assert ((Z.land (Z.lxor d s) lmask =? 0) = false) as -> by (apply not_true_iff_false; rewrite aligned_alike; lia).
  simpl negb. cbv iota zeta. simpl orb. cbv iota.
  change (s32 (2 ^ 31)) with (- 2 ^ 31). change (Z.to_nat (- 2 ^ 31)) with 0%nat. simpl bytes_up.
  erewrite bind_run by reflexivity. cbv beta iota. apply bind_fault.
  change (u64 (2 ^ 31 - - 2 ^ 31)) with (2 ^ 32). change (s32 (2 ^ 32 / lsize)) with (2 ^ 29).
  assert (exists n, Z.to_nat (2 ^ 29) = S n) as [n ->] by (exists (Z.to_nat (2 ^ 29 - 1)); lia). simpl words_up.
  unfold mbind, cm_mbind, cm_bind. destruct (ldw s m) as [[w m1]|] eqn:E; [|done].
  by rewrite stw_unaligned by lia.
Qed.
