(* ===== verification/Qsort.v ===== *)
(** * Sorting and searching: the code of [lib/libc/qsort.c] and [lib/libc/bsearch.c]

    On the memory of Cstring: an array is a block of bytes, an element a block of
    [es] of them.  The comparison is a function of the bytes of two elements.
    Pointer differences kept in an [int] are cut to 32 bits.  The fuel of the
    loops is the number of elements, and that of the recursion too. *)
From S2P Require Import Prelude Cstring.

Section sort.
Context (cmp : list Z -> list Z -> Z).

(** [cmp(p, q)]: the comparison reads both elements. *)
Definition call_cmp (es p q : Z) : cm Z := fun m =>
  if bool_decide (mapped m p es /\ mapped m q es) then Some (cmp (rd m p es) (rd m q es), m) else None.

(** ** Exchanges *)

(** [swapcode(long, ...)] and [swapcode(char, ...)], [i] times *)
Fixpoint swap_words (i : nat) (pi pj : Z) : cm unit :=
  match i with
  | O => mret ()
  | S i =>
      t ← ldw pi; u ← ldw pj;
      stw pi u;; stw pj t;;
      swap_words i (pi + sizeof_long) (pj + sizeof_long)
  end.
Fixpoint swap_bytes (i : nat) (pi pj : Z) : cm unit :=
  match i with
  | O => mret ()
  | S i =>
      t ← ld pi; u ← ld pj;
      st pi u;; st pj t;;
      swap_bytes i (pi + 1) (pj + 1)
  end.
(** The loop runs once even when [i] starts at 0. *)
Definition swapfunc (a b n swaptype : Z) : cm unit :=
  if swaptype <=? 1
  then swap_words (Nat.max 1 (Z.to_nat (n / sizeof_long))) a b
  else swap_bytes (Nat.max 1 (Z.to_nat n)) a b.

Definition SWAPINIT (a es : Z) : Z :=
  if negb (a mod sizeof_long =? 0) || negb (es mod sizeof_long =? 0) then 2
  else if es =? sizeof_long then 0 else 1.
Definition swap (es swaptype a b : Z) : cm unit :=
  if swaptype =? 0 then
    t ← ldw a; u ← ldw b; stw a u;; stw b t
  else swapfunc a b (s32 es) swaptype.
Definition vecswap (swaptype a b n : Z) : cm unit := if 0 <? n then swapfunc a b n swaptype else mret ().

Definition med3 (es a b c : Z) : cm Z :=
  r ← call_cmp es a b;
  if r <? 0 then
    r ← call_cmp es b c;
    if r <? 0 then mret b else r ← call_cmp es a c; mret (if r <? 0 then c else a)
  else
    r ← call_cmp es b c;
    if 0 <? r then mret b else r ← call_cmp es a c; mret (if r <? 0 then a else c).

(** ** Insertion sort *)
Fixpoint insert_down (fuel : nat) (es swaptype a pl : Z) : cm unit :=
  match fuel with
  | O => fault
  | S fuel =>
      if a <? pl then
        r ← call_cmp es (pl - es) pl;
        if 0 <? r then swap es swaptype pl (pl - es);; insert_down fuel es swaptype a (pl - es)
        else mret ()
      else mret ()
  end.
Fixpoint insert_up (fuel : nat) (es swaptype a n pm : Z) : cm unit :=
  match fuel with
  | O => fault
  | S fuel =>
      if pm <? a + u64 (n * es) then
        insert_down (S (Z.to_nat n)) es swaptype a pm;;
        insert_up fuel es swaptype a n (pm + es)
      else mret ()
  end.

(** ** Partition *)

(** The element the array is divided at *)
Definition pivot (es a n : Z) : cm Z :=
  let pm := a + u64 (n / 2 * es) in
  if 7 <? n then
    let pl := a in
    let pn := a + u64 ((n - 1) * es) in
    '(pl, pm, pn) ←
      (if 40 <? n then
         let d := s32 (u64 (n / 8 * es)) in
         pl ← med3 es pl (pl + d) (pl + s32 (2 * d));
         pm ← med3 es (pm - d) pm (pm + d);
         pn ← med3 es (pn - s32 (2 * d)) (pn - d) pn;
         mret (pl, pm, pn)
       else mret (pl, pm, pn));
    med3 es pl pm pn
  else mret pm.

(** [while (pb <= pc && (r = cmp(pb, a)) <= 0)]: [pa], [pb] and [swap_cnt] *)
Fixpoint scan_up (fuel : nat) (es swaptype a pa pb pc swap_cnt : Z) : cm (Z * Z * Z) :=
  match fuel with
  | O => fault
  | S fuel =>
      if pb <=? pc then
        r ← call_cmp es pb a;
        if r <=? 0 then
          if r =? 0 then
            swap es swaptype pa pb;; scan_up fuel es swaptype a (pa + es) (pb + es) pc 1
          else scan_up fuel es swaptype a pa (pb + es) pc swap_cnt
        else mret (pa, pb, swap_cnt)
      else mret (pa, pb, swap_cnt)
  end.
(** [while (pb <= pc && (r = cmp(pc, a)) >= 0)]: [pc], [pd] and [swap_cnt] *)
Fixpoint scan_down (fuel : nat) (es swaptype a pb pc pd swap_cnt : Z) : cm (Z * Z * Z) :=
  match fuel with
  | O => fault
  | S fuel =>
      if pb <=? pc then
        r ← call_cmp es pc a;
        if 0 <=? r then
          if r =? 0 then
            swap es swaptype pc pd;; scan_down fuel es swaptype a pb (pc - es) (pd - es) 1
          else scan_down fuel es swaptype a pb (pc - es) pd swap_cnt
        else mret (pc, pd, swap_cnt)
      else mret (pc, pd, swap_cnt)
  end.
Fixpoint partition (fuel : nat) (es swaptype a n pa pb pc pd swap_cnt : Z) : cm (Z * Z * Z * Z * Z) :=
  match fuel with
  | O => fault
  | S fuel =>
      '(pa, pb, swap_cnt) ← scan_up (S (Z.to_nat n)) es swaptype a pa pb pc swap_cnt;
      '(pc, pd, swap_cnt) ← scan_down (S (Z.to_nat n)) es swaptype a pb pc pd swap_cnt;
      if pc <? pb then mret (pa, pb, pc, pd, swap_cnt)
      else
        swap es swaptype pb pc;;
        partition fuel es swaptype a n pa (pb + es) (pc - es) pd 1
  end.

(** The elements equal to the pivot move from the ends to the middle. *)
Definition gather (es swaptype a pa pb pc pd pn : Z) : cm unit :=
  let r := s32 (if pa - a <? pb - pa then pa - a else pb - pa) in
  vecswap swaptype a (pb - r) r;;
  let r := s32 (if pd - pc <? pn - pd - s32 es then pd - pc else pn - pd - s32 es) in
  vecswap swaptype pb (pn - r) r.

Fixpoint qsort_loop (fuel : nat) (es a n : Z) : cm unit :=
  match fuel with
  | O => fault
  | S fuel =>
      let swaptype := SWAPINIT a es in
      if n <? 7 then insert_up (S (Z.to_nat n)) es swaptype a n (a + es)
      else
        pm ← pivot es a n;
        swap es swaptype a pm;;
        let p := a + es in
        let q := a + u64 ((n - 1) * es) in
        '(pa, pb, pc, pd, swap_cnt) ← partition (S (Z.to_nat n)) es swaptype a n p p q q 0;
        if swap_cnt =? 0 then insert_up (S (Z.to_nat n)) es swaptype a n (a + es)
        else
          let pn := a + u64 (n * es) in
          gather es swaptype a pa pb pc pd pn;;
          let r := s32 (pb - pa) in
          (if s32 es <? r then qsort_loop fuel es a (u64 r / es) else mret ());;
          let r := s32 (pd - pc) in
          if s32 es <? r then qsort_loop fuel es (pn - r) (u64 r / es) else mret ()
  end.
Definition qsort (aa n es : Z) : cm unit := qsort_loop (S (Z.to_nat n)) es aa n.

(** ** [bsearch]

    Addresses are computed with 64 bits and wrap around. *)
Fixpoint bsearch_loop (fuel : nat) (key base size low high : Z) : cm Z :=
  match fuel with
  | O => fault
  | S fuel =>
      let mid := u64 (low + u64 (high - low) / 2) in
      let mid_elem := u64 (base + u64 (mid * size)) in
      r ← call_cmp size key mid_elem;
      if r <? 0 then
        if mid =? 0 then mret 0
        else bsearch_loop fuel key base size low (u64 (mid - 1))
      else if 0 <? r then
        let low := u64 (mid + 1) in
        if (low <? mid) || (high <? low) then mret 0
        else bsearch_loop fuel key base size low high
      else mret mid_elem
  end.
Definition bsearch (key base num_elems size : Z) : cm Z :=
  if num_elems =? 0 then mret 0
  else bsearch_loop (S (S (Z.to_nat num_elems))) key base size 0 (u64 (num_elems - 1)).
End sort.
