(* ===== verification/QsortOps.v ===== *)
(** * Arrays in memory: exchanging and comparing their elements *)
From stdpp Require Import sorting.
From S2P Require Import Prelude Cstring CstringMem CstringOps Qsort.

#[local] Ltac Zify.zify_post_hook ::= Z.div_mod_to_equations.

(** ** Exchange of two blocks *)
Definition exch (p q k : Z) (m : cmem) : cmem := wr p (rd m q k) (wr q (rd m p k) m).

(** The blocks are disjoint, or one. *)
Definition apart (p q k : Z) : Prop := p + k <= q \/ q + k <= p \/ p = q.

Lemma lookup_exch p q k m x :
  0 <= k -> mapped m p k -> mapped m q k ->
  exch p q k m !! x =
    if decide (p <= x < p + k) then m !! (q + (x - p))
    else if decide (q <= x < q + k) then m !! (p + (x - q)) else m !! x.
Proof.
  intros Hk Hp Hq. unfold exch. rewrite !lookup_wr, !length_rd, !lookup_rd, !Z2Nat.id by lia.
  case_decide as H1; [|case_decide as H2; [|done]].
  - rewrite decide_True by lia. replace (q + Z.of_nat (Z.to_nat (x - p))) with (q + (x - p)) by lia.
    destruct (Hq (q + (x - p))) as [v ->]; [lia|done].
  - rewrite decide_True by lia. replace (p + Z.of_nat (Z.to_nat (x - q))) with (p + (x - q)) by lia.
    destruct (Hp (p + (x - q))) as [v ->]; [lia|done].
Qed.

Lemma exch_exch p q i j m :
  0 <= i -> 0 <= j -> mapped m p (i + j) -> mapped m q (i + j) -> apart p q (i + j) ->
  exch (p + i) (q + i) j (exch p q i m) = exch p q (i + j) m.
Proof.
  intros Hi Hj Hp Hq Ha. apply map_eq. intros x.
  assert (forall b n, mapped m b n -> mapped (exch p q i m) b n) as Hm by (intros; by do 2 apply mapped_wr).
  rewrite (lookup_exch (p + i)) by (lia || (apply Hm; mapped_tac)).
  rewrite (lookup_exch p q (i + j)) by (done || lia). rewrite !lookup_exch by (lia || mapped_tac).
  unfold apart in Ha. repeat case_decide; try lia; f_equal; lia.
Qed.

Lemma exch_comm p q k m : 0 <= k -> mapped m p k -> mapped m q k -> apart p q k -> exch p q k m = exch q p k m.
Proof.
  intros Hk Hp Hq Ha. apply map_eq. intros x. rewrite !lookup_exch by done. unfold apart in Ha.
  repeat case_decide; try done; f_equal; lia.
Qed.

Lemma exch_same p k m : 0 <= k -> mapped m p k -> exch p p k m = m.
Proof.
  intros Hk Hp. apply map_eq. intros x. rewrite lookup_exch by done. repeat case_decide; try done. f_equal. lia.
Qed.

Lemma bytes_exch p q k m : bytes m -> bytes (exch p q k m).
Proof. intros. by repeat apply bytes_wr; try apply bytes_rd. Qed.

Lemma mapped_exch p q k m b n : mapped m b n -> mapped (exch p q k m) b n.
Proof. intros. by do 2 apply mapped_wr. Qed.

Lemma exch_byte p q m : mapped m p 1 -> mapped m q 1 ->
  exch p q 1 m = <[p := default 0 (m !! q)]> (<[q := default 0 (m !! p)]> m).
Proof. intros. unfold exch. by rewrite !(rd_succ _ _ 1), !rd_0 by lia. Qed.

Lemma swap_bytes_run i p q m :
  bytes m -> mapped m p (Z.of_nat i) -> mapped m q (Z.of_nat i) -> apart p q (Z.of_nat i) ->
  swap_bytes i p q m = Some ((), exch p q (Z.of_nat i) m).
Proof.
  revert p q m. induction i as [|i IH]; intros p q m Hb Hp Hq Ha; simpl swap_bytes; [done|].
  rewrite (bind_ld _ _ _ _ (mapped_lookup _ _ _ Hp ltac:(lia))).
  rewrite (bind_ld _ _ _ _ (mapped_lookup _ _ _ Hq ltac:(lia))).
  rewrite bind_st by (first [apply Hp; lia | by apply bytes_default]).
  rewrite bind_st by (first [by apply bytes_default | apply (mapped_insert _ _ _ q 1); [mapped_tac|lia]]).
  assert (<[q := default 0 (m !! p)]> (<[p := default 0 (m !! q)]> m) = exch p q 1 m) as ->.
  { rewrite exch_byte by mapped_tac. destruct (decide (p = q)) as [->|]; [done|]. by apply insert_insert_ne. }
  rewrite IH; [|by apply bytes_exch|apply mapped_exch; mapped_tac..|unfold apart in *; lia].
  rewrite exch_exch by (unfold apart in *; mapped_tac). do 3 f_equal. lia.
Qed.

Lemma swap_words_run i p q m :
  mapped m p (8 * Z.of_nat i) -> mapped m q (8 * Z.of_nat i) -> apart p q (8 * Z.of_nat i) ->
  p mod 8 = 0 -> q mod 8 = 0 ->
  swap_words i p q m = Some ((), exch p q (8 * Z.of_nat i) m).
Proof.
  revert p q m. induction i as [|i IH]; intros p q m Hp Hq Ha Ap Aq; simpl swap_words; [done|].
  rewrite bind_ldw by mapped_tac. rewrite bind_ldw by mapped_tac.
  rewrite bind_stw by mapped_tac. rewrite bind_stw by mapped_tac.
  assert (wr q (rd m p 8) (wr p (rd m q 8) m) = exch p q 8 m) as ->.
  { unfold exch. destruct (decide (p = q)) as [->|]; [done|]. apply wr_wr_comm. rewrite !length_rd. unfold apart in Ha. lia. }
  change sizeof_long with 8. rewrite IH; [|apply mapped_exch; mapped_tac..|unfold apart in *; lia|lia|lia].
  rewrite exch_exch by (unfold apart in *; mapped_tac). do 3 f_equal. lia.
Qed.

Lemma swapfunc_run p q k t m :
  0 < k -> bytes m -> mapped m p k -> mapped m q k -> apart p q k ->
  (t <= 1 -> p mod 8 = 0 /\ q mod 8 = 0 /\ k mod 8 = 0) ->
  swapfunc p q k t m = Some ((), exch p q k m).
Proof.
  intros Hk Hb Hp Hq Ha Ht. unfold swapfunc. destruct (Z.leb_spec t 1) as [H1|H1].
  - destruct (Ht H1) as (? & ? & ?). change sizeof_long with 8. rewrite Nat.max_r by lia.
    assert (8 * Z.of_nat (Z.to_nat (k / 8)) = k) as Ek by lia.
    rewrite swap_words_run; rewrite ?Ek; done.
  - rewrite Nat.max_r by lia. rewrite swap_bytes_run; rewrite ?Z2Nat.id by lia; done.
Qed.

(** ** Arrays *)
Section array.
Context (e : nat).

Definition elem (x : list Z) : Prop := length x = e /\ Forall (fun v => 0 <= v < 256) x.

(** The array of the elements [L] at [a], in memory [m] *)
Definition amem (a : Z) (m : cmem) (L : list (list Z)) : cmem := wr a (concat L) m.
Definition ptr (a : Z) (i : nat) : Z := a + Z.of_nat i * Z.of_nat e.

Lemma length_concat L : Forall elem L -> length (concat L) = (length L * e)%nat.
Proof. induction 1 as [|x L [Hx _] _ IH]; simpl; [done|]. by rewrite length_app, IH, Hx. Qed.

Lemma amem_bytes a m L : bytes m -> Forall elem L -> bytes (amem a m L).
Proof.
  intros Hm HL. apply bytes_wr; [done|]. induction HL as [|x L [_ Hx] _ IH]; simpl; [done|]. by apply Forall_app.
Qed.

Lemma amem_mapped a m L b n : mapped m b n -> mapped (amem a m L) b n.
Proof. apply mapped_wr. Qed.

Lemma rd_mid a l1 l2 l3 m :
  rd (wr a (l1 ++ l2 ++ l3) m) (a + Z.of_nat (length l1)) (Z.of_nat (length l2)) = l2.
Proof.
  rewrite wr_app. rewrite rd_ext with (m := wr (a + Z.of_nat (length l1)) (l2 ++ l3) m).
  - rewrite wr_app, rd_wr_same. done.
  - intros x Hx. rewrite lookup_wr, decide_False by lia. done.
Qed.

Lemma wr_over a l1 l2 l2' l3 m :
  length l2 = length l2' ->
  wr (a + Z.of_nat (length l1)) l2' (wr a (l1 ++ l2 ++ l3) m) = wr a (l1 ++ l2' ++ l3) m.
Proof.
  intros Hl. rewrite !wr_app. rewrite wr_wr_comm by lia. f_equal.
  apply map_eq. intros x. rewrite !(lookup_wr (a + Z.of_nat (length l1))). rewrite <- Hl. by repeat case_decide.
Qed.

(** The bytes of some elements of an array *)
Lemma rd_block a m P X R :
  Forall elem (P ++ X ++ R) ->
  rd (amem a m (P ++ X ++ R)) (ptr a (length P)) (Z.of_nat (length X) * Z.of_nat e) = concat X.
Proof.
  intros HL. apply Forall_app in HL as [HP HL]. apply Forall_app in HL as [HX HR].
  unfold amem, ptr. rewrite !concat_app.
  replace (Z.of_nat (length P) * Z.of_nat e) with (Z.of_nat (length (concat P))) by (rewrite length_concat by done; lia).
  replace (Z.of_nat (length X) * Z.of_nat e) with (Z.of_nat (length (concat X))) by (rewrite length_concat by done; lia).
  apply rd_mid.
Qed.

Lemma amem_over a m P X X' R :
  Forall elem (P ++ X ++ R) -> Forall elem X' -> length X = length X' ->
  wr (ptr a (length P)) (concat X') (amem a m (P ++ X ++ R)) = amem a m (P ++ X' ++ R).
Proof.
  intros HL HX' Hl. apply Forall_app in HL as [HP HL]. apply Forall_app in HL as [HX HR].
  unfold amem, ptr. rewrite !concat_app.
  replace (Z.of_nat (length P) * Z.of_nat e) with (Z.of_nat (length (concat P))) by (rewrite length_concat by done; lia).
  apply wr_over. rewrite !length_concat by done. lia.
Qed.

(** Exchanging two runs of elements of the same length *)
Lemma exch_blocks a m P X Q Y R :
  Forall elem (P ++ X ++ Q ++ Y ++ R) -> length X = length Y ->
  exch (ptr a (length P)) (ptr a (length P + length X + length Q)) (Z.of_nat (length X) * Z.of_nat e)
    (amem a m (P ++ X ++ Q ++ Y ++ R)) = amem a m (P ++ Y ++ Q ++ X ++ R).
Proof.
  intros HL Hl. unfold exch. rewrite rd_block by done.
  assert (P ++ X ++ Q ++ Y ++ R = (P ++ X ++ Q) ++ Y ++ R) as E by (by rewrite <- !app_assoc).
  assert (length P + length X + length Q = length (P ++ X ++ Q))%nat as EL by (rewrite !length_app; lia).
  rewrite E, EL, Hl. rewrite rd_block by (by rewrite <- E).
  pose proof HL as HL'. rewrite E in HL'. rewrite !Forall_app in HL. destruct HL as (HP & HX & HQ & HY & HR).
  rewrite amem_over by done.
  assert ((P ++ X ++ Q) ++ X ++ R = P ++ X ++ Q ++ X ++ R) as -> by (by rewrite <- !app_assoc).
  apply amem_over; [by rewrite !Forall_app|done|done].
Qed.

Lemma exch_elems a m P x Q y R :
  Forall elem (P ++ x :: Q ++ y :: R) ->
  exch (ptr a (length P)) (ptr a (length P + 1 + length Q)) (Z.of_nat e) (amem a m (P ++ x :: Q ++ y :: R)) =
    amem a m (P ++ y :: Q ++ x :: R).
Proof.
  intros HL. pose proof (exch_blocks a m P [x] Q [y] R HL eq_refl) as E. simpl in E.
  rewrite Z.mul_1_l in E. exact E.
Qed.
End array.

(** * [qsort] sorts

    The proof follows the code: the array is kept as the list of its elements, cut
    into the parts that the pointers of the code delimit. *)

#[local] Ltac Zify.zify_post_hook ::= Z.div_mod_to_equations.

(** A comparison that is a total preorder on elements of [e] bytes *)
Record cmp_order (cmp : list Z -> list Z -> Z) (e : nat) : Prop := {
  cmp_anti x y : elem e x -> elem e y -> (cmp x y < 0 <-> 0 < cmp y x);
  cmp_trans x y z : elem e x -> elem e y -> elem e z -> cmp x y <= 0 -> cmp y z <= 0 -> cmp x z <= 0;
}.

(** An array of at most 2 GiB, in memory *)
Record arr_ok (e : nat) (a : Z) (m : cmem) (L : list (list Z)) : Prop := {
  ao_elems : Forall (elem e) L;
  ao_bytes : bytes m;
  ao_mapped : mapped m a (Z.of_nat (length L) * Z.of_nat e);
  ao_size : Z.of_nat (length L) * Z.of_nat e < 2 ^ 31;
}.

Lemma arr_perm e a m L L' : arr_ok e a m L -> L' ≡ₚ L -> arr_ok e a m L'.
Proof.
  intros [He Hb Hm Hs] Hp. split; [by rewrite Hp|done|by rewrite Hp|by rewrite Hp].
Qed.

Section qsort.
Context (cmp : list Z -> list Z -> Z) (e : nat) (He : (0 < e)%nat) (Hcmp : cmp_order cmp e).
Notation es := (Z.of_nat e).
Notation ptr := (ptr e).
Definition le (x y : list Z) : Prop := cmp x y <= 0.

(** ** One step of the code *)
Lemma ptr_lt a i j : (i < j)%nat -> ptr a i + es <= ptr a j.
Proof using He. intros. unfold QsortOps.ptr. nia. Qed.

Lemma elem_mapped a m L i : arr_ok e a m L -> (i < length L)%nat -> mapped (amem a m L) (ptr a i) es.
Proof using He.
  intros Ho Hi. apply amem_mapped. apply (mapped_sub _ _ _ _ _ (ao_mapped _ _ _ _ Ho)); unfold QsortOps.ptr; nia.
Qed.

Lemma cmp_run a m L i j x y :
  arr_ok e a m L -> L !! i = Some x -> L !! j = Some y ->
  call_cmp cmp es (ptr a i) (ptr a j) (amem a m L) = Some (cmp x y, amem a m L).
Proof using He.
  intros Ho Hi Hj. unfold call_cmp.
  rewrite bool_decide_true by (split; apply elem_mapped; try done; by eapply lookup_lt_Some).
  assert (forall k z, L !! k = Some z -> rd (amem a m L) (ptr a k) es = z) as Hr.
  { intros k z Hk. rewrite <- (take_drop_middle _ _ _ Hk).
    pose proof (rd_block e a m (take k L) [z] (drop (S k) L)) as E. simpl in E.
    rewrite Z.mul_1_l, app_nil_r, length_take in E. rewrite Nat.min_l in E by (apply lookup_lt_Some in Hk; lia).
    apply E. rewrite take_drop_middle by done. apply Ho. }
  by rewrite (Hr i x), (Hr j y).
Qed.

Lemma SWAPINIT_aligned a i : SWAPINIT a es <= 1 -> ptr a i mod 8 = 0 /\ es mod 8 = 0.
Proof using He.
  unfold SWAPINIT, sizeof_long, QsortOps.ptr. destruct (Z.eqb_spec (a mod 8) 0), (Z.eqb_spec (es mod 8) 0); simpl; try lia.
Qed.

Lemma swap_exch a m L i j :
  arr_ok e a m L -> (i < length L)%nat -> (j < length L)%nat ->
  swap es (SWAPINIT a es) (ptr a i) (ptr a j) (amem a m L) = Some ((), exch (ptr a i) (ptr a j) es (amem a m L)).
Proof using He.
  intros Ho Hi Hj. pose proof (elem_mapped _ _ _ _ Ho Hi) as Mi. pose proof (elem_mapped _ _ _ _ Ho Hj) as Mj.
  assert (apart (ptr a i) (ptr a j) es) as Hap.
  { destruct (lt_eq_lt_dec i j) as [[H| ->]|H]; [left; by apply ptr_lt|by right; right|right; left; by apply ptr_lt]. }
  assert (es < 2 ^ 31) by (pose proof (ao_size _ _ _ _ Ho); nia).
  unfold swap. destruct (Z.eqb_spec (SWAPINIT a es) 0) as [E0|E0].
  - destruct (SWAPINIT_aligned a i ltac:(lia)) as [Ai _]. destruct (SWAPINIT_aligned a j ltac:(lia)) as [Aj _].
    assert (es = 8) as E8.
    { unfold SWAPINIT, sizeof_long in E0. destruct (_ || _); [done|]. destruct (Z.eqb_spec es 8); done. }
    rewrite E8 in *. rewrite bind_ldw by done. rewrite bind_ldw by done. rewrite bind_stw by done.
    assert (forall w, stw (ptr a j) w (wr (ptr a i) (rd (amem a m L) (ptr a j) 8) (amem a m L)) =
      Some ((), wr (ptr a j) w (wr (ptr a i) (rd (amem a m L) (ptr a j) 8) (amem a m L)))) as ->.
    { intros w. pose proof (bind_stw (ptr a j) w mret (wr (ptr a i) (rd (amem a m L) (ptr a j) 8) (amem a m L)) Aj
        ltac:(by apply mapped_wr)) as E. unfold mbind, cm_mbind, cm_bind in E.
      destruct (stw _ _ _) as [[[] ?]|]; [exact E|done]. }
    unfold exch. destruct Hap as [?|[?| ->]]; [..|done]; by rewrite wr_wr_comm by (rewrite !length_rd; lia).
  - rewrite s32_small by lia. apply swapfunc_run; try done; [lia|apply (amem_bytes e); apply Ho|].
    intros Ht. destruct (SWAPINIT_aligned a i Ht), (SWAPINIT_aligned a j Ht). done.
Qed.

(** Exchanges, on the list of elements *)
Lemma swap_elems a m P x Q y R :
  arr_ok e a m (P ++ x :: Q ++ y :: R) ->
  swap es (SWAPINIT a es) (ptr a (length P)) (ptr a (length P + 1 + length Q)) (amem a m (P ++ x :: Q ++ y :: R)) =
    Some ((), amem a m (P ++ y :: Q ++ x :: R)).
Proof using He.
  intros Ho. rewrite swap_exch; [|done|rewrite length_app; simpl; rewrite length_app; simpl; lia..].
  rewrite exch_elems by apply Ho. done.
Qed.

Lemma swap_elems_rev a m P x Q y R :
  arr_ok e a m (P ++ x :: Q ++ y :: R) ->
  swap es (SWAPINIT a es) (ptr a (length P + 1 + length Q)) (ptr a (length P)) (amem a m (P ++ x :: Q ++ y :: R)) =
    Some ((), amem a m (P ++ y :: Q ++ x :: R)).
Proof using He.
  intros Ho. assert (forall k, (k <= length P + 1 + length Q)%nat -> (k < length (P ++ x :: Q ++ y :: R))%nat) as Hk
    by (intros k; rewrite length_app; simpl; rewrite length_app; simpl; lia).
  rewrite swap_exch by (done || (apply Hk; lia)).
  rewrite exch_comm; [by rewrite exch_elems by apply Ho|lia|apply elem_mapped; [done|apply Hk; lia]..|].
  right. left. apply ptr_lt. lia.
Qed.

Lemma swap_self a m L i :
  arr_ok e a m L -> (i < length L)%nat ->
  swap es (SWAPINIT a es) (ptr a i) (ptr a i) (amem a m L) = Some ((), amem a m L).
Proof using He. intros Ho Hi. rewrite swap_exch by done. rewrite exch_same; [done|lia|by apply elem_mapped]. Qed.

(** ** The order *)
Lemma cmp_refl x : elem e x -> cmp x x = 0.
Proof using All. intros Hx. pose proof (cmp_anti _ _ Hcmp x x Hx Hx). lia. Qed.

Lemma le_of_gt x y : elem e x -> elem e y -> 0 < cmp y x -> le x y.
Proof using All. intros Hx Hy Hg. apply (cmp_anti _ _ Hcmp) in Hg; [|done..]. unfold le. lia. Qed.

(** Inserting an element behind those below it and before those above *)
Lemma sorted_insert P1 x P2 :
  Forall (elem e) (P1 ++ P2) -> elem e x -> StronglySorted le (P1 ++ P2) ->
  P1 = [] \/ (exists P y, P1 = P ++ [y] /\ cmp y x <= 0) -> Forall (fun y => 0 < cmp y x) P2 ->
  StronglySorted le (P1 ++ x :: P2).
Proof using All.
  intros Hel Hx Hs Hlast HP2. apply Forall_app in Hel as [H1 H2].
  apply StronglySorted_app in Hs as (Hc & Hs1 & Hs2).
  assert (Forall (le x) P2) as Hup.
  { apply Forall_forall. intros y Hy. apply le_of_gt; [done|by eapply Forall_forall in H2|].
    by eapply (proj1 (Forall_forall _ _) HP2). }
  apply StronglySorted_app_2; [|done|by constructor]. intros y z Hy Hz. apply elem_of_cons in Hz as [->|Hz]; [|by apply Hc].
  destruct Hlast as [->|(P & w & -> & Hw)]; [by apply elem_of_nil in Hy|].
  apply elem_of_app in Hy as [Hy|Hy%list_elem_of_singleton]; [|by subst].
  apply Forall_app in H1 as [HP Hwe]. inversion Hwe; subst.
  apply (cmp_trans _ _ Hcmp y w x); [by eapply Forall_forall in HP|done|done| |done].
  eapply (StronglySorted_app_1_elem_of le P [w]); [done|done|set_solver].
Qed.

(** ** Insertion sort *)
Lemma insert_down_run fuel a m P x R :
  (length P < fuel)%nat -> arr_ok e a m (P ++ x :: R) ->
  exists P1 P2, P = P1 ++ P2 /\
    insert_down cmp fuel es (SWAPINIT a es) a (ptr a (length P)) (amem a m (P ++ x :: R)) =
      Some ((), amem a m (P1 ++ x :: P2 ++ R)) /\
    (P1 = [] \/ (exists P y, P1 = P ++ [y] /\ cmp y x <= 0)) /\ Forall (fun y => 0 < cmp y x) P2.
Proof using He.
  revert P R. induction fuel as [|fuel IH]; intros P R Hf Ho; [lia|]. simpl.
  destruct P as [|y P _] using rev_ind.
  { rewrite (proj2 (Z.ltb_ge _ _)) by (unfold QsortOps.ptr; simpl; lia). exists [], []. repeat split; auto. }
  rewrite length_app in *. simpl in Hf |- *.
  rewrite (proj2 (Z.ltb_lt _ _)) by (unfold QsortOps.ptr; nia).
  assert (ptr a (length P + 1) - es = ptr a (length P)) as Ep by (unfold QsortOps.ptr; nia). rewrite Ep.
  rewrite <- app_assoc in *. simpl in *.
  erewrite bind_run; [|eapply cmp_run; [done|by apply list_lookup_middle|]].
  2: { rewrite lookup_app_r by lia. by replace (length P + 1 - length P)%nat with 1%nat by lia. }
  destruct (Z.ltb_spec 0 (cmp y x)) as [Hg|Hl].
  - erewrite bind_run.
    2: { pose proof (swap_elems_rev a m P y [] x R Ho) as E. simpl in E. by rewrite Nat.add_0_r in E. }
    destruct (IH P (y :: R)) as (P1 & P2 & -> & E & Hlast & HP2); [lia|eapply arr_perm; [done|];
      apply Permutation_app_head, perm_swap|].
    exists P1, (P2 ++ [y]). split; [by rewrite app_assoc|]. split; [rewrite E; by rewrite <- app_assoc|].
    split; [done|]. apply Forall_app. split; [done|]. by repeat constructor.
  - exists (P ++ [y]), []. split; [by rewrite app_nil_r|]. split; [by rewrite <- app_assoc|].
    split; [right; by exists P, y|constructor].
Qed.

Lemma insert_up_run fuel a m P R :
  (length R < fuel)%nat -> arr_ok e a m (P ++ R) -> StronglySorted le P ->
  exists L, insert_up cmp fuel es (SWAPINIT a es) a (Z.of_nat (length (P ++ R))) (ptr a (length P)) (amem a m (P ++ R)) =
      Some ((), amem a m L) /\ L ≡ₚ P ++ R /\ StronglySorted le L.
Proof using All.
  revert P R. induction fuel as [|fuel IH]; intros P R Hf Ho Hs; [lia|]. simpl.
  assert (u64 (Z.of_nat (length (P ++ R)) * es) = Z.of_nat (length (P ++ R)) * es) as ->
    by (apply wrap_small; pose proof (ao_size _ _ _ _ Ho); nia).
  destruct R as [|x R].
  { rewrite app_nil_r in *. rewrite (proj2 (Z.ltb_ge _ _)) by (unfold QsortOps.ptr; nia). by exists P. }
  rewrite (proj2 (Z.ltb_lt _ _)) by (unfold QsortOps.ptr; rewrite length_app; simpl; nia).
  destruct (insert_down_run (S (Z.to_nat (Z.of_nat (length (P ++ x :: R))))) a m P x R) as (P1 & P2 & -> & E & Hlast & HP2);
    [rewrite length_app; lia|done|].
  erewrite bind_run by exact E.
  assert (P1 ++ x :: P2 ++ R = (P1 ++ x :: P2) ++ R) as EL by (by rewrite <- app_assoc).
  assert ((P1 ++ x :: P2) ++ R ≡ₚ (P1 ++ P2) ++ x :: R) as Hp.
  { rewrite <- EL, <- app_assoc. apply Permutation_app_head. by rewrite Permutation_middle. }
  destruct (IH (P1 ++ x :: P2) R) as (L & E2 & HL & HsL).
  - simpl in Hf. lia.
  - by eapply arr_perm.
  - pose proof (ao_elems _ _ _ _ Ho) as Hel. apply Forall_app in Hel as [Hel Hx]. inversion Hx; subst.
    by apply sorted_insert.
  - exists L. split; [|split; [by rewrite HL, Hp|done]]. rewrite EL.
    rewrite <- E2. f_equal; [by rewrite (Permutation_length Hp)|].
    unfold QsortOps.ptr. rewrite !length_app. simpl. lia.
Qed.

Lemma insert_sort_run a m L :
  arr_ok e a m L -> L <> [] ->
  exists L', insert_up cmp (S (Z.to_nat (Z.of_nat (length L)))) es (SWAPINIT a es) a (Z.of_nat (length L)) (a + es) (amem a m L) =
      Some ((), amem a m L') /\ L' ≡ₚ L /\ StronglySorted le L'.
Proof using All.
  intros Ho Hne. destruct L as [|x L]; [done|].
  destruct (insert_up_run (S (Z.to_nat (Z.of_nat (length (x :: L))))) a m [x] L) as (L' & E & Hp & Hs);
    [simpl; lia|done|by repeat constructor|].
  exists L'. split; [|done]. rewrite <- E. f_equal. unfold QsortOps.ptr. simpl. lia.
Qed.
End qsort.
