(* ===== verification/QsortSort.v ===== *)
(** * The partition step of [qsort]

    The array is the pivot, the elements equal to it met from below, the smaller ones,
    those not looked at, the larger ones, and the equal ones met from above. *)
From stdpp Require Import sorting.
From S2P Require Import Prelude Cstring CstringMem CstringOps Qsort QsortOps.

#[local] Ltac Zify.zify_post_hook ::= Z.div_mod_to_equations.

Section partition.
Context (cmp : list Z -> list Z -> Z) (e : nat) (He : (0 < e)%nat).
Notation es := (Z.of_nat e).
Notation ptr := (ptr e).

Ltac ptr_eq := unfold QsortOps.ptr; simpl; rewrite ?length_app; simpl; nia.

Lemma size_u64 a m L i : arr_ok e a m L -> (i <= length L)%nat -> u64 (Z.of_nat i * es) = Z.of_nat i * es.
Proof using He. intros Ho Hi. apply wrap_small. pose proof (ao_size _ _ _ _ Ho). nia. Qed.

(** ** The pivot *)
Lemma med3_run a m L i j k :
  arr_ok e a m L -> (i < length L)%nat -> (j < length L)%nat -> (k < length L)%nat ->
  exists r, (r < length L)%nat /\
    med3 cmp es (ptr a i) (ptr a j) (ptr a k) (amem a m L) = Some (ptr a r, amem a m L).
Proof using All.
  intros Ho Hi Hj Hk. destruct (lookup_lt_is_Some_2 L i Hi) as [x Ex], (lookup_lt_is_Some_2 L j Hj) as [y Ey],
    (lookup_lt_is_Some_2 L k Hk) as [z Ez].
  unfold med3. erewrite bind_run by (by eapply cmp_run).
  destruct (cmp x y <? 0); (erewrite bind_run by (by eapply cmp_run)).
  - destruct (cmp y z <? 0); [by exists j|]. erewrite bind_run by (by eapply cmp_run).
    destruct (cmp x z <? 0); [by exists k|by exists i].
  - destruct (0 <? cmp y z); [by exists j|]. erewrite bind_run by (by eapply cmp_run).
    destruct (cmp x z <? 0); [by exists i|by exists k].
Qed.

Lemma pivot_run a m L :
  arr_ok e a m L -> (7 <= length L)%nat ->
  exists r, (r < length L)%nat /\
    pivot cmp es a (Z.of_nat (length L)) (amem a m L) = Some (ptr a r, amem a m L).
Proof using All.
  intros Ho Hn. pose proof (ao_size _ _ _ _ Ho) as Hs. unfold pivot.
  pose proof (Nat2Z.inj_div (length L) 2) as E2. pose proof (Nat2Z.inj_div (length L) 8) as E8. change (Z.of_nat 2) with 2 in E2. change (Z.of_nat 8) with 8 in E8.
  remember (length L / 2)%nat as h eqn:Eh. remember (length L / 8)%nat as d eqn:Ed. clear Eh Ed.
  rewrite <- E2, <- E8. assert (h < length L /\ h - 1 <= 4 * d + 3 /\ 4 * d <= h /\ 8 * d <= length L)%nat as Hhd by lia.
  replace (Z.of_nat (length L) - 1) with (Z.of_nat (length L - 1)) by lia.
  rewrite !(size_u64 a m L) by (done || lia).
  assert (forall i, a + Z.of_nat i * es = ptr a i) as Hp by done. rewrite !Hp.
  assert (a = ptr a 0) as Ea by ptr_eq. clear E2 E8.
  destruct (Z.ltb_spec 7 (Z.of_nat (length L))); [|exists h; split; [lia|done]].
  destruct (Z.ltb_spec 40 (Z.of_nat (length L))).
  - assert (4 * d <= length L)%nat as Hd by lia. rewrite !s32_small by (rewrite ?s32_small; nia). rewrite !Hp.
    destruct (med3_run a m L 0 d (2 * d) Ho) as (i & Hi & Ei); [lia..|].
    destruct (med3_run a m L (h - d) h (h + d) Ho) as (j & Hj & Ej); [lia..|].
    destruct (med3_run a m L (length L - 1 - 2 * d) (length L - 1 - d) (length L - 1) Ho) as (k & Hk & Ek); [lia..|].
    destruct (med3_run a m L i j k Ho Hi Hj Hk) as (r & Hr & Er). exists r. split; [done|].
    replace (a + 2 * (Z.of_nat d * es)) with (ptr a (2 * d)) by ptr_eq.
    replace (ptr a h - Z.of_nat d * es) with (ptr a (h - d)) by ptr_eq.
    replace (ptr a h + Z.of_nat d * es) with (ptr a (h + d)) by ptr_eq.
    replace (ptr a (length L - 1) - 2 * (Z.of_nat d * es)) with (ptr a (length L - 1 - 2 * d)) by ptr_eq.
    replace (ptr a (length L - 1) - Z.of_nat d * es) with (ptr a (length L - 1 - d)) by ptr_eq.
    rewrite <- Ea in Ei.
    erewrite bind_run. 2: { erewrite bind_run by exact Ei. erewrite bind_run by exact Ej. by erewrite bind_run by exact Ek. }
    exact Er.
  - destruct (med3_run a m L 0 h (length L - 1) Ho) as (r & Hr & Er); [lia..|].
    exists r. split; [done|]. rewrite <- Ea in Er. exact Er.
Qed.

(** ** Exchanges over a part *)

(** The element behind a part goes before it. *)
Lemma swap_before a m P X x R :
  arr_ok e a m (P ++ X ++ x :: R) ->
  exists X', X' ≡ₚ X /\
    swap es (SWAPINIT a es) (ptr a (length P)) (ptr a (length P + length X)) (amem a m (P ++ X ++ x :: R)) =
      Some ((), amem a m (P ++ x :: X' ++ R)).
Proof using All.
  intros Ho. destruct X as [|y X].
  - exists []. split; [done|]. simpl. rewrite Nat.add_0_r. apply swap_self; [done|done|]. rewrite length_app. simpl. lia.
  - exists (X ++ [y]). split; [symmetry; apply Permutation_cons_append|]. rewrite <- app_assoc.
    pose proof (swap_elems e He a m P y X x R Ho) as E. rewrite <- Nat.add_assoc in E. exact E.
Qed.

(** The element before a part goes behind it. *)
Lemma swap_behind a m P x X R :
  arr_ok e a m (P ++ x :: X ++ R) ->
  exists X', X' ≡ₚ X /\
    swap es (SWAPINIT a es) (ptr a (length P)) (ptr a (length P + length X)) (amem a m (P ++ x :: X ++ R)) =
      Some ((), amem a m (P ++ X' ++ x :: R)).
Proof using All.
  intros Ho. destruct X as [|y X _] using rev_ind.
  - exists []. split; [done|]. simpl. rewrite Nat.add_0_r. apply swap_self; [done|done|]. rewrite length_app. simpl. lia.
  - exists (y :: X). split; [apply Permutation_cons_append|]. rewrite <- app_assoc in *. simpl in *.
    pose proof (swap_elems e He a m P x X y R Ho) as E. rewrite length_app. simpl.
    replace (length P + (length X + 1))%nat with (length P + 1 + length X)%nat by lia. exact E.
Qed.

Lemma swap_first a m L r :
  arr_ok e a m L -> (r < length L)%nat ->
  exists v L0, v :: L0 ≡ₚ L /\ swap es (SWAPINIT a es) a (ptr a r) (amem a m L) = Some ((), amem a m (v :: L0)).
Proof using All.
  intros Ho Hr. destruct (lookup_lt_is_Some_2 L r Hr) as [x Ex]. pose proof (take_drop_middle _ _ _ Ex) as EL.
  set (X := take r L) in *. set (R := drop (S r) L) in *. rewrite <- EL in Ho |- *.
  destruct (swap_before a m [] X x R Ho) as (X' & Hp & E). exists x, (X' ++ R). split.
  - rewrite Hp. by rewrite Permutation_middle.
  - simpl in E. assert (length X = r) as El by (unfold X; rewrite length_take; lia). rewrite El in E.
    rewrite <- E. f_equal. ptr_eq.
Qed.

(** ** The scans *)
Section scan.
Context (v : list Z).
Notation eqs := (Forall (fun x => cmp x v = 0)).
Notation lts := (Forall (fun x => cmp x v < 0)).
Notation gts := (Forall (fun x => 0 < cmp x v)).

Lemma scan_up_run fuel a m E1 Ls U T c :
  (length U < fuel)%nat -> arr_ok e a m (v :: E1 ++ Ls ++ U ++ T) -> eqs E1 -> lts Ls ->
  exists E1' Ls' U' c',
    scan_up cmp fuel es (SWAPINIT a es) a (ptr a (1 + length E1)) (ptr a (1 + length E1 + length Ls))
      (ptr a (1 + length E1 + length Ls + length U) - es) c (amem a m (v :: E1 ++ Ls ++ U ++ T)) =
      Some ((ptr a (1 + length E1'), ptr a (1 + length E1' + length Ls'), c'), amem a m (v :: E1' ++ Ls' ++ U' ++ T)) /\
    E1' ++ Ls' ++ U' ≡ₚ E1 ++ Ls ++ U /\ eqs E1' /\ lts Ls' /\ (length U' <= length U)%nat /\
    (U' = [] \/ exists x U1, U' = x :: U1 /\ 0 < cmp x v).
Proof using All.
  revert E1 Ls U c. induction fuel as [|fuel IH]; intros E1 Ls U c Hf Ho HE HL; [lia|]. simpl scan_up.
  destruct U as [|x U].
  { rewrite (proj2 (Z.leb_gt _ _)) by ptr_eq. exists E1, Ls, [], c. repeat split; auto. }
  rewrite (proj2 (Z.leb_le _ _)) by ptr_eq. simpl in Hf.
  assert (v :: E1 ++ Ls ++ (x :: U) ++ T = (v :: E1) ++ Ls ++ x :: U ++ T) as EL by done.
  erewrite bind_run.
  2: { replace a with (ptr a 0) at 2 by ptr_eq. eapply cmp_run; [done|done| |done].
       rewrite EL, app_assoc. apply list_lookup_middle. rewrite length_app. simpl. lia. }
  destruct (Z.leb_spec (cmp x v) 0) as [Hle|Hg].
  2: { exists E1, Ls, (x :: U), c. repeat split; auto. right. by exists x, U. }
  destruct (Z.eqb_spec (cmp x v) 0) as [H0|H0].
  - rewrite EL in Ho |- *. destruct (swap_before _ _ _ _ _ _ Ho) as (Ls1 & Hp & E). erewrite bind_run by exact E.
    assert ((v :: E1) ++ x :: Ls1 ++ U ++ T = v :: (E1 ++ [x]) ++ Ls1 ++ U ++ T) as EL1 by (simpl; by rewrite <- app_assoc).
    rewrite EL1. destruct (IH (E1 ++ [x]) Ls1 U 1) as (E1' & Ls' & U' & c' & Er & Hp' & R1 & R2 & R3 & R4).
    + lia.
    + rewrite <- EL1. eapply arr_perm; [done|]. apply Permutation_app_head. rewrite Hp. by rewrite Permutation_middle.
    + apply Forall_app. by repeat constructor.
    + by rewrite Hp.
    + exists E1', Ls', U', c'. split; [|split; [|repeat split; auto; simpl; lia]].
      * rewrite <- Er. f_equal; rewrite ?(Permutation_length Hp); ptr_eq.
      * rewrite Hp', Hp, <- app_assoc. apply Permutation_app_head. simpl. by rewrite Permutation_middle.
  - assert (v :: E1 ++ Ls ++ (x :: U) ++ T = v :: E1 ++ (Ls ++ [x]) ++ U ++ T) as EL2 by (by rewrite <- !app_assoc).
    rewrite EL2 in Ho |- *. destruct (IH E1 (Ls ++ [x]) U c) as (E1' & Ls' & U' & c' & Er & Hp' & R1 & R2 & R3 & R4).
    + lia.
    + done.
    + done.
    + apply Forall_app. repeat constructor; [done|lia].
    + exists E1', Ls', U', c'. split; [|split; [|repeat split; auto; simpl; lia]].
      * rewrite <- Er. f_equal; ptr_eq.
      * by rewrite Hp', <- app_assoc.
Qed.

Lemma scan_down_run fuel a m H U G E2 c :
  (length U < fuel)%nat -> arr_ok e a m (v :: H ++ U ++ G ++ E2) -> gts G -> eqs E2 ->
  exists U' G' E2' c',
    scan_down cmp fuel es (SWAPINIT a es) a (ptr a (1 + length H)) (ptr a (1 + length H + length U) - es)
      (ptr a (1 + length H + length U + length G) - es) c (amem a m (v :: H ++ U ++ G ++ E2)) =
      Some ((ptr a (1 + length H + length U') - es, ptr a (1 + length H + length U' + length G') - es, c'),
        amem a m (v :: H ++ U' ++ G' ++ E2')) /\
    U' ++ G' ++ E2' ≡ₚ U ++ G ++ E2 /\ gts G' /\ eqs E2' /\ U' `prefix_of` U /\
    (U' = [] \/ exists U1 y, U' = U1 ++ [y] /\ cmp y v < 0).
Proof using All.
  revert U G E2 c. induction fuel as [|fuel IH]; intros U G E2 c Hf Ho HG HE; [lia|]. simpl scan_down.
  destruct U as [|y U _] using rev_ind.
  { rewrite (proj2 (Z.leb_gt _ _)) by ptr_eq. exists [], G, E2, c. repeat split; auto. }
  rewrite length_app in Hf |- *. simpl in Hf |- *. rewrite (proj2 (Z.leb_le _ _)) by ptr_eq.
  assert (v :: H ++ (U ++ [y]) ++ G ++ E2 = (v :: H ++ U) ++ y :: G ++ E2) as EL by (simpl; by rewrite <- !app_assoc).
  assert (ptr a (S (length H + (length U + 1))) - es = ptr a (length (v :: H ++ U))) as Ec by ptr_eq. rewrite Ec.
  erewrite bind_run.
  2: { replace a with (ptr a 0) at 2 by ptr_eq. eapply cmp_run; [done|done| |done].
       rewrite EL. by apply list_lookup_middle. }
  destruct (Z.leb_spec 0 (cmp y v)) as [Hge|Hl].
  2: { exists (U ++ [y]), G, E2, c. rewrite length_app. simpl. split; [|repeat split; auto; right; by exists U, y].
       rewrite Ec. done. }
  assert (U `prefix_of` U ++ [y]) as Hpre by apply prefix_app_r, reflexivity.
  destruct (Z.eqb_spec (cmp y v) 0) as [H0|H0].
  - rewrite EL in Ho |- *. destruct (swap_behind _ _ _ _ _ _ Ho) as (G1 & Hp & E).
    assert (ptr a (S (length H + (length U + 1) + length G)) - es = ptr a (length (v :: H ++ U) + length G)) as -> by ptr_eq.
    erewrite bind_run by exact E.
    assert ((v :: H ++ U) ++ G1 ++ y :: E2 = v :: H ++ U ++ G1 ++ y :: E2) as EL1 by (simpl; by rewrite <- !app_assoc).
    rewrite EL1. destruct (IH U G1 (y :: E2) 1) as (U' & G' & E2' & c' & Er & Hp' & R1 & R2 & R3 & R4).
    + lia.
    + rewrite <- EL1. eapply arr_perm; [done|]. apply Permutation_app_head. rewrite Hp. by rewrite Permutation_middle.
    + by rewrite Hp.
    + by constructor.
    + exists U', G', E2', c'. split; [|split; [|repeat split; auto; by etrans]].
      * simpl in Er. rewrite <- Er. f_equal; rewrite ?(Permutation_length Hp); ptr_eq.
      * rewrite Hp', Hp, <- app_assoc. apply Permutation_app_head. simpl. by rewrite Permutation_middle.
  - assert ((v :: H ++ U) ++ y :: G ++ E2 = v :: H ++ U ++ (y :: G) ++ E2) as EL2 by (simpl; by rewrite <- !app_assoc).
    rewrite EL, EL2 in Ho |- *. destruct (IH U (y :: G) E2 c) as (U' & G' & E2' & c' & Er & Hp' & R1 & R2 & R3 & R4).
    + lia.
    + done.
    + constructor; [lia|done].
    + done.
    + exists U', G', E2', c'. split; [|split; [|repeat split; auto; by etrans]].
      * simpl in Er. rewrite <- Er. f_equal; ptr_eq.
      * by rewrite Hp', <- app_assoc.
Qed.

(** What is left between the scans begins above the pivot and ends below it. *)
Lemma scans_meet U U' :
  U' `prefix_of` U -> (U = [] \/ exists x U1, U = x :: U1 /\ 0 < cmp x v) ->
  (U' = [] \/ exists U1 y, U' = U1 ++ [y] /\ cmp y v < 0) ->
  U' = [] \/ exists x W y, U' = x :: W ++ [y] /\ 0 < cmp x v /\ cmp y v < 0.
Proof.
  intros [Z' ->] Hx [->|(U1 & y & -> & Hy)]; [by left|]. right.
  destruct Hx as [Hn|(x & U2 & Hc & Hx)]; [by destruct U1|].
  destruct U1 as [|z U1]; simplify_list_eq; [clear He; lia|]. by exists x, U1, y.
Qed.

Lemma partition_run fuel n a m E1 Ls U G E2 c :
  (length U < fuel)%nat -> (length U <= n)%nat -> arr_ok e a m (v :: E1 ++ Ls ++ U ++ G ++ E2) ->
  eqs E1 -> lts Ls -> gts G -> eqs E2 ->
  exists E1' Ls' G' E2' c',
    partition cmp fuel es (SWAPINIT a es) a (Z.of_nat n) (ptr a (1 + length E1)) (ptr a (1 + length E1 + length Ls))
      (ptr a (1 + length E1 + length Ls + length U) - es) (ptr a (1 + length E1 + length Ls + length U + length G) - es) c
      (amem a m (v :: E1 ++ Ls ++ U ++ G ++ E2)) =
      Some ((ptr a (1 + length E1'), ptr a (1 + length E1' + length Ls'), ptr a (1 + length E1' + length Ls') - es,
             ptr a (1 + length E1' + length Ls' + length G') - es, c'), amem a m (v :: E1' ++ Ls' ++ G' ++ E2')) /\
    E1' ++ Ls' ++ G' ++ E2' ≡ₚ E1 ++ Ls ++ U ++ G ++ E2 /\ eqs E1' /\ lts Ls' /\ gts G' /\ eqs E2'.
Proof using All.
  revert E1 Ls U G E2 c. induction fuel as [|fuel IH]; intros E1 Ls U G E2 c Hf Hn Ho HE1 HL HG HE2; [lia|].
  cbn [partition].
  destruct (scan_up_run (S (Z.to_nat (Z.of_nat n))) a m E1 Ls U (G ++ E2) c)
    as (F1 & Ms & V & c1 & Eu & Pu & HF1 & HMs & Hlen & Hhead); [lia|done..|].
  erewrite bind_run by exact Eu. cbv beta iota. clear Eu.
  assert (F1 ++ Ms ++ V ++ G ++ E2 ≡ₚ E1 ++ Ls ++ U ++ G ++ E2) as P1.
  { transitivity ((F1 ++ Ms ++ V) ++ G ++ E2); [by rewrite <- !app_assoc|]. rewrite Pu. by rewrite <- !app_assoc. }
  assert (arr_ok e a m (v :: (F1 ++ Ms) ++ V ++ G ++ E2)) as Ho1.
  { eapply arr_perm; [done|]. constructor. by rewrite <- app_assoc. }
  assert (length (F1 ++ Ms ++ V) = length (E1 ++ Ls ++ U)) as Pl by (by rewrite Pu). rewrite !length_app in Pl.
  destruct (scan_down_run (S (Z.to_nat (Z.of_nat n))) a m (F1 ++ Ms) V G E2 c1)
    as (V' & G1 & F2 & c2 & Ed & Pd & HG1 & HF2 & Hpre & Hlast); [lia|done..|].
  rewrite length_app in Ed. rewrite <- !app_assoc in Ed.
  erewrite bind_run.
  2: { rewrite <- Ed. f_equal; first [f_equal; lia | f_equal; f_equal; lia]. }
  cbv beta iota. clear Ed.
  assert (F1 ++ Ms ++ V' ++ G1 ++ F2 ≡ₚ F1 ++ Ms ++ V ++ G ++ E2) as P2 by (by rewrite Pd).
  destruct (scans_meet V V' Hpre Hhead Hlast) as [->|(x & W & y & -> & Hx & Hy)].
  - rewrite (proj2 (Z.ltb_lt _ _)) by ptr_eq. exists F1, Ms, G1, F2, c2.
    split; [simpl length; by rewrite !Nat.add_0_r, !Nat.add_assoc|]. split; [by rewrite <- P1, <- P2|done].
  - apply prefix_length in Hpre. simpl in Hpre. rewrite length_app in Hpre. simpl in Hpre.
    rewrite (proj2 (Z.ltb_ge _ _)) by ptr_eq.
    assert (v :: F1 ++ Ms ++ (x :: W ++ [y]) ++ G1 ++ F2 = (v :: F1 ++ Ms) ++ x :: W ++ y :: G1 ++ F2) as EL
      by (simpl; by rewrite <- !app_assoc).
    assert ((v :: F1 ++ Ms) ++ y :: W ++ x :: G1 ++ F2 = v :: F1 ++ (Ms ++ [y]) ++ W ++ (x :: G1) ++ F2) as EL'
      by (simpl; by rewrite <- !app_assoc).
    assert (v :: F1 ++ (Ms ++ [y]) ++ W ++ (x :: G1) ++ F2 ≡ₚ v :: F1 ++ Ms ++ (x :: W ++ [y]) ++ G1 ++ F2) as P3.
    { rewrite EL, <- EL'. apply Permutation_app_head. clear. solve_Permutation. }
    rewrite EL. erewrite bind_run.
    2: { rewrite <- (swap_elems e He a m (v :: F1 ++ Ms) x W y (G1 ++ F2)); [f_equal; ptr_eq|].
         rewrite <- EL. eapply arr_perm; [exact Ho|]. by rewrite P2, P1. }
    rewrite EL'. destruct (IH F1 (Ms ++ [y]) W (x :: G1) F2 1) as (E1' & Ls' & G' & E2' & c' & Er & Pr & HR).
    + lia.
    + lia.
    + eapply arr_perm; [exact Ho|]. by rewrite P3, P2, P1.
    + done.
    + apply Forall_app. by repeat constructor.
    + by constructor.
    + done.
    + exists E1', Ls', G', E2', c'. split; [rewrite <- Er; f_equal; ptr_eq|]. split; [|done].
      rewrite Pr. apply (Permutation_cons_inv (a := v)). by rewrite P3, P2, P1.
Qed.
End scan.
End partition.

(** * [qsort] sorts: the parts put in order, and the recursion *)

#[local] Ltac Zify.zify_post_hook ::= Z.div_mod_to_equations.

Section sort.
Context (cmp : list Z -> list Z -> Z) (e : nat) (He : (0 < e)%nat) (Hcmp : cmp_order cmp e).
Notation es := (Z.of_nat e).
Notation ptr := (ptr e).

Ltac ptr_eq := unfold QsortOps.ptr; simpl; rewrite ?length_app; simpl; nia.

(** ** Exchanging two neighbouring parts *)
Lemma vecswap_blocks a m P X Q Y R :
  arr_ok e a m (P ++ X ++ Q ++ Y ++ R) -> length X = length Y ->
  vecswap (SWAPINIT a es) (ptr a (length P)) (ptr a (length P + length X + length Q)) (Z.of_nat (length X) * es)
    (amem a m (P ++ X ++ Q ++ Y ++ R)) = Some ((), amem a m (P ++ Y ++ Q ++ X ++ R)).
Proof using All.
  intros Ho Hl. unfold vecswap. destruct (Z.ltb_spec 0 (Z.of_nat (length X) * es)) as [Hp|Hp].
  - rewrite <- (exch_blocks e a m P X Q Y R) by (done || apply Ho).
    assert (forall i, (i + length X <= length (P ++ X ++ Q ++ Y ++ R))%nat ->
      mapped (amem a m (P ++ X ++ Q ++ Y ++ R)) (ptr a i) (Z.of_nat (length X) * es)) as Hm.
    { intros i Hi. apply amem_mapped. apply (mapped_sub _ _ _ _ _ (ao_mapped _ _ _ _ Ho)); unfold QsortOps.ptr; nia. }
    apply swapfunc_run; [done|apply (amem_bytes e); apply Ho|apply Hm; rewrite !length_app; lia..|left; ptr_eq|].
    intros Ht. destruct (SWAPINIT_aligned e He a (length P) Ht), (SWAPINIT_aligned e He a (length P + length X + length Q) Ht).
    split; [done|]. split; [done|]. rewrite Zmult_mod. replace (es mod 8) with 0 by lia. rewrite Z.mul_0_r. done.
  - assert (length X = 0)%nat as H0 by nia. rewrite H0 in Hl. destruct X, Y; done.
Qed.

(** Parts [A] and [B]: the smaller one's worth of elements changes sides. *)
Lemma vecswap_parts a m P A B R :
  arr_ok e a m (P ++ A ++ B ++ R) ->
  exists A' B', A' ≡ₚ A /\ B' ≡ₚ B /\
    vecswap (SWAPINIT a es) (ptr a (length P))
      (ptr a (length P + length A + length B) - Z.of_nat (Nat.min (length A) (length B)) * es)
      (Z.of_nat (Nat.min (length A) (length B)) * es) (amem a m (P ++ A ++ B ++ R)) =
      Some ((), amem a m (P ++ B' ++ A' ++ R)).
Proof using All.
  intros Ho. destruct (le_lt_dec (length A) (length B)) as [Hle|Hlt].
  - rewrite Nat.min_l by lia. set (k := (length B - length A)%nat).
    assert (B = take k B ++ drop k B) as EB by (by rewrite take_drop).
    assert (length (take k B) = k /\ length (drop k B) = length A) as [El1 El2]
      by (rewrite length_take, length_drop; lia).
    exists A, (drop k B ++ take k B). split; [done|].
    split; [rewrite EB at 3; apply Permutation_app_comm|].
    assert (P ++ A ++ B ++ R = P ++ A ++ take k B ++ drop k B ++ R) as EL by (by rewrite (app_assoc (take k B)), take_drop).
    rewrite EL in Ho |- *. pose proof (vecswap_blocks a m P A (take k B) (drop k B) R Ho (eq_sym El2)) as E.
    rewrite <- app_assoc. rewrite <- E. f_equal. unfold QsortOps.ptr. rewrite El1. nia.
  - rewrite Nat.min_r by lia. set (k := length B).
    assert (A = take k A ++ drop k A) as EA by (by rewrite take_drop).
    assert (length (take k A) = k /\ length (drop k A) = length A - k)%nat as [El1 El2]
      by (rewrite length_take, length_drop; lia).
    exists (drop k A ++ take k A), B. split; [rewrite EA at 3; apply Permutation_app_comm|]. split; [done|].
    assert (P ++ A ++ B ++ R = P ++ take k A ++ drop k A ++ B ++ R) as EL by (by rewrite (app_assoc (take k A)), take_drop).
    rewrite EL in Ho |- *. pose proof (vecswap_blocks a m P (take k A) (drop k A) B R Ho El1) as E.
    rewrite <- app_assoc. rewrite <- E. f_equal; unfold QsortOps.ptr; rewrite El1, ?El2; nia.
Qed.

(** ** Parts of an array as arrays *)
Lemma amem_front a m A B : Forall (elem e) A -> amem a m (A ++ B) = amem a (amem (ptr a (length A)) m B) A.
Proof using All.
  intros HA. unfold amem, QsortOps.ptr. rewrite concat_app, wr_app, (length_concat e) by done. do 2 f_equal. lia.
Qed.

Lemma amem_back a m A B : Forall (elem e) A -> amem a m (A ++ B) = amem (ptr a (length A)) (amem a m A) B.
Proof using All.
  intros HA. rewrite amem_front by done. unfold amem, QsortOps.ptr.
  apply wr_wr_comm. rewrite (length_concat e) by done. lia.
Qed.

Lemma arr_front a m A B : arr_ok e a m (A ++ B) -> arr_ok e a (amem (ptr a (length A)) m B) A.
Proof using All.
  intros [H1 H2 H3 H4]. apply Forall_app in H1 as [HA HB]. rewrite length_app in H3, H4.
  split; [done|by apply (amem_bytes e)|apply amem_mapped; apply (mapped_sub _ _ _ _ _ H3); nia|nia].
Qed.

Lemma arr_back a m A B : arr_ok e a m (A ++ B) -> arr_ok e (ptr a (length A)) (amem a m A) B.
Proof using All.
  intros [H1 H2 H3 H4]. apply Forall_app in H1 as [HA HB]. rewrite length_app in H3, H4.
  split; [done|by apply (amem_bytes e)|apply amem_mapped; apply (mapped_sub _ _ _ _ _ H3); unfold QsortOps.ptr; nia|nia].
Qed.

(** ** The order of the parts *)
Lemma parts_sorted v Ls A G :
  elem e v -> Forall (elem e) (Ls ++ A ++ G) -> StronglySorted (le cmp) Ls -> StronglySorted (le cmp) G ->
  Forall (fun x => cmp x v < 0) Ls -> Forall (fun x => cmp x v = 0) A -> Forall (fun x => 0 < cmp x v) G ->
  StronglySorted (le cmp) (Ls ++ A ++ G).
Proof using All.
  intros Hv Hel HsL HsG HL HA HG. rewrite !Forall_app, !Forall_forall in Hel. destruct Hel as (EL & EA & EG).
  rewrite !Forall_forall in HL, HA, HG.
  assert (forall x, elem e x -> cmp x v = 0 -> cmp v x <= 0) as H0.
  { intros x Hx H. pose proof (cmp_anti _ _ Hcmp v x Hv Hx). pose proof (cmp_anti _ _ Hcmp x v Hx Hv). lia. }
  assert (forall x, elem e x -> 0 < cmp x v -> cmp v x <= 0) as H1.
  { intros x Hx H. pose proof (cmp_anti _ _ Hcmp v x Hv Hx). lia. }
  assert (forall x, x ∈ A ++ G -> elem e x /\ cmp v x <= 0) as Hup.
  { intros x [Hx|Hx]%elem_of_app; auto. }
  assert (forall x, x ∈ Ls \/ x ∈ A -> elem e x /\ cmp x v <= 0) as Hdown.
  { intros x [Hx|Hx]; [specialize (HL x Hx)|specialize (HA x Hx)]; split; auto; lia. }
  apply StronglySorted_app_2; [|done|apply StronglySorted_app_2; [| |done]].
  - intros x y Hx Hy. destruct (Hdown x), (Hup y); auto. by apply (cmp_trans _ _ Hcmp x v y).
  - intros x y Hx Hy. destruct (Hdown x), (Hup y); [set_solver..|].
    by apply (cmp_trans _ _ Hcmp x v y).
  - clear - EA HA H0 Hcmp Hv. induction A as [|x A IH]; [constructor|]. constructor.
    + apply IH; set_solver.
    + apply Forall_forall. intros y Hy. apply (cmp_trans _ _ Hcmp x v y); try (apply EA; set_solver); [done| |].
      * rewrite HA by set_solver. done.
      * apply H0; [apply EA|apply HA]; set_solver.
Qed.

Lemma sorted_short L : (length L <= 1)%nat -> StronglySorted (le cmp) L.
Proof using All. destruct L as [|x [|y L]]; simpl; intros; [constructor|by repeat constructor|lia]. Qed.

(** ** The recursion *)
Definition sorts (fuel : nat) (a : Z) (m : cmem) (L : list (list Z)) : Prop :=
  exists L', qsort_loop cmp fuel es a (Z.of_nat (length L)) (amem a m L) = Some ((), amem a m L') /\
    L' ≡ₚ L /\ StronglySorted (le cmp) L'.

(** The call made for a part of the array, when it has more than one element *)
Lemma sort_part fuel a m L :
  es < 2 ^ 31 -> Z.of_nat (length L) * es < 2 ^ 31 -> sorts fuel a m L ->
  exists L', (if s32 es <? s32 (Z.of_nat (length L) * es)
              then qsort_loop cmp fuel es a (u64 (s32 (Z.of_nat (length L) * es)) / es) else mret ()) (amem a m L) =
      Some ((), amem a m L') /\ L' ≡ₚ L /\ StronglySorted (le cmp) L'.
Proof using All.
  intros Hes Hs (L' & E & HL'). rewrite !s32_small by nia.
  destruct (Z.ltb_spec es (Z.of_nat (length L) * es)) as [Hlt|Hge].
  - assert (u64 (Z.of_nat (length L) * es) = Z.of_nat (length L) * es) as -> by (apply wrap_small; nia).
    rewrite Z.div_mul by lia. by exists L'.
  - exists L. split; [done|]. split; [done|]. apply sorted_short. nia.
Qed.

Lemma min_bytes i j :
  Z.of_nat i * es < 2 ^ 31 -> Z.of_nat j * es < 2 ^ 31 ->
  s32 (if Z.of_nat i * es <? Z.of_nat j * es then Z.of_nat i * es else Z.of_nat j * es) = Z.of_nat (Nat.min i j) * es.
Proof using All.
  intros Hi Hj. destruct (Z.ltb_spec (Z.of_nat i * es) (Z.of_nat j * es)) as [Hc|Hc].
  - apply Z.mul_lt_mono_pos_r in Hc; [|lia]. rewrite Nat.min_l by lia. apply s32_small. lia.
  - apply Z.mul_le_mono_pos_r in Hc; [|lia]. rewrite Nat.min_r by lia. apply s32_small. lia.
Qed.

(** The equal elements go to the middle. *)
Lemma gather_run a m A Ls G E2 :
  arr_ok e a m (A ++ Ls ++ G ++ E2) -> A <> [] ->
  exists A' Ls' G' E2', A' ≡ₚ A /\ Ls' ≡ₚ Ls /\ G' ≡ₚ G /\ E2' ≡ₚ E2 /\
    gather es (SWAPINIT a es) a (ptr a (length A)) (ptr a (length A + length Ls)) (ptr a (length A + length Ls) - es)
      (ptr a (length A + length Ls + length G) - es) (ptr a (length A + length Ls + length G + length E2))
      (amem a m (A ++ Ls ++ G ++ E2)) = Some ((), amem a m (Ls' ++ A' ++ E2' ++ G')).
Proof using All.
  intros Ho HA. pose proof (ao_size _ _ _ _ Ho) as Hs. rewrite !length_app in Hs.
  assert (es < 2 ^ 31) as Hes by (destruct A; simpl in Hs; [done|nia]).
  unfold gather.
  replace (ptr a (length A) - a) with (Z.of_nat (length A) * es) by ptr_eq.
  replace (ptr a (length A + length Ls) - ptr a (length A)) with (Z.of_nat (length Ls) * es) by ptr_eq.
  rewrite min_bytes by nia.
  destruct (vecswap_parts a m [] A Ls (G ++ E2) Ho) as (A' & Ls' & HpA & HpL & E). simpl in E.
  erewrite bind_run. 2: { rewrite <- E. f_equal. ptr_eq. }
  clear E. rewrite (s32_small es) by lia.
  assert (ptr a (length A + length Ls + length G) - es - (ptr a (length A + length Ls) - es) = Z.of_nat (length G) * es) as -> by ptr_eq.
  assert (ptr a (length A + length Ls + length G + length E2) - (ptr a (length A + length Ls + length G) - es) - es =
    Z.of_nat (length E2) * es) as -> by ptr_eq.
  rewrite min_bytes by nia.
  destruct (vecswap_parts a m (Ls' ++ A') G E2 []) as (G' & E2' & HpG & HpE & E).
  { eapply arr_perm; [exact Ho|]. rewrite app_nil_r, HpA, HpL. solve_Permutation. }
  rewrite !app_nil_r, <- !app_assoc in E.
  exists A', Ls', G', E2'. split; [done|]. split; [done|]. split; [done|]. split; [done|].
  rewrite <- E. apply Permutation_length in HpA, HpL. rewrite length_app, HpA, HpL. by rewrite (Nat.add_comm (length Ls)).
Qed.

(** Both calls on the parts, and what they leave *)
Lemma both_parts fuel a m v Ls M G :
  (forall a m L, (length L < fuel)%nat -> arr_ok e a m L -> sorts fuel a m L) ->
  arr_ok e a m (Ls ++ M ++ G) -> (length Ls < fuel)%nat -> (length G < fuel)%nat -> M <> [] -> elem e v ->
  Forall (fun x => cmp x v < 0) Ls -> Forall (fun x => cmp x v = 0) M -> Forall (fun x => 0 < cmp x v) G ->
  exists L, ((if s32 es <? s32 (Z.of_nat (length Ls) * es)
              then qsort_loop cmp fuel es a (u64 (s32 (Z.of_nat (length Ls) * es)) / es) else mret ());;
             (if s32 es <? s32 (Z.of_nat (length G) * es)
              then qsort_loop cmp fuel es (ptr a (length Ls + length M)) (u64 (s32 (Z.of_nat (length G) * es)) / es)
              else mret ())) (amem a m (Ls ++ M ++ G)) = Some ((), amem a m L) /\
    L ≡ₚ Ls ++ M ++ G /\ StronglySorted (le cmp) L.
Proof using All.
  intros IH Ho HfL HfG HM Hv HL HMv HG. pose proof (ao_elems _ _ _ _ Ho) as Hel.
  pose proof Hel as Hel'. apply Forall_app in Hel' as [HeL HeMG]. apply Forall_app in HeMG as [HeM HeG].
  pose proof (ao_size _ _ _ _ Ho) as Hs. rewrite !length_app in Hs.
  assert (es < 2 ^ 31) as Hes by (destruct M; [done|simpl in Hs; nia]).
  destruct (sort_part fuel a (amem (ptr a (length Ls)) m (M ++ G)) Ls) as (Ls' & E1 & P1 & S1);
    [done|nia|apply IH; [done|by apply arr_front]|].
  assert (Forall (elem e) Ls') as HeL' by (by rewrite P1).
  assert (length Ls' = length Ls) as El by (by rewrite P1).
  rewrite amem_front by done. erewrite bind_run by exact E1. clear E1.
  rewrite <- !El. rewrite <- amem_front by done. rewrite (app_assoc Ls').
  assert (arr_ok e a m ((Ls' ++ M) ++ G)) as Ho'.
  { eapply arr_perm; [exact Ho|]. by rewrite P1, <- app_assoc. }
  destruct (sort_part fuel (ptr a (length (Ls' ++ M))) (amem a m (Ls' ++ M)) G) as (G' & E2 & P2 & S2);
    [done|nia|apply IH; [done|by apply arr_back]|].
  rewrite amem_back by (by apply Forall_app). exists (Ls' ++ M ++ G'). split.
  - rewrite <- length_app, E2. rewrite <- amem_back by (by apply Forall_app). by rewrite <- app_assoc.
  - split; [by rewrite P1, P2|]. apply (parts_sorted v); try done; [|by rewrite P1|by rewrite P2].
    by rewrite !Forall_app, P1, P2.
Qed.

(** The partition of the array behind its pivot *)
Lemma partition_start a m v L0 :
  arr_ok e a m (v :: L0) ->
  let n := Z.of_nat (length (v :: L0)) in
  exists E1 Ls G E2 c,
    partition cmp (S (Z.to_nat n)) es (SWAPINIT a es) a n (a + es) (a + es) (a + u64 ((n - 1) * es)) (a + u64 ((n - 1) * es)) 0
      (amem a m (v :: L0)) =
      Some ((ptr a (length (v :: E1)), ptr a (length (v :: E1) + length Ls), ptr a (length (v :: E1) + length Ls) - es,
             ptr a (length (v :: E1) + length Ls + length G) - es, c), amem a m ((v :: E1) ++ Ls ++ G ++ E2)) /\
    (v :: E1) ++ Ls ++ G ++ E2 ≡ₚ v :: L0 /\ Forall (fun x => cmp x v = 0) E1 /\ Forall (fun x => cmp x v < 0) Ls /\
    Forall (fun x => 0 < cmp x v) G /\ Forall (fun x => cmp x v = 0) E2.
Proof using All.
  intros Ho n. assert (v :: [] ++ [] ++ L0 ++ [] ++ [] = v :: L0) as EL by (simpl; by rewrite app_nil_r).
  destruct (partition_run cmp e He v (S (Z.to_nat n)) (length (v :: L0)) a m [] [] L0 [] [] 0)
    as (E1 & Ls & G & E2 & c & Ep & Pp & HR); [unfold n; simpl length; lia|simpl; lia|by rewrite EL|constructor..|].
  exists E1, Ls, G, E2, c. split.
  - rewrite EL in Ep. cbv zeta. etrans; [|exact Ep]. unfold n.
    replace (Z.of_nat (length (v :: L0)) - 1) with (Z.of_nat (length L0)) by (simpl length; lia).
    rewrite (size_u64 e He a m (v :: L0)) by (done || (simpl; lia)). f_equal; unfold QsortOps.ptr; simpl length; lia.
  - split; [|done]. simpl in Pp |- *. rewrite app_nil_r in Pp. by constructor.
Qed.

Lemma qsort_loop_run fuel a m L : (length L < fuel)%nat -> arr_ok e a m L -> sorts fuel a m L.
Proof using All.
  revert a m L. induction fuel as [|fuel IH]; intros a m L Hf Ho; [lia|]. unfold sorts. cbn [qsort_loop].
  destruct (Z.ltb_spec (Z.of_nat (length L)) 7) as [H7|H7].
  { destruct (decide (L = [])) as [->|Hne]; [|by apply insert_sort_run].
    exists []. split; [|by split; [|constructor]]. simpl. rewrite (proj2 (Z.ltb_ge _ _)); [done|].
    unfold u64, wrap. simpl. lia. }
  destruct (pivot_run cmp e He a m L Ho ltac:(lia)) as (k & Hk & Ep). erewrite bind_run by exact Ep. clear Ep.
  destruct (swap_first cmp e He a m L k Ho Hk) as (v & L0 & P0 & Es). erewrite bind_run by exact Es. clear Es.
  assert (arr_ok e a m (v :: L0)) as Ho0 by (by eapply arr_perm).
  assert (length L = length (v :: L0)) as El by (by rewrite P0). rewrite El in *.
  destruct (partition_start a m v L0 Ho0) as (E1 & Ls & G & E2 & c & Ep & Pp & HE1 & HL & HG & HE2).
  erewrite bind_run by exact Ep. cbv beta iota zeta. clear Ep. set (A := v :: E1) in *.
  assert (arr_ok e a m (A ++ Ls ++ G ++ E2)) as Ho1 by (by eapply arr_perm).
  assert (length (v :: L0) = length A + length Ls + length G + length E2)%nat as En
    by (rewrite <- Pp, !length_app; lia).
  destruct (Z.eqb_spec c 0) as [_|_].
  { destruct (insert_sort_run cmp e He Hcmp a m (A ++ Ls ++ G ++ E2)) as (L' & Ei & Pi & Si); [done|done|].
    rewrite (Permutation_length Pp) in Ei. exists L'. split; [exact Ei|]. split; [by rewrite Pi, Pp, P0|done]. }
  rewrite (size_u64 e He a m (v :: L0)), En by (done || lia). clear En.
  assert (ptr a (length A + length Ls) - ptr a (length A) = Z.of_nat (length Ls) * es) as -> by ptr_eq.
  assert (ptr a (length A + length Ls + length G) - es - (ptr a (length A + length Ls) - es) = Z.of_nat (length G) * es) as -> by ptr_eq.
  destruct (gather_run a m A Ls G E2 Ho1 ltac:(done)) as (A' & Ls' & G' & E2' & PA & PL & PG & PE & Eg).
  erewrite bind_run by exact Eg. clear Eg. rewrite (app_assoc A').
  assert (Ls' ++ (A' ++ E2') ++ G' ≡ₚ v :: L0) as P1 by (rewrite PA, PL, PG, PE, <- Pp; solve_Permutation).
  assert (cmp v v = 0 /\ elem e v) as [Hvv Hv].
  { pose proof (ao_elems _ _ _ _ Ho0) as H. inversion H; subst. split; [by eapply cmp_refl|done]. }
  destruct (both_parts fuel a m v Ls' (A' ++ E2') G' IH) as (L' & E & HL').
  - exact (arr_perm _ _ _ _ _ Ho0 P1).
  - rewrite PL. apply Permutation_length in Pp. revert Pp Hf. rewrite !length_app. simpl. lia.
  - rewrite PG. apply Permutation_length in Pp. revert Pp Hf. rewrite !length_app. simpl. lia.
  - intros H. apply app_eq_nil in H as [-> _]. by apply Permutation_nil in PA.
  - done.
  - by rewrite PL.
  - rewrite PA, PE. apply Forall_app. split; [by constructor|done].
  - by rewrite PG.
  - exists L'. split; [|by rewrite <- P0, <- P1]. etrans; [|exact E].
    apply Permutation_length in PA, PL, PG, PE. rewrite length_app, PA, PL, PG, PE. pose proof (ao_size _ _ _ _ Ho1) as Hs.
    rewrite !length_app in Hs. rewrite (s32_small (Z.of_nat (length G) * es)) by nia.
    replace (ptr a (length Ls + (length A + length E2))) with
      (a + Z.of_nat (length A + length Ls + length G + length E2) * es - Z.of_nat (length G) * es) by ptr_eq. done.
Qed.
End sort.
