(* ===== verification/Bsearch.v ===== *)
(** * [bsearch] finds

    The search of [lib/libc/bsearch.c] in a sorted array.  When the key is missing
    between two elements, [high] is one below [low] for a last round: the address
    computed then wraps around to the element below [low], if the element size is
    even. *)
From stdpp Require Import sorting.
From S2P Require Import Prelude Cstring CstringMem CstringOps Qsort QsortOps QsortSort.

#[local] Ltac Zify.zify_post_hook ::= Z.div_mod_to_equations.

(** The elements of an array in memory *)
Definition array (e : nat) (m : cmem) (a : Z) (n : nat) : list (list Z) :=
  (fun i => rd m (ptr e a i) (Z.of_nat e)) <$> seq 0 n.

Section array.
Context (e : nat).
Notation es := (Z.of_nat e).

Lemma length_array m a n : length (array e m a n) = n.
Proof. unfold array. by rewrite length_fmap, length_seq. Qed.

Lemma lookup_array m a n i :
  (i < n)%nat -> array e m a n !! i = Some (rd m (ptr e a i) es).
Proof. intros Hi. unfold array. rewrite list_lookup_fmap, lookup_seq_lt by done. done. Qed.

Lemma array_elems m a n : bytes m -> Forall (elem e) (array e m a n).
Proof.
  intros Hb. unfold array. apply Forall_fmap, Forall_true. intros i. split; [rewrite length_rd; lia|by apply bytes_rd].
Qed.

Lemma concat_array m a n : concat (array e m a n) = rd m a (Z.of_nat n * es).
Proof.
  induction n as [|n IH]; [done|]. unfold array in *. rewrite seq_S, fmap_app, concat_app, IH. simpl. rewrite app_nil_r.
  rewrite <- rd_app by lia. f_equal. lia.
Qed.

Lemma amem_array m a n : mapped m a (Z.of_nat n * es) -> amem a m (array e m a n) = m.
Proof. intros Hm. unfold amem. rewrite concat_array. by apply wr_rd_id. Qed.
End array.

Section bsearch.
Context (cmp : list Z -> list Z -> Z) (e : nat) (He : (0 < e)%nat) (Hcmp : cmp_order cmp e).
Notation es := (Z.of_nat e).
Context (m : cmem) (base key : Z) (n : nat).
Context (Hb : bytes m) (Hm : mapped m base (Z.of_nat n * es)) (Hk : mapped m key es).
Context (Hbase : 0 < base) (Hend : base + Z.of_nat n * es <= 2 ^ 64) (Heven : es mod 2 = 0).
Notation elt i := (rd m (ptr e base i) es).
Notation k := (rd m key es).
Context (Hsort : forall i j, (i <= j < n)%nat -> le cmp (elt i) (elt j)).

Lemma elt_elem i : elem e (elt i).
Proof using All. split; [rewrite length_rd; lia|by apply bytes_rd]. Qed.

Lemma key_elem : elem e k.
Proof using All. split; [rewrite length_rd; lia|by apply bytes_rd]. Qed.

(** The order with the key is the order of the indices. *)
Lemma above_key i j : (i <= j < n)%nat -> cmp k (elt i) < 0 -> cmp k (elt j) < 0.
Proof using All.
  intros Hij Hi. pose proof (Hsort i j Hij) as Hle. destruct (Z.lt_ge_cases (cmp k (elt j)) 0) as [|Hge]; [done|].
  pose proof (cmp_anti _ _ Hcmp (elt j) k (elt_elem j) key_elem). pose proof (cmp_anti _ _ Hcmp k (elt j) key_elem (elt_elem j)).
  pose proof (cmp_anti _ _ Hcmp k (elt i) key_elem (elt_elem i)).
  pose proof (cmp_trans _ _ Hcmp (elt i) (elt j) k (elt_elem i) (elt_elem j) key_elem Hle). lia.
Qed.

Lemma below_key i j : (i <= j < n)%nat -> 0 < cmp k (elt j) -> 0 < cmp k (elt i).
Proof using All.
  intros Hij Hj. pose proof (Hsort i j Hij) as Hle. destruct (Z.lt_ge_cases 0 (cmp k (elt i))) as [|Hge]; [done|].
  pose proof (cmp_trans _ _ Hcmp k (elt i) (elt j) key_elem (elt_elem i) (elt_elem j) Hge Hle). lia.
Qed.

Lemma cmp_key i : (i < n)%nat -> call_cmp cmp es key (ptr e base i) m = Some (cmp k (elt i), m).
Proof using All.
  intros Hi. unfold call_cmp. rewrite bool_decide_true; [done|]. split; [done|].
  apply (mapped_sub _ _ _ _ _ Hm); unfold ptr; nia.
Qed.

Lemma mid_addr i : (i < n)%nat -> u64 (base + u64 (Z.of_nat i * es)) = ptr e base i.
Proof using All. intros Hi. unfold ptr. rewrite (wrap_small _ (Z.of_nat i * es)) by nia. apply wrap_small. nia. Qed.

(** The result of a search *)
Definition found (r : Z) : Prop :=
  (r = 0 /\ forall i, (i < n)%nat -> cmp k (elt i) <> 0) \/
  (exists i, (i < n)%nat /\ r = ptr e base i /\ cmp k (elt i) = 0).

(** The last round, with [high] below [low] *)
Lemma bsearch_last fuel low :
  (0 < low < n)%nat -> 0 < cmp k (elt (low - 1)) -> cmp k (elt low) < 0 ->
  exists r, bsearch_loop cmp (S fuel) key base es (Z.of_nat low) (Z.of_nat low - 1) m = Some (r, m) /\ found r.
Proof using All.
  intros Hl Hlo Hhi. cbn [bsearch_loop]. assert (Z.of_nat n < 2 ^ 63) as Hn by nia.
  replace (Z.of_nat low - 1 - Z.of_nat low) with (-1) by lia. change (u64 (-1) / 2) with (2 ^ 63 - 1).
  rewrite (wrap_small _ (Z.of_nat low + (2 ^ 63 - 1))) by lia.
  assert (u64 ((Z.of_nat low + (2 ^ 63 - 1)) * es) = u64 (Z.of_nat (low - 1) * es)) as ->.
  { assert (exists h, es = 2 * h) as [h ->] by (exists (es / 2); lia). unfold u64, wrap.
    replace ((Z.of_nat low + (2 ^ 63 - 1)) * (2 * h)) with (Z.of_nat (low - 1) * (2 * h) + h * 2 ^ 64)
      by (rewrite Nat2Z.inj_sub by lia; change (2 ^ 64) with (2 * 2 ^ 63); simpl Z.of_nat; ring).
    apply Z.mod_add. lia. }
  rewrite mid_addr by lia. erewrite bind_run by (apply cmp_key; lia).
  rewrite (proj2 (Z.ltb_ge _ _)), (proj2 (Z.ltb_lt _ _)) by lia.
  rewrite wrap_small by lia. rewrite (proj2 (Z.ltb_lt (Z.of_nat low - 1) _)), orb_true_r by lia.
  exists 0. split; [done|]. left. split; [done|]. intros i Hi.
  destruct (le_lt_dec low i) as [H|H].
  - pose proof (above_key low i ltac:(lia) Hhi). lia.
  - pose proof (below_key i (low - 1) ltac:(lia) Hlo). lia.
Qed.

Lemma bsearch_loop_run fuel low high :
  (low <= high < n)%nat -> (high - low + 2 <= fuel)%nat ->
  (forall i, (i < low)%nat -> 0 < cmp k (elt i)) -> (forall i, (high < i < n)%nat -> cmp k (elt i) < 0) ->
  exists r, bsearch_loop cmp fuel key base es (Z.of_nat low) (Z.of_nat high) m = Some (r, m) /\ found r.
Proof using All.
  revert low high. induction fuel as [|fuel IH]; intros low high Hlh Hf Hlo Hhi; [lia|]. cbn [bsearch_loop].
  assert (Z.of_nat n < 2 ^ 63) as Hn by nia.
  assert (exists mid, Z.of_nat mid = Z.of_nat low + (Z.of_nat high - Z.of_nat low) / 2) as [mid Emid]
    by (exists (Z.to_nat (Z.of_nat low + (Z.of_nat high - Z.of_nat low) / 2)); lia).
  rewrite (wrap_small _ (Z.of_nat high - Z.of_nat low)), <- Emid, (wrap_small _ (Z.of_nat mid)) by lia.
  rewrite mid_addr by lia. erewrite bind_run by (apply cmp_key; lia).
  destruct (Z.ltb_spec (cmp k (elt mid)) 0) as [Hneg|Hge].
  - destruct (Z.eqb_spec (Z.of_nat mid) 0) as [H0|H0].
    + exists 0. split; [done|]. left. split; [done|]. intros i Hi. pose proof (above_key mid i ltac:(lia) Hneg). lia.
    + rewrite wrap_small by lia. destruct (decide (mid = low)) as [->|Hne].
      * destruct fuel as [|fuel]; [lia|]. apply bsearch_last; [lia|apply Hlo; lia|done].
      * replace (Z.of_nat mid - 1) with (Z.of_nat (mid - 1)) by lia. apply IH; [lia|lia|done|].
        intros i Hi. apply (above_key mid); [lia|done].
  - destruct (Z.ltb_spec 0 (cmp k (elt mid))) as [Hpos|].
    + rewrite wrap_small by lia. rewrite (proj2 (Z.ltb_ge (Z.of_nat mid + 1) _)) by lia. simpl orb.
      assert (forall i, (i <= mid)%nat -> 0 < cmp k (elt i)) as Hb' by (intros i Hi; apply (below_key i mid); [lia|done]).
      destruct (Z.ltb_spec (Z.of_nat high) (Z.of_nat mid + 1)).
      * exists 0. split; [done|]. left. split; [done|]. intros i Hi. destruct (le_lt_dec i mid) as [H'|H'].
        -- specialize (Hb' i H'). lia.
        -- specialize (Hhi i ltac:(lia)). lia.
      * replace (Z.of_nat mid + 1) with (Z.of_nat (mid + 1)) by lia. apply IH; [lia|lia| |done]. intros i Hi. apply Hb'. lia.
    + exists (ptr e base mid). split; [done|]. right. exists mid. split; [lia|]. split; [done|lia].
Qed.

Lemma bsearch_run : exists r, bsearch cmp key base (Z.of_nat n) es m = Some (r, m) /\ found r.
Proof using All.
  unfold bsearch. destruct (Z.eqb_spec (Z.of_nat n) 0) as [H0|H0].
  { exists 0. split; [done|]. left. split; [done|]. intros i Hi. lia. }
  rewrite wrap_small by nia. replace (Z.of_nat n - 1) with (Z.of_nat (n - 1)) by lia.
  apply (bsearch_loop_run _ 0 (n - 1)); [lia|lia|intros; lia|intros; lia].
Qed.
End bsearch.
