(* ===== verification/SortClaims.v ===== *)
(** * [qsort] and [bsearch]: the theorems *)
From stdpp Require Import sorting.
From S2P Require Import Prelude Cstring CstringMem CstringOps Qsort QsortOps QsortSort Bsearch.

(** C8: [qsort] of an array below 2 GiB with any comparison that is a total preorder, any
    element size and any alignment, returns, and leaves a sorted permutation of the
    elements; the rest of the memory is as it was. *)
Theorem qsort_correct cmp e a n m :
  (0 < e)%nat -> cmp_order cmp e -> bytes m -> mapped m a (Z.of_nat n * Z.of_nat e) -> Z.of_nat n * Z.of_nat e < 2 ^ 31 ->
  exists L, qsort cmp a (Z.of_nat n) (Z.of_nat e) m = Some ((), wr a (concat L) m) /\
    L ≡ₚ array e m a n /\ StronglySorted (le cmp) L.
Proof.
  intros He Hc Hb Hm Hs. pose proof (length_array e m a n) as Hl.
  destruct (qsort_loop_run cmp e He Hc (S (Z.to_nat (Z.of_nat n))) a m (array e m a n)) as (L & E & HL).
  - rewrite Hl. lia.
  - split; rewrite ?Hl; try done. by apply array_elems.
  - exists L. split; [|done]. unfold qsort. rewrite Hl, amem_array in E by done. exact E.
Qed.

(** Elements of two bytes, the low one first, in the order of their values *)
Definition num16 (x : list Z) : Z := match x with [lo; hi] => lo + 256 * hi | _ => 0 end.
Definition cmp16 (x y : list Z) : Z := num16 x - num16 y.
Lemma cmp16_order : cmp_order cmp16 2.
Proof. split; unfold cmp16; lia. Qed.

Definition sort_mem : cmem := wr 1001 [9; 0; 3; 0; 0; 1; 3; 0; 7; 0; 1; 0; 9; 0; 2; 0; 200; 9; 4; 0] ∅.
Lemma qsort_correct_witness :
  exists L, qsort cmp16 1001 10 2 sort_mem = Some ((), wr 1001 (concat L) sort_mem) /\
    L ≡ₚ array 2 sort_mem 1001 10 /\ StronglySorted (le cmp16) L.
Proof.
  apply (qsort_correct cmp16 2 1001 10 sort_mem); [lia|exact cmp16_order|decide_now|decide_now|lia].
Defined.

(** C24: in an array sorted by the comparison, with elements of an even size, [bsearch]
    returns the address of an element equal to the key, and the null pointer only
    when there is none; it changes no memory. *)
Theorem bsearch_correct cmp e m base key n :
  (0 < e)%nat -> cmp_order cmp e -> bytes m -> mapped m base (Z.of_nat n * Z.of_nat e) -> mapped m key (Z.of_nat e) ->
  0 < base -> base + Z.of_nat n * Z.of_nat e <= 2 ^ 64 -> Z.of_nat e mod 2 = 0 ->
  (forall i j, (i <= j < n)%nat -> cmp (rd m (ptr e base i) (Z.of_nat e)) (rd m (ptr e base j) (Z.of_nat e)) <= 0) ->
  exists r, bsearch cmp key base (Z.of_nat n) (Z.of_nat e) m = Some (r, m) /\
    ((r = 0 /\ forall i, (i < n)%nat -> cmp (rd m key (Z.of_nat e)) (rd m (ptr e base i) (Z.of_nat e)) <> 0) \/
     exists i, (i < n)%nat /\ r = ptr e base i /\ cmp (rd m key (Z.of_nat e)) (rd m (ptr e base i) (Z.of_nat e)) = 0).
Proof. intros He Hc Hb Hm Hk Hbase Hend Hev Hs. exact (bsearch_run cmp e He Hc m base key n Hb Hm Hk Hbase Hend Hev Hs). Qed.

(** 1, 3, 3, 9 at 1000, and the key 4 at 2000 *)
Definition find_mem : cmem := wr 1000 [1; 0; 3; 0; 3; 0; 9; 0] (wr 2000 [4; 0] ∅).
Lemma bsearch_correct_witness :
  exists r, bsearch cmp16 2000 1000 4 2 find_mem = Some (r, find_mem) /\
    ((r = 0 /\ forall i, (i < 4)%nat -> cmp16 (rd find_mem 2000 2) (rd find_mem (ptr 2 1000 i) 2) <> 0) \/
     exists i, (i < 4)%nat /\ r = ptr 2 1000 i /\ cmp16 (rd find_mem 2000 2) (rd find_mem (ptr 2 1000 i) 2) = 0).
Proof.
  apply (bsearch_correct cmp16 2 find_mem 1000 2000 4); [lia|exact cmp16_order|decide_now|decide_now|decide_now|lia|lia|done|].
  intros i j Hij. do 4 (destruct i as [|i]; [do 4 (destruct j as [|j]; [first [lia|vm_compute; discriminate]|]); lia|]). lia.
Defined.

(** With an odd element size and a key missing between two elements, the address of the
    last round is half the address space away from the array: looking for 2 among the
    bytes 1 and 3 reads outside of it. *)
Example bsearch_odd_size :
  bsearch (fun x y => hd 0 x - hd 0 y) 2000 1000 2 1 (wr 1000 [1; 3] (wr 2000 [2] ∅)) = None.
Proof. vm_compute. reflexivity. Qed.
