(* ===== verification/FsPath.v ===== *)
(** * Paths: [fs_normalize_path] and [trim_name] of [lib/fs/fs.c]

    The state machine rewrites a path in place: it reads at [pos] and writes at
    [outpos] of one buffer.  What it computes is given by the fields of the path. *)
From S2P Require Import Prelude.

Definition slash : Z := 47.
Definition dot : Z := 46.

(** ** The code *)
Inductive norm_state :=
  | INITIAL | FIELD_START | IN_FIELD | SEP | SEEN_SEP | DOT | SEEN_DOT | DOTDOT | SEEN_DOTDOT.

Record norm := Norm { n_state : norm_state; n_pos : nat; n_outpos : nat; n_path : list Z }.

(** [path[outpos++] = c] *)
Definition emit (c : Z) (n : norm) : option norm :=
  if (n_outpos n <? length (n_path n))%nat
  then Some (Norm (n_state n) (n_pos n) (n_outpos n + 1) (<[n_outpos n := c]> (n_path n)))
  else None.
Definition set_state (s : norm_state) (n : norm) : norm := Norm s (n_pos n) (n_outpos n) (n_path n).
Definition inc_pos (n : norm) : norm := Norm (n_state n) (n_pos n + 1) (n_outpos n) (n_path n).
Definition set_outpos (o : nat) (n : norm) : norm := Norm (n_state n) (n_pos n) o (n_path n).

(** Walking backwards to the end of the field before *)
Fixpoint field_boundary (path : list Z) (outpos : nat) : option nat :=
  match outpos with
  | O => Some O
  | S o => c ← path !! o; if c =? slash then Some outpos else field_boundary path o
  end.

(** One round of the loop, and [done] *)
Definition norm_step (n : norm) : option (norm * bool) :=
  c ← n_path n !! n_pos n;
  match n_state n with
  | INITIAL =>
      Some (set_state (if c =? slash then SEP else if c =? dot then DOT else FIELD_START) n, false)
  | FIELD_START =>
      if c =? dot then Some (set_state DOT n, false)
      else if c =? 0 then Some (n, true)
      else Some (set_state IN_FIELD n, false)
  | IN_FIELD =>
      if c =? slash then Some (set_state SEP n, false)
      else if c =? 0 then Some (n, true)
      else n ← emit c n; Some (inc_pos n, false)
  | SEP => n ← emit slash (inc_pos n); Some (set_state SEEN_SEP n, false)
  | SEEN_SEP =>
      if c =? slash then Some (inc_pos n, false)
      else if c =? 0 then Some (n, true)
      else Some (set_state FIELD_START n, false)
  | DOT => Some (set_state SEEN_DOT (inc_pos n), false)
  | SEEN_DOT =>
      if c =? dot then Some (set_state DOTDOT n, false)
      else if c =? slash then Some (set_state SEEN_SEP (inc_pos n), false)
      else if c =? 0 then Some (n, true)
      else n ← emit dot n; Some (set_state IN_FIELD n, false)
  | DOTDOT => Some (set_state SEEN_DOTDOT (inc_pos n), false)
  | SEEN_DOTDOT =>
      if (c =? slash) || (c =? 0) then
        o ← (if (0 <? n_outpos n)%nat then field_boundary (n_path n) (n_outpos n - 1) else Some O);
        Some (set_state SEEN_SEP (inc_pos (set_outpos o n)), c =? 0)
      else
        n ← emit dot n; n ← emit dot n;
        Some (set_state IN_FIELD n, false)
  end.

Fixpoint norm_loop (fuel : nat) (n : norm) : option norm :=
  match fuel with
  | O => None
  | S fuel =>
      '(n, done) ← norm_step n;
      if done : bool then Some n else norm_loop fuel n
  end.

Definition fs_normalize_path (path : list Z) : option (list Z) :=
  n ← norm_loop (4 * length path + 4) (Norm INITIAL 0 0 path);
  o ← (if (0 <? n_outpos n)%nat then
         c ← n_path n !! (n_outpos n - 1)%nat;
         Some (if c =? slash then (n_outpos n - 1)%nat else n_outpos n)
       else Some (n_outpos n));
  n ← emit 0 (set_outpos o n);
  Some (n_path n).

Fixpoint skip_while (c : Z) (l : list Z) : list Z :=
  match l with
  | x :: l' => if x =? c then skip_while c l' else l
  | [] => []
  end.
Definition trim_name (name : list Z) : list Z := skip_while slash (skip_while 32 name).

(** ** What it means *)

(** The fields of a path, between slashes *)
Fixpoint split_path (l : list Z) : list (list Z) :=
  match l with
  | [] => [[]]
  | c :: l =>
      if c =? slash then [] :: split_path l
      else match split_path l with f :: fs => (c :: f) :: fs | [] => [[c]] end
  end.

(** A path: whether it starts at the root, and its fields *)
Definition npath : Type := bool * list (list Z).
Definition push (st : npath) (f : list Z) : npath := (st.1, st.2 ++ [f]).
(** [..] drops the last field, and with no field left, the root. *)
Definition up (st : npath) : npath := match st.2 with [] => (false, []) | fs => (st.1, removelast fs) end.
Definition add_field (st : npath) (f : list Z) : npath :=
  if bool_decide (f = [] \/ f = [dot]) then st
  else if bool_decide (f = [dot; dot]) then up st
  else push st f.
Definition starts_slash (l : list Z) : bool := match l with c :: _ => c =? slash | [] => false end.
Definition normal (l : list Z) : npath := foldl add_field (starts_slash l, []) (split_path l).

(** The text while the machine runs, and without the last slash *)
Definition text (st : npath) : list Z := (if st.1 then [slash] else []) ++ concat ((fun f => f ++ [slash]) <$> st.2).
Definition path_text (st : npath) : list Z := removelast (text st).

(** * [fs_normalize_path] computes the normal form of a path *)

(** ** Fields *)
Lemma split_path_cons c l :
  c <> slash -> exists g gs, split_path l = g :: gs /\ split_path (c :: l) = (c :: g) :: gs.
Proof.
  intros Hc. simpl. rewrite (proj2 (Z.eqb_neq _ _)) by done.
  assert (exists g gs, split_path l = g :: gs) as (g & gs & ->); [|by exists g, gs].
  destruct l as [|x l]; simpl; [by eexists _, _|]. case_match; [by eexists _, _|]. by case_match; eexists _, _.
Qed.

Lemma split_path_slash l : split_path (slash :: l) = [] :: split_path l.
Proof. done. Qed.

Definition no_slash (f : list Z) : Prop := slash ∉ f.

Lemma add_plain st c g : c <> dot -> add_field st (c :: g) = push st (c :: g).
Proof. intros Hc. unfold add_field. rewrite !bool_decide_false; naive_solver. Qed.

Lemma add_dotted st c g : c <> dot -> add_field st (dot :: c :: g) = push st (dot :: c :: g).
Proof. intros Hc. unfold add_field. rewrite !bool_decide_false; naive_solver. Qed.

Lemma add_dotdotted st c g : add_field st (dot :: dot :: c :: g) = push st (dot :: dot :: c :: g).
Proof. unfold add_field. rewrite !bool_decide_false; naive_solver. Qed.

Lemma text_push st f : text (push st f) = (text st ++ f) ++ [slash].
Proof. unfold text, push. simpl. rewrite fmap_app, concat_app. simpl. by rewrite app_nil_r, <- !app_assoc. Qed.

Lemma path_text_push st f : path_text (push st f) = text st ++ f.
Proof. unfold path_text. rewrite text_push. apply removelast_last. Qed.

Lemma text_last st : text st = [] \/ exists t, text st = t ++ [slash].
Proof.
  destruct st as [a fs]. destruct fs as [|f fs _] using rev_ind.
  - destruct a; [right; by exists []|by left].
  - right. exists (text (a, fs) ++ f). apply (text_push (a, fs)).
Qed.

(** The way back over the last field *)
Lemma field_boundary_text path t f :
  no_slash f -> (t = [] \/ exists t', t = t' ++ [slash]) -> t ++ f `prefix_of` path ->
  field_boundary path (length (t ++ f)) = Some (length t).
Proof.
  intros Hf Ht [k ->]. revert k. induction f as [|c f IH] using rev_ind; intros k.
  - rewrite app_nil_r. destruct Ht as [->|[t' ->]]; [done|].
    rewrite length_app. simpl. rewrite Nat.add_1_r. simpl. rewrite <- app_assoc. simpl.
    rewrite list_lookup_middle by done. done.
  - rewrite app_assoc, length_app. simpl. rewrite Nat.add_1_r. simpl. rewrite <- (app_assoc (t ++ f)). simpl.
    rewrite list_lookup_middle by done. simpl. unfold no_slash in *.
    rewrite (proj2 (Z.eqb_neq _ _)) by set_solver. apply IH. set_solver.
Qed.

(** ** The buffer

    What is written, what was read and is not overwritten yet, what is left to read. *)
Definition pending (s : norm_state) : nat := match s with SEEN_DOT | DOTDOT => 1 | SEEN_DOTDOT => 2 | _ => 0 end.
Definition buf (n : norm) (out rest tail : list Z) : Prop := exists mid,
  n_path n = out ++ mid ++ rest ++ 0 :: tail /\ n_outpos n = length out /\
  n_pos n = (length out + length mid)%nat /\ (pending (n_state n) <= length mid)%nat.

Lemma buf_read n out rest tail : buf n out rest tail -> n_path n !! n_pos n = Some (hd 0 rest).
Proof.
  intros (mid & Hp & _ & Hpos & _). rewrite Hp, Hpos, app_assoc, lookup_app_r by (rewrite length_app; lia).
  rewrite length_app, Nat.sub_diag. by destruct rest.
Qed.

Lemma buf_state n out rest tail s :
  buf n out rest tail -> (pending s <= pending (n_state n))%nat -> buf (set_state s n) out rest tail.
Proof. intros (mid & ? & ? & ? & ?) Hs. exists mid. simpl. repeat split; try done. lia. Qed.

(** Consuming a character without writing *)
Lemma buf_consume n out c rest tail s :
  buf n out (c :: rest) tail -> (pending s <= S (pending (n_state n)))%nat -> buf (set_state s (inc_pos n)) out rest tail.
Proof.
  intros (mid & Hp & Ho & Hpos & Hpe) Hs. exists (mid ++ [c]). simpl. rewrite Hp, length_app. simpl.
  split; [by rewrite <- !app_assoc|]. split; [done|]. split; lia.
Qed.

(** Writing a character that was read before, or the one at hand *)
Lemma buf_emit_mid n out rest tail y :
  buf n out rest tail -> (0 < pending (n_state n))%nat ->
  exists n', emit y n = Some n' /\ n_state n' = n_state n /\
    forall s, (pending s < pending (n_state n))%nat -> buf (set_state s n') (out ++ [y]) rest tail.
Proof.
  intros (mid & Hp & Ho & Hpos & Hpe) Hlt. destruct mid as [|x mid]; simpl in Hpe, Hpos; [lia|].
  unfold emit. rewrite Hp, Ho. rewrite (proj2 (Nat.ltb_lt _ _)) by (rewrite length_app; simpl; lia).
  eexists. split; [done|]. split; [done|]. intros s Hs. exists mid. simpl.
  rewrite insert_app_r_alt by lia. rewrite Nat.sub_diag, length_app. simpl.
  split; [by rewrite <- !app_assoc|]. split; [lia|]. split; lia.
Qed.

Lemma buf_emit_next n out c rest tail y :
  buf n out (c :: rest) tail -> pending (n_state n) = 0%nat ->
  exists n', emit y n = Some n' /\ emit y (inc_pos n) = Some (inc_pos n') /\ n_state n' = n_state n /\
    forall s, pending s = 0%nat -> buf (set_state s (inc_pos n')) (out ++ [y]) rest tail.
Proof.
  intros (mid & Hp & Ho & Hpos & Hpe) H0. unfold emit. simpl. rewrite Hp, Ho.
  rewrite (proj2 (Nat.ltb_lt _ _)) by (rewrite !length_app; simpl; lia).
  eexists. split; [done|]. split; [done|]. split; [done|]. intros s Hs.
  rewrite insert_app_r_alt by lia. rewrite Nat.sub_diag.
  destruct mid as [|x mid]; [exists []|exists (mid ++ [c])]; simpl; rewrite ?length_app; simpl in *;
    rewrite <- !app_assoc; (split; [done|]); split; [lia|split; lia|lia|split; lia].
Qed.

(** The end: what is written fits before the end of the string. *)
Definition fbuf (n : norm) (out tail : list Z) : Prop := exists mid,
  n_path n = out ++ mid ++ 0 :: tail /\ n_outpos n = length out.

Lemma buf_done n out tail : buf n out [] tail -> fbuf n out tail.
Proof. intros (mid & Hp & Ho & _). exists mid. done. Qed.

(** Going back *)
Definition st_ok (st : npath) : Prop := Forall no_slash st.2.

Lemma up_push a fs f : up (a, fs ++ [f]) = (a, fs).
Proof.
  unfold up. cbn [fst snd]. destruct (fs ++ [f]) as [|g gs] eqn:E; [by destruct fs|]. by rewrite <- E, removelast_last.
Qed.

Lemma buf_back n st rest tail :
  buf n (text st) rest tail -> st_ok st ->
  exists o, (if (0 <? n_outpos n)%nat then field_boundary (n_path n) (n_outpos n - 1) else Some O) = Some o /\
    o = length (text (up st)) /\ exists mid, text st = text (up st) ++ mid.
Proof.
  intros (mid & Hp & Ho & _) Hok. destruct st as [a fs]. destruct fs as [|f fs _] using rev_ind.
  - exists 0%nat. split; [|split; [done|by eexists]]. rewrite Ho. destruct a; simpl; [|done]. done.
  - rewrite up_push. change (a, fs ++ [f]) with (push (a, fs) f) in *. rewrite text_push in *.
    exists (length (text (a, fs))). rewrite Ho, length_app. simpl. rewrite Nat.add_1_r. simpl. rewrite Nat.sub_0_r.
    split; [|split; [done|by rewrite <- app_assoc; eexists]].
    apply field_boundary_text; [|apply text_last|rewrite Hp; rewrite <- !app_assoc; rewrite (app_assoc (text _)); by apply prefix_app_r].
    unfold st_ok in Hok. simpl in Hok. rewrite Forall_app, Forall_singleton in Hok. apply Hok.
Qed.

(** ** The machine *)

(** What is left to do in a state, with [f] of a field written: its result is [R]. *)
Definition remaining (s : norm_state) (st : npath) (f rest : list Z) (R : npath) : Prop :=
  match s with
  | INITIAL => st = (false, []) /\ f = [] /\ R = foldl add_field (starts_slash rest, []) (split_path rest)
  | FIELD_START => f = [] /\ starts_slash rest = false /\ R = foldl add_field st (split_path rest)
  | SEEN_SEP => f = [] /\ R = foldl add_field st (split_path rest)
  | IN_FIELD => (f <> [] \/ rest <> [] /\ starts_slash rest = false) /\
      exists g gs, split_path rest = g :: gs /\ R = foldl add_field (push st (f ++ g)) gs
  | SEP => exists r, rest = slash :: r /\
      ((f <> [] /\ R = foldl add_field (push st f) (split_path r)) \/
       (f = [] /\ st = (false, []) /\ R = foldl add_field (true, []) (split_path r)))
  | DOT => (exists r, rest = dot :: r) /\ f = [] /\ R = foldl add_field st (split_path rest)
  | SEEN_DOT => f = [] /\ R = foldl add_field st (split_path (dot :: rest))
  | DOTDOT => (exists r, rest = dot :: r) /\ f = [] /\ R = foldl add_field st (split_path (dot :: rest))
  | SEEN_DOTDOT => f = [] /\ R = foldl add_field st (split_path (dot :: dot :: rest))
  end.

Definition rank (s : norm_state) : nat :=
  match s with SEP | DOT | DOTDOT => 0 | IN_FIELD => 1 | FIELD_START | SEEN_DOT | SEEN_DOTDOT => 2 | INITIAL | SEEN_SEP => 3 end.
Definition measure (n : norm) (rest : list Z) : nat := (4 * length rest + rank (n_state n))%nat.

Record machine (n : norm) (st : npath) (f rest tail : list Z) (R : npath) : Prop := {
  mc_buf : buf n (text st ++ f) rest tail;
  mc_st : st_ok st;
  mc_f : no_slash f;
  mc_chars : 0 ∉ rest;
  mc_rest : remaining (n_state n) st f rest R;
}.

(** The result of a finished machine: the fields, or the fields and one more *)
Definition finished (n : norm) (tail : list Z) (R : npath) : Prop := exists st f,
  fbuf n (text st ++ f) tail /\ no_slash f /\ ((f = [] /\ R = st) \/ (f <> [] /\ R = push st f)).

(** A round: it ends, or goes on with less to do. *)
Definition round (n : norm) (tail : list Z) (R : npath) (k : nat) : Prop :=
  (exists n', norm_step n = Some (n', true) /\ finished n' tail R) \/
  (exists n' st f rest, norm_step n = Some (n', false) /\ machine n' st f rest tail R /\ (measure n' rest < k)%nat).

Lemma round_in_field n st f rest tail R :
  n_state n = IN_FIELD -> machine n st f rest tail R -> round n tail R (measure n rest).
Proof.
  intros Hs [Hb Hst Hf Hc Hr]. rewrite Hs in Hr. destruct Hr as (Hne & g & gs & Eg & ->).
  unfold round, norm_step. rewrite (buf_read _ _ _ _ Hb), Hs. cbn [mbind option_bind].
  destruct rest as [|c rest]; simpl hd.
  { left. exists n. split; [done|]. exists st, f. split; [by apply buf_done|]. split; [done|].
    injection Eg as <- <-. simpl. rewrite app_nil_r. right. split; [|done]. by destruct Hne as [|[]]. }
  right. destruct (Z.eqb_spec c slash) as [->|Hcs].
  - rewrite split_path_slash in Eg. injection Eg as <- <-. rewrite app_nil_r.
    exists (set_state SEP n), st, f, (slash :: rest). split; [done|]. split; [|unfold measure; rewrite Hs; simpl; lia].
    split; [apply buf_state; [done|by rewrite Hs]|done|done|done|]. exists rest. split; [done|]. left.
    split; [|done]. destruct Hne as [|[_ Hn]]; [done|]. done.
  - rewrite (proj2 (Z.eqb_neq c 0)) by set_solver.
    destruct (buf_emit_next n _ c rest tail c Hb) as (n' & -> & _ & Es & Hb'); [by rewrite Hs|]. cbn [mbind option_bind].
    destruct (split_path_cons c rest Hcs) as (g' & gs' & Eg' & Ec). rewrite Ec in Eg. injection Eg as <- <-.
    exists (inc_pos n'), st, (f ++ [c]), rest. split; [done|]. rewrite Hs in Es.
    split; [|unfold measure; simpl; rewrite Es, Hs; simpl; lia].
    split; [rewrite app_assoc; specialize (Hb' IN_FIELD eq_refl); by destruct n'; simpl in *; subst|done| |set_solver|].
    { unfold no_slash in *. set_solver. }
    simpl. rewrite Es. split; [left; by destruct f|]. exists g', gs'. split; [done|]. by rewrite <- app_assoc.
Qed.

Lemma round_sep n st f rest tail R :
  n_state n = SEP -> machine n st f rest tail R -> round n tail R (measure n rest).
Proof.
  intros Hs [Hb Hst Hf Hc Hr]. rewrite Hs in Hr. destruct Hr as (r & -> & Hr).
  unfold round, norm_step. rewrite (buf_read _ _ _ _ Hb), Hs. cbn [mbind option_bind].
  destruct (buf_emit_next n _ slash r tail slash Hb) as (n' & _ & -> & Es & Hb'); [by rewrite Hs|]. cbn [mbind option_bind].
  right. exists (set_state SEEN_SEP (inc_pos n')). specialize (Hb' SEEN_SEP eq_refl).
  destruct Hr as [[Hne ->]|(-> & -> & ->)].
  - exists (push st f), [], r. split; [done|]. split; [|unfold measure; simpl; rewrite Hs; simpl; lia].
    split; [by rewrite app_nil_r, text_push|by apply Forall_app_2; [|apply Forall_singleton]|unfold no_slash; set_solver|set_solver|done].
  - exists (true, []), [], r. split; [done|]. split; [|unfold measure; simpl; rewrite Hs; simpl; lia].
    split; [done|constructor|unfold no_slash; set_solver|set_solver|done].
Qed.

(** States that look at a character without writing *)
Lemma machine_look n s st rest tail R :
  buf n (text st) rest tail -> st_ok st -> 0 ∉ rest -> (pending s <= pending (n_state n))%nat -> remaining s st [] rest R ->
  machine (set_state s n) st [] rest tail R.
Proof. intros. split; [rewrite app_nil_r; by apply buf_state|done|unfold no_slash; set_solver|done|done]. Qed.

Lemma machine_consume n s st c rest tail R :
  buf n (text st) (c :: rest) tail -> st_ok st -> 0 ∉ c :: rest -> (pending s <= S (pending (n_state n)))%nat ->
  remaining s st [] rest R -> machine (set_state s (inc_pos n)) st [] rest tail R.
Proof. intros. split; [rewrite app_nil_r; by eapply buf_consume|done|unfold no_slash; set_solver|set_solver|done]. Qed.

Lemma finished_fields n st tail : buf n (text st) [] tail -> finished n tail st.
Proof.
  intros Hb. exists st, []. rewrite app_nil_r. split; [by apply buf_done|]. split; [unfold no_slash; set_solver|]. by left.
Qed.

Lemma round_initial n st f rest tail R :
  n_state n = INITIAL -> machine n st f rest tail R -> round n tail R (measure n rest).
Proof.
  intros Hs [Hb Hst Hf Hc Hr]. rewrite Hs in Hr. destruct Hr as (-> & -> & ->). rewrite app_nil_r in Hb.
  unfold round, norm_step. rewrite (buf_read _ _ _ _ Hb), Hs. cbn [mbind option_bind]. right.
  eexists _, (false, []), [], rest. split; [done|].
  split; [|unfold measure; rewrite Hs; simpl; repeat case_match; simpl; lia].
  apply machine_look; [done|done|done|repeat case_match; simpl; lia|].
  destruct rest as [|c rest]; simpl hd; [done|]. destruct (Z.eqb_spec c slash) as [->|Hcs].
  - exists rest. split; [done|]. by right.
  - assert (starts_slash (c :: rest) = false) as -> by (by apply Z.eqb_neq).
    destruct (Z.eqb_spec c dot) as [->|Hcd]; [split; [by eexists|done]|]. split; [done|]. split; [by apply Z.eqb_neq|done].
Qed.

Lemma round_field_start n st f rest tail R :
  n_state n = FIELD_START -> machine n st f rest tail R -> round n tail R (measure n rest).
Proof.
  intros Hs [Hb Hst Hf Hc Hr]. rewrite Hs in Hr. destruct Hr as (-> & Hns & ->). rewrite app_nil_r in Hb.
  unfold round, norm_step. rewrite (buf_read _ _ _ _ Hb), Hs. cbn [mbind option_bind].
  destruct rest as [|c rest]; simpl hd; [left; exists n; split; [done|by apply finished_fields]|].
  simpl in Hns. apply Z.eqb_neq in Hns. right. destruct (Z.eqb_spec c dot) as [->|Hcd].
  - exists (set_state DOT n), st, [], (dot :: rest). split; [done|]. split; [|unfold measure; rewrite Hs; simpl; lia].
    apply machine_look; [done|done|done|simpl; lia|]. split; [by eexists|done].
  - rewrite (proj2 (Z.eqb_neq c 0)) by set_solver.
    exists (set_state IN_FIELD n), st, [], (c :: rest). split; [done|]. split; [|unfold measure; rewrite Hs; simpl; lia].
    apply machine_look; [done|done|done|simpl; lia|]. split; [right; split; [done|by apply Z.eqb_neq]|].
    destruct (split_path_cons c rest Hns) as (g & gs & _ & ->). exists (c :: g), gs. split; [done|]. simpl. by rewrite add_plain.
Qed.

Lemma round_seen_sep n st f rest tail R :
  n_state n = SEEN_SEP -> machine n st f rest tail R -> round n tail R (measure n rest).
Proof.
  intros Hs [Hb Hst Hf Hc Hr]. rewrite Hs in Hr. destruct Hr as (-> & ->). rewrite app_nil_r in Hb.
  unfold round, norm_step. rewrite (buf_read _ _ _ _ Hb), Hs. cbn [mbind option_bind].
  destruct rest as [|c rest]; simpl hd; [left; exists n; split; [done|by apply finished_fields]|].
  right. destruct (Z.eqb_spec c slash) as [->|Hcs].
  - exists (inc_pos n), st, [], rest. split; [done|]. split; [|unfold measure; simpl; rewrite Hs; simpl; lia].
    replace (inc_pos n) with (set_state SEEN_SEP (inc_pos n)) by (by destruct n; simpl in *; subst).
    eapply machine_consume; [done|done|done|simpl; lia|]. done.
  - rewrite (proj2 (Z.eqb_neq c 0)) by set_solver.
    exists (set_state FIELD_START n), st, [], (c :: rest). split; [done|]. split; [|unfold measure; rewrite Hs; simpl; lia].
    apply machine_look; [done|done|done|simpl; lia|]. split; [done|]. split; [by apply Z.eqb_neq|done].
Qed.

Lemma round_dot n st f rest tail R :
  n_state n = DOT \/ n_state n = DOTDOT -> machine n st f rest tail R -> round n tail R (measure n rest).
Proof.
  intros Hs [Hb Hst Hf Hc Hr]. destruct Hs as [Hs|Hs]; rewrite Hs in Hr; destruct Hr as ([r ->] & -> & ->);
    rewrite app_nil_r in Hb; unfold round, norm_step; rewrite (buf_read _ _ _ _ Hb), Hs; cbn [mbind option_bind]; right.
  - exists (set_state SEEN_DOT (inc_pos n)), st, [], r. split; [done|]. split; [|unfold measure; simpl; rewrite Hs; simpl; lia].
    eapply machine_consume; [done|done|done|rewrite Hs; simpl; lia|]. done.
  - exists (set_state SEEN_DOTDOT (inc_pos n)), st, [], r. split; [done|]. split; [|unfold measure; simpl; rewrite Hs; simpl; lia].
    eapply machine_consume; [done|done|done|rewrite Hs; simpl; lia|]. done.
Qed.

Lemma no_slash_dots k : no_slash (replicate k dot).
Proof. unfold no_slash. intros H. apply elem_of_replicate in H as [H _]. done. Qed.

(** A field that starts with dots, but is more than dots *)
Lemma machine_dotted n st k c rest tail :
  buf (set_state IN_FIELD n) (text st ++ replicate (S k) dot) (c :: rest) tail -> st_ok st -> 0 ∉ c :: rest -> c <> slash ->
  (forall g, add_field st (replicate (S k) dot ++ c :: g) = push st (replicate (S k) dot ++ c :: g)) ->
  machine (set_state IN_FIELD n) st (replicate (S k) dot) (c :: rest) tail
    (foldl add_field st (split_path (replicate (S k) dot ++ c :: rest))).
Proof.
  intros Hb Hst Hc Hcs Hadd. split; [done|done|apply no_slash_dots|done|]. split; [by left|].
  destruct (split_path_cons c rest Hcs) as (g & gs & _ & Eg). exists (c :: g), gs. split; [done|].
  assert (forall k, split_path (replicate k dot ++ c :: rest) = (replicate k dot ++ c :: g) :: gs) as Hsp.
  { intros j. induction j as [|j IH]; [done|]. cbn [replicate app].
    destruct (split_path_cons dot (replicate j dot ++ c :: rest)) as (g' & gs' & E & ->); [done|].
    rewrite IH in E. by injection E as <- <-. }
  rewrite Hsp. cbn [foldl]. by rewrite Hadd.
Qed.

Lemma round_seen_dot n st f rest tail R :
  n_state n = SEEN_DOT -> machine n st f rest tail R -> round n tail R (measure n rest).
Proof.
  intros Hs [Hb Hst Hf Hc Hr]. rewrite Hs in Hr. destruct Hr as (-> & ->). rewrite app_nil_r in Hb.
  unfold round, norm_step. rewrite (buf_read _ _ _ _ Hb), Hs. cbn [mbind option_bind].
  destruct rest as [|c rest]; simpl hd; [left; exists n; split; [done|by apply finished_fields]|].
  right. destruct (Z.eqb_spec c dot) as [->|Hcd]; [|destruct (Z.eqb_spec c slash) as [->|Hcs]].
  - exists (set_state DOTDOT n), st, [], (dot :: rest). split; [done|]. split; [|unfold measure; rewrite Hs; simpl; lia].
    apply machine_look; [done|done|done|rewrite Hs; simpl; lia|]. split; [by eexists|done].
  - exists (set_state SEEN_SEP (inc_pos n)), st, [], rest. split; [done|]. split; [|unfold measure; simpl; rewrite Hs; simpl; lia].
    eapply machine_consume; [done|done|done|simpl; lia|]. done.
  - rewrite (proj2 (Z.eqb_neq c 0)) by set_solver.
    destruct (buf_emit_mid n _ _ tail dot Hb) as (n' & -> & Es & Hb'); [rewrite Hs; simpl; lia|]. cbn [mbind option_bind].
    exists (set_state IN_FIELD n'), st, [dot], (c :: rest). split; [done|]. split; [|unfold measure; rewrite Hs; simpl; lia].
    apply (machine_dotted n' st 0); [apply Hb'; rewrite Hs; simpl; lia|done|done|done|]. intros g. by apply add_dotted.
Qed.

(** [..] *)
Lemma fbuf_up n st rest tail o :
  buf n (text st) rest tail -> st_ok st -> o = length (text (up st)) -> (exists mid, text st = text (up st) ++ mid) ->
  buf (set_state SEEN_SEP (set_outpos o n)) (text (up st)) rest tail.
Proof.
  intros (mid & Hp & Ho & Hpos & _) Hst -> [mid' E]. exists (mid' ++ mid). simpl.
  rewrite Hp, E. rewrite Hpos, E, !length_app. split; [by rewrite <- !app_assoc|]. split; [done|]. split; lia.
Qed.

Lemma up_ok st : st_ok st -> st_ok (up st).
Proof.
  destruct st as [a fs]. destruct fs as [|f fs _] using rev_ind; [done|]. rewrite up_push. unfold st_ok. simpl.
  intros H. by apply Forall_app in H as [H _].
Qed.

Lemma round_seen_dotdot n st f rest tail R :
  n_state n = SEEN_DOTDOT -> machine n st f rest tail R -> round n tail R (measure n rest).
Proof.
  intros Hs [Hb Hst Hf Hc Hr]. rewrite Hs in Hr. destruct Hr as (-> & ->). rewrite app_nil_r in Hb.
  unfold round, norm_step. rewrite (buf_read _ _ _ _ Hb), Hs. cbn [mbind option_bind].
  destruct (buf_back n st rest tail Hb Hst) as (o & Eo & Ho & Hm). rewrite Eo. cbn [mbind option_bind].
  pose proof (fbuf_up n st rest tail o Hb Hst Ho Hm) as Hup. pose proof (up_ok st Hst) as Hok.
  destruct rest as [|c rest]; simpl hd.
  { left. eexists. split; [done|]. destruct (buf_done _ _ _ Hup) as (mid & Hp & Hop). exists (up st), [].
    rewrite app_nil_r. split; [by exists mid|]. split; [unfold no_slash; set_solver|]. by left. }
  right. destruct (Z.eqb_spec c slash) as [->|Hcs]; simpl orb.
  - exists (set_state SEEN_SEP (inc_pos (set_state SEEN_SEP (set_outpos o n)))), (up st), [], rest. split; [done|].
    split; [|unfold measure; simpl; rewrite Hs; simpl; lia].
    eapply machine_consume; [done|done|done|simpl; lia|]. done.
  - rewrite (proj2 (Z.eqb_neq c 0)) by set_solver. cbv iota.
    destruct (buf_emit_mid n _ _ tail dot Hb) as (n1 & -> & Es1 & Hb1); [rewrite Hs; simpl; lia|]. cbn [mbind option_bind].
    assert (buf (set_state SEEN_DOT n1) (text st ++ [dot]) (c :: rest) tail) as Hb1' by (apply Hb1; rewrite Hs; simpl; lia).
    destruct (buf_emit_mid _ _ _ tail dot Hb1') as (n2 & E2 & Es2 & Hb2); [simpl; lia|].
    assert (exists n3, emit dot n1 = Some n3 /\ set_state IN_FIELD n3 = set_state IN_FIELD n2) as (n3 & -> & E3).
    { revert E2. unfold emit. cbn [set_state n_outpos n_path n_state n_pos].
      destruct (n_outpos n1 <? length (n_path n1))%nat; intros E; [|done]. injection E as <-. by eexists. }
    cbn [mbind option_bind]. rewrite E3.
    exists (set_state IN_FIELD n2), st, [dot; dot], (c :: rest). split; [done|]. split; [|unfold measure; rewrite Hs; simpl; lia].
    apply (machine_dotted n2 st 1); [|done|done|done|intros g; apply add_dotdotted].
    specialize (Hb2 IN_FIELD ltac:(simpl; lia)). by rewrite <- app_assoc in Hb2.
Qed.

Lemma machine_round n st f rest tail R : machine n st f rest tail R -> round n tail R (measure n rest).
Proof.
  intros H. destruct (n_state n) eqn:Hs;
    eauto using round_initial, round_field_start, round_in_field, round_sep, round_seen_sep, round_dot, round_seen_dot, round_seen_dotdot.
Qed.

Lemma norm_loop_run fuel n st f rest tail R :
  (measure n rest < fuel)%nat -> machine n st f rest tail R ->
  exists n', norm_loop fuel n = Some n' /\ finished n' tail R.
Proof.
  revert n st f rest. induction fuel as [|fuel IH]; intros n st f rest Hf Hm; [lia|]. simpl.
  destruct (machine_round _ _ _ _ _ _ Hm) as [(n' & -> & Hfin)|(n' & st' & f' & rest' & -> & Hm' & Hlt)]; simpl.
  - by exists n'.
  - eapply IH; [|done]. lia.
Qed.

(** The slash at the end goes. *)
Lemma trim_slash n tail R :
  finished n tail R ->
  exists o, (if (0 <? n_outpos n)%nat then
       c ← n_path n !! (n_outpos n - 1)%nat; Some (if c =? slash then (n_outpos n - 1)%nat else n_outpos n)
     else Some (n_outpos n)) = Some o /\ fbuf (set_outpos o n) (path_text R) tail.
Proof.
  intros (st & f & (mid & Hp & Ho) & Hf & Hcase).
  assert (forall t x, text st ++ f = t ++ [x] -> n_path n !! (n_outpos n - 1)%nat = Some x) as Hlast.
  { intros t x E. rewrite Ho, Hp, E, length_app. simpl. replace (length t + 1 - 1)%nat with (length t) by lia.
    rewrite <- app_assoc. by apply list_lookup_middle. }
  destruct Hcase as [[-> ->]|[Hne ->]].
  - rewrite app_nil_r in *. unfold path_text. destruct (text_last st) as [E|[t E]].
    + rewrite Ho, E. exists 0%nat. split; [done|]. exists mid. simpl. rewrite Hp, E. done.
    + exists (length t). rewrite (Hlast t slash E). rewrite Ho, E, length_app. simpl.
      rewrite (proj2 (Nat.ltb_lt _ _)) by lia. split; [f_equal; lia|]. exists (slash :: mid). simpl.
      rewrite Hp, E, removelast_last. split; [by rewrite <- app_assoc|done].
  - rewrite path_text_push. destruct f as [|x f _] using rev_ind; [done|]. unfold no_slash in Hf.
    exists (n_outpos n). rewrite (Hlast (text st ++ f) x) by (by rewrite app_assoc).
    rewrite Ho, !length_app. simpl. rewrite (proj2 (Nat.ltb_lt _ _)) by lia. simpl.
    rewrite (proj2 (Z.eqb_neq _ _)) by set_solver. split; [done|]. exists mid. simpl.
    rewrite Hp, !length_app. simpl. done.
Qed.

(** The buffer keeps its length. *)
Lemma emit_length y n n' : emit y n = Some n' -> length (n_path n') = length (n_path n).
Proof. unfold emit. intros E. destruct (_ <? _)%nat; simplify_eq; simpl. by rewrite length_insert. Qed.

Lemma norm_step_length n n' d : norm_step n = Some (n', d) -> length (n_path n') = length (n_path n).
Proof.
  unfold norm_step. intros H. destruct (n_path n !! n_pos n) as [c|]; simpl in H; [|done].
  assert (forall n1 n2, emit dot n = Some n1 -> emit dot n1 = Some n2 -> length (n_path n2) = length (n_path n)) as H2
    by (intros n1 n2 E1 E2; by rewrite (emit_length _ _ _ E2), (emit_length _ _ _ E1)).
  destruct (n_state n); repeat (case_match || simplify_option_eq); simpl; try done;
    first [by eapply emit_length | by eapply H2 | match goal with E : emit _ (inc_pos _) = Some _ |- _ => by apply emit_length in E end].
Qed.

Lemma norm_loop_length fuel n n' : norm_loop fuel n = Some n' -> length (n_path n') = length (n_path n).
Proof.
  revert n. induction fuel as [|fuel IH]; intros n H; [done|]. simpl in H.
  destruct (norm_step n) as [[n1 d]|] eqn:E; simpl in H; [|done]. apply norm_step_length in E.
  destruct d; [by simplify_eq|]. by rewrite (IH n1 H).
Qed.

Lemma fs_normalize_path_run l tail :
  0 ∉ l ->
  exists junk, fs_normalize_path (l ++ 0 :: tail) = Some (path_text (normal l) ++ 0 :: junk ++ tail) /\
    length (path_text (normal l) ++ 0 :: junk) = length (l ++ [0]).
Proof.
  intros Hl. unfold fs_normalize_path.
  destruct (norm_loop_run (4 * length (l ++ 0 :: tail) + 4) (Norm INITIAL 0 0 (l ++ 0 :: tail)) (false, []) [] l tail (normal l))
    as (n & En & Hfin).
  - unfold measure. rewrite length_app. simpl. lia.
  - split; [by exists []|constructor|unfold no_slash; set_solver|done|by repeat split].
  - rewrite En. cbn [mbind option_bind].
    destruct (trim_slash n tail (normal l) Hfin) as (o & -> & mid & Hp & Ho). cbn [mbind option_bind].
    apply norm_loop_length in En. simpl in En, Hp, Ho. unfold emit. simpl. rewrite Hp, Ho in *.
    rewrite (proj2 (Nat.ltb_lt _ _)) by (rewrite !length_app; simpl; lia). cbn [mbind option_bind n_path].
    rewrite insert_app_r_alt by lia. rewrite Nat.sub_diag. rewrite !length_app in En. simpl in En.
    destruct mid as [|x mid]; simpl; [exists []|exists (mid ++ [0])]; simpl; rewrite ?length_app; simpl in *;
      rewrite <- ?app_assoc; (split; [done|]); rewrite ?length_app in *; simpl in *; lia.
Qed.

(** ** Normal paths *)

(** A field that stands for itself *)
Definition plain_field (f : list Z) : Prop := f <> [] /\ f <> [dot] /\ f <> [dot; dot] /\ no_slash f.

Lemma split_fields l : Forall no_slash (split_path l).
Proof.
  unfold no_slash. induction l as [|c l IH]; simpl; [repeat constructor; set_solver|].
  destruct (Z.eqb_spec c slash) as [->|Hc]; [constructor; [set_solver|done]|].
  destruct (split_path l) as [|f fs]; [repeat constructor; set_solver|]. inversion IH; subst. constructor; [set_solver|done].
Qed.

Lemma add_field_plain st f : Forall plain_field st.2 -> no_slash f -> Forall plain_field (add_field st f).2.
Proof.
  intros Hst Hf. unfold add_field. case_bool_decide as H1; [done|]. case_bool_decide as H2.
  - destruct st as [a fs]. destruct fs as [|g fs _] using rev_ind; [done|]. rewrite up_push. simpl in *.
    by apply Forall_app in Hst as [Hst _].
  - simpl. apply Forall_app. split; [done|]. apply Forall_singleton. unfold plain_field. naive_solver.
Qed.

Lemma normal_fields l : Forall plain_field (normal l).2.
Proof.
  unfold normal. pose proof (split_fields l) as Hs. revert Hs.
  assert (Forall plain_field (starts_slash l, @nil (list Z)).2) as H0 by constructor. revert H0.
  generalize (starts_slash l, @nil (list Z)). induction (split_path l) as [|f fs IH]; intros st Hst Hs; [done|].
  inversion Hs; subst. apply IH; [by apply add_field_plain|done].
Qed.

Lemma split_path_app f l : no_slash f -> split_path (f ++ slash :: l) = f :: split_path l.
Proof.
  unfold no_slash. induction f as [|c f IH]; intros Hf; [done|]. cbn [app].
  destruct (split_path_cons c (f ++ slash :: l)) as (g & gs & E & ->); [set_solver|]. rewrite IH in E by set_solver. by injection E as <- <-.
Qed.

Lemma split_path_one f : no_slash f -> split_path f = [f].
Proof.
  unfold no_slash. induction f as [|c f IH]; intros Hf; [done|].
  destruct (split_path_cons c f) as (g & gs & E & ->); [set_solver|]. rewrite IH in E by set_solver. by injection E as <- <-.
Qed.

Lemma split_text fs f :
  Forall no_slash (fs ++ [f]) -> split_path (concat ((fun g => g ++ [slash]) <$> fs) ++ f) = fs ++ [f].
Proof.
  induction fs as [|g fs IH]; intros H; inversion H; subst; [by apply split_path_one|].
  rewrite fmap_cons. cbn [concat app]. rewrite <- !app_assoc. cbn [app]. rewrite split_path_app by done. by rewrite IH.
Qed.

Lemma foldl_plain fs st : Forall plain_field fs -> foldl add_field st fs = (st.1, st.2 ++ fs).
Proof.
  revert st. induction fs as [|f fs IH]; intros st H; simpl; [rewrite app_nil_r; by destruct st|]. inversion H as [|? ? Hf Hfs]; subst.
  assert (add_field st f = push st f) as ->.
  { unfold add_field. destruct Hf as (? & ? & ? & _). rewrite !bool_decide_false; naive_solver. }
  rewrite IH by done. unfold push. simpl. by rewrite <- app_assoc.
Qed.

(** A normal path is its own normal form. *)
Lemma normal_idempotent l : path_text (normal (path_text (normal l))) = path_text (normal l).
Proof.
  pose proof (normal_fields l) as Hp. destruct (normal l) as [a fs]. simpl in Hp.
  destruct fs as [|f fs _] using rev_ind; [by destruct a|].
  change (a, fs ++ [f]) with (push (a, fs) f). rewrite path_text_push. unfold text. simpl.
  assert (Forall no_slash (fs ++ [f])) as Hn by (eapply Forall_impl; [done|]; by intros ? (_ & _ & _ & ?)).
  pose proof (split_text fs f Hn) as Hsp. set (t := concat _) in *.
  destruct a; simpl.
  - unfold normal. simpl starts_slash. rewrite split_path_slash, Hsp. simpl foldl. rewrite foldl_plain by done. simpl.
    change (true, fs ++ [f]) with (push (true, fs) f). by rewrite path_text_push.
  - assert (starts_slash (t ++ f) = false) as E.
    { assert (exists c g fs', fs ++ [f] = (c :: g) :: fs' /\ c <> slash) as (c & g & fs' & E1 & Hc).
      { destruct (fs ++ [f]) as [|[|c g] fs'] eqn:E1; [by destruct fs| |]; inversion Hp as [|? ? Hf]; subst; [by destruct Hf|].
        exists c, g, fs'. split; [done|]. destruct Hf as (_ & _ & _ & Hf). unfold no_slash in Hf. set_solver. }
      destruct (t ++ f) as [|x r]; [done|]. simpl. apply Z.eqb_neq. intros ->. rewrite split_path_slash, E1 in Hsp. done. }
    unfold normal. rewrite E, Hsp, foldl_plain by done. simpl.
    change (false, fs ++ [f]) with (push (false, fs) f). by rewrite path_text_push.
Qed.
