(* ===== verification/Fs.v ===== *)
(** * The file system layer: mounts and handles of [lib/fs/fs.c]

    File system drivers are tables of functions over a state [W] of their own; the
    ones a driver may leave out are options.  Paths and names are the characters of
    C strings without the zero.  A mount or a handle is named by the order in which
    it was allocated; using one that is freed, or calling a function a driver does
    not have, is a fault ([None]).  Arguments [malloc_ok] say whether there is
    memory.  The devices are those of BioReg. *)
From S2P Require Import Prelude KState Bio BioReg FsPath.

Definition FS_MAX_PATH_LEN : Z := 128.
Definition ERR_BAD_PATH : Z := -18.
Definition ERR_ALREADY_MOUNTED : Z := -19.

(** [capacity] is left out: memfs does not set it. *)
Record file_stat := FileStat { st_is_dir : bool; st_size : Z }.
Record fs_stat := FsStat { fst_free_space : Z; fst_total_space : Z; fst_free_inodes : Z; fst_total_inodes : Z }.

(** ** Drivers *)
Section driver.
Context (W : Type).
Definition dm (A : Type) : Type := W -> option (A * W).

(** A cookie is what the driver names a mount, a file or a directory by; a status
    comes with what is stored through the pointer argument. *)
Record fs_api := FsApi {
  api_format : option (option Z -> dm Z);
  api_fs_stat : option (Z -> dm (Z * fs_stat));
  api_mount : option Z -> dm (Z * Z);
  api_unmount : Z -> dm Z;
  api_open : Z -> list Z -> dm (Z * Z);
  api_create : option (Z -> list Z -> Z -> dm (Z * Z));
  api_remove : option (Z -> list Z -> dm Z);
  api_truncate : option (Z -> Z -> dm Z);
  api_stat : Z -> dm (Z * file_stat);
  api_read : Z -> Z -> Z -> dm (Z * list Z);
  api_write : option (Z -> list Z -> Z -> dm Z);
  api_close : Z -> dm Z;
  api_mkdir : option (Z -> list Z -> dm Z);
  api_opendir : option (Z -> list Z -> dm (Z * Z));
  api_readdir : option (Z -> dm (Z * list Z));
  api_closedir : option (Z -> dm Z);
  api_file_ioctl : option (Z -> Z -> dm Z);
}.

Record fs_mount := FsMount { mt_path : list Z; mt_dev : option Z; mt_cookie : Z; mt_ref : Z; mt_api : fs_api }.

(** [struct filehandle] and [struct dirhandle] *)
Record handle := Handle { hd_cookie : Z; hd_mount : Z }.

Record fstate := FState {
  f_mounts : list Z;                  (* [mounts] *)
  f_mnt : gmap Z fs_mount;
  f_files : gmap Z handle;
  f_dirs : gmap Z handle;
  f_next : Z;
  f_bios : bios;
  f_world : W;
}.
End driver.
Arguments dm : clear implicits.
Arguments api_format {W}. Arguments api_fs_stat {W}. Arguments api_mount {W}. Arguments api_unmount {W}.
Arguments api_open {W}. Arguments api_create {W}. Arguments api_remove {W}. Arguments api_truncate {W}.
Arguments api_stat {W}. Arguments api_read {W}. Arguments api_write {W}. Arguments api_close {W}.
Arguments api_mkdir {W}. Arguments api_opendir {W}. Arguments api_readdir {W}. Arguments api_closedir {W}.
Arguments api_file_ioctl {W}.
Arguments FsMount {W}. Arguments mt_path {W}. Arguments mt_dev {W}. Arguments mt_cookie {W}. Arguments mt_ref {W}. Arguments mt_api {W}.
Arguments FState {W}. Arguments f_mounts {W}. Arguments f_mnt {W}. Arguments f_files {W}. Arguments f_dirs {W}.
Arguments f_next {W}. Arguments f_bios {W}. Arguments f_world {W}.

(** The string in a buffer *)
Fixpoint cut_zero (l : list Z) : list Z :=
  match l with
  | c :: l => if c =? 0 then [] else c :: cut_zero l
  | [] => []
  end.

Section fs.
Context `{KConfig} {W : Type}.
Implicit Types (s : fstate W) (m : Z).

Definition F (A : Type) : Type := fstate W -> option (A * fstate W).
Definition f_ret {A} (x : A) : F A := fun s => Some (x, s).
Definition f_bind {A B} (f : A -> F B) (c : F A) : F B := fun s => '(x, s) ← c s; f x s.
#[export] Instance f_mret : MRet F := @f_ret.
#[export] Instance f_mbind : MBind F := @f_bind.

Definition f_fault {A} : F A := fun _ => None.
Definition f_get {A} (f : fstate W -> option A) : F A := fun s => x ← f s; Some (x, s).
Definition f_mod (f : fstate W -> fstate W) : F unit := fun s => Some ((), f s).

Definition set_mnt (f : gmap Z (fs_mount W) -> gmap Z (fs_mount W)) s : fstate W :=
  FState (f_mounts s) (f (f_mnt s)) (f_files s) (f_dirs s) (f_next s) (f_bios s) (f_world s).
Definition set_mounts (f : list Z -> list Z) s : fstate W :=
  FState (f (f_mounts s)) (f_mnt s) (f_files s) (f_dirs s) (f_next s) (f_bios s) (f_world s).
Definition set_files (f : gmap Z handle -> gmap Z handle) s : fstate W :=
  FState (f_mounts s) (f_mnt s) (f (f_files s)) (f_dirs s) (f_next s) (f_bios s) (f_world s).
Definition set_dirs (f : gmap Z handle -> gmap Z handle) s : fstate W :=
  FState (f_mounts s) (f_mnt s) (f_files s) (f (f_dirs s)) (f_next s) (f_bios s) (f_world s).

(** A call of a driver, and of the device layer *)
Definition call {A} (c : dm W A) : F A := fun s =>
  '(x, w) ← c (f_world s);
  Some (x, FState (f_mounts s) (f_mnt s) (f_files s) (f_dirs s) (f_next s) (f_bios s) w).
Definition devices {A} (c : bios -> option (A * bios)) : F A := fun s =>
  '(x, b) ← c (f_bios s);
  Some (x, FState (f_mounts s) (f_mnt s) (f_files s) (f_dirs s) (f_next s) b (f_world s)).
Definition close_dev (dev : Z) : F unit := devices (fun b => b ← bio_close dev b; Some ((), b)).
Definition alloc_id : F Z := fun s =>
  Some (f_next s, FState (f_mounts s) (f_mnt s) (f_files s) (f_dirs s) (f_next s + 1) (f_bios s) (f_world s)).

Definition the_mount m : F (fs_mount W) := f_get (fun s => f_mnt s !! m).
Definition set_mt_ref (r : Z) (mt : fs_mount W) : fs_mount W :=
  FsMount (mt_path mt) (mt_dev mt) (mt_cookie mt) r (mt_api mt).

(** ** Mounts *)

(** The first mount whose path is a prefix of this one in whole fields, and what is
    left of the path *)
Fixpoint mount_walk (path : list Z) (l : list Z) : F (option (Z * list Z)) :=
  match l with
  | [] => mret None
  | m :: l =>
      mount ← the_mount m;
      let pathlen := length (mt_path mount) in
      if (length path <? pathlen)%nat then mount_walk path l
      else if bool_decide (take pathlen path = mt_path mount) then
        match drop pathlen path with
        | (c :: _) as trimmed_path => if c =? slash then mret (Some (m, trimmed_path)) else mount_walk path l
        | [] => mret (Some (m, [slash]))
        end
      else mount_walk path l
  end.
Definition find_mount (path : list Z) : F (option (Z * list Z)) :=
  if negb (starts_slash path) then mret None
  else
    l ← f_get (fun s => Some (f_mounts s));
    r ← mount_walk path l;
    match r with
    | Some (m, trimmed_path) =>
        mount ← the_mount m;
        f_mod (set_mnt (insert m (set_mt_ref (to_signed 32 (mt_ref mount + 1)) mount)));;
        mret r
    | None => mret None
    end.

(** The last reference unmounts. *)
Definition put_mount m : F unit :=
  mount ← the_mount m;
  let ref := to_signed 32 (mt_ref mount - 1) in
  f_mod (set_mnt (insert m (set_mt_ref ref mount)));;
  if ref =? 0 then
    l ← f_get (fun s => Some (f_mounts s));
    (if bool_decide (m ∈ l) then f_mod (set_mounts (filter (fun e => e <> m))) else f_fault);;
    call (api_unmount (mt_api mount) (mt_cookie mount));;
    match mt_dev mount with Some dev => close_dev dev | None => mret () end;;
    f_mod (set_mnt (delete m))
  else mret ().

(** The copy of a path on the stack, normalized *)
Definition temppath (path : list Z) : F (list Z) :=
  let copy := take (Z.to_nat (FS_MAX_PATH_LEN - 1)) path in
  let buf := copy ++ replicate (Z.to_nat FS_MAX_PATH_LEN - length copy) 0 in
  f_get (fun _ => buf ← fs_normalize_path buf; Some (cut_zero buf)).

(** [device && device[0] != '\0'] *)
Definition open_device (device : option string) : F (Z + option Z) :=
  match device with
  | Some name =>
      if bool_decide (name = ""%string) then mret (inr None)
      else
        d ← devices (bio_open name);
        mret (match d with Some dev => inr (Some dev) | None => inl ERR_NOT_FOUND end)
  | None => mret (inr None)
  end.

(** [malloc_ok] for the mount, [strdup_ok] for the copy of its path *)
Definition mount (malloc_ok strdup_ok : bool) (path : list Z) (device : option string) (api : fs_api W) : F Z :=
  temppath ← temppath path;
  if negb (starts_slash temppath) then mret ERR_BAD_PATH
  else
    found ← find_mount temppath;
    match found with
    | Some (m, _) => put_mount m;; mret ERR_ALREADY_MOUNTED
    | None =>
        dev ← open_device device;
        match dev with
        | inl err => mret err
        | inr dev =>
            '(err, cookie) ← call (api_mount api dev);
            let close := match dev with Some dev => close_dev dev | None => mret () end in
            if err <? 0 then close;; mret err
            else if negb (malloc_ok && strdup_ok) then close;; mret ERR_NO_MEMORY
            else
              m ← alloc_id;
              f_mod (set_mnt (insert m (FsMount temppath dev cookie 1 api)));;
              f_mod (set_mounts (cons m));;
              mret 0
        end
    end.

Context (fs_impls : list (string * fs_api W)).

Definition find_fs (name : string) : option (fs_api W) :=
  snd <$> head (filter (fun fs => fs.1 = name) fs_impls).

(** The device stays open. *)
Definition fs_format_device (fsname : string) (device : option string) : F Z :=
  match find_fs fsname with
  | None => mret ERR_NOT_FOUND
  | Some api =>
      match api_format api with
      | None => mret ERR_NOT_SUPPORTED
      | Some format =>
          dev ← open_device device;
          match dev with inl err => mret err | inr dev => call (format dev) end
      end
  end.

Definition fs_mount_at (malloc_ok strdup_ok : bool) (path : list Z) (fsname : string) (device : option string) : F Z :=
  match find_fs fsname with
  | None => mret ERR_NOT_FOUND
  | Some api => mount malloc_ok strdup_ok path device api
  end.

Definition fs_unmount (path : list Z) : F Z :=
  temppath ← temppath path;
  found ← find_mount temppath;
  match found with
  | None => mret ERR_NOT_FOUND
  | Some (m, _) => put_mount m;; put_mount m;; mret 0
  end.

(** ** Files *)

(** What the functions that take a path have in common: [body] with the mount and
    what is left of the path, and the reference to the mount *)
Definition with_mount {A} (path : list Z) (none : A) (body : Z -> fs_mount W -> list Z -> F A) : F A :=
  found ← find_mount path;
  match found with
  | None => mret none
  | Some (m, newpath) => mount ← the_mount m; body m mount newpath
  end.

Definition new_file (cookie m : Z) : F Z :=
  f ← alloc_id; f_mod (set_files (insert f (Handle cookie m)));; mret f.
Definition new_dir (cookie m : Z) : F Z :=
  d ← alloc_id; f_mod (set_dirs (insert d (Handle cookie m)));; mret d.

Definition fs_open_file (malloc_ok : bool) (path : list Z) : F (Z * option Z) :=
  temppath ← temppath path;
  with_mount temppath (ERR_NOT_FOUND, None) (fun m mount newpath =>
    '(err, cookie) ← call (api_open (mt_api mount) (mt_cookie mount) newpath);
    if err <? 0 then put_mount m;; mret (err, None)
    else if negb malloc_ok then f_fault
    else f ← new_file cookie m; mret (0, Some f)).

Definition fs_create_file (malloc_ok : bool) (path : list Z) (len : Z) : F (Z * option Z) :=
  temppath ← temppath path;
  with_mount temppath (ERR_NOT_FOUND, None) (fun m mount newpath =>
    match api_create (mt_api mount) with
    | None => put_mount m;; mret (ERR_NOT_SUPPORTED, None)
    | Some create =>
        '(err, cookie) ← call (create (mt_cookie mount) newpath len);
        if err <? 0 then put_mount m;; mret (err, None)
        else if negb malloc_ok then put_mount m;; mret (err, None)
        else f ← new_file cookie m; mret (0, Some f)
    end).

Definition fs_remove_file (path : list Z) : F Z :=
  temppath ← temppath path;
  with_mount temppath ERR_NOT_FOUND (fun m mount newpath =>
    match api_remove (mt_api mount) with
    | None => put_mount m;; mret ERR_NOT_SUPPORTED
    | Some remove => err ← call (remove (mt_cookie mount) newpath); put_mount m;; mret err
    end).

(** An open file, and the mount it is on *)
Definition the_file (f : Z) : F (handle * fs_mount W) :=
  hd ← f_get (fun s => f_files s !! f); mount ← the_mount (hd_mount hd); mret (hd, mount).
Definition the_dir (d : Z) : F (handle * fs_mount W) :=
  hd ← f_get (fun s => f_dirs s !! d); mount ← the_mount (hd_mount hd); mret (hd, mount).

Definition fs_file_ioctl (f request : Z) : F Z :=
  '(hd, mount) ← the_file f;
  match api_file_ioctl (mt_api mount) with
  | None => mret ERR_INVALID_ARGS
  | Some file_ioctl => call (file_ioctl (hd_cookie hd) request)
  end.
Definition fs_truncate_file (f len : Z) : F Z :=
  '(hd, mount) ← the_file f;
  match api_truncate (mt_api mount) with
  | None => f_fault
  | Some truncate => call (truncate (hd_cookie hd) len)
  end.
Definition fs_read_file (f offset len : Z) : F (Z * list Z) :=
  '(hd, mount) ← the_file f; call (api_read (mt_api mount) (hd_cookie hd) offset len).
Definition fs_write_file (f : Z) (buf : list Z) (offset : Z) : F Z :=
  '(hd, mount) ← the_file f;
  match api_write (mt_api mount) with
  | None => mret ERR_NOT_SUPPORTED
  | Some write => call (write (hd_cookie hd) buf offset)
  end.
Definition fs_close_file (f : Z) : F Z :=
  '(hd, mount) ← the_file f;
  err ← call (api_close (mt_api mount) (hd_cookie hd));
  if err <? 0 then mret err
  else put_mount (hd_mount hd);; f_mod (set_files (delete f));; mret 0.
Definition fs_stat_file (f : Z) : F (Z * file_stat) :=
  '(hd, mount) ← the_file f; call (api_stat (mt_api mount) (hd_cookie hd)).

(** ** Directories *)
Definition fs_make_dir (path : list Z) : F Z :=
  temppath ← temppath path;
  with_mount temppath ERR_NOT_FOUND (fun m mount newpath =>
    match api_mkdir (mt_api mount) with
    | None => put_mount m;; mret ERR_NOT_SUPPORTED
    | Some mkdir => err ← call (mkdir (mt_cookie mount) newpath); put_mount m;; mret err
    end).

Definition fs_open_dir (malloc_ok : bool) (path : list Z) : F (Z * option Z) :=
  temppath ← temppath path;
  with_mount temppath (ERR_NOT_FOUND, None) (fun m mount newpath =>
    match api_opendir (mt_api mount) with
    | None => put_mount m;; mret (ERR_NOT_SUPPORTED, None)
    | Some opendir =>
        '(err, cookie) ← call (opendir (mt_cookie mount) newpath);
        if err <? 0 then put_mount m;; mret (err, None)
        else if negb malloc_ok then put_mount m;; mret (ERR_NO_MEMORY, None)
        else d ← new_dir cookie m; mret (0, Some d)
    end).

Definition fs_read_dir (d : Z) : F (Z * list Z) :=
  '(hd, mount) ← the_dir d;
  match api_readdir (mt_api mount) with
  | None => mret (ERR_NOT_SUPPORTED, [])
  | Some readdir => call (readdir (hd_cookie hd))
  end.
Definition fs_close_dir (d : Z) : F Z :=
  '(hd, mount) ← the_dir d;
  match api_closedir (mt_api mount) with
  | None => mret ERR_NOT_SUPPORTED
  | Some closedir =>
      err ← call (closedir (hd_cookie hd));
      if err <? 0 then mret err
      else put_mount (hd_mount hd);; f_mod (set_dirs (delete d));; mret 0
  end.

(** The path is taken as it is. *)
Definition fs_stat_fs (mountpoint : list Z) : F (Z * option fs_stat) :=
  with_mount mountpoint (ERR_NOT_FOUND, None) (fun m mount _ =>
    match api_fs_stat (mt_api mount) with
    | None => put_mount m;; mret (ERR_NOT_SUPPORTED, None)
    | Some fs_stat => '(result, stat) ← call (fs_stat (mt_cookie mount)); put_mount m;; mret (result, Some stat)
    end).

Definition fs_load_file (malloc_ok : bool) (path : list Z) (maxlen : Z) : F (Z * list Z) :=
  '(err, handle) ← fs_open_file malloc_ok path;
  match handle with
  | Some handle =>
      '(_, stat) ← fs_stat_file handle;
      r ← fs_read_file handle 0 (Z.min maxlen (st_size stat));
      fs_close_file handle;;
      mret r
  | None => mret (err, [])
  end.
End fs.
