(* ===== verification/FsInv.v ===== *)
(** * The invariant of the file system layer

    A mount is referenced once by the one who mounted it, once by each open file
    and directory on it, and once by each operation under way; it is freed with its
    last reference, and holds one reference to its device.  Drivers are any that
    keep the laws of [FsLaws]. *)
From S2P Require Import Prelude KState Bio BioReg BioRegInv FsPath Fs.

(** ** Counting *)
Section count.
Context {A : Type} (P : A -> Prop) `{!forall x, Decision (P x)}.
Definition count (m : gmap Z A) : nat := size (filter (fun kv => P kv.2) m).

Lemma count_insert_new m k x : m !! k = None -> count (<[k := x]> m) = ((if decide (P x) then 1 else 0) + count m)%nat.
Proof.
  intros Hk. unfold count. rewrite map_filter_insert. simpl. case_decide.
  - rewrite map_size_insert_None; [done|]. apply map_lookup_filter_None. by left.
  - by rewrite delete_id.
Qed.

Lemma count_delete m k x : m !! k = Some x -> count m = ((if decide (P x) then 1 else 0) + count (delete k m))%nat.
Proof.
  intros Hk. rewrite <- (insert_delete_id m k x Hk) at 1. by rewrite count_insert_new by apply lookup_delete_eq.
Qed.

Lemma count_insert_same m k x y : m !! k = Some x -> (P y <-> P x) -> count (<[k := y]> m) = count m.
Proof.
  intros Hk Hxy. rewrite (count_delete m k x Hk), (count_delete (<[k := y]> m) k y) by apply lookup_insert_eq.
  rewrite delete_insert_eq. by repeat case_decide; try tauto.
Qed.

Lemma count_zero m k x : count m = 0%nat -> m !! k = Some x -> ~ P x.
Proof. intros H0 Hk HP. rewrite (count_delete m k x Hk) in H0. case_decide; [lia|done]. Qed.

Lemma count_none m : (forall k x, m !! k = Some x -> ~ P x) -> count m = 0%nat.
Proof.
  intros Hn. unfold count. apply map_size_empty_iff, map_empty. intros k. apply map_lookup_filter_None. right.
  intros x Hk. by eapply Hn.
Qed.

Lemma count_pos m : (0 < count m)%nat -> exists k x, m !! k = Some x /\ P x.
Proof.
  unfold count. intros Hs. destruct (map_choose (filter (fun kv => P kv.2) m)) as (k & x & E).
  - intros E. rewrite E, map_size_empty in Hs. lia.
  - apply map_lookup_filter_Some in E. eauto.
Qed.
End count.

(** ** Drivers *)
Section laws.
Context {W : Type} (impls : list (string * fs_api W)).

(** [wi w M Fo Do]: in state [w] the mounts [M] exist, each of a driver, the files
    [Fo] and the directories [Do] are open; an open one is given by the cookie of
    its mount and its own, under a name of the caller's. *)
Class FsLaws := {
  wi : W -> gmap Z string -> gmap Z (Z * Z) -> gmap Z (Z * Z) -> Prop;
  law_mount name api dev w M Fo Do : find_fs impls name = Some api -> wi w M Fo Do ->
    exists st c w', api_mount api dev w = Some ((st, c), w') /\
      (st < 0 -> wi w' M Fo Do) /\ (0 <= st -> M !! c = None /\ wi w' (<[c := name]> M) Fo Do);
  law_unmount name api c w M Fo Do : find_fs impls name = Some api -> M !! c = Some name -> wi w M Fo Do ->
    (forall k p, Fo !! k = Some p \/ Do !! k = Some p -> p.1 <> c) ->
    exists st w', api_unmount api c w = Some (st, w') /\ wi w' (delete c M) Fo Do;
  law_open name api c path w M Fo Do : find_fs impls name = Some api -> M !! c = Some name -> wi w M Fo Do ->
    exists st fc w', api_open api c path w = Some ((st, fc), w') /\
      (st < 0 -> wi w' M Fo Do) /\ (0 <= st -> forall k, Fo !! k = None -> wi w' M (<[k := (c, fc)]> Fo) Do);
  law_create name api c path len w M Fo Do create : find_fs impls name = Some api -> M !! c = Some name -> wi w M Fo Do ->
    api_create api = Some create -> 0 <= len ->
    exists st fc w', create c path len w = Some ((st, fc), w') /\
      (st < 0 -> wi w' M Fo Do) /\ (0 <= st -> forall k, Fo !! k = None -> wi w' M (<[k := (c, fc)]> Fo) Do);
  law_remove name api c path w M Fo Do remove : find_fs impls name = Some api -> M !! c = Some name -> wi w M Fo Do ->
    (forall k p, Fo !! k = Some p \/ Do !! k = Some p -> p.1 <> c) ->
    api_remove api = Some remove -> exists st w', remove c path w = Some (st, w') /\ wi w' M Fo Do;
  law_truncate name api c fc len w M Fo Do k : find_fs impls name = Some api -> M !! c = Some name -> wi w M Fo Do ->
    Fo !! k = Some (c, fc) -> 0 <= len ->
    exists truncate st w', api_truncate api = Some truncate /\ truncate fc len w = Some (st, w') /\ wi w' M Fo Do;
  law_stat name api c fc w M Fo Do k : find_fs impls name = Some api -> M !! c = Some name -> wi w M Fo Do ->
    Fo !! k = Some (c, fc) -> exists r w', api_stat api fc w = Some (r, w') /\ wi w' M Fo Do /\ 0 <= st_size r.2;
  law_read name api c fc off len w M Fo Do k : find_fs impls name = Some api -> M !! c = Some name -> wi w M Fo Do ->
    Fo !! k = Some (c, fc) -> off + len < 2 ^ 63 -> 0 <= len -> exists r w', api_read api fc off len w = Some (r, w') /\ wi w' M Fo Do;
  law_write name api c fc buf off w M Fo Do k write : find_fs impls name = Some api -> M !! c = Some name -> wi w M Fo Do ->
    Fo !! k = Some (c, fc) -> off + Z.of_nat (length buf) < 2 ^ 63 -> api_write api = Some write ->
    exists r w', write fc buf off w = Some (r, w') /\ wi w' M Fo Do;
  law_close name api c fc w M Fo Do k : find_fs impls name = Some api -> M !! c = Some name -> wi w M Fo Do ->
    Fo !! k = Some (c, fc) ->
    exists st w', api_close api fc w = Some (st, w') /\ (st < 0 -> wi w' M Fo Do) /\ (0 <= st -> wi w' M (delete k Fo) Do);
  law_mkdir name api c path w M Fo Do mkdir : find_fs impls name = Some api -> M !! c = Some name -> wi w M Fo Do ->
    api_mkdir api = Some mkdir -> exists st w', mkdir c path w = Some (st, w') /\ wi w' M Fo Do;
  law_opendir name api c path w M Fo Do opendir : find_fs impls name = Some api -> M !! c = Some name -> wi w M Fo Do ->
    api_opendir api = Some opendir ->
    exists st dc w', opendir c path w = Some ((st, dc), w') /\
      (st < 0 -> wi w' M Fo Do) /\ (0 <= st -> forall k, Do !! k = None -> wi w' M Fo (<[k := (c, dc)]> Do));
  law_fs_stat name api c w M Fo Do fs_stat : find_fs impls name = Some api -> M !! c = Some name -> wi w M Fo Do ->
    api_fs_stat api = Some fs_stat -> exists r w', fs_stat c w = Some (r, w') /\ wi w' M Fo Do;
  law_ioctl name api c fc request w M Fo Do k file_ioctl : find_fs impls name = Some api -> M !! c = Some name -> wi w M Fo Do ->
    Fo !! k = Some (c, fc) -> api_file_ioctl api = Some file_ioctl ->
    exists r w', file_ioctl fc request w = Some (r, w') /\ wi w' M Fo Do;
  law_format name api dev w M Fo Do format : find_fs impls name = Some api -> wi w M Fo Do -> api_format api = Some format ->
    exists st w', format dev w = Some (st, w') /\ wi w' M Fo Do;
  law_readdir name api c dc w M Fo Do k readdir : find_fs impls name = Some api -> M !! c = Some name -> wi w M Fo Do ->
    Do !! k = Some (c, dc) -> api_readdir api = Some readdir -> exists r w', readdir dc w = Some (r, w') /\ wi w' M Fo Do;
  law_closedir name api c dc w M Fo Do k closedir : find_fs impls name = Some api -> M !! c = Some name -> wi w M Fo Do ->
    Do !! k = Some (c, dc) -> api_closedir api = Some closedir ->
    exists st w', closedir dc w = Some (st, w') /\ (st < 0 -> wi w' M Fo Do) /\ (0 <= st -> wi w' M Fo (delete k Do));
}.
End laws.
Arguments wi {W impls _}.

(** ** The invariant *)
Section inv.
Context `{KConfig} {W : Type} {impls : list (string * fs_api W)} `{!FsLaws impls}.
Implicit Types (s : fstate W) (x h : Z -> nat) (M : gmap Z string).

Definition cookie_of s (m : Z) : Z := default 0 (mt_cookie <$> f_mnt s !! m).
Definition opens s (hs : gmap Z handle) : gmap Z (Z * Z) := (fun hd => (cookie_of s (hd_mount hd), hd_cookie hd)) <$> hs.
Definition on (m : Z) (hd : handle) : Prop := hd_mount hd = m.
#[export] Instance on_dec m hd : Decision (on m hd) := decide (hd_mount hd = m).
Definition has_dev (d : Z) (mt : fs_mount W) : Prop := mt_dev mt = Some d.
#[export] Instance has_dev_dec d mt : Decision (has_dev d mt) := decide (mt_dev mt = Some d).

(** [x]: references to mounts held by others than handles; [h]: to devices, by others
    than mounts *)
Record finv x h M s : Prop := {
  fi_nodup : NoDup (f_mounts s);
  fi_list m : m ∈ f_mounts s <-> is_Some (f_mnt s !! m);
  fi_next k : is_Some (f_mnt s !! k) \/ is_Some (f_files s !! k) \/ is_Some (f_dirs s !! k) -> k < f_next s;
  fi_ref m mt : f_mnt s !! m = Some mt ->
    mt_ref mt = Z.of_nat (x m + count (on m) (f_files s) + count (on m) (f_dirs s)) /\ 0 < mt_ref mt < 2 ^ 31;
  fi_x m : (0 < x m)%nat -> is_Some (f_mnt s !! m);
  fi_file k hd : f_files s !! k = Some hd -> is_Some (f_mnt s !! hd_mount hd);
  fi_dir k hd : f_dirs s !! k = Some hd -> is_Some (f_mnt s !! hd_mount hd);
  fi_drv m mt : f_mnt s !! m = Some mt -> exists name, find_fs impls name = Some (mt_api mt) /\ M !! mt_cookie mt = Some name;
  fi_inj m m' mt mt' : f_mnt s !! m = Some mt -> f_mnt s !! m' = Some mt' -> mt_cookie mt = mt_cookie mt' -> m = m';
  fi_dev : reg_inv ∅ (f_bios s) (fun d => (h d + count (has_dev d) (f_mnt s))%nat);
  fi_world : wi (f_world s) M (opens s (f_files s)) (opens s (f_dirs s));
}.

(** Every reference count can be raised. *)
Definition froom s : Prop := forall m mt, f_mnt s !! m = Some mt -> mt_ref mt < 2 ^ 31 - 1.

(** ** Runs *)
Definition runs {A} (c : F A) s (Q : A -> fstate W -> Prop) : Prop := exists r s', c s = Some (r, s') /\ Q r s'.

Lemma runs_ret {A} (r : A) s (Q : A -> fstate W -> Prop) : Q r s -> runs (mret r) s Q.
Proof. intros HQ. by exists r, s. Qed.

Lemma runs_bind {A B} (c : F A) (f : A -> F B) s (Q : B -> fstate W -> Prop) :
  runs c s (fun r s' => runs (f r) s' Q) -> runs (c ≫= f) s Q.
Proof.
  intros (r & s' & E & r' & s'' & E' & HQ). exists r', s''. split; [|done].
  unfold mbind, f_mbind, f_bind. rewrite E. simpl. done.
Qed.

Lemma runs_mono {A} (c : F A) s (Q Q' : A -> fstate W -> Prop) :
  runs c s Q -> (forall r s', Q r s' -> Q' r s') -> runs c s Q'.
Proof. intros (r & s' & E & HQ) HQ'. exists r, s'. auto. Qed.

Lemma runs_get {A} (f : fstate W -> option A) s r (Q : A -> fstate W -> Prop) : f s = Some r -> Q r s -> runs (f_get f) s Q.
Proof. intros E HQ. exists r, s. split; [|done]. unfold f_get. by rewrite E. Qed.

Lemma runs_mod (f : fstate W -> fstate W) s (Q : unit -> fstate W -> Prop) : Q () (f s) -> runs (f_mod f) s Q.
Proof. intros HQ. by exists (), (f s). Qed.

Definition with_world s (w : W) : fstate W := FState (f_mounts s) (f_mnt s) (f_files s) (f_dirs s) (f_next s) (f_bios s) w.
Definition with_bios s (b : bios) : fstate W := FState (f_mounts s) (f_mnt s) (f_files s) (f_dirs s) (f_next s) b (f_world s).

Lemma runs_call {A} (c : dm W A) s r w (Q : A -> fstate W -> Prop) :
  c (f_world s) = Some (r, w) -> Q r (with_world s w) -> runs (call c) s Q.
Proof. intros E HQ. exists r, (with_world s w). split; [|done]. unfold call. by rewrite E. Qed.

Lemma runs_devices {A} (c : bios -> option (A * bios)) s r b (Q : A -> fstate W -> Prop) :
  c (f_bios s) = Some (r, b) -> Q r (with_bios s b) -> runs (devices c) s Q.
Proof. intros E HQ. exists r, (with_bios s b). split; [|done]. unfold devices. by rewrite E. Qed.
End inv.

(** * The operations of the file system layer keep its invariant *)

Section ops.
Context `{KConfig} {W : Type} {impls : list (string * fs_api W)} `{!FsLaws impls}.
Implicit Types (s : fstate W) (x h : Z -> nat) (M : gmap Z string).
Notation finv := (finv (impls := impls)).

(** ** Paths on mounts *)

(** What is left of a path on a mount *)
Definition match_mount (mp path : list Z) : option (list Z) :=
  if bool_decide (take (length mp) path = mp) then
    match drop (length mp) path with
    | [] => Some [slash]
    | (c :: _) as t => if c =? slash then Some t else None
    end
  else None.

(** The first mount that matches *)
Fixpoint resolve (mnt : gmap Z (fs_mount W)) (l path : list Z) : option (Z * list Z) :=
  match l with
  | [] => None
  | m :: l => match mnt !! m ≫= (fun mt => match_mount (mt_path mt) path) with
              | Some t => Some (m, t)
              | None => resolve mnt l path
              end
  end.
Definition find (s : fstate W) (path : list Z) : option (Z * list Z) :=
  if starts_slash path then resolve (f_mnt s) (f_mounts s) path else None.

Lemma mount_walk_run s path l :
  Forall (fun m => is_Some (f_mnt s !! m)) l -> mount_walk path l s = Some (resolve (f_mnt s) l path, s).
Proof.
  induction 1 as [|m l [mt Hm] _ IH]; [done|]. cbn [mount_walk resolve]. unfold the_mount, f_get.
  unfold mbind at 1, f_mbind at 1, f_bind at 1. rewrite Hm. simpl. unfold match_mount.
  destruct (Nat.ltb_spec (length path) (length (mt_path mt))) as [Hlt|Hge].
  - rewrite bool_decide_false; [done|]. intros E. apply (f_equal length) in E. rewrite length_take in E. lia.
  - case_bool_decide; [|done]. destruct (drop _ path) as [|c t]; [done|]. by destruct (c =? slash).
Qed.

Lemma resolve_in mnt l path m t : resolve mnt l path = Some (m, t) -> m ∈ l.
Proof. induction l as [|m' l IH]; simpl; [done|]. case_match; intros; simplify_eq; [left|right; auto]. Qed.

(** ** References *)
Lemma opens_ext s s' hs : (forall k hd, hs !! k = Some hd -> cookie_of s' (hd_mount hd) = cookie_of s (hd_mount hd)) -> opens s' hs = opens s hs.
Proof.
  intros Heq. unfold opens. apply map_eq. intros k. rewrite !lookup_fmap. destruct (hs !! k) as [hd|] eqn:E; [|done].
  simpl. by rewrite (Heq k hd E).
Qed.

Lemma cookie_of_lookup s m mt : f_mnt s !! m = Some mt -> cookie_of s m = mt_cookie mt.
Proof. intros E. unfold cookie_of. by rewrite E. Qed.

(** A change of a reference count *)
Definition with_mref s m r mt : fstate W := set_mnt (insert m (set_mt_ref r mt)) s.

Lemma cookie_of_mref s m r mt k : f_mnt s !! m = Some mt -> cookie_of (with_mref s m r mt) k = cookie_of s k.
Proof.
  intros E. unfold cookie_of. simpl. destruct (decide (k = m)) as [->|Hk].
  - by rewrite lookup_insert_eq, E.
  - by rewrite lookup_insert_ne by done.
Qed.

Lemma finv_mref x x' h M s m mt r :
  finv x h M s -> f_mnt s !! m = Some mt ->
  r = Z.of_nat (x' m + count (on m) (f_files s) + count (on m) (f_dirs s)) -> 0 < r < 2 ^ 31 ->
  (forall k, k <> m -> x' k = x k) -> finv x' h M (with_mref s m r mt).
Proof.
  intros I E Er Hr Hx. assert (forall k, is_Some (f_mnt (with_mref s m r mt) !! k) <-> is_Some (f_mnt s !! k)) as Hd.
  { intros k. simpl. destruct (decide (k = m)) as [->|]; [by rewrite lookup_insert_eq, E; split; eexists|by rewrite lookup_insert_ne]. }
  assert (forall k mt', f_mnt (with_mref s m r mt) !! k = Some mt' ->
    exists mt0, f_mnt s !! k = Some mt0 /\ mt_cookie mt' = mt_cookie mt0 /\ mt_api mt' = mt_api mt0) as Hsame.
  { intros k mt'. simpl. destruct (decide (k = m)) as [->|]; [rewrite lookup_insert_eq|rewrite lookup_insert_ne by done];
      intros; simplify_eq; eauto. }
  split; try apply I.
  - intros k. rewrite Hd. apply I.
  - intros k. rewrite Hd. apply I.
  - intros k mt'. simpl. destruct (decide (k = m)) as [->|Hk].
    + rewrite lookup_insert_eq. intros; simplify_eq. done.
    + rewrite lookup_insert_ne, Hx by done. apply I.
  - intros k Hk. rewrite Hd. destruct (decide (k = m)) as [->|Hne]; [by eexists|]. rewrite Hx in Hk by done.
    exact (fi_x _ _ _ _ I k Hk).
  - intros k hd Ek. rewrite Hd. exact (fi_file _ _ _ _ I k hd Ek).
  - intros k hd Ek. rewrite Hd. exact (fi_dir _ _ _ _ I k hd Ek).
  - intros k mt' Ek. destruct (Hsame _ _ Ek) as (mt0 & E0 & -> & ->). exact (fi_drv _ _ _ _ I k mt0 E0).
  - intros k k' mt1 mt2 E1 E2 Hc. destruct (Hsame _ _ E1) as (? & ? & Hc1 & _), (Hsame _ _ E2) as (? & ? & Hc2 & _).
    eapply (fi_inj _ _ _ _ I); [done|done|congruence].
  - eapply reg_inv_ext; [|exact (fi_dev _ _ _ _ I)]. intros d. simpl. f_equal. symmetry. by eapply count_insert_same.
  - simpl. rewrite (opens_ext s _ (f_files s)), (opens_ext s _ (f_dirs s)) by (intros; by apply cookie_of_mref). exact (fi_world _ _ _ _ I).
Qed.

Lemma find_mount_run x h M s path :
  finv x h M s -> froom s ->
  exists s', find_mount path s = Some (find s path, s') /\
    match find s path with
    | Some (m, _) => exists mt, f_mnt s !! m = Some mt /\ s' = with_mref s m (mt_ref mt + 1) mt /\ finv (htake m x) h M s'
    | None => s' = s
    end.
Proof.
  intros I Hroom. unfold find_mount, find. destruct (starts_slash path); [|by exists s]. simpl negb. cbv iota.
  unfold mbind at 1, f_mbind at 1, f_bind at 1. simpl.
  unfold mbind at 1, f_mbind at 1, f_bind at 1. rewrite mount_walk_run.
  2: { apply Forall_forall. intros m Hm. by apply I. }
  cbv beta iota. simpl. destruct (resolve (f_mnt s) (f_mounts s) path) as [[m t]|] eqn:Er; [|by exists s].
  apply resolve_in, I in Er as [mt Em].
  unfold mbind, f_mbind, f_bind, the_mount, f_get. rewrite Em. simpl. pose proof (Hroom m mt Em) as Hm.
  destruct (fi_ref _ _ _ _ I m mt Em) as [Href Hpos]. rewrite to_signed_small by lia.
  eexists. split; [done|]. exists mt. split; [done|]. split; [done|].
  apply (finv_mref x); try done; [|lia|].
  - rewrite Href. unfold htake. rewrite decide_True by done. lia.
  - intros k Hk. unfold htake. by rewrite decide_False.
Qed.

(** The last reference to a mount *)
Definition gone s m b w : fstate W :=
  FState (filter (fun e => e <> m) (f_mounts s)) (delete m (f_mnt s)) (f_files s) (f_dirs s) (f_next s) b w.

(** Nothing is open on a mount. *)
Definition idle s (m : Z) : Prop := forall k hd, f_files s !! k = Some hd \/ f_dirs s !! k = Some hd -> hd_mount hd <> m.

Lemma idle_opens x h M s m mt :
  finv x h M s -> f_mnt s !! m = Some mt -> idle s m ->
  forall k p, opens s (f_files s) !! k = Some p \/ opens s (f_dirs s) !! k = Some p -> p.1 <> mt_cookie mt.
Proof.
  intros I E Hi k p Hp Hc.
  assert (exists hd mt', (f_files s !! k = Some hd \/ f_dirs s !! k = Some hd) /\ f_mnt s !! hd_mount hd = Some mt' /\
    p.1 = mt_cookie mt') as (hd & mt' & Hk & Em & Ep).
  { destruct Hp as [Hp|Hp]; unfold opens in Hp; rewrite lookup_fmap in Hp;
      apply fmap_Some in Hp as (hd & Ek & ->); exists hd; simpl; unfold cookie_of;
      [destruct (fi_file _ _ _ _ I k hd Ek) as [mt' Em]|destruct (fi_dir _ _ _ _ I k hd Ek) as [mt' Em]];
      exists mt'; rewrite Em; eauto. }
  apply (Hi k hd Hk). eapply (fi_inj _ _ _ _ I); [done|done|congruence].
Qed.

Lemma no_handles x h M s m mt :
  finv x h M s -> f_mnt s !! m = Some mt -> count (on m) (f_files s) = 0%nat -> count (on m) (f_dirs s) = 0%nat ->
  (forall k p, opens s (f_files s) !! k = Some p \/ opens s (f_dirs s) !! k = Some p -> p.1 <> mt_cookie mt) /\ idle s m.
Proof.
  intros I E Hf Hd. assert (idle s m) as Hi; [|split; [by eapply idle_opens|done]].
  intros k hd [Ek|Ek]; [exact (count_zero _ _ _ _ Hf Ek)|exact (count_zero _ _ _ _ Hd Ek)].
Qed.

Lemma finv_gone x h M s m mt b w :
  finv x h M s -> f_mnt s !! m = Some mt -> x m = 1%nat ->
  count (on m) (f_files s) = 0%nat -> count (on m) (f_dirs s) = 0%nat ->
  reg_inv ∅ b (fun d => (h d + count (has_dev d) (delete m (f_mnt s)))%nat) ->
  wi (impls := impls) w (delete (mt_cookie mt) M) (opens s (f_files s)) (opens s (f_dirs s)) ->
  finv (hdrop m x) h (delete (mt_cookie mt) M) (gone s m b w).
Proof.
  intros I E Hx Hf Hd Hb Hw. destruct (no_handles _ _ _ _ _ _ I E Hf Hd) as [_ Hne].
  assert (forall k mt', f_mnt (gone s m b w) !! k = Some mt' <-> f_mnt s !! k = Some mt' /\ k <> m) as Hl.
  { intros k mt'. simpl. rewrite lookup_delete_Some. naive_solver. }
  assert (forall k hd, f_files s !! k = Some hd \/ f_dirs s !! k = Some hd ->
    cookie_of (gone s m b w) (hd_mount hd) = cookie_of s (hd_mount hd)) as Hck.
  { intros k hd Hk. unfold cookie_of. simpl. by rewrite lookup_delete_ne by (symmetry; by eapply Hne). }
  split; simpl.
  - apply NoDup_filter, I.
  - intros k. rewrite list_elem_of_filter, (fi_list _ _ _ _ I k). unfold is_Some. setoid_rewrite Hl. naive_solver.
  - intros k Hk. apply (fi_next _ _ _ _ I k). unfold is_Some in *. setoid_rewrite lookup_delete_Some in Hk. naive_solver.
  - intros k mt' Ek. apply Hl in Ek as [Ek Hk]. unfold hdrop. rewrite decide_False by done. exact (fi_ref _ _ _ _ I k mt' Ek).
  - intros k Hk. unfold hdrop in Hk. destruct (decide (k = m)) as [->|Hkm]; [lia|].
    destruct (fi_x _ _ _ _ I k Hk) as [mt' Ek]. exists mt'. by apply Hl.
  - intros k hd Ek. destruct (fi_file _ _ _ _ I k hd Ek) as [mt' Em]. exists mt'. apply Hl. split; [done|]. eapply Hne. by left.
  - intros k hd Ek. destruct (fi_dir _ _ _ _ I k hd Ek) as [mt' Em]. exists mt'. apply Hl. split; [done|]. eapply Hne. by right.
  - intros k mt' Ek. apply Hl in Ek as [Ek Hk]. destruct (fi_drv _ _ _ _ I k mt' Ek) as (name & Hn & Hm).
    exists name. split; [done|]. rewrite lookup_delete_ne; [done|]. intros Hc. apply Hk. by eapply (fi_inj _ _ _ _ I).
  - intros k k' mt1 mt2 E1 E2. apply Hl in E1 as [E1 _], E2 as [E2 _]. by eapply (fi_inj _ _ _ _ I).
  - done.
  - rewrite (opens_ext s _ (f_files s)), (opens_ext s _ (f_dirs s)) by (intros; eapply Hck; eauto). done.
Qed.

Lemma put_mount_run x h M s m :
  finv x h M s -> (0 < x m)%nat ->
  exists s' M', put_mount m s = Some ((), s') /\ finv (hdrop m x) h M' s' /\
    f_files s' = f_files s /\ f_dirs s' = f_dirs s /\ f_next s' = f_next s /\
    exists mt, f_mnt s !! m = Some mt /\
      f_mnt s' = (if decide (mt_ref mt = 1) then delete m (f_mnt s) else <[m := set_mt_ref (mt_ref mt - 1) mt]> (f_mnt s)).
Proof.
  intros I Hx. destruct (fi_x _ _ _ _ I m Hx) as [mt E]. destruct (fi_ref _ _ _ _ I m mt E) as [Hr Hpos].
  unfold put_mount, the_mount, f_get, mbind, f_mbind, f_bind. rewrite E. simpl. rewrite to_signed_small by lia.
  destruct (Z.eqb_spec (mt_ref mt - 1) 0) as [H0|H0].
  2: { exists (with_mref s m (mt_ref mt - 1) mt), M. split; [done|]. split.
       - apply (finv_mref x); try done; [|lia|].
         + rewrite Hr. unfold hdrop. rewrite decide_True by done. lia.
         + intros k Hk. unfold hdrop. by rewrite decide_False.
       - split; [done|]. split; [done|]. split; [done|]. exists mt. split; [done|]. rewrite decide_False by lia. done. }
  assert (x m = 1%nat /\ count (on m) (f_files s) = 0%nat /\ count (on m) (f_dirs s) = 0%nat) as (Hx1 & Hf & Hd) by lia.
  rewrite bool_decide_true by (apply I; by eexists). cbn [mbind option_bind f_mod].
  destruct (fi_drv _ _ _ _ I m mt E) as (name & Hn & Hm). destruct (no_handles _ _ _ _ _ _ I E Hf Hd) as [Hno _].
  destruct (law_unmount impls name (mt_api mt) (mt_cookie mt) (f_world s) M _ _ Hn Hm (fi_world _ _ _ _ I) Hno) as (st & w & Eu & Hw).
  unfold call. simpl. rewrite Eu. simpl.
  assert (exists b, reg_inv ∅ b (fun d => (h d + count (has_dev d) (delete m (f_mnt s)))%nat) /\
    match mt_dev mt with Some dev => bio_close dev (f_bios s) = Some b | None => b = f_bios s end) as (b & Hb & Eb).
  { pose proof (fi_dev _ _ _ _ I) as Hreg. destruct (mt_dev mt) as [dev|] eqn:Ed.
    - edestruct (bio_close_run (f_bios s)) as (b & Eb & Hb & _); [exact Hreg| |exists b; split; [|exact Eb]].
      + cbv beta. rewrite (count_delete (has_dev dev) _ m mt E). rewrite decide_True by done. lia.
      + eapply reg_inv_ext; [|exact Hb]. intros d. unfold hdrop. rewrite (count_delete (has_dev d) _ m mt E).
        destruct (decide (d = dev)) as [->|Hne]; [rewrite decide_True by done; lia|].
        rewrite (decide_False (P := has_dev d mt)); [done|]. unfold has_dev. congruence.
    - exists (f_bios s). split; [|done]. eapply reg_inv_ext; [|exact Hreg]. intros d. cbv beta.
      rewrite (count_delete (has_dev d) _ m mt E), decide_False; [done|]. unfold has_dev. by rewrite Ed. }
  exists (gone s m b w), (delete (mt_cookie mt) M). split.
  - destruct (mt_dev mt) as [dev|]; simpl; [unfold close_dev, devices; simpl; rewrite Eb; simpl|rewrite <- Eb];
      unfold gone, f_mod, set_mnt; simpl; by rewrite delete_insert_eq.
  - split; [by apply finv_gone|]. split; [done|]. split; [done|]. split; [done|]. exists mt. split; [done|].
    by rewrite decide_True by lia.
Qed.
End ops.

(** * What the operations of the file system layer do *)

(** ** The path on the stack *)
Lemma split_path_chars l f c : f ∈ split_path l -> c ∈ f -> c ∈ l.
Proof.
  revert f. induction l as [|x l IH]; intros f Hf Hc; simpl in Hf.
  { apply list_elem_of_singleton in Hf as ->. by apply elem_of_nil in Hc. }
  destruct (x =? slash).
  { apply elem_of_cons in Hf as [->|Hf]; [by apply elem_of_nil in Hc|]. right. eauto. }
  destruct (split_path l) as [|g gs] eqn:E.
  { apply list_elem_of_singleton in Hf as ->. apply list_elem_of_singleton in Hc as ->. left. }
  apply elem_of_cons in Hf as [->|Hf]; [|right; eapply IH; [by right|done]].
  apply elem_of_cons in Hc as [->|Hc]; [left|right; eapply IH; [left|done]].
Qed.

Lemma normal_chars l f c : f ∈ (normal l).2 -> c ∈ f -> c ∈ l.
Proof.
  unfold normal. pose proof (split_path_chars l) as Hs. revert Hs.
  assert (forall f c, f ∈ (starts_slash l, @nil (list Z)).2 -> c ∈ f -> c ∈ l) as H0 by (intros f0 c0 Hf0; by apply elem_of_nil in Hf0). revert H0.
  generalize (starts_slash l, @nil (list Z)). induction (split_path l) as [|g gs IH]; intros st H0 Hs Hf; simpl in Hf; [eauto|].
  apply (IH (add_field st g)); [|intros; eapply Hs; [by right|done]|done].
  intros f' c' Hf'. unfold add_field in Hf'. case_bool_decide; [eauto|]. case_bool_decide.
  - destruct st as [a fs]. destruct fs as [|f0 fs _] using rev_ind; [by apply elem_of_nil in Hf'|].
    rewrite up_push in Hf'. intros. eapply H0; [|done]. simpl in *. apply elem_of_app. by left.
  - unfold push in Hf'. simpl in Hf'. apply elem_of_app in Hf' as [Hf'|Hf']; [eauto|].
    apply list_elem_of_singleton in Hf' as ->. intros. eapply Hs; [by left|done].
Qed.

Lemma path_text_chars l : 0 ∉ l -> 0 ∉ path_text (normal l).
Proof.
  intros Hl Hin. pose proof (normal_chars l) as Hn. destruct (normal l) as [a fs]. simpl in Hn.
  assert (0 ∈ text (a, fs)) as Ht.
  { destruct (text_last (a, fs)) as [E|[t E]]; unfold path_text in Hin; rewrite E in *; [done|].
    rewrite removelast_last in Hin. set_solver. }
  unfold text in Ht. simpl in Ht. apply elem_of_app in Ht as [Ht|Ht]; [destruct a; unfold slash in Ht; set_solver|].
  apply list_elem_of_In, in_concat in Ht as (g & Hg & H0). apply list_elem_of_In, list_elem_of_fmap in Hg as (f & -> & Hf).
  apply list_elem_of_In, elem_of_app in H0 as [H0|H0]; [|unfold slash in H0; set_solver]. by eapply Hl, Hn.
Qed.

Lemma cut_zero_app t l : 0 ∉ t -> cut_zero (t ++ 0 :: l) = t.
Proof. induction t as [|c t IH]; simpl; intros Ht; [done|]. rewrite (proj2 (Z.eqb_neq c 0)) by set_solver. by rewrite IH by set_solver. Qed.

(** The normal form of a path, cut to the buffer *)
Definition npath_of (path : list Z) : list Z := path_text (normal (take 127 path)).

Section run.
Context `{KConfig} {W : Type} {impls : list (string * fs_api W)} `{!FsLaws impls}.
Implicit Types (s : fstate W) (x h : Z -> nat) (M : gmap Z string).
Notation finv := (finv (impls := impls)).

Lemma temppath_run s path : 0 ∉ path -> temppath path s = Some (npath_of path, s).
Proof.
  intros Hp. unfold temppath, f_get. change (Z.to_nat (FS_MAX_PATH_LEN - 1)) with 127%nat. change (Z.to_nat FS_MAX_PATH_LEN) with 128%nat.
  set (c := take 127 path). assert (0 ∉ c) as Hc by (intros Hin; apply Hp; by apply (subseteq_take 127)).
  assert (length c <= 127)%nat as Hl by (unfold c; rewrite length_take; lia).
  replace (128 - length c)%nat with (S (127 - length c)) by lia. cbn [replicate].
  destruct (fs_normalize_path_run c (replicate (127 - length c) 0) Hc) as (junk & -> & _). simpl.
  rewrite cut_zero_app by (by apply path_text_chars). done.
Qed.

(** ** Calls *)
Lemma finv_world x h M s w :
  finv x h M s -> wi (impls := impls) w M (opens s (f_files s)) (opens s (f_dirs s)) -> finv x h M (with_world s w).
Proof. intros [] Hw. by split. Qed.

Lemma with_mount_run {A} x h M s path (none : A) (body : Z -> fs_mount W -> list Z -> F A) (Q : A -> fstate W -> Prop) :
  finv x h M s -> froom s -> (find s path = None -> Q none s) ->
  (forall m t mt s1, find s path = Some (m, t) -> f_mnt s1 !! m = Some mt -> finv (htake m x) h M s1 ->
     f_files s1 = f_files s -> f_dirs s1 = f_dirs s -> f_next s1 = f_next s ->
     (forall k, mt_cookie <$> f_mnt s1 !! k = mt_cookie <$> f_mnt s !! k) -> runs (body m mt t) s1 Q) ->
  runs (with_mount path none body) s Q.
Proof.
  intros I Hroom Hnone Hbody. unfold with_mount. destruct (find_mount_run x h M s path I Hroom) as (s1 & E & Hs1).
  apply runs_bind. exists (find s path), s1. split; [done|]. destruct (find s path) as [[m t]|] eqn:Ef.
  - destruct Hs1 as (mt & Em & -> & I1). apply runs_bind. eapply runs_get; [apply lookup_insert_eq|].
    apply (Hbody m t); try done; [apply lookup_insert_eq|]. intros k. simpl.
    destruct (decide (k = m)) as [->|]; [by rewrite lookup_insert_eq, Em|by rewrite lookup_insert_ne].
  - subst. apply runs_ret. by apply Hnone.
Qed.

(** ** Handles *)
Definition add_file s (hd : handle) (w : W) : fstate W :=
  FState (f_mounts s) (f_mnt s) (<[f_next s := hd]> (f_files s)) (f_dirs s) (f_next s + 1) (f_bios s) w.
Definition add_dir s (hd : handle) (w : W) : fstate W :=
  FState (f_mounts s) (f_mnt s) (f_files s) (<[f_next s := hd]> (f_dirs s)) (f_next s + 1) (f_bios s) w.

Lemma fresh_id x h M s : finv x h M s -> f_mnt s !! f_next s = None /\ f_files s !! f_next s = None /\ f_dirs s !! f_next s = None.
Proof.
  intros I. pose proof (fi_next _ _ _ _ I (f_next s)) as Hn.
  split_and!; apply eq_None_not_Some; intros Hs; (enough (f_next s < f_next s) by lia); auto.
Qed.

Lemma count_on_new m hd (hs : gmap Z handle) k :
  hs !! k = None -> count (on m) (<[k := hd]> hs) = ((if decide (hd_mount hd = m) then 1 else 0) + count (on m) hs)%nat.
Proof. intros Hk. rewrite count_insert_new by done. reflexivity. Qed.

(** The reference of the operation becomes that of a new handle. *)
Lemma finv_add_file x h M s m mt fc w :
  finv (htake m x) h M s -> f_mnt s !! m = Some mt ->
  wi (impls := impls) w M (<[f_next s := (mt_cookie mt, fc)]> (opens s (f_files s))) (opens s (f_dirs s)) ->
  finv x h M (add_file s (Handle fc m) w).
Proof.
  intros I E Hw. destruct (fresh_id _ _ _ _ I) as (_ & Hf & _). split; simpl; try apply I.
  - intros k Hk. destruct (decide (k = f_next s)) as [->|Hne]; [lia|]. rewrite lookup_insert_ne in Hk by done.
    pose proof (fi_next _ _ _ _ I k Hk). lia.
  - intros k mt' Ek. rewrite count_on_new by done. destruct (fi_ref _ _ _ _ I k mt' Ek) as [Hr ?]. split; [|done].
    rewrite Hr. unfold htake. simpl. repeat case_decide; subst; try done; lia.
  - intros k Hk. apply (fi_x _ _ _ _ I k). unfold htake. case_decide; lia.
  - intros k hd Ek. destruct (decide (k = f_next s)) as [->|Hne].
    + rewrite lookup_insert_eq in Ek. simplify_eq. by eexists.
    + rewrite lookup_insert_ne in Ek by done. exact (fi_file _ _ _ _ I k hd Ek).
  - unfold opens in *. rewrite fmap_insert. simpl. unfold cookie_of at 1. simpl. by rewrite E.
Qed.

Lemma finv_add_dir x h M s m mt dc w :
  finv (htake m x) h M s -> f_mnt s !! m = Some mt ->
  wi (impls := impls) w M (opens s (f_files s)) (<[f_next s := (mt_cookie mt, dc)]> (opens s (f_dirs s))) ->
  finv x h M (add_dir s (Handle dc m) w).
Proof.
  intros I E Hw. destruct (fresh_id _ _ _ _ I) as (_ & _ & Hf). split; simpl; try apply I.
  - intros k Hk. destruct (decide (k = f_next s)) as [->|Hne]; [lia|]. rewrite lookup_insert_ne in Hk by done.
    pose proof (fi_next _ _ _ _ I k Hk). lia.
  - intros k mt' Ek. rewrite count_on_new by done. destruct (fi_ref _ _ _ _ I k mt' Ek) as [Hr ?]. split; [|done].
    rewrite Hr. unfold htake. simpl. repeat case_decide; subst; try done; lia.
  - intros k Hk. apply (fi_x _ _ _ _ I k). unfold htake. case_decide; lia.
  - intros k hd Ek. destruct (decide (k = f_next s)) as [->|Hne].
    + rewrite lookup_insert_eq in Ek. simplify_eq. by eexists.
    + rewrite lookup_insert_ne in Ek by done. exact (fi_dir _ _ _ _ I k hd Ek).
  - unfold opens in *. rewrite fmap_insert. simpl. unfold cookie_of at 2. simpl. by rewrite E.
Qed.

(** A handle that goes leaves its reference to the operation. *)
Lemma finv_del_file x h M s k hd w :
  finv x h M s -> f_files s !! k = Some hd ->
  wi (impls := impls) w M (delete k (opens s (f_files s))) (opens s (f_dirs s)) ->
  finv (htake (hd_mount hd) x) h M (set_files (delete k) (with_world s w)).
Proof.
  intros I E Hw. split; simpl; try apply I.
  - intros j Hj. apply (fi_next _ _ _ _ I j). unfold is_Some in *. setoid_rewrite lookup_delete_Some in Hj. naive_solver.
  - intros m mt Em. destruct (fi_ref _ _ _ _ I m mt Em) as [Hr ?]. split; [|done]. rewrite Hr.
    rewrite (count_delete (on m) (f_files s) k hd E). unfold htake, on. repeat case_decide; subst; try done; lia.
  - intros m Hm. unfold htake in Hm. case_decide; [subst; exact (fi_file _ _ _ _ I k hd E)|exact (fi_x _ _ _ _ I m Hm)].
  - intros j hd' Ej. apply lookup_delete_Some in Ej as [_ Ej]. exact (fi_file _ _ _ _ I j hd' Ej).
  - unfold opens in *. rewrite fmap_delete. done.
Qed.

Lemma finv_del_dir x h M s k hd w :
  finv x h M s -> f_dirs s !! k = Some hd ->
  wi (impls := impls) w M (opens s (f_files s)) (delete k (opens s (f_dirs s))) ->
  finv (htake (hd_mount hd) x) h M (set_dirs (delete k) (with_world s w)).
Proof.
  intros I E Hw. split; simpl; try apply I.
  - intros j Hj. apply (fi_next _ _ _ _ I j). unfold is_Some in *. setoid_rewrite lookup_delete_Some in Hj. naive_solver.
  - intros m mt Em. destruct (fi_ref _ _ _ _ I m mt Em) as [Hr ?]. split; [|done]. rewrite Hr.
    rewrite (count_delete (on m) (f_dirs s) k hd E). unfold htake, on. repeat case_decide; subst; try done; lia.
  - intros m Hm. unfold htake in Hm. case_decide; [subst; exact (fi_dir _ _ _ _ I k hd E)|exact (fi_x _ _ _ _ I m Hm)].
  - intros j hd' Ej. apply lookup_delete_Some in Ej as [_ Ej]. exact (fi_dir _ _ _ _ I j hd' Ej).
  - unfold opens in *. rewrite fmap_delete. done.
Qed.

(** [put_mount] looks at no handle. *)
Lemma put_mount_files m g s : put_mount m (set_files g s) = (fun p => (p.1, set_files g p.2)) <$> put_mount m s.
Proof.
  unfold put_mount, the_mount, f_get, mbind, f_mbind, f_bind. simpl. destruct (f_mnt s !! m) as [mt|]; [|done]. simpl.
  destruct (to_signed 32 (mt_ref mt - 1) =? 0); [|done]. cbn [set_mnt set_files set_dirs f_mounts].
  case_bool_decide; [|done]. unfold call. simpl.
  destruct (api_unmount (mt_api mt) (mt_cookie mt) (f_world s)) as [[st w]|]; [|done]. simpl.
  destruct (mt_dev mt) as [dev|]; [|done]. unfold close_dev, devices. simpl. by destruct (bio_close dev (f_bios s)).
Qed.

Lemma put_mount_dirs m g s : put_mount m (set_dirs g s) = (fun p => (p.1, set_dirs g p.2)) <$> put_mount m s.
Proof.
  unfold put_mount, the_mount, f_get, mbind, f_mbind, f_bind. simpl. destruct (f_mnt s !! m) as [mt|]; [|done]. simpl.
  destruct (to_signed 32 (mt_ref mt - 1) =? 0); [|done]. cbn [set_mnt set_files set_dirs f_mounts].
  case_bool_decide; [|done]. unfold call. simpl.
  destruct (api_unmount (mt_api mt) (mt_cookie mt) (f_world s)) as [[st w]|]; [|done]. simpl.
  destruct (mt_dev mt) as [dev|]; [|done]. unfold close_dev, devices. simpl. by destruct (bio_close dev (f_bios s)).
Qed.
End run.
