(* ===== verification/FsFiles.v ===== *)
(** * Files, directories and mounts: every operation returns and keeps the invariant *)
From S2P Require Import Prelude KState Bio BioReg BioRegInv FsPath Fs FsInv.

Section files.
Context `{KConfig} {W : Type} {impls : list (string * fs_api W)} `{!FsLaws impls}.
Implicit Types (s : fstate W) (x h : Z -> nat) (M : gmap Z string).
Notation finv := (finv (impls := impls)).

Lemma finv_ext x x' h h' M s : (forall k, x k = x' k) -> (forall k, h k = h' k) -> finv x h M s -> finv x' h' M s.
Proof.
  intros Hx Hh I. split; try apply I.
  - intros m mt E. rewrite <- Hx. exact (fi_ref _ _ _ _ I m mt E).
  - intros m. rewrite <- Hx. apply I.
  - eapply reg_inv_ext; [|exact (fi_dev _ _ _ _ I)]. intros d. simpl. by rewrite Hh.
Qed.

(** The reference that [find_mount] took is given back. *)
Lemma put_back {A} x h M s m (r : A) (Q : A -> fstate W -> Prop) :
  finv (htake m x) h M s ->
  (forall s' M', finv x h M' s' -> f_files s' = f_files s -> f_dirs s' = f_dirs s -> Q r s') ->
  runs (put_mount m;; mret r) s Q.
Proof.
  intros I HQ. destruct (put_mount_run _ _ _ _ m I) as (s' & M' & E & I' & Ef & Ed & _).
  { unfold htake. rewrite decide_True by done. lia. }
  apply runs_bind. exists (), s'. split; [done|]. apply runs_ret. apply (HQ s' M'); [|done|done].
  eapply finv_ext; [intros k; apply hdrop_take|done|exact I'].
Qed.

(** A driver function that works on the mount *)
Lemma call_mount {A B} x h M s m mt (c : dm W A) (f : A -> F B) (Q : B -> fstate W -> Prop) r w :
  finv (htake m x) h M s -> f_mnt s !! m = Some mt -> c (f_world s) = Some (r, w) ->
  runs (f r) (with_world s w) Q -> runs (call c ≫= f) s Q.
Proof. intros I E Ec Hf. apply runs_bind. by eapply runs_call. Qed.

Lemma driver x h M s m mt : finv x h M s -> f_mnt s !! m = Some mt ->
  exists name, find_fs impls name = Some (mt_api mt) /\ M !! mt_cookie mt = Some name.
Proof. intros I E. exact (fi_drv _ _ _ _ I m mt E). Qed.

(** ** Opening *)
Definition opened s (r : Z * option Z) s' : Prop :=
  (r.2 = None /\ r.1 < 0 /\ f_files s' = f_files s) \/
  (exists f hd, r = (0, Some f) /\ f_files s !! f = None /\ f_files s' = <[f := hd]> (f_files s)).
Definition opened_dir s (r : Z * option Z) s' : Prop :=
  (r.2 = None /\ r.1 < 0 /\ f_dirs s' = f_dirs s) \/
  (exists d hd, r = (0, Some d) /\ f_dirs s !! d = None /\ f_dirs s' = <[d := hd]> (f_dirs s)).

(** What follows an [open] or a [create] that the driver answered *)
Lemma open_tail x h M s m mt st fc w (Q : Z * option Z -> fstate W -> Prop) :
  finv (htake m x) h M s -> f_mnt s !! m = Some mt ->
  (st < 0 -> wi (impls := impls) w M (opens s (f_files s)) (opens s (f_dirs s))) ->
  (0 <= st -> forall k, opens s (f_files s) !! k = None ->
     wi (impls := impls) w M (<[k := (mt_cookie mt, fc)]> (opens s (f_files s))) (opens s (f_dirs s))) ->
  (forall r s', opened s r s' -> f_dirs s' = f_dirs s -> (exists M', finv x h M' s') -> Q r s') ->
  runs (if st <? 0 then put_mount m;; mret (st, None) else f ← new_file fc m; mret (0, Some f)) (with_world s w) Q.
Proof.
  intros I E Hneg Hpos HQ. destruct (Z.ltb_spec st 0) as [Hst|Hst].
  - eapply put_back; [by apply finv_world; auto|]. intros s' M' I' Ef Ed. apply HQ; [left; auto|done|eauto].
  - destruct (fresh_id _ _ _ _ I) as (_ & Hf & _). unfold new_file, alloc_id.
    exists (0, Some (f_next s)), (add_file s (Handle fc m) w). split; [done|].
    apply HQ; [right; by eexists _, _|done|]. exists M. eapply finv_add_file; [done|done|]. apply Hpos; [done|].
    unfold opens. by rewrite lookup_fmap, Hf.
Qed.

Lemma fs_open_file_run x h M s path :
  finv x h M s -> froom s -> 0 ∉ path ->
  runs (fs_open_file true path) s (fun r s' => opened s r s' /\ f_dirs s' = f_dirs s /\ exists M', finv x h M' s').
Proof.
  intros I Hroom Hp. unfold fs_open_file. apply runs_bind. eexists _, _. split; [by apply temppath_run|].
  eapply with_mount_run; [done|done|intros _; split; [by left|eauto]|].
  intros m t mt s1 _ E I1 Ef Ed _ _. destruct (driver _ _ _ _ _ _ I1 E) as (name & Hn & Hm).
  destruct (law_open impls name (mt_api mt) (mt_cookie mt) t _ M _ _ Hn Hm (fi_world _ _ _ _ I1)) as (st & fc & w & Ec & Hneg & Hpos).
  eapply call_mount; [done|done|done|]. cbv beta iota. simpl negb. cbv iota.
  eapply open_tail; [done|done|done|done|]. unfold opened. rewrite Ef, Ed. auto.
Qed.

Lemma fs_create_file_run x h M s path len :
  finv x h M s -> froom s -> 0 ∉ path -> 0 <= len ->
  runs (fs_create_file true path len) s (fun r s' => opened s r s' /\ f_dirs s' = f_dirs s /\ exists M', finv x h M' s').
Proof.
  intros I Hroom Hp Hlen. unfold fs_create_file. apply runs_bind. eexists _, _. split; [by apply temppath_run|].
  eapply with_mount_run; [done|done|intros _; split; [by left|eauto]|].
  intros m t mt s1 _ E I1 Ef Ed _ _. destruct (driver _ _ _ _ _ _ I1 E) as (name & Hn & Hm).
  destruct (api_create (mt_api mt)) as [create|] eqn:Ea.
  - destruct (law_create impls name (mt_api mt) (mt_cookie mt) t len _ M _ _ create Hn Hm (fi_world _ _ _ _ I1) Ea Hlen)
      as (st & fc & w & Ec & Hneg & Hpos).
    eapply call_mount; [done|done|done|]. cbv beta iota. simpl negb. cbv iota.
    eapply open_tail; [done|done|done|done|]. unfold opened. rewrite Ef, Ed. auto.
  - eapply put_back; [done|]. intros s' M' I' Ef' Ed'. split; [left; rewrite Ef', Ef; done|]. split; [by rewrite Ed', Ed|eauto].
Qed.

Lemma fs_open_dir_run x h M s path :
  finv x h M s -> froom s -> 0 ∉ path ->
  runs (fs_open_dir true path) s (fun r s' => opened_dir s r s' /\ f_files s' = f_files s /\ exists M', finv x h M' s').
Proof.
  intros I Hroom Hp. unfold fs_open_dir. apply runs_bind. eexists _, _. split; [by apply temppath_run|].
  eapply with_mount_run; [done|done|intros _; split; [by left|eauto]|].
  intros m t mt s1 _ E I1 Ef Ed _ _. destruct (driver _ _ _ _ _ _ I1 E) as (name & Hn & Hm).
  destruct (api_opendir (mt_api mt)) as [opendir|] eqn:Ea.
  2: { eapply put_back; [done|]. intros s' M' I' Ef' Ed'. split; [left; rewrite Ed', Ed; done|].
       split; [by rewrite Ef', Ef|eauto]. }
  destruct (law_opendir impls name (mt_api mt) (mt_cookie mt) t _ M _ _ opendir Hn Hm (fi_world _ _ _ _ I1) Ea)
    as (st & dc & w & Ec & Hneg & Hpos).
  eapply call_mount; [done|done|done|]. cbv beta iota. simpl negb. cbv iota. destruct (Z.ltb_spec st 0) as [Hst|Hst].
  - eapply put_back; [by apply finv_world; auto|]. intros s' M' I' Ef' Ed'. simpl in Ef', Ed'.
    split; [left; rewrite Ed', Ed; done|]. split; [by rewrite Ef', Ef|eauto].
  - destruct (fresh_id _ _ _ _ I1) as (_ & _ & Hf). unfold new_dir, alloc_id.
    exists (0, Some (f_next s1)), (add_dir s1 (Handle dc m) w). split; [done|]. rewrite <- Ef.
    split; [right; eexists _, _; rewrite <- Ed; done|]. split; [done|]. exists M. eapply finv_add_dir; [done|done|].
    apply Hpos; [done|]. unfold opens. by rewrite lookup_fmap, Hf.
Qed.

(** ** Operations on a path *)
Definition quiet x h s s' : Prop := f_files s' = f_files s /\ f_dirs s' = f_dirs s /\ exists M', finv x h M' s'.

Lemma quiet_refl x h M s : finv x h M s -> quiet x h s s.
Proof. intros I. split; [done|]. split; [done|]. eauto. Qed.

Lemma fs_make_dir_run x h M s path :
  finv x h M s -> froom s -> 0 ∉ path -> runs (fs_make_dir path) s (fun _ s' => quiet x h s s').
Proof.
  intros I Hroom Hp. unfold fs_make_dir. apply runs_bind. eexists _, _. split; [by apply temppath_run|].
  eapply with_mount_run; [done|done|intros _; by eapply quiet_refl|].
  intros m t mt s1 _ E I1 Ef Ed _ _. destruct (driver _ _ _ _ _ _ I1 E) as (name & Hn & Hm).
  destruct (api_mkdir (mt_api mt)) as [mkdir|] eqn:Ea.
  - destruct (law_mkdir impls name (mt_api mt) (mt_cookie mt) t _ M _ _ mkdir Hn Hm (fi_world _ _ _ _ I1) Ea) as (st & w & Ec & Hw).
    eapply call_mount; [done|done|done|]. eapply put_back; [by apply finv_world|].
    intros s' M' I' Ef' Ed'. split; [by rewrite Ef', <- Ef|]. split; [by rewrite Ed', <- Ed|eauto].
  - eapply put_back; [done|]. intros s' M' I' Ef' Ed'. split; [by rewrite Ef'|]. split; [by rewrite Ed'|eauto].
Qed.

Lemma fs_stat_fs_run x h M s path :
  finv x h M s -> froom s -> runs (fs_stat_fs path) s (fun _ s' => quiet x h s s').
Proof.
  intros I Hroom. unfold fs_stat_fs.
  eapply with_mount_run; [done|done|intros _; by eapply quiet_refl|].
  intros m t mt s1 _ E I1 Ef Ed _ _. destruct (driver _ _ _ _ _ _ I1 E) as (name & Hn & Hm).
  destruct (api_fs_stat (mt_api mt)) as [fs_stat|] eqn:Ea.
  - destruct (law_fs_stat impls name (mt_api mt) (mt_cookie mt) _ M _ _ fs_stat Hn Hm (fi_world _ _ _ _ I1) Ea) as ([st r] & w & Ec & Hw).
    eapply call_mount; [done|done|done|]. cbv beta iota. eapply put_back; [by apply finv_world|].
    intros s' M' I' Ef' Ed'. split; [by rewrite Ef', <- Ef|]. split; [by rewrite Ed', <- Ed|eauto].
  - eapply put_back; [done|]. intros s' M' I' Ef' Ed'. split; [by rewrite Ef'|]. split; [by rewrite Ed'|eauto].
Qed.

(** Removing, while nothing is open on the file system *)
Lemma fs_remove_file_run x h M s path :
  finv x h M s -> froom s -> 0 ∉ path -> (forall m t, find s (npath_of path) = Some (m, t) -> idle s m) ->
  runs (fs_remove_file path) s (fun _ s' => quiet x h s s').
Proof.
  intros I Hroom Hp Hidle. unfold fs_remove_file. apply runs_bind. eexists _, _. split; [by apply temppath_run|].
  eapply with_mount_run; [done|done|intros _; by eapply quiet_refl|].
  intros m t mt s1 Ht E I1 Ef Ed _ _. destruct (driver _ _ _ _ _ _ I1 E) as (name & Hn & Hm).
  destruct (api_remove (mt_api mt)) as [remove|] eqn:Ea.
  - destruct (law_remove impls name (mt_api mt) (mt_cookie mt) t _ M _ _ remove Hn Hm (fi_world _ _ _ _ I1)) as (st & w & Ec & Hw); [|done|].
    { eapply idle_opens; [done|done|]. unfold idle. rewrite Ef, Ed. by eapply Hidle. }
    eapply call_mount; [done|done|done|]. eapply put_back; [by apply finv_world|].
    intros s' M' I' Ef' Ed'. split; [by rewrite Ef', <- Ef|]. split; [by rewrite Ed', <- Ed|eauto].
  - eapply put_back; [done|]. intros s' M' I' Ef' Ed'. split; [by rewrite Ef'|]. split; [by rewrite Ed'|eauto].
Qed.

(** ** Operations on a handle *)
Lemma file_driver x h M s f hd :
  finv x h M s -> f_files s !! f = Some hd ->
  exists mt name, the_file f s = Some ((hd, mt), s) /\ f_mnt s !! hd_mount hd = Some mt /\
    find_fs impls name = Some (mt_api mt) /\ M !! mt_cookie mt = Some name /\
    opens s (f_files s) !! f = Some (mt_cookie mt, hd_cookie hd).
Proof.
  intros I E. destruct (fi_file _ _ _ _ I f hd E) as [mt Em]. destruct (fi_drv _ _ _ _ I _ mt Em) as (name & Hn & Hm).
  exists mt, name. unfold the_file, the_mount, f_get, mbind, f_mbind, f_bind. rewrite E. simpl. rewrite Em. simpl.
  split; [done|]. split; [done|]. split; [done|]. split; [done|].
  unfold opens, cookie_of. rewrite lookup_fmap, E. simpl. by rewrite Em.
Qed.

Lemma dir_driver x h M s d hd :
  finv x h M s -> f_dirs s !! d = Some hd ->
  exists mt name, the_dir d s = Some ((hd, mt), s) /\ f_mnt s !! hd_mount hd = Some mt /\
    find_fs impls name = Some (mt_api mt) /\ M !! mt_cookie mt = Some name /\
    opens s (f_dirs s) !! d = Some (mt_cookie mt, hd_cookie hd).
Proof.
  intros I E. destruct (fi_dir _ _ _ _ I d hd E) as [mt Em]. destruct (fi_drv _ _ _ _ I _ mt Em) as (name & Hn & Hm).
  exists mt, name. unfold the_dir, the_mount, f_get, mbind, f_mbind, f_bind. rewrite E. simpl. rewrite Em. simpl.
  split; [done|]. split; [done|]. split; [done|]. split; [done|].
  unfold opens, cookie_of. rewrite lookup_fmap, E. simpl. by rewrite Em.
Qed.

Lemma quiet_call {A} x h M s (c : dm W A) r w :
  finv x h M s -> c (f_world s) = Some (r, w) -> wi (impls := impls) w M (opens s (f_files s)) (opens s (f_dirs s)) ->
  runs (call c) s (fun _ s' => quiet x h s s').
Proof. intros I Ec Hw. eapply runs_call; [done|]. split; [done|]. split; [done|]. exists M. by apply finv_world. Qed.

Ltac on_file I E := destruct (file_driver _ _ _ _ _ _ I E) as (mt & name & Eth & Em & Hn & Hm & Ho);
  apply runs_bind; eexists _, _; split; [exact Eth|]; cbv beta iota.

Lemma fs_read_file_run x h M s f hd off len :
  finv x h M s -> f_files s !! f = Some hd -> off + len < 2 ^ 63 -> 0 <= len ->
  runs (fs_read_file f off len) s (fun _ s' => quiet x h s s').
Proof.
  intros I E Hl H0. unfold fs_read_file. on_file I E.
  destruct (law_read impls name (mt_api mt) _ _ off len _ M _ _ f Hn Hm (fi_world _ _ _ _ I) Ho Hl H0) as (r & w & Ec & Hw).
  by eapply quiet_call.
Qed.

Lemma fs_write_file_run x h M s f hd buf off :
  finv x h M s -> f_files s !! f = Some hd -> off + Z.of_nat (length buf) < 2 ^ 63 ->
  runs (fs_write_file f buf off) s (fun _ s' => quiet x h s s').
Proof.
  intros I E Hl. unfold fs_write_file. on_file I E.
  destruct (api_write (mt_api mt)) as [write|] eqn:Ea; [|apply runs_ret; by eapply quiet_refl].
  destruct (law_write impls name (mt_api mt) _ _ buf off _ M _ _ f write Hn Hm (fi_world _ _ _ _ I) Ho Hl Ea) as (r & w & Ec & Hw).
  by eapply quiet_call.
Qed.

Lemma fs_truncate_file_run x h M s f hd len :
  finv x h M s -> f_files s !! f = Some hd -> 0 <= len -> runs (fs_truncate_file f len) s (fun _ s' => quiet x h s s').
Proof.
  intros I E Hlen. unfold fs_truncate_file. on_file I E.
  destruct (law_truncate impls name (mt_api mt) _ _ len _ M _ _ f Hn Hm (fi_world _ _ _ _ I) Ho Hlen) as (truncate & r & w & -> & Ec & Hw).
  by eapply quiet_call.
Qed.

Lemma fs_stat_file_run x h M s f hd :
  finv x h M s -> f_files s !! f = Some hd -> runs (fs_stat_file f) s (fun r s' => quiet x h s s' /\ 0 <= st_size r.2).
Proof.
  intros I E. unfold fs_stat_file. on_file I E.
  destruct (law_stat impls name (mt_api mt) _ _ _ M _ _ f Hn Hm (fi_world _ _ _ _ I) Ho) as (r & w & Ec & Hw & Hr).
  eapply runs_call; [done|]. split; [|done]. split; [done|]. split; [done|]. exists M. by apply finv_world.
Qed.

Lemma fs_file_ioctl_run x h M s f hd request :
  finv x h M s -> f_files s !! f = Some hd -> runs (fs_file_ioctl f request) s (fun _ s' => quiet x h s s').
Proof.
  intros I E. unfold fs_file_ioctl. on_file I E.
  destruct (api_file_ioctl (mt_api mt)) as [ioctl|] eqn:Ea; [|apply runs_ret; by eapply quiet_refl].
  destruct (law_ioctl impls name (mt_api mt) _ _ request _ M _ _ f ioctl Hn Hm (fi_world _ _ _ _ I) Ho Ea) as (r & w & Ec & Hw).
  by eapply quiet_call.
Qed.

Lemma fs_read_dir_run x h M s d hd :
  finv x h M s -> f_dirs s !! d = Some hd -> runs (fs_read_dir d) s (fun _ s' => quiet x h s s').
Proof.
  intros I E. unfold fs_read_dir. destruct (dir_driver _ _ _ _ _ _ I E) as (mt & name & Eth & Em & Hn & Hm & Ho).
  apply runs_bind; eexists _, _; split; [exact Eth|]; cbv beta iota.
  destruct (api_readdir (mt_api mt)) as [readdir|] eqn:Ea; [|apply runs_ret; by eapply quiet_refl].
  destruct (law_readdir impls name (mt_api mt) _ _ _ M _ _ d readdir Hn Hm (fi_world _ _ _ _ I) Ho Ea) as (r & w & Ec & Hw).
  by eapply quiet_call.
Qed.

(** Closing: the handle goes, unless the driver refuses. *)
Lemma fs_close_file_run x h M s f hd :
  finv x h M s -> f_files s !! f = Some hd ->
  runs (fs_close_file f) s (fun r s' =>
    (exists M', finv x h M' s') /\ f_dirs s' = f_dirs s /\
    ((r < 0 /\ f_files s' = f_files s) \/ (r = 0 /\ f_files s' = delete f (f_files s)))).
Proof.
  intros I E. unfold fs_close_file. on_file I E.
  destruct (law_close impls name (mt_api mt) _ _ _ M _ _ f Hn Hm (fi_world _ _ _ _ I) Ho) as (st & w & Ec & Hneg & Hpos).
  apply runs_bind. eapply runs_call; [exact Ec|]. destruct (Z.ltb_spec st 0) as [Hst|Hst].
  - apply runs_ret. split; [exists M; by apply finv_world; auto|]. split; [done|]. by left.
  - pose proof (finv_del_file _ _ _ _ _ _ w I E (Hpos Hst)) as I1.
    destruct (put_mount_run _ _ _ _ (hd_mount hd) I1) as (s2 & M' & Ep & I2 & Ef & Ed & _).
    { unfold htake. rewrite decide_True by done. lia. }
    rewrite put_mount_files in Ep. destruct (put_mount (hd_mount hd) (with_world s w)) as [[[] s3]|] eqn:E3; [|done].
    simpl in Ep. simplify_eq. apply runs_bind. eexists _, _. split; [exact E3|].
    apply runs_bind, runs_mod, runs_ret. split; [|split; [done|right; split; [done|]]].
    + exists M'. eapply finv_ext; [intros k; apply hdrop_take|done|exact I2].
    + exact Ef.
Qed.

(** The file is closed again, unless the driver refuses. *)
Lemma fs_load_file_run x h M s path maxlen :
  finv x h M s -> froom s -> 0 ∉ path -> 0 <= maxlen < 2 ^ 63 ->
  runs (fs_load_file true path maxlen) s (fun _ s' => (exists M', finv x h M' s') /\ f_dirs s' = f_dirs s /\
    (f_files s' = f_files s \/ exists f hd, f_files s' = <[f := hd]> (f_files s))).
Proof.
  intros I Hroom Hp Hmax. unfold fs_load_file. apply runs_bind. eapply runs_mono; [by eapply fs_open_file_run|].
  intros [err o] s1 (Ho & Ed1 & M1 & I1). destruct Ho as [(Hn & _ & Ef1)|(f & hd & [= -> ->] & Efr & Ef1)].
  { simpl in Hn. subst o. apply runs_ret. eauto. }
  assert (f_files s1 !! f = Some hd) as E1 by (rewrite Ef1; apply lookup_insert_eq).
  apply runs_bind. eapply runs_mono; [by eapply fs_stat_file_run|]. intros [st stat] s2 ((Ef2 & Ed2 & M2 & I2) & Hsz). simpl in Hsz.
  apply runs_bind. eapply runs_mono; [eapply fs_read_file_run; [done|by rewrite Ef2|lia|lia]|]. intros r s3 (Ef3 & Ed3 & M3 & I3).
  apply runs_bind. eapply runs_mono; [eapply fs_close_file_run; [done|by rewrite Ef3, Ef2]|]. intros st' s4 (I4 & Ed4 & Hc).
  apply runs_ret. split; [done|]. split; [by rewrite Ed4, Ed3, Ed2, Ed1|]. destruct Hc as [[_ ->]|[_ ->]]; rewrite Ef3, Ef2, Ef1.
  - right. eauto.
  - left. by apply delete_insert_id.
Qed.

Lemma fs_close_dir_run x h M s d hd :
  finv x h M s -> f_dirs s !! d = Some hd ->
  runs (fs_close_dir d) s (fun r s' =>
    (exists M', finv x h M' s') /\ f_files s' = f_files s /\
    ((r < 0 /\ f_dirs s' = f_dirs s) \/ (r = 0 /\ f_dirs s' = delete d (f_dirs s)))).
Proof.
  intros I E. unfold fs_close_dir. destruct (dir_driver _ _ _ _ _ _ I E) as (mt & name & Eth & Em & Hn & Hm & Ho).
  apply runs_bind; eexists _, _; split; [exact Eth|]; cbv beta iota.
  destruct (api_closedir (mt_api mt)) as [closedir|] eqn:Ea.
  2: { apply runs_ret. split; [eauto|]. split; [done|]. by left. }
  destruct (law_closedir impls name (mt_api mt) _ _ _ M _ _ d closedir Hn Hm (fi_world _ _ _ _ I) Ho Ea) as (st & w & Ec & Hneg & Hpos).
  apply runs_bind. eapply runs_call; [exact Ec|]. destruct (Z.ltb_spec st 0) as [Hst|Hst].
  - apply runs_ret. split; [exists M; by apply finv_world; auto|]. split; [done|]. by left.
  - pose proof (finv_del_dir _ _ _ _ _ _ w I E (Hpos Hst)) as I1.
    destruct (put_mount_run _ _ _ _ (hd_mount hd) I1) as (s2 & M' & Ep & I2 & Ef & Ed & _).
    { unfold htake. rewrite decide_True by done. lia. }
    rewrite put_mount_dirs in Ep. destruct (put_mount (hd_mount hd) (with_world s w)) as [[[] s3]|] eqn:E3; [|done].
    simpl in Ep. simplify_eq. apply runs_bind. eexists _, _. split; [exact E3|].
    apply runs_bind, runs_mod, runs_ret. split; [|split; [done|right; split; [done|]]].
    + exists M'. eapply finv_ext; [intros k; apply hdrop_take|done|exact I2].
    + exact Ed.
Qed.
End files.

(** * Mounting and unmounting *)

Section mounts.
Context `{KConfig} {W : Type} {impls : list (string * fs_api W)} `{!FsLaws impls}.
Implicit Types (s : fstate W) (x h : Z -> nat) (M : gmap Z string).
Notation finv := (finv (impls := impls)).

Lemma finv_bios x h h' M s b :
  finv x h M s -> reg_inv ∅ b (fun d => (h' d + count (has_dev d) (f_mnt s))%nat) -> finv x h' M (with_bios s b).
Proof. intros [] Hb. by split. Qed.

(** The device of a mount, opened or not there *)
Lemma open_device_run x h M s device :
  finv x h M s -> room (f_bios s) ->
  runs (open_device device) s (fun r s' => exists b, s' = with_bios s b /\
    match r with
    | inl err => err = ERR_NOT_FOUND /\ b = f_bios s
    | inr None => b = f_bios s
    | inr (Some dev) => finv x (htake dev h) M s'
    end).
Proof.
  intros I Hroom. unfold open_device.
  assert (s = with_bios s (f_bios s)) as Es by (by destruct s).
  destruct device as [name|]; [|by apply runs_ret; exists (f_bios s)].
  case_bool_decide; [by apply runs_ret; exists (f_bios s)|].
  destruct (open_walk_run (f_bios s) _ name (bs_list (f_bios s)) (fi_dev _ _ _ _ I) Hroom ltac:(done)) as (r & b & E & Hr).
  apply runs_bind. eapply runs_devices; [exact E|]. destruct r as [dev|]; apply runs_ret; exists b.
  - split; [done|]. destruct Hr as (_ & _ & _ & Hreg & _). eapply finv_bios; [done|].
    eapply reg_inv_ext; [|exact Hreg]. intros d. unfold htake. simpl. case_decide; lia.
  - by destruct Hr as [-> _].
Qed.

Lemma close_dev_run x h M s dev :
  finv x (htake dev h) M s -> runs (close_dev dev) s (fun _ s' => exists b, s' = with_bios s b /\ finv x h M s').
Proof.
  intros I. edestruct (bio_close_run (f_bios s)) as (b & E & Hb & _); [exact (fi_dev _ _ _ _ I)| |].
  { instantiate (1 := dev). cbv beta. unfold htake. rewrite decide_True by done. lia. }
  unfold close_dev. eapply runs_devices; [by rewrite E|]. exists b. split; [done|]. eapply finv_bios; [done|].
  eapply reg_inv_ext; [|exact Hb]. intros d. unfold hdrop, htake. simpl. case_decide; lia.
Qed.

(** The references a device that was opened holds *)
Definition hopt (dev : option Z) h : Z -> nat := match dev with Some d => htake d h | None => h end.

Lemma close_opt_run {A} x h M s dev (r : A) (Q : A -> fstate W -> Prop) :
  finv x (hopt dev h) M s -> (forall b, finv x h M (with_bios s b) -> Q r (with_bios s b)) ->
  runs ((match dev with Some dev => close_dev dev | None => mret () end);; mret r) s Q.
Proof.
  intros I HQ. apply runs_bind. destruct dev as [dev|]; simpl in I.
  - eapply runs_mono; [by eapply close_dev_run|]. intros _ s' (b & -> & I'). apply runs_ret. auto.
  - apply runs_ret, runs_ret. specialize (HQ (f_bios s)).
    assert (with_bios s (f_bios s) = s) as Es by (by destruct s). rewrite Es in HQ. auto.
Qed.

Definition add_mount s (mt : fs_mount W) (w : W) : fstate W :=
  FState (f_next s :: f_mounts s) (<[f_next s := mt]> (f_mnt s)) (f_files s) (f_dirs s) (f_next s + 1) (f_bios s) w.

Lemma finv_add_mount x h M s path dev cookie api name w :
  finv x (hopt dev h) M s -> find_fs impls name = Some api -> M !! cookie = None ->
  wi (impls := impls) w (<[cookie := name]> M) (opens s (f_files s)) (opens s (f_dirs s)) ->
  finv (htake (f_next s) x) h (<[cookie := name]> M) (add_mount s (FsMount path dev cookie 1 api) w).
Proof.
  intros I Hn Hc Hw. destruct (fresh_id _ _ _ _ I) as (Hf & _ & _).
  assert (forall k, hd_mount <$> f_files s !! k <> Some (f_next s) /\ hd_mount <$> f_dirs s !! k <> Some (f_next s)) as Hnone.
  { intros k. split; intros E; apply fmap_Some in E as (hd & E & Eh);
      [destruct (fi_file _ _ _ _ I k hd E) as [mt Em]|destruct (fi_dir _ _ _ _ I k hd E) as [mt Em]]; congruence. }
  assert (forall hs : gmap Z handle, (forall k, hd_mount <$> hs !! k <> Some (f_next s)) -> count (on (f_next s)) hs = 0%nat) as H0.
  { intros hs Hh. apply count_none. intros k hd E Ho. apply (Hh k). rewrite E. simpl. by f_equal. }
  assert (x (f_next s) = 0%nat) as Hx.
  { destruct (x (f_next s)) eqn:E; [done|]. destruct (fi_x _ _ _ _ I (f_next s)) as [mt Em]; [lia|]. congruence. }
  assert (forall k mt, f_mnt s !! k = Some mt -> k <> (f_next s)) as Hkn by (intros k mt E ->; congruence).
  assert (forall hs : gmap Z handle, (forall k, hd_mount <$> hs !! k <> Some (f_next s)) ->
    opens (add_mount s (FsMount path dev cookie 1 api) w) hs = opens s hs) as Hopen.
  { intros hs Hh. apply opens_ext. intros k hd E. unfold cookie_of. simpl. rewrite lookup_insert_ne; [done|].
    intros En. apply (Hh k). rewrite E. simpl. by f_equal. }
  split; simpl.
  - constructor; [|apply I]. intros Hin. apply (fi_list _ _ _ _ I) in Hin as [mt E]. congruence.
  - intros k. rewrite elem_of_cons, (fi_list _ _ _ _ I k), lookup_insert_is_Some. destruct (decide (k = (f_next s))); naive_solver.
  - intros k Hk. rewrite lookup_insert_is_Some in Hk. destruct (decide (k = (f_next s))) as [->|Hne]; [lia|].
    pose proof (fi_next _ _ _ _ I k ltac:(naive_solver)). lia.
  - intros k mt. destruct (decide (k = (f_next s))) as [->|Hne].
    + rewrite lookup_insert_eq. intros; simplify_eq. simpl. rewrite !H0 by apply Hnone. unfold htake. rewrite decide_True, Hx by done. lia.
    + rewrite lookup_insert_ne by done. unfold htake. rewrite decide_False by done. apply I.
  - intros k Hk. rewrite lookup_insert_is_Some. destruct (decide (k = (f_next s))) as [->|Hne]; [by left|]. right. split; [done|].
    unfold htake in Hk. rewrite decide_False in Hk by done. exact (fi_x _ _ _ _ I k Hk).
  - intros k hd E. rewrite lookup_insert_is_Some. destruct (fi_file _ _ _ _ I k hd E) as [mt Em]. right.
    split; [by apply not_eq_sym, (Hkn _ mt)|by eexists].
  - intros k hd E. rewrite lookup_insert_is_Some. destruct (fi_dir _ _ _ _ I k hd E) as [mt Em]. right.
    split; [by apply not_eq_sym, (Hkn _ mt)|by eexists].
  - intros k mt. destruct (decide (k = (f_next s))) as [->|Hne].
    + rewrite lookup_insert_eq. intros; simplify_eq. exists name. split; [done|]. apply lookup_insert_eq.
    + rewrite lookup_insert_ne by done. intros E. destruct (fi_drv _ _ _ _ I k mt E) as (name' & ? & Hm). exists name'.
      split; [done|]. rewrite lookup_insert_ne; [done|congruence].
  - intros k k' mt mt'. pose proof (fi_drv _ _ _ _ I) as Hdrv.
    destruct (decide (k = (f_next s))) as [->|Hk], (decide (k' = (f_next s))) as [->|Hk']; rewrite ?lookup_insert_eq, ?lookup_insert_ne by done; [done| | |].
    + intros E1 E2 E. simplify_eq. destruct (Hdrv k' mt' E2) as (? & _ & ?). simpl in E. congruence.
    + intros E1 E2 E. simplify_eq. destruct (Hdrv k mt E1) as (? & _ & ?). simpl in E. congruence.
    + apply I.
  - eapply reg_inv_ext; [|exact (fi_dev _ _ _ _ I)]. intros d. simpl. rewrite count_insert_new by done. unfold has_dev, hopt. simpl.
    destruct dev as [d'|]; [unfold htake|]; repeat case_decide; simplify_eq; try done; lia.
  - rewrite !Hopen by (intros k; apply Hnone). done.
Qed.

(** What [mount] leaves: an error, or one mount more, that its caller refers to *)
Definition mounted x h s (path : list Z) (r : Z) s' : Prop :=
  f_files s' = f_files s /\ f_dirs s' = f_dirs s /\
  ((r < 0 /\ exists M', finv x h M' s') \/
   (r = 0 /\ exists m mt M', f_mnt s !! m = None /\ f_mnt s' !! m = Some mt /\ mt_path mt = npath_of path /\
      f_mounts s' = m :: f_mounts s /\ finv (htake m x) h M' s')).

Lemma mount_run x h M s malloc_ok strdup_ok path device api name :
  finv x h M s -> froom s -> room (f_bios s) -> 0 ∉ path -> find_fs impls name = Some api ->
  runs (mount malloc_ok strdup_ok path device api) s (mounted x h s path).
Proof.
  intros I Hroom Hbr Hp Hn. unfold mount. apply runs_bind. eexists _, _. split; [by apply temppath_run|].
  destruct (starts_slash (npath_of path)) eqn:Hsl; simpl negb; cbv iota; [|apply runs_ret; split; [done|]; split; [done|]; left; split; [done|eauto]].
  destruct (find_mount_run x h M s (npath_of path) I Hroom) as (s1 & E1 & Hs1).
  apply runs_bind. eexists _, _. split; [done|]. destruct (find s (npath_of path)) as [[m t]|].
  { destruct Hs1 as (mt & Em & -> & I1). eapply put_back; [done|]. intros s' M' I' Ef Ed.
    split; [done|]. split; [done|]. left. split; [done|eauto]. }
  subst s1. apply runs_bind. eapply runs_mono; [by eapply open_device_run|]. intros r s1 (b & -> & Hr).
  destruct r as [err|dev].
  { destruct Hr as [-> ->]. apply runs_ret. split; [done|]. split; [done|]. left. split; [done|].
    exists M. by destruct s. }
  assert (finv x (hopt dev h) M (with_bios s b)) as I1 by (destruct dev as [d|]; simpl; [done|subst; by destruct s]).
  destruct (law_mount impls name api dev (f_world s) M _ _ Hn (fi_world _ _ _ _ I1)) as (st & c & w & Ec & Hneg & Hpos).
  apply runs_bind. eapply runs_call; [exact Ec|]. cbv beta iota.
  destruct (Z.ltb_spec st 0) as [Hst|Hst].
  { eapply close_opt_run; [by apply finv_world; auto|]. intros b' I'. split; [done|]. split; [done|]. left. split; [done|eauto]. }
  destruct (Hpos Hst) as [Hc Hw]. pose proof (finv_add_mount _ _ _ _ (npath_of path) _ _ _ _ _ I1 Hn Hc Hw) as I2.
  destruct (malloc_ok && strdup_ok); simpl negb; cbv iota.
  - exists 0, (add_mount (with_bios s b) (FsMount (npath_of path) dev c 1 api) w). split; [done|].
    split; [done|]. split; [done|]. right. split; [done|]. exists (f_next s), (FsMount (npath_of path) dev c 1 api), (<[c := name]> M).
    split; [by destruct (fresh_id _ _ _ _ I) as (? & _)|]. split; [apply lookup_insert_eq|done].
  - eapply (close_opt_run _ _ (<[c := name]> M)).
    + assert (forall m mt, f_mnt s !! m = Some mt -> mt_cookie mt <> c) as Hcc.
      { intros m mt Em Hcm. destruct (fi_drv _ _ _ _ I m mt Em) as (? & _ & ?). congruence. }
      split; try apply I1; [|done]. intros m mt Em. destruct (fi_drv _ _ _ _ I1 m mt Em) as (name' & ? & ?). exists name'.
      split; [done|]. rewrite lookup_insert_ne; [done|]. apply not_eq_sym. by eapply Hcc.
    + intros b' I'. split; [done|]. split; [done|]. left. split; [done|eauto].
Qed.

Lemma fs_mount_at_run x h M s malloc_ok strdup_ok path fsname device :
  finv x h M s -> froom s -> room (f_bios s) -> 0 ∉ path ->
  runs (fs_mount_at impls malloc_ok strdup_ok path fsname device) s (mounted x h s path).
Proof.
  intros I Hroom Hbr Hp. unfold fs_mount_at. destruct (find_fs impls fsname) as [api|] eqn:E; [by eapply mount_run|].
  apply runs_ret. split; [done|]. split; [done|]. left. split; [done|eauto].
Qed.

(** Unmounting a mount that the one who mounted it still refers to *)
Lemma fs_unmount_run x h M s path :
  finv x h M s -> froom s -> 0 ∉ path -> (forall m t, find s (npath_of path) = Some (m, t) -> (0 < x m)%nat) ->
  runs (fs_unmount path) s (fun r s' => f_files s' = f_files s /\ f_dirs s' = f_dirs s /\
    match find s (npath_of path) with
    | None => r = ERR_NOT_FOUND /\ s' = s
    | Some (m, _) => r = 0 /\ exists M', finv (hdrop m x) h M' s'
    end).
Proof.
  intros I Hroom Hp Hx. unfold fs_unmount. apply runs_bind. eexists _, _. split; [by apply temppath_run|].
  destruct (find_mount_run x h M s (npath_of path) I Hroom) as (s1 & E1 & Hs1).
  apply runs_bind. eexists _, _. split; [done|]. destruct (find s (npath_of path)) as [[m t]|] eqn:Ef.
  2: { subst. by apply runs_ret. }
  destruct Hs1 as (mt & Em & -> & I1). specialize (Hx m t eq_refl).
  destruct (put_mount_run _ _ _ _ m I1) as (s2 & M2 & E2 & I2 & F2 & D2 & _); [unfold htake; rewrite decide_True by done; lia|].
  assert (finv x h M2 s2) as I2' by (eapply finv_ext; [intros k; apply hdrop_take|done|done]).
  destruct (put_mount_run _ _ _ _ m I2' Hx) as (s3 & M3 & E3 & I3 & F3 & D3 & _).
  apply runs_bind. eexists _, _. split; [exact E2|]. apply runs_bind. eexists _, _. split; [exact E3|].
  apply runs_ret. split; [by rewrite F3, F2|]. split; [by rewrite D3, D2|]. eauto.
Qed.

(** Formatting leaves the device open. *)
Lemma fs_format_device_run x h M s fsname device :
  finv x h M s -> room (f_bios s) ->
  runs (fs_format_device impls fsname device) s (fun r s' => f_files s' = f_files s /\ f_dirs s' = f_dirs s /\
    exists dev M', finv x (hopt dev h) M' s').
Proof.
  intros I Hbr. unfold fs_format_device.
  assert (forall s' : fstate W, s' = s -> f_files s' = f_files s /\ f_dirs s' = f_dirs s /\ exists dev M', finv x (hopt dev h) M' s') as H0.
  { intros s' ->. split; [done|]. split; [done|]. by exists None, M. }
  destruct (find_fs impls fsname) as [api|] eqn:E; [|apply runs_ret; auto].
  destruct (api_format api) as [format|] eqn:Ea; [|apply runs_ret; auto].
  apply runs_bind. eapply runs_mono; [by eapply open_device_run|]. intros r s1 (b & -> & Hr). destruct r as [err|dev].
  { apply runs_ret. apply H0. destruct Hr as [_ ->]. by destruct s. }
  assert (finv x (hopt dev h) M (with_bios s b)) as I1 by (destruct dev as [d|]; simpl; [done|subst; by destruct s]).
  destruct (law_format impls fsname api dev _ M _ _ format E (fi_world _ _ _ _ I1) Ea) as (st & w & Ec & Hw).
  eapply runs_call; [exact Ec|]. split; [done|]. split; [done|]. exists dev, M. by apply finv_world.
Qed.
End mounts.

(** * Clients of the file system layer

    Any sequence of calls of the functions of [lib/fs/fs.c].  [x m] counts the
    references to a mount that its [fs_mount] left behind, which only [fs_unmount]
    may give back. *)

Inductive fcall :=
| CMount (malloc_ok strdup_ok : bool) (path : list Z) (fsname : string) (device : option string)
| CUnmount (path : list Z)
| CFormat (fsname : string) (device : option string)
| COpen (path : list Z)
| CCreate (path : list Z) (len : Z)
| CRemove (path : list Z)
| CRead (f off len : Z)
| CWrite (f : Z) (buf : list Z) (off : Z)
| CTruncate (f len : Z)
| CStat (f : Z)
| CIoctl (f request : Z)
| CClose (f : Z)
| CMakeDir (path : list Z)
| COpenDir (path : list Z)
| CReadDir (d : Z)
| CCloseDir (d : Z)
| CStatFs (path : list Z)
| CLoad (path : list Z) (maxlen : Z).

Section sys.
Context `{KConfig} {W : Type} {impls : list (string * fs_api W)} `{!FsLaws impls}.
Implicit Types (s : fstate W) (x h : Z -> nat) (M : gmap Z string).
Notation finv := (finv (impls := impls)).
Notation F := (F (W := W)).

Definition status {A} (c : F (Z * A)) : F Z := '(st, _) ← c; mret st.
Definition fexec (c : fcall) : F Z :=
  match c with
  | CMount malloc_ok strdup_ok path fsname device => fs_mount_at impls malloc_ok strdup_ok path fsname device
  | CUnmount path => fs_unmount path
  | CFormat fsname device => fs_format_device impls fsname device
  | COpen path => status (fs_open_file true path)
  | CCreate path len => status (fs_create_file true path len)
  | CRemove path => fs_remove_file path
  | CRead f off len => status (fs_read_file f off len)
  | CWrite f buf off => fs_write_file f buf off
  | CTruncate f len => fs_truncate_file f len
  | CStat f => status (fs_stat_file f)
  | CIoctl f request => fs_file_ioctl f request
  | CClose f => fs_close_file f
  | CMakeDir path => fs_make_dir path
  | COpenDir path => status (fs_open_dir true path)
  | CReadDir d => status (fs_read_dir d)
  | CCloseDir d => fs_close_dir d
  | CStatFs path => status (fs_stat_fs path)
  | CLoad path maxlen => status (fs_load_file true path maxlen)
  end.

(** A path is a C string; a handle that is used is open; a mount is unmounted once;
    no file is removed from a file system on which something is open; a transfer
    stays in the range of an [off_t]. *)
Definition allowed x s (c : fcall) : Prop :=
  match c with
  | CMount _ _ path _ _ => froom s /\ room (f_bios s) /\ 0 ∉ path
  | CUnmount path => froom s /\ 0 ∉ path /\ forall m t, find s (npath_of path) = Some (m, t) -> (0 < x m)%nat
  | CFormat _ _ => room (f_bios s)
  | COpen path | CMakeDir path | COpenDir path => froom s /\ 0 ∉ path
  | CCreate path len => froom s /\ 0 ∉ path /\ 0 <= len
  | CRemove path => froom s /\ 0 ∉ path /\ forall m t, find s (npath_of path) = Some (m, t) -> idle s m
  | CRead f off len => is_Some (f_files s !! f) /\ off + len < 2 ^ 63 /\ 0 <= len
  | CWrite f buf off => is_Some (f_files s !! f) /\ off + Z.of_nat (length buf) < 2 ^ 63
  | CTruncate f len => is_Some (f_files s !! f) /\ 0 <= len
  | CStat f | CIoctl f _ | CClose f => is_Some (f_files s !! f)
  | CReadDir d | CCloseDir d => is_Some (f_dirs s !! d)
  | CStatFs _ => froom s
  | CLoad path maxlen => froom s /\ 0 ∉ path /\ 0 <= maxlen < 2 ^ 63
  end.

Definition own x s (c : fcall) (r : Z) s' : Z -> nat :=
  match c with
  | CMount _ _ _ _ _ => if r =? 0 then match f_mounts s' with m :: _ => htake m x | [] => x end else x
  | CUnmount path => match find s (npath_of path) with Some (m, _) => hdrop m x | None => x end
  | _ => x
  end.

(** From no mounts and no handles *)
Inductive client : (Z -> nat) -> fstate W -> Prop :=
| client_start b h M w : reg_inv ∅ b h -> wi (impls := impls) w M ∅ ∅ -> client (fun _ => 0%nat) (FState [] ∅ ∅ ∅ 0 b w)
| client_call x s c r s' : client x s -> allowed x s c -> fexec c s = Some (r, s') -> client (own x s c r s') s'.

Lemma status_run {A} (c : F (Z * A)) s (Q : Z -> fstate W -> Prop) : runs c s (fun r s' => Q r.1 s') -> runs (status c) s Q.
Proof. intros H0. apply runs_bind. eapply runs_mono; [exact H0|]. intros [st a] s' HQ. by apply runs_ret. Qed.

Definition good x s : Prop := exists h M, finv x h M s.

Lemma good_quiet x h s s' : quiet (impls := impls) x h s s' -> good x s'.
Proof. intros (_ & _ & M & I). by exists h, M. Qed.

Lemma fexec_mounts x s c : good x s -> allowed x s c ->
  match c with CMount _ _ _ _ _ | CUnmount _ | CFormat _ _ => True | _ => False end ->
  runs (fexec c) s (fun r s' => good (own x s c r s') s').
Proof.
  intros (h & M & I) Ha Hc. destruct c; try done; simpl in Ha |- *.
  - destruct Ha as (? & ? & ?). eapply runs_mono; [by eapply fs_mount_at_run|].
    intros r s' (_ & _ & [(Hr & M' & I')|(-> & m & mt & M' & _ & _ & _ & El & I')]).
    + rewrite (proj2 (Z.eqb_neq r 0)) by lia. by exists h, M'.
    + simpl. rewrite El. by exists h, M'.
  - destruct Ha as (? & ? & Hx). eapply runs_mono; [by eapply fs_unmount_run|].
    intros r s' (_ & _ & Hf). destruct (find s (npath_of path)) as [[m t]|]; [destruct Hf as (_ & M' & I')|destruct Hf as (_ & ->)]; eexists _, _; done.
  - eapply runs_mono; [by eapply fs_format_device_run|]. intros r s' (_ & _ & dev & M' & I'). by eexists _, _.
Qed.

Lemma fexec_paths x s c : good x s -> allowed x s c ->
  match c with COpen _ | CCreate _ _ | CRemove _ | CMakeDir _ | COpenDir _ | CStatFs _ | CLoad _ _ => True | _ => False end ->
  runs (fexec c) s (fun r s' => good (own x s c r s') s').
Proof.
  intros (h & M & I) Ha Hc. destruct c; try done; simpl in Ha |- *; try apply status_run.
  - destruct Ha as [? ?]. eapply runs_mono; [by eapply fs_open_file_run|]. intros r s' (_ & _ & M' & I'). by exists h, M'.
  - destruct Ha as (? & ? & ?). eapply runs_mono; [by eapply fs_create_file_run|]. intros r s' (_ & _ & M' & I'). by exists h, M'.
  - destruct Ha as (? & ? & ?). eapply runs_mono; [by eapply fs_remove_file_run|]. intros r s' Hq. exact (good_quiet _ _ _ _ Hq).
  - destruct Ha as [? ?]. eapply runs_mono; [by eapply fs_make_dir_run|]. intros r s' Hq. exact (good_quiet _ _ _ _ Hq).
  - destruct Ha as [? ?]. eapply runs_mono; [by eapply fs_open_dir_run|]. intros r s' (_ & _ & M' & I'). by exists h, M'.
  - eapply runs_mono; [by eapply fs_stat_fs_run|]. intros r s' Hq. exact (good_quiet _ _ _ _ Hq).
  - destruct Ha as (? & ? & ?). eapply runs_mono; [by eapply fs_load_file_run|]. intros r s' ((M' & I') & _). by exists h, M'.
Qed.

Lemma fexec_handles x s c : good x s -> allowed x s c ->
  match c with
  | CRead _ _ _ | CWrite _ _ _ | CTruncate _ _ | CStat _ | CIoctl _ _ | CClose _ | CReadDir _ | CCloseDir _ => True
  | _ => False
  end -> runs (fexec c) s (fun r s' => good (own x s c r s') s').
Proof.
  intros (h & M & I) Ha Hc. destruct c; try done; simpl in Ha |- *; try apply status_run.
  - destruct Ha as ([hd E] & ? & ?). eapply runs_mono; [by eapply fs_read_file_run|]. intros r s' Hq. exact (good_quiet _ _ _ _ Hq).
  - destruct Ha as ([hd E] & ?). eapply runs_mono; [by eapply fs_write_file_run|]. intros r s' Hq. exact (good_quiet _ _ _ _ Hq).
  - destruct Ha as ([hd E] & ?). eapply runs_mono; [by eapply fs_truncate_file_run|]. intros r s' Hq. exact (good_quiet _ _ _ _ Hq).
  - destruct Ha as [hd E]. eapply runs_mono; [by eapply fs_stat_file_run|]. intros r s' [Hq _]. exact (good_quiet _ _ _ _ Hq).
  - destruct Ha as [hd E]. eapply runs_mono; [by eapply fs_file_ioctl_run|]. intros r s' Hq. exact (good_quiet _ _ _ _ Hq).
  - destruct Ha as [hd E]. eapply runs_mono; [by eapply fs_close_file_run|]. intros r s' ((M' & I') & _). by exists h, M'.
  - destruct Ha as [hd E]. eapply runs_mono; [by eapply fs_read_dir_run|]. intros r s' Hq. exact (good_quiet _ _ _ _ Hq).
  - destruct Ha as [hd E]. eapply runs_mono; [by eapply fs_close_dir_run|]. intros r s' ((M' & I') & _). by exists h, M'.
Qed.

Lemma fexec_run x s c : good x s -> allowed x s c -> runs (fexec c) s (fun r s' => good (own x s c r s') s').
Proof. intros Hg Ha. destruct c; first [by apply fexec_mounts|by apply fexec_paths|by apply fexec_handles]. Qed.

Lemma client_good x s : client x s -> good x s.
Proof.
  induction 1 as [b h M w Hb Hw|x s c r s' _ IH Ha E].
  - exists h, M. split; simpl; try done.
    + constructor.
    + intros m. rewrite elem_of_nil, lookup_empty. split; [done|]. by intros ?%is_Some_None.
    + intros k. rewrite !lookup_empty. intros [?|[?|?]]; by apply is_Some_None in H0.
    + intros m Hm. lia.
    + eapply reg_inv_ext; [|done]. intros d. simpl. unfold count. rewrite map_filter_empty, map_size_empty. lia.
  - destruct (fexec_run x s c IH Ha) as (r0 & s0 & E0 & Hg). rewrite E in E0. by injection E0 as <- <-.
Qed.

(** A mount that nobody else holds is held by a handle. *)
Lemma held_by_handle x h M s m mt : finv x h M s -> f_mnt s !! m = Some mt -> ~ (0 < x m)%nat ->
  exists k hd, (f_files s !! k = Some hd \/ f_dirs s !! k = Some hd) /\ hd_mount hd = m.
Proof.
  intros I E Hx. destruct (fi_ref _ _ _ _ I m mt E) as [Er Hr].
  destruct (decide (0 < count (on m) (f_files s))%nat) as [(k & hd & ? & ?)%count_pos|]; [eauto|].
  destruct (count_pos (on m) (f_dirs s)) as (k & hd & ? & ?); [lia|eauto].
Qed.

(** A mount is mounted once. *)
Lemma client_once x s m : client x s -> (x m <= 1)%nat.
Proof.
  intros Hc. induction Hc as [|x s c r s' Hc IH Ha E]; [lia|]. destruct (client_good x s Hc) as (h & M & I). destruct c; try done; simpl in Ha, E |- *.
  - destruct Ha as (? & ? & ?). destruct (Z.eqb_spec r 0) as [->|]; [|done].
    destruct (fs_mount_at_run x h M s malloc_ok strdup_ok path fsname device) as (r & s1 & E1 & _ & _ & Hm); [done..|]. rewrite E in E1. injection E1 as <- <-.
    destruct Hm as [[? _]|(_ & m' & mt & M' & Hn & _ & _ & -> & _)]; [lia|]. unfold htake. case_decide as Hd; [|done]. subst m'.
    destruct (decide (0 < x m)%nat) as [Hx|]; [|lia]. apply (fi_x _ _ _ _ I) in Hx. rewrite Hn in Hx. by apply is_Some_None in Hx.
  - destruct (find s (npath_of path)) as [[m' t]|]; [|done]. unfold hdrop. case_decide; lia.
Qed.
End sys.
