(* ===== verification/Memfs.v ===== *)
(** * The file system in memory: [lib/fs/memfs/memfs.c]

    A driver of Fs.  Files and open directories are named by the order in which they
    were allocated; using one that is freed is a fault.  A file has the block its
    [ptr] points to, which is as large as it was allocated, and its [len].

    [mw_mallocs] says of the calls of malloc, calloc and realloc to come whether they
    succeed, [mw_strdups] the same of strdup, and [mw_stale] has the bytes that are
    found in memory that realloc adds to a block. *)
From S2P Require Import Prelude Bio FsPath Fs.

Definition FS_MAX_FILE_LEN : Z := 64.

Record memfs_t := Memfs { ms_files : list Z; ms_dcookies : list Z }.
Record memfs_file_t := MemfsFile { mf_fs : Z; mf_name : option (list Z); mf_ptr : list Z; mf_len : Z }.
Record dircookie := DirCookie { dc_fs : Z; dc_next_file : option Z }.

Record mworld := MWorld {
  mw_fs : gmap Z memfs_t;
  mw_files : gmap Z memfs_file_t;
  mw_dirs : gmap Z dircookie;
  mw_next : Z;
  mw_mallocs : list bool;
  mw_strdups : list bool;
  mw_stale : list Z;
}.

Definition mm (A : Type) : Type := dm mworld A.
Definition m_ret {A} (x : A) : mm A := fun w => Some (x, w).
Definition m_bind {A B} (f : A -> mm B) (c : mm A) : mm B := fun w => '(x, w) ← c w; f x w.
#[export] Instance m_mret : MRet mm := @m_ret.
#[export] Instance m_mbind : MBind mm := @m_bind.
Definition m_fault {A} : mm A := fun _ => None.
Definition m_get {A} (f : mworld -> option A) : mm A := fun w => x ← f w; Some (x, w).

Definition set_mfs (f : gmap Z memfs_t -> gmap Z memfs_t) (w : mworld) : mworld :=
  MWorld (f (mw_fs w)) (mw_files w) (mw_dirs w) (mw_next w) (mw_mallocs w) (mw_strdups w) (mw_stale w).
Definition set_mfiles (f : gmap Z memfs_file_t -> gmap Z memfs_file_t) (w : mworld) : mworld :=
  MWorld (mw_fs w) (f (mw_files w)) (mw_dirs w) (mw_next w) (mw_mallocs w) (mw_strdups w) (mw_stale w).
Definition set_mdirs (f : gmap Z dircookie -> gmap Z dircookie) (w : mworld) : mworld :=
  MWorld (mw_fs w) (mw_files w) (f (mw_dirs w)) (mw_next w) (mw_mallocs w) (mw_strdups w) (mw_stale w).
Definition m_mod (f : mworld -> mworld) : mm unit := fun w => Some ((), f w).

(** ** Memory *)
Definition malloc_ok : mm bool := fun w =>
  Some (default true (head (mw_mallocs w)),
    MWorld (mw_fs w) (mw_files w) (mw_dirs w) (mw_next w) (tail (mw_mallocs w)) (mw_strdups w) (mw_stale w)).
Definition strdup_ok : mm bool := fun w =>
  Some (default true (head (mw_strdups w)),
    MWorld (mw_fs w) (mw_files w) (mw_dirs w) (mw_next w) (mw_mallocs w) (tail (mw_strdups w)) (mw_stale w)).
Definition new_ptr : mm Z := fun w =>
  Some (mw_next w, MWorld (mw_fs w) (mw_files w) (mw_dirs w) (mw_next w + 1) (mw_mallocs w) (mw_strdups w) (mw_stale w)).

Definition stale_bytes (n : nat) : mm (list Z) := fun w =>
  Some (take n (mw_stale w ++ replicate n 0),
    MWorld (mw_fs w) (mw_files w) (mw_dirs w) (mw_next w) (mw_mallocs w) (mw_strdups w) (drop n (mw_stale w))).

(** The block behind [realloc(ptr, n)]; [None] when there is no memory *)
Definition realloc_block (ptr : list Z) (n : Z) : mm (option (list Z)) :=
  ok ← malloc_ok;
  if ok : bool then
    let grow := (Z.to_nat n - length ptr)%nat in
    stale ← stale_bytes grow;
    mret (Some (take (Z.to_nat n) ptr ++ stale))
  else mret None.

(** [memcpy] out of and into a block *)
Definition copy_out (ptr : list Z) (off len : Z) : option (list Z) :=
  if len =? 0 then Some []
  else if (0 <=? off) && (off + len <=? Z.of_nat (length ptr)) then Some (take (Z.to_nat len) (drop (Z.to_nat off) ptr))
  else None.
Definition copy_in (ptr : list Z) (off : Z) (buf : list Z) : option (list Z) :=
  if (length buf =? 0)%nat then Some ptr
  else if (0 <=? off) && (off + Z.of_nat (length buf) <=? Z.of_nat (length ptr))
  then Some (take (Z.to_nat off) ptr ++ buf ++ drop (Z.to_nat off + length buf) ptr)
  else None.

(** ** Files *)
Definition the_fs (c : Z) : mm memfs_t := m_get (fun w => mw_fs w !! c).
Definition the_mfile (f : Z) : mm memfs_file_t := m_get (fun w => mw_files w !! f).

Fixpoint find_file_walk (name : list Z) (l : list Z) : mm (option Z) :=
  match l with
  | [] => mret None
  | f :: l =>
      file ← the_mfile f;
      match mf_name file with
      | None => m_fault
      | Some n => if bool_decide (name = n) then mret (Some f) else find_file_walk name l
      end
  end.
Definition find_file (mem : memfs_t) (name : list Z) : mm (option Z) := find_file_walk name (ms_files mem).

Definition memfs_mount (dev : option Z) : mm (Z * Z) :=
  ok ← malloc_ok;
  if negb ok then mret (ERR_NO_MEMORY, 0)
  else
    mem ← new_ptr;
    m_mod (set_mfs (insert mem (Memfs [] [])));;
    mret (NO_ERROR, mem).

Definition free_file (f : Z) : mm unit := the_mfile f;; m_mod (set_mfiles (delete f)).
Fixpoint free_files (l : list Z) : mm unit :=
  match l with
  | [] => mret ()
  | f :: l => free_file f;; free_files l
  end.
Definition memfs_unmount (cookie : Z) : mm Z :=
  mem ← the_fs cookie;
  free_files (ms_files mem);;
  m_mod (set_mfs (delete cookie));;
  mret NO_ERROR.

Definition memfs_create (cookie : Z) (name : list Z) (len : Z) : mm (Z * Z) :=
  if ULONG_MAX <=? len then mret (ERR_NO_MEMORY, 0)
  else
    let name := trim_name name in
    if bool_decide (slash ∈ name) then mret (ERR_NOT_SUPPORTED, 0)
    else
      mem ← the_fs cookie;
      found ← find_file mem name;
      match found with
      | Some _ => mret (ERR_ALREADY_EXISTS, 0)
      | None =>
          ok ← malloc_ok;
          if negb ok then mret (ERR_NO_MEMORY, 0)
          else
            ok ← malloc_ok;
            if negb ok then mret (ERR_NO_MEMORY, 0)
            else
              file ← new_ptr;
              ok ← strdup_ok;
              let name := if ok : bool then Some name else None in
              m_mod (set_mfiles (insert file (MemfsFile cookie name (replicate (Z.to_nat len) 0) len)));;
              m_mod (set_mfs (insert cookie (Memfs (ms_files mem ++ [file]) (ms_dcookies mem))));;
              mret (NO_ERROR, file)
      end.

Definition memfs_open (cookie : Z) (name : list Z) : mm (Z * Z) :=
  let name := trim_name name in
  mem ← the_fs cookie;
  found ← find_file mem name;
  match found with
  | None => mret (ERR_NOT_FOUND, 0)
  | Some file => mret (NO_ERROR, file)
  end.

Definition memfs_remove (cookie : Z) (name : list Z) : mm Z :=
  let name := trim_name name in
  mem ← the_fs cookie;
  found ← find_file mem name;
  match found with
  | None => mret ERR_NOT_FOUND
  | Some file =>
      m_mod (set_mfs (insert cookie (Memfs (filter (fun f => f <> file) (ms_files mem)) (ms_dcookies mem))));;
      free_file file;;
      mret NO_ERROR
  end.

Definition memfs_close (fcookie : Z) : mm Z := mret NO_ERROR.

(** [mutex_acquire(&file->fs->lock)] looks at both. *)
Definition lock_file (fcookie : Z) : mm memfs_file_t :=
  file ← the_mfile fcookie; the_fs (mf_fs file);; mret file.
Definition set_file (fcookie : Z) (file : memfs_file_t) : mm unit := m_mod (set_mfiles (insert fcookie file)).

Definition memfs_read (fcookie off len : Z) : mm (Z * list Z) :=
  if off <? 0 then mret (ERR_INVALID_ARGS, [])
  else
    file ← lock_file fcookie;
    let len := if to_signed 64 (mf_len file) <=? off then 0
               else if mf_len file <? u64 (off + len) then u64 (mf_len file - off)
               else len in
    data ← m_get (fun _ => copy_out (mf_ptr file) off len);
    mret (to_signed 64 len, data).

Definition memfs_truncate (fcookie len : Z) : mm Z :=
  file ← lock_file fcookie;
  if mf_len file <? len then mret ERR_INVALID_ARGS
  else
    ptr ← realloc_block (mf_ptr file) (if len =? 0 then 1 else len);
    match ptr with
    | None => mret ERR_NO_MEMORY
    | Some ptr => set_file fcookie (MemfsFile (mf_fs file) (mf_name file) ptr len);; mret NO_ERROR
    end.

Definition memfs_write (fcookie : Z) (buf : list Z) (off : Z) : mm Z :=
  let len := Z.of_nat (length buf) in
  if off <? 0 then mret ERR_INVALID_ARGS
  else
    file ← lock_file fcookie;
    grown ←
      (if mf_len file <? u64 (off + len) then
         ptr ← realloc_block (mf_ptr file) (u64 (off + len));
         mret ((fun p => MemfsFile (mf_fs file) (mf_name file) p (u64 (off + len))) <$> ptr)
       else mret (Some file));
    match grown with
    | None => mret ERR_NO_MEMORY
    | Some file =>
        ptr ← m_get (fun _ => copy_in (mf_ptr file) off buf);
        set_file fcookie (MemfsFile (mf_fs file) (mf_name file) ptr (mf_len file));;
        mret len
    end.

Definition memfs_stat (fcookie : Z) : mm (Z * file_stat) :=
  file ← lock_file fcookie;
  mret (NO_ERROR, FileStat false (mf_len file)).

(** ** Directories: there is one, the root *)
Definition memfs_opendir (cookie : Z) (name : list Z) : mm (Z * Z) :=
  let name := trim_name name in
  if negb (bool_decide (name = [])) then mret (ERR_NOT_FOUND, 0)
  else
    ok ← malloc_ok;
    if negb ok then mret (ERR_NO_MEMORY, 0)
    else
      dir ← new_ptr;
      mem ← the_fs cookie;
      m_mod (set_mdirs (insert dir (DirCookie cookie (head (ms_files mem)))));;
      m_mod (set_mfs (insert cookie (Memfs (ms_files mem) (dir :: ms_dcookies mem))));;
      mret (NO_ERROR, dir).

(** The file behind [f] in the list *)
Fixpoint next_in (f : Z) (l : list Z) : option Z :=
  match l with
  | [] => None
  | g :: l => if g =? f then head l else next_in f l
  end.
Definition memfs_readdir (dcookie : Z) : mm (Z * list Z) :=
  dir ← m_get (fun w => mw_dirs w !! dcookie);
  mem ← the_fs (dc_fs dir);
  match dc_next_file dir with
  | Some f =>
      file ← the_mfile f;
      match mf_name file with
      | None => m_fault
      | Some name =>
          m_mod (set_mdirs (insert dcookie (DirCookie (dc_fs dir) (next_in f (ms_files mem)))));;
          mret (NO_ERROR, take (Z.to_nat (FS_MAX_FILE_LEN - 1)) name)
      end
  | None => mret (ERR_NOT_FOUND, [])
  end.
Definition memfs_closedir (dcookie : Z) : mm Z :=
  dir ← m_get (fun w => mw_dirs w !! dcookie);
  mem ← the_fs (dc_fs dir);
  if bool_decide (dcookie ∈ ms_dcookies mem) then
    m_mod (set_mfs (insert (dc_fs dir) (Memfs (ms_files mem) (filter (fun d => d <> dcookie) (ms_dcookies mem)))));;
    m_mod (set_mdirs (delete dcookie));;
    mret NO_ERROR
  else m_fault.

Definition memfs_api : fs_api mworld := {|
  api_format := None;
  api_fs_stat := None;
  api_mount := memfs_mount;
  api_unmount := memfs_unmount;
  api_open := memfs_open;
  api_create := Some memfs_create;
  api_remove := Some memfs_remove;
  api_truncate := Some memfs_truncate;
  api_stat := memfs_stat;
  api_read := memfs_read;
  api_write := Some memfs_write;
  api_close := memfs_close;
  api_mkdir := None;
  api_opendir := Some memfs_opendir;
  api_readdir := Some memfs_readdir;
  api_closedir := Some memfs_closedir;
  api_file_ioctl := None;
|}.
Definition memfs_impl : string * fs_api mworld := ("memfs"%string, memfs_api).
