(* ===== verification/MemfsOps.v ===== *)
(** * The file system in memory keeps the laws of a driver *)
From S2P Require Import Prelude Bio FsPath Fs FsInv Memfs.

(** ** Runs *)
Definition mruns {A} (c : mm A) (w : mworld) (Q : A -> mworld -> Prop) : Prop := exists r w', c w = Some (r, w') /\ Q r w'.

Lemma mruns_ret {A} (r : A) w (Q : A -> mworld -> Prop) : Q r w -> mruns (mret r) w Q.
Proof. intros HQ. by exists r, w. Qed.
Lemma mruns_bind {A B} (c : mm A) (f : A -> mm B) w (Q : B -> mworld -> Prop) :
  mruns c w (fun r w' => mruns (f r) w' Q) -> mruns (c ≫= f) w Q.
Proof.
  intros (r & w' & E & r' & w'' & E' & HQ). exists r', w''. split; [|done]. unfold mbind, m_mbind, m_bind. by rewrite E.
Qed.
Lemma mruns_mono {A} (c : mm A) w (Q Q' : A -> mworld -> Prop) :
  mruns c w Q -> (forall r w', Q r w' -> Q' r w') -> mruns c w Q'.
Proof. intros (r & w' & E & HQ) H. exists r, w'. auto. Qed.
Lemma mruns_get {A} (f : mworld -> option A) w r (Q : A -> mworld -> Prop) : f w = Some r -> Q r w -> mruns (m_get f) w Q.
Proof. intros E HQ. exists r, w. split; [|done]. unfold m_get. by rewrite E. Qed.
Lemma mruns_mod f w (Q : unit -> mworld -> Prop) : Q () (f w) -> mruns (m_mod f) w Q.
Proof. intros HQ. by exists (), (f w). Qed.

(** ** The invariant *)
Record file_ok (file : memfs_file_t) : Prop := {
  fo_name : is_Some (mf_name file);
  fo_len : 0 <= mf_len file <= Z.of_nat (length (mf_ptr file));
  fo_max : mf_len file < 2 ^ 64;
}.

Definition dir_ok (w : mworld) (c dc : Z) : Prop := exists mem dir,
  mw_fs w !! c = Some mem /\ dc ∈ ms_dcookies mem /\ mw_dirs w !! dc = Some dir /\ dc_fs dir = c /\
  forall f, dc_next_file dir = Some f -> f ∈ ms_files mem.

Record mwi (w : mworld) (Mo : gmap Z string) (Fo Do : gmap Z (Z * Z)) : Prop := {
  mi_mounted c name : Mo !! c = Some name -> is_Some (mw_fs w !! c);
  mi_next k : is_Some (Mo !! k) \/ is_Some (mw_fs w !! k) \/ is_Some (mw_files w !! k) \/ is_Some (mw_dirs w !! k) -> k < mw_next w;
  mi_nodup c mem : mw_fs w !! c = Some mem -> NoDup (ms_files mem);
  mi_files c mem f : mw_fs w !! c = Some mem -> f ∈ ms_files mem ->
    exists file, mw_files w !! f = Some file /\ mf_fs file = c /\ file_ok file;
  mi_names c mem f g file file' : mw_fs w !! c = Some mem -> f ∈ ms_files mem -> g ∈ ms_files mem ->
    mw_files w !! f = Some file -> mw_files w !! g = Some file' -> mf_name file = mf_name file' -> f = g;
  mi_file k c fc : Fo !! k = Some (c, fc) -> exists mem, mw_fs w !! c = Some mem /\ fc ∈ ms_files mem;
  mi_dir k c dc : Do !! k = Some (c, dc) -> dir_ok w c dc;
  mi_inj k k' c c' dc : Do !! k = Some (c, dc) -> Do !! k' = Some (c', dc) -> k = k';
  mi_strdup : Forall (fun ok => ok = true) (mw_strdups w);
}.

(** Only what the world says of memory to come differs. *)
Definition same_files (w w' : mworld) : Prop :=
  mw_fs w' = mw_fs w /\ mw_files w' = mw_files w /\ mw_dirs w' = mw_dirs w /\ mw_next w' = mw_next w /\
  mw_strdups w' = mw_strdups w.

Lemma mwi_same w w' Mo Fo Do : same_files w w' -> mwi w Mo Fo Do -> mwi w' Mo Fo Do.
Proof.
  destruct w, w'. unfold same_files. simpl. intros (-> & -> & -> & -> & ->) [].
  split; simpl in *; try done.
Qed.

Lemma same_refl w : same_files w w.
Proof. by repeat split. Qed.
Lemma same_trans w w' w'' : same_files w w' -> same_files w' w'' -> same_files w w''.
Proof. unfold same_files. intros (-> & -> & -> & -> & ->) (-> & -> & -> & -> & ->). done. Qed.

Lemma malloc_run w (Q : bool -> mworld -> Prop) : (forall ok w', same_files w w' -> Q ok w') -> mruns malloc_ok w Q.
Proof. intros HQ. eexists _, _. split; [done|]. by apply HQ. Qed.

Lemma realloc_run ptr n w (Q : option (list Z) -> mworld -> Prop) :
  0 <= n -> (forall w', same_files w w' -> Q None w') ->
  (forall w' grown, same_files w w' -> length grown = (Z.to_nat n - length ptr)%nat ->
     Q (Some (take (Z.to_nat n) ptr ++ grown)) w') ->
  mruns (realloc_block ptr n) w Q.
Proof.
  intros Hn Hnone Hsome. unfold realloc_block. apply mruns_bind, malloc_run. intros ok w' Hw. destruct ok; [|by apply mruns_ret, Hnone].
  apply mruns_bind. eexists _, _. split; [done|]. apply mruns_ret. apply Hsome.
  - eapply same_trans; [done|]. by repeat split.
  - rewrite length_take, length_app, length_replicate. lia.
Qed.

(** ** Files *)
Lemma the_fs_run w c mem (Q : memfs_t -> mworld -> Prop) : mw_fs w !! c = Some mem -> Q mem w -> mruns (the_fs c) w Q.
Proof. intros E HQ. by eapply mruns_get. Qed.

Lemma find_file_run w Mo Fo Do c mem name (Q : option Z -> mworld -> Prop) :
  mwi w Mo Fo Do -> mw_fs w !! c = Some mem ->
  (forall f file, f ∈ ms_files mem -> mw_files w !! f = Some file -> mf_name file = Some name -> Q (Some f) w) ->
  ((forall f file, f ∈ ms_files mem -> mw_files w !! f = Some file -> mf_name file <> Some name) -> Q None w) ->
  mruns (find_file mem name) w Q.
Proof.
  intros I E. unfold find_file. assert (forall f, f ∈ ms_files mem -> f ∈ ms_files mem) as Hl by auto. revert Hl.
  generalize (ms_files mem) at 1 3 4 5. intros l. induction l as [|f l IH]; intros Hl Hsome Hnone; cbn [find_file_walk].
  - apply mruns_ret, Hnone. intros f file Hf. by apply elem_of_nil in Hf.
  - destruct (mi_files _ _ _ _ I c mem f E (Hl f ltac:(left))) as (file & Ef & _ & Ho). apply mruns_bind. eapply mruns_get; [done|].
    destruct (fo_name _ Ho) as [n En]. rewrite En. case_bool_decide as Hn.
    + apply mruns_ret. eapply Hsome; [left|done|by subst].
    + apply IH; [intros; apply Hl; by right|intros; eapply Hsome; [by right|done|done]|].
      intros Hno. apply Hnone. intros g file' [->|Hg]%elem_of_cons Eg Hn'; [congruence|]. by eapply Hno.
Qed.

Lemma lock_file_run w Mo Fo Do k c fc (Q : memfs_file_t -> mworld -> Prop) :
  mwi w Mo Fo Do -> Fo !! k = Some (c, fc) ->
  (forall file, mw_files w !! fc = Some file -> mf_fs file = c -> file_ok file -> Q file w) -> mruns (lock_file fc) w Q.
Proof.
  intros I E HQ. destruct (mi_file _ _ _ _ I k c fc E) as (mem & Em & Hf).
  destruct (mi_files _ _ _ _ I c mem fc Em Hf) as (file & Ef & Hfs & Ho).
  unfold lock_file. apply mruns_bind. eapply mruns_get; [done|]. apply mruns_bind. rewrite Hfs. eapply the_fs_run; [done|].
  apply mruns_ret. by apply HQ.
Qed.

(** New contents of a file *)
Lemma mwi_set_file w Mo Fo Do fc file ptr len :
  mwi w Mo Fo Do -> mw_files w !! fc = Some file -> 0 <= len <= Z.of_nat (length ptr) -> len < 2 ^ 64 ->
  mwi (set_mfiles (insert fc (MemfsFile (mf_fs file) (mf_name file) ptr len)) w) Mo Fo Do.
Proof.
  intros I E Hl Hm. set (file' := MemfsFile _ _ _ _).
  assert (forall f fl, mw_files (set_mfiles (insert fc file') w) !! f = Some fl ->
    exists fl0, mw_files w !! f = Some fl0 /\ mf_fs fl = mf_fs fl0 /\ mf_name fl = mf_name fl0) as Hold.
  { intros f fl. simpl. destruct (decide (f = fc)) as [->|]; [rewrite lookup_insert_eq|rewrite lookup_insert_ne by done];
      intros; simplify_eq; eauto. }
  split; try apply I.
  - intros k Hk. apply (mi_next _ _ _ _ I k). simpl in Hk. rewrite lookup_insert_is_Some in Hk. destruct (decide (k = fc)); naive_solver.
  - intros c mem f Ec Hf. destruct (mi_files _ _ _ _ I c mem f Ec Hf) as (fl & Ef & Hfs & Ho). simpl.
    destruct (decide (f = fc)) as [->|]; [|rewrite lookup_insert_ne by done; eauto]. rewrite lookup_insert_eq. simplify_eq.
    exists file'. split; [done|]. split; [done|]. split; [apply Ho|done|done].
  - intros c mem f g fl fl' Ec Hf Hg E1 E2 Hn. destruct (Hold _ _ E1) as (fl0 & ? & _ & Hn1), (Hold _ _ E2) as (fl0' & ? & _ & Hn2).
    eapply (mi_names _ _ _ _ I c mem f g fl0 fl0'); try done. congruence.
Qed.

Lemma copy_in_ok ptr off buf :
  0 <= off -> off + Z.of_nat (length buf) <= Z.of_nat (length ptr) ->
  copy_in ptr off buf = Some (take (Z.to_nat off) ptr ++ buf ++ drop (Z.to_nat off + length buf) ptr).
Proof.
  intros H0 Hl. unfold copy_in. destruct (Nat.eqb_spec (length buf) 0) as [E|].
  - apply nil_length_inv in E as ->. simpl. by rewrite Nat.add_0_r, take_drop.
  - by rewrite (proj2 (Z.leb_le 0 off)), (proj2 (Z.leb_le _ _)) by lia.
Qed.

(** ** Names and directories *)
Lemma mwi_open w Mo Fo Do k c fc mem :
  mwi w Mo Fo Do -> mw_fs w !! c = Some mem -> fc ∈ ms_files mem -> mwi w Mo (<[k := (c, fc)]> Fo) Do.
Proof.
  intros I E Hf. split; try apply I. intros k' c' fc'. destruct (decide (k' = k)) as [->|].
  - rewrite lookup_insert_eq. intros. simplify_eq. eauto.
  - rewrite lookup_insert_ne by done. apply I.
Qed.

(** The lists of a file system are replaced. *)
Lemma mwi_lists w Mo Fo Do c mem files dcookies :
  mwi w Mo Fo Do -> mw_fs w !! c = Some mem -> NoDup files ->
  (forall f, f ∈ files -> exists file, mw_files w !! f = Some file /\ mf_fs file = c /\ file_ok file) ->
  (forall f g file file', f ∈ files -> g ∈ files -> mw_files w !! f = Some file -> mw_files w !! g = Some file' ->
     mf_name file = mf_name file' -> f = g) ->
  (forall k f, Fo !! k = Some (c, f) -> f ∈ ms_files mem -> f ∈ files) ->
  (forall k dc, Do !! k = Some (c, dc) -> dc ∈ ms_dcookies mem -> dc ∈ dcookies) ->
  (forall k dc dir f, Do !! k = Some (c, dc) -> mw_dirs w !! dc = Some dir -> dc_next_file dir = Some f -> f ∈ ms_files mem -> f ∈ files) ->
  mwi (set_mfs (insert c (Memfs files dcookies)) w) Mo Fo Do.
Proof.
  intros I Ec Hnd Hok Hun Hfo Hdo Hnx.
  assert (forall c' mem', <[c := Memfs files dcookies]> (mw_fs w) !! c' = Some mem' ->
    c' <> c /\ mw_fs w !! c' = Some mem' \/ c' = c /\ mem' = Memfs files dcookies) as Hin.
  { intros c' mem'. rewrite lookup_insert_Some. naive_solver. }
  split; simpl; try apply I.
  - intros c' n E'. rewrite lookup_insert_is_Some. destruct (decide (c = c')); [by left|]. right. split; [done|]. by eapply (mi_mounted _ _ _ _ I).
  - intros k Hk. apply (mi_next _ _ _ _ I k). rewrite lookup_insert_is_Some in Hk. destruct (decide (c = k)); naive_solver.
  - intros c' mem' [(_ & E')|(-> & ->)]%Hin; [by eapply (mi_nodup _ _ _ _ I)|done].
  - intros c' mem' f [(_ & E')|(-> & ->)]%Hin; [by eapply (mi_files _ _ _ _ I)|apply Hok].
  - intros c' mem' f g fl fl' [(_ & E')|(-> & ->)]%Hin; [by eapply (mi_names _ _ _ _ I)|apply Hun].
  - intros k c' fc Ek. destruct (mi_file _ _ _ _ I k c' fc Ek) as (m0 & E0 & Hf). destruct (decide (c' = c)) as [->|].
    + rewrite lookup_insert_eq. eexists. split; [done|]. simplify_eq. by eapply Hfo.
    + rewrite lookup_insert_ne by done. eauto.
  - intros k c' dc Ek. destruct (mi_dir _ _ _ _ I k c' dc Ek) as (m0 & dir & E0 & Hd & Ed & Hfs & Hn). destruct (decide (c' = c)) as [->|].
    + exists (Memfs files dcookies), dir. simpl. rewrite lookup_insert_eq. simplify_eq. repeat split; eauto.
    + exists m0, dir. simpl. rewrite lookup_insert_ne by done. eauto.
Qed.

(** A file that is in no list yet *)
Lemma mwi_fresh w Mo Fo Do file :
  mwi w Mo Fo Do ->
  mwi (MWorld (mw_fs w) (<[mw_next w := file]> (mw_files w)) (mw_dirs w) (mw_next w + 1) (mw_mallocs w)
         (tail (mw_strdups w)) (mw_stale w)) Mo Fo Do.
Proof.
  intros I. assert (forall c mem f, mw_fs w !! c = Some mem -> f ∈ ms_files mem -> f <> mw_next w) as Hne.
  { intros c mem f E Hf ->. destruct (mi_files _ _ _ _ I c mem _ E Hf) as (fl & Ef & _).
    pose proof (mi_next _ _ _ _ I (mw_next w) ltac:(rewrite Ef; eauto)). lia. }
  split; simpl; try apply I.
  - intros k Hk. rewrite lookup_insert_is_Some in Hk. destruct (decide (mw_next w = k)); [lia|].
    enough (k < mw_next w) by lia. apply (mi_next _ _ _ _ I). naive_solver.
  - intros c mem f E Hf. rewrite lookup_insert_ne by (by eapply not_eq_sym, Hne). by eapply (mi_files _ _ _ _ I).
  - intros c mem f g fl fl' E Hf Hg. rewrite !lookup_insert_ne by (by eapply not_eq_sym, Hne). by eapply (mi_names _ _ _ _ I).
  - pose proof (mi_strdup _ _ _ _ I) as Hs. destruct (mw_strdups w); [done|]. by inv Hs.
Qed.

Lemma mwi_new_file w Mo Fo Do c mem file name :
  mwi w Mo Fo Do -> mw_fs w !! c = Some mem ->
  (forall f fl, f ∈ ms_files mem -> mw_files w !! f = Some fl -> mf_name fl <> Some name) ->
  mf_fs file = c -> mf_name file = Some name -> file_ok file ->
  mwi (MWorld (<[c := Memfs (ms_files mem ++ [mw_next w]) (ms_dcookies mem)]> (mw_fs w)) (<[mw_next w := file]> (mw_files w))
         (mw_dirs w) (mw_next w + 1) (mw_mallocs w) (tail (mw_strdups w)) (mw_stale w)) Mo Fo Do.
Proof.
  intros I Ec Hno Hfs Hname Ho.
  assert (mw_next w ∉ ms_files mem) as Hf0.
  { intros Hf. destruct (mi_files _ _ _ _ I c mem _ Ec Hf) as (fl & Ef & _).
    pose proof (mi_next _ _ _ _ I (mw_next w) ltac:(rewrite Ef; eauto)). lia. }
  assert (forall f, f ∈ ms_files mem -> <[mw_next w := file]> (mw_files w) !! f = mw_files w !! f) as Hl.
  { intros f Hf. rewrite lookup_insert_ne by (intros <-; done). done. }
  apply (mwi_lists _ _ _ _ c mem (ms_files mem ++ [mw_next w]) (ms_dcookies mem) (mwi_fresh _ _ _ _ file I)); simpl; try done.
  - apply NoDup_app. split; [by eapply (mi_nodup _ _ _ _ I)|]. split; [|apply NoDup_singleton]. by intros f Hf ->%list_elem_of_singleton.
  - intros f [Hf| ->%list_elem_of_singleton]%elem_of_app; [|rewrite lookup_insert_eq; eauto].
    rewrite Hl by done. by eapply (mi_files _ _ _ _ I).
  - intros f g fl fl' [Hf| ->%list_elem_of_singleton]%elem_of_app [Hg| ->%list_elem_of_singleton]%elem_of_app E1 E2 Hn; [..|done];
      rewrite ?(Hl f Hf), ?lookup_insert_eq in E1; rewrite ?(Hl g Hg), ?lookup_insert_eq in E2.
    + by eapply (mi_names _ _ _ _ I).
    + destruct (Hno f fl Hf E1). congruence.
    + destruct (Hno g fl' Hg E2). congruence.
  - set_solver.
  - set_solver.
Qed.

(** A file leaves the list and is freed. *)
Lemma mwi_drop_file w Mo Fo Do c mem f :
  mwi w Mo Fo Do -> mw_fs w !! c = Some mem -> f ∈ ms_files mem ->
  (forall k, Fo !! k <> Some (c, f)) ->
  (forall k dc dir, Do !! k = Some (c, dc) -> mw_dirs w !! dc = Some dir -> dc_next_file dir <> Some f) ->
  mwi (set_mfiles (delete f) (set_mfs (insert c (Memfs (filter (fun g => g <> f) (ms_files mem)) (ms_dcookies mem))) w)) Mo Fo Do.
Proof.
  intros I Ec Hf Hfo Hdo. set (files := filter _ _).
  assert (mwi (set_mfs (insert c (Memfs files (ms_dcookies mem))) w) Mo Fo Do) as J.
  { apply (mwi_lists _ _ _ _ c mem); try done; subst files.
    - apply NoDup_filter. by eapply (mi_nodup _ _ _ _ I).
    - intros g [_ Hg]%list_elem_of_filter. by eapply (mi_files _ _ _ _ I).
    - intros g g' fl fl' [_ Hg]%list_elem_of_filter [_ Hg']%list_elem_of_filter. by eapply (mi_names _ _ _ _ I).
    - intros k g Ek Hg. apply list_elem_of_filter. split; [|done]. intros ->. by eapply Hfo.
    - intros k dc dir g Ek Ed Hn Hg. apply list_elem_of_filter. split; [|done]. intros ->. by eapply Hdo. }
  assert (forall c' mem' g, <[c := Memfs files (ms_dcookies mem)]> (mw_fs w) !! c' = Some mem' -> g ∈ ms_files mem' -> f <> g) as Hne.
  { intros c' mem' g E Hg <-. destruct (decide (c' = c)) as [->|].
    - rewrite lookup_insert_eq in E. simplify_eq. simpl in Hg. by apply list_elem_of_filter in Hg as [? _].
    - rewrite lookup_insert_ne in E by done. destruct (mi_files _ _ _ _ I c' mem' f E Hg) as (? & ? & ? & _).
      destruct (mi_files _ _ _ _ I c mem f Ec Hf) as (? & ? & ? & _). simplify_eq. }
  destruct J as [J1 J2 J3 J4 J5 J6 J7 J8 J9]. split; simpl in *; try done.
  - intros k Hk. apply J2. rewrite lookup_delete_is_Some in Hk. naive_solver.
  - intros c' mem' g E Hg. rewrite lookup_delete_ne by (by eapply Hne). eauto.
  - intros c' mem' g g' fl fl' E Hg Hg'. rewrite !lookup_delete_ne by (by eapply Hne). eauto.
Qed.

(** ** Open directories *)
Lemma mwi_dcookies w Mo Fo Do c mem dcookies :
  mwi w Mo Fo Do -> mw_fs w !! c = Some mem ->
  (forall k dc, Do !! k = Some (c, dc) -> dc ∈ ms_dcookies mem -> dc ∈ dcookies) ->
  mwi (set_mfs (insert c (Memfs (ms_files mem) dcookies)) w) Mo Fo Do.
Proof.
  intros I Ec Hd. apply (mwi_lists _ _ _ _ c mem); try done.
  - by eapply (mi_nodup _ _ _ _ I).
  - intros. by eapply (mi_files _ _ _ _ I).
  - intros. by eapply (mi_names _ _ _ _ I).
Qed.

Lemma mwi_new_dir w Mo Fo Do c mem k :
  mwi w Mo Fo Do -> mw_fs w !! c = Some mem -> Do !! k = None ->
  mwi (MWorld (<[c := Memfs (ms_files mem) (mw_next w :: ms_dcookies mem)]> (mw_fs w)) (mw_files w)
         (<[mw_next w := DirCookie c (head (ms_files mem))]> (mw_dirs w)) (mw_next w + 1) (mw_mallocs w) (mw_strdups w) (mw_stale w))
      Mo Fo (<[k := (c, mw_next w)]> Do).
Proof.
  intros I Ec Hk.
  assert (forall k' c' dc, Do !! k' = Some (c', dc) -> mw_next w <> dc) as Hne.
  { intros k' c' dc Ek <-. destruct (mi_dir _ _ _ _ I k' c' _ Ek) as (m & dir & _ & _ & Ed & _).
    pose proof (mi_next _ _ _ _ I (mw_next w) ltac:(rewrite Ed; eauto)). lia. }
  assert (mwi (set_mfs (insert c (Memfs (ms_files mem) (mw_next w :: ms_dcookies mem))) w) Mo Fo Do) as J.
  { apply mwi_dcookies; [done|done|]. intros. by right. }
  destruct J as [J1 J2 J3 J4 J5 J6 J7 J8 J9]. split; simpl in *; try done.
  - intros k' H'. destruct (decide (k' = mw_next w)) as [->|]; [lia|]. rewrite (lookup_insert_ne (mw_dirs w)) in H' by done. pose proof (J2 k' H'). lia.
  - intros k' c' dc. destruct (decide (k' = k)) as [->|].
    + rewrite lookup_insert_eq. intros. simplify_eq. eexists _, _. simpl. rewrite !lookup_insert_eq. split; [done|]. split; [left|].
      split; [done|]. split; [done|]. simpl. intros f Hf. by apply head_Some_elem_of.
    + rewrite lookup_insert_ne by done. intros Ek. destruct (J7 k' c' dc Ek) as (m & dir & E1 & E2 & E3 & E4).
      exists m, dir. simpl in *. rewrite (lookup_insert_ne (mw_dirs w)) by (by eapply Hne). done.
  - intros k1 k2 c1 c2 dc. rewrite !lookup_insert_Some. intros [[<- [= <- <-]]|[? E1]] [[<- [=]]|[? E2]]; try done; simplify_eq.
    + by destruct (Hne _ _ _ E2).
    + by destruct (Hne _ _ _ E1).
    + by eapply J8.
Qed.

Lemma mwi_next_dir w Mo Fo Do c dc mem next :
  mwi w Mo Fo Do -> mw_fs w !! c = Some mem -> (forall f, next = Some f -> f ∈ ms_files mem) ->
  (exists k, Do !! k = Some (c, dc)) ->
  mwi (set_mdirs (insert dc (DirCookie c next)) w) Mo Fo Do.
Proof.
  intros I Ec Hn [k0 E0]. destruct (mi_dir _ _ _ _ I k0 c dc E0) as (m0 & d0 & ? & Hd0 & ? & Hc0 & _). simplify_eq.
  split; simpl; try apply I.
  - intros k Hk. apply (mi_next _ _ _ _ I k). rewrite lookup_insert_is_Some in Hk. destruct (decide (dc = k)); naive_solver.
  - intros k c' dc' Ek. destruct (mi_dir _ _ _ _ I k c' dc' Ek) as (m & dir & E1 & E2 & E3 & E4 & E5).
    destruct (decide (dc' = dc)) as [->|].
    + simplify_eq. eexists _, _. simpl. rewrite lookup_insert_eq. eauto.
    + exists m, dir. simpl. rewrite lookup_insert_ne by done. done.
Qed.

Lemma mwi_drop_dir w Mo Fo Do k c dc mem :
  mwi w Mo Fo Do -> Do !! k = Some (c, dc) -> mw_fs w !! c = Some mem ->
  mwi (set_mdirs (delete dc) (set_mfs (insert c (Memfs (ms_files mem) (filter (fun d => d <> dc) (ms_dcookies mem)))) w))
    Mo Fo (delete k Do).
Proof.
  intros I Ek Ec.
  assert (forall k' c' dc', delete k Do !! k' = Some (c', dc') -> dc <> dc') as Hne.
  { intros k' c' dc' [Hk E]%lookup_delete_Some <-. by pose proof (mi_inj _ _ _ _ I k k' c c' dc Ek E). }
  assert (mwi w Mo Fo (delete k Do)) as I'.
  { destruct I as [I1 I2 I3 I4 I5 I6 I7 I8 I9]. split; try done.
    - intros k' c' dc' [_ E]%lookup_delete_Some. eauto.
    - intros k1 k2 c1 c2 d [_ E]%lookup_delete_Some [_ E']%lookup_delete_Some. eauto. }
  assert (mwi (set_mfs (insert c (Memfs (ms_files mem) (filter (fun d => d <> dc) (ms_dcookies mem)))) w) Mo Fo (delete k Do)) as J.
  { apply mwi_dcookies; [done|done|]. intros k' dc' E Hd. apply list_elem_of_filter. split; [|done]. intros ->. by eapply Hne. }
  destruct J as [J1 J2 J3 J4 J5 J6 J7 J8 J9]. split; simpl in *; try done.
  - intros k' H'. apply J2. rewrite lookup_delete_is_Some in H'. naive_solver.
  - intros k' c' dc' E. destruct (J7 k' c' dc' E) as (m & dir & E1 & E2 & E3 & E4).
    exists m, dir. simpl in *. rewrite lookup_delete_ne by (by eapply Hne). done.
Qed.

(** * What a file system in memory holds, and what its operations do to it

    [listing w c] has the files of the file system [c] in the order of its list: names
    and bytes.  Each operation is described by what it does to the listing. *)

Definition file_bytes (file : memfs_file_t) : list Z := take (Z.to_nat (mf_len file)) (mf_ptr file).
Definition entry (w : mworld) (f : Z) : option (list Z * list Z) :=
  file ← mw_files w !! f; name ← mf_name file; Some (name, file_bytes file).
Definition listing (w : mworld) (c : Z) : list (list Z * list Z) :=
  match mw_fs w !! c with Some mem => omap (entry w) (ms_files mem) | None => [] end.

Definition set_data (n d : list Z) (l : list (list Z * list Z)) : list (list Z * list Z) :=
  (fun e => if bool_decide (e.1 = n) then (n, d) else e) <$> l.
Definition drop_name (n : list Z) (l : list (list Z * list Z)) : list (list Z * list Z) := filter (fun e => e.1 <> n) l.

(** Only the listing of [c] may differ. *)
Definition relisted (c : Z) (l : list (list Z * list Z)) (w w' : mworld) : Prop :=
  listing w' c = l /\ forall c', c' <> c -> listing w' c' = listing w c'.

Lemma file_bytes_length file : file_ok file -> Z.of_nat (length (file_bytes file)) = mf_len file.
Proof. intros [_ Hl _]. unfold file_bytes. rewrite length_take. lia. Qed.

Lemma entry_some w f file name : mw_files w !! f = Some file -> mf_name file = Some name -> entry w f = Some (name, file_bytes file).
Proof. intros E En. unfold entry. rewrite E. simpl. by rewrite En. Qed.

Lemma listing_ext w w' c :
  (forall mem, mw_fs w !! c = Some mem -> exists mem', mw_fs w' !! c = Some mem' /\ ms_files mem' = ms_files mem /\
     forall f, f ∈ ms_files mem -> entry w' f = entry w f) ->
  (mw_fs w !! c = None -> mw_fs w' !! c = None) -> listing w' c = listing w c.
Proof.
  intros Hs Hn. unfold listing. destruct (mw_fs w !! c) as [mem|]; [|by rewrite Hn].
  destruct (Hs mem eq_refl) as (mem' & -> & -> & He). clear Hs Hn. induction (ms_files mem) as [|f l IH]; [done|]. cbn.
  rewrite He by left. rewrite IH; [done|]. intros g Hg. apply He. by right.
Qed.

Lemma listing_same w w' c : same_files w w' -> listing w' c = listing w c.
Proof. intros (E1 & E2 & _). apply listing_ext; rewrite E1; [|done]. intros mem E. exists mem. unfold entry. by rewrite E2. Qed.
Lemma listed_same w w' c : same_files w w' -> relisted c (listing w c) w w'.
Proof. intros Hw. split; [by apply listing_same|]. intros. by apply listing_same. Qed.

Section inv.
Context (w : mworld) (Mo : gmap Z string) (Fo Do : gmap Z (Z * Z)) (I : mwi w Mo Fo Do).

Lemma entry_in c mem f : mw_fs w !! c = Some mem -> f ∈ ms_files mem -> is_Some (entry w f).
Proof using All.
  intros Ec Hf. destruct (mi_files _ _ _ _ I c mem f Ec Hf) as (file & Ef & _ & [[n En] _ _]). erewrite entry_some; eauto.
Qed.

Lemma entry_name c mem f g e e' :
  mw_fs w !! c = Some mem -> f ∈ ms_files mem -> g ∈ ms_files mem -> entry w f = Some e -> entry w g = Some e' ->
  e.1 = e'.1 -> f = g.
Proof using All.
  intros Ec Hf Hg Ef Eg Hn. destruct (mi_files _ _ _ _ I c mem f Ec Hf) as (file & Ef' & _ & [[n En] _ _]).
  destruct (mi_files _ _ _ _ I c mem g Ec Hg) as (file' & Eg' & _ & [[n' En'] _ _]).
  rewrite (entry_some _ _ _ _ Ef' En) in Ef. rewrite (entry_some _ _ _ _ Eg' En') in Eg. simplify_eq. simpl in Hn.
  eapply (mi_names _ _ _ _ I c mem); try done. congruence.
Qed.

Lemma elem_of_listing c mem e : mw_fs w !! c = Some mem -> e ∈ listing w c <-> exists f, f ∈ ms_files mem /\ entry w f = Some e.
Proof. intros Ec. unfold listing. rewrite Ec. apply list_elem_of_omap. Qed.

(** Two file systems share no file. *)
Lemma other_fs c c' mem mem' f : mw_fs w !! c = Some mem -> mw_fs w !! c' = Some mem' -> f ∈ ms_files mem -> f ∈ ms_files mem' -> c = c'.
Proof using All.
  intros E E' Hf Hf'. destruct (mi_files _ _ _ _ I c mem f E Hf) as (? & ? & ? & _).
  destruct (mi_files _ _ _ _ I c' mem' f E' Hf') as (? & ? & ? & _). congruence.
Qed.

Lemma listing_set c mem f file n ptr len :
  mw_fs w !! c = Some mem -> f ∈ ms_files mem -> mw_files w !! f = Some file -> mf_name file = Some n ->
  relisted c (set_data n (take (Z.to_nat len) ptr) (listing w c)) w
    (set_mfiles (insert f (MemfsFile (mf_fs file) (mf_name file) ptr len)) w).
Proof using All.
  intros Ec Hf Ef En. set (w' := set_mfiles _ w).
  assert (forall g, g <> f -> entry w' g = entry w g) as Hne by (intros g Hg; unfold entry, w'; simpl; by rewrite lookup_insert_ne).
  split.
  - unfold listing. simpl. rewrite Ec. assert (forall g, g ∈ ms_files mem -> g ∈ ms_files mem) as Hl by done. revert Hl.
    generalize (ms_files mem) at 1 3 4. intros l. induction l as [|g l IH]; intros Hl; [done|]. cbn.
    assert (g ∈ ms_files mem) as Hg by (apply Hl; left). destruct (entry_in c mem g Ec Hg) as [[n' d'] Eg].
    specialize (IH ltac:(intros; apply Hl; by right)). rewrite Eg. destruct (decide (g = f)) as [->|Hgf].
    + rewrite (entry_some w f file n) in Eg by done. simplify_eq. cbn. rewrite bool_decide_true by done.
      replace (entry w' f) with (Some (n', take (Z.to_nat len) ptr)) by (unfold entry, w'; simpl; rewrite lookup_insert_eq; simpl; by rewrite En).
      by rewrite IH.
    + rewrite Hne, Eg by done. cbn. rewrite bool_decide_false, IH; [done|]. intros ->. apply Hgf.
      eapply (entry_name c mem g f _ (n, file_bytes file)); try done. by apply entry_some.
  - intros c' Hc. apply listing_ext; [|done]. intros mem' E'. exists mem'. split; [done|]. split; [done|].
    intros g Hg. apply Hne. intros ->. by destruct (other_fs c c' mem mem' f).
Qed.
End inv.

(** ** Reading and writing *)

(** [d] with [buf] written at [off]; bytes between the end and [off] are not defined. *)
Definition written (d : list Z) (off : Z) (buf d' : list Z) : Prop := exists gap,
  length gap = (Z.to_nat off - length d)%nat /\
  d' = take (Z.to_nat off) (d ++ gap) ++ buf ++ drop (Z.to_nat off + length buf) d.

Lemma written_inside (p buf : list Z) (len off : nat) :
  (off + length buf <= len)%nat -> (len <= length p)%nat ->
  take len (take off p ++ buf ++ drop (off + length buf) p) = take off (take len p) ++ buf ++ drop (off + length buf) (take len p).
Proof.
  intros H1 H2. rewrite take_app_ge by (rewrite length_take; lia). rewrite length_take_le by lia. rewrite take_app_ge by lia.
  rewrite take_take, Nat.min_l by lia. rewrite take_drop_commute. do 4 f_equal. lia.
Qed.

Lemma written_grow (p q buf : list Z) (len off : nat) :
  (len < off + length buf)%nat -> length q = (off + length buf)%nat -> take len q = take len p -> (len <= length p)%nat ->
  written (take len p) (Z.of_nat off) buf (take (off + length buf) (take off q ++ buf ++ drop (off + length buf) q)).
Proof.
  intros H1 Hq Hp Hl. exists (take (off - len) (drop len q)). rewrite Nat2Z.id, (length_take_le p len) by lia. split; [rewrite length_take, length_drop; lia|].
  rewrite (drop_ge q), app_nil_r by lia. rewrite (drop_ge (take len p)), app_nil_r by (rewrite length_take; lia).
  rewrite take_ge by (rewrite length_app, length_take; lia). f_equal. rewrite <- Hp.
  destruct (decide (off <= len)%nat).
  - rewrite (take_app_le _ _ off) by (rewrite length_take; lia). by rewrite take_take, Nat.min_l by lia.
  - rewrite take_app_ge by (rewrite length_take; lia). rewrite length_take_le, take_take, Nat.min_id by lia.
    replace off with (len + (off - len))%nat at 1 by lia. by rewrite take_take_drop.
Qed.

(** What was written is there, and the rest of the file is what it was. *)
Lemma written_length d off buf d' : 0 <= off -> written d off buf d' ->
  Z.of_nat (length d') = Z.max (Z.of_nat (length d)) (off + Z.of_nat (length buf)).
Proof. intros H0 (gap & Hg & ->). rewrite !length_app, length_take, length_app, length_drop. lia. Qed.

Lemma written_there d off buf d' : 0 <= off -> written d off buf d' -> take (length buf) (drop (Z.to_nat off) d') = buf.
Proof.
  intros H0 (gap & Hg & ->). rewrite drop_app_ge by (rewrite length_take, length_app; lia).
  rewrite length_take_le by (rewrite length_app; lia). by rewrite Nat.sub_diag, drop_0, take_app_length.
Qed.

Lemma written_before d off buf d' o n : 0 <= off -> written d off buf d' -> (o + n <= length d)%nat -> (o + n <= Z.to_nat off)%nat ->
  take n (drop o d') = take n (drop o d).
Proof.
  intros H0 (gap & Hg & ->) Hl Ho. rewrite !take_drop_commute. f_equal. rewrite take_app_le by (rewrite length_take, length_app; lia).
  rewrite take_take, Nat.min_l by lia. by rewrite take_app_le by lia.
Qed.

Lemma written_after d off buf d' o n : 0 <= off -> written d off buf d' -> (o + n <= length d)%nat -> (Z.to_nat off + length buf <= o)%nat ->
  take n (drop o d') = take n (drop o d).
Proof.
  intros H0 (gap & Hg & ->) Hl Ho. rewrite drop_app_ge by (rewrite length_take, length_app; lia).
  rewrite length_take_le by (rewrite length_app; lia). rewrite drop_app_ge by lia. rewrite drop_drop. do 2 f_equal. lia.
Qed.

Lemma copy_out_min (p : list Z) (off len size : Z) :
  0 <= off <= size -> size <= Z.of_nat (length p) -> 0 <= len ->
  copy_out p off (Z.min len (size - off)) = Some (take (Z.to_nat len) (drop (Z.to_nat off) (take (Z.to_nat size) p))).
Proof.
  intros H1 H2 H3. replace (Z.to_nat size) with (Z.to_nat off + Z.to_nat (size - off))%nat by lia.
  rewrite <- take_drop_commute, take_take. replace (Z.to_nat len `min` Z.to_nat (size - off))%nat with (Z.to_nat (Z.min len (size - off))) by lia.
  unfold copy_out. destruct (Z.eqb_spec (Z.min len (size - off)) 0) as [->|]; [done|].
  by rewrite (proj2 (Z.leb_le 0 off)), (proj2 (Z.leb_le _ (Z.of_nat _))) by lia.
Qed.

Section ops.
Context (w : mworld) (Mo : gmap Z string) (Fo Do : gmap Z (Z * Z)) (I : mwi w Mo Fo Do).

Section opened.
Context (k c f : Z) (Hk : Fo !! k = Some (c, f)) (n d : list Z) (Hnd : entry w f = Some (n, d)).

(** The file behind an open handle *)
Lemma opened_file : exists mem file, mw_fs w !! c = Some mem /\ f ∈ ms_files mem /\ mw_files w !! f = Some file /\ mf_fs file = c /\
  file_ok file /\ mf_name file = Some n /\ d = file_bytes file /\ Z.of_nat (length d) = mf_len file.
Proof using All.
  destruct (mi_file _ _ _ _ I k c f Hk) as (mem & Em & Hf). destruct (mi_files _ _ _ _ I c mem f Em Hf) as (file & Ef & Hfs & Ho).
  destruct (fo_name _ Ho) as [n' En]. rewrite (entry_some _ _ _ _ Ef En) in Hnd. simplify_eq.
  exists mem, file. by rewrite file_bytes_length.
Qed.

Lemma lock_opened (Q : memfs_file_t -> mworld -> Prop) :
  (forall file, mw_files w !! f = Some file -> Q file w) -> mruns (lock_file f) w Q.
Proof using All.
  intros HQ. destruct opened_file as (mem & file & Em & Hf & Ef & Hfs & _). unfold lock_file. apply mruns_bind. eapply mruns_get; [done|].
  apply mruns_bind. rewrite Hfs. eapply the_fs_run; [done|]. apply mruns_ret. by apply HQ.
Qed.

(** A file of 2^63 bytes and more has a negative size for the comparison. *)
Lemma memfs_read_run off len :
  0 <= len -> off + len < 2 ^ 63 ->
  memfs_read f off len w = Some (if off <? 0 then (ERR_INVALID_ARGS, [])
    else let data := if Z.of_nat (length d) <? 2 ^ 63 then take (Z.to_nat len) (drop (Z.to_nat off) d) else [] in
         (Z.of_nat (length data), data), w).
Proof using All.
  intros H0 Hb. unfold memfs_read. destruct (Z.ltb_spec off 0); [done|].
  destruct opened_file as (mem & file & Em & Hf & Ef & Hfs & Ho & En & Ed & El). pose proof (fo_len _ Ho). pose proof (fo_max _ Ho).
  enough (mruns (lock_file f) w (fun file' w' => file' = file /\ w' = w)) as (? & ? & E & -> & ->).
  2: { apply lock_opened. intros file' E. by simplify_eq. }
  unfold mbind, m_mbind, m_bind at 1. rewrite E. cbv zeta. simpl.
  rewrite (wrap_small 64 (off + len)) by lia. subst d. unfold file_bytes in *. rewrite El. destruct (Z.ltb_spec (mf_len file) (2 ^ 63)).
  2: { rewrite (proj2 (Z.leb_le (to_signed 64 (mf_len file)) off)); [done|]. unfold to_signed. rewrite wrap_small by lia. case_match; lia. }
  rewrite (to_signed_small 64 (mf_len file)) by lia. destruct (Z.leb_spec (mf_len file) off) as [Hge|Hlt].
  - unfold m_bind, m_get. simpl. rewrite drop_ge, take_nil by lia. done.
  - set (m := if mf_len file <? off + len then _ else len).
    assert (m = Z.min len (mf_len file - off)) as ->.
    { subst m. destruct (Z.ltb_spec (mf_len file) (off + len)); [rewrite wrap_small by lia; lia|lia]. }
    unfold m_bind, m_get, mret, m_mret, m_ret. rewrite copy_out_min by lia. simpl. rewrite to_signed_small by lia. do 3 f_equal.
    rewrite length_take, length_drop. lia.
Qed.

Lemma memfs_stat_run : memfs_stat f w = Some ((NO_ERROR, FileStat false (Z.of_nat (length d))), w).
Proof using All.
  destruct opened_file as (mem & file & Em & Hf & Ef & Hfs & Ho & En & Ed & El).
  enough (mruns (memfs_stat f) w (fun r w' => r = (NO_ERROR, FileStat false (Z.of_nat (length d))) /\ w' = w)) as (? & ? & E & -> & ->) by done.
  apply mruns_bind, lock_opened. intros file' E. simplify_eq. apply mruns_ret. by rewrite El.
Qed.

(** Other contents for the file *)
Lemma new_contents w' file ptr len :
  same_files w w' -> mw_files w !! f = Some file -> 0 <= len <= Z.of_nat (length ptr) -> len < 2 ^ 64 ->
  let w'' := set_mfiles (insert f (MemfsFile (mf_fs file) (mf_name file) ptr len)) w' in
  mwi w'' Mo Fo Do /\ relisted c (set_data n (take (Z.to_nat len) ptr) (listing w c)) w w'' /\
  entry w'' f = Some (n, take (Z.to_nat len) ptr).
Proof using All.
  intros Hw Ef Hl Hm. destruct opened_file as (mem & file' & Em & Hf & Ef' & Hfs & Ho & En & Ed & El). simplify_eq.
  pose proof (mwi_same _ _ _ _ _ Hw I) as I'. assert (mw_fs w' = mw_fs w /\ mw_files w' = mw_files w) as [E1 E2] by (by destruct Hw as (? & ? & _)).
  split; [apply mwi_set_file; by rewrite ?E2|]. destruct (listing_set w' Mo Fo Do I' (mf_fs file) mem f file n ptr len) as [L1 L2]; rewrite ?E1, ?E2; try done.
  split; [split; [by rewrite L1, (listing_same w w')|]; intros c' Hc; by rewrite L2, (listing_same w w')|].
  apply (entry_some _ _ (MemfsFile (mf_fs file) (mf_name file) ptr len)); [apply lookup_insert_eq|done].
Qed.

Lemma memfs_truncate_run len : 0 <= len ->
  mruns (memfs_truncate f len) w (fun r w' => mwi w' Mo Fo Do /\
    (r = ERR_INVALID_ARGS /\ Z.of_nat (length d) < len /\ w' = w \/
     r = ERR_NO_MEMORY /\ len <= Z.of_nat (length d) /\ relisted c (listing w c) w w' \/
     r = NO_ERROR /\ len <= Z.of_nat (length d) /\ relisted c (set_data n (take (Z.to_nat len) d) (listing w c)) w w')).
Proof using All.
  intros H0. destruct opened_file as (mem & file & Em & Hf & Ef & Hfs & Ho & En & Ed & El).
  pose proof (fo_len _ Ho). pose proof (fo_max _ Ho). unfold memfs_truncate. apply mruns_bind, lock_opened. intros file' E. replace file' with file by congruence. rewrite El.
  destruct (Z.ltb_spec (mf_len file) len); [apply mruns_ret; auto|]. apply mruns_bind, realloc_run; [case_match; lia| |].
  - intros w' Hw. apply mruns_ret. split; [by eapply mwi_same|]. right; left. split_and!; [done|lia|by apply listed_same].
  - intros w' grown Hw Hg. apply mruns_bind, mruns_mod, mruns_ret.
    destruct (new_contents w' file (take (Z.to_nat (if len =? 0 then 1 else len)) (mf_ptr file) ++ grown) len) as (I' & L' & N'); try done; [|lia|].
    { rewrite length_app, length_take, Hg. case_match; lia. }
    split; [done|]. right; right. split; [done|]. split; [lia|]. replace (take (Z.to_nat len) d) with (take (Z.to_nat len) (take (Z.to_nat (if len =? 0 then 1 else len)) (mf_ptr file) ++ grown)); [done|]. rewrite Ed. unfold file_bytes.
    rewrite take_take, Nat.min_l by lia. destruct (Z.eqb_spec len 0) as [->|]; [done|].
    rewrite take_app_le by (rewrite length_take; lia). by rewrite take_take, Nat.min_id.
Qed.

Lemma memfs_write_run buf off : off + Z.of_nat (length buf) < 2 ^ 63 ->
  mruns (memfs_write f buf off) w (fun r w' => mwi w' Mo Fo Do /\
    (r = ERR_INVALID_ARGS /\ off < 0 /\ w' = w \/
     r = ERR_NO_MEMORY /\ 0 <= off /\ Z.of_nat (length d) < off + Z.of_nat (length buf) /\ relisted c (listing w c) w w' \/
     r = Z.of_nat (length buf) /\ 0 <= off /\ exists d', written d off buf d' /\ relisted c (set_data n d' (listing w c)) w w' /\ entry w' f = Some (n, d'))).
Proof using All.
  intros Hb. destruct opened_file as (mem & file & Em & Hf & Ef & Hfs & Ho & En & Ed & El).
  pose proof (fo_len _ Ho). pose proof (fo_max _ Ho). unfold memfs_write. cbv zeta.
  destruct (Z.ltb_spec off 0); [apply mruns_ret; auto|].
  apply mruns_bind, lock_opened. intros file' E. replace file' with file by congruence. rewrite El, (wrap_small 64 (off + _)) by lia.
  set (len := length buf) in *. assert (Z.to_nat (off + Z.of_nat len) = (Z.to_nat off + len)%nat) as En' by lia.
  apply mruns_bind. destruct (Z.ltb_spec (mf_len file) (off + Z.of_nat len)).
  - apply mruns_bind, realloc_run; [lia| |].
    + intros w' Hw. apply mruns_ret. simpl. apply mruns_ret. split; [by eapply mwi_same|]. right; left. split_and!; [done..|by apply listed_same].
    + intros w' grown Hw Hg. apply mruns_ret. simpl. set (q := take _ _ ++ grown).
      assert (length q = Z.to_nat off + len)%nat as Hq by (subst q; rewrite length_app, length_take, Hg; lia).
      apply mruns_bind. eapply mruns_get; [apply copy_in_ok; lia|]. apply mruns_bind, mruns_mod, mruns_ret. simpl.
      destruct (new_contents w' file (take (Z.to_nat off) q ++ buf ++ drop (Z.to_nat off + len) q) (off + Z.of_nat len)) as (I' & L' & N'); try done; [|lia|].
      { rewrite !length_app, length_take, length_drop. lia. }
      split; [done|]. right; right. split; [done|]. split; [lia|]. eexists. split; [|split; [exact L'|exact N']]. rewrite En'. rewrite Ed. unfold file_bytes.
      rewrite <- (Z2Nat.id off) at 1 by lia. apply written_grow; [lia|done| |lia].
      subst q. rewrite take_app_le by (rewrite length_take; lia). by rewrite take_take, Nat.min_l by lia.
  - apply mruns_ret, mruns_bind. eapply mruns_get; [apply copy_in_ok; lia|]. apply mruns_bind, mruns_mod, mruns_ret.
    destruct (new_contents w file (take (Z.to_nat off) (mf_ptr file) ++ buf ++ drop (Z.to_nat off + len) (mf_ptr file)) (mf_len file)) as (I' & L' & N'); try done; [|].
    { rewrite !length_app, length_take, length_drop. lia. }
    split; [done|]. right; right. split; [done|]. split; [lia|]. eexists. split; [|split; [exact L'|exact N']]. exists [].
    rewrite Ed. split; [unfold file_bytes; rewrite length_take; simpl; lia|]. rewrite app_nil_r. apply written_inside; lia.
Qed.
End opened.
End ops.

(** * Names and directories of a file system in memory *)

Definition named (n : list Z) (l : list (list Z * list Z)) : Prop := exists d, (n, d) ∈ l.

Lemma omap_app_one {A B} (g : A -> option B) (l : list A) x y : g x = Some y -> omap g (l ++ [x]) = omap g l ++ [y].
Proof. intros E. rewrite omap_app. simpl. by rewrite E. Qed.

(** The world with one more file *)
Definition with_file (c : Z) (mem : memfs_t) (file : memfs_file_t) (w : mworld) : mworld :=
  MWorld (<[c := Memfs (ms_files mem ++ [mw_next w]) (ms_dcookies mem)]> (mw_fs w)) (<[mw_next w := file]> (mw_files w))
    (mw_dirs w) (mw_next w + 1) (mw_mallocs w) (tail (mw_strdups w)) (mw_stale w).

Lemma listing_new w Mo Fo Do c mem file n :
  mwi w Mo Fo Do -> mw_fs w !! c = Some mem -> mf_name file = Some n ->
  entry (with_file c mem file w) (mw_next w) = Some (n, file_bytes file) /\
  relisted c (listing w c ++ [(n, file_bytes file)]) w (with_file c mem file w).
Proof.
  intros I Ec En. set (w' := with_file c mem file w).
  assert (entry w' (mw_next w) = Some (n, file_bytes file)) as E0 by (apply entry_some; [apply lookup_insert_eq|done]).
  assert (forall c' mem' f, mw_fs w !! c' = Some mem' -> f ∈ ms_files mem' -> entry w' f = entry w f) as Hold.
  { intros c' mem' f E' Hf. unfold entry, w'. simpl. rewrite lookup_insert_ne; [done|]. intros <-.
    destruct (mi_files _ _ _ _ I c' mem' _ E' Hf) as (fl & Ef & _). pose proof (mi_next _ _ _ _ I (mw_next w) ltac:(rewrite Ef; eauto)). lia. }
  split; [done|]. split.
  - unfold listing. unfold w' at 1. simpl. rewrite lookup_insert_eq, Ec. simpl. rewrite (omap_app_one _ _ _ _ E0). f_equal.
    pose proof (Hold c mem) as He. clear -He Ec. specialize (He). induction (ms_files mem) as [|f l IH] in He |- *; [done|]. cbn.
    rewrite He by (done || left). rewrite IH; [done|]. intros g _ Hg. apply He; [done|by right].
  - intros c' Hne. apply listing_ext; unfold w'; simpl; rewrite lookup_insert_ne by done; [|done]. intros mem' E'. exists mem'. eauto.
Qed.

Section ops.
Context (w : mworld) (Mo : gmap Z string) (Fo Do : gmap Z (Z * Z)) (I : mwi w Mo Fo Do).
Context (c : Z) (mem : memfs_t) (Hc : mw_fs w !! c = Some mem).

(** [find_file] finds by name. *)
Lemma find_listed n (Q : option Z -> mworld -> Prop) :
  (forall f d, f ∈ ms_files mem -> entry w f = Some (n, d) -> (n, d) ∈ listing w c -> Q (Some f) w) ->
  (~ named n (listing w c) -> Q None w) -> mruns (find_file mem n) w Q.
Proof using All.
  intros Hsome Hnone. eapply find_file_run; [done|done| |].
  - intros f file Hf Ef En. pose proof (entry_some _ _ _ _ Ef En). eapply Hsome; [done|done|]. eapply elem_of_listing; eauto.
  - intros Hno. apply Hnone. intros [d Hd]. apply (elem_of_listing w c mem (n, d) Hc) in Hd as (f & Hf & Ef).
    unfold entry in Ef. destruct (mw_files w !! f) as [file|] eqn:E; simpl in Ef; [|done].
    destruct (mf_name file) as [n'|] eqn:E'; simpl in Ef; [|done]. simplify_eq. by destruct (Hno f file Hf E).
Qed.

Lemma memfs_open_run path :
  mruns (memfs_open c path) w (fun r w' => w' = w /\
    (r = (ERR_NOT_FOUND, 0) /\ ~ named (trim_name path) (listing w c) \/
     exists f d, r = (NO_ERROR, f) /\ f ∈ ms_files mem /\ entry w f = Some (trim_name path, d) /\ (trim_name path, d) ∈ listing w c)).
Proof using All.
  unfold memfs_open. cbv zeta. apply mruns_bind. eapply the_fs_run; [done|]. apply mruns_bind, find_listed.
  - intros f d Hf Ef Hd. apply mruns_ret. split; [done|]. right. eauto 10.
  - intros Hno. apply mruns_ret. auto.
Qed.

Lemma memfs_create_run path len : 0 <= len ->
  mruns (memfs_create c path len) w (fun r w' => mwi w' Mo Fo Do /\
    let n := trim_name path in
    (r.1 = ERR_NO_MEMORY /\ relisted c (listing w c) w w' \/
     r.1 = ERR_NOT_SUPPORTED /\ slash ∈ n /\ w' = w \/
     r.1 = ERR_ALREADY_EXISTS /\ named n (listing w c) /\ w' = w \/
     r.1 = NO_ERROR /\ slash ∉ n /\ ~ named n (listing w c) /\
       (exists mem', mw_fs w' !! c = Some mem' /\ r.2 ∈ ms_files mem' /\ entry w' r.2 = Some (n, replicate (Z.to_nat len) 0)) /\
       relisted c (listing w c ++ [(n, replicate (Z.to_nat len) 0)]) w w')).
Proof using All.
  intros H0. unfold memfs_create. destruct (Z.leb_spec ULONG_MAX len) as [|Hmax]; [apply mruns_ret; split; [done|left; split; [done|by apply listed_same, same_refl]]|].
  cbv zeta. case_bool_decide as Hs; [apply mruns_ret; auto 10|].
  apply mruns_bind. eapply the_fs_run; [done|]. apply mruns_bind, find_listed.
  { intros f d Hf Ef Hd. apply mruns_ret. split; [done|]. right; right; left. split; [done|]. split; [by exists d|done]. }
  intros Hno. apply mruns_bind, malloc_run. intros ok w1 Hw1. destruct ok; [|apply mruns_ret; split; [by eapply mwi_same|left; split; [done|by apply listed_same]]].
  apply mruns_bind, malloc_run. intros ok w2 Hw2. pose proof (same_trans _ _ _ Hw1 Hw2) as Hw. clear Hw1 Hw2.
  destruct ok; [|apply mruns_ret; split; [by eapply mwi_same|left; split; [done|by apply listed_same]]].
  apply mruns_bind. eexists _, _. split; [done|]. apply mruns_bind. eexists _, _. split; [done|]. simpl.
  apply mruns_bind, mruns_mod, mruns_bind, mruns_mod, mruns_ret. simpl.
  assert (default true (head (mw_strdups w2)) = true) as ->.
  { pose proof (mi_strdup _ _ _ _ (mwi_same _ _ _ _ _ Hw I)) as Hs2. destruct (mw_strdups w2); [done|]. by inv Hs2. }
  pose proof (mwi_same _ _ _ _ _ Hw I) as I2. assert (mw_fs w2 = mw_fs w /\ mw_files w2 = mw_files w) as [E1 E2] by (by destruct Hw as (? & ? & _)).
  set (n := trim_name path) in *. set (file := MemfsFile c (Some n) (replicate (Z.to_nat len) 0) len).
  assert (file_ok file) as Ho by (split; simpl; [by eexists|rewrite length_replicate; lia|unfold ULONG_MAX in Hmax; lia]).
  assert (file_bytes file = replicate (Z.to_nat len) 0) as Eb by (unfold file_bytes; simpl; by rewrite take_ge by (by rewrite length_replicate)).
  destruct (listing_new w2 Mo Fo Do c mem file n) as (En & L1 & L2); [done|by rewrite E1|done|]. rewrite Eb in En, L1.
  rewrite (listing_same w w2) in L1 by done. split.
  - change (mwi (with_file c mem file w2) Mo Fo Do). eapply mwi_new_file; [done|by rewrite E1| |done..]. rewrite E2. intros f fl Hf Ef Hn. apply Hno. exists (file_bytes fl).
    eapply elem_of_listing; [done|]. exists f. split; [done|]. by apply entry_some.
  - right; right; right. split; [done|]. split; [done|]. split; [done|]. split.
    + eexists. split; [apply lookup_insert_eq|]. split; [simpl; set_solver|exact En].
    + split; [exact L1|]. intros c' Hne. rewrite <- (listing_same w w2) by done. by apply L2.
Qed.

(** Nothing is open on the file system. *)
Definition unused : Prop := forall k p, Fo !! k = Some p \/ Do !! k = Some p -> p.1 <> c.

Lemma listing_drop f n d :
  f ∈ ms_files mem -> entry w f = Some (n, d) ->
  relisted c (drop_name n (listing w c)) w
    (set_mfiles (delete f) (set_mfs (insert c (Memfs (filter (fun g => g <> f) (ms_files mem)) (ms_dcookies mem))) w)).
Proof using All.
  intros Hf En. set (w' := set_mfiles _ _).
  assert (forall g, g <> f -> entry w' g = entry w g) as Hne by (intros g Hg; unfold entry, w'; simpl; by rewrite lookup_delete_ne).
  split.
  - unfold listing. unfold w' at 1. simpl. rewrite lookup_insert_eq, Hc. simpl.
    assert (forall g, g ∈ ms_files mem -> g ∈ ms_files mem) as Hl by done. revert Hl.
    generalize (ms_files mem) at 1 3 4. intros l. induction l as [|g l IH]; intros Hl; [done|].
    assert (g ∈ ms_files mem) as Hg by (apply Hl; left). destruct (entry_in w Mo Fo Do I c mem g Hc Hg) as [[n' d'] Eg].
    specialize (IH ltac:(intros; apply Hl; by right)). rewrite filter_cons. cbn [omap list_omap]. rewrite Eg. destruct (decide (g = f)) as [->|Hgf].
    + rewrite decide_False by auto. simplify_eq. unfold drop_name. rewrite filter_cons, decide_False by auto. exact IH.
    + rewrite decide_True by done. cbn [omap list_omap]. rewrite Hne, Eg by done. unfold drop_name. rewrite filter_cons, decide_True.
      * f_equal. exact IH.
      * simpl. intros ->. apply Hgf. by eapply (entry_name w Mo Fo Do I c mem).
  - intros c' Hcc. apply listing_ext; unfold w'; simpl; rewrite lookup_insert_ne by done; [|done]. intros mem' E'. exists mem'.
    split; [done|]. split; [done|]. intros g Hg. apply Hne. intros ->. by destruct (other_fs w Mo Fo Do I c c' mem mem' f).
Qed.

Lemma memfs_remove_run path : unused ->
  mruns (memfs_remove c path) w (fun r w' => mwi w' Mo Fo Do /\
    (r = ERR_NOT_FOUND /\ ~ named (trim_name path) (listing w c) /\ w' = w \/
     r = NO_ERROR /\ named (trim_name path) (listing w c) /\ relisted c (drop_name (trim_name path) (listing w c)) w w')).
Proof using All.
  intros Hu. unfold memfs_remove. cbv zeta. apply mruns_bind. eapply the_fs_run; [done|]. apply mruns_bind, find_listed.
  2: { intros Hno. apply mruns_ret. auto. }
  intros f d Hf Ef Hd. destruct (mi_files _ _ _ _ I c mem f Hc Hf) as (file & Efile & _).
  apply mruns_bind, mruns_mod, mruns_bind, mruns_bind. eapply mruns_get; [exact Efile|]. apply mruns_mod, mruns_ret. split.
  - apply mwi_drop_file; try done; [intros k Ek; by apply (Hu k (c, f)); auto|]. intros k dc dir Ek. by destruct (Hu k (c, dc)); auto.
  - right. split; [done|]. split; [by exists d|]. by eapply listing_drop.
Qed.

(** ** Directories *)
Lemma memfs_opendir_run path :
  mruns (memfs_opendir c path) w (fun r w' => (forall c', listing w' c' = listing w c') /\
    (r.1 = ERR_NOT_FOUND /\ trim_name path <> [] /\ w' = w \/
     r.1 = ERR_NO_MEMORY /\ trim_name path = [] /\ same_files w w' \/
     r.1 = NO_ERROR /\ trim_name path = [] /\ mw_dirs w' !! r.2 = Some (DirCookie c (head (ms_files mem))) /\
       mw_fs w' !! c = Some (Memfs (ms_files mem) (r.2 :: ms_dcookies mem)) /\
       (forall k, Do !! k = None -> mwi w' Mo Fo (<[k := (c, r.2)]> Do)))).
Proof using All.
  unfold memfs_opendir. cbv zeta. case_bool_decide as Hn; simpl; [|apply mruns_ret; auto].
  apply mruns_bind, malloc_run. intros ok w1 Hw. destruct ok; [|apply mruns_ret; split; [intros; by apply listing_same|auto]].
  simpl. apply mruns_bind. eexists _, _. split; [done|]. apply mruns_bind. eapply the_fs_run; [simpl; destruct Hw as (-> & _); done|].
  apply mruns_bind, mruns_mod, mruns_bind, mruns_mod, mruns_ret. simpl. split.
  - intros c'. rewrite <- (listing_same w w1 c' Hw). apply listing_ext; simpl; [|].
    + intros mem' E'. destruct (decide (c' = c)) as [->|]; [rewrite lookup_insert_eq|rewrite lookup_insert_ne by done; eauto].
      destruct Hw as (E1 & _). rewrite E1 in E'. simplify_eq. eauto.
    + intros E'. destruct (decide (c' = c)) as [->|]; [destruct Hw as (E1 & _); by rewrite E1, Hc in E'|by rewrite lookup_insert_ne].
  - right; right. split; [done|]. split; [done|]. split; [apply lookup_insert_eq|]. split; [apply lookup_insert_eq|]. intros k Hk.
    refine (mwi_new_dir w1 Mo Fo Do c mem k (mwi_same _ _ _ _ _ Hw I) _ Hk). by destruct Hw as (-> & _).
Qed.
End ops.

(** The files an open directory is still to show *)
Fixpoint from_file (f : Z) (l : list Z) : list Z :=
  match l with
  | [] => []
  | g :: l' => if g =? f then l else from_file f l'
  end.
Definition upcoming (w : mworld) (dc : Z) : list (list Z * list Z) :=
  match mw_dirs w !! dc with
  | Some dir =>
      match dc_next_file dir, mw_fs w !! dc_fs dir with
      | Some f, Some mem => omap (entry w) (from_file f (ms_files mem))
      | _, _ => []
      end
  | None => []
  end.

Lemma from_file_in f l : f ∈ l -> exists l', from_file f l = f :: l' /\ next_in f l = head l' /\ (forall g, g ∈ l' -> g ∈ l) /\
  (forall g, NoDup l -> head l' = Some g -> from_file g l = l').
Proof.
  induction l as [|g l IH]; intros Hf; [by apply elem_of_nil in Hf|]. simpl. destruct (Z.eqb_spec g f) as [->|Hne].
  - exists l. split; [done|]. split; [done|]. split; [by right|]. intros g Hnd Hg. inv Hnd. destruct l as [|g' l]; [done|]. simpl in Hg. simplify_eq.
    rewrite (proj2 (Z.eqb_neq f g)) by set_solver. simpl. by rewrite Z.eqb_refl.
  - destruct IH as (l' & E1 & E2 & E3 & E4); [set_solver|]. exists l'. split; [done|]. split; [done|]. split; [intros; right; auto|].
    intros h Hnd Hh. inv Hnd. rewrite (proj2 (Z.eqb_neq g h)); [auto|]. intros ->. apply H1, E3. by apply head_Some_elem_of.
Qed.

Section dirs.
Context (w : mworld) (Mo : gmap Z string) (Fo Do : gmap Z (Z * Z)) (I : mwi w Mo Fo Do).
Context (k c dc : Z) (Hk : Do !! k = Some (c, dc)).

Lemma memfs_readdir_run :
  mruns (memfs_readdir dc) w (fun r w' => mwi w' Mo Fo Do /\ (forall c', listing w' c' = listing w c') /\
    match upcoming w dc with
    | [] => r = (ERR_NOT_FOUND, []) /\ w' = w
    | e :: l => r = (NO_ERROR, take (Z.to_nat (FS_MAX_FILE_LEN - 1)) e.1) /\ upcoming w' dc = l
    end).
Proof using All.
  destruct (mi_dir _ _ _ _ I k c dc Hk) as (mem & dir & Em & Hd & Ed & Hfs & Hn). unfold memfs_readdir.
  apply mruns_bind. eapply mruns_get; [done|]. apply mruns_bind. rewrite Hfs. eapply the_fs_run; [done|].
  unfold upcoming. rewrite Ed, Hfs, Em. destruct (dc_next_file dir) as [f|] eqn:Enx; [|apply mruns_ret; auto].
  pose proof (Hn f eq_refl) as Hf. destruct (mi_files _ _ _ _ I c mem f Em Hf) as (file & Ef & _ & [[n En] _ _]).
  destruct (from_file_in f (ms_files mem) Hf) as (l' & E1 & E2 & E3 & E4).
  apply mruns_bind. eapply mruns_get; [done|]. rewrite En. apply mruns_bind, mruns_mod, mruns_ret.
  rewrite E1. cbn [omap list_omap]. rewrite (entry_some _ _ _ _ Ef En). split; [|split; [|split; [done|]]].
  - eapply mwi_next_dir; [done|done| |by exists k]. rewrite E2. intros g Hg. apply E3. by apply head_Some_elem_of.
  - intros c'. apply listing_ext; [|done]. intros mem' E'. exists mem'. done.
  - unfold set_mdirs. simpl. rewrite lookup_insert_eq. simpl. rewrite Em, E2. destruct (head l') as [g|] eqn:Eg.
    + rewrite (E4 g); [done|by eapply (mi_nodup _ _ _ _ I)|done].
    + by destruct l'.
Qed.

Lemma memfs_closedir_run :
  mruns (memfs_closedir dc) w (fun r w' => r = NO_ERROR /\ mwi w' Mo Fo (delete k Do) /\ forall c', listing w' c' = listing w c').
Proof using All.
  destruct (mi_dir _ _ _ _ I k c dc Hk) as (mem & dir & Em & Hd & Ed & Hfs & Hn). unfold memfs_closedir.
  apply mruns_bind. eapply mruns_get; [done|]. apply mruns_bind. rewrite Hfs. eapply the_fs_run; [done|]. rewrite bool_decide_true by done.
  apply mruns_bind, mruns_mod, mruns_bind, mruns_mod, mruns_ret. split; [done|]. split; [by apply mwi_drop_dir|].
  intros c'. apply listing_ext; simpl.
  - intros mem' E'. destruct (decide (c' = c)) as [->|]; [rewrite lookup_insert_eq|rewrite lookup_insert_ne by done; eauto]. simplify_eq. eauto.
  - intros E'. destruct (decide (c' = c)) as [->|]; [congruence|by rewrite lookup_insert_ne].
Qed.
End dirs.

(** * memfs is a driver

    Mounting and unmounting, and the instance that discharges the laws Fs relies on. *)

Lemma memfs_mount_run w Mo Fo Do dev :
  mwi w Mo Fo Do ->
  mruns (memfs_mount dev) w (fun r w' =>
    (r.1 = ERR_NO_MEMORY /\ mwi w' Mo Fo Do /\ forall c, listing w' c = listing w c) \/
    (r.1 = NO_ERROR /\ Mo !! r.2 = None /\ mw_fs w !! r.2 = None /\ (forall name, mwi w' (<[r.2 := name]> Mo) Fo Do) /\ relisted r.2 [] w w')).
Proof.
  intros I. unfold memfs_mount. apply mruns_bind, malloc_run. intros ok w1 Hw. pose proof (mwi_same _ _ _ _ _ Hw I) as I1.
  destruct ok; simpl; [|apply mruns_ret; left; split; [done|]; split; [done|]; intros; by apply listing_same].
  apply mruns_bind. eexists _, _. split; [done|]. apply mruns_bind, mruns_mod, mruns_ret. right. simpl. set (c := mw_next w1).
  assert (Mo !! c = None) as Em by (apply eq_None_not_Some; intros Hs; pose proof (mi_next _ _ _ _ I1 c ltac:(auto)); lia).
  assert (mw_fs w1 !! c = None) as Ef by (apply eq_None_not_Some; intros Hs; pose proof (mi_next _ _ _ _ I1 c ltac:(auto)); lia).
  assert (mw_fs w1 = mw_fs w) as E1 by apply Hw. split; [done|]. split; [done|]. split; [by rewrite <- E1|]. split.
  - intros name. assert (forall c' mem', <[c := Memfs [] []]> (mw_fs w1) !! c' = Some mem' ->
      mw_fs w1 !! c' = Some mem' \/ ms_files mem' = []) as Hin.
    { intros c' mem'. rewrite lookup_insert_Some. intros [[_ <-]|[_ ?]]; auto. }
    assert (forall c' mem', mw_fs w1 !! c' = Some mem' -> <[c := Memfs [] []]> (mw_fs w1) !! c' = Some mem') as Hout.
    { intros c' mem' E'. rewrite lookup_insert_ne; [done|]. intros <-. congruence. }
    split; simpl; try apply I1.
    + intros c' n [[<- _]|[Hne E]]%lookup_insert_Some; [rewrite lookup_insert_eq; eauto|]. rewrite lookup_insert_ne by done. by eapply (mi_mounted _ _ _ _ I1).
    + intros k Hk. destruct (decide (k = c)) as [->|]; [unfold c; lia|]. rewrite !lookup_insert_ne in Hk by done. pose proof (mi_next _ _ _ _ I1 k Hk). lia.
    + intros c' mem' [E'| ->]%Hin; [by eapply (mi_nodup _ _ _ _ I1)|constructor].
    + intros c' mem' f [E'| ->]%Hin Hf; [by eapply (mi_files _ _ _ _ I1)|by apply elem_of_nil in Hf].
    + intros c' mem' f g fl fl' [E'| ->]%Hin Hf; [by eapply (mi_names _ _ _ _ I1)|by apply elem_of_nil in Hf].
    + intros k c' fc Ek. destruct (mi_file _ _ _ _ I1 k c' fc Ek) as (m & E' & ?). eauto.
    + intros k c' dc Ek. destruct (mi_dir _ _ _ _ I1 k c' dc Ek) as (m & dir & E' & ?). exists m, dir. simpl. eauto.
  - split; [unfold listing; simpl; by rewrite lookup_insert_eq|]. intros c' Hne. rewrite <- (listing_same w w1) by done.
    unfold listing. simpl. by rewrite lookup_insert_ne.
Qed.

Lemma free_files_run l w (Q : unit -> mworld -> Prop) :
  NoDup l -> (forall f, f ∈ l -> is_Some (mw_files w !! f)) ->
  Q () (set_mfiles (fun m => filter (fun p => p.1 ∉ l) m) w) -> mruns (free_files l) w Q.
Proof.
  intros Hnd Hl HQ. induction l as [|f l IH] in w, Hnd, Hl, HQ |- *; simpl.
  - apply mruns_ret. destruct w as [a b ? ? ? ? ?]. unfold set_mfiles in HQ. simpl in HQ.
    rewrite map_filter_id in HQ; [done|]. intros i x _. simpl. apply not_elem_of_nil.
  - inv Hnd. destruct (Hl f) as [file Ef]; [left|]. apply mruns_bind, mruns_bind. eapply mruns_get; [done|]. apply mruns_mod, IH; [done| |].
    + intros g Hg. simpl. rewrite lookup_delete_ne by (intros ->; done). apply Hl. by right.
    + replace (set_mfiles _ (set_mfiles (delete f) w)) with (set_mfiles (fun m => filter (fun p => p.1 ∉ f :: l) m) w); [done|].
      unfold set_mfiles. simpl. f_equal. apply map_eq. intros i. apply option_eq. intros x.
      rewrite !map_lookup_filter_Some, lookup_delete_Some. simpl. set_solver.
Qed.

Lemma memfs_unmount_run w Mo Fo Do c mem :
  mwi w Mo Fo Do -> mw_fs w !! c = Some mem -> unused Fo Do c ->
  mruns (memfs_unmount c) w (fun r w' => r = NO_ERROR /\ mwi w' (delete c Mo) Fo Do /\ mw_fs w' !! c = None /\
    (forall f, f ∈ ms_files mem -> mw_files w' !! f = None) /\ relisted c [] w w').
Proof.
  intros I Ec Hu. unfold memfs_unmount. apply mruns_bind. eapply the_fs_run; [done|]. apply mruns_bind, free_files_run.
  { by eapply (mi_nodup _ _ _ _ I). }
  { intros f Hf. destruct (mi_files _ _ _ _ I c mem f Ec Hf) as (? & ? & _). eauto. }
  apply mruns_bind, mruns_mod, mruns_ret. set (files := filter (fun p : Z * memfs_file_t => p.1 ∉ ms_files mem) (mw_files w)).
  assert (forall c' mem' f, mw_fs w !! c' = Some mem' -> c' <> c -> f ∈ ms_files mem' -> files !! f = mw_files w !! f) as Hkeep.
  { intros c' mem' f E' Hne Hf. apply option_eq. intros x. unfold files. rewrite map_lookup_filter_Some. simpl. split; [by intros [? _]|]. intros. split; [done|].
    intros Hf'. by destruct (other_fs w Mo Fo Do I c c' mem mem' f). }
  split; [done|]. split; [|split; [apply lookup_delete_eq|split]].
  - split; simpl; fold files; try apply I.
    + intros c' n [Hne E]%lookup_delete_Some. rewrite lookup_delete_ne by done. by eapply (mi_mounted _ _ _ _ I).
    + intros k Hk. apply (mi_next _ _ _ _ I k). destruct Hk as [[x [_ ?]%lookup_delete_Some]|[[x [_ ?]%lookup_delete_Some]|[[x [? _]%map_lookup_filter_Some]|?]]]; eauto 10.
    + intros c' mem' [_ E']%lookup_delete_Some. by eapply (mi_nodup _ _ _ _ I).
    + intros c' mem' f [Hne E']%lookup_delete_Some Hf. rewrite (Hkeep c' mem') by done. by eapply (mi_files _ _ _ _ I).
    + intros c' mem' f g fl fl' [Hne E']%lookup_delete_Some Hf Hg. rewrite !(Hkeep c' mem') by done. by eapply (mi_names _ _ _ _ I).
    + intros k c' fc Ek. destruct (mi_file _ _ _ _ I k c' fc Ek) as (m & E' & Hf). exists m. split; [|done].
      rewrite lookup_delete_ne; [done|]. intros <-. by destruct (Hu k (c, fc)); auto.
    + intros k c' dc Ek. destruct (mi_dir _ _ _ _ I k c' dc Ek) as (m & dir & E' & ?). exists m, dir. simpl. split; [|done].
      rewrite lookup_delete_ne; [done|]. intros <-. by destruct (Hu k (c, dc)); auto.
  - intros f Hf. simpl. apply eq_None_not_Some. intros [x [_ Hx]%map_lookup_filter_Some]. done.
  - split; [unfold listing; simpl; by rewrite lookup_delete_eq|]. intros c' Hne. apply listing_ext; simpl; rewrite lookup_delete_ne by done; [|done].
    intros mem' E'. exists mem'. split; [done|]. split; [done|]. intros f Hf. unfold entry. simpl. fold files. by rewrite (Hkeep c' mem').
Qed.

(** The driver before the first mount *)
Definition no_memfs (mallocs : list bool) (stale : list Z) : mworld := MWorld ∅ ∅ ∅ 0 mallocs [] stale.
Lemma mwi_start mallocs stale : mwi (no_memfs mallocs stale) ∅ ∅ ∅.
Proof. split; simpl; intros; repeat match goal with H : _ \/ _ |- _ => destruct H end; try done; by apply is_Some_None in H. Qed.

(** ** The laws *)
Lemma find_memfs name api : find_fs [memfs_impl] name = Some api -> api = memfs_api.
Proof. unfold find_fs. rewrite filter_cons. case_decide; simpl; intros; by simplify_eq. Qed.

Lemma mwi_opened w Mo Fo Do k c fc : mwi w Mo Fo Do -> Fo !! k = Some (c, fc) -> exists n d, entry w fc = Some (n, d).
Proof.
  intros I E. destruct (mi_file _ _ _ _ I k c fc E) as (mem & Em & Hf). destruct (entry_in w Mo Fo Do I c mem fc Em Hf) as [[n d] En]. eauto.
Qed.

Lemma mwi_close_file w Mo Fo Do k : mwi w Mo Fo Do -> mwi w Mo (delete k Fo) Do.
Proof. intros I. split; try apply I. intros k' c fc [_ E]%lookup_delete_Some. by apply (mi_file _ _ _ _ I k'). Qed.

Lemma mwi_mounted w Mo Fo Do c name : mwi w Mo Fo Do -> Mo !! c = Some name -> exists mem, mw_fs w !! c = Some mem.
Proof. intros I E. by destruct (mi_mounted _ _ _ _ I c name E) as [mem ?]; exists mem. Qed.

Lemma memfs_opens w Mo Fo Do c name path :
  mwi w Mo Fo Do -> Mo !! c = Some name -> exists st fc w', memfs_open c path w = Some ((st, fc), w') /\
    (st < 0 -> mwi w' Mo Fo Do) /\ (0 <= st -> forall k, Fo !! k = None -> mwi w' Mo (<[k := (c, fc)]> Fo) Do).
Proof.
  intros I E. destruct (mwi_mounted _ _ _ _ _ _ I E) as [mem Em].
  destruct (memfs_open_run w Mo Fo Do I c mem Em path) as ([st fc] & w' & Er & -> & H). exists st, fc, w. split; [done|]. split; [done|].
  intros Hst k Hk. destruct H as [([=-> ->] & _)|(f & d & [=-> ->] & Hf & _)]; [done|]. by eapply mwi_open.
Qed.

Lemma memfs_creates w Mo Fo Do c name path len :
  mwi w Mo Fo Do -> Mo !! c = Some name -> 0 <= len -> exists st fc w', memfs_create c path len w = Some ((st, fc), w') /\
    (st < 0 -> mwi w' Mo Fo Do) /\ (0 <= st -> forall k, Fo !! k = None -> mwi w' Mo (<[k := (c, fc)]> Fo) Do).
Proof.
  intros I E Hlen. destruct (mwi_mounted _ _ _ _ _ _ I E) as [mem Em].
  destruct (memfs_create_run w Mo Fo Do I c mem Em path len Hlen) as ([st fc] & w' & Er & I' & H). exists st, fc, w'. split; [done|]. split; [done|].
  intros Hst k Hk. simpl in H. destruct H as [[-> _]|[[-> _]|[[-> _]|(_ & _ & _ & (mem' & Em' & Hf & _) & _)]]]; try done. by eapply mwi_open.
Qed.

Lemma memfs_opens_dir w Mo Fo Do c name path :
  mwi w Mo Fo Do -> Mo !! c = Some name -> exists st dc w', memfs_opendir c path w = Some ((st, dc), w') /\
    (st < 0 -> mwi w' Mo Fo Do) /\ (0 <= st -> forall k, Do !! k = None -> mwi w' Mo Fo (<[k := (c, dc)]> Do)).
Proof.
  intros I E. destruct (mwi_mounted _ _ _ _ _ _ I E) as [mem Em].
  destruct (memfs_opendir_run w Mo Fo Do I c mem Em path) as ([st dc] & w' & Er & _ & H). exists st, dc, w'. split; [done|]. simpl in H.
  destruct H as [(-> & _ & ->)|[(-> & _ & Hs)|(-> & _ & _ & _ & Hk)]]; split; try done. intros _. by eapply mwi_same.
Qed.

#[export] Instance memfs_laws : FsLaws [memfs_impl].
Proof.
  refine {| wi := mwi |}; intros *; intros ->%find_memfs; simpl.
  - intros I. destruct (memfs_mount_run w M Fo Do dev I) as ([st c] & w' & E & [(Hst & ? & _)|(Hst & ? & _ & Hm & _)]);
      simpl in *; subst st; eexists _, c, w'; (split; [exact E|by split]).
  - intros Em I Hu. destruct (mwi_mounted _ _ _ _ _ _ I Em) as [mem Ec].
    destruct (memfs_unmount_run w M Fo Do c mem I Ec Hu) as (r & w' & E & _ & I' & _). eauto.
  - intros Em I. by eapply memfs_opens.
  - intros Em I [= <-] Hlen. by eapply memfs_creates.
  - intros Em I Hu [= <-]. destruct (mwi_mounted _ _ _ _ _ _ I Em) as [mem Ec].
    destruct (memfs_remove_run w M Fo Do I c mem Ec path Hu) as (r & w' & E & I' & _). eauto.
  - intros Em I Ek Hlen. destruct (mwi_opened _ _ _ _ _ _ _ I Ek) as (n & d & En).
    destruct (memfs_truncate_run w M Fo Do I k c fc Ek n d En len Hlen) as (r & w' & E & I' & _). eauto 10.
  - intros Em I Ek. destruct (mwi_opened _ _ _ _ _ _ _ I Ek) as (n & d & En). rewrite (memfs_stat_run w M Fo Do I k c fc Ek n d En).
    eexists _, _. split; [done|]. split; [done|]. simpl. lia.
  - intros Em I Ek Hb Hlen. destruct (mwi_opened _ _ _ _ _ _ _ I Ek) as (n & d & En).
    rewrite (memfs_read_run w M Fo Do I k c fc Ek n d En off len Hlen Hb). eauto.
  - intros Em I Ek Hb [= <-]. destruct (mwi_opened _ _ _ _ _ _ _ I Ek) as (n & d & En).
    destruct (memfs_write_run w M Fo Do I k c fc Ek n d En buf off Hb) as (r & w' & E & I' & _). eauto.
  - intros Em I Ek. exists NO_ERROR, w. split; [done|]. split; [done|]. intros _. by apply mwi_close_file.
  - done.
  - intros Em I [= <-]. by eapply memfs_opens_dir.
  - done.
  - done.
  - done.
  - intros Em I Ek [= <-]. destruct (memfs_readdir_run w M Fo Do I k c dc Ek) as (r & w' & E & I' & _). eauto.
  - intros Em I Ek [= <-]. destruct (memfs_closedir_run w M Fo Do I k c dc Ek) as (r & w' & E & -> & I' & _). exists NO_ERROR, w'. split; [done|]. split; [done|]. done.
Defined.
