(* ===== verification/MemfsClaims.v ===== *)
(** * What memfs promises

    A file system in memory is a list of named byte strings.  [mspec] says of each
    operation what it may answer and what becomes of the list, and the operations of
    the driver implement it. *)
From S2P Require Import Prelude Bio FsPath Fs FsInv Memfs MemfsOps.

(** ** The operations *)
Inductive mcall :=
| KOpen (path : list Z)
| KCreate (path : list Z) (len : Z)
| KRemove (path : list Z)
| KRead (f off len : Z)
| KWrite (f : Z) (buf : list Z) (off : Z)
| KTruncate (f len : Z)
| KStat (f : Z).

(** Status, data and cookie *)
Definition mexec (c : Z) (op : mcall) : mm (Z * list Z * Z) :=
  match op with
  | KOpen path => '(st, f) ← memfs_open c path; mret (st, [], f)
  | KCreate path len => '(st, f) ← memfs_create c path len; mret (st, [], f)
  | KRemove path => st ← memfs_remove c path; mret (st, [], 0)
  | KRead f off len => '(st, data) ← memfs_read f off len; mret (st, data, f)
  | KWrite f buf off => st ← memfs_write f buf off; mret (st, [], f)
  | KTruncate f len => st ← memfs_truncate f len; mret (st, [], f)
  | KStat f => '(st, stat) ← memfs_stat f; mret (st, [st_size stat], f)
  end.

(** The file of a cookie is open, nothing is open when a file is removed, and the
    range of a transfer is one of an [off_t]. *)
Definition opened_on (Fo : gmap Z (Z * Z)) (c f : Z) : Prop := exists k, Fo !! k = Some (c, f).
Definition mallowed (Fo Do : gmap Z (Z * Z)) (c : Z) (op : mcall) : Prop :=
  match op with
  | KOpen _ => True
  | KCreate _ len => 0 <= len
  | KRemove _ => unused Fo Do c
  | KRead f off len => opened_on Fo c f /\ 0 <= len /\ off + len < 2 ^ 63
  | KWrite f buf off => opened_on Fo c f /\ off + Z.of_nat (length buf) < 2 ^ 63
  | KTruncate f len => opened_on Fo c f /\ 0 <= len
  | KStat f => opened_on Fo c f
  end.

(** ** The specification *)

(** [mspec op n l st data l']: from the files [l], [op] answers [st] and [data] and
    leaves [l']; [n] is the name of the file it is about. *)
Inductive mspec : mcall -> list Z -> list (list Z * list Z) -> Z -> list Z -> list (list Z * list Z) -> Prop :=
| SpOpenNone path l : ~ named (trim_name path) l -> mspec (KOpen path) (trim_name path) l ERR_NOT_FOUND [] l
| SpOpen path l : named (trim_name path) l -> mspec (KOpen path) (trim_name path) l NO_ERROR [] l
| SpCreateMem path len l : mspec (KCreate path len) (trim_name path) l ERR_NO_MEMORY [] l
| SpCreateDir path len l : slash ∈ trim_name path -> mspec (KCreate path len) (trim_name path) l ERR_NOT_SUPPORTED [] l
| SpCreateOld path len l : named (trim_name path) l -> mspec (KCreate path len) (trim_name path) l ERR_ALREADY_EXISTS [] l
| SpCreate path len l : slash ∉ trim_name path -> ~ named (trim_name path) l ->
    mspec (KCreate path len) (trim_name path) l NO_ERROR [] (l ++ [(trim_name path, replicate (Z.to_nat len) 0)])
| SpRemoveNone path l : ~ named (trim_name path) l -> mspec (KRemove path) (trim_name path) l ERR_NOT_FOUND [] l
| SpRemove path l : named (trim_name path) l ->
    mspec (KRemove path) (trim_name path) l NO_ERROR [] (drop_name (trim_name path) l)
| SpReadNeg f off len n l : off < 0 -> mspec (KRead f off len) n l ERR_INVALID_ARGS [] l
| SpReadHuge f off len n d l : 0 <= off -> (n, d) ∈ l -> 2 ^ 63 <= Z.of_nat (length d) -> mspec (KRead f off len) n l 0 [] l
| SpRead f off len n d l data : 0 <= off -> (n, d) ∈ l -> Z.of_nat (length d) < 2 ^ 63 ->
    data = take (Z.to_nat len) (drop (Z.to_nat off) d) -> mspec (KRead f off len) n l (Z.of_nat (length data)) data l
| SpWriteNeg f buf off n l : off < 0 -> mspec (KWrite f buf off) n l ERR_INVALID_ARGS [] l
| SpWriteMem f buf off n d l : 0 <= off -> (n, d) ∈ l -> Z.of_nat (length d) < off + Z.of_nat (length buf) ->
    mspec (KWrite f buf off) n l ERR_NO_MEMORY [] l
| SpWrite f buf off n d d' l : 0 <= off -> (n, d) ∈ l -> written d off buf d' ->
    mspec (KWrite f buf off) n l (Z.of_nat (length buf)) [] (set_data n d' l)
| SpTruncateGrow f len n d l : (n, d) ∈ l -> Z.of_nat (length d) < len -> mspec (KTruncate f len) n l ERR_INVALID_ARGS [] l
| SpTruncateMem f len n d l : (n, d) ∈ l -> len <= Z.of_nat (length d) -> mspec (KTruncate f len) n l ERR_NO_MEMORY [] l
| SpTruncate f len n d l : (n, d) ∈ l -> len <= Z.of_nat (length d) ->
    mspec (KTruncate f len) n l NO_ERROR [] (set_data n (take (Z.to_nat len) d) l)
| SpStat f n d l : (n, d) ∈ l -> mspec (KStat f) n l NO_ERROR [Z.of_nat (length d)] l.

(** Whose name the specification speaks of: that of the open file, or of the file
    the operation has found or made *)
Definition names_file (w : mworld) (op : mcall) (n : list Z) (st fc : Z) (w' : mworld) : Prop :=
  match op with
  | KOpen _ | KCreate _ _ => st = NO_ERROR -> exists d, entry w' fc = Some (n, d)
  | KRemove _ => True
  | KRead f _ _ | KWrite f _ _ | KTruncate f _ | KStat f => exists d, entry w f = Some (n, d)
  end.

Definition refined (w : mworld) (Mo : gmap Z string) (Fo Do : gmap Z (Z * Z)) (c : Z) (op : mcall) (r : Z * list Z * Z) (w' : mworld) : Prop :=
  mwi w' Mo Fo Do /\ (forall c', c' <> c -> listing w' c' = listing w c') /\
  exists n, names_file w op n r.1.1 r.2 w' /\ mspec op n (listing w c) r.1.1 r.1.2 (listing w' c).

Lemma refined_same w Mo Fo Do c op st data fc n :
  mwi w Mo Fo Do -> names_file w op n st fc w -> mspec op n (listing w c) st data (listing w c) -> refined w Mo Fo Do c op (st, data, fc) w.
Proof. intros I Hn Hs. split; [done|]. split; [done|]. by exists n. Qed.

Lemma refined_listed w Mo Fo Do c op st data fc n l w' :
  mwi w' Mo Fo Do -> relisted c l w w' -> names_file w op n st fc w' -> mspec op n (listing w c) st data l ->
  refined w Mo Fo Do c op (st, data, fc) w'.
Proof. intros I [E1 E2] Hn Hs. split; [done|]. split; [done|]. exists n. simpl. by rewrite E1. Qed.

Section refine.
Context (w : mworld) (Mo : gmap Z string) (Fo Do : gmap Z (Z * Z)) (I : mwi w Mo Fo Do).
Context (c : Z) (mem : memfs_t) (Hc : mw_fs w !! c = Some mem).

Lemma opened_entry f : opened_on Fo c f -> exists k n d, Fo !! k = Some (c, f) /\ entry w f = Some (n, d) /\ (n, d) ∈ listing w c.
Proof using All.
  intros [k Hk]. destruct (mi_file _ _ _ _ I k c f Hk) as (mem' & E & Hf). simplify_eq.
  destruct (entry_in w Mo Fo Do I c mem f Hc Hf) as [[n d] En]. exists k, n, d. split; [done|]. split; [done|]. eapply elem_of_listing; eauto.
Qed.

Lemma refine_names op : mallowed Fo Do c op -> match op with KOpen _ | KCreate _ _ | KRemove _ => True | _ => False end ->
  mruns (mexec c op) w (refined w Mo Fo Do c op).
Proof using All.
  intros Ha Hop. destruct op as [path|path len|path| | | |]; try done; simpl in Ha |- *; apply mruns_bind.
  - eapply mruns_mono; [by eapply memfs_open_run|]. intros r w' (-> & [(-> & Hno)|(f & d & -> & Hf & Ef & Hd)]); apply mruns_ret;
      eapply refined_same; try done.
    + by apply SpOpenNone.
    + intros _. by exists d.
    + apply SpOpen. by exists d.
  - eapply mruns_mono; [by eapply memfs_create_run|]. intros [st fc] w' (I' & H). simpl in H. apply mruns_ret.
    destruct H as [(-> & Hl)|[(-> & Hs & ->)|[(-> & Hs & ->)|(-> & Hs & Hno & (mem' & _ & _ & Ef) & Hl)]]].
    + eapply refined_listed; [done|done|done|apply SpCreateMem].
    + eapply refined_same; [done|done|by apply SpCreateDir].
    + eapply refined_same; [done|done|by apply SpCreateOld].
    + eapply refined_listed; [done|done|intros _; eauto|by apply SpCreate].
  - eapply mruns_mono; [by eapply memfs_remove_run|]. intros st w' (I' & [(-> & Hno & ->)|(-> & Hn & Hl)]); apply mruns_ret.
    + eapply refined_same; [done|done|by apply SpRemoveNone].
    + eapply refined_listed; [done|done|done|by apply SpRemove].
Qed.

Lemma refine_files op : mallowed Fo Do c op -> match op with KOpen _ | KCreate _ _ | KRemove _ => False | _ => True end ->
  mruns (mexec c op) w (refined w Mo Fo Do c op).
Proof using All.
  intros Ha Hop.
  destruct op as [| | |f off len|f buf off|f len|f]; try done; simpl in Ha |- *; apply mruns_bind.
  - destruct Ha as (Ho & Hlen & Hb). destruct (opened_entry f Ho) as (k & n & d & Hk & En & Hd).
    eexists _, _. split; [by eapply memfs_read_run|]. destruct (Z.ltb_spec off 0); apply mruns_ret; (eapply refined_same; [done|by exists d|]).
    + by apply SpReadNeg.
    + destruct (Z.ltb_spec (Z.of_nat (length d)) (2 ^ 63)); [by eapply SpRead|by eapply SpReadHuge].
  - destruct Ha as (Ho & Hb). destruct (opened_entry f Ho) as (k & n & d & Hk & En & Hd).
    eapply mruns_mono; [by eapply memfs_write_run|]. intros st w' (I' & [(-> & Hneg & ->)|[(-> & H0 & Hlt & Hl)|(-> & H0 & d' & Hw & Hl & _)]]); apply mruns_ret.
    + eapply refined_same; [done|by exists d|by apply SpWriteNeg].
    + eapply refined_listed; [done|done|by exists d|by eapply SpWriteMem].
    + eapply refined_listed; [done|done|by exists d|by eapply SpWrite].
  - destruct Ha as (Ho & Hlen). destruct (opened_entry f Ho) as (k & n & d & Hk & En & Hd).
    eapply mruns_mono; [by eapply memfs_truncate_run|]. intros st w' (I' & [(-> & Hgr & ->)|[(-> & Hle & Hl)|(-> & Hle & Hl)]]); apply mruns_ret.
    + eapply refined_same; [done|by exists d|by eapply SpTruncateGrow].
    + eapply refined_listed; [done|done|by exists d|by eapply SpTruncateMem].
    + eapply refined_listed; [done|done|by exists d|by eapply SpTruncate].
  - destruct (opened_entry f Ha) as (k & n & d & Hk & En & Hd). eexists _, _. split; [by eapply memfs_stat_run|].
    apply mruns_ret. eapply refined_same; [done|by exists d|]. by apply SpStat.
Qed.
End refine.

(** ** Listing a directory *)

(** [readdir] until it fails, as [ls] does *)
Fixpoint read_names (fuel : nat) (dc : Z) : mm (Z * list (list Z)) :=
  match fuel with
  | O => m_fault
  | S fuel =>
      '(st, name) ← memfs_readdir dc;
      if st <? 0 then mret (st, []) else '(st, names) ← read_names fuel dc; mret (st, name :: names)
  end.
Definition shown (e : list Z * list Z) : list Z := take (Z.to_nat (FS_MAX_FILE_LEN - 1)) e.1.

Lemma read_names_run fuel w Mo Fo Do k c dc :
  mwi w Mo Fo Do -> Do !! k = Some (c, dc) -> (length (upcoming w dc) < fuel)%nat ->
  mruns (read_names fuel dc) w (fun r w' => r = (ERR_NOT_FOUND, shown <$> upcoming w dc) /\ mwi w' Mo Fo Do /\ forall c', listing w' c' = listing w c').
Proof.
  intros I Hk Hf. induction fuel as [|fuel IH] in w, I, Hf |- *; [lia|]. simpl. apply mruns_bind.
  eapply mruns_mono; [by eapply memfs_readdir_run|]. intros r w' (I' & Hl & Hr). destruct (upcoming w dc) as [|e l] eqn:E.
  - destruct Hr as [-> ->]. simpl. by apply mruns_ret.
  - destruct Hr as [-> El]. simpl. apply mruns_bind. eapply mruns_mono; [apply IH; [done|rewrite El; simpl in Hf; lia]|].
    intros r w'' (-> & I'' & Hl'). apply mruns_ret. rewrite El. split; [done|]. split; [done|]. intros c'. by rewrite Hl'.
Qed.

Lemma upcoming_all w c dc mem : mw_fs w !! c = Some mem -> mw_dirs w !! dc = Some (DirCookie c (head (ms_files mem))) -> upcoming w dc = listing w c.
Proof.
  intros Ec Ed. unfold upcoming, listing. rewrite Ed, Ec. simpl. rewrite Ec. destruct (ms_files mem) as [|f l]; [done|]. simpl. by rewrite Z.eqb_refl.
Qed.

Lemma listing_names w Mo Fo Do c mem : mwi w Mo Fo Do -> mw_fs w !! c = Some mem -> NoDup (fst <$> listing w c).
Proof.
  intros I Hc. unfold listing. rewrite Hc. pose proof (mi_nodup _ _ _ _ I c mem Hc) as Hnd.
  assert (forall f, f ∈ ms_files mem -> f ∈ ms_files mem) as Hl by done. revert Hl Hnd.
  generalize (ms_files mem) at 1 3 4. intros l. induction l as [|f l IH]; intros Hl Hnd; [constructor|]. inv Hnd.
  assert (f ∈ ms_files mem) as Hf by (apply Hl; left). destruct (entry_in w Mo Fo Do I c mem f Hc Hf) as [e Ee]. cbn. rewrite Ee. cbn.
  constructor; [|apply IH; [intros; apply Hl; by right|done]].
  intros (e' & En & (g & Hg & Eg)%list_elem_of_omap)%list_elem_of_fmap. assert (f = g) as ->; [|done].
  by eapply (entry_name w Mo Fo Do I c mem); [done|done|apply Hl; by right|..].
Qed.

(** ** Claims *)


(** A file system with one file "a" of two bytes, open once *)
Definition wit_w : mworld := MWorld {[0 := Memfs [1] []]} {[1 := MemfsFile 0 (Some [97]) [7; 8] 2]} ∅ 2 [] [] [].
Lemma wit_w_inv : mwi wit_w {[0 := "memfs"%string]} {[5 := (0, 1)]} ∅.
Proof.
  split; unfold wit_w; simpl; try done.
  - intros c name [<- _]%lookup_singleton_Some. by eexists.
  - intros k. rewrite !lookup_singleton_is_Some. intros [<-|[<-|[<-|[? ?]]]]; [lia..|]. by rewrite lookup_empty in *.
  - intros c mem [<- <-]%lookup_singleton_Some. apply NoDup_singleton.
  - intros c mem f [<- <-]%lookup_singleton_Some ->%list_elem_of_singleton. eexists. split; [done|]. split; [done|]. split; simpl; [by eexists|lia|lia].
  - intros c mem f g fl fl' [<- <-]%lookup_singleton_Some ->%list_elem_of_singleton ->%list_elem_of_singleton. done.
  - intros k c fc [<- [= <- <-]]%lookup_singleton_Some. eexists. split; [done|]. by left.
Qed.


(** Opening the root directory of a memfs and reading it until it ends shows the
    names of all of its files, once each and in order, cut to the 63 characters an
    entry has room for, and then reports that there are no more; the files are left
    as they were.  One read more than there are files is enough. *)
Theorem memfs_ls_complete w Mo Fo Do c mem k fuel st dc w1 :
  mwi w Mo Fo Do -> mw_fs w !! c = Some mem -> Do !! k = None -> (length (listing w c) < fuel)%nat ->
  memfs_opendir c [slash] w = Some ((st, dc), w1) -> st = NO_ERROR ->
  exists w', read_names fuel dc w1 = Some ((ERR_NOT_FOUND, shown <$> listing w c), w') /\
    NoDup (fst <$> listing w c) /\ mwi w' Mo Fo (<[k := (c, dc)]> Do) /\ forall c', listing w' c' = listing w c'.
Proof.
  intros I Hc Hk Hf E ->. destruct (memfs_opendir_run w Mo Fo Do I c mem Hc [slash]) as (r & w2 & E2 & Hl & Hr).
  rewrite E in E2. injection E2 as <- <-. destruct Hr as [(? & _)|[(? & _)|(_ & _ & Ed & Ec & I1)]]; [done..|]. simpl in *.
  specialize (I1 k Hk). assert (upcoming w1 dc = listing w c) as Eu by (by erewrite upcoming_all).
  destruct (read_names_run fuel w1 Mo Fo _ k c dc I1 (lookup_insert_eq _ _ _)) as (r & w' & Er & -> & I' & Hl'); [by rewrite Eu|].
  exists w'. rewrite Er, Eu. split; [done|]. split; [by eapply listing_names|]. split; [done|]. intros c'. by rewrite Hl'.
Qed.

Definition wit_w1 : mworld := match memfs_opendir 0 [slash] wit_w with Some (_, w) => w | None => wit_w end.
Lemma memfs_ls_complete_witness : exists w', read_names 2 2 wit_w1 = Some ((ERR_NOT_FOUND, [[97]]), w').
Proof.
  destruct (memfs_ls_complete wit_w _ _ ∅ 0 (Memfs [1] []) 0 2 NO_ERROR 2 wit_w1 wit_w_inv) as (w' & E & _);
    [reflexivity|reflexivity|vm_compute; lia|vm_compute; reflexivity|reflexivity|]. exists w'. exact E.
Defined.
