(* ===== verification/FsClaims.v ===== *)
(** * What the file system layer promises *)
From S2P Require Import Prelude KState Bio BioReg BioRegInv FsPath Fs FsInv FsFiles Memfs MemfsOps.

(** ** Paths *)

(** C11: [fs_normalize_path] terminates on every C string, works in place (the buffer
    keeps its length and what follows the string is not touched), and leaves the
    text of the path with empty fields and [.] dropped and each [..] taken together
    with the field before it.  No field of the result is empty, [.] or [..], and
    normalizing again changes nothing. *)
Theorem fs_normalize_path_correct l tail :
  0 ∉ l ->
  exists junk, fs_normalize_path (l ++ 0 :: tail) = Some (path_text (normal l) ++ 0 :: junk ++ tail) /\
    length (path_text (normal l) ++ 0 :: junk) = length (l ++ [0]) /\
    Forall plain_field (normal l).2 /\ path_text (normal (path_text (normal l))) = path_text (normal l).
Proof.
  intros Hl. destruct (fs_normalize_path_run l tail Hl) as (junk & E & El). exists junk.
  split; [done|]. split; [done|]. split; [apply normal_fields|apply normal_idempotent].
Qed.

(** "/a/../b/" becomes "/b". *)
Lemma fs_normalize_path_correct_witness :
  exists junk, fs_normalize_path ([47; 97; 47; 46; 46; 47; 98; 47] ++ 0 :: [5]) = Some ([47; 98] ++ 0 :: junk ++ [5]).
Proof.
  destruct (fs_normalize_path_correct [47; 97; 47; 46; 46; 47; 98; 47] [5]) as (junk & E & _); [apply (bool_decide_unpack _); reflexivity|].
  exists junk. exact E.
Defined.

(** The cases of [lib/fs/test/test.c] *)
Definition normalizes (a b : string) : bool :=
  let chars := fun t => (fun c => Z.of_nat (Ascii.nat_of_ascii c)) <$> String.list_ascii_of_string t in
  match fs_normalize_path (chars a ++ [0]) with Some buf => bool_decide (cut_zero buf = chars b) | None => false end.
Example test_path_normalize :
  forallb (fun p => normalizes p.1 p.2)
    [("/", ""); ("/test", "/test"); ("/test/", "/test"); ("test/", "test"); ("test", "test"); ("/test//", "/test");
     ("/test/foo", "/test/foo"); ("/test/foo/", "/test/foo"); ("/test/foo/bar", "/test/foo/bar");
     ("/test/foo/bar//", "/test/foo/bar"); ("/test//foo/bar//", "/test/foo/bar"); ("/test//./foo/bar//", "/test/foo/bar");
     ("/test//./.foo/bar//", "/test/.foo/bar"); ("/test//./..foo/bar//", "/test/..foo/bar"); ("/test//./../foo/bar//", "/foo/bar");
     ("/test/../foo", "/foo"); ("/test/bar/../foo", "/test/foo"); ("../foo", "foo"); ("../foo/", "foo"); ("/../foo", "foo");
     ("/../foo/", "foo"); ("/../../foo", "foo"); ("/bleh/../../foo", "foo"); ("/bleh/bar/../../foo", "/foo");
     ("/bleh/bar/../../foo/..", ""); ("/bleh/bar/../../foo/../meh", "/meh")]%string = true.
Proof. vm_compute. reflexivity. Qed.

(** ** Clients *)
Section claims.
Context `{KConfig} {W : Type} {impls : list (string * fs_api W)} `{!FsLaws impls}.


(** C12: in every state clients can reach, the reference count of a mount is exact: one
    while it is mounted, and one for each file and directory open on it.  So a mount
    is in the list as long as it is mounted or something is open on it, every handle
    has a live mount, and a mount with neither is freed. *)
Theorem fs_mount_refs_exact x (s : fstate W) :
  client (impls := impls) x s ->
  NoDup (f_mounts s) /\ (forall m, m ∈ f_mounts s <-> is_Some (f_mnt s !! m)) /\
  (forall m mt, f_mnt s !! m = Some mt -> mt_ref mt = Z.of_nat (x m + count (on m) (f_files s) + count (on m) (f_dirs s)) /\ 0 < mt_ref mt) /\
  (forall m, (x m <= 1)%nat) /\
  (forall m, m ∈ f_mounts s <-> (0 < x m)%nat \/ exists k hd, (f_files s !! k = Some hd \/ f_dirs s !! k = Some hd) /\ hd_mount hd = m).
Proof.
  intros Hc. destruct (client_good x s Hc) as (h & M & I). split; [apply I|]. split; [apply I|]. split.
  - intros m mt E. destruct (fi_ref _ _ _ _ I m mt E) as [-> ?]. split; [done|lia].
  - split; [intros m; by eapply client_once|]. intros m. rewrite (fi_list _ _ _ _ I m). split.
    + intros [mt E]. destruct (decide (0 < x m)%nat) as [|Hx]; [by left|]. right. by eapply held_by_handle.
    + intros [Hx|(k & hd & [E|E] & <-)]; [by apply (fi_x _ _ _ _ I)|by eapply (fi_file _ _ _ _ I)|by eapply (fi_dir _ _ _ _ I)].
Qed.

(** C36: no file system can be mounted at the root: a path without fields, like "/",
    normalizes to the empty string or stays without a slash, and [fs_mount] refuses
    it with [ERR_BAD_PATH] and changes nothing. *)
Theorem fs_mount_root_fails (s : fstate W) malloc_ok strdup_ok path fsname device api :
  0 ∉ path -> (normal (take 127 path)).2 = [] -> find_fs impls fsname = Some api ->
  fs_mount_at impls malloc_ok strdup_ok path fsname device s = Some (ERR_BAD_PATH, s).
Proof.
  intros Hp Hn Ha. unfold fs_mount_at. rewrite Ha. unfold mount, mbind at 1, f_mbind at 1, f_bind at 1. rewrite temppath_run by done. simpl.
  unfold npath_of. destruct (normal (take 127 path)) as [a fs]. simpl in Hn. subst fs. by destruct a.
Qed.
End claims.

(** The bytes an open file shows to those who read it *)
Definition shows `{KConfig} {W} (s : fstate W) (f : Z) (d : list Z) : Prop := forall o n, 0 <= o -> 0 <= n -> o + n < 2 ^ 63 ->
  let data := take (Z.to_nat n) (drop (Z.to_nat o) d) in fs_read_file f o n s = Some ((Z.of_nat (length data), data), s).

(** ** Files of a memfs through the layer *)
Section memfs.
Context `{KConfig}.
Notation impls := [memfs_impl].

(** A handle of a file of a memfs *)
Lemma memfs_handle x h M (s : fstate mworld) f hd :
  finv (impls := impls) x h M s -> f_files s !! f = Some hd ->
  exists c, mwi (f_world s) M (opens s (f_files s)) (opens s (f_dirs s)) /\ opens s (f_files s) !! f = Some (c, hd_cookie hd) /\
    forall w, let s' := with_world s w in
      (forall o n, fs_read_file f o n s' = call (memfs_read (hd_cookie hd) o n) s') /\
      (forall buf o, fs_write_file f buf o s' = call (memfs_write (hd_cookie hd) buf o) s') /\
      fs_stat_file f s' = call (memfs_stat (hd_cookie hd)) s'.
Proof.
  intros I E. destruct (file_driver _ _ _ _ _ _ I E) as (mt & name & _ & Em & Hn & _ & Ho). apply find_memfs in Hn.
  exists (mt_cookie mt). split; [exact (fi_world _ _ _ _ I)|]. split; [done|]. intros w s'.
  assert (the_file f s' = Some ((hd, mt), s')) as Et.
  { unfold the_file, the_mount, f_get, mbind, f_mbind, f_bind. simpl. rewrite E. simpl. by rewrite Em. }
  unfold fs_read_file, fs_write_file, fs_stat_file, mbind, f_mbind, f_bind. rewrite Et. simpl. by rewrite Hn.
Qed.

Lemma call_world {A} (c : dm mworld A) (s : fstate mworld) w r w' : c w = Some (r, w') -> call c (with_world s w) = Some (r, with_world s w').
Proof. intros E. unfold call. simpl. by rewrite E. Qed.

Lemma with_world_id (s : fstate mworld) : with_world s (f_world s) = s.
Proof. by destruct s. Qed.

Lemma memfs_shows x h M (s : fstate mworld) f hd n d :
  finv (impls := impls) x h M s -> f_files s !! f = Some hd -> entry (f_world s) (hd_cookie hd) = Some (n, d) ->
  Z.of_nat (length d) < 2 ^ 63 -> shows s f d.
Proof.
  intros I E En Hl o k Ho0 Hk Hok. destruct (memfs_handle x h M s f hd I E) as (c & J & Ho & Hcalls).
  destruct (Hcalls (f_world s)) as (HR & _). pose proof (call_world _ s _ _ _ (memfs_read_run _ _ _ _ J f c _ Ho n d En o k Hk Hok)) as Hc.
  rewrite with_world_id in HR, Hc. rewrite HR, Hc. by rewrite (proj2 (Z.ltb_ge o 0)), (proj2 (Z.ltb_lt (Z.of_nat (length d)) (2 ^ 63))) by lia.
Qed.

Lemma memfs_write_shows x h M (s : fstate mworld) f hd buf off st stat s0 r s1 :
  finv (impls := impls) x h M s -> f_files s !! f = Some hd -> 0 <= off -> off + Z.of_nat (length buf) < 2 ^ 63 ->
  fs_stat_file f s = Some ((st, stat), s0) -> st_size stat < 2 ^ 63 ->
  fs_write_file f buf off s = Some (r, s1) -> 0 <= r ->
  exists d d', r = Z.of_nat (length buf) /\ written d off buf d' /\ st_size stat = Z.of_nat (length d) /\ shows s f d /\ shows s1 f d' /\
    fs_stat_file f s1 = Some ((NO_ERROR, FileStat false (Z.of_nat (length d'))), s1).
Proof.
  intros I E H0 Hb Es Hsz Ew Hr. destruct (memfs_handle x h M s f hd I E) as (c & J & Ho & Hcalls).
  destruct (mwi_opened _ _ _ _ _ _ _ J Ho) as (n & d & En). pose proof (Hcalls (f_world s)) as (HR & HW & HS). rewrite with_world_id in HR, HW, HS.
  assert (forall A (cc : dm mworld A) r0 w0, cc (f_world s) = Some (r0, w0) -> call cc s = Some (r0, with_world s w0)) as Hcall.
  { intros A cc r0 w0 Ecc. unfold call. by rewrite Ecc. }
  rewrite HS, (Hcall _ _ _ _ (memfs_stat_run _ _ _ _ J f c _ Ho n d En)) in Es. injection Es as _ <- _. simpl in Hsz |- *.
  destruct (memfs_write_run _ _ _ _ J f c _ Ho n d En buf off Hb) as (r' & w1 & Ew1 & J1 & Hres).
  rewrite HW, (Hcall _ _ _ _ Ew1) in Ew. injection Ew as <- <-.
  destruct Hres as [(-> & ? & _)|[(-> & _)|(-> & _ & d' & Hw & _ & En1)]]; [done|done|].
  destruct (Hcalls w1) as (HR1 & _ & HS1). pose proof (written_length d off buf d' H0 Hw) as Hlen. exists d, d'.
  split; [done|]. split; [done|]. split; [done|]. split; [|split].
  - by eapply memfs_shows.
  - intros o k Ho0 Hk Hok. rewrite HR1, (call_world _ s w1 _ _ (memfs_read_run w1 _ _ _ J1 f c _ Ho n d' En1 o k Hk Hok)).
    by rewrite (proj2 (Z.ltb_ge o 0)), (proj2 (Z.ltb_lt (Z.of_nat (length d')) (2 ^ 63))) by lia.
  - by rewrite HS1, (call_world _ s w1 _ _ (memfs_stat_run w1 _ _ _ J1 f c _ Ho n d' En1)).
Qed.

(** C20: writing to an open file of a memfs and reading the same range gives back what was
    written, the file is as long as the write needs and never shorter than before,
    and every other part of the file reads as it did. *)
Theorem fs_memfs_write_read x (s : fstate mworld) f buf off st stat s0 r s1 :
  client (impls := impls) x s -> is_Some (f_files s !! f) -> 0 <= off -> off + Z.of_nat (length buf) < 2 ^ 63 ->
  fs_stat_file f s = Some ((st, stat), s0) -> st_size stat < 2 ^ 63 ->
  fs_write_file f buf off s = Some (r, s1) -> 0 <= r ->
  r = Z.of_nat (length buf) /\
  fs_read_file f off (Z.of_nat (length buf)) s1 = Some ((Z.of_nat (length buf), buf), s1) /\
  fs_stat_file f s1 = Some ((NO_ERROR, FileStat false (Z.max (st_size stat) (off + Z.of_nat (length buf)))), s1) /\
  forall o n, 0 <= o -> 0 <= n -> o + n <= st_size stat -> o + n <= off \/ off + Z.of_nat (length buf) <= o ->
    exists data, fs_read_file f o n s = Some ((n, data), s) /\ fs_read_file f o n s1 = Some ((n, data), s1).
Proof.
  intros Hc [hd E] H0 Hb Es Hsz Ew Hr. destruct (client_good x s Hc) as (h & M & I).
  destruct (memfs_write_shows x h M s f hd buf off st stat s0 r s1) as (d & d' & -> & Hw & Esz & Rd & Rd1 & Hst); [done..|]. rewrite Esz in Hsz |- *.
  pose proof (written_length d off buf d' H0 Hw) as Hlen. split; [done|]. split; [|split].
  - rewrite Rd1 by lia. cbv zeta. by rewrite Nat2Z.id, (written_there d off buf d').
  - by rewrite Hst, Hlen.
  - intros o k Ho0 Hk Hok Hdis. exists (take (Z.to_nat k) (drop (Z.to_nat o) d)). rewrite Rd, Rd1 by lia. cbv zeta.
    assert (take (Z.to_nat k) (drop (Z.to_nat o) d') = take (Z.to_nat k) (drop (Z.to_nat o) d)) as ->.
    { destruct Hdis; [eapply (written_before d off buf)|eapply (written_after d off buf)]; first [done|lia]. }
    rewrite length_take, length_drop. replace (Z.of_nat _) with k by lia. done.
Qed.
End memfs.

(** ** A system with memfs *)
#[local] Instance fs_config : KConfig := {| LK_DEBUGLEVEL := 2 |}.
Definition fs_boot : fstate mworld := FState [] ∅ ∅ ∅ 0 (Bios ∅ [] 0) (no_memfs [] []).
Definition after (c : fcall) (s : fstate mworld) : fstate mworld := match fexec (impls := [memfs_impl]) c s with Some (_, s') => s' | None => s end.

(** "/m", "/m/f" *)
Definition mnt_path : list Z := [47; 109].
Definition file_path : list Z := [47; 109; 47; 102].
Definition do_mount : fcall := CMount true true mnt_path "memfs" None.
Definition mounted_fs : fstate mworld := after do_mount fs_boot.
Definition opened_fs : fstate mworld := after (CCreate file_path 3) mounted_fs.

Lemma fs_boot_client : client (impls := [memfs_impl]) (fun _ => 0%nat) fs_boot.
Proof.
  apply (client_start _ (fun _ => 0%nat) ∅); [|apply mwi_start]. split; simpl; try done; try set_solver.
  - constructor.
  - lia.
Qed.

Lemma after_run c s r : fst <$> fexec (impls := [memfs_impl]) c s = Some r -> fexec (impls := [memfs_impl]) c s = Some (r, after c s).
Proof. unfold after. destruct (fexec c s) as [[r' s']|]; simpl; congruence. Qed.

Definition has_room (s : fstate mworld) : bool := forallb (fun p => mt_ref p.2 <? 2 ^ 31 - 1) (map_to_list (f_mnt s)).
Lemma has_room_ok s : has_room s = true -> froom s.
Proof.
  intros Hr m mt E. unfold has_room in Hr. rewrite List.forallb_forall in Hr.
  apply Z.ltb_lt, (Hr (m, mt)), list_elem_of_In, elem_of_map_to_list. done.
Qed.

Lemma mounted_client : client (impls := [memfs_impl]) (own (fun _ => 0%nat) fs_boot do_mount 0 mounted_fs) mounted_fs.
Proof.
  eapply client_call; [exact fs_boot_client| |apply after_run; vm_compute; reflexivity].
  split; [by apply has_room_ok|]. split; [by intros k d|]. by apply (bool_decide_unpack _).
Qed.

Lemma opened_client : client (impls := [memfs_impl]) (own (fun _ => 0%nat) fs_boot do_mount 0 mounted_fs) opened_fs.
Proof.
  eapply (client_call _ mounted_fs (CCreate file_path 3) 0 opened_fs); [exact mounted_client| |apply after_run; vm_compute; reflexivity].
  split; [apply has_room_ok; vm_compute; reflexivity|]. split; [by apply (bool_decide_unpack _)|lia].
Qed.
Lemma opened_one : is_Some (f_files opened_fs !! 1).
Proof. exists (Handle 1 0). vm_compute. reflexivity. Qed.


Lemma fs_mount_refs_exact_witness : NoDup (f_mounts opened_fs) /\ 0 ∈ f_mounts opened_fs.
Proof.
  destruct (fs_mount_refs_exact _ opened_fs opened_client) as (Hn & _ & _ & _ & Hm). split; [exact Hn|].
  apply Hm. right. exists 1, (Handle 1 0). split; [left|]; vm_compute; reflexivity.
Defined.

Lemma fs_mount_root_fails_witness : fs_mount_at [memfs_impl] true true [slash] "memfs" None fs_boot = Some (ERR_BAD_PATH, fs_boot).
Proof. apply (fs_mount_root_fails fs_boot true true [slash] "memfs" None memfs_api); [by apply (bool_decide_unpack _)|reflexivity|reflexivity]. Defined.

Definition written_fs : fstate mworld := after (CWrite 1 [1; 2] 2) opened_fs.
Lemma written_ok : fs_write_file 1 [1; 2] 2 opened_fs = Some (2, written_fs).
Proof. apply (after_run (CWrite 1 [1; 2] 2)). vm_compute. reflexivity. Qed.
Lemma opened_size : exists s0, fs_stat_file 1 opened_fs = Some ((NO_ERROR, FileStat false 3), s0).
Proof.
  assert (fst <$> fs_stat_file 1 opened_fs = Some (NO_ERROR, FileStat false 3)) as E by (vm_compute; reflexivity).
  destruct (fs_stat_file 1 opened_fs) as [[r s0]|]; [|done]. injection E as ->. by exists s0.
Qed.

Lemma fs_memfs_write_read_witness : fs_read_file 1 2 2 written_fs = Some ((2, [1; 2]), written_fs).
Proof.
  destruct opened_size as [s0 Es].
  destruct (fs_memfs_write_read _ opened_fs 1 [1; 2] 2 NO_ERROR (FileStat false 3) s0 2 written_fs opened_client opened_one)
    as (_ & Er & _); [lia|simpl; lia|exact Es|simpl; lia|exact written_ok|lia|]. exact Er.
Defined.

(** ** What the hypotheses are for *)

(** Unmounting twice while a file is open frees the mount under the handle. *)
Example double_unmount_faults :
  fexec (impls := [memfs_impl]) (CClose 1) (after (CUnmount mnt_path) (after (CUnmount mnt_path) opened_fs)) = None.
Proof. vm_compute. reflexivity. Qed.

(** memfs frees a file that is open. *)
Example remove_open_faults : fexec (impls := [memfs_impl]) (CRead 1 0 1) (after (CRemove file_path) opened_fs) = None.
Proof. vm_compute. reflexivity. Qed.

(** A mount at "/m" after one at "/m/f" hides it: the first match is taken, not the
    longest. *)
Example parent_hides_child :
  let s := after do_mount (after (CMount true true file_path "memfs" None) fs_boot) in
  find s file_path = Some (1, [47; 102]) /\ mt_path <$> f_mnt s !! 0 = Some file_path.
Proof. split; vm_compute; reflexivity. Qed.
