(* ===== verification/Stdio.v ===== *)
(** * Streams over files: [lib/libc/stdio.c]

    A [FILE] is a handle of Fs with a position, or stands for the console, whose
    [io_read] and [io_write] are arguments.  The functions get the stream and return
    it, with the position moved.  [char_signed] says whether the type char is. *)
From S2P Require Import Prelude KState Bio BioReg BioRegInv FsPath Fs FsInv FsFiles Memfs MemfsOps FsClaims.

Definition EOF : Z := -1.
Definition SEEK_SET : Z := 0.
Definition SEEK_CUR : Z := 1.
Definition SEEK_END : Z := 2.

(** [struct fs_handle], a handle that was never stored being [None], and the
    console *)
Record fs_handle := FsHandle { fh_handle : option Z; fh_offset : Z; fh_readonly : bool }.
Inductive FILE := FsFile (h : fs_handle) | Console.

Section stdio.
Context `{KConfig} {W : Type}.
Notation F := (F (W := W)).
Context (io_read : Z -> F (Z * list Z)) (io_write : list Z -> F Z) (char_signed : bool).

Definition the_handle (h : fs_handle) : F Z := match fh_handle h with Some f => mret f | None => f_fault end.
Definition moved (h : fs_handle) (n : Z) : FILE := FsFile (FsHandle (fh_handle h) (to_signed 64 (fh_offset h + n)) (fh_readonly h)).
Definition at_offset (h : fs_handle) (off : Z) : FILE := FsFile (FsHandle (fh_handle h) off (fh_readonly h)).

(** [stream_ok]: memory for the stream; [handle_ok]: for the handle *)
Definition fopen (stream_ok handle_ok : bool) (filename mode : list Z) : F (option FILE) :=
  if negb stream_ok then mret None
  else
    let readonly := negb (bool_decide (119 ∈ mode)) && negb (bool_decide (97 ∈ mode)) in
    '(ret, handle) ← fs_open_file handle_ok filename;
    '(ret, handle) ← (if (ret =? ERR_NOT_FOUND) && negb readonly then fs_create_file handle_ok filename 0 else mret (ret, handle));
    if negb (ret =? NO_ERROR) then mret None
    else
      let h := FsHandle handle 0 readonly in
      if bool_decide (97 ∈ mode) then
        f ← the_handle h;
        '(st, stat) ← fs_stat_file f;
        mret (Some (if st =? NO_ERROR then at_offset h (to_signed 64 (st_size stat)) else FsFile h))
      else mret (Some (FsFile h)).

(** A stream over a file is left open; the union of the console has no handle. *)
Definition fclose (stream : FILE) : F Z :=
  match stream with FsFile _ => mret 0 | Console => f_fault end.

Definition fread_error (size count : Z) (stream : FILE) : F (Z * list Z * FILE) :=
  if (count =? 0) || (size =? 0) then mret (0, [], stream)
  else
    match stream with
    | FsFile h =>
        f ← the_handle h;
        '(rsize, data) ← fs_read_file f (fh_offset h) (u64 (size * count));
        if rsize <=? 0 then mret (rsize, data, stream) else mret (rsize / size, data, moved h rsize)
    | Console =>
        '(rsize, data) ← io_read (u64 (size * count));
        if rsize <=? 0 then mret (rsize, data, stream) else mret (rsize / size, data, stream)
    end.

(** [ptr] has [size * count] bytes. *)
Definition fwrite_error (ptr : list Z) (size count : Z) (stream : FILE) : F (Z * FILE) :=
  if (count =? 0) || (size =? 0) then mret (0, stream)
  else
    match stream with
    | FsFile h =>
        if fh_readonly h then mret (0, stream)
        else
          f ← the_handle h;
          wsize ← fs_write_file f (take (Z.to_nat (u64 (size * count))) ptr) (fh_offset h);
          if wsize <=? 0 then mret (wsize, stream) else mret (wsize / size, moved h wsize)
    | Console =>
        wsize ← io_write (take (Z.to_nat (u64 (size * count))) ptr);
        if wsize <=? 0 then mret (wsize, stream) else mret (wsize / size, stream)
    end.

Definition fread (size count : Z) (stream : FILE) : F (Z * list Z * FILE) :=
  '(read, data, stream) ← fread_error size count stream;
  mret (if read <? 0 then 0 else read, data, stream).
Definition fwrite (ptr : list Z) (size count : Z) (stream : FILE) : F (Z * FILE) :=
  '(written, stream) ← fwrite_error ptr size count stream;
  mret (if written <? 0 then 0 else written, stream).

Definition fflush (stream : FILE) : F Z := mret 0.

Definition feof (stream : FILE) : F bool :=
  match stream with
  | Console => mret false
  | FsFile h =>
      f ← the_handle h;
      '(st, stat) ← fs_stat_file f;
      mret (if negb (st =? NO_ERROR) then true else st_size stat <=? u64 (fh_offset h))
  end.

Definition clamp (val min max : Z) : Z :=
  let t := if val <? min then min else val in if max <? t then max else t.

Definition fseek (offset whence : Z) (stream : FILE) : F (Z * FILE) :=
  match stream with
  | Console => mret (0, stream)
  | FsFile h =>
      f ← the_handle h;
      '(st, stat) ← fs_stat_file f;
      let size := to_signed 64 (st_size stat) in
      if negb (st =? NO_ERROR) then mret (-1, stream)
      else if whence =? SEEK_SET then mret (0, at_offset h (clamp offset 0 size))
      else if whence =? SEEK_CUR then mret (0, at_offset h (clamp (to_signed 64 (fh_offset h + offset)) 0 size))
      else if whence =? SEEK_END then mret (0, at_offset h (clamp (to_signed 64 (st_size stat - offset)) 0 size))
      else mret (-1, stream)
  end.

Definition ftell (stream : FILE) : F Z :=
  match stream with Console => mret 0 | FsFile h => mret (fh_offset h) end.

Definition fputc (c : Z) (fp : FILE) : F (Z * FILE) :=
  let c := wrap 8 c in
  '(written, fp) ← fwrite [c] 1 1 fp;
  mret (if written =? 0 then EOF else c, fp).

(** [s] without its zero *)
Definition fputs (s : list Z) (fp : FILE) : F (Z * FILE) :=
  let len := Z.of_nat (length s) in
  if len =? 0 then mret (0, fp)
  else
    '(written, fp) ← fwrite s 1 len fp;
    mret (if written =? 0 then EOF else to_signed 32 written, fp).

Definition puts (str : list Z) (stdout : FILE) : F (Z * FILE) :=
  '(err, stdout) ← fputs str stdout;
  if 0 <=? err then fputc 10 stdout else mret (err, stdout).

Definition char_of (c : Z) : Z := if char_signed then to_signed 8 c else wrap 8 c.
Definition fgetc (fp : FILE) : F (Z * FILE) :=
  '(err, data, fp) ← fread 1 1 fp;
  if err =? 0 then mret (EOF, fp)
  else c ← f_get (fun _ => head data); mret (char_of c, fp).

(** [n]: what [--size] leaves; [cs]: what is stored so far *)
Fixpoint fgets_loop (n : nat) (c : Z) (cs : list Z) (stream : FILE) : F (Z * list Z * FILE) :=
  match n with
  | O => mret (c, cs, stream)
  | S n =>
      '(c, stream) ← fgetc stream;
      if c =? EOF then mret (c, cs, stream)
      else
        let cs := cs ++ [wrap 8 c] in
        if c =? 10 then mret (c, cs, stream) else fgets_loop n c cs stream
  end.

(** What is returned, the string in the buffer if it is the buffer, and the stream *)
Definition fgets (size : Z) (stream : FILE) : F (option (list Z) * FILE) :=
  if size <? 1 then mret (None, stream)
  else
    '(c, cs, stream) ← fgets_loop (Z.to_nat (size - 1)) (-1) [] stream;
    mret (if (c =? EOF) && bool_decide (cs = []) then None else Some cs, stream).
End stdio.

(** ** Reading lines *)

(** The first line of [l] with its newline, of at most [n] characters *)
Fixpoint first_line (n : nat) (l : list Z) : list Z :=
  match n, l with
  | S n, c :: l => if c =? 10 then [c] else c :: first_line n l
  | _, _ => []
  end.

Lemma first_line_app n l l' : (n <= length l)%nat -> first_line n (l ++ l') = first_line n l.
Proof.
  revert n. induction l as [|c l IH]; intros [|n] Hn; simpl in *; try done; [lia|]. destruct (c =? 10); [done|]. f_equal. apply IH. lia.
Qed.

(** A line is what its characters up to the newline are. *)
Lemma first_line_whole l : 10 ∉ removelast l -> first_line (length l) l = l.
Proof.
  induction l as [|c l IH]; intros Hl; [done|]. simpl. destruct l as [|c' l]; [by destruct (c =? 10)|].
  rewrite (proj2 (Z.eqb_neq c 10)) by (simpl in Hl; set_solver). f_equal. apply IH. change (removelast (c :: c' :: l)) with (c :: removelast (c' :: l)) in Hl. set_solver.
Qed.

Section lines.
Context `{KConfig} {W : Type} (io_read : Z -> F (W := W) (Z * list Z)) (char_signed : bool).

(** A byte that is not taken for the end of the file *)
Definition readable (c : Z) : Prop := 0 <= c < 256 /\ char_of char_signed c <> EOF.

Lemma char_of_byte c : readable c -> wrap 8 (char_of char_signed c) = c /\ (char_of char_signed c =? 10) = (c =? 10).
Proof.
  intros [Hc _]. unfold char_of. destruct char_signed; [|rewrite !(wrap_small 8 c) by lia; done].
  unfold to_signed. cbv zeta. rewrite (wrap_small 8 c) by lia. change (2 ^ (8 - 1)) with 128.
  destruct (Z.ltb_spec c 128) as [E|E]; [by rewrite wrap_small by lia|].
  split; [|rewrite (proj2 (Z.eqb_neq _ 10)), (proj2 (Z.eqb_neq c 10)); lia].
  unfold wrap. replace (c - 2 ^ 8) with (c + (-1) * 2 ^ 8) by lia. rewrite Z.mod_add by lia. apply Z.mod_small. lia.
Qed.

Context (s : fstate W) (f : Z) (d : list Z) (Hd : shows s f d) (Hsize : Z.of_nat (length d) < 2 ^ 63 - 1).
Notation at_pos off := (fun ro => FsFile (FsHandle (Some f) (Z.of_nat off) ro)).

Lemma fgetc_run off ro : (off <= length d)%nat ->
  fgetc io_read char_signed (at_pos off ro) s =
    Some (match d !! off with Some c => (char_of char_signed c, at_pos (S off) ro) | None => (EOF, at_pos off ro) end, s).
Proof using All.
  intros Hoff. unfold fgetc, fread, fread_error. simpl. unfold mbind, f_mbind, f_bind, mret, f_mret, f_ret. simpl.
  change (u64 (1 * 1)) with 1. rewrite Hd by lia. cbv zeta. rewrite Nat2Z.id. change (Z.to_nat 1) with 1%nat.
  destruct (d !! off) as [c|] eqn:E.
  - rewrite (drop_S _ _ _ E). simpl. unfold moved. simpl. rewrite to_signed_small by (apply lookup_lt_Some in E; lia).
    by replace (Z.of_nat off + Z.of_nat 1) with (Z.of_nat (S off)) by lia.
  - apply lookup_ge_None in E. rewrite drop_ge by lia. done.
Qed.

Lemma fgets_loop_run n : forall off c cs ro, (off <= length d)%nat ->
  let line := first_line n (drop off d) in
  Forall readable line ->
  exists c', fgets_loop io_read char_signed n c cs (at_pos off ro) s = Some ((c', cs ++ line, at_pos (off + length line) ro), s) /\
    (line = [] -> c = EOF -> c' = EOF).
Proof using All.
  induction n as [|n IH]; intros off c cs ro Hoff line Hr; subst line; cbn [fgets_loop first_line].
  - exists c. rewrite app_nil_r, Nat.add_0_r. done.
  - unfold mbind, f_mbind, f_bind. rewrite fgetc_run by done. destruct (d !! off) as [c0|] eqn:E.
    + rewrite (drop_S _ _ _ E) in Hr |- *. cbn [first_line] in Hr.
      assert (readable c0) as Hc by (destruct (c0 =? 10); by inv Hr). destruct (char_of_byte c0 Hc) as [Ew En]. simpl.
      rewrite (proj2 (Z.eqb_neq _ EOF)) by apply Hc. rewrite Ew, En. destruct (c0 =? 10).
      * eexists. rewrite Nat.add_1_r. done.
      * apply lookup_lt_Some in E. inv Hr. destruct (IH (S off) (char_of char_signed c0) (cs ++ [c0]) ro ltac:(lia) ltac:(done)) as (c' & -> & _).
        exists c'. rewrite <- app_assoc. simpl. by replace (off + S (length (first_line n (drop (S off) d))))%nat with (S off + length (first_line n (drop (S off) d)))%nat by lia.
    + apply lookup_ge_None in E. rewrite drop_ge by lia. simpl. exists EOF. by rewrite app_nil_r, Nat.add_0_r.
Qed.

Lemma fgets_run size off ro : 1 <= size -> (off <= length d)%nat ->
  let line := first_line (Z.to_nat (size - 1)) (drop off d) in
  Forall readable line ->
  fgets io_read char_signed size (at_pos off ro) s =
    Some ((if bool_decide (line = []) then None else Some line, at_pos (off + length line) ro), s).
Proof using All.
  intros Hs Hoff line Hr. unfold fgets. rewrite (proj2 (Z.ltb_ge size 1)) by lia. unfold mbind, f_mbind, f_bind.
  destruct (fgets_loop_run (Z.to_nat (size - 1)) off (-1) [] ro Hoff Hr) as (c' & -> & Hc). fold line. simpl. fold line in Hc.
  case_bool_decide as El; [rewrite Hc by done; done|]. by rewrite andb_false_r.
Qed.
End lines.

(** ** Claims *)

(** C22: [fgets] on a stream over a file returns the next line: the characters from the
    position of the stream up to and with the first newline, but no more than fit the
    buffer beside the zero, or NULL at the end of the file; the stream moves behind
    them, and the file system is left as it was.  The line may hold any bytes but
    those [fgetc] takes for the end of the file. *)
Theorem fgets_correct `{KConfig} {W} (io_read : Z -> F (W := W) (Z * list Z)) char_signed (s : fstate W) f d size off ro :
  shows s f d -> Z.of_nat (length d) < 2 ^ 63 - 1 -> 1 <= size -> (off <= length d)%nat ->
  let line := first_line (Z.to_nat (size - 1)) (drop off d) in
  Forall (readable char_signed) line ->
  fgets io_read char_signed size (FsFile (FsHandle (Some f) (Z.of_nat off) ro)) s =
    Some ((if bool_decide (line = []) then None else Some line, FsFile (FsHandle (Some f) (Z.of_nat (off + length line)) ro)), s).
Proof. intros Hd Hl Hs Ho line Hr. by apply (fgets_run io_read char_signed s f d Hd Hl). Qed.

(** ** Through memfs *)
Section roundtrip.
Context `{KConfig} (io_read : Z -> F (W := mworld) (Z * list Z)) (io_write : list Z -> F (W := mworld) Z) (char_signed : bool).
Notation stream_at f off := (FsFile (FsHandle (Some f) off false)).

(** A write that stored something *)
Lemma fwrite_stored (s : fstate mworld) f off buf r fp s1 :
  0 < Z.of_nat (length buf) < 2 ^ 63 -> fwrite io_write buf 1 (Z.of_nat (length buf)) (stream_at f off) s = Some ((r, fp), s1) -> 0 < r ->
  fs_write_file f buf off s = Some (r, s1) /\ fp = stream_at f (to_signed 64 (off + r)).
Proof.
  intros Hl Ew Hr. unfold fwrite, fwrite_error in Ew. rewrite (proj2 (Z.eqb_neq _ 0)) in Ew by lia. change (1 =? 0) with false in Ew. cbn [orb fh_readonly fh_handle fh_offset the_handle] in Ew.
  rewrite Z.mul_1_l, (wrap_small 64) in Ew by lia. rewrite Nat2Z.id, take_ge in Ew by lia.
  unfold mbind, f_mbind, f_bind, mret, f_mret, f_ret in Ew. cbn in Ew. destruct (fs_write_file f buf off s) as [[wsize s']|]; cbn in Ew; [|done].
  destruct (Z.leb_spec wsize 0); cbn in Ew.
  - destruct (Z.ltb_spec wsize 0); simplify_eq; lia.
  - rewrite Z.div_1_r in Ew. rewrite (proj2 (Z.ltb_ge wsize 0)) in Ew by lia. by simplify_eq.
Qed.

Lemma fread_shown (s : fstate mworld) f off buf d :
  shows s f d -> 0 <= off -> off + Z.of_nat (length buf) < 2 ^ 63 -> buf <> [] -> take (length buf) (drop (Z.to_nat off) d) = buf ->
  fread io_read 1 (Z.of_nat (length buf)) (stream_at f off) s =
    Some ((Z.of_nat (length buf), buf, stream_at f (off + Z.of_nat (length buf))), s).
Proof.
  intros Hd H0 Hb Hne Ht. assert (0 < Z.of_nat (length buf)) by (destruct buf; [done|simpl; lia]).
  unfold fread, fread_error. rewrite (proj2 (Z.eqb_neq _ 0)) by lia. change (1 =? 0) with false. cbn [orb fh_readonly fh_handle fh_offset the_handle].
  rewrite Z.mul_1_l, (wrap_small 64) by lia. unfold mbind, f_mbind, f_bind, mret, f_mret, f_ret. cbn. rewrite Hd by lia. cbv zeta.
  rewrite Nat2Z.id, Ht. cbn. rewrite (proj2 (Z.leb_gt _ 0)) by lia. cbn. rewrite Z.div_1_r, (proj2 (Z.ltb_ge _ 0)) by lia.
  unfold moved. cbn. by rewrite to_signed_small by lia.
Qed.

(** Writing to a stream over a file of a memfs, seeking back and reading gives back
    what was written: [fread] returns all of the bytes, and [fgets], given room for
    them, the line that they are if no newline comes before their end.  Both leave
    the stream where the write left it. *)
Theorem stdio_write_read x (s : fstate mworld) f off buf st stat s0 r fp s1 :
  client (impls := [memfs_impl]) x s -> is_Some (f_files s !! f) -> buf <> [] -> 0 <= off -> off + Z.of_nat (length buf) < 2 ^ 63 - 1 ->
  fs_stat_file f s = Some ((st, stat), s0) -> st_size stat < 2 ^ 63 - 1 ->
  fwrite io_write buf 1 (Z.of_nat (length buf)) (stream_at f off) s = Some ((r, fp), s1) -> 0 < r ->
  r = Z.of_nat (length buf) /\
  fseek off SEEK_SET fp s1 = Some ((0, stream_at f off), s1) /\
  fread io_read 1 (Z.of_nat (length buf)) (stream_at f off) s1 = Some ((r, buf, fp), s1) /\
  (10 ∉ removelast buf -> Forall (readable char_signed) buf ->
   fgets io_read char_signed (r + 1) (stream_at f off) s1 = Some ((Some buf, fp), s1)).
Proof.
  intros Hc [hd E] Hne H0 Hb Es Hsz Ew Hr. destruct (client_good x s Hc) as (h & M & I).
  assert (0 < Z.of_nat (length buf)) by (destruct buf; [done|simpl; lia]).
  destruct (fwrite_stored s f off buf r fp s1) as [Ef ->]; [lia|done|done|].
  destruct (memfs_write_shows x h M s f hd buf off st stat s0 r s1) as (d & d' & -> & Hw & Esz & _ & Rd & Hst); [first [done|lia]..|].
  pose proof (written_length d off buf d' H0 Hw) as Hlen. pose proof (written_there d off buf d' H0 Hw) as Hth.
  rewrite to_signed_small by lia. split; [done|]. split; [|split].
  - unfold fseek, mbind, f_mbind, f_bind. cbn. rewrite Hst. cbn. unfold at_offset, clamp. cbn. rewrite to_signed_small by lia.
    by rewrite (proj2 (Z.ltb_ge off 0)), (proj2 (Z.ltb_ge _ off)) by lia.
  - apply (fread_shown s1 f off buf d'); first [done|lia].
  - intros Hnl Hrd.
    assert (first_line (length buf) (drop (Z.to_nat off) d') = buf) as El.
    { rewrite <- (take_drop (length buf) (drop (Z.to_nat off) d')), Hth, first_line_app by lia. by apply first_line_whole. }
    pose proof (fgets_run io_read char_signed s1 f d' Rd ltac:(lia) (Z.of_nat (length buf) + 1) (Z.to_nat off) false ltac:(lia) ltac:(lia)) as Hg.
    cbv zeta in Hg. replace (Z.to_nat (Z.of_nat (length buf) + 1 - 1)) with (length buf) in Hg by lia. rewrite El, Z2Nat.id in Hg by lia.
    rewrite Hg by done. rewrite bool_decide_false by done. do 5 f_equal. lia.
Qed.
End roundtrip.

(** ** Witnesses: a file "/m/f" of three bytes *)
#[local] Instance stdio_config : KConfig := {| LK_DEBUGLEVEL := 2 |}.
Definition no_read (n : Z) : F (W := mworld) (Z * list Z) := mret (0, []).
Definition no_write (buf : list Z) : F (W := mworld) Z := mret 0.
Definition hi : list Z := [104; 105; 10].
Definition lined_fs : fstate mworld := after (CWrite 1 hi 0) opened_fs.

Lemma lined_client : exists x, client (impls := [memfs_impl]) x lined_fs.
Proof.
  eexists. apply (client_call _ opened_fs (CWrite 1 hi 0) 3 lined_fs opened_client); [|apply after_run; vm_compute; reflexivity].
  split; [exact opened_one|simpl; lia].
Qed.
Lemma lined_shows : shows lined_fs 1 hi.
Proof.
  destruct lined_client as [x (h & M & I)%client_good].
  apply (memfs_shows x h M lined_fs 1 (Handle 1 0) [102] hi I); [vm_compute; reflexivity|vm_compute; reflexivity|simpl; lia].
Qed.

(** The line "hi" *)
Lemma fgets_correct_witness :
  fgets no_read true 16 (FsFile (FsHandle (Some 1) 0 true)) lined_fs = Some ((Some hi, FsFile (FsHandle (Some 1) 3 true)), lined_fs).
Proof.
  apply (fgets_correct no_read true lined_fs 1 hi 16 0 true); [exact lined_shows|simpl; lia|lia|simpl; lia|].
  vm_compute first_line. repeat constructor; simpl; try lia; discriminate.
Defined.

Lemma fwrite_hi : exists s1, fwrite no_write hi 1 3 (FsFile (FsHandle (Some 1) 0 false)) opened_fs = Some ((3, FsFile (FsHandle (Some 1) 3 false)), s1).
Proof.
  assert (fst <$> fwrite no_write hi 1 3 (FsFile (FsHandle (Some 1) 0 false)) opened_fs = Some (3, FsFile (FsHandle (Some 1) 3 false))) as E by (vm_compute; reflexivity).
  destruct (fwrite no_write hi 1 3 _ opened_fs) as [[r s1]|]; [|done]. injection E as ->. by exists s1.
Qed.

Lemma stdio_write_read_witness : exists s1,
  fwrite no_write hi 1 3 (FsFile (FsHandle (Some 1) 0 false)) opened_fs = Some ((3, FsFile (FsHandle (Some 1) 3 false)), s1) /\
  fread no_read 1 3 (FsFile (FsHandle (Some 1) 0 false)) s1 = Some ((3, hi, FsFile (FsHandle (Some 1) 3 false)), s1).
Proof.
  destruct fwrite_hi as [s1 Ew], opened_size as [s0 Es]. exists s1. split; [exact Ew|].
  destruct (stdio_write_read no_read no_write true _ opened_fs 1 0 hi NO_ERROR (FileStat false 3) s0 3 (FsFile (FsHandle (Some 1) 3 false)) s1 opened_client opened_one)
    as (_ & _ & Er & _); [discriminate|lia|simpl; lia|exact Es|simpl; lia|exact Ew|lia|]. exact Er.
Defined.

(** [fclose] leaves the handle of a stream over a file open. *)
Example fclose_leaves_open :
  (fun p => (p.1, f_files p.2 !! 1)) <$> fclose (FsFile (FsHandle (Some 1) 0 false)) opened_fs = Some (0, Some (Handle 1 0)).
Proof. vm_compute. reflexivity. Qed.

(** Where char is signed, a byte 255 ends the file for [fgets]. *)
Example fgets_stops_at_255 :
  let s := after (CWrite 1 [255; 104; 10] 0) opened_fs in
  (fun p => p.1.1) <$> fgets no_read true 16 (FsFile (FsHandle (Some 1) 0 true)) s = Some None.
Proof. vm_compute. reflexivity. Qed.
